(* ===== verification/_CoqProject ===== *)
-Q . S2P
Prelude.v
CLib.v
PageRepl.v
PageSpec.v
Belady.v
Queues.v
Recency.v
PageTheorems.v
SysCalls.v
Crossroad.v
CrossSafety.v
CrossMemory.v
CrossEnds.v
CrossTheorems.v
OsEnv.v
Lscpu.v
LscpuTheorems.v
LongDouble.v
LongDoubleBounds.v
ProcFs.v
Ps.v
PsPrint.v
PsTheorems.v
TopProc.v
TopSort.v
TopPrint.v
Top.v
TopTheorems.v
TopEquiv.v
TypedProc.v
PsListing.v
SchedInfo.v
SchedInfoTheorems.v
SchedClass.v
SchedClassTheorems.v
SchedCalls.v
SchedCallsTheorems.v
RunQueue.v
RunQueueInv.v
RunQueueSched.v
RunQueueEvents.v
RunQueueCount.v
RtTextbook.v
RunQueueProps.v
SetPrio.v
SetPrioInv.v
SetPrioEvents.v
SetPrioProps.v
UClamp.v
UClampRq.v
UClampSys.v
UClampInv.v
UClampTheorems.v
UClampTree.v
UClampProps.v
TaskGroup.v
TaskGroupTree.v
TaskGroupBw.v
TaskGroupInv.v
TaskGroupFiles.v
TaskGroupProps.v
Affinity.v
AffinityInv.v
AffinitySteps.v
AffinityLive.v
AffinityProps.v
AffinityCalls.v
AffinityCallsTheorems.v
AffinityRefines.v
WakeUp.v
WakeUpInv.v
WakeUpCount.v
WakeUpLive.v
WakeUpProps.v
Workload.v
WorkloadTheorems.v
