(* ===== verification/Prelude.v ===== *)
(** * Operating-systems course work: a verification library

    The repository holds six assignments.  Assignment 1 is text; the others are
    C programs and changes to the Linux 5.11.22 scheduler.  This library models
    the programs as executable functions and step relations and proves what
    they guarantee, and where they fail.

    ** Files

    - Shared: [Prelude] (the error monad [res] with the faults of the C abstract
      machine, checked arrays, tactics, the closure [steps] of a step relation);
      [CLib] (machine integers, scanf/printf directives, strings in buffers of a
      known size, calendar time); [LongDouble] (the 80-bit [long double] as an
      instance of [SpecFloat]), [LongDoubleBounds] (how large its results are); [OsEnv] (one snapshot of /proc, /sys, users and
      clock, the argument of every function that reads the machine).
    - src/Assignment_5/simulator.c: [PageRepl] (Module [Sim]: one step function per
      algorithm, [run_loop], [read_file], [command_loop], [main]).  [PageSpec]
      has the abstract specification [paging] (any policy on a bounded cache) and
      the frame-array invariant; [Belady], [Queues] and [Recency] the algorithms
      against their textbook forms; [PageTheorems] the properties.
    - src/Assignment_3: [SysCalls] (the four sys_basic_*.c, their table entries, and
      syscall_operation.c as client; user memory is the interface [put_user]).
    - src/Assignment_6/program.c: [Crossroad] (the globals as [state], a program
      counter per thread, mutexes and condition variables, one step per
      statement); [CrossSafety] (invariants by rule induction); [CrossMemory] (the
      arrays and their indices); [CrossEnds] (a potential that every step of a thread
      lowers and a spurious wake-up raises by at most 17);
      [CrossTheorems] the properties.
    - src/Assignment_2/mylscpu.c: [Lscpu], [LscpuTheorems].
    - src/Assignment_2/myps.c and mytop.c: [ProcFs] (functions the two share),
      [Ps] and [PsPrint] with [PsTheorems]; [TopProc] (processes, CPU share per
      refresh, bubble sort), [TopSort], [TopPrint] (PrintTOP as the list of
      drawing operations), [Top] (keys, options, refresh, loop, main),
      [TopTheorems].  [TopEquiv] compares the bubble sort with a merge sort and
      the two programs with each other; [TypedProc] has the declared types of
      their arrays; [PsListing] shows that the list of myps is complete.
    - src/Assignment_4: [SchedInfo] (stats.h with [accumulated_cputime], its callers
      in cfs/core.c), [SchedClass] (priorities, policies, sched_fork, nice and
      sched_setscheduler of cfs/core.c and fifo/core.c; the class [headers] is
      what other kernel files provide), [Workload] (cfs.c, cfs_nice.c), and the
      file with theorems of each.
    - The scheduling system calls of fifo/core.c: [SchedCalls] (from the bytes of user
      memory, with the interface [uaccess] of the copying functions, to SchedClass
      and back), [SchedCallsTheorems].
    - The run queue of one CPU in fifo/core.c: [RunQueue] (fork, wake-up, sleep,
      exit, tick, preemption, yield, __schedule; the scheduling classes are the
      interface [sched_classes] with the laws [sched_classes_ok] and [rt_ok]);
      [RunQueueInv], [RunQueueSched], [RunQueueEvents] and [RunQueueCount] carry
      the invariants over one event and over histories; [RtTextbook] is an
      instance of the interface; [RunQueueProps] the properties.  [SetPrio] (nice,
      sched_setscheduler and priority inheritance on a task of that queue; hooks
      [prio_classes]), [SetPrioInv], [SetPrioEvents] and [SetPrioProps] in the same way.
    - Utilization clamps in fifo/core.c: [UClamp] (buckets, effective clamps,
      requests), [UClampSys] (groups, files, sysctl, the callers, histories);
      [UClampRq], [UClampInv], [UClampTheorems] and [UClampTree] the invariants;
      [UClampProps] the properties.
    - Task groups in fifo/core.c: [TaskGroup] (the store of groups linked by parent
      and children, creation and release, the walk with two gotos, CFS bandwidth,
      the files; fair.c and sscanf are the interface [fair_class]); [TaskGroupTree]
      (the tree in the store), [TaskGroupBw] (the check over the hierarchy),
      [TaskGroupInv] (the invariant, event by event), [TaskGroupFiles] (texts, weights,
      steps of a change), [TaskGroupProps] the properties.
    - The CPUs a task may run on, in fifo/core.c: [Affinity] (__set_cpus_allowed_ptr,
      affine_move_task, the stopper's migration_cpu_stop and push_cpu_stop,
      migrate_disable and migrate_enable as interleaved steps of callers, stoppers
      and the task), [AffinityInv] (a request in numbers), [AffinitySteps] (the
      invariant, step by step), [AffinityLive] (progress, where the task is),
      [AffinityProps] the properties.  [AffinityCalls] (sched_setaffinity,
      sched_getaffinity and select_task_rq over bitmaps, with the topology
      [cpu_topology] as interface and __set_cpus_allowed_ptr as one step) with
      [AffinityCallsTheorems]; [AffinityRefines] shows that the protocol of [Affinity]
      refines that step.
    - Wake-ups between CPUs, in fifo/core.c and stats.h: [WakeUp] (try_to_wake_up, the
      parts of __schedule other CPUs can look into, wake lists, migration, and what
      is counted, as steps of any number of wakers and CPUs), [WakeUpInv] (the
      invariant of tasks and CPUs), [WakeUpCount] (the counters as sums over the
      tasks), [WakeUpLive] (progress), [WakeUpProps] the properties.  It complements
      [RunQueue], which has the queue of one CPU in full and no other CPU.

    ** Correspondence

    A definition has the name of the function, variable or macro it models; a
    piece of a long function has a name of its own, and its comment says which.  A C function that can go wrong returns [res]: [Err] names the fault
    (out of bounds, overflow of a buffer, division by zero, read of an
    indeterminate value, ...) or the exit status.  Globals a function changes are
    arguments and results.  Integers are [Z] with [s32], [u32], [s64], [u64] where
    they wrap.  Threads are a step relation, so every interleaving of statements
    is covered; the turns of mytop and the events of a run queue are lists.

    ** What the theorems show

    - Simulator: every method is demand paging with an exact fault count; OPT has
      the fewest faults of any policy; LRU, FIFO and Second-Chance refine the
      recency list and the queues; LRU never gains faults with more frames, FIFO
      does on Belady's string; a printed file is read back; [main] ends.
    - System calls: results as on 32-bit integers, faults on bad pointers and
      undefined divisions; a session of the calculator prints the right values.
    - Crossroad: in every interleaving without spurious wake-ups two vehicles cross
      together only when they face each other; in every interleaving at all the
      final counts are those of the start list; concrete schedules show a lost
      wake-up that blocks the program, a spurious wake-up that breaks safety, and
      an overrun of the start list.  Three accesses can leave their array, and
      without spurious wake-ups only that of the start list by job0; a history with
      w spurious wake-ups has at most 3858 + 18 w events; under the sleeps of
      the program every list of one to four vehicles gets through.
    - mylscpu, myps: what the kernel writes in /proc is what ends in the fields and
      in the columns, and the search of a well-formed /proc lists every selected
      process; and the inputs on which buffers or formats fail.
    - mytop: the table is a sorted permutation in every mode; the options and keys
      keep the state in range; -n stops exactly; columns never overlap; a narrow
      terminal, a second refresh within a second, and -d with ENTER go wrong.
    - mytop's sort is the merge sort by its order; on one snapshot myps and the first
      screen of mytop have the same processes with the same values, but for the total
      that %MEM is a share of, mytop in the order of its sort.
    - Kernel: the accumulated CPU time is exact over any history; priorities,
      policy and class stay consistent in the default kernel and do not in the
      FIFO one; which requests are redirected; nice.  The experiments print what
      they should on a terminal and repeat themselves when redirected.
    - System calls: what sched_setattr stores sched_getattr reports; structures of
      every size get the documented answer; no call writes outside the buffer;
      the reported ranges of priorities are those accepted.
    - Run queue: the best task runs, each real-time priority is a first-in,
      first-out queue as long as nobody yields and no time slice is counted (SCHED_RR
      tasks move to the tail), a task keeps the CPU until it sleeps or a better one
      comes, no wake-up is lost, the counters are exact.  Priority changes of waiting
      and running tasks keep the best task running, put the task where sched(7) says,
      do to it what SchedClass computes, and an inherited priority is given back.
    - Clamps: buckets count exactly the active tasks, the queue serves every one of
      them unless a clamp is updated in place, the group hierarchy is as if
      recomputed from the root, the files read back what was written; and the
      requests and histories on which clamps are lost.
    - Task groups: the walk is the recursive traversal and meets every group once; a
      request for bandwidth is accepted exactly when the limits fit, so on cgroup 1
      no group outbids one above it, while on cgroup 2 the cached limit is always
      "none"; the bandwidth switch is on at every step that needs it; the files of
      weights and limits read back what was written.
    - Affinity: in every interleaving no request is used after its owner returned and
      no stopper work is queued twice; every call returns; the task ends on a CPU of
      its mask, but for one race of migration_cpu_stop with migrate_disable.  A woken
      task is put on a CPU it may use, the fallback loop ends without BUG(); what
      sched_setaffinity is given sched_getaffinity reports; and at any moment of the
      protocol its locked section returns and stores what the calls assume.
    - Wake-ups between CPUs: a task is on one CPU at a time and nothing executes on its
      stack when it is queued elsewhere; a wake-up that has begun is completed;
      nr_iowait, nr_uninterruptible and the calls to PSI are exact at every moment.

    ** Fuel and bounds

    [command_loop], [calculator] and [count_processors] take one unit more than the
    bytes of input, and each turn consumes a byte ([main_never_out_of_fuel],
    [calculator_reads_input]); [show_loop] takes the binary length of the number,
    which has at least as many digits ([log2_fuel]); [split_years] takes one unit
    per possible year; [schedule] needs one round ([schedule_once]);
    [walk_tg_tree_from] takes two steps per group ([cost_ids], [walk_from]); the callers
    and stoppers of an affinity change take at most [left] steps; [fallback_loop] needs
    three turns and has four ([loop_found]); wakers and CPUs inside __schedule take at
    most [WakeUpLive.left] steps; every step of a thread of the crossroad lowers
    [potential], which is 3858 at the start.  [cooperative] only produces concrete schedules.  All other
    loops are structural.  The search of /proc is bounded by the directory, the
    process list by its 4096 entries (a fault, not an assumption).

    ** What is not modelled

    Of core.c: load balancing and which task a class picks on several CPUs at once
    ([WakeUp] leaves both free), hotplug, deadline parameters
    and the moment a running deadline task leaves its class, boot and
    debugging output; of sched.h what these use.  Also ncurses beyond the list of drawing
    operations, messages on stderr, [sleep], concurrent changes of /proc while it
    is read, and the contents of buffers behind the terminating NUL.  The clock
    is one value per snapshot.  A redirected stdout is assumed to fit its buffer.

    ** Open

    Liveness of the crossroad under the cooperative schedule is computed for all lists
    of up to four vehicles, not proved for all lists; the lower rows of mytop's
    screen are modelled but not compared with /proc/meminfo. *)

From Stdlib Require Import ZArith Lia.
From stdpp Require Export base option list list_numbers gmap strings.

#[global] Open Scope Z_scope.

(** ** Faults

    What the C abstract machine does when a program steps outside its defined
    behaviour, plus the two ways a C program stops early on purpose. *)
Inductive fault : Type :=
  | OutOfBounds      (** an array access outside the array *)
  | BufferOverflow   (** a string function writing past its buffer *)
  | DivideByZero     (** integer division or remainder by zero *)
  | BadArraySize     (** a variable-length array whose size is not positive *)
  | Overflow         (** signed overflow or an out-of-range conversion *)
  | Uninitialised    (** a read of an indeterminate object *)
  | NullPointer      (** a dereference of NULL *)
  | Bug              (** the kernel's BUG() *)
  | Exit (code : Z). (** a call of exit(code) *)

#[export] Instance fault_eq_dec : EqDecision fault.
Proof. solve_decision. Defined.

(** ** The error monad every fallible operation returns in *)
Inductive res (A : Type) : Type :=
  | Ok (a : A)
  | Err (e : fault).
Arguments Ok {A} a.
Arguments Err {A} e.

#[export] Instance res_ret : MRet res := fun A a => Ok a.
#[export] Instance res_bind : MBind res :=
  fun A B f m => match m with Ok a => f a | Err e => Err e end.
#[export] Instance res_fmap : FMap res :=
  fun A B f m => match m with Ok a => Ok (f a) | Err e => Err e end.

#[export] Instance res_eq_dec {A} `{EqDecision A} : EqDecision (res A).
Proof. solve_decision. Defined.

(** [require b e]: go on when [b] holds, fail with [e] otherwise. *)
Definition require (b : bool) (e : fault) : res unit := if b then Ok tt else Err e.

Definition of_option {A} (e : fault) (o : option A) : res A :=
  match o with Some a => Ok a | None => Err e end.

Definition is_ok {A} (r : res A) : bool :=
  match r with Ok _ => true | Err _ => false end.

Declare Scope c_scope.
Delimit Scope c_scope with c.
Notation "a <? b" := (Z.ltb a b) : c_scope.
Notation "a <=? b" := (Z.leb a b) : c_scope.
Notation "a =? b" := (Z.eqb a b) : c_scope.

(** ** Arrays: a list with checked indexing by a C integer *)
Definition aget {A} (l : list A) (i : Z) : res A :=
  if (0 <=? i)%c then of_option OutOfBounds (l !! Z.to_nat i) else Err OutOfBounds.

Definition aset {A} (l : list A) (i : Z) (x : A) : res (list A) :=
  if ((0 <=? i)%c && (i <? Z.of_nat (length l))%c)%bool
  then Ok (<[Z.to_nat i := x]> l) else Err OutOfBounds.

(** ** Tactics *)

(** Split every [res] computation in hypothesis [H : _ = Ok _]. *)
Ltac res_inv H :=
  repeat match type of H with
  | mbind _ ?m = Ok _ =>
      let E := fresh "E" in destruct m eqn:E; simpl in H; [|discriminate H]
  | Ok _ = Ok _ => injection H as H
  | Err _ = Ok _ => discriminate H
  end.

(** Turn the boolean comparisons of a context into propositions. *)
Ltac bool_to_prop :=
  repeat match goal with
  | H : (_ && _)%bool = true |- _ => apply andb_prop in H as [? ?]
  | H : (_ || _)%bool = false |- _ => apply orb_false_elim in H as [? ?]
  | H : (_ =? _) = true |- _ => apply Z.eqb_eq in H
  | H : (_ =? _) = false |- _ => apply Z.eqb_neq in H
  | H : (_ <? _) = true |- _ => apply Z.ltb_lt in H
  | H : (_ <? _) = false |- _ => apply Z.ltb_ge in H
  | H : (_ <=? _) = true |- _ => apply Z.leb_le in H
  | H : (_ <=? _) = false |- _ => apply Z.leb_gt in H
  | H : negb _ = true |- _ => apply negb_true_iff in H
  | H : negb _ = false |- _ => apply negb_false_iff in H
  end.

(** Case analysis on the next boolean test of the goal. *)
Ltac case_bool :=
  match goal with
  | |- context [if ?b then _ else _] => let E := fresh "E" in destruct b eqn:E
  end.

(** ** Generic lemmas *)
Lemma aget_ok {A} (l : list A) (i : nat) (x : A) :
  l !! i = Some x -> aget l (Z.of_nat i) = Ok x.
Proof.
  intros Hi. unfold aget. rewrite (proj2 (Z.leb_le _ _)) by lia.
  by rewrite Nat2Z.id, Hi.
Qed.

Lemma aset_ok {A} (l : list A) (i : nat) (x : A) :
  (i < length l)%nat -> aset l (Z.of_nat i) x = Ok (<[i := x]> l).
Proof.
  intros Hi. unfold aset.
  rewrite (proj2 (Z.leb_le _ _)), (proj2 (Z.ltb_lt _ _)) by lia.
  simpl. by rewrite Nat2Z.id.
Qed.

Lemma aset_length {A} (l l' : list A) i x : aset l i x = Ok l' -> length l' = length l.
Proof.
  unfold aset. case_bool; [|done]. intros [= <-]. apply length_insert.
Qed.

Lemma bind_ok {A B} (m : res A) (f : A -> res B) (b : B) :
  mbind f m = Ok b <-> exists a, m = Ok a /\ f a = Ok b.
Proof.
  split.
  - destruct m as [a|e]; simpl; [eauto|discriminate].
  - intros (a & -> & Hf). exact Hf.
Qed.

(** Invert the binds of [H : _ = Ok _] without computing in them. *)
Ltac binds H :=
  repeat match type of H with
  | mbind _ _ = Ok _ => apply bind_ok in H as (? & ? & H)
  | (match ?x with pair _ _ => _ end) = Ok _ =>
      first [is_var x; destruct x | destruct x eqn:?]
  | Err _ = Ok _ => discriminate H
  end.

Lemma require_ok (b : bool) e : b = true -> require b e = Ok tt.
Proof. by intros ->. Qed.

(** ** Hints shared by the components *)
Create HintDb cmodel.
Create Rewrite HintDb cmodel.
#[export] Hint Rewrite @length_insert @length_app @length_replicate : cmodel.
#[export] Hint Resolve aget_ok aset_ok require_ok : cmodel.

(** ** Finite executions: the reflexive-transitive closure of a step relation *)
Section Executions.
Context {S : Type} (step : S -> S -> Prop).

Inductive steps : S -> S -> Prop :=
  | steps_refl s : steps s s
  | steps_next s1 s2 s3 : steps s1 s2 -> step s2 s3 -> steps s1 s3.

Lemma steps_one s1 s2 : step s1 s2 -> steps s1 s2.
Proof. intros H. eapply steps_next; [apply steps_refl | exact H]. Qed.

Lemma steps_trans s1 s2 s3 : steps s1 s2 -> steps s2 s3 -> steps s1 s3.
Proof.
  intros H12 H23. induction H23 as [|a b c Hab IH Hbc]; [exact H12|].
  exact (steps_next s1 b c (IH H12) Hbc).
Qed.

(** Rule induction: what holds initially and is kept by every step always holds. *)
Lemma steps_invariant (P : S -> Prop) s0 s :
  P s0 -> (forall a b, P a -> step a b -> P b) -> steps s0 s -> P s.
Proof. intros H0 Hs Hst. induction Hst; eauto. Qed.
End Executions.

(** ** Sums over a map *)
Definition b2z (b : bool) : Z := if b then 1 else 0.
Lemma b2z_range b : 0 <= b2z b <= 1.
Proof. destruct b; simpl; lia. Qed.

Section Sums.
Context {A : Type} (w : A -> Z).
Definition msum (m : gmap Z A) : Z := map_fold (fun _ x n => w x + n) 0 m.

Lemma msum_delete m k : msum (delete k m) = msum m - from_option w 0 (m !! k).
Proof.
  destruct (m !! k) as [x|] eqn:E; simpl; [|by rewrite delete_id by done; lia].
  unfold msum at 2. rewrite (map_fold_delete_L (fun (_ : Z) x n => w x + n) 0 k x m); [|intros; lia|done].
  unfold msum. lia.
Qed.
Lemma msum_insert m k x : msum (<[k := x]> m) = msum m + w x - from_option w 0 (m !! k).
Proof.
  rewrite <- insert_delete_eq. unfold msum at 1.
  rewrite (map_fold_insert_L (fun (_ : Z) x n => w x + n)); [|intros; lia|apply lookup_delete_eq].
  fold (msum (delete k m)). rewrite msum_delete. lia.
Qed.
Lemma msum_empty : msum ∅ = 0.
Proof. done. Qed.
Lemma msum_nonneg m : (forall x, 0 <= w x) -> 0 <= msum m.
Proof.
  intros Hw. unfold msum. apply (map_fold_weak_ind (fun (r : Z) (_ : gmap Z A) => 0 <= r)); [done|].
  intros k x m' r _ Hr. specialize (Hw x). lia.
Qed.
(** Each element counts. *)
Lemma msum_lookup m k x : (forall x, 0 <= w x) -> m !! k = Some x -> w x <= msum m.
Proof.
  intros Hw Hk. pose proof (msum_nonneg (delete k m) Hw) as H. rewrite msum_delete, Hk in H. simpl in H. lia.
Qed.
Lemma msum_zero m k x : (forall x, 0 <= w x) -> msum m = 0 -> m !! k = Some x -> w x = 0.
Proof. intros Hw Hm Hk. pose proof (msum_lookup m k x Hw Hk). specialize (Hw x). lia. Qed.
(** A positive sum has a positive element. *)
Lemma msum_pos m : 0 < msum m -> exists k x, m !! k = Some x /\ 0 < w x.
Proof.
  unfold msum. apply (map_fold_weak_ind (fun (r : Z) (m : gmap Z A) => 0 < r -> exists k x, m !! k = Some x /\ 0 < w x)).
  - lia.
  - intros k x m' r Hk IH Hr. destruct (Z.le_gt_cases (w x) 0) as [Hx|Hx].
    + destruct IH as (k' & x' & Hk' & Hx'); [lia|]. exists k', x'. split; [|done]. rewrite lookup_insert_ne by congruence. done.
    + exists k, x. split; [|done]. apply lookup_insert_eq.
Qed.
End Sums.
