(* ===== verification/CLib.v ===== *)
(** * The C standard library, as far as the programs use it

    Machine integers, character classes, the scanning and printing directives
    of [scanf]/[printf] that occur in the sources ([%d], [%lu], [%s], [%02d]),
    [atoi], [fgets], [strcpy]/[strcat] on buffers of a known size, and the
    broken-down time of [gmtime] and [strftime].  A C string is a Rocq
    [string] without a NUL; a file is the [string] of the bytes still unread. *)
From Stdlib Require Import ZArith Lia Ascii String.
From S2P Require Import Prelude.

(** ** Machine integers *)
Definition s32 (z : Z) : Z := (z + 2 ^ 31) mod 2 ^ 32 - 2 ^ 31.
Definition u32 (z : Z) : Z := z mod 2 ^ 32.
Definition s64 (z : Z) : Z := (z + 2 ^ 63) mod 2 ^ 64 - 2 ^ 63.
Definition u64 (z : Z) : Z := z mod 2 ^ 64.

Definition LONG_MAX : Z := 2 ^ 63 - 1.
Definition LONG_MIN : Z := - 2 ^ 63.
Definition ULONG_MAX : Z := 2 ^ 64 - 1.

(** What [strtol] and [strtoul] return for an out-of-range value. *)
Definition clamp_long (z : Z) : Z := Z.max LONG_MIN (Z.min LONG_MAX z).
Definition clamp_ulong (z : Z) : Z := Z.min ULONG_MAX z.

(** Is [z] a value of type [int]? *)
Definition is_int (z : Z) : bool := ((- 2 ^ 31 <=? z)%c && (z <? 2 ^ 31)%c)%bool.

(** ** Characters *)
Definition NUL : ascii := Ascii.zero.
Definition SP : ascii := " "%char.
Definition LF : ascii := ascii_of_nat 10.

Definition code (c : ascii) : Z := Z.of_N (N_of_ascii c).
Definition isdigit (c : ascii) : bool := ((48 <=? code c)%c && (code c <=? 57)%c)%bool.
Definition isspace (c : ascii) : bool :=
  ((code c =? 32)%c || ((9 <=? code c)%c && (code c <=? 13)%c))%bool.
Definition digit_val (c : ascii) : Z := code c - 48.
Definition digit_char (d : Z) : ascii := ascii_of_N (Z.to_N (d + 48)).

(** ** Strings *)
Local Open Scope c_scope.
Local Open Scope Z_scope.

Definition newline : string := String LF EmptyString.

(** The longest prefix of characters satisfying [f], and the rest. *)
Fixpoint span (f : ascii -> bool) (s : string) : string * string :=
  match s with
  | EmptyString => (EmptyString, EmptyString)
  | String c t => if f c then let '(a, b) := span f t in (String c a, b)
                  else (EmptyString, s)
  end.
Definition skip_spaces (s : string) : string := (span isspace s).2.

(** The C string held in a buffer with contents [s]: what precedes the NUL. *)
Definition cstr (s : string) : string :=
  (span (fun c => negb (Ascii.eqb c NUL)) s).1.

Definition strlen (s : string) : Z := Z.of_nat (String.length s).

(** The string from offset [n], and its first [n] characters. *)
Fixpoint sdrop (n : nat) (s : string) : string :=
  match n, s with
  | S n', String _ t => sdrop n' t
  | _, _ => s
  end.
Fixpoint stake (n : nat) (s : string) : string :=
  match n, s with
  | S n', String c t => String c (stake n' t)
  | _, _ => EmptyString
  end.

Fixpoint srepeat (c : ascii) (n : nat) : string :=
  match n with O => EmptyString | S n' => String c (srepeat c n') end.
Definition spaces (n : Z) : string := srepeat SP (Z.to_nat n).

Fixpoint all_digits (s : string) : bool :=
  match s with
  | EmptyString => true
  | String c t => (isdigit c && all_digits t)%bool
  end.

(** [strcpy] and [strcat] into a buffer of [cap] bytes, NUL included. *)
Definition strcpy (cap : Z) (src : string) : res string :=
  if (strlen src <? cap)%c then Ok src else Err BufferOverflow.
Definition strcat (cap : Z) (dst src : string) : res string :=
  if (strlen dst + strlen src <? cap)%c then Ok (String.append dst src) else Err BufferOverflow.

(** ** Reading numbers *)
Fixpoint digits_value (acc : Z) (s : string) : Z :=
  match s with
  | EmptyString => acc
  | String c t => digits_value (10 * acc + digit_val c) t
  end.

(** An optional sign: (is it a minus, what follows). *)
Definition read_sign (s : string) : bool * string :=
  match s with
  | String "-"%char t => (true, t)
  | String "+"%char t => (false, t)
  | _ => (false, s)
  end.

(** An optionally signed decimal integer at the head of [s]:
    its value when at least one digit is there, and the rest. *)
Definition read_magnitude (neg : bool) (s : string) : option Z * string :=
  let '(ds, rest) := span isdigit s in
  match ds with
  | EmptyString => (None, rest)
  | _ => let v := digits_value 0 ds in (Some (if neg then - v else v), rest)
  end.
Definition read_decimal (s : string) : option Z * string :=
  let '(neg, s1) := read_sign s in read_magnitude neg s1.

(** [atoi]: [strtol] converted to [int]; 0 when there is no number. *)
Definition atoi (s : string) : Z :=
  match (read_decimal (skip_spaces s)).1 with
  | Some v => s32 (clamp_long v)
  | None => 0
  end.

(** The outcome of one [scanf] directive on an input. *)
Inductive scan (A : Type) : Type :=
  | ScanEof
  | ScanFail (rest : string)
  | ScanVal (a : A) (rest : string).
Arguments ScanEof {A}.
Arguments ScanFail {A} rest.
Arguments ScanVal {A} a rest.

(** [%d] *)
Definition scan_d (s : string) : scan Z :=
  match skip_spaces s with
  | EmptyString => ScanEof
  | s1 => match read_decimal s1 with
          | (Some v, rest) => ScanVal (s32 (clamp_long v)) rest
          | (None, rest) => ScanFail rest
          end
  end.

(** [%lu]: [strtoul]; a minus sign negates modulo 2^64. *)
Definition scan_lu (s : string) : scan Z :=
  match skip_spaces s with
  | EmptyString => ScanEof
  | s1 => match read_decimal s1 with
          | (Some v, rest) =>
              ScanVal (if (v <? 0)%c then
                         if (ULONG_MAX <? - v)%c then ULONG_MAX else u64 v
                       else clamp_ulong v) rest
          | (None, rest) => ScanFail rest
          end
  end.

(** [%s]: the next word. *)
Definition scan_s (s : string) : scan string :=
  match skip_spaces s with
  | EmptyString => ScanEof
  | s1 => let '(w, rest) := span (fun c => negb (isspace c)) s1 in ScanVal w rest
  end.

(** [fgets(buf, n, fp)]: at most [n-1] bytes, up to and including a newline;
    [None] at end of file. *)
Fixpoint fgets_loop (n : nat) (s : string) : string * string :=
  match n, s with
  | S n', String c t =>
      if Ascii.eqb c LF then (String c EmptyString, t)
      else let '(l, r) := fgets_loop n' t in (String c l, r)
  | _, _ => (EmptyString, s)
  end.
Definition fgets (n : nat) (s : string) : option (string * string) :=
  match s with
  | EmptyString => None
  | _ => Some (fgets_loop (n - 1) s)
  end.

(** ** Printing numbers *)
Fixpoint show_loop (fuel : nat) (n : Z) (acc : string) : string :=
  match fuel with
  | O => acc
  | S f => let acc' := String (digit_char (n mod 10)) acc in
           if (n <? 10)%c then acc' else show_loop f (n / 10) acc'
  end.

(** [%lu] and the magnitude of [%d]: [S (log2 n)] digits are enough. *)
Definition show_u (n : Z) : string :=
  show_loop (S (Z.to_nat (Z.log2 n))) n EmptyString.
Definition show (n : Z) : string :=
  if (n <? 0)%c then String "-"%char (show_u (- n)) else show_u n.

(** A minimum field width, padding on the left. *)
Definition lpad (c : ascii) (w : Z) (s : string) : string :=
  String.append (srepeat c (Z.to_nat (w - strlen s))) s.

(** [%02d] and, with spaces, [%8lu], [%4u], [%2d], [%3d]. *)
Definition fmt_0d (w n : Z) : string :=
  if (n <? 0)%c then String "-"%char (lpad "0"%char (w - 1) (show_u (- n)))
  else lpad "0"%char w (show_u n).
Definition fmt_d (w n : Z) : string := lpad SP w (show n).

(** ** Broken-down time *)
Record tm := { tm_sec : Z; tm_min : Z; tm_hour : Z;
               tm_mday : Z; tm_mon : Z; tm_year : Z; tm_yday : Z }.

Definition leap (y : Z) : bool :=
  ((y mod 4 =? 0)%c && (negb (y mod 100 =? 0)%c || (y mod 400 =? 0)%c))%bool.
Definition days_in_year (y : Z) : Z := if leap y then 366 else 365.
Definition month_lengths (y : Z) : list Z :=
  [31; if leap y then 29 else 28; 31; 30; 31; 30; 31; 31; 30; 31; 30; 31].

(** (year, day of the year) of the [d]-th day from January 1st of year [y]. *)
Fixpoint split_years (fuel : nat) (y d : Z) : Z * Z :=
  match fuel with
  | O => (y, d)
  | S f => if (d <? days_in_year y)%c then (y, d)
           else split_years f (y + 1) (d - days_in_year y)
  end.
(** (month, day of the month from 0) of day [d] of a year. *)
Fixpoint split_months (ms : list Z) (m d : Z) : Z * Z :=
  match ms with
  | [] => (m, d)
  | n :: ms' => if (d <? n)%c then (m, d) else split_months ms' (m + 1) (d - n)
  end.

(** [gmtime] for a non-negative [time_t]; [days / 365 + 1] years are enough. *)
Definition gmtime (t : Z) : tm :=
  let days := t / 86400 in
  let secs := t mod 86400 in
  let '(y, yday) := split_years (S (Z.to_nat (days / 365))) 1970 days in
  let '(m, d) := split_months (month_lengths y) 0 yday in
  {| tm_sec := secs mod 60; tm_min := secs / 60 mod 60; tm_hour := secs / 3600;
     tm_mday := d + 1; tm_mon := m; tm_year := y - 1900; tm_yday := yday |}.

(** [strftime] with the formats [%H:%M], [%b %d] and [%y], in the C locale. *)
Definition month_name (m : Z) : string :=
  nth (Z.to_nat m) ["Jan"; "Feb"; "Mar"; "Apr"; "May"; "Jun"; "Jul"; "Aug"; "Sep";
                    "Oct"; "Nov"; "Dec"]%string "?"%string.
Definition strftime_HM (t : tm) : string :=
  (fmt_0d 2 (tm_hour t) +:+ ":" +:+ fmt_0d 2 (tm_min t)).
Definition strftime_bd (t : tm) : string :=
  (month_name (tm_mon t) +:+ " " +:+ fmt_0d 2 (tm_mday t)).
Definition strftime_y (t : tm) : string := fmt_0d 2 (tm_year t mod 100).

#[global] Arguments String.append !_ _ / : simpl nomatch.

(** ** Facts *)
Lemma span_app f s : String.append (span f s).1 (span f s).2 = s.
Proof.
  induction s as [|c s IH]; simpl; [done|].
  destruct (f c); simpl; [|done]. destruct (span f s). simpl in *. by rewrite IH.
Qed.

Lemma append_nil_r s : String.append s EmptyString = s.
Proof. induction s as [|c s IH]; simpl; [done|by rewrite IH]. Qed.

Lemma append_assoc s t u :
  String.append (String.append s t) u = String.append s (String.append t u).
Proof. induction s as [|c s IH]; simpl; [done|by rewrite IH]. Qed.

Lemma length_sapp s t :
  String.length (String.append s t) = (String.length s + String.length t)%nat.
Proof. induction s as [|c s IH]; simpl; [done|by rewrite IH]. Qed.

Lemma strlen_app s t : strlen (String.append s t) = strlen s + strlen t.
Proof.
  unfold strlen. induction s as [|c s IH]; simpl; [lia|]. simpl in IH. lia.
Qed.

Lemma strlen_nonneg s : 0 <= strlen s.
Proof. unfold strlen. lia. Qed.

Lemma strlen_srepeat c n : strlen (srepeat c n) = Z.of_nat n.
Proof. unfold strlen. induction n as [|n IH]; simpl in *; lia. Qed.

Lemma strlen_spaces n : strlen (spaces n) = Z.max 0 n.
Proof. unfold spaces. rewrite strlen_srepeat. lia. Qed.

(** [lpad] gives at least the requested width, and never truncates. *)
Lemma strlen_lpad c w s : strlen (lpad c w s) = Z.max w (strlen s).
Proof.
  unfold lpad. rewrite strlen_app, strlen_srepeat. pose proof (strlen_nonneg s). lia.
Qed.

(** A maximal span ends where the predicate first fails. *)
Definition starts_with (f : ascii -> bool) (s : string) : bool :=
  match s with String c _ => f c | EmptyString => false end.

Lemma span_all f s t :
  (span f s).2 = EmptyString -> starts_with f t = false ->
  span f (String.append s t) = (s, t).
Proof.
  revert t. induction s as [|c s IH]; intros t Hs Ht; simpl in *.
  - destruct t as [|d t]; simpl in *; [done|by rewrite Ht].
  - destruct (f c); simpl in *; [|done].
    destruct (span f s) as [a b] eqn:E; simpl in *. by rewrite (IH t Hs Ht).
Qed.

Lemma all_digits_span s : all_digits s = true -> (span isdigit s).2 = EmptyString.
Proof.
  induction s as [|c s IH]; simpl; [done|]. intros [Hc Hs]%andb_prop.
  rewrite Hc. specialize (IH Hs). by destruct (span isdigit s).
Qed.

Lemma code_digit_char d : 0 <= d < 10 -> code (digit_char d) = d + 48.
Proof.
  intros Hd. unfold code, digit_char.
  rewrite N_ascii_embedding by (change 256%N with (Z.to_N 256); lia). lia.
Qed.

Lemma isdigit_digit_char d : 0 <= d < 10 -> isdigit (digit_char d) = true.
Proof.
  intros Hd. unfold isdigit. rewrite code_digit_char by done.
  apply andb_true_intro; split; apply Z.leb_le; lia.
Qed.

Lemma digits_value_app a s t :
  digits_value a (String.append s t) = digits_value (digits_value a s) t.
Proof. revert a. induction s as [|c s IH]; intros a; simpl; auto. Qed.

(** With enough fuel, [show_loop] prints exactly the decimal digits of [n]. *)
Lemma show_loop_spec fuel : forall n acc,
  0 <= n < 10 ^ Z.of_nat (S fuel) ->
  exists ds, show_loop (S fuel) n acc = String.append ds acc /\
    all_digits ds = true /\ ds <> EmptyString /\ digits_value 0 ds = n.
Proof.
  induction fuel as [|fuel IH]; intros n acc Hn.
  - exists (String (digit_char (n mod 10)) EmptyString).
    change (10 ^ Z.of_nat 1) with 10 in Hn. simpl.
    rewrite isdigit_digit_char by (apply Z.mod_pos_bound; lia).
    split; [by case_bool|split; [done|split; [done|]]].
    unfold digit_val. rewrite code_digit_char by (apply Z.mod_pos_bound; lia).
    rewrite Z.mod_small; lia.
  - change (show_loop (S (S fuel)) n acc) with
      (let acc' := String (digit_char (n mod 10)) acc in
       if n <? 10 then acc' else show_loop (S fuel) (n / 10) acc').
    cbv zeta. pose proof (Z.mod_pos_bound n 10 ltac:(lia)) as Hm.
    destruct (n <? 10) eqn:E.
    + apply Z.ltb_lt in E. exists (String (digit_char (n mod 10)) EmptyString).
      simpl. rewrite isdigit_digit_char by done.
      unfold digit_val. rewrite code_digit_char by done.
      rewrite Z.mod_small by lia. repeat split; [done|lia].
    + apply Z.ltb_ge in E.
      destruct (IH (n / 10) (String (digit_char (n mod 10)) acc)) as (ds & Hds & Hall & Hne & Hv).
      { split; [apply Z.div_pos; lia|]. apply Z.div_lt_upper_bound; [lia|].
        rewrite <- Z.pow_succ_r by lia. rewrite <- Nat2Z.inj_succ. lia. }
      exists (String.append ds (String (digit_char (n mod 10)) EmptyString)).
      rewrite Hds, append_assoc. split; [done|].
      rewrite digits_value_app, Hv. simpl. unfold digit_val. rewrite code_digit_char by done.
      split; [|split].
      * clear -Hall Hm. induction ds as [|c ds IHd]; simpl in *.
        -- by rewrite isdigit_digit_char.
        -- apply andb_prop in Hall as [-> Hall]. auto.
      * by destruct ds.
      * rewrite (Z.div_mod n 10) at 3 by lia. lia.
Qed.

Lemma log2_fuel n : 0 <= n -> n < 10 ^ Z.of_nat (S (Z.to_nat (Z.log2 n))).
Proof.
  intros Hn. rewrite Nat2Z.inj_succ, Z2Nat.id by apply Z.log2_nonneg.
  destruct (Z.eq_dec n 0) as [->|Hz]; [reflexivity|].
  apply Z.lt_le_trans with (2 ^ Z.succ (Z.log2 n)).
  - apply Z.log2_spec. lia.
  - apply Z.pow_le_mono_l. lia.
Qed.

Lemma show_u_spec n : 0 <= n ->
  all_digits (show_u n) = true /\ show_u n <> EmptyString /\ digits_value 0 (show_u n) = n.
Proof.
  intros Hn. unfold show_u.
  destruct (show_loop_spec (Z.to_nat (Z.log2 n)) n EmptyString) as (ds & -> & H).
  { split; [done|by apply log2_fuel]. }
  by rewrite append_nil_r.
Qed.

Lemma digit_not_sign c : isdigit c = true ->
  isspace c = false /\ read_sign (String c EmptyString) = (false, String c EmptyString).
Proof. destruct c as [[] [] [] [] [] [] [] []]; vm_compute; done. Qed.

Lemma read_sign_digit c t : isdigit c = true -> read_sign (String c t) = (false, String c t).
Proof. destruct c as [[] [] [] [] [] [] [] []]; vm_compute; done. Qed.

(** Printing then reading: [read_decimal] recovers what [show] printed,
    whatever follows, as long as it is not a digit. *)
Lemma read_decimal_show n rest :
  starts_with isdigit rest = false ->
  read_decimal (String.append (show n) rest) = (Some n, rest).
Proof.
  intros Hr. assert (forall m b, 0 <= m ->
    read_magnitude b (String.append (show_u m) rest) = (Some (if b : bool then - m else m), rest))
    as Hgo.
  { intros m b Hm. destruct (show_u_spec m Hm) as (Hall & Hne & Hv).
    unfold read_magnitude. rewrite span_all by (auto using all_digits_span).
    destruct (show_u m) eqn:E; [done|]. by rewrite Hv. }
  unfold show. destruct (n <? 0) eqn:E.
  - apply Z.ltb_lt in E. change (read_magnitude true (String.append (show_u (- n)) rest) = (Some n, rest)).
    rewrite (Hgo (- n) true) by lia. by rewrite Z.opp_involutive.
  - apply Z.ltb_ge in E. unfold read_decimal.
    destruct (show_u_spec n E) as (Hall & Hne & Hv).
    destruct (show_u n) as [|c t] eqn:Es; [done|]. simpl String.append.
    simpl in Hall. apply andb_prop in Hall as [Hc Hall].
    rewrite read_sign_digit by done. specialize (Hgo n false E).
    rewrite Es in Hgo. exact Hgo.
Qed.

Lemma show_head n : exists c t, show n = String c t /\ isspace c = false.
Proof.
  unfold show. case_bool; [by do 2 eexists|].
  apply Z.ltb_ge in E. destruct (show_u_spec n E) as (Hall & Hne & _).
  destruct (show_u n) as [|c t]; [done|]. exists c, t. split; [done|].
  simpl in Hall. apply andb_prop in Hall as [Hc _]. by apply digit_not_sign.
Qed.

Lemma skip_spaces_show n rest :
  skip_spaces (String.append (show n) rest) = String.append (show n) rest.
Proof.
  destruct (show_head n) as (c & t & -> & Hc). unfold skip_spaces. simpl. by rewrite Hc.
Qed.

Lemma is_int_bounds z : is_int z = true <-> - 2 ^ 31 <= z < 2 ^ 31.
Proof. unfold is_int. rewrite andb_true_iff, Z.leb_le, Z.ltb_lt. done. Qed.

Lemma s32_int z : is_int z = true -> s32 z = z.
Proof. intros H%is_int_bounds. unfold s32. rewrite Z.mod_small; lia. Qed.

Lemma clamp_long_int z : is_int z = true -> clamp_long z = z.
Proof. intros H%is_int_bounds. unfold clamp_long, LONG_MIN, LONG_MAX. lia. Qed.

(** [%d] and [atoi] read back what [%d] printed. *)
Lemma scan_d_show n rest :
  is_int n = true -> starts_with isdigit rest = false ->
  scan_d (String.append (show n) rest) = ScanVal n rest.
Proof.
  intros Hn Hr. unfold scan_d. rewrite skip_spaces_show.
  destruct (show_head n) as (c & t & E & Hc). rewrite E. simpl String.append.
  cbv iota. change (String c (String.append t rest)) with (String.append (String c t) rest).
  rewrite <- E, read_decimal_show by done. by rewrite clamp_long_int, s32_int.
Qed.

Lemma atoi_show n : is_int n = true -> atoi (show n) = n.
Proof.
  intros Hn. unfold atoi. rewrite <- (append_nil_r (show n)), skip_spaces_show.
  rewrite read_decimal_show by done. simpl. by rewrite clamp_long_int, s32_int.
Qed.

Lemma scan_lu_show n rest :
  0 <= n <= ULONG_MAX -> starts_with isdigit rest = false ->
  scan_lu (String.append (show n) rest) = ScanVal n rest.
Proof.
  intros Hn Hr. unfold scan_lu. rewrite skip_spaces_show.
  destruct (show_head n) as (c & t & E & Hc). rewrite E. simpl String.append.
  cbv iota. change (String c (String.append t rest)) with (String.append (String c t) rest).
  rewrite <- E, read_decimal_show by done.
  rewrite (proj2 (Z.ltb_ge n 0)) by lia. unfold clamp_ulong. f_equal. lia.
Qed.

Lemma skip_spaces_cons c s :
  skip_spaces (String c s) = if isspace c then skip_spaces s else String c s.
Proof. unfold skip_spaces. simpl. destruct (isspace c); [|done]. by destruct (span isspace s). Qed.

(** A space, or a newline, in front of a number is skipped by [%d]. *)
Lemma scan_d_space c s : isspace c = true -> scan_d (String c s) = scan_d s.
Proof.
  intros Hc. unfold scan_d, skip_spaces. simpl. rewrite Hc. by destruct (span isspace s).
Qed.

Lemma span_length f s : (String.length (span f s).2 <= String.length s)%nat.
Proof.
  induction s as [|c s IH]; simpl; [done|]. destruct (f c); [|done].
  destruct (span f s). simpl in *. lia.
Qed.

Lemma skip_spaces_head s c t : skip_spaces s = String c t -> isspace c = false.
Proof.
  unfold skip_spaces. induction s as [|d s IH]; simpl; [done|].
  destruct (isspace d) eqn:E; [|simpl; congruence].
  destruct (span isspace s). simpl in *. done.
Qed.

Lemma scan_s_shorter s w rest :
  scan_s s = ScanVal w rest -> (String.length rest < String.length s)%nat.
Proof.
  unfold scan_s. intros H. pose proof (span_length isspace s) as Hlen.
  fold (skip_spaces s) in Hlen.
  destruct (skip_spaces s) as [|c t] eqn:E; [done|].
  apply skip_spaces_head in E. simpl in H. rewrite E in H. simpl in H.
  pose proof (span_length (fun c => negb (isspace c)) t) as Hl.
  destruct (span (fun c => negb (isspace c)) t) as [a b]. injection H as <- <-. simpl in *. lia.
Qed.

(** A numeric directive leaves no more input than it found, and less when it
    stored a value. *)
Lemma read_decimal_length s :
  (String.length (read_decimal s).2 <= String.length s)%nat /\
  ((read_decimal s).1 <> None -> String.length (read_decimal s).2 < String.length s)%nat.
Proof.
  assert (forall b t, (String.length (read_magnitude b t).2 <= String.length t)%nat /\
    ((read_magnitude b t).1 <> None -> String.length (read_magnitude b t).2 < String.length t)%nat)
    as Hgo.
  { intros b t. unfold read_magnitude. destruct t as [|c t]; simpl; [done|].
    destruct (isdigit c); simpl; [|done]. pose proof (span_length isdigit t).
    destruct (span isdigit t) as [ds r]. simpl in *. lia. }
  unfold read_decimal. destruct (read_sign s) as [b t] eqn:E.
  assert (String.length t <= String.length s)%nat as Hl.
  { destruct s as [|c s]; simpl in E; [by injection E as <- <-|].
    destruct c as [[] [] [] [] [] [] [] []]; injection E as <- <-; simpl; lia. }
  destruct (Hgo b t) as [H1 H2]. split; [lia|]. intros H. specialize (H2 H). lia.
Qed.

Lemma scan_d_length s :
  match scan_d s with
  | ScanEof => True
  | ScanFail r => String.length r <= String.length s
  | ScanVal _ r => String.length r < String.length s
  end%nat.
Proof.
  unfold scan_d. pose proof (span_length isspace s) as Hs. fold (skip_spaces s) in Hs.
  destruct (skip_spaces s) as [|c t] eqn:E; [done|].
  destruct (read_decimal_length (String c t)) as [H1 H2].
  destruct (read_decimal (String c t)) as [[v|] r]; simpl in *; [|lia].
  specialize (H2 ltac:(done)). lia.
Qed.

#[export] Hint Rewrite strlen_app strlen_spaces strlen_lpad append_assoc append_nil_r : cmodel.
#[export] Hint Resolve strlen_nonneg atoi_show scan_d_show scan_lu_show : cmodel.

(** ** Copies that fit *)
Lemma strcpy_ok cap s s' : strcpy cap s = Ok s' -> s' = s /\ strlen s < cap.
Proof. unfold strcpy. destruct (Z.ltb_spec (strlen s) cap); by intros [= <-]. Qed.
Lemma strcat_ok cap s t s' : strcat cap s t = Ok s' -> s' = s +:+ t /\ strlen s' < cap.
Proof.
  unfold strcat. destruct (Z.ltb_spec (strlen s + strlen t) cap); [|done].
  intros [= <-]. rewrite strlen_app. split; [done|lia].
Qed.

(** Printed numbers have as many characters as their value needs. *)
Lemma show_loop_length fuel : forall n k acc, 0 <= n < 10 ^ k -> 1 <= k ->
  strlen (show_loop fuel n acc) <= k + strlen acc.
Proof.
  induction fuel as [|fuel IH]; intros n k acc Hn Hk; cbn [show_loop]; [lia|].
  assert (strlen (String (digit_char (n mod 10)) acc) = 1 + strlen acc) as Hs
    by (unfold strlen; simpl; lia).
  destruct (Z.ltb_spec n 10); [lia|].
  assert (1 < k) by (destruct (Z.eq_dec k 1) as [Hk1|]; [rewrite Hk1 in Hn; change (10 ^ 1) with 10 in Hn|]; lia).
  specialize (IH (n / 10) (k - 1) (String (digit_char (n mod 10)) acc)).
  rewrite Hs in IH. etransitivity; [apply IH; [|lia]|lia].
  split; [apply Z.div_pos; lia|]. apply Z.div_lt_upper_bound; [lia|].
  rewrite <- Z.pow_succ_r by lia. replace (Z.succ (k - 1)) with k by lia. lia.
Qed.
Lemma show_u_length n k : 0 <= n < 10 ^ k -> 1 <= k -> strlen (show_u n) <= k.
Proof.
  intros Hn Hk. unfold show_u. etransitivity; [by apply (show_loop_length _ _ k)|].
  change (strlen EmptyString) with 0. lia.
Qed.

(** ** Words *)
Fixpoint no_space (s : string) : bool :=
  match s with EmptyString => true | String c t => (negb (isspace c) && no_space t)%bool end.
Lemma no_space_span w : no_space w = true -> (span (fun c => negb (isspace c)) w).2 = EmptyString.
Proof.
  induction w as [|c w IH]; simpl; [done|]. intros [Hc Hw]%andb_prop. rewrite Hc.
  specialize (IH Hw). by destruct (span _ w).
Qed.
Lemma digits_no_space s : all_digits s = true -> no_space s = true.
Proof.
  induction s as [|c s IH]; simpl; [done|]. intros [Hc Hs]%andb_prop.
  rewrite IH by done. by rewrite (proj1 (digit_not_sign c Hc)).
Qed.
