(* ===== verification/PageRepl.v ===== *)
(** * The page-replacement simulator (src/Assignment_5/simulator.c)

    One step function per algorithm (the body of its [for] loop over the page
    reference string), the loops, the table they print, and [main]: reading the
    file and the command loop. *)
From Stdlib Require Import ZArith Lia Ascii String.
From S2P Require Import Prelude CLib.

Module Sim.

Definition NAME_SIZE : Z := 100.
Definition REFERENCE_MAX : nat := 31.   (* int page_reference[31] *)

(** The variables one run of an algorithm updates; [victim] is the persistent
    one of FIFO and Second-Chance. *)
Record run_state := mk_run {
  page_frame : list Z;
  reference_bit : list Z;
  page_fault : Z;
  victim : Z
}.

Definition set_frame (st : run_state) (j page : Z) : res run_state :=
  pf ← aset (page_frame st) j page;
  Ok (mk_run pf (reference_bit st) (page_fault st) (victim st)).
Definition set_bit (st : run_state) (j b : Z) : res run_state :=
  rb ← aset (reference_bit st) j b;
  Ok (mk_run (page_frame st) rb (page_fault st) (victim st)).
Definition count_fault (st : run_state) : run_state :=
  mk_run (page_frame st) (reference_bit st) (page_fault st + 1) (victim st).
Definition set_victim (st : run_state) (v : Z) : run_state :=
  mk_run (page_frame st) (reference_bit st) (page_fault st) v.

(** The scan every algorithm starts with: the first frame, from the left, that
    holds the page or is empty (negative). *)
Inductive found := Hit (j : Z) | Free (j : Z) | NotFound.

Fixpoint scan_frames (l : list Z) (j page : Z) : found :=
  match l with
  | [] => NotFound
  | f :: l' => if (f =? page)%c then Hit j
               else if (f <? 0)%c then Free j
               else scan_frames l' (j + 1) page
  end.

(** The result of one iteration: the new state and the flag [replace]. *)
Definition step_result : Type := res (run_state * bool).

(** ** OPT *)

(** [for (k = i + 1; k < string_size; k++)]: the next use of [f]. *)
Fixpoint next_use (f : Z) (future : list Z) (k : Z) : option Z :=
  match future with
  | [] => None
  | r :: future' => if (f =? r)%c then Some k else next_use f future' (k + 1)
  end.

Fixpoint opt_victim (l : list Z) (j : Z) (future : list Z) (k0 location victim : Z) : Z :=
  match l with
  | [] => victim
  | f :: l' =>
      match next_use f future k0 with
      | Some k => if (location <? k)%c
                  then opt_victim l' (j + 1) future k0 k j
                  else opt_victim l' (j + 1) future k0 location victim
      | None => j
      end
  end.

Definition opt_step (refs : list Z) (i : nat) (page : Z) (st : run_state) : step_result :=
  match scan_frames (page_frame st) 0 page with
  | Hit _ => Ok (st, false)
  | Free j => st' ← set_frame (count_fault st) j page; Ok (st', true)
  | NotFound =>
      let v := opt_victim (page_frame st) 0 (drop (S i) refs) (Z.of_nat i + 1) (-1) (-1) in
      st' ← set_frame st v page;
      Ok (count_fault st', true)
  end.

(** ** FIFO *)
Definition wrap_victim (frame_size : Z) (st : run_state) : run_state :=
  if (victim st =? frame_size)%c then set_victim st 0 else st.

Definition fifo_step (frame_size : Z) (refs : list Z) (i : nat) (page : Z) (st : run_state)
    : step_result :=
  '(st', replace) ←
    match scan_frames (page_frame st) 0 page with
    | Hit _ => Ok (st, false)
    | Free j => st' ← set_frame (count_fault st) j page; Ok (st', true)
    | NotFound =>
        st' ← set_frame st (victim st) page;
        Ok (count_fault (set_victim st' (victim st + 1)), true)
    end;
  Ok (wrap_victim frame_size st', replace).

(** ** LRU *)

(** [for (k = i - 1; k >= 0; k--)]: the last use of [f]; [past] is reversed. *)
Fixpoint last_use (f : Z) (past : list Z) (k : Z) : option Z :=
  match past with
  | [] => None
  | r :: past' => if (f =? r)%c then Some k else last_use f past' (k - 1)
  end.

Fixpoint lru_victim (l : list Z) (j : Z) (past : list Z) (k0 location victim : Z) : Z :=
  match l with
  | [] => victim
  | f :: l' =>
      match last_use f past k0 with
      | Some k => if (k <? location)%c
                  then lru_victim l' (j + 1) past k0 k j
                  else lru_victim l' (j + 1) past k0 location victim
      | None => lru_victim l' (j + 1) past k0 location victim
      end
  end.

Definition lru_step (refs : list Z) (i : nat) (page : Z) (st : run_state) : step_result :=
  match scan_frames (page_frame st) 0 page with
  | Hit _ => Ok (st, false)
  | Free j => st' ← set_frame (count_fault st) j page; Ok (st', true)
  | NotFound =>
      let v := lru_victim (page_frame st) 0 (reverse (take i refs)) (Z.of_nat i - 1) 99 (-1) in
      st' ← set_frame st v page;
      Ok (count_fault st', true)
  end.

(** ** Second-Chance *)

(** One sweep [for (j = from; ...; j++)] over the given reference bits: clear
    the ones until a zero is found at [Some j].  [bits] are the bits swept, [j]
    the index of the first; the result holds the bits after the sweep. *)
Fixpoint sweep (bits : list Z) (j : Z) : list Z * option Z :=
  match bits with
  | [] => ([], None)
  | b :: bits' =>
      if (b =? 0)%c then (bits, Some j)
      else let '(bs, r) := sweep bits' (j + 1) in
           ((if (b =? 1)%c then 0 else b) :: bs, r)
  end.

(** Replace frame [j] and move the hand past it. *)
Definition sc_replace (st : run_state) (j page : Z) : res run_state :=
  st' ← set_frame st j page;
  Ok (set_victim (count_fault st') (j + 1)).

Definition set_bits (st : run_state) (bs : list Z) : run_state :=
  mk_run (page_frame st) bs (page_fault st) (victim st).

Definition sc_evict (page : Z) (st : run_state) : res run_state :=
  let v := Z.to_nat (victim st) in
  let '(bs1, r1) := sweep (drop v (reference_bit st)) (victim st) in
  let st1 := set_bits st (take v (reference_bit st) ++ bs1) in
  match r1 with
  | Some j => sc_replace st1 j page
  | None =>
      let '(bs2, r2) := sweep (take v (reference_bit st1)) 0 in
      let st2 := set_bits st1 (bs2 ++ drop v (reference_bit st1)) in
      match r2 with
      | Some j => sc_replace st2 j page
      | None => sc_replace st2 (victim st) page
      end
  end.

Definition sc_step (frame_size : Z) (refs : list Z) (i : nat) (page : Z) (st : run_state)
    : step_result :=
  '(st', replace) ←
    match scan_frames (page_frame st) 0 page with
    | Hit j => st' ← set_bit st j 1; Ok (st', false)
    | Free j =>
        st' ← set_frame (count_fault st) j page;
        st'' ← set_bit st' j 0;
        Ok (st'', true)
    | NotFound => st' ← sc_evict page st; Ok (st', true)
    end;
  Ok (wrap_victim frame_size st', replace).

(** ** The loop over the page reference string *)

(** One printed line: the time, the frames after the step, the fault mark. *)
Record row := mk_row { row_time : Z; row_frames : list Z; row_replace : bool }.

Fixpoint run_loop (step : nat -> Z -> run_state -> step_result)
    (rest : list Z) (i : nat) (st : run_state) : res (list row * run_state) :=
  match rest with
  | [] => Ok ([], st)
  | page :: rest' =>
      '(st', replace) ← step i page st;
      '(rows, st'') ← run_loop step rest' (S i) st';
      Ok (mk_row (Z.of_nat i + 1) (page_frame st') replace :: rows, st'')
  end.

(** [int page_frame[frame_size], reference_bit[frame_size]] and the [memset]s. *)
Definition init_run (frame_size : Z) : res run_state :=
  _ ← require (0 <? frame_size)%c BadArraySize;
  Ok (mk_run (replicate (Z.to_nat frame_size) (-1))
             (replicate (Z.to_nat frame_size) 0) 0 0).

Inductive algorithm := OPT | FIFO | LRU | SecondChance.

Definition step_of (a : algorithm) (frame_size : Z) (refs : list Z)
    : nat -> Z -> run_state -> step_result :=
  match a with
  | OPT => opt_step refs
  | FIFO => fifo_step frame_size refs
  | LRU => lru_step refs
  | SecondChance => sc_step frame_size refs
  end.

Definition simulate (a : algorithm) (frame_size : Z) (refs : list Z)
    : res (list row * run_state) :=
  st ← init_run frame_size;
  run_loop (step_of a frame_size refs) refs 0 st.

(** The number of page faults an algorithm reports. *)
Definition fault_count (a : algorithm) (frame_size : Z) (refs : list Z) : res Z :=
  '(_, st) ← simulate a frame_size refs; Ok (page_fault st).

(** ** The printed table *)


Fixpoint concat_map {A} (f : A -> string) (l : list A) : string :=
  match l with [] => "" | x :: l' => String.append (f x) (concat_map f l') end.

Definition print_header (frame_size : Z) (refs : list Z) : string :=
  "page reference string : "
  +:+ concat_map (fun p => show p +:+ " ") refs
  +:+ newline +:+ newline
  +:+ "        frame   "
  +:+ concat_map (fun k => show (Z.of_nat k + 1) +:+ "       ") (seq 0 (Z.to_nat frame_size))
  +:+ "page fault" +:+ newline +:+ "time" +:+ newline.

Definition print_cell (f : Z) : string :=
  if (f <? 0)%c then "        " else show f +:+ "       ".

Definition print_row (r : row) : string :=
  (if (row_time r - 1 <? 9)%c then show (row_time r) +:+ "               "
   else show (row_time r) +:+ "              ")
  +:+ concat_map print_cell (row_frames r)
  +:+ (if row_replace r then "F" +:+ newline else newline).

Definition print_total (n : Z) : string :=
  "Number of page faults : " +:+ show n +:+ " times" +:+ newline +:+ newline.

Definition print_run (a : algorithm) (frame_size : Z) (refs : list Z) : res string :=
  '(rows, st) ← simulate a frame_size refs;
  Ok (print_header frame_size refs +:+ concat_map print_row rows
      +:+ print_total (page_fault st)).

Definition run_OPT : Z -> list Z -> res string := print_run OPT.
Definition run_FIFO : Z -> list Z -> res string := print_run FIFO.
Definition run_LRU : Z -> list Z -> res string := print_run LRU.
Definition run_SecondChance : Z -> list Z -> res string := print_run SecondChance.

(** ** Reading the input file *)

(** [while (fscanf(fp, "%d", &temp) != EOF)]: a failed conversion leaves [temp]
    as it was and stores it again.  [room] counts the free entries of
    [page_reference]; one store past the last is out of bounds. *)
Fixpoint read_references (room : nat) (s : string) (temp : option Z) (acc : list Z)
    : res (list Z) :=
  match scan_d s with
  | ScanEof => Ok acc
  | ScanVal v rest =>
      match room with
      | O => Err OutOfBounds
      | S room' => read_references room' rest (Some v) (acc ++ [v])
      end
  | ScanFail rest =>
      match temp, room with
      | None, _ => Err Uninitialised
      | Some _, O => Err OutOfBounds
      | Some v, S room' => read_references room' rest temp (acc ++ [v])
      end
  end.

(** The frame size (an indeterminate [int] when the conversion fails) and the
    page reference string. *)
Definition read_file (s : string) : res (Z * list Z) :=
  match scan_d s with
  | ScanVal n rest => refs ← read_references REFERENCE_MAX rest None []; Ok (n, refs)
  | _ => Err Uninitialised
  end.

(** ** [main] *)
Inductive outcome :=
  | Returned (out : string)                    (** return 0 *)
  | Exited (code : Z) (out err : string)       (** exit(code) *)
  | Faulted (e : fault) (out : string)         (** undefined behaviour *)
  | Diverges (out : string)                    (** repeats the last method forever *)
  | OutOfFuel.                                 (** of the model's command loop *)

Definition prompt : string := "Used method : ".

Definition method_of (w : string) : option algorithm :=
  if (w =? "OPT")%string then Some OPT
  else if (w =? "FIFO")%string then Some FIFO
  else if (w =? "LRU")%string then Some LRU
  else if (w =? "Second-Chance")%string then Some SecondChance
  else None.

(** The body of [while (1)] after the method has been read. *)
Definition run_method (frame_size : Z) (refs : list Z) (w : string) : res string :=
  match method_of w with
  | Some OPT => run_OPT frame_size refs
  | Some FIFO => run_FIFO frame_size refs
  | Some LRU => run_LRU frame_size refs
  | Some SecondChance => run_SecondChance frame_size refs
  | None => Ok ""
  end.

Fixpoint command_loop (fuel : nat) (frame_size : Z) (refs : list Z)
    (stdin : string) (method : option string) (out : string) : outcome :=
  match fuel with
  | O => OutOfFuel
  | S fuel' =>
      match init_run frame_size with
      | Err e => Faulted e out
      | Ok _ =>
          let out1 := out +:+ prompt in
          match scan_s stdin with
          | ScanEof | ScanFail _ =>
              match method with
              | None => Faulted Uninitialised out1
              | Some _ => Diverges out1
              end
          | ScanVal w rest =>
              if (NAME_SIZE <=? strlen w)%c then Faulted BufferOverflow out1
              else if (w =? "exit")%string then Returned out1
              else match run_method frame_size refs w with
                   | Err e => Faulted e out1
                   | Ok text => command_loop fuel' frame_size refs rest (Some w) (out1 +:+ text)
                   end
          end
      end
  end.

Definition main (fopen : string -> option string) (stdin : string) : outcome :=
  let out0 := "파일의 이름을 입력하세요 : " in
  match scan_s stdin with
  | ScanVal fname rest =>
      if (NAME_SIZE <=? strlen fname)%c then Faulted BufferOverflow out0
      else match fopen fname with
           | None => Exited 1 out0 ("open error for " +:+ fname +:+ newline)
           | Some contents =>
               match read_file contents with
               | Err e => Faulted e out0
               | Ok (frame_size, refs) =>
                   command_loop (S (String.length rest)) frame_size refs rest None out0
               end
           end
  | _ => Faulted Uninitialised out0
  end.

End Sim.
