(* ===== verification/PageSpec.v ===== *)
(** * Page replacement: demand paging and the frame array

    The abstract specification ([paging]: what any replacement policy may do
    with a cache of bounded size), the invariant of the frame array, and the
    proof that every algorithm of the simulator is total and is an instance of
    demand paging whose fault counter is exact. *)
From Stdlib Require Import ZArith Lia.
From S2P Require Import Prelude CLib PageRepl.
Import Sim.

(** ** Demand paging

    [paging cap c refs n]: starting with the set [c] of resident pages, a policy
    with [cap] frames can serve [refs] with [n] faults.  Serving a page makes it
    resident, loads nothing else, and may drop anything. *)
Inductive paging (cap : nat) : gset Z -> list Z -> nat -> Prop :=
  | paging_nil c : paging cap c [] 0
  | paging_cons c p c' rest n :
      p ∈ c' -> c' ⊆ {[p]} ∪ c -> (size c' <= cap)%nat ->
      paging cap c' rest n ->
      paging cap c (p :: rest) (if decide (p ∈ c) then n else S n).

Lemma paging_hit cap c p c' rest n :
  p ∈ c -> p ∈ c' -> c' ⊆ {[p]} ∪ c -> (size c' <= cap)%nat ->
  paging cap c' rest n -> paging cap c (p :: rest) n.
Proof.
  intros Hc Hp Hs Hn H. pose proof (paging_cons cap c p c' rest n Hp Hs Hn H) as H'.
  by rewrite decide_True in H' by done.
Qed.

Lemma paging_miss cap c p c' rest n :
  p ∉ c -> p ∈ c' -> c' ⊆ {[p]} ∪ c -> (size c' <= cap)%nat ->
  paging cap c' rest n -> paging cap c (p :: rest) (S n).
Proof.
  intros Hc Hp Hs Hn H. pose proof (paging_cons cap c p c' rest n Hp Hs Hn H) as H'.
  by rewrite decide_False in H' by done.
Qed.

(** ** The frame array *)

(** The pages resident in a frame array: its non-negative entries. *)
Definition pages (fs : list Z) : gset Z := list_to_set (filter (fun f => 0 <= f) fs).

(** Frames fill up from the left: distinct pages, then empty frames. *)
Record frames_ok (n : nat) (fs l : list Z) (k : nat) : Prop := {
  fo_shape : fs = l ++ replicate k (-1);
  fo_len : (length l + k = n)%nat;
  fo_nodup : NoDup l;
  fo_nonneg : Forall (fun f => 0 <= f) l
}.

Lemma filter_nonneg_all l :
  Forall (fun f => 0 <= f) l -> filter (fun f => 0 <= f) l = l.
Proof.
  induction 1 as [|x l Hx _ IH]; [done|].
  rewrite filter_cons_True by done. by rewrite IH.
Qed.

Lemma filter_nonneg_empty k : filter (fun f => 0 <= f) (replicate k (-1)) = [].
Proof. induction k as [|k IH]; [done|]. simpl. rewrite filter_cons_False by lia. done. Qed.

Lemma pages_ok n fs l k : frames_ok n fs l k -> pages fs = list_to_set l.
Proof.
  intros [-> _ _ Hl]. unfold pages.
  by rewrite filter_app, filter_nonneg_all, filter_nonneg_empty, app_nil_r.
Qed.

Lemma size_list_to_set_NoDup (l : list Z) :
  NoDup l -> size (list_to_set l : gset Z) = length l.
Proof. intros H. by rewrite size_list_to_set. Qed.

Lemma size_pages n fs l k : frames_ok n fs l k -> size (pages fs) = length l.
Proof. intros H. rewrite (pages_ok _ _ _ _ H). apply size_list_to_set_NoDup, H. Qed.

(** Every frame array of the run: one record for the whole state. *)
Record wf (n : nat) (st : run_state) : Prop := {
  wf_frames : exists l k, frames_ok n (page_frame st) l k /\
                          ((0 < k)%nat -> victim st = 0);
  wf_victim : 0 <= victim st < Z.of_nat n;
  wf_bits : length (reference_bit st) = n
}.

(** *** The scan *)
Lemma scan_hit l : forall fs j page i,
  NoDup l -> l !! i = Some page -> Forall (fun f => 0 <= f) l ->
  scan_frames (l ++ fs) j page = Hit (j + Z.of_nat i).
Proof.
  induction l as [|f l IH]; intros fs j page i Hnd Hi Hl; [done|].
  apply NoDup_cons in Hnd as [Hf Hnd]. apply Forall_cons in Hl as [H0 Hl]. simpl.
  destruct i as [|i]; simpl in Hi.
  - injection Hi as ->. rewrite Z.eqb_refl. f_equal. lia.
  - assert (f <> page) as Hne.
    { intros ->. apply Hf. apply list_elem_of_lookup. eauto. }
    rewrite (proj2 (Z.eqb_neq _ _) Hne), (proj2 (Z.ltb_ge _ _) H0).
    rewrite (IH fs (j + 1) page i) by done. f_equal. lia.
Qed.

Lemma scan_miss l : forall k j page,
  page ∉ l -> 0 <= page -> Forall (fun f => 0 <= f) l ->
  scan_frames (l ++ replicate k (-1)) j page =
    if (k =? 0)%nat then NotFound else Free (j + Z.of_nat (length l)).
Proof.
  induction l as [|f l IH]; intros k j page Hp H0 Hl; simpl.
  - destruct k as [|k]; [done|]. cbn [replicate scan_frames Nat.eqb].
    rewrite (proj2 (Z.eqb_neq _ _)) by lia. f_equal. lia.
  - apply not_elem_of_cons in Hp as [Hne Hp]. apply Forall_cons in Hl as [Hf Hl].
    rewrite (proj2 (Z.eqb_neq _ _)) by done.
    rewrite (proj2 (Z.ltb_ge _ _) Hf), (IH k (j + 1) page) by done.
    destruct (k =? 0)%nat; [done|]. f_equal. lia.
Qed.

(** *** Updating a frame *)
Lemma frames_fill n fs l k page :
  frames_ok n fs l (S k) -> page ∉ l -> 0 <= page ->
  frames_ok n (<[length l := page]> fs) (l ++ [page]) k.
Proof.
  intros [-> Hlen Hnd Hl] Hp H0. split.
  - rewrite insert_app_r_alt by lia. rewrite Nat.sub_diag. simpl.
    by rewrite <- app_assoc.
  - rewrite length_app. simpl. lia.
  - apply NoDup_app. split; [done|]. split; [|apply NoDup_singleton].
    intros x Hx ->%list_elem_of_singleton. done.
  - apply Forall_app. split; [done|]. by apply Forall_singleton.
Qed.

Lemma insert_elem_of (l : list Z) i v page x :
  NoDup l -> l !! i = Some v ->
  x ∈ <[i := page]> l <-> x = page \/ (x ∈ l /\ x <> v).
Proof.
  intros Hnd Hi. assert (Hlt : (i < length l)%nat) by (by eapply lookup_lt_Some).
  rewrite !list_elem_of_lookup. split.
  - intros [j Hj]. destruct (decide (i = j)) as [->|Hij].
    + rewrite list_lookup_insert_eq in Hj by done. left. congruence.
    + rewrite list_lookup_insert_ne in Hj by done. right. split; [eauto|].
      intros ->. apply Hij. eapply NoDup_lookup; eauto.
  - intros [->|[[j Hj] Hne]].
    + exists i. by apply list_lookup_insert_eq.
    + exists j. rewrite list_lookup_insert_ne; [done|]. congruence.
Qed.

Lemma frames_replace n fs l i v page :
  frames_ok n fs l 0 -> l !! i = Some v -> page ∉ l -> 0 <= page ->
  frames_ok n (<[i := page]> fs) (<[i := page]> l) 0.
Proof.
  intros [-> Hlen Hnd Hl] Hi Hp H0. simpl. rewrite app_nil_r. split.
  - by rewrite app_nil_r.
  - by rewrite length_insert.
  - apply NoDup_alt. intros a b x Ha Hb.
    assert (Hlt : (i < length l)%nat) by (by eapply lookup_lt_Some).
    destruct (decide (i = a)) as [<-|Hia], (decide (i = b)) as [<-|Hib]; [done| | |].
    + rewrite list_lookup_insert_eq in Ha by done. injection Ha as <-.
      rewrite list_lookup_insert_ne in Hb by done.
      exfalso. apply Hp, list_elem_of_lookup. eauto.
    + rewrite list_lookup_insert_eq in Hb by done. injection Hb as <-.
      rewrite list_lookup_insert_ne in Ha by done.
      exfalso. apply Hp, list_elem_of_lookup. eauto.
    + rewrite list_lookup_insert_ne in Ha, Hb by done. eapply NoDup_lookup; eauto.
  - by apply Forall_insert.
Qed.

(** *** The three outcomes of the scan *)
Lemma scan_cases n fs l k page :
  frames_ok n fs l k -> 0 <= page ->
  (exists i, l !! i = Some page /\ scan_frames fs 0 page = Hit (Z.of_nat i)) \/
  (exists k', k = S k' /\ page ∉ l /\ scan_frames fs 0 page = Free (Z.of_nat (length l))) \/
  (k = 0%nat /\ page ∉ l /\ scan_frames fs 0 page = NotFound).
Proof.
  intros [-> Hlen Hnd Hl] H0. destruct (decide (page ∈ l)) as [Hin|Hin].
  - left. apply list_elem_of_lookup in Hin as [i Hi]. exists i. split; [done|].
    by rewrite (scan_hit l _ 0 page i).
  - right. rewrite scan_miss by done. destruct k as [|k].
    + right. done.
    + left. exists k. done.
Qed.

(** *** Serving one page: the effect on the set of resident pages *)
Definition served (old new : gset Z) (page : Z) (fault : bool) : Prop :=
  page ∈ new /\ new ⊆ {[page]} ∪ old /\ fault = bool_decide (page ∉ old).

Lemma elem_of_pages n fs l k x : frames_ok n fs l k -> x ∈ pages fs <-> x ∈ l.
Proof. intros H. rewrite (pages_ok _ _ _ _ H). apply elem_of_list_to_set. Qed.

Lemma served_hit n fs l k page :
  frames_ok n fs l k -> page ∈ l -> served (pages fs) (pages fs) page false.
Proof.
  intros Hf Hin. rewrite <- (elem_of_pages _ _ _ _ page Hf) in Hin.
  split; [done|]. split; [set_solver|].
  symmetry. apply bool_decide_eq_false. tauto.
Qed.

Lemma pages_fill n fs l k page :
  frames_ok n fs l (S k) -> page ∉ l -> 0 <= page ->
  pages (<[length l := page]> fs) = {[page]} ∪ pages fs.
Proof.
  intros Hf Hp H0. pose proof (frames_fill _ _ _ _ _ Hf Hp H0) as Hf'.
  rewrite (pages_ok _ _ _ _ Hf), (pages_ok _ _ _ _ Hf'). set_solver.
Qed.

Lemma pages_replace n fs l i v page :
  frames_ok n fs l 0 -> l !! i = Some v -> page ∉ l -> 0 <= page ->
  pages (<[i := page]> fs) = {[page]} ∪ (pages fs ∖ {[v]}).
Proof.
  intros Hf Hi Hp H0. pose proof (frames_replace _ _ _ _ _ _ Hf Hi Hp H0) as Hf'.
  apply set_eq. intros x. rewrite (elem_of_pages _ _ _ _ x Hf').
  rewrite (insert_elem_of l i v page x) by (done || apply Hf).
  rewrite elem_of_union, elem_of_difference, !elem_of_singleton.
  rewrite (elem_of_pages _ _ _ _ x Hf). done.
Qed.

Lemma served_fill n fs l k page :
  frames_ok n fs l (S k) -> page ∉ l -> 0 <= page ->
  served (pages fs) (pages (<[length l := page]> fs)) page true.
Proof.
  intros Hf Hp H0. rewrite (pages_fill _ _ _ _ _ Hf Hp H0).
  split; [set_solver|]. split; [set_solver|].
  symmetry. apply bool_decide_eq_true. by rewrite (elem_of_pages _ _ _ _ page Hf).
Qed.

Lemma served_replace n fs l i v page :
  frames_ok n fs l 0 -> l !! i = Some v -> page ∉ l -> 0 <= page ->
  served (pages fs) (pages (<[i := page]> fs)) page true.
Proof.
  intros Hf Hi Hp H0. rewrite (pages_replace _ _ _ _ _ _ Hf Hi Hp H0).
  split; [set_solver|]. split; [set_solver|].
  symmetry. apply bool_decide_eq_true. by rewrite (elem_of_pages _ _ _ _ page Hf).
Qed.

#[export] Hint Resolve frames_fill frames_replace served_hit served_fill served_replace : cmodel.

(** *** Writing a frame succeeds inside the array *)
Lemma frames_length n fs l k : frames_ok n fs l k -> length fs = n.
Proof. intros [-> <- _ _]. by rewrite length_app, length_replicate. Qed.

Lemma set_frame_ok n st l k (i : nat) page :
  frames_ok n (page_frame st) l k -> (i < n)%nat ->
  set_frame st (Z.of_nat i) page =
    Ok (mk_run (<[i := page]> (page_frame st)) (reference_bit st) (page_fault st) (victim st)).
Proof.
  intros Hf Hi. unfold set_frame.
  rewrite aset_ok by (by rewrite (frames_length _ _ _ _ Hf)). done.
Qed.

Lemma frames_lookup n fs l i :
  frames_ok n fs l 0 -> (i < n)%nat -> exists v, l !! i = Some v.
Proof.
  intros [_ Hlen _ _] Hi. rewrite Nat.add_0_r in Hlen. apply lookup_lt_is_Some. lia.
Qed.

(** What one iteration does: it succeeds, keeps the invariant, serves the page
    and counts the fault it reports. *)
Definition serves (n : nat) (st : run_state) (page : Z) (r : step_result)
    (post : run_state -> bool -> Prop) : Prop :=
  exists st' (b : bool), r = Ok (st', b) /\ wf n st' /\
    served (pages (page_frame st)) (pages (page_frame st')) page b /\
    page_fault st' = page_fault st + (if b then 1 else 0) /\ post st' b.

(** *** Initial state *)
Lemma frames_init n : frames_ok n (replicate n (-1)) [] n.
Proof. by split; [| |apply NoDup_nil_2|]. Qed.

Lemma init_run_ok n :
  (0 < n)%nat ->
  exists st, init_run (Z.of_nat n) = Ok st /\ wf n st /\
    pages (page_frame st) = ∅ /\ page_fault st = 0 /\ victim st = 0 /\
    page_frame st = replicate n (-1) /\ reference_bit st = replicate n 0.
Proof.
  intros Hn. unfold init_run. rewrite (proj2 (Z.ltb_lt _ _)) by lia. simpl.
  rewrite Nat2Z.id. eexists. split; [reflexivity|]. simpl.
  split; [|split; [|done]].
  - split; simpl; [|lia|by rewrite length_replicate].
    exists [], n. split; [apply frames_init|done].
  - by rewrite (pages_ok _ _ _ _ (frames_init n)).
Qed.

(** ** Whole runs *)

(** The lines of the table marked with an F. *)
Definition replaced (rows : list row) : nat :=
  length (filter (fun r => row_replace r = true) rows).

Section Runs.
Context (n : nat) (refs : list Z) (step : nat -> Z -> run_state -> step_result).
Context (I : nat -> run_state -> Prop).
Context (Hstep : forall i page st,
  refs !! i = Some page -> 0 <= page -> wf n st -> I i st ->
  serves n st page (step i page st) (fun st' _ => I (S i) st')).

(** What a finished run tells: [m] faults by the counter, by the marks and as a
    demand-paging run; one row per reference, showing its page resident. *)
Definition run_spec (i : nat) (st : run_state) (rest : list Z)
    (r : res (list row * run_state)) : Prop :=
  exists rows st' m, r = Ok (rows, st') /\ wf n st' /\ I (i + length rest)%nat st' /\
    paging n (pages (page_frame st)) rest m /\
    page_fault st' = page_fault st + Z.of_nat m /\ replaced rows = m /\
    Forall2 (fun r p => p ∈ row_frames r) rows rest.

Lemma run_loop_spec rest : forall i st,
  rest = drop i refs -> Forall (fun p => 0 <= p) rest -> wf n st -> I i st ->
  run_spec i st rest (run_loop step rest i st).
Proof.
  induction rest as [|p rest IH]; intros i st Hdrop Hpos Hwf HI.
  - exists [], st, 0%nat. rewrite Nat.add_0_r. split; [done|]. split; [done|].
    split; [done|]. split; [constructor|]. split; [lia|]. split; [done|constructor].
  - apply Forall_cons in Hpos as [H0 Hpos].
    assert (Hi : refs !! i = Some p).
    { rewrite <- (Nat.add_0_r i), <- lookup_drop, <- Hdrop. done. }
    destruct (Hstep i p st Hi H0 Hwf HI)
      as (st1 & b & Hs & Hwf1 & (Hp & Hsub & Hb) & Hfault & HI1).
    destruct (IH (S i) st1) as (rows & st' & m & Hrun & Hwf' & HI' & Hpag & Hm & Hrep & Hall);
      [|done..|].
    { by rewrite <- Nat.add_1_r, <- drop_drop, <- Hdrop. }
    assert (Hsize : (size (pages (page_frame st1)) <= n)%nat).
    { destruct Hwf1 as [(l & k & Hf & _) _ _]. rewrite (size_pages _ _ _ _ Hf).
      destruct Hf; lia. }
    pose proof (paging_cons n (pages (page_frame st)) p _ rest m Hp Hsub Hsize Hpag) as Hpag1.
    simpl run_loop. rewrite Hs. simpl. rewrite Hrun. simpl. unfold run_spec.
    do 3 eexists. split; [reflexivity|]. split; [done|].
    split; [by replace (i + length (p :: rest))%nat with (S i + length rest)%nat by (simpl; lia)|].
    split; [exact Hpag1|]. subst b. unfold replaced. rewrite filter_cons. simpl.
    assert (Hin : p ∈ page_frame st1).
    { unfold pages in Hp. rewrite elem_of_list_to_set, list_elem_of_filter in Hp. tauto. }
    fold (replaced rows). rewrite Hm, Hfault.
    split; [|split; [|by constructor]]; case_bool_decide; repeat case_decide;
      try tauto; try done; simpl; unfold replaced in *; lia.
Qed.
End Runs.

(** The specification of a complete simulation. *)
Definition simulation_ok (n : nat) (refs : list Z) (r : res (list row * run_state)) : Prop :=
  exists rows st m, r = Ok (rows, st) /\
    paging n ∅ refs m /\ page_fault st = Z.of_nat m /\ replaced rows = m /\
    Forall2 (fun r p => p ∈ row_frames r) rows refs.

Lemma simulate_spec n refs a (I : nat -> run_state -> Prop) :
  (0 < n)%nat -> Forall (fun p => 0 <= p) refs ->
  (forall st, init_run (Z.of_nat n) = Ok st -> I 0%nat st) ->
  (forall i page st, refs !! i = Some page -> 0 <= page -> wf n st -> I i st ->
    serves n st page (step_of a (Z.of_nat n) refs i page st) (fun st' _ => I (S i) st')) ->
  exists rows st m, simulate a (Z.of_nat n) refs = Ok (rows, st) /\
    wf n st /\ I (length refs) st /\
    paging n ∅ refs m /\ page_fault st = Z.of_nat m /\ replaced rows = m /\
    Forall2 (fun r p => p ∈ row_frames r) rows refs.
Proof.
  intros Hn Hpos Hinit Hstep.
  destruct (init_run_ok n Hn) as (st0 & H0 & Hwf & Hpages & Hf0 & _).
  destruct (run_loop_spec n refs _ I Hstep refs 0 st0) as (rows & st & m & Hrun & H);
    [by rewrite drop_0|done|done|by apply Hinit|].
  unfold simulate. rewrite H0. simpl. rewrite Hrun.
  exists rows, st, m. rewrite Hpages, Hf0 in H. tauto.
Qed.
