(* ===== verification/Belady.v ===== *)
(** * OPT is optimal

    Belady's theorem for the [OPT] branch of the simulator: no policy that
    serves the same page reference string with the same number of frames has
    fewer page faults. *)
From Stdlib Require Import ZArith Lia.
From S2P Require Import Prelude CLib PageRepl PageSpec.
Import Sim.

(** ** The victim OPT chooses *)

Lemma next_use_ge f future : forall k0 k, next_use f future k0 = Some k -> k0 <= k.
Proof.
  induction future as [|r future IH]; intros k0 k; simpl; [done|].
  case_bool; [intros [= <-]; lia|]. intros Hn%IH. lia.
Qed.

(** [next_use] finds the first occurrence: position [k] of the reference string
    is within the next [t] references iff [k < k0 + t]. *)
Lemma next_use_some f future : forall k0 k t,
  next_use f future k0 = Some k -> (f ∈ take t future <-> k < k0 + Z.of_nat t).
Proof.
  induction future as [|r future IH]; intros k0 k t; simpl; [done|].
  destruct (f =? r)%c eqn:E.
  - apply Z.eqb_eq in E as ->. intros [= <-]. destruct t as [|t]; simpl.
    + rewrite elem_of_nil. lia.
    + rewrite elem_of_cons. split; [lia|by left].
  - apply Z.eqb_neq in E. intros Hn. destruct t as [|t]; simpl.
    + rewrite elem_of_nil. split; [done|]. intros Hk.
      apply next_use_ge in Hn. lia.
    + rewrite elem_of_cons, (IH _ _ t Hn). split; [intros [?|?]; [done|lia]|].
      right. lia.
Qed.

Lemma next_use_none f future : forall k0 t,
  next_use f future k0 = None -> f ∉ take t future.
Proof.
  induction future as [|r future IH]; intros k0 t; simpl.
  - intros _. rewrite take_nil. apply not_elem_of_nil.
  - destruct (f =? r)%c eqn:E; [done|]. apply Z.eqb_neq in E. intros Hn.
    destruct t as [|t]; simpl; [apply not_elem_of_nil|].
    apply not_elem_of_cons. split; [done|]. by apply (IH (k0 + 1)).
Qed.

(** [farthest v l future]: whenever [v] is among the next references, so is
    every page of [l]. *)
Definition farthest (v : Z) (l : list Z) (future : list Z) : Prop :=
  forall x t, x ∈ l -> v ∈ take t future -> x ∈ take t future.

Lemma opt_victim_loop future k0 (Hk0 : 0 <= k0) l : forall pre location vic,
  (pre = [] /\ location = -1 /\ l <> []) \/
  (exists i x, vic = Z.of_nat i /\ pre !! i = Some x /\
     next_use x future k0 = Some location /\ farthest x pre future) ->
  exists i x,
    opt_victim l (Z.of_nat (length pre)) future k0 location vic = Z.of_nat i /\
    (pre ++ l) !! i = Some x /\ farthest x (pre ++ l) future.
Proof.
  induction l as [|f l IH]; intros pre location vic Hinv; simpl.
  - destruct Hinv as [(_ & _ & ?)|(i & x & -> & Hx & _ & Hfar)]; [done|].
    exists i, x. rewrite app_nil_r. done.
  - assert (Hf : (pre ++ f :: l) !! length pre = Some f) by
      (by rewrite lookup_app_r, Nat.sub_diag by lia).
    replace (Z.of_nat (length pre) + 1) with (Z.of_nat (length (pre ++ [f])))
      by (rewrite length_app; simpl; lia).
    replace (pre ++ f :: l) with ((pre ++ [f]) ++ l) in * by (by rewrite <- app_assoc).
    destruct (next_use f future k0) as [k|] eqn:Hn.
    + destruct (location <? k)%c eqn:Hlt; bool_to_prop; apply IH; right.
      * exists (length pre), f. split; [done|]. split; [|split; [done|]].
        { rewrite lookup_app_r, Nat.sub_diag by lia. done. }
        intros y t [Hy|Hy%list_elem_of_singleton]%elem_of_app Ht; [|by subst y].
        destruct Hinv as [(-> & _ & _)|(i & x & _ & Hx & Hnx & Hfar)];
          [by apply elem_of_nil in Hy|].
        apply (Hfar y t Hy). rewrite (next_use_some _ _ _ _ _ Hnx).
        rewrite (next_use_some _ _ _ _ _ Hn) in Ht. lia.
      * apply next_use_ge in Hn as Hge.
        destruct Hinv as [(-> & -> & _)|(i & x & -> & Hx & Hnx & Hfar)]; [lia|].
        exists i, x. split; [done|]. split; [by apply lookup_app_l_Some|].
        split; [done|].
        intros y t [Hy|Hy%list_elem_of_singleton]%elem_of_app Ht; [by apply (Hfar y t)|subst y].
        rewrite (next_use_some _ _ _ _ _ Hnx) in Ht.
        rewrite (next_use_some _ _ _ _ _ Hn). lia.
    + exists (length pre), f. split; [done|].
      rewrite Hf. split; [done|].
      intros y t _ Ht. by apply (next_use_none _ _ _ t) in Hn.
Qed.

Lemma opt_victim_ok l future k0 :
  0 <= k0 -> l <> [] ->
  exists i x, opt_victim l 0 future k0 (-1) (-1) = Z.of_nat i /\
              l !! i = Some x /\ farthest x l future.
Proof.
  intros Hk0 Hl. apply (opt_victim_loop future k0 Hk0 l [] (-1) (-1)). by left.
Qed.

(** ** One iteration of OPT *)

(** Nothing is evicted before the frames are full, and then the page whose next
    use is the farthest. *)
Definition opt_choice (n : nat) (future : list Z) (page : Z) (old new : gset Z) : Prop :=
  (page ∈ old /\ new = old) \/
  (page ∉ old /\ new = {[page]} ∪ old) \/
  (page ∉ old /\ size old = n /\
   exists v, v ∈ old /\ new = {[page]} ∪ (old ∖ {[v]}) /\
     forall x t, x ∈ old -> v ∈ take t future -> x ∈ take t future).

Lemma opt_step_serves n refs i page st :
  (0 < n)%nat -> wf n st -> 0 <= page ->
  serves n st page (opt_step refs i page st) (fun st' _ =>
    opt_choice n (drop (S i) refs) page (pages (page_frame st)) (pages (page_frame st'))).
Proof.
  intros Hn [(l & k & Hf & Hv0) Hv Hb] H0. unfold serves, opt_step.
  destruct (scan_cases _ _ _ _ page Hf H0)
    as [(j & Hj & ->)|[(k' & -> & Hp & ->)|(-> & Hp & ->)]].
  - exists st, false. apply list_elem_of_lookup_2 in Hj. split; [done|].
    split; [split; eauto|]. split; [eauto with cmodel|]. split; [lia|]. left.
    by rewrite (elem_of_pages _ _ _ _ page Hf).
  - rewrite (set_frame_ok n (count_fault st) l (S k')) by (done || destruct Hf; lia).
    do 2 eexists. split; [reflexivity|]. simpl.
    split; [split; simpl; eauto with cmodel|].
    { exists (l ++ [page]), k'. split; [eauto with cmodel|]. intros _. apply Hv0. lia. }
    split; [eauto with cmodel|]. split; [done|]. right; left.
    rewrite (elem_of_pages _ _ _ _ page Hf). split; [done|]. by eapply pages_fill.
  - assert (Hl : l <> []) by (intros ->; destruct Hf; simpl in *; lia).
    assert (Hfs : page_frame st = l) by (destruct Hf as [-> _ _ _]; apply app_nil_r).
    destruct (opt_victim_ok l (drop (S i) refs) (Z.of_nat i + 1) ltac:(lia) Hl)
      as (v & x & Hvic & Hx & Hfar).
    rewrite <- Hfs in Hvic. cbv zeta. rewrite Hvic.
    rewrite (set_frame_ok n st l 0) by (done || apply lookup_lt_Some in Hx; destruct Hf; lia).
    do 2 eexists. split; [reflexivity|]. simpl.
    split; [split; simpl; eauto with cmodel|].
    split; [eauto with cmodel|]. split; [done|]. right; right.
    rewrite (elem_of_pages _ _ _ _ page Hf), (size_pages _ _ _ _ Hf).
    split; [done|]. split; [destruct Hf; lia|]. exists x.
    split; [rewrite (elem_of_pages _ _ _ _ x Hf); by eapply list_elem_of_lookup_2|].
    split; [by eapply pages_replace|].
    intros y t Hy Ht. apply (Hfar y t); [|done]. by apply (elem_of_pages _ _ _ _ y Hf).
Qed.

(** ** The exchange argument

    [near X t refs] counts the pages of [X] used within the next [t] references.
    OPT's cache falls behind another cache by at most [d] at every horizon; each
    request changes the allowed [d] by the difference of the two costs. *)
Definition near (X : gset Z) (t : nat) (refs : list Z) : nat :=
  size (X ∩ list_to_set (take t refs)).

Definition cost (p : Z) (X : gset Z) : nat := if decide (p ∈ X) then 0 else 1.

Lemma size_inter_add (p : Z) (X T : gset Z) :
  size (({[p]} ∪ X) ∩ T) =
    ((if decide (p ∈ T) then 1 else 0) + size ((X ∖ {[p]}) ∩ T))%nat.
Proof.
  case_decide as HT.
  - replace (({[p]} ∪ X) ∩ T) with ({[p]} ∪ ((X ∖ {[p]}) ∩ T)).
    + rewrite size_union by set_solver. by rewrite size_singleton.
    + apply set_eq. intros x. destruct (decide (x = p)); set_solver.
  - replace (({[p]} ∪ X) ∩ T) with ((X ∖ {[p]}) ∩ T); [done|].
    apply set_eq. intros x. destruct (decide (x = p)); set_solver.
Qed.

Lemma near_cons X p t refs :
  (near X (S t) (p :: refs) + cost p X = 1 + size ((X ∖ {[p]}) ∩ list_to_set (take t refs)))%nat.
Proof.
  unfold near, cost. rewrite (comm_L (∩) X). simpl.
  rewrite size_inter_add.
  replace ((list_to_set (take t refs) ∖ {[p]}) ∩ X)
    with ((X ∖ {[p]}) ∩ list_to_set (take t refs)) by set_solver.
  case_decide; lia.
Qed.

Section Exchange.
Context (n : nat) (future : list Z) (p : Z) (A A' B B' : gset Z).
Context (HA : (size A <= n)%nat) (HB' : (size B' <= n)%nat).
Context (Hopt : opt_choice n future p A A').
Context (HpB : p ∈ B') (HsB : B' ⊆ {[p]} ∪ B).

Let T (t : nat) : gset Z := list_to_set (take t future).

(** The other policy holds at most its old pages and [p]. *)
Lemma near_other t :
  (near B' t future <= (if decide (p ∈ T t) then 1 else 0) + size ((B ∖ {[p]}) ∩ T t))%nat.
Proof. unfold near. rewrite <- size_inter_add. apply subseteq_size. set_solver. Qed.

Lemma near_other_full t :
  (near B' t future + 1 <= n + (if decide (p ∈ T t) then 1 else 0))%nat.
Proof.
  unfold near. fold (T t). case_decide as HT.
  - assert (size (B' ∩ T t) <= size B')%nat by (apply subseteq_size; set_solver). lia.
  - assert (size (B' ∩ T t) <= size (B' ∖ {[p]}))%nat by (apply subseteq_size; set_solver).
    assert (size (B' ∖ {[p]}) + 1 = size B')%nat; [|lia].
    rewrite size_difference by set_solver. rewrite size_singleton.
    assert (size ({[p]} : gset Z) <= size B')%nat by (apply subseteq_size; set_solver).
    rewrite size_singleton in *. lia.
Qed.

(** OPT keeps all its near pages, or everything it holds is near. *)
Lemma near_opt t :
  (near A' t future = (if decide (p ∈ T t) then 1 else 0) + size ((A ∖ {[p]}) ∩ T t))%nat \/
  (p ∉ A) /\ (near A' t future + 1 = n + (if decide (p ∈ T t) then 1 else 0))%nat.
Proof.
  unfold near. fold (T t). destruct Hopt as [[Hp ->]|[[Hp ->]|(Hp & Hn & v & Hv & -> & Hfar)]].
  - left. rewrite <- size_inter_add. f_equal. set_solver.
  - left. by rewrite size_inter_add.
  - rewrite size_inter_add. destruct (decide (v ∈ T t)) as [HvT|HvT].
    + right. split; [done|]. replace ((A ∖ {[v]} ∖ {[p]}) ∩ T t) with (A ∖ {[v]}).
      * rewrite size_difference, size_singleton by set_solver.
        assert (size ({[v]} : gset Z) <= size A)%nat by (apply subseteq_size; set_solver).
        rewrite size_singleton in *. lia.
      * apply set_eq. intros x. split; [|set_solver]. intros Hx.
        assert (x ∈ T t).
        { apply elem_of_list_to_set, Hfar; [set_solver|]. by apply elem_of_list_to_set in HvT. }
        set_solver.
    + left. f_equal. f_equal. set_solver.
Qed.

Lemma exchange d :
  (forall t, near B t (p :: future) <= near A t (p :: future) + d)%nat ->
  (cost p A <= d + cost p B)%nat /\
  (forall t, near B' t future <= near A' t future + (d + cost p B - cost p A))%nat.
Proof.
  intros H.
  assert (Hd : (cost p A <= d + cost p B)%nat).
  { pose proof (H 1%nat) as H1. pose proof (near_cons A p 0 future) as HcA.
    pose proof (near_cons B p 0 future) as HcB. rewrite take_0 in HcA, HcB. simpl in *.
    rewrite !intersection_empty_r_L, size_empty in *. lia. }
  split; [done|]. intros t. specialize (H (S t)).
  pose proof (near_cons A p t future) as HcA. pose proof (near_cons B p t future) as HcB.
  pose proof (near_other t). pose proof (near_other_full t).
  fold (T t) in *.
  destruct (near_opt t) as [Ho|[Hp Ho]]; fold (T t) in *; lia.
Qed.
End Exchange.

(** ** Runs of the OPT branch *)
Lemma wf_size n st : wf n st -> (size (pages (page_frame st)) <= n)%nat.
Proof.
  intros [(l & k & Hf & _) _ _]. rewrite (size_pages _ _ _ _ Hf). destruct Hf; lia.
Qed.

Lemma opt_run_le n refs : forall rest i st B m d,
  (0 < n)%nat -> rest = drop i refs -> wf n st -> Forall (fun p => 0 <= p) rest ->
  (size B <= n)%nat -> paging n B rest m ->
  (forall t, near B t rest <= near (pages (page_frame st)) t rest + d)%nat ->
  exists rows st', run_loop (opt_step refs) rest i st = Ok (rows, st') /\
    page_fault st' <= page_fault st + Z.of_nat m + Z.of_nat d.
Proof.
  induction rest as [|p rest IH]; intros i st B m d Hn Hdrop Hwf Hpos HB Hpag Hnear.
  - do 2 eexists. split; [reflexivity|]. lia.
  - inversion Hpag as [|? ? B' ? m' HpB HsB HB' Hpag']; subst.
    apply Forall_cons in Hpos as [H0 Hpos].
    destruct (opt_step_serves n refs i p st Hn Hwf H0)
      as (st1 & b & Hstep & Hwf1 & (_ & _ & Hb) & Hfault & Hopt).
    assert (Hrest : rest = drop (S i) refs).
    { rewrite <- Nat.add_1_r, <- drop_drop, <- Hdrop. done. }
    rewrite <- Hrest in Hopt.
    destruct (exchange n rest p _ _ B B' (wf_size _ _ Hwf) HB' Hopt HpB HsB d Hnear)
      as [Hcost Hnear'].
    destruct (IH (S i) st1 B' m' _ Hn Hrest Hwf1 Hpos HB' Hpag' Hnear')
      as (rows & st' & Hrun & Hle).
    simpl. rewrite Hstep. simpl. rewrite Hrun. simpl.
    do 2 eexists. split; [reflexivity|].
    rewrite Hfault in Hle. unfold cost in *. subst b.
    repeat case_decide; repeat case_bool_decide; simpl in *; try tauto; lia.
Qed.
