(* ===== verification/Queues.v ===== *)
(** * FIFO and Second-Chance refine their textbook queues

    The simulator keeps a circular array of frames and a hand ([victim]); the
    textbook algorithms keep a queue.  Rotating the array at the hand gives the
    queue, and every iteration of the code is one step of the queue algorithm. *)
From Stdlib Require Import ZArith Lia.
From S2P Require Import Prelude CLib PageRepl PageSpec.
Import Sim.

(** ** Rotation *)
Definition rot {A} (v : nat) (l : list A) : list A := drop v l ++ take v l.

Lemma rot_app {A} (a b : list A) : rot (length a) (a ++ b) = b ++ a.
Proof. unfold rot. by rewrite drop_app_length, take_app_length. Qed.

Lemma rot_0 {A} (l : list A) : rot 0 l = l.
Proof. unfold rot. by rewrite drop_0, take_0, app_nil_r. Qed.

Lemma rot_all {A} (l : list A) v : (length l <= v)%nat -> rot v l = l.
Proof. intros H. unfold rot. by rewrite drop_ge, take_ge. Qed.

Lemma insert_middle {A} (a b : list A) x y i :
  i = length a -> <[i := y]> (a ++ x :: b) = a ++ y :: b.
Proof. intros ->. rewrite insert_app_r_alt, Nat.sub_diag by lia. done. Qed.

(** The hand wraps around at the end of the array, without changing the queue. *)
Definition hand (n v : nat) : nat := if (v =? n)%nat then 0 else v.

Lemma rot_hand {A} n v (l : list A) : length l = n -> rot (hand n v) l = rot v l.
Proof.
  intros Hl. unfold hand. destruct (Nat.eqb_spec v n) as [->|]; [|done].
  by rewrite rot_0, rot_all by lia.
Qed.

Lemma wrap_victim_eq n st v :
  victim st = Z.of_nat v ->
  wrap_victim (Z.of_nat n) st = set_victim st (Z.of_nat (hand n v)).
Proof.
  intros Hv. unfold wrap_victim, hand. rewrite Hv.
  destruct (Nat.eqb_spec v n) as [->|Hne]; [by rewrite Z.eqb_refl|].
  rewrite (proj2 (Z.eqb_neq _ _)) by lia. rewrite <- Hv. by destruct st.
Qed.

Lemma hand_lt n v : (0 < n)%nat -> (v <= n)%nat -> 0 <= Z.of_nat (hand n v) < Z.of_nat n.
Proof. unfold hand. destruct (Nat.eqb_spec v n); lia. Qed.

(** ** FIFO *)
Definition fifo_queue (st : run_state) : list Z :=
  rot (Z.to_nat (victim st)) (filter (fun f => 0 <= f) (page_frame st)).

(** The textbook queue: a miss enqueues, dropping the oldest page when full. *)
Definition fifo_spec (n : nat) (q : list Z) (p : Z) : list Z :=
  if decide (p ∈ q) then q
  else if (length q <? n)%nat then q ++ [p] else tail q ++ [p].

Lemma frames_filter n fs l k : frames_ok n fs l k -> filter (fun f => 0 <= f) fs = l.
Proof.
  intros [-> _ _ Hl]. by rewrite filter_app, filter_nonneg_all, filter_nonneg_empty, app_nil_r.
Qed.

Lemma elem_of_rot {A} v (l : list A) x : x ∈ rot v l <-> x ∈ l.
Proof.
  unfold rot. rewrite elem_of_app. rewrite <- (take_drop v l) at 3.
  rewrite elem_of_app. tauto.
Qed.

Lemma length_rot {A} v (l : list A) : length (rot v l) = length l.
Proof. unfold rot. rewrite length_app, length_drop, length_take. lia. Qed.

(** Split the frames of a full array at the hand. *)
Lemma split_at_hand n st l :
  frames_ok n (page_frame st) l 0 -> 0 <= victim st < Z.of_nat n ->
  exists a x b, l = a ++ x :: b /\ page_frame st = a ++ x :: b /\
    victim st = Z.of_nat (length a) /\ (length a + S (length b) = n)%nat.
Proof.
  intros Hf Hv. set (v := Z.to_nat (victim st)).
  destruct (frames_lookup n _ l v Hf) as [x Hx]; [lia|].
  exists (take v l), x, (drop (S v) l).
  assert (Hl : l = take v l ++ x :: drop (S v) l) by (by rewrite take_drop_middle).
  split; [done|]. destruct Hf as [Hs Hlen _ _]. simpl in Hs. rewrite app_nil_r in Hs.
  split; [by rewrite <- Hl|]. rewrite length_take, length_drop. lia.
Qed.

Lemma fifo_step_serves n refs i page st :
  (0 < n)%nat -> wf n st -> 0 <= page ->
  serves n st page (fifo_step (Z.of_nat n) refs i page st)
    (fun st' _ => fifo_queue st' = fifo_spec n (fifo_queue st) page).
Proof.
  intros Hn [(l & k & Hf & Hv0) Hv Hb] H0. unfold serves, fifo_step, fifo_spec, fifo_queue.
  rewrite (frames_filter _ _ _ _ Hf), length_rot.
  destruct (scan_cases _ _ _ _ page Hf H0)
    as [(j & Hj & ->)|[(k' & -> & Hp & ->)|(-> & Hp & ->)]]; simpl.
  - apply list_elem_of_lookup_2 in Hj. rewrite (wrap_victim_eq n st (Z.to_nat (victim st))) by lia.
    do 2 eexists. split; [reflexivity|]. simpl.
    assert (Hh : hand n (Z.to_nat (victim st)) = Z.to_nat (victim st)).
    { unfold hand. rewrite (proj2 (Nat.eqb_neq _ _)) by lia. done. }
    rewrite Hh, Z2Nat.id by lia.
    split; [split; simpl; eauto|]. split; [eauto with cmodel|]. split; [lia|].
    rewrite decide_True by (by apply elem_of_rot). by rewrite (frames_filter _ _ _ _ Hf).
  - assert (Hv' : victim st = 0) by (apply Hv0; lia).
    rewrite (set_frame_ok n (count_fault st) l (S k')) by (done || destruct Hf; lia).
    simpl. rewrite (wrap_victim_eq n _ 0) by (simpl; lia).
    do 2 eexists. split; [reflexivity|]. simpl. unfold hand.
    rewrite (proj2 (Nat.eqb_neq _ _)) by lia.
    pose proof (frames_fill _ _ _ _ _ Hf Hp H0) as Hf'.
    split; [split; simpl; [eauto|lia|done]|].
    split; [eauto with cmodel|]. split; [done|].
    rewrite decide_False by (by rewrite elem_of_rot).
    rewrite (proj2 (Nat.ltb_lt _ _)) by (destruct Hf; lia).
    by rewrite (frames_filter _ _ _ _ Hf'), Hv', !rot_0.
  - destruct (split_at_hand n st l Hf Hv) as (a & x & b & -> & Hs & Hva & Hlen).
    assert (Hx : (a ++ x :: b) !! length a = Some x)
      by (by rewrite lookup_app_r, Nat.sub_diag by lia).
    pose proof (frames_replace _ _ _ _ _ _ Hf Hx Hp H0) as Hf'.
    rewrite Hva, (set_frame_ok n st (a ++ x :: b) 0) by (done || lia). simpl.
    rewrite (wrap_victim_eq n _ (S (length a))) by (simpl; lia).
    do 2 eexists. split; [reflexivity|]. simpl.
    split.
    { split; simpl; [|apply hand_lt; lia|done]. eexists _, 0%nat. split; [eauto|lia]. }
    split; [eauto with cmodel|]. split; [done|].
    rewrite decide_False by (by rewrite elem_of_rot).
    rewrite (proj2 (Nat.ltb_ge _ _)) by (rewrite length_app; simpl; lia).
    rewrite (frames_filter _ _ _ _ Hf'), !Nat2Z.id, rot_hand, rot_app
      by (rewrite length_insert, length_app; simpl; lia).
    rewrite insert_middle by done. simpl.
    replace (S (length a)) with (length (a ++ [page])) by (rewrite length_app; simpl; lia).
    replace (a ++ page :: b) with ((a ++ [page]) ++ b) by (by rewrite <- app_assoc).
    rewrite rot_app. by rewrite app_assoc.
Qed.

(** ** Second-Chance *)

(** The queue of (page, reference bit): the arrays zipped, rotated at the hand.
    While frames are free the bits beyond the pages are cut off by [zip]. *)
Definition sc_queue (st : run_state) : list (Z * Z) :=
  rot (Z.to_nat (victim st)) (zip (filter (fun f => 0 <= f) (page_frame st)) (reference_bit st)).

(** The textbook algorithm: take the oldest page; if its bit is set, clear the
    bit and move the page to the back of the queue; otherwise replace it.
    Once around the queue is enough. *)
Fixpoint second_chance (fuel : nat) (q : list (Z * Z)) (p : Z) : list (Z * Z) :=
  match fuel, q with
  | S f, (x, b) :: q' =>
      if (b =? 0)%c then q' ++ [(p, 0)] else second_chance f (q' ++ [(x, 0)]) p
  | _, _ => q
  end.

Definition set_reference (p : Z) (e : Z * Z) : Z * Z :=
  if decide (e.1 = p) then (e.1, 1) else e.

Definition sc_spec (n : nat) (q : list (Z * Z)) (p : Z) : list (Z * Z) :=
  if decide (p ∈ q.*1) then set_reference p <$> q
  else if (length q <? n)%nat then q ++ [(p, 0)]
  else second_chance (S (length q)) q p.

(** Passing over pages whose bit is set, up to the first clear one. *)
Lemma second_chance_pass la : forall fuel x rest p,
  (length la < fuel)%nat ->
  second_chance fuel (zip la (replicate (length la) 1) ++ (x, 0) :: rest) p =
    rest ++ zip la (replicate (length la) 0) ++ [(p, 0)].
Proof.
  induction la as [|y la IH]; intros fuel x rest p Hf; (destruct fuel as [|fuel]; [simpl in Hf; lia|]).
  - done.
  - simpl in Hf |- *. rewrite <- app_assoc. simpl. rewrite (IH fuel x (rest ++ [(y, 0)]) p) by lia.
    by rewrite <- app_assoc.
Qed.

(** *** The sweep over the bits *)
Definition bits01 (bs : list Z) : Prop := Forall (fun b => b = 0 \/ b = 1) bs.

Lemma sweep_cases bs : forall j, bits01 bs ->
  (exists a b, bs = replicate a 1 ++ 0 :: b /\
     sweep bs j = (replicate a 0 ++ 0 :: b, Some (j + Z.of_nat a))) \/
  (bs = replicate (length bs) 1 /\ sweep bs j = (replicate (length bs) 0, None)).
Proof.
  induction bs as [|c bs IH]; intros j Hbs; [by right|].
  apply Forall_cons in Hbs as [Hc Hbs]. simpl. destruct Hc as [->| ->]; simpl.
  - left. exists 0%nat, bs. split; [done|]. by rewrite Z.add_0_r.
  - destruct (IH (j + 1) Hbs) as [(a & b & -> & ->)|[Hall ->]].
    + left. exists (S a), b. split; [done|]. simpl. do 2 f_equal. lia.
    + right. split; [by rewrite Hall at 1|done].
Qed.

Lemma bits01_replicate a b : b = 0 \/ b = 1 -> bits01 (replicate a b).
Proof. intros H. unfold bits01. by apply Forall_replicate. Qed.

(** *** The three ways [sc_evict] ends

    A full array split at the hand [v] into [l1] and [y :: l2], with bits [b1]
    and [b2].  [evicted] says: frame [length a] is replaced, the bits become
    [ba ++ 0 :: bb], and the textbook queue ends in the same order. *)
Section Evict.
Context (n : nat) (st : run_state) (page : Z) (l1 : list Z) (y : Z) (l2 : list Z).
Context (b1 b2 : list Z).
Context (Hf : frames_ok n (page_frame st) (l1 ++ y :: l2) 0).
Context (Hv : victim st = Z.of_nat (length l1)).
Context (Hbits : reference_bit st = b1 ++ b2).
Context (Hlb1 : length b1 = length l1) (Hlb2 : length b2 = S (length l2)).
Context (H1 : bits01 b1) (H2 : bits01 b2).

Definition evicted : Prop :=
  exists a x b ba bb,
    l1 ++ y :: l2 = a ++ x :: b /\ length ba = length a /\ length bb = length b /\
    bits01 (ba ++ 0 :: bb) /\
    sc_evict page st = Ok (mk_run (<[length a := page]> (page_frame st)) (ba ++ 0 :: bb)
                             (page_fault st + 1) (Z.of_nat (S (length a)))) /\
    second_chance (S n) (zip (y :: l2) b2 ++ zip l1 b1) page =
      zip b bb ++ zip a ba ++ [(page, 0)].

Lemma hand_len : (length l1 + S (length l2) = n)%nat.
Proof. destruct Hf as [_ Hlen _ _]. rewrite length_app in Hlen. simpl in Hlen. lia. Qed.

Lemma sc_replace_at st' a x b :
  page_frame st' = page_frame st -> page_fault st' = page_fault st ->
  l1 ++ y :: l2 = a ++ x :: b ->
  sc_replace st' (Z.of_nat (length a)) page =
    Ok (mk_run (<[length a := page]> (page_frame st)) (reference_bit st') (page_fault st + 1)
         (Z.of_nat (S (length a)))).
Proof.
  intros Hpf Hpt Hab. unfold sc_replace.
  apply (f_equal length) in Hab. rewrite !length_app in Hab. simpl in Hab.
  pose proof hand_len. rewrite <- Hpf in Hf.
  rewrite (set_frame_ok n st' (l1 ++ y :: l2) 0) by (done || lia).
  unfold count_fault, set_victim. simpl. rewrite Hpf, Hpt. do 2 f_equal. lia.
Qed.

Lemma sc_evict_unfold :
  sc_evict page st =
    let '(bs1, r1) := sweep b2 (Z.of_nat (length l1)) in
    match r1 with
    | Some j => sc_replace (set_bits st (b1 ++ bs1)) j page
    | None =>
        let '(bs2, r2) := sweep b1 0 in
        let st2 := set_bits st (bs2 ++ bs1) in
        match r2 with
        | Some j => sc_replace st2 j page
        | None => sc_replace st2 (Z.of_nat (length l1)) page
        end
    end.
Proof.
  unfold sc_evict. rewrite Hv, Hbits, Nat2Z.id. cbv zeta. rewrite <- Hlb1.
  rewrite drop_app_length, take_app_length.
  destruct (sweep b2 (Z.of_nat (length b1))) as [bs1 [j|]]; [done|]. simpl.
  rewrite drop_app_length, take_app_length. by destruct (sweep b1 0) as [bs2 [j|]].
Qed.

(** A clear bit at or after the hand. *)
Lemma sc_evict_forward a bb :
  b2 = replicate a 1 ++ 0 :: bb ->
  sweep b2 (Z.of_nat (length l1)) =
    (replicate a 0 ++ 0 :: bb, Some (Z.of_nat (length l1) + Z.of_nat a)) ->
  evicted.
Proof.
  intros Hb2 Hsw. pose proof hand_len as Hn.
  assert (Ha : (a + length bb = length l2)%nat).
  { rewrite Hb2, length_app, length_replicate in Hlb2. simpl in Hlb2. lia. }
  destruct (lookup_lt_is_Some_2 (y :: l2) a) as [x Hx]; [simpl; lia|].
  pose proof (take_drop_middle _ _ _ Hx) as Hsplit.
  set (la := take a (y :: l2)) in *. set (lb := drop (S a) (y :: l2)) in *.
  assert (Hla : length la = a) by (unfold la; rewrite length_take; simpl; lia).
  assert (Hlb : length lb = length bb) by (unfold lb; rewrite length_drop; simpl; lia).
  exists (l1 ++ la), x, lb, (b1 ++ replicate a 0), bb.
  assert (Hall : l1 ++ y :: l2 = (l1 ++ la) ++ x :: lb) by (by rewrite <- app_assoc, Hsplit).
  split; [done|]. split; [rewrite !length_app, length_replicate; lia|]. split; [done|].
  split; [|split].
  - rewrite Hb2 in H2. apply Forall_app in H2 as [_ H2'].
    apply Forall_cons in H2' as [_ Hbb]. unfold bits01. rewrite !Forall_app.
    split; [split; [done|apply bits01_replicate; auto]|constructor; auto].
  - rewrite sc_evict_unfold, Hsw.
    replace (Z.of_nat (length l1) + Z.of_nat a) with (Z.of_nat (length (l1 ++ la)))
      by (rewrite length_app; lia).
    rewrite (sc_replace_at _ (l1 ++ la) x lb) by done. simpl. by rewrite app_assoc.
  - rewrite Hb2, <- Hsplit, zip_with_app by (by rewrite length_replicate).
    rewrite <- Hla. simpl zip at 2. rewrite <- app_assoc. simpl app.
    rewrite second_chance_pass by lia. rewrite Hla, zip_with_app by done.
    by rewrite <- !app_assoc.
Qed.

(** All bits set from the hand on, a clear one before it. *)
Lemma sc_evict_wrapped a bb :
  b2 = replicate (length b2) 1 ->
  sweep b2 (Z.of_nat (length l1)) = (replicate (length b2) 0, None) ->
  b1 = replicate a 1 ++ 0 :: bb ->
  sweep b1 0 = (replicate a 0 ++ 0 :: bb, Some (0 + Z.of_nat a)) ->
  evicted.
Proof.
  intros Hb2 Hsw2 Hb1 Hsw1. pose proof hand_len as Hn.
  assert (Ha : (a + S (length bb) = length l1)%nat).
  { rewrite Hb1, length_app, length_replicate in Hlb1. simpl in Hlb1. lia. }
  destruct (lookup_lt_is_Some_2 l1 a) as [x Hx]; [lia|].
  pose proof (take_drop_middle _ _ _ Hx) as Hsplit.
  set (la := take a l1) in *. set (lb := drop (S a) l1) in *.
  assert (Hla : length la = a) by (unfold la; rewrite length_take; lia).
  assert (Hlb : length lb = length bb) by (unfold lb; rewrite length_drop; lia).
  exists la, x, (lb ++ y :: l2), (replicate a 0), (bb ++ replicate (length b2) 0).
  assert (Hall : l1 ++ y :: l2 = la ++ x :: lb ++ y :: l2)
    by (by rewrite <- Hsplit at 1; rewrite <- app_assoc).
  split; [done|]. split; [by rewrite length_replicate|].
  split; [rewrite !length_app, length_replicate; simpl; lia|].
  split; [|split].
  - rewrite Hb1 in H1. apply Forall_app in H1 as [_ H1'].
    apply Forall_cons in H1' as [_ Hbb]. unfold bits01. rewrite Forall_app.
    split; [apply bits01_replicate; auto|]. constructor; [auto|].
    rewrite Forall_app. split; [done|apply bits01_replicate; auto].
  - rewrite sc_evict_unfold, Hsw2, Hsw1, Z.add_0_l. cbv zeta. rewrite <- Hla at 2.
    rewrite (sc_replace_at _ la x (lb ++ y :: l2)) by done. simpl. by rewrite <- app_assoc.
  - rewrite Hb2 at 1. rewrite Hb1, <- Hsplit, Hlb2.
    rewrite (zip_with_app _ la) by (by rewrite length_replicate).
    simpl zip at 3. rewrite app_assoc.
    replace (zip (y :: l2) (replicate (S (length l2)) 1) ++ zip la (replicate a 1))
      with (zip ((y :: l2) ++ la) (replicate (length ((y :: l2) ++ la)) 1)).
    2:{ rewrite length_app, replicate_add, zip_with_app by (by rewrite length_replicate).
        by rewrite Hla. }
    rewrite second_chance_pass by (rewrite length_app; simpl; lia).
    rewrite length_app, replicate_add, !zip_with_app by (by rewrite ?length_replicate).
    rewrite Hla. by rewrite <- !app_assoc.
Qed.

(** All bits set: one full round, back to the hand. *)
Lemma sc_evict_around :
  b2 = replicate (length b2) 1 ->
  sweep b2 (Z.of_nat (length l1)) = (replicate (length b2) 0, None) ->
  b1 = replicate (length b1) 1 ->
  sweep b1 0 = (replicate (length b1) 0, None) ->
  evicted.
Proof.
  intros Hb2 Hsw2 Hb1 Hsw1. pose proof hand_len as Hn.
  exists l1, y, l2, (replicate (length l1) 0), (replicate (length l2) 0).
  split; [done|]. rewrite !length_replicate. split; [done|]. split; [done|].
  split; [|split].
  - unfold bits01. rewrite Forall_app. split; [apply bits01_replicate; auto|].
    constructor; [auto|apply bits01_replicate; auto].
  - rewrite sc_evict_unfold, Hsw2, Hsw1. cbv zeta.
    rewrite (sc_replace_at _ l1 y l2) by done. simpl. by rewrite Hlb1, Hlb2.
  - rewrite Hb2, Hb1, Hlb1, Hlb2. simpl zip at 1. simpl app.
    change (second_chance (S n) ((y, 1) :: ?q) page) with (second_chance n (q ++ [(y, 0)]) page).
    replace (zip l2 (replicate (length l2) 1) ++ zip l1 (replicate (length l1) 1))
      with (zip (l2 ++ l1) (replicate (length (l2 ++ l1)) 1)).
    2:{ by rewrite length_app, replicate_add, zip_with_app by (by rewrite length_replicate). }
    rewrite second_chance_pass by (rewrite length_app; lia).
    rewrite length_app, replicate_add, zip_with_app by (by rewrite length_replicate).
    by rewrite app_nil_l, <- app_assoc.
Qed.

Lemma sc_evict_spec : evicted.
Proof.
  destruct (sweep_cases b2 (Z.of_nat (length l1)) H2) as [(a & bb & E & Hs)|[E Hs]];
    [by eapply sc_evict_forward|].
  destruct (sweep_cases b1 0 H1) as [(a & bb & E1 & Hs1)|[E1 Hs1]];
    [by eapply sc_evict_wrapped|by apply sc_evict_around].
Qed.
End Evict.

(** *** One iteration of Second-Chance *)
Lemma fmap_rot {A B} (f : A -> B) v l : f <$> rot v l = rot v (f <$> l).
Proof. unfold rot. by rewrite fmap_app, fmap_drop, fmap_take. Qed.

Lemma zip_set_bit (l : list Z) : forall bits j page,
  NoDup l -> l !! j = Some page -> (length l <= length bits)%nat ->
  zip l (<[j := 1]> bits) = set_reference page <$> zip l bits.
Proof.
  induction l as [|f l IH]; intros [|b bits] j page Hnd Hj Hlen; simpl in *; try done; try lia.
  apply NoDup_cons in Hnd as [Hf Hnd]. destruct j as [|j]; simpl in *.
  - injection Hj as ->. unfold set_reference at 1. rewrite decide_True by done. simpl. f_equal.
    clear IH. revert bits Hlen. induction l as [|g l IH]; intros [|c bits] Hlen; simpl in *; try done.
    apply not_elem_of_cons in Hf as [Hne Hf]. apply NoDup_cons in Hnd as [_ Hnd].
    unfold set_reference at 1. rewrite decide_False by (simpl; congruence). simpl.
    f_equal. apply IH; [done|done|lia].
  - assert (f <> page) by (intros ->; apply Hf; by eapply list_elem_of_lookup_2).
    unfold set_reference at 1. rewrite decide_False by done. f_equal. apply IH; [done..|lia].
Qed.

Lemma zip_fst (l bits : list Z) : (length l <= length bits)%nat -> (zip l bits).*1 = l.
Proof.
  revert bits. induction l as [|f l IH]; intros [|b bits] H; simpl in *; try done; try lia.
  f_equal. apply IH. lia.
Qed.

Lemma length_zip (l bits : list Z) :
  (length l <= length bits)%nat -> length (zip l bits) = length l.
Proof. intros H. rewrite length_zip_with. lia. Qed.

Lemma zip_fill (l bits : list Z) page :
  (length l < length bits)%nat ->
  zip (l ++ [page]) (<[length l := 0]> bits) = zip l bits ++ [(page, 0)].
Proof.
  revert bits. induction l as [|f l IH]; intros [|b bits] H; simpl in *; try lia; [done|].
  f_equal. apply IH. lia.
Qed.

(** The queue after replacing frame [length a] and moving the hand past it. *)
Lemma queue_after_replace n (a : list Z) (x : Z) (b ba bb : list Z) (page : Z) :
  (length a + S (length b) = n)%nat -> length ba = length a -> length bb = length b ->
  rot (hand n (S (length a)))
      (zip (<[length a := page]> (a ++ x :: b)) (ba ++ 0 :: bb))
  = zip b bb ++ zip a ba ++ [(page, 0)].
Proof.
  intros Hn Ha Hb. rewrite insert_middle by done.
  rewrite rot_hand by (rewrite length_zip_with, !length_app; simpl; lia).
  rewrite zip_with_app by done. simpl.
  replace (S (length a)) with (length (zip a ba ++ [(page, 0)]))
    by (rewrite length_app, length_zip_with; simpl; lia).
  replace (zip a ba ++ (page, 0) :: zip b bb) with ((zip a ba ++ [(page, 0)]) ++ zip b bb)
    by (by rewrite <- app_assoc).
  by rewrite rot_app.
Qed.

Definition sc_post (n : nat) (st : run_state) (page : Z) (st' : run_state) (_ : bool) : Prop :=
  bits01 (reference_bit st') /\ sc_queue st' = sc_spec n (sc_queue st) page.

Section ScStep.
Context (n : nat) (st : run_state) (l : list Z) (k : nat) (page : Z).
Context (Hn : (0 < n)%nat) (Hf : frames_ok n (page_frame st) l k) (H0 : 0 <= page).
Context (Hv : 0 <= victim st < Z.of_nat n) (Hlb : length (reference_bit st) = n).
Context (H01 : bits01 (reference_bit st)).

Lemma bits_cover : (length l <= length (reference_bit st))%nat.
Proof. destruct Hf; lia. Qed.

Lemma sc_queue_eq : sc_queue st = rot (Z.to_nat (victim st)) (zip l (reference_bit st)).
Proof. unfold sc_queue. by rewrite (frames_filter _ _ _ _ Hf). Qed.

Lemma sc_queue_pages x : x ∈ (sc_queue st).*1 <-> x ∈ l.
Proof. rewrite sc_queue_eq, fmap_rot, elem_of_rot, zip_fst by apply bits_cover. done. Qed.

Lemma sc_queue_length : length (sc_queue st) = length l.
Proof. rewrite sc_queue_eq, length_rot, length_zip by apply bits_cover. done. Qed.

Lemma sc_hit j :
  ((0 < k)%nat -> victim st = 0) -> l !! j = Some page ->
  serves n st page
    (st' ← set_bit st (Z.of_nat j) 1; Ok (wrap_victim (Z.of_nat n) st', false))
    (sc_post n st page).
Proof.
  intros Hv0 Hj. assert (Hjl : (j < length l)%nat) by (by eapply lookup_lt_Some).
  apply list_elem_of_lookup_2 in Hj as Hpl. pose proof bits_cover as Hc.
  unfold serves, set_bit. rewrite aset_ok by lia. simpl.
  rewrite (wrap_victim_eq n _ (Z.to_nat (victim st))) by (simpl; lia).
  do 2 eexists. split; [reflexivity|]. simpl. unfold hand.
  rewrite (proj2 (Nat.eqb_neq _ _)), Z2Nat.id by lia.
  split.
  { split; simpl; [eauto|done|by rewrite length_insert]. }
  split; [eauto with cmodel|]. split; [lia|].
  split; [apply Forall_insert; auto|].
  unfold sc_spec. rewrite decide_True by (by apply sc_queue_pages).
  rewrite sc_queue_eq, fmap_rot. unfold sc_queue. simpl.
  rewrite (frames_filter _ _ _ _ Hf).
  by rewrite (zip_set_bit _ _ _ page) by (done || apply Hf).
Qed.

Lemma sc_free :
  k <> 0%nat -> victim st = 0 -> page ∉ l ->
  serves n st page
    (st' ← set_frame (count_fault st) (Z.of_nat (length l)) page;
     st'' ← set_bit st' (Z.of_nat (length l)) 0;
     Ok (wrap_victim (Z.of_nat n) st'', true))
    (sc_post n st page).
Proof.
  intros Hk Hv0 Hp. pose proof sc_queue_eq as Hqe. pose proof sc_queue_pages as Hqp.
  pose proof sc_queue_length as Hql. destruct k as [|k']; [done|].
  assert (Hl : (length l < n)%nat) by (destruct Hf; lia).
  unfold serves. rewrite (set_frame_ok n (count_fault st) l (S k')) by done.
  simpl. unfold set_bit. simpl. rewrite aset_ok by lia. simpl.
  rewrite (wrap_victim_eq n _ 0) by (simpl; lia).
  do 2 eexists. split; [reflexivity|]. simpl. unfold hand.
  rewrite (proj2 (Nat.eqb_neq _ _)) by lia.
  pose proof (frames_fill _ _ _ _ _ Hf Hp H0) as Hf'.
  split; [split; simpl; [eauto|lia|by rewrite length_insert]|].
  split; [eauto with cmodel|]. split; [done|].
  split; [apply Forall_insert; auto|].
  unfold sc_spec. rewrite decide_False by (by rewrite Hqp).
  rewrite Hql, (proj2 (Nat.ltb_lt _ _)) by done.
  rewrite Hqe, Hv0. unfold sc_queue. simpl.
  rewrite (frames_filter _ _ _ _ Hf'), !rot_0. apply zip_fill. lia.
Qed.

Lemma sc_miss :
  k = 0%nat -> page ∉ l ->
  serves n st page
    (st' ← sc_evict page st; Ok (wrap_victim (Z.of_nat n) st', true))
    (sc_post n st page).
Proof.
  intros Hk Hp. pose proof sc_queue_eq as Hqe. pose proof sc_queue_pages as Hqp.
  pose proof sc_queue_length as Hql. subst k.
  destruct (split_at_hand n st l Hf Hv) as (l1 & y & l2 & Hl & Hs & Hva & Hlen).
  rewrite <- (take_drop (length l1) (reference_bit st)) in H01.
  apply Forall_app in H01 as [Hb1 Hb2]. rewrite Hl in Hf.
  destruct (sc_evict_spec n st page l1 y l2 (take (length l1) (reference_bit st))
              (drop (length l1) (reference_bit st)) Hf Hva)
    as (a & x & b & ba & bb & Hab & Hla & Hlbb & Hb01 & Hev & Hq);
    [by rewrite take_drop|rewrite length_take; lia|rewrite length_drop; lia|done|done|].
  assert (Hqs : sc_queue st = zip (y :: l2) (drop (length l1) (reference_bit st)) ++
                              zip l1 (take (length l1) (reference_bit st))).
  { rewrite Hqe, Hva, Nat2Z.id, Hl.
    rewrite <- (take_drop (length l1) (reference_bit st)) at 1.
    rewrite zip_with_app by (rewrite length_take; lia).
    replace (length l1) with (length (zip l1 (take (length l1) (reference_bit st)))) at 1
      by (rewrite length_zip_with, length_take; lia).
    apply rot_app. }
  rewrite Hab in Hl, Hf. clear Hab Hlen Hs. subst l.
  assert (Hx : (a ++ x :: b) !! length a = Some x)
    by (by rewrite lookup_app_r, Nat.sub_diag by lia).
  assert (Hlab : (length a + S (length b) = n)%nat)
    by (destruct Hf as [_ Hl _ _]; rewrite length_app in Hl; simpl in Hl; lia).
  pose proof (frames_replace _ _ _ _ _ _ Hf Hx Hp H0) as Hf'.
  unfold serves. rewrite Hev. simpl. rewrite (wrap_victim_eq n _ (S (length a))) by done.
  do 2 eexists. split; [reflexivity|]. simpl.
  split.
  { split; simpl; [|apply hand_lt; lia|rewrite length_app; simpl; lia].
    eexists _, 0%nat. split; [eauto|lia]. }
  split; [eauto with cmodel|]. split; [done|]. split; [done|].
  unfold sc_spec. rewrite decide_False by (by rewrite Hqp).
  assert (Hqn : length (sc_queue st) = n) by (rewrite Hql, length_app; simpl; lia).
  rewrite (proj2 (Nat.ltb_ge _ _)), Hqn, Hqs, Hq by lia.
  unfold sc_queue. simpl. rewrite (frames_filter _ _ _ _ Hf'), Nat2Z.id.
  by apply queue_after_replace.
Qed.
End ScStep.

Lemma sc_step_serves n refs i page st :
  (0 < n)%nat -> wf n st -> 0 <= page -> bits01 (reference_bit st) ->
  serves n st page (sc_step (Z.of_nat n) refs i page st) (sc_post n st page).
Proof.
  intros Hn [(l & k & Hf & Hv0) Hv Hlb] H0 H01. unfold sc_step.
  destruct (scan_cases _ _ _ _ page Hf H0)
    as [(j & Hj & ->)|[(k' & -> & Hp & ->)|(-> & Hp & ->)]].
  - assert (H : serves n st page
      (st' ← set_bit st (Z.of_nat j) 1; Ok (wrap_victim (Z.of_nat n) st', false))
      (sc_post n st page)) by (eapply sc_hit; eauto).
    by destruct (set_bit st (Z.of_nat j) 1).
  - assert (H : serves n st page
      (st' ← set_frame (count_fault st) (Z.of_nat (length l)) page;
       st'' ← set_bit st' (Z.of_nat (length l)) 0;
       Ok (wrap_victim (Z.of_nat n) st'', true))
      (sc_post n st page)) by (eapply sc_free; eauto; apply Hv0; lia).
    destruct (set_frame (count_fault st) (Z.of_nat (length l)) page) as [st1|]; [|done].
    simpl in *. by destruct (set_bit st1 (Z.of_nat (length l)) 0).
  - assert (H : serves n st page
      (st' ← sc_evict page st; Ok (wrap_victim (Z.of_nat n) st', true))
      (sc_post n st page)) by (eapply sc_miss; eauto).
    by destruct (sc_evict page st).
Qed.
