(* ===== verification/Recency.v ===== *)
(** * LRU refines the recency list

    [recent past] lists the distinct pages of the past references, most recent
    first.  The LRU branch keeps exactly the first [n] of them in its frames. *)
From Stdlib Require Import ZArith Lia Sorted.
From S2P Require Import Prelude CLib PageRepl PageSpec.
Import Sim.

(** [past] is in reverse order: its head is the last reference. *)
Fixpoint recent (past : list Z) : list Z :=
  match past with
  | [] => []
  | p :: past' => p :: filter (fun q => q <> p) (recent past')
  end.

Lemma elem_of_recent past x : x ∈ recent past <-> x ∈ past.
Proof.
  induction past as [|p past IH]; simpl; [done|].
  rewrite !elem_of_cons, list_elem_of_filter, IH. destruct (decide (x = p)); tauto.
Qed.

Lemma NoDup_recent past : NoDup (recent past).
Proof.
  induction past as [|p past IH]; simpl; constructor.
  - rewrite list_elem_of_filter. tauto.
  - by apply NoDup_filter.
Qed.

(** ** Removing a page from a duplicate-free list *)
Lemma filter_absent (l : list Z) p : p ∉ l -> filter (fun q => q <> p) l = l.
Proof.
  induction l as [|x l IH]; [done|]. intros [Hne Hp]%not_elem_of_cons.
  rewrite filter_cons_True by congruence. by rewrite IH.
Qed.

Lemma filter_middle a p (b : list Z) :
  NoDup (a ++ p :: b) -> filter (fun q => q <> p) (a ++ p :: b) = a ++ b.
Proof.
  intros (Ha & Hab & Hb)%NoDup_app. apply NoDup_cons in Hb as [Hpb Hb].
  rewrite filter_app, filter_cons_False by tauto.
  rewrite !filter_absent; [done|done|]. intros Hp. apply (Hab p Hp). by left.
Qed.

(** ** Moving a page to the front, seen through the first [n] entries *)
Lemma take_front_hit n (s : list Z) (p : Z) :
  NoDup s -> p ∈ take n s ->
  (list_to_set (take n (p :: filter (fun q => q <> p) s)) : gset Z) = list_to_set (take n s).
Proof.
  intros Hnd Hp. apply list_elem_of_lookup in Hp as [i Hi].
  apply lookup_take_Some in Hi as [Hi Hin].
  apply list_elem_of_split_length in Hi as (a & b & -> & Ha).
  rewrite filter_middle by done. subst i.
  destruct n as [|n]; [lia|]. simpl take at 1.
  rewrite !take_app, !(take_ge a) by lia.
  replace (S n - length a)%nat with (S (n - length a))%nat by lia. simpl. set_solver.
Qed.

Lemma take_front_miss n (s : list Z) (p : Z) :
  NoDup s -> p ∉ take (S n) s -> take n (filter (fun q => q <> p) s) = take n s.
Proof.
  intros Hnd Hp. destruct (decide (p ∈ s)) as [Hin|Hin].
  - apply list_elem_of_lookup in Hin as [i Hi].
    apply list_elem_of_split_length in Hi as (a & b & -> & Ha).
    rewrite filter_middle by done.
    assert (n <= length a)%nat.
    { destruct (decide (n <= length a)%nat); [done|]. exfalso. apply Hp.
      rewrite take_app, take_ge by lia. apply elem_of_app. right.
      replace (S n - length a)%nat with (S (n - length a))%nat by lia. by left. }
    by rewrite !take_app_le by lia.
  - by rewrite filter_absent.
Qed.

(** ** Last uses *)
Lemma last_use_le f past : forall k0 k, last_use f past k0 = Some k -> k <= k0.
Proof.
  induction past as [|r past IH]; intros k0 k; simpl; [done|].
  case_bool; [intros [= <-]; lia|]. intros H%IH. lia.
Qed.

Lemma last_use_in f past : forall k0, f ∈ past -> exists k, last_use f past k0 = Some k.
Proof.
  induction past as [|r past IH]; intros k0 Hin; [by apply elem_of_nil in Hin|]. simpl.
  destruct (f =? r)%c eqn:E; [eauto|]. apply Z.eqb_neq in E.
  apply elem_of_cons in Hin as [->|Hin]; [done|]. by apply IH.
Qed.

(** [recent] is ordered by decreasing last use. *)
Definition later (past : list Z) (k0 : Z) (x y : Z) : Prop :=
  forall ky, last_use y past k0 = Some ky ->
  exists kx, last_use x past k0 = Some kx /\ ky < kx.

Lemma StronglySorted_filter_ne (R : Z -> Z -> Prop) (l : list Z) p :
  StronglySorted R l -> StronglySorted R (filter (fun q => q <> p) l).
Proof.
  induction 1 as [|x l Hl IH Hx]; [constructor|]. rewrite filter_cons. case_decide; [|done].
  constructor; [done|]. rewrite Forall_forall in *. intros y [_ Hy]%list_elem_of_filter. auto.
Qed.

Lemma recent_sorted past : forall k0, StronglySorted (later past k0) (recent past).
Proof.
  induction past as [|p past IH]; intros k0; simpl; constructor.
  - specialize (IH (k0 - 1)).
    assert (Hne : Forall (fun q => q <> p) (filter (fun q => q <> p) (recent past))).
    { apply Forall_forall. intros y [? _]%list_elem_of_filter. done. }
    apply (StronglySorted_filter_ne _ _ p) in IH. revert Hne IH.
    generalize (filter (fun q => q <> p) (recent past)). intros l Hne Hs.
    induction Hs as [|x l Hs IHl Hx]; constructor.
    + apply IHl. by apply Forall_cons in Hne as [_ ?].
    + apply Forall_cons in Hne as [Hxp Hne]. rewrite Forall_forall in *.
      intros y Hy ky. unfold later in Hx. simpl.
      rewrite (proj2 (Z.eqb_neq x p)), (proj2 (Z.eqb_neq y p)) by auto. by apply Hx.
  - apply Forall_forall. intros y [Hyp _]%list_elem_of_filter ky. simpl.
    rewrite Z.eqb_refl, (proj2 (Z.eqb_neq y p)) by done.
    intros Hk%last_use_le. exists k0. split; [done|lia].
Qed.

(** ** The victim LRU chooses *)
Definition oldest (past : list Z) (k0 : Z) (v : Z) (l : list Z) : Prop :=
  exists kv, last_use v past k0 = Some kv /\
    forall y, y ∈ l -> exists ky, last_use y past k0 = Some ky /\ kv <= ky.

Lemma lru_victim_loop past k0 (Hk0 : k0 < 99) l : forall pre location vic,
  (forall y, y ∈ pre ++ l -> y ∈ past) ->
  (pre = [] /\ location = 99 /\ l <> []) \/
  (exists i x, vic = Z.of_nat i /\ pre !! i = Some x /\
     last_use x past k0 = Some location /\ oldest past k0 x pre) ->
  exists i x,
    lru_victim l (Z.of_nat (length pre)) past k0 location vic = Z.of_nat i /\
    (pre ++ l) !! i = Some x /\ oldest past k0 x (pre ++ l).
Proof.
  induction l as [|f l IH]; intros pre location vic Hall Hinv; simpl.
  - destruct Hinv as [(_ & _ & ?)|(i & x & -> & Hx & _ & Hold)]; [done|].
    exists i, x. rewrite app_nil_r. done.
  - replace (Z.of_nat (length pre) + 1) with (Z.of_nat (length (pre ++ [f])))
      by (rewrite length_app; simpl; lia).
    destruct (last_use_in f past k0) as [k Hk]; [apply Hall; set_solver|].
    apply last_use_le in Hk as Hle.
    replace (pre ++ f :: l) with ((pre ++ [f]) ++ l) in * by (by rewrite <- app_assoc).
    rewrite Hk. destruct (k <? location)%c eqn:Hlt; bool_to_prop; apply IH;
      try exact Hall; right.
    + exists (length pre), f. split; [done|].
      rewrite lookup_app_r, Nat.sub_diag by lia. split; [done|]. split; [done|].
      exists k. split; [done|].
      intros y [Hy|Hy%list_elem_of_singleton]%elem_of_app; [|subst y; eauto with lia].
      destruct Hinv as [(-> & _ & _)|(i & x & _ & Hx & Hkx & kv & Hkv & Hold)];
        [by apply elem_of_nil in Hy|].
      destruct (Hold y Hy) as (ky & Hky & ?). exists ky. split; [done|].
      assert (kv = location) by congruence. lia.
    + destruct Hinv as [(-> & -> & _)|(i & x & -> & Hx & Hkx & kv & Hkv & Hold)]; [lia|].
      exists i, x. split; [done|]. split; [by apply lookup_app_l_Some|]. split; [done|].
      exists kv. split; [done|].
      intros y [Hy|Hy%list_elem_of_singleton]%elem_of_app; [by apply Hold|subst y].
      exists k. split; [done|]. assert (kv = location) by congruence. lia.
Qed.

Lemma lru_victim_ok l past k0 :
  k0 < 99 -> l <> [] -> (forall y, y ∈ l -> y ∈ past) ->
  exists i x, lru_victim l 0 past k0 99 (-1) = Z.of_nat i /\
              l !! i = Some x /\ oldest past k0 x l.
Proof.
  intros Hk0 Hl Hall. apply (lru_victim_loop past k0 Hk0 l [] 99 (-1)); [done|]. by left.
Qed.

(** The oldest of the first [n] recent pages is the last of them. *)
Lemma oldest_is_last past k0 l s v w :
  v ∈ l -> oldest past k0 v l -> (forall y, y ∈ l <-> y ∈ s ++ [w]) ->
  StronglySorted (later past k0) (s ++ [w]) -> v = w.
Proof.
  intros Hv (kv & Hkv & Hold) Hl Hs.
  apply Hl, elem_of_app in Hv as [Hv|Hv%list_elem_of_singleton]; [|done].
  destruct (Hold w) as (kw & Hkw & Hle); [apply Hl; set_solver|].
  assert (Hlater : later past k0 v w).
  { clear -Hv Hs. induction s as [|x s IH]; [by apply elem_of_nil in Hv|].
    simpl in Hs. apply StronglySorted_inv in Hs as [Hs Hx].
    apply elem_of_cons in Hv as [->|Hv]; [|auto].
    rewrite Forall_forall in Hx. apply Hx. set_solver. }
  destruct (Hlater kw Hkw) as (kv' & Hkv' & ?). assert (kv' = kv) by congruence. lia.
Qed.

Lemma StronglySorted_take (R : Z -> Z -> Prop) n (l : list Z) :
  StronglySorted R l -> StronglySorted R (take n l).
Proof.
  intros H. revert n. induction H as [|x l Hl IH Hx]; intros [|n]; simpl; constructor; auto.
  rewrite Forall_forall in *. intros y Hy. apply Hx. eapply elem_of_subseteq, Hy.
  intros z Hz. rewrite <- (take_drop n l). set_solver.
Qed.

(** ** One iteration of LRU *)

(** The pages the first [i] references leave in [n] frames. *)
Definition lru_pages (n : nat) (refs : list Z) (i : nat) : gset Z :=
  list_to_set (take n (recent (reverse (take i refs)))).

Lemma past_step (refs : list Z) i page :
  refs !! i = Some page -> reverse (take (S i) refs) = page :: reverse (take i refs).
Proof. intros Hi. by rewrite (take_S_r _ _ page), reverse_snoc. Qed.

Section LruStep.
Context (n : nat) (refs : list Z) (i : nat) (page : Z) (st : run_state).
Context (l : list Z) (k : nat).
Context (Hn : (0 < n)%nat) (Hi : refs !! i = Some page) (H0 : 0 <= page).
Context (Hf : frames_ok n (page_frame st) l k).
Context (HI : pages (page_frame st) = lru_pages n refs i).

Let s : list Z := recent (reverse (take i refs)).

Lemma lru_elem x : x ∈ l <-> x ∈ take n s.
Proof.
  rewrite <- (elem_of_pages _ _ _ _ x Hf), HI. unfold lru_pages. fold s.
  by rewrite elem_of_list_to_set.
Qed.

Lemma lru_count : length l = Nat.min n (length s).
Proof.
  rewrite <- (size_pages _ _ _ _ Hf), HI. unfold lru_pages. fold s.
  rewrite size_list_to_set; [by rewrite length_take|].
  eapply sublist_NoDup; [apply NoDup_recent|apply sublist_take].
Qed.

Lemma lru_next : lru_pages n refs (S i) =
  list_to_set (take n (page :: filter (fun q => q <> page) s)).
Proof. unfold lru_pages. by rewrite (past_step _ _ page). Qed.

Lemma lru_next_hit : page ∈ l -> lru_pages n refs (S i) = pages (page_frame st).
Proof.
  intros Hp%lru_elem. rewrite lru_next, HI. unfold lru_pages. fold s.
  apply take_front_hit; [apply NoDup_recent|done].
Qed.

Lemma lru_next_fill : k <> 0%nat -> page ∉ l ->
  lru_pages n refs (S i) = {[page]} ∪ pages (page_frame st).
Proof.
  intros Hk Hp. rewrite lru_elem in Hp. rewrite lru_next, HI. unfold lru_pages. fold s.
  pose proof lru_count as Hc. assert (Hs : (length s < n)%nat) by (destruct Hf; lia).
  rewrite take_ge in Hp by lia. rewrite (filter_absent _ _ Hp).
  rewrite !take_ge by (simpl; lia). done.
Qed.

(** The frames are full: the page replaced is the [n]-th most recent one. *)
Lemma lru_next_evict v : k = 0%nat -> page ∉ l -> v ∈ l ->
  oldest (reverse (take i refs)) (Z.of_nat i - 1) v l ->
  lru_pages n refs (S i) = {[page]} ∪ (pages (page_frame st) ∖ {[v]}).
Proof.
  intros Hk Hp Hv Hold. rewrite lru_elem in Hp. pose proof lru_count as Hc.
  assert (Hs : (n <= length s)%nat) by (destruct Hf; lia).
  pose proof lru_elem as He. pose proof lru_next as Hnx.
  destruct n as [|m]; [lia|].
  destruct (lookup_lt_is_Some_2 s m) as [w Hw]; [lia|].
  assert (Hsplit : take (S m) s = take m s ++ [w]) by (by apply take_S_r).
  assert (Hnd : NoDup (take m s ++ [w])).
  { rewrite <- Hsplit. eapply sublist_NoDup; [apply NoDup_recent|apply sublist_take]. }
  assert (v = w) as ->.
  { eapply oldest_is_last; [exact Hv|exact Hold| |].
    - intros y. rewrite <- Hsplit. apply He.
    - rewrite <- Hsplit. apply StronglySorted_take, recent_sorted. }
  rewrite Hnx, HI. unfold lru_pages. fold s. simpl take at 1.
  rewrite (take_front_miss m s page) by (done || apply NoDup_recent).
  rewrite Hsplit. apply NoDup_app in Hnd as (_ & Hd & _). set_solver.
Qed.
End LruStep.

Lemma lru_step_serves n refs i page st :
  (0 < n)%nat -> (length refs <= 99)%nat -> refs !! i = Some page ->
  wf n st -> 0 <= page -> pages (page_frame st) = lru_pages n refs i ->
  serves n st page (lru_step refs i page st)
    (fun st' _ => pages (page_frame st') = lru_pages n refs (S i)).
Proof.
  intros Hn Hlen Hi [(l & k & Hf & Hv0) Hv Hb] H0 HI. unfold serves, lru_step.
  apply lookup_lt_Some in Hi as Hlt.
  destruct (scan_cases _ _ _ _ page Hf H0)
    as [(j & Hj & ->)|[(k' & -> & Hp & ->)|(-> & Hp & ->)]].
  - exists st, false. apply list_elem_of_lookup_2 in Hj. split; [done|].
    split; [split; eauto|]. split; [eauto with cmodel|]. split; [lia|].
    symmetry. by eapply lru_next_hit.
  - rewrite (set_frame_ok n (count_fault st) l (S k')) by (done || destruct Hf; lia).
    do 2 eexists. split; [reflexivity|]. simpl.
    split; [split; simpl; eauto with cmodel|].
    { exists (l ++ [page]), k'. split; [eauto with cmodel|]. intros _. apply Hv0. lia. }
    split; [eauto with cmodel|]. split; [done|].
    rewrite (pages_fill _ _ _ _ _ Hf Hp H0). symmetry. by eapply lru_next_fill.
  - assert (Hl : l <> []) by (intros ->; destruct Hf; simpl in *; lia).
    assert (Hfs : page_frame st = l) by (destruct Hf as [-> _ _ _]; apply app_nil_r).
    assert (Hpast : forall y, y ∈ l -> y ∈ reverse (take i refs)).
    { intros y Hy. rewrite <- elem_of_recent. eapply lru_elem in Hy; [|done..].
      eapply elem_of_subseteq, Hy. intros z Hz.
      rewrite <- (take_drop n (recent (reverse (take i refs)))). set_solver. }
    destruct (lru_victim_ok l (reverse (take i refs)) (Z.of_nat i - 1) ltac:(lia) Hl Hpast)
      as (v & x & Hvic & Hx & Hold).
    rewrite <- Hfs in Hvic. cbv zeta. rewrite Hvic.
    rewrite (set_frame_ok n st l 0) by (done || apply lookup_lt_Some in Hx; destruct Hf; lia).
    do 2 eexists. split; [reflexivity|]. simpl.
    split; [split; simpl; eauto with cmodel|].
    split; [eauto with cmodel|]. split; [done|].
    rewrite (pages_replace _ _ _ _ _ _ Hf Hx Hp H0). symmetry.
    eapply lru_next_evict; eauto using list_elem_of_lookup_2.
Qed.

(** The number of faults of the recency list alone. *)
Fixpoint lru_faults (n : nat) (past rest : list Z) : nat :=
  match rest with
  | [] => 0
  | p :: rest' =>
      (if decide (p ∈ take n (recent past)) then 0 else 1) + lru_faults n (p :: past) rest'
  end.

(** More frames never mean more faults. *)
Lemma lru_faults_mono n m past rest :
  (n <= m)%nat -> (lru_faults m past rest <= lru_faults n past rest)%nat.
Proof.
  intros Hnm. revert past. induction rest as [|p rest IH]; intros past; simpl; [lia|].
  specialize (IH (p :: past)).
  assert (p ∈ take n (recent past) -> p ∈ take m (recent past)).
  { rewrite !elem_of_take. intros (i & Hi & ?). exists i. split; [done|lia]. }
  repeat case_decide; try tauto; lia.
Qed.
