(* ===== verification/PageTheorems.v ===== *)
(** * Correctness of the page-replacement simulator

    The properties of [Sim.simulate], [Sim.read_file] and [Sim.main]. *)
From Stdlib Require Import ZArith Lia Ascii String.
From S2P Require Import Prelude CLib PageRepl PageSpec Belady Queues Recency.
Import Sim.

(** ** The runs of the four algorithms *)
Abbreviation valid_refs refs := (Forall (fun p => 0 <= p) refs).

Lemma simulate_opt n refs : (0 < n)%nat -> valid_refs refs ->
  simulation_ok n refs (simulate OPT (Z.of_nat n) refs).
Proof.
  intros Hn Hpos.
  destruct (simulate_spec n refs OPT (fun _ _ => True) Hn Hpos) as (rows & st & m & H & _ & _ & H');
    [done| |by exists rows, st, m].
  intros i page st _ H0 Hwf _.
  destruct (opt_step_serves n refs i page st Hn Hwf H0) as (st' & b & H).
  exists st', b. tauto.
Qed.

Definition fifo_inv (n : nat) (refs : list Z) (i : nat) (st : run_state) : Prop :=
  fifo_queue st = foldl (fifo_spec n) [] (take i refs).

Lemma fifo_inv_init n refs st : init_run (Z.of_nat n) = Ok st -> fifo_inv n refs 0 st.
Proof.
  unfold init_run. destruct (require _ _); [|done]. intros [= <-].
  unfold fifo_inv, fifo_queue. simpl. by rewrite filter_nonneg_empty.
Qed.

Lemma simulate_fifo n refs : (0 < n)%nat -> valid_refs refs ->
  exists rows st m, simulate FIFO (Z.of_nat n) refs = Ok (rows, st) /\
    wf n st /\ fifo_inv n refs (length refs) st /\
    paging n ∅ refs m /\ page_fault st = Z.of_nat m /\ replaced rows = m /\
    Forall2 (fun r p => p ∈ row_frames r) rows refs.
Proof.
  intros Hn Hpos. apply (simulate_spec n refs FIFO (fifo_inv n refs) Hn Hpos (fifo_inv_init n refs)).
  intros i page st Hi H0 Hwf HI.
  destruct (fifo_step_serves n refs i page st Hn Hwf H0) as (st' & b & H1 & H2 & H3 & H4 & Hq).
  exists st', b. repeat (split; [assumption|]). unfold fifo_inv in *.
  by rewrite Hq, HI, (take_S_r _ _ _ Hi), foldl_app.
Qed.

Definition sc_inv (n : nat) (refs : list Z) (i : nat) (st : run_state) : Prop :=
  bits01 (reference_bit st) /\ sc_queue st = foldl (sc_spec n) [] (take i refs).

Lemma sc_inv_init n refs st : init_run (Z.of_nat n) = Ok st -> sc_inv n refs 0 st.
Proof.
  unfold init_run. destruct (require _ _); [|done]. intros [= <-].
  split; [apply bits01_replicate; auto|].
  unfold sc_queue. simpl. by rewrite filter_nonneg_empty.
Qed.

Lemma simulate_sc n refs : (0 < n)%nat -> valid_refs refs ->
  exists rows st m, simulate SecondChance (Z.of_nat n) refs = Ok (rows, st) /\
    wf n st /\ sc_inv n refs (length refs) st /\
    paging n ∅ refs m /\ page_fault st = Z.of_nat m /\ replaced rows = m /\
    Forall2 (fun r p => p ∈ row_frames r) rows refs.
Proof.
  intros Hn Hpos.
  apply (simulate_spec n refs SecondChance (sc_inv n refs) Hn Hpos (sc_inv_init n refs)).
  intros i page st Hi H0 Hwf [H01 HI].
  destruct (sc_step_serves n refs i page st Hn Hwf H0 H01) as (st' & b & H1 & H2 & H3 & H4 & Hb & Hq).
  exists st', b. repeat (split; [assumption|]).
  by rewrite Hq, HI, (take_S_r _ _ _ Hi), foldl_app.
Qed.

(** The resident pages are the [n] most recent, and the faults counted so far
    plus those the recency list still has to take are its total. *)
Definition lru_inv (n : nat) (refs : list Z) (i : nat) (st : run_state) : Prop :=
  pages (page_frame st) = lru_pages n refs i /\
  page_fault st + Z.of_nat (lru_faults n (reverse (take i refs)) (drop i refs))
    = Z.of_nat (lru_faults n [] refs).

Lemma lru_inv_init n refs st : init_run (Z.of_nat n) = Ok st -> lru_inv n refs 0 st.
Proof.
  unfold init_run. destruct (require _ _); [|done]. intros [= <-].
  split; simpl; [|by rewrite drop_0].
  unfold pages, lru_pages. rewrite filter_nonneg_empty. simpl. by rewrite take_nil.
Qed.

Lemma lru_inv_step n refs i page st st' (b : bool) :
  refs !! i = Some page -> lru_inv n refs i st ->
  served (pages (page_frame st)) (pages (page_frame st')) page b ->
  page_fault st' = page_fault st + (if b then 1 else 0) ->
  pages (page_frame st') = lru_pages n refs (S i) ->
  lru_inv n refs (S i) st'.
Proof.
  intros Hi [Hp Hc] (_ & _ & Hb) Hf Hp'. split; [done|].
  rewrite (past_step _ _ _ Hi). rewrite (drop_S _ _ _ Hi) in Hc. simpl in Hc.
  rewrite Hf, <- Hc. rewrite Hp in Hb. unfold lru_pages in Hb.
  subst b.
  case_decide as Hin; case_bool_decide as Hin'; rewrite elem_of_list_to_set in Hin'; try tauto; lia.
Qed.

Lemma simulate_lru n refs : (0 < n)%nat -> (length refs <= 99)%nat -> valid_refs refs ->
  exists rows st m, simulate LRU (Z.of_nat n) refs = Ok (rows, st) /\
    wf n st /\ lru_inv n refs (length refs) st /\
    paging n ∅ refs m /\ page_fault st = Z.of_nat m /\ replaced rows = m /\
    Forall2 (fun r p => p ∈ row_frames r) rows refs.
Proof.
  intros Hn Hlen Hpos.
  apply (simulate_spec n refs LRU (lru_inv n refs) Hn Hpos (lru_inv_init n refs)).
  intros i page st Hi H0 Hwf HI.
  destruct (lru_step_serves n refs i page st Hn Hlen Hi Hwf H0 (proj1 HI))
    as (st' & b & H1 & H2 & H3 & H4 & Hq).
  exists st', b. repeat (split; [assumption|]). by eapply lru_inv_step.
Qed.

Lemma simulate_any a n refs : (0 < n)%nat -> (length refs <= 99)%nat -> valid_refs refs ->
  simulation_ok n refs (simulate a (Z.of_nat n) refs).
Proof.
  intros Hn Hlen Hpos. destruct a.
  - by apply simulate_opt.
  - destruct (simulate_fifo n refs Hn Hpos) as (rows & st & m & H & _ & _ & H').
    by exists rows, st, m.
  - destruct (simulate_lru n refs Hn Hlen Hpos) as (rows & st & m & H & _ & _ & H').
    by exists rows, st, m.
  - destruct (simulate_sc n refs Hn Hpos) as (rows & st & m & H & _ & _ & H').
    by exists rows, st, m.
Qed.

Lemma fault_count_ok a n refs rows st :
  simulate a n refs = Ok (rows, st) -> fault_count a n refs = Ok (page_fault st).
Proof. intros H. unfold fault_count. by rewrite H. Qed.

(** OPT against an arbitrary run of demand paging. *)
Lemma opt_le_paging n refs m : (0 < n)%nat -> valid_refs refs -> paging n ∅ refs m ->
  exists k, fault_count OPT (Z.of_nat n) refs = Ok k /\ k <= Z.of_nat m.
Proof.
  intros Hn Hpos Hpag.
  destruct (init_run_ok n Hn) as (st0 & H0 & Hwf & Hpages & Hf0 & _).
  destruct (opt_run_le n refs refs 0 st0 ∅ m 0 Hn) as (rows & st & Hrun & Hle);
    [by rewrite drop_0|done|done|by rewrite size_empty; lia|done| |].
  { intros t. rewrite Hpages. lia. }
  exists (page_fault st). split; [|lia].
  apply (fault_count_ok _ _ _ rows). unfold simulate. by rewrite H0.
Qed.

(** ** Reading the input file back *)
Definition file_of (frame_size : Z) (refs : list Z) : string :=
  show frame_size +:+ concat_map (fun p => " " +:+ show p) refs.

Lemma read_references_numbers refs : forall room temp acc tail,
  Forall (fun p => is_int p = true) refs -> starts_with isdigit tail = false ->
  read_references room (concat_map (fun p => " " +:+ show p) refs +:+ tail) temp acc =
  if (length refs <=? room)%nat
  then read_references (room - length refs) tail
         (match last refs with Some v => Some v | None => temp end) (acc ++ refs)
  else Err OutOfBounds.
Proof.
  induction refs as [|p refs IH]; intros room temp acc tail Hall Ht.
  - simpl. rewrite Nat.sub_0_r, app_nil_r. done.
  - apply Forall_cons in Hall as [Hp Hall].
    assert (Hscan : scan_d (concat_map (fun p => " " +:+ show p) (p :: refs) +:+ tail)
      = ScanVal p (concat_map (fun p => " " +:+ show p) refs +:+ tail)).
    { simpl. rewrite append_assoc. simpl. rewrite scan_d_space by done.
      apply scan_d_show; [done|]. destruct refs; [exact Ht|reflexivity]. }
    assert (Hunfold : forall r, read_references r
        (concat_map (fun p => " " +:+ show p) (p :: refs) +:+ tail) temp acc =
      match r with
      | O => Err OutOfBounds
      | S r' => read_references r' (concat_map (fun p => " " +:+ show p) refs +:+ tail)
                  (Some p) (acc ++ [p])
      end).
    { intros r. destruct r; cbn [read_references]; by rewrite Hscan. }
    rewrite Hunfold. destruct room as [|room]; [done|].
    rewrite IH by done. rewrite last_cons, <- app_assoc. simpl.
    destruct (length refs <=? room)%nat; [|done]. by destruct (last refs).
Qed.

(** A file of text that is neither a number nor white space is never consumed. *)
Lemma read_references_stuck s : forall room v acc,
  scan_d s = ScanFail s -> read_references room s (Some v) acc = Err OutOfBounds.
Proof.
  induction room as [|room IH]; intros v acc Hs; cbn [read_references]; rewrite Hs; [done|].
  by apply IH.
Qed.

Lemma read_file_head frame_size s refs :
  is_int frame_size = true -> s = concat_map (fun p => " " +:+ show p) refs ->
  forall tail, starts_with isdigit tail = false ->
  read_file (show frame_size +:+ (s +:+ tail)) =
    (refs' ← read_references REFERENCE_MAX (s +:+ tail) None []; Ok (frame_size, refs')).
Proof.
  intros Hf -> tail Ht. unfold read_file. rewrite scan_d_show; [done|done|].
  destruct refs; [exact Ht|reflexivity].
Qed.

(** ** The command loop *)
Lemma command_loop_fuel fuel : forall frame_size refs stdin method out,
  (String.length stdin < fuel)%nat ->
  command_loop fuel frame_size refs stdin method out <> OutOfFuel.
Proof.
  induction fuel as [|fuel IH]; intros frame_size refs stdin method out Hlen; [lia|].
  cbn [command_loop]. destruct (init_run frame_size); [|done].
  destruct (scan_s stdin) as [|rest|w rest] eqn:E; [by destruct method..|].
  apply scan_s_shorter in E. repeat case_bool; [done..|].
  destruct (run_method frame_size refs w); [|done]. apply IH. lia.
Qed.

(** * Properties *)

(** C1: Belady's theorem for the OPT branch. For every page reference string and
    number of frames, OPT succeeds and reports no more page faults than any
    replacement policy whatsoever needs on that string with as many frames. *)
Theorem opt_optimal (n : nat) (refs : list Z) (m : nat) :
  (0 < n)%nat -> valid_refs refs -> paging n ∅ refs m ->
  exists k, fault_count OPT (Z.of_nat n) refs = Ok k /\ k <= Z.of_nat m.
Proof. apply opt_le_paging. Qed.

Lemma opt_optimal_witness :
  exists k, fault_count OPT 1 [7; 7; 8] = Ok k /\ k <= 2.
Proof.
  apply (opt_optimal 1 [7; 7; 8] 2); [lia|by repeat constructor|].
  apply (paging_miss 1 ∅ 7 {[7]}); [set_solver..|by rewrite size_singleton|].
  apply (paging_hit 1 {[7]} 7 {[7]}); [set_solver..|by rewrite size_singleton|].
  apply (paging_miss 1 {[7]} 8 {[8]}); [set_solver..|by rewrite size_singleton|].
  constructor.
Defined.

(** OPT against the code's own FIFO, LRU and Second-Chance: all four succeed
    on every reference string the program can hold, and OPT never reports more
    page faults than another method. *)
Theorem opt_beats_every_method (a : algorithm) (n : nat) (refs : list Z) :
  (0 < n)%nat -> (length refs <= REFERENCE_MAX)%nat -> valid_refs refs ->
  exists k_opt k, fault_count OPT (Z.of_nat n) refs = Ok k_opt /\
                  fault_count a (Z.of_nat n) refs = Ok k /\ k_opt <= k.
Proof.
  intros Hn Hlen Hpos. unfold REFERENCE_MAX in Hlen.
  destruct (simulate_any a n refs) as (rows & st & m & Hs & Hpag & Hf & _); [done|lia|done|].
  destruct (opt_le_paging n refs m Hn Hpos Hpag) as (k & Hk & Hle).
  exists k, (page_fault st). split; [done|]. split; [by eapply fault_count_ok|lia].
Qed.

Lemma opt_beats_every_method_witness :
  exists k_opt k, fault_count OPT 3 [1; 2; 3; 4; 1; 2; 5; 1; 2; 3; 4; 5] = Ok k_opt /\
    fault_count FIFO 3 [1; 2; 3; 4; 1; 2; 5; 1; 2; 3; 4; 5] = Ok k /\ k_opt <= k.
Proof.
  apply (opt_beats_every_method FIFO 3); [lia|vm_compute; lia|by repeat constructor].
Defined.

(** C19: Each of the four methods implements demand paging: it never fails, a page
    is loaded only when it is absent, after each line of the table the page
    referenced is in a frame, and the reported number of faults is the number of
    lines marked F. *)
Theorem methods_implement_demand_paging (a : algorithm) (n : nat) (refs : list Z) :
  (0 < n)%nat -> (length refs <= REFERENCE_MAX)%nat -> valid_refs refs ->
  exists rows st m, simulate a (Z.of_nat n) refs = Ok (rows, st) /\
    paging n ∅ refs m /\ page_fault st = Z.of_nat m /\ replaced rows = m /\
    Forall2 (fun r p => p ∈ row_frames r) rows refs.
Proof.
  intros Hn Hlen Hpos. apply simulate_any; [done| |done]. unfold REFERENCE_MAX in Hlen. lia.
Qed.

Lemma methods_implement_demand_paging_witness :
  exists rows st m, simulate SecondChance 2 [4; 5; 4; 6; 4] = Ok (rows, st) /\
    paging 2 ∅ [4; 5; 4; 6; 4] m /\ page_fault st = Z.of_nat m /\ replaced rows = m /\
    Forall2 (fun r p => p ∈ row_frames r) rows [4; 5; 4; 6; 4].
Proof.
  apply (methods_implement_demand_paging SecondChance 2); [lia|vm_compute; lia|by repeat constructor].
Defined.

(** C20: The LRU branch refines the recency list: at the end of any reference
    string its frames hold exactly the [n] most recently used distinct pages, and
    its fault count is that of the recency list. *)
Theorem lru_refines_recency (n : nat) (refs : list Z) :
  (0 < n)%nat -> (length refs <= REFERENCE_MAX)%nat -> valid_refs refs ->
  exists rows st, simulate LRU (Z.of_nat n) refs = Ok (rows, st) /\
    pages (page_frame st) = list_to_set (take n (recent (reverse refs))) /\
    page_fault st = Z.of_nat (lru_faults n [] refs).
Proof.
  intros Hn Hlen Hpos. unfold REFERENCE_MAX in Hlen.
  destruct (simulate_lru n refs) as (rows & st & m & Hs & _ & [Hp Hc] & _); [done|lia|done|].
  exists rows, st. split; [done|]. unfold lru_pages in Hp.
  rewrite (take_ge refs) in Hp, Hc by lia. rewrite drop_ge in Hc by lia. simpl in Hc.
  split; [done|lia].
Qed.

Lemma lru_refines_recency_witness :
  exists rows st, simulate LRU 3 [7; 0; 1; 2; 0; 3] = Ok (rows, st) /\
    pages (page_frame st) = list_to_set (take 3 (recent (reverse [7; 0; 1; 2; 0; 3]))) /\
    page_fault st = Z.of_nat (lru_faults 3 [] [7; 0; 1; 2; 0; 3]).
Proof. apply (lru_refines_recency 3); [lia|vm_compute; lia|by repeat constructor]. Defined.

(** LRU has no Belady anomaly: giving the LRU branch more frames never makes
    it report more page faults. *)
Theorem lru_more_frames_no_more_faults (n m : nat) (refs : list Z) :
  (0 < n)%nat -> (n <= m)%nat -> (length refs <= REFERENCE_MAX)%nat -> valid_refs refs ->
  exists kn km, fault_count LRU (Z.of_nat n) refs = Ok kn /\
                fault_count LRU (Z.of_nat m) refs = Ok km /\ km <= kn.
Proof.
  intros Hn Hnm Hlen Hpos. unfold REFERENCE_MAX in Hlen.
  destruct (simulate_lru n refs) as (rn & sn & _ & Hsn & _ & [_ Hcn] & _); [done|lia|done|].
  destruct (simulate_lru m refs) as (rm & sm & _ & Hsm & _ & [_ Hcm] & _); [lia|lia|done|].
  exists (page_fault sn), (page_fault sm).
  split; [by eapply fault_count_ok|]. split; [by eapply fault_count_ok|].
  rewrite drop_ge in Hcn, Hcm by lia. simpl in Hcn, Hcm.
  pose proof (lru_faults_mono n m [] refs Hnm). lia.
Qed.

Lemma lru_more_frames_no_more_faults_witness :
  exists kn km, fault_count LRU 3 [1; 2; 3; 4; 1; 2; 5; 1; 2; 3; 4; 5] = Ok kn /\
    fault_count LRU 4 [1; 2; 3; 4; 1; 2; 5; 1; 2; 3; 4; 5] = Ok km /\ km <= kn.
Proof.
  apply (lru_more_frames_no_more_faults 3 4); [lia|lia|vm_compute; lia|by repeat constructor].
Defined.

(** The FIFO branch refines the textbook queue: after any reference string,
    the frames read from the hand on are the queue obtained by enqueueing each
    missing page and dropping the oldest one when the frames are full. *)
Theorem fifo_refines_queue (n : nat) (refs : list Z) :
  (0 < n)%nat -> valid_refs refs ->
  exists rows st, simulate FIFO (Z.of_nat n) refs = Ok (rows, st) /\
    fifo_queue st = foldl (fifo_spec n) [] refs.
Proof.
  intros Hn Hpos.
  destruct (simulate_fifo n refs Hn Hpos) as (rows & st & m & Hs & _ & HI & _).
  exists rows, st. split; [done|]. unfold fifo_inv in HI. by rewrite take_ge in HI by lia.
Qed.

Lemma fifo_refines_queue_witness :
  exists rows st, simulate FIFO 3 [1; 2; 3; 4; 2; 5] = Ok (rows, st) /\
    fifo_queue st = foldl (fifo_spec 3) [] [1; 2; 3; 4; 2; 5].
Proof. apply (fifo_refines_queue 3); [lia|by repeat constructor]. Defined.

(** C12: The Second-Chance branch, with its two sweeps and its final fall-back,
    refines the textbook queue of (page, reference bit): a page whose bit is set
    is moved to the back with the bit cleared, the first page with a clear bit
    is replaced. *)
Theorem second_chance_refines_queue (n : nat) (refs : list Z) :
  (0 < n)%nat -> valid_refs refs ->
  exists rows st, simulate SecondChance (Z.of_nat n) refs = Ok (rows, st) /\
    sc_queue st = foldl (sc_spec n) [] refs.
Proof.
  intros Hn Hpos.
  destruct (simulate_sc n refs Hn Hpos) as (rows & st & m & Hs & _ & [_ HI] & _).
  exists rows, st. split; [done|]. by rewrite take_ge in HI by lia.
Qed.

Lemma second_chance_refines_queue_witness :
  exists rows st, simulate SecondChance 3 [1; 2; 3; 1; 4; 2; 5] = Ok (rows, st) /\
    sc_queue st = foldl (sc_spec 3) [] [1; 2; 3; 1; 4; 2; 5].
Proof. apply (second_chance_refines_queue 3); [lia|by repeat constructor]. Defined.

(** Reading is the inverse of writing: a file holding the frame size and at
    most 31 page numbers, separated by spaces, is read back exactly; with more
    numbers the store runs past [page_reference], and anything that is not a
    number after the first reference is stored over and over until it does. *)
Theorem read_file_roundtrip (frame_size : Z) (refs : list Z) (junk : string) :
  is_int frame_size = true -> Forall (fun p => is_int p = true) refs ->
  starts_with isdigit junk = false -> scan_d junk = ScanFail junk -> refs <> [] ->
  read_file (file_of frame_size refs) =
    (if (length refs <=? REFERENCE_MAX)%nat then Ok (frame_size, refs) else Err OutOfBounds) /\
  read_file (file_of frame_size refs +:+ junk) = Err OutOfBounds.
Proof.
  intros Hf Hall Hj Hstuck Hne. unfold file_of. split.
  - rewrite <- (append_nil_r (concat_map _ refs)).
    rewrite (read_file_head _ _ refs) by done.
    rewrite read_references_numbers by done.
    destruct (length refs <=? REFERENCE_MAX)%nat; [|done].
    by destruct (REFERENCE_MAX - length refs)%nat.
  - rewrite append_assoc, (read_file_head _ _ refs) by done.
    rewrite read_references_numbers by done.
    destruct (length refs <=? REFERENCE_MAX)%nat; [|done].
    destruct (last refs) as [v|] eqn:E; [by rewrite read_references_stuck|].
    by apply last_None in E.
Qed.

Lemma read_file_roundtrip_witness :
  read_file (file_of 3 [7; 0; -1]) = Ok (3, [7; 0; -1]) /\
  read_file (file_of 3 [7; 0; -1] +:+ "x") = Err OutOfBounds.
Proof.
  apply (read_file_roundtrip 3 [7; 0; -1] "x"%string);
    [reflexivity|by repeat constructor|reflexivity|reflexivity|discriminate].
Defined.

(** The command loop of [main] always comes to an end in the model: for every
    file system and input it returns, exits, faults or is seen to repeat forever;
    the fuel (one unit per character of input) is never the reason it stops. *)
Theorem main_never_out_of_fuel (fopen : string -> option string) (stdin : string) :
  main fopen stdin <> OutOfFuel.
Proof.
  unfold main. destruct (scan_s stdin) as [|rest|w rest]; [done|done|].
  case_bool; [done|]. destruct (fopen w); [|done].
  destruct (read_file s) as [[frame_size refs]|]; [|done].
  apply command_loop_fuel. lia.
Qed.

(** FIFO does have Belady's anomaly: with four frames the FIFO branch reports
    ten faults on a string for which three frames give nine. *)
Theorem fifo_belady_anomaly :
  fault_count FIFO 3 [1; 2; 3; 4; 1; 2; 5; 1; 2; 3; 4; 5] = Ok 9 /\
  fault_count FIFO 4 [1; 2; 3; 4; 1; 2; 5; 1; 2; 3; 4; 5] = Ok 10.
Proof. split; vm_compute; reflexivity. Qed.
