(* ===== verification/SysCalls.v ===== *)
(** * Four system calls and a calculator that uses them (src/Assignment_3)

    [sys_basic_add], [sys_basic_sub], [sys_basic_mul] and [sys_basic_mod] as the
    kernel runs them, the [SYSCALL_DEFINE3] wrappers and the system-call table
    entries, and the user program [syscall_operation.c].  User memory is an
    interface: [put_user] is kernel code outside the repository.  The kernel is
    compiled with wrapping integer arithmetic; a remainder that [idiv] cannot
    compute traps. *)
From Stdlib Require Import ZArith Lia Ascii String.
From S2P Require Import Prelude CLib.

Local Open Scope stdpp_scope.
Local Open Scope Z_scope.

(** ** User memory, as the kernel and the program see it *)
Class UserMem (M : Type) := {
  put_user : M -> Z -> Z -> Z * M;     (* put_user m val ptr: (code, memory) *)
  load_int : M -> Z -> option Z        (* *ptr in the process; None: no page there *)
}.

(** The documented contract of [put_user]: a negative code and nothing written,
    or the value stored at the address. *)
Class UserMemLaws (M : Type) `{UserMem M} := {
  put_user_fail m v p : (put_user m v p).1 < 0 -> (put_user m v p).2 = m;
  put_user_done m v p : 0 <= (put_user m v p).1 -> load_int (put_user m v p).2 p = Some v;
  put_user_again m v v' p : 0 <= (put_user m v p).1 -> 0 <= (put_user (put_user m v p).2 v' p).1
}.

(** A concrete memory: the mapped cells; a write to another address is [-EFAULT]. *)
#[export] Instance cells_mem : UserMem (gmap Z Z) := {
  put_user m v p := match m !! p with Some _ => (0, <[p := v]> m) | None => (-14, m) end;
  load_int m p := m !! p
}.
#[export] Instance cells_laws : UserMemLaws (gmap Z Z).
Proof.
  split; simpl.
  - intros m v p. destruct (m !! p); simpl; [lia|done].
  - intros m v p. destruct (m !! p); simpl; [|lia]. intros _. apply lookup_insert_eq.
  - intros m v v' p. destruct (m !! p) eqn:E; simpl; [|lia]. by rewrite lookup_insert_eq.
Qed.

Section Calls.
Context {M : Type} `{UserMem M}.

Record kernel := mk_kernel { kmem : M; klog : list string }.

Definition printk (msg : string) (k : kernel) : kernel := mk_kernel (kmem k) (klog k ++ [msg]).

(** ** The system calls: the returned code and the new kernel state *)
Definition sys_basic_add (num1 num2 result : Z) (k : kernel) : res (Z * kernel) :=
  let val := s32 (num1 + num2) in
  let '(rc, m) := put_user (kmem k) val result in
  let k1 := mk_kernel m (klog k) in
  Ok (0, if (rc <? 0)%c then printk ("The addition operation failed!" +:+ newline) k1
         else printk ("The addition operation success!" +:+ newline) k1).

Definition sys_basic_sub (num1 num2 result : Z) (k : kernel) : res (Z * kernel) :=
  let val := s32 (num1 - num2) in
  let '(rc, m) := put_user (kmem k) val result in
  let k1 := mk_kernel m (klog k) in
  Ok (0, if (rc <? 0)%c then printk ("The subtraction operation failed!" +:+ newline) k1
         else printk ("The subtraction operation success!" +:+ newline) k1).

Definition sys_basic_mul (num1 num2 result : Z) (k : kernel) : res (Z * kernel) :=
  let val := s32 (num1 * num2) in
  let '(rc, m) := put_user (kmem k) val result in
  let k1 := mk_kernel m (klog k) in
  Ok (0, if (rc <? 0)%c then printk ("The multiplication operation failed!" +:+ newline) k1
         else printk ("The multiplication operation success!" +:+ newline) k1).

(** [%] on two [int]s: truncated remainder; the quotient must exist. *)
Definition int_rem (a b : Z) : res Z :=
  _ ← require (negb (b =? 0)%c) DivideByZero;
  _ ← require (negb ((a =? - 2 ^ 31)%c && (b =? -1)%c)) Overflow;
  Ok (Z.rem a b).

Definition sys_basic_mod (num1 num2 result : Z) (k : kernel) : res (Z * kernel) :=
  val ← int_rem num1 num2;
  let '(rc, m) := put_user (kmem k) val result in
  let k1 := mk_kernel m (klog k) in
  Ok (0, if (rc <? 0)%c then printk ("The moduler operation failed!" +:+ newline) k1
         else printk ("The moduler operation success!" +:+ newline) k1).

(** [SYSCALL_DEFINE3(basic_add, int, num1, int, num2, int *, result)]: the
    registers are [long]s; an [int] argument is its low 32 bits. *)
Definition basic_add (num1 num2 result : Z) (k : kernel) : res (Z * kernel) :=
  sys_basic_add (s32 num1) (s32 num2) result k.
Definition basic_sub (num1 num2 result : Z) (k : kernel) : res (Z * kernel) :=
  sys_basic_sub (s32 num1) (s32 num2) result k.
Definition basic_mul (num1 num2 result : Z) (k : kernel) : res (Z * kernel) :=
  sys_basic_mul (s32 num1) (s32 num2) result k.
Definition basic_mod (num1 num2 result : Z) (k : kernel) : res (Z * kernel) :=
  sys_basic_mod (s32 num1) (s32 num2) result k.

(** The entries 443 to 446 of the table; the other numbers are not this program's. *)
Definition sys_call_table (nr : Z) : option (Z -> Z -> Z -> kernel -> res (Z * kernel)) :=
  if (nr =? 443)%c then Some basic_add
  else if (nr =? 444)%c then Some basic_sub
  else if (nr =? 445)%c then Some basic_mul
  else if (nr =? 446)%c then Some basic_mod
  else None.

(** ** The calculator (syscall_operation.c) *)

(** [while (getchar() != LF);]: [None] at end of file, where it never ends. *)
Fixpoint skip_line (s : string) : option string :=
  match s with
  | EmptyString => None
  | String c t => if Ascii.eqb c LF then Some t else skip_line t
  end.

(** [scanf("%d %c %d", &num1, &op, &num2) == 3], and the input left. *)
Definition scan_expr (s : string) : option (Z * ascii * Z) * string :=
  match scan_d s with
  | ScanEof => (None, EmptyString)
  | ScanFail r => (None, r)
  | ScanVal num1 r =>
      match skip_spaces r with
      | EmptyString => (None, EmptyString)
      | String op r =>
          match scan_d r with
          | ScanEof => (None, EmptyString)
          | ScanFail r => (None, r)
          | ScanVal num2 r => (Some (num1, op, num2), r)
          end
      end
  end.

Definition syscall_nr (op : ascii) : option Z :=
  if Ascii.eqb op "+" then Some 443
  else if Ascii.eqb op "-" then Some 444
  else if Ascii.eqb op "*" then Some 445
  else if Ascii.eqb op "%" then Some 446
  else None.

Definition prompt : string := ">> ".
Definition input_error : string := "[Error] 입력 오류! 다시 입력해주세요." +:+ newline +:+ newline.
Definition op_error : string := "[Error] +, -, *, % 연산만 가능합니다." +:+ newline +:+ newline.
Definition answer (num1 : Z) (op : ascii) (num2 r : Z) : string :=
  "[결과] " +:+ show num1 +:+ " " +:+ String op EmptyString +:+ " " +:+ show num2 +:+ " = " +:+
  show r +:+ newline +:+ newline.

(** One request: the system call, then [*result] read back. *)
Definition compute (result : Z) (num1 : Z) (op : ascii) (num2 : Z) (k : kernel)
  : res (string * kernel) :=
  match syscall_nr op with
  | None => Ok (op_error, k)
  | Some nr =>
      call ← of_option OutOfBounds (sys_call_table nr);
      '(check, k1) ← call num1 num2 result k;
      r ← of_option NullPointer (load_int (kmem k1) result);
      Ok (answer num1 op num2 r, k1)
  end.

(** The [while (1)] loop never leaves normally: it hangs at end of file, or a
    trap ends the process; each iteration reads at least one byte. *)
Inductive ending :=
  | Hang (out : string) (k : kernel)
  | Trap (e : fault) (out : string) (k : kernel)
  | OutOfFuel.

Fixpoint calculator (fuel : nat) (result : Z) (s out : string) (k : kernel) : ending :=
  match fuel with
  | O => OutOfFuel
  | S fuel =>
      let out := out +:+ prompt in
      match scan_expr s with
      | (None, r) =>
          let out := out +:+ input_error in
          match skip_line r with
          | None => Hang out k
          | Some r => calculator fuel result r out k
          end
      | (Some (num1, op, num2), r) =>
          match compute result num1 op num2 k with
          | Err e => Trap e out k
          | Ok (msg, k) => calculator fuel result r (out +:+ msg) k
          end
      end
  end.

Definition banner : string :=
  "[4가지 연산 이항 계산기 프로그램]  " +:+ "(^C를 누르면 종료합니다...)" +:+ newline.

(** [result] is never initialised: its value is an argument. *)
Definition main (result : Z) (stdin : string) (k : kernel) : ending :=
  calculator (S (String.length stdin)) result stdin banner k.

(** ** What the operations mean *)

(** The mathematical result the number [nr] asks for, before it is stored. *)
Definition exact (nr num1 num2 : Z) : option Z :=
  if (nr =? 443)%c then Some (num1 + num2)
  else if (nr =? 444)%c then Some (num1 - num2)
  else if (nr =? 445)%c then Some (num1 * num2)
  else if (nr =? 446)%c then Some (Z.rem num1 num2)
  else None.

(** [v] is the [int] that represents [x] modulo 2^32. *)
Definition int_of (x v : Z) : Prop := is_int v = true /\ (v - x) mod 2 ^ 32 = 0.

(** The remainder traps on these operands. *)
Definition traps (nr num1 num2 : Z) : bool :=
  ((nr =? 446)%c && ((num2 =? 0)%c || ((num1 =? - 2 ^ 31)%c && (num2 =? -1)%c)))%bool.

Lemma s32_repr x : int_of x (s32 x).
Proof.
  unfold int_of, s32. rewrite is_int_bounds.
  pose proof (Z.mod_pos_bound (x + 2 ^ 31) (2 ^ 32) ltac:(lia)). split; [lia|].
  apply Z.mod_divide; [lia|]. exists (- ((x + 2 ^ 31) / 2 ^ 32)).
  pose proof (Z.div_mod (x + 2 ^ 31) (2 ^ 32) ltac:(lia)). lia.
Qed.

Lemma int_of_unique x v w : int_of x v -> int_of x w -> v = w.
Proof.
  unfold int_of. rewrite !is_int_bounds. intros [Hv Mv] [Hw Mw].
  apply Z.mod_divide in Mv as [a Ha]; [|lia]. apply Z.mod_divide in Mw as [b Hb]; lia.
Qed.

Lemma rem_int a b : is_int a = true -> is_int b = true -> traps 446 a b = false ->
  is_int (Z.rem a b) = true.
Proof.
  rewrite !is_int_bounds. unfold traps. simpl. intros Ha Hb Ht. bool_to_prop.
  pose proof (Z.rem_bound_abs a b ltac:(lia)). lia.
Qed.

Lemma int_rem_spec a b :
  int_rem a b = if (b =? 0)%c then Err DivideByZero
                else if traps 446 a b then Err Overflow else Ok (Z.rem a b).
Proof.
  unfold int_rem, traps. destruct (b =? 0) eqn:E; simpl; [done|]. by case_bool.
Qed.

Section Contract.
Context `{!UserMemLaws M}.

Definition op_word (nr : Z) : string :=
  if (nr =? 443)%c then "addition" else if (nr =? 444)%c then "subtraction"
  else if (nr =? 445)%c then "multiplication" else "moduler".

(** The line a call leaves in the kernel log. *)
Definition log_line (nr : Z) (outcome : string) : string :=
  "The " +:+ op_word nr +:+ " operation " +:+ outcome +:+ "!" +:+ newline.

(** The common shape of the four calls, once their value is known. *)
Definition stored (nr result v : Z) (k : kernel) : res (Z * kernel) :=
  let '(rc, m) := put_user (kmem k) v result in
  Ok (0, if (rc <? 0)%c then printk (log_line nr "failed") (mk_kernel m (klog k))
         else printk (log_line nr "success") (mk_kernel m (klog k))).

Lemma stored_cases nr result v k :
  (0 <= (put_user (kmem k) v result).1 ->
   exists k', stored nr result v k = Ok (0, k') /\ load_int (kmem k') result = Some v /\
     kmem k' = (put_user (kmem k) v result).2 /\ klog k' = klog k ++ [log_line nr "success"]) /\
  ((put_user (kmem k) v result).1 < 0 ->
   stored nr result v k = Ok (0, mk_kernel (kmem k) (klog k ++ [log_line nr "failed"]))).
Proof.
  pose proof (put_user_done (kmem k) v result) as Hd.
  pose proof (put_user_fail (kmem k) v result) as Hf.
  unfold stored. destruct (put_user (kmem k) v result) as [rc m]. simpl in *. split; intros Hrc.
  - rewrite (proj2 (Z.ltb_ge rc 0)) by lia. eexists. split; [done|]. simpl. auto.
  - rewrite (proj2 (Z.ltb_lt rc 0)) by lia. unfold printk. simpl. by rewrite Hf.
Qed.

(** Every call either traps on its operands, or stores a value that represents
    the exact result. *)
Lemma call_stored nr call num1 num2 result k :
  sys_call_table nr = Some call -> is_int num1 = true -> is_int num2 = true ->
  (traps nr num1 num2 = true /\ exists e, call num1 num2 result k = Err e) \/
  (traps nr num1 num2 = false /\ exists x v, exact nr num1 num2 = Some x /\ int_of x v /\
     call num1 num2 result k = stored nr result v k).
Proof.
  intros Hc H1 H2. unfold sys_call_table, exact in *.
  destruct (nr =? 443) eqn:E1; [|destruct (nr =? 444) eqn:E2; [|destruct (nr =? 445) eqn:E3;
    [|destruct (nr =? 446) eqn:E4; [|discriminate]]]]; bool_to_prop; injection Hc as <-; subst nr.
  1-3: right; split; [done|]; unfold basic_add, basic_sub, basic_mul; rewrite !s32_int by done;
    do 2 eexists; split; [done|]; split; [apply s32_repr|]; reflexivity.
  unfold basic_mod, sys_basic_mod. rewrite !s32_int, int_rem_spec by done.
  destruct (num2 =? 0) eqn:E0.
  { left. unfold traps. rewrite E0. simpl. eauto. }
  destruct (traps 446 num1 num2) eqn:Et; [left; eauto|right].
  split; [done|]. exists (Z.rem num1 num2), (Z.rem num1 num2). split; [done|]. split; [|reflexivity].
  split; [by apply rem_int|]. by rewrite Z.sub_diag.
Qed.

(** A whole request line: what one iteration of the loop reads. *)
Definition request : Type := Z * ascii * Z.
Definition render (r : request) : string :=
  let '(a, op, b) := r in
  show a +:+ " " +:+ String op EmptyString +:+ " " +:+ show b +:+ newline.

Definition valid (r : request) : Prop :=
  let '(a, op, b) := r in
  is_int a = true /\ is_int b = true /\
  exists nr, syscall_nr op = Some nr /\ traps nr a b = false.

(** [reply r o]: [o] is what the program has to print for request [r]. *)
Definition reply (r : request) (o : string) : Prop :=
  let '(a, op, b) := r in
  exists nr x v, syscall_nr op = Some nr /\ exact nr a b = Some x /\ int_of x v /\
    o = prompt +:+ answer a op b v.

Lemma syscall_nr_op op nr : syscall_nr op = Some nr ->
  isspace op = false /\ exists call, sys_call_table nr = Some call.
Proof.
  unfold syscall_nr. repeat case_bool; [..|discriminate].
  all: apply Ascii.eqb_eq in E || apply Ascii.eqb_eq in E0 || apply Ascii.eqb_eq in E1
       || apply Ascii.eqb_eq in E2; subst; intros [= <-]; split; [done|eexists; reflexivity].
Qed.

Lemma scan_expr_render a op b rest :
  is_int a = true -> is_int b = true -> isspace op = false ->
  scan_expr (render (a, op, b) +:+ rest) = (Some (a, op, b), newline +:+ rest).
Proof.
  intros Ha Hb Ho. unfold render, scan_expr. rewrite !append_assoc.
  rewrite scan_d_show by done.
  cbn [String.append]. rewrite !skip_spaces_cons, Ho. change (isspace " ") with true. cbv iota.
  rewrite scan_d_space by done. by rewrite scan_d_show.
Qed.

(** One valid request with a writable [result]. *)
Lemma compute_valid result a op b k :
  valid (a, op, b) -> (forall v, 0 <= (put_user (kmem k) v result).1) ->
  exists o k', compute result a op b k = Ok (o, k') /\ reply (a, op, b) (prompt +:+ o) /\
    (forall v, 0 <= (put_user (kmem k') v result).1).
Proof.
  intros (Ha & Hb & nr & Hnr & Ht) Hw. destruct (syscall_nr_op op nr Hnr) as (Ho & call & Hc).
  unfold compute. rewrite Hnr. simpl. rewrite Hc. simpl.
  destruct (call_stored nr call a b result k Hc Ha Hb) as [[Ht' _]|(_ & x & v & Hx & Hv & ->)];
    [congruence|].
  destruct (stored_cases nr result v k) as [Hok _].
  destruct (Hok (Hw v)) as (k' & -> & Hl & Hm & _). simpl. rewrite Hl. simpl.
  exists (answer a op b v), k'. split; [done|]. split; [exists nr, x, v; auto|].
  intros v'. rewrite Hm. by apply put_user_again.
Qed.

Lemma scan_expr_newline s : scan_expr (newline +:+ s) = scan_expr s.
Proof. unfold scan_expr. simpl. by rewrite scan_d_space. Qed.

Definition rendered (rs : list request) : string := foldr (fun r s => render r +:+ s) EmptyString rs.

Lemma render_length r : (1 <= String.length (render r))%nat.
Proof.
  destruct r as [[a op] b]. pose proof (strlen_nonneg (show a)). unfold render.
  destruct (show_head a) as (c & t & -> & _). simpl. lia.
Qed.

(** The loop answers a list of valid requests one by one. *)
Lemma calculator_requests result : forall rs fuel out k,
  (List.length rs < fuel)%nat -> Forall valid rs ->
  (forall v, 0 <= (put_user (kmem k) v result).1) ->
  exists os k', Forall2 reply rs os /\
    calculator fuel result (rendered rs) out k =
      Hang (foldl String.append out os +:+ prompt +:+ input_error) k'.
Proof.
  intros rs fuel out k Hf Hrs Hw.
  enough (forall pre, pre = EmptyString \/ pre = newline -> exists os k', Forall2 reply rs os /\
    calculator fuel result (pre +:+ rendered rs) out k =
      Hang (foldl String.append out os +:+ prompt +:+ input_error) k') as Hall
    by exact (Hall EmptyString (or_introl eq_refl)).
  revert fuel out k Hf Hw. induction Hrs as [|[[a op] b] rs Hr Hrs IH];
    intros fuel out k Hf Hw pre Hpre; destruct fuel as [|fuel]; simpl in Hf; try lia.
  { exists [], k. split; [constructor|]. destruct Hpre as [-> | ->]; simpl; by rewrite append_assoc. }
  destruct (compute_valid result a op b k Hr Hw) as (o & k1 & Hc & Hrep & Hw1).
  destruct (IH fuel ((out +:+ prompt) +:+ o) k1 ltac:(lia) Hw1 newline (or_intror eq_refl))
    as (os & k' & Hos & Hrun).
  exists ((prompt +:+ o) :: os), k'. split; [by constructor|].
  destruct Hr as (Ha & Hb & nr & Hnr & _). destruct (syscall_nr_op op nr Hnr) as [Ho _].
  cbn [calculator rendered foldr]. fold (rendered rs).
  replace (scan_expr (pre +:+ render (a, op, b) +:+ rendered rs))
    with (scan_expr (render (a, op, b) +:+ rendered rs))
    by (destruct Hpre as [-> | ->]; [done|by rewrite scan_expr_newline]).
  rewrite scan_expr_render by done. rewrite Hc, Hrun. cbn [foldl]. by rewrite append_assoc.
Qed.

Lemma rendered_length rs : (List.length rs <= String.length (rendered rs))%nat.
Proof.
  induction rs as [|r rs IH]; simpl; [lia|]. rewrite length_sapp.
  pose proof (render_length r). lia.
Qed.

End Contract.

Lemma skip_spaces_length s : (String.length (skip_spaces s) <= String.length s)%nat.
Proof. apply span_length. Qed.

Lemma scan_expr_length s :
  match scan_expr s with
  | (None, r) => String.length r <= String.length s
  | (Some _, r) => String.length r < String.length s
  end%nat.
Proof.
  unfold scan_expr. pose proof (scan_d_length s) as H1.
  destruct (scan_d s) as [|r|a r]; simpl; [lia|lia|].
  pose proof (skip_spaces_length r) as H2. destruct (skip_spaces r) as [|op r']; simpl in *; [lia|].
  pose proof (scan_d_length r') as H3. destruct (scan_d r'); simpl; lia.
Qed.

Lemma skip_line_length s r : skip_line s = Some r -> (String.length r < String.length s)%nat.
Proof.
  induction s as [|c s IH]; simpl; [done|]. case_bool; [intros [= ->]; lia|].
  intros H1. specialize (IH H1). lia.
Qed.

Lemma calculator_fuel fuel : forall result s out k,
  (String.length s < fuel)%nat -> calculator fuel result s out k <> OutOfFuel.
Proof.
  induction fuel as [|fuel IH]; intros result s out k Hlen; [lia|]. cbn [calculator].
  pose proof (scan_expr_length s) as Hs. destruct (scan_expr s) as [[[[a op] b]|] r].
  - destruct (compute result a op b k) as [[msg k']|]; [|done]. apply IH. lia.
  - destruct (skip_line r) as [r'|] eqn:E; [|done]. apply IH. apply skip_line_length in E. lia.
Qed.

End Calls.

Arguments kernel : clear implicits.
Arguments ending : clear implicits.

(** ** Properties *)

(** C36: The contract of the four system calls. On two [int]s a call traps exactly
    when the remainder does not exist; otherwise it returns 0, and when the page
    of [result] is writable the cell holds the [int] congruent to the exact
    result modulo 2^32 and the log gains the success line; when it is not, the
    call still returns 0, memory is unchanged and only the log tells. *)
Theorem syscall_contract {M} `{UserMem M} `{!UserMemLaws M} nr call num1 num2 result (k : kernel M) :
  sys_call_table nr = Some call -> is_int num1 = true -> is_int num2 = true ->
  if traps nr num1 num2 then is_ok (call num1 num2 result k) = false
  else exists x v, exact nr num1 num2 = Some x /\ int_of x v /\
    (0 <= (put_user (kmem k) v result).1 ->
     exists k', call num1 num2 result k = Ok (0, k') /\ load_int (kmem k') result = Some v /\
       klog k' = klog k ++ [log_line nr "success"]) /\
    ((put_user (kmem k) v result).1 < 0 ->
     call num1 num2 result k = Ok (0, mk_kernel (kmem k) (klog k ++ [log_line nr "failed"]))).
Proof.
  intros Hc H1 H2.
  destruct (call_stored nr call num1 num2 result k Hc H1 H2)
    as [(-> & e & ->)|(-> & x & v & Hx & Hv & ->)]; [done|].
  exists x, v. split; [done|]. split; [done|].
  destruct (stored_cases nr result v k) as [Hok Hbad]. split; [|exact Hbad].
  intros Hw. destruct (Hok Hw) as (k' & Hk & Hl & _ & Hlog). eauto.
Qed.

Definition demo_kernel : kernel (gmap Z Z) := mk_kernel {[ 4096 := 0 ]} [].

Lemma syscall_contract_witness :
  exists v k', int_of (2147483647 + 1) v /\ basic_add 2147483647 1 4096 demo_kernel = Ok (0, k') /\
    load_int (kmem k') 4096 = Some v /\ klog k' = [] ++ [log_line 443 "success"].
Proof.
  destruct (syscall_contract 443 basic_add 2147483647 1 4096 demo_kernel
    ltac:(reflexivity) ltac:(reflexivity) ltac:(reflexivity)) as (x & v & Hx & Hv & Hok & _).
  injection Hx as <-. exists v. destruct Hok as (k' & H1 & H2 & H3).
  - simpl. rewrite lookup_singleton_eq. simpl. lia.
  - exists k'. split; [exact Hv|]. split; [exact H1|]. split; [exact H2|exact H3].
Defined.

(** A session of the calculator. On any list of well-formed requests, with
    [result] pointing to a writable cell, the program prints the right answer to
    each of them, in order, then reports the end of the input as a syntax error
    and hangs there. *)
Theorem calculator_session {M} `{UserMem M} `{!UserMemLaws M} result rs (k : kernel M) :
  Forall valid rs -> (forall v, 0 <= (put_user (kmem k) v result).1) ->
  exists os k', Forall2 reply rs os /\
    main result (rendered rs) k = Hang (foldl String.append banner os +:+ prompt +:+ input_error) k'.
Proof.
  intros Hrs Hw. apply calculator_requests; [|done|done]. pose proof (rendered_length rs). lia.
Qed.

Lemma calculator_session_witness :
  exists os k', Forall2 reply [(17, "%"%char, 5); (-3, "*"%char, 7)] os /\
    main 4096 (rendered [(17, "%"%char, 5); (-3, "*"%char, 7)]) demo_kernel
      = Hang (foldl String.append banner os +:+ prompt +:+ input_error) k'.
Proof.
  apply (calculator_session 4096 [(17, "%"%char, 5); (-3, "*"%char, 7)] demo_kernel).
  - constructor; [|constructor; [|constructor]];
      (split; [reflexivity|]; split; [reflexivity|]; eexists; split; reflexivity).
  - intros v. simpl. rewrite lookup_singleton_eq. simpl. lia.
Defined.

(** The loop of the calculator reads at least one byte per iteration: on every
    input [main] ends, in a trap or blocked at the end of the input, and it
    never returns. *)
Theorem calculator_reads_input {M} `{UserMem M} result stdin (k : kernel M) :
  main result stdin k <> OutOfFuel.
Proof. apply calculator_fuel. lia. Qed.

(** [result] is an uninitialised pointer: when it does not point to a mapped
    cell, the first well-formed request ends the process, although the system
    call reported success. *)
Theorem calculator_bad_pointer {M} `{UserMem M} `{!UserMemLaws M} result r rest (k : kernel M) :
  valid r -> (forall v, (put_user (kmem k) v result).1 < 0) -> load_int (kmem k) result = None ->
  main result (render r +:+ rest) k = Trap NullPointer (banner +:+ prompt) k.
Proof.
  destruct r as [[a op] b]. intros (Ha & Hb & nr & Hnr & Ht) Hbad Hl.
  destruct (syscall_nr_op op nr Hnr) as (Ho & call & Hc).
  unfold main. cbn [calculator]. rewrite scan_expr_render by done.
  unfold compute. rewrite Hnr. simpl. rewrite Hc. simpl.
  destruct (call_stored nr call a b result k Hc Ha Hb) as [[Ht' _]|(_ & x & v & _ & _ & ->)];
    [congruence|].
  destruct (stored_cases nr result v k) as [_ Hb2]. rewrite (Hb2 (Hbad v)). simpl. by rewrite Hl.
Qed.

Lemma calculator_bad_pointer_witness :
  main 0 (render (1, "+"%char, 2) +:+ "") demo_kernel = Trap NullPointer (banner +:+ prompt) demo_kernel.
Proof.
  apply (calculator_bad_pointer 0 (1, "+"%char, 2) "" demo_kernel).
  - split; [reflexivity|]. split; [reflexivity|]. eexists. split; reflexivity.
  - intros v. reflexivity.
  - reflexivity.
Defined.
