(* ===== verification/Crossroad.v ===== *)
(** * The crossroad (src/Assignment_6/program.c)

    Five POSIX threads and [main] as a transition system: the global variables,
    the mutexes and condition variables, and for every thread the statement it
    is at.  One step is one statement, or one iteration of a [for] loop, or one
    [printf] block; steps of different threads interleave freely.  Waiting on a
    condition variable is three steps: release and block, be woken, take the
    mutex back.  [sleep] orders nothing.  The four [jobK] functions are one
    definition over the start point, with their four instances. *)
From Stdlib Require Import ZArith Lia Ascii String.
From S2P Require Import Prelude CLib.

Local Open Scope stdpp_scope.
Local Open Scope Z_scope.

(** ** Start points, threads, locks *)

(** The start points P1 to P4; an array of four elements is a function of them. *)
Inductive point := P1 | P2 | P3 | P4.
Inductive thread := TMain | TJob0 | TJob (k : point).
(** [L0] is mutex0 with cond0, [LK k] the pair of [jobK]. *)
Inductive lock := L0 | LK (k : point).

#[export] Instance point_eq_dec : EqDecision point.
Proof. solve_decision. Defined.
#[export] Instance thread_eq_dec : EqDecision thread.
Proof. solve_decision. Defined.
#[export] Instance lock_eq_dec : EqDecision lock.
Proof. solve_decision. Defined.

Definition points : list point := [P1; P2; P3; P4].
(** The number a start point has in the program's data. *)
Definition num (k : point) : Z := match k with P1 => 1 | P2 => 2 | P3 => 3 | P4 => 4 end.
Definition point_of (z : Z) : option point :=
  if (z =? 1)%c then Some P1 else if (z =? 2)%c then Some P2
  else if (z =? 3)%c then Some P3 else if (z =? 4)%c then Some P4 else None.
(** The start point a vehicle faces: P1 with P3, P2 with P4. *)
Definition facing (k : point) : point :=
  match k with P1 => P3 | P2 => P4 | P3 => P1 | P4 => P2 end.

(** One element of a function-array, updated. *)
Definition upd {K A} `{EqDecision K} (f : K -> A) (k : K) (v : A) : K -> A :=
  fun i => if decide (i = k) then v else f i.

(** ** Where the threads are *)

(** The statements of [jobK]. *)
Inductive job_pc :=
  | J_new | J_empty_test | J_empty_finish
  | J_lock | J_init_test | J_set_init | J_wait_init | J_woken_init
  | J_incr | J_test | J_where | J_passed | J_count | J_process0 | J_where0
  | J_check | J_finish | J_signal_last | J_unlock_last
  | J_signal | J_wait | J_woken | J_unlock | J_exit.
#[export] Instance job_pc_eq_dec : EqDecision job_pc.
Proof. solve_decision. Defined.
Record job_local := mk_job { pc : job_pc; init : bool }.

(** The statements of [job0]; [w] is the [case] label of [switch (where)]. *)
Inductive job0_pc :=
  | A_new | A_lock | A_init_test | A_wait_init | A_woken_init | A_set_init
  | A_print | A_sleep | A_passed_index | A_clear (i : nat) | A_start | A_wait_list
  | A_temp_test | A_where_temp | A_temp_off | A_check_off | A_key
  | A_facing (i : nat) | A_not_found | A_first (i : nat) | A_finished | A_switch
  | A_signal_free (k : point) | A_restore (w k : point)
  | A_signal_facing (w k : point) | A_wait_facing (w : point) | A_woken_facing (w : point)
  | A_save (w : point) | A_temp_on (w : point) | A_resume (w : point)
  | A_wait | A_woken | A_unlock | A_exit.
#[export] Instance job0_pc_eq_dec : EqDecision job0_pc.
Proof. solve_decision. Defined.
Record job0_local := mk_job0 {
  pc0 : job0_pc; temp : bool; init0 : bool; check : bool; idx : option Z
}.

(** The statements of [main] after the list is made. *)
Inductive main_pc :=
  | M_create (i : nat) | M_sleep | M_start | M_switch | M_join (i : nat)
  | M_destroy | M_result | M_done.

(** ** The global state *)
Record state := mk_state {
  start_point_list : list Z;   (* int start_point_list[20] *)
  passed_list : list Z;   (* int passed_list[10] *)
  waiting_list : list Z;   (* int waiting_list[20] *)
  pCount : point -> Z;
  process : point -> Z;
  job_count : point -> Z;   (* job1_count .. job4_count *)
  finish : point -> bool;
  vehicles : Z;
  tick : Z;
  list_index : Z;
  passed_index : Z;
  waiting_index : Z;
  key : Z;
  start : Z;
  where_ : Z;   (* where *)
  where_temp : Z;
  owner : lock -> option thread;   (* who holds mutex0 .. mutex4 *)
  waiters : lock -> list thread;   (* who is blocked on cond0 .. cond4 *)
  main_at : main_pc;   (* where main is *)
  job0 : job0_local;   (* where job0 is, and its locals *)
  jobs : point -> job_local;   (* where job1 .. job4 are *)
  out : string   (* what was printed *)
}.

Definition set_start_point_list (v : list Z) (s : state) : state :=
  mk_state v (passed_list s) (waiting_list s) (pCount s) (process s) (job_count s) (finish s)
    (vehicles s) (tick s) (list_index s) (passed_index s) (waiting_index s) (key s) (start s)
    (where_ s) (where_temp s) (owner s) (waiters s) (main_at s) (job0 s) (jobs s) (out s).
Definition set_passed_list (v : list Z) (s : state) : state :=
  mk_state (start_point_list s) v (waiting_list s) (pCount s) (process s) (job_count s) (finish
    s) (vehicles s) (tick s) (list_index s) (passed_index s) (waiting_index s) (key s) (start s)
    (where_ s) (where_temp s) (owner s) (waiters s) (main_at s) (job0 s) (jobs s) (out s).
Definition set_waiting_list (v : list Z) (s : state) : state :=
  mk_state (start_point_list s) (passed_list s) v (pCount s) (process s) (job_count s) (finish
    s) (vehicles s) (tick s) (list_index s) (passed_index s) (waiting_index s) (key s) (start s)
    (where_ s) (where_temp s) (owner s) (waiters s) (main_at s) (job0 s) (jobs s) (out s).
Definition set_pCount (v : point -> Z) (s : state) : state :=
  mk_state (start_point_list s) (passed_list s) (waiting_list s) v (process s) (job_count s)
    (finish s) (vehicles s) (tick s) (list_index s) (passed_index s) (waiting_index s) (key s)
    (start s) (where_ s) (where_temp s) (owner s) (waiters s) (main_at s) (job0 s) (jobs s) (out
    s).
Definition set_process (v : point -> Z) (s : state) : state :=
  mk_state (start_point_list s) (passed_list s) (waiting_list s) (pCount s) v (job_count s)
    (finish s) (vehicles s) (tick s) (list_index s) (passed_index s) (waiting_index s) (key s)
    (start s) (where_ s) (where_temp s) (owner s) (waiters s) (main_at s) (job0 s) (jobs s) (out
    s).
Definition set_job_count (v : point -> Z) (s : state) : state :=
  mk_state (start_point_list s) (passed_list s) (waiting_list s) (pCount s) (process s) v
    (finish s) (vehicles s) (tick s) (list_index s) (passed_index s) (waiting_index s) (key s)
    (start s) (where_ s) (where_temp s) (owner s) (waiters s) (main_at s) (job0 s) (jobs s) (out
    s).
Definition set_finish (v : point -> bool) (s : state) : state :=
  mk_state (start_point_list s) (passed_list s) (waiting_list s) (pCount s) (process s)
    (job_count s) v (vehicles s) (tick s) (list_index s) (passed_index s) (waiting_index s) (key
    s) (start s) (where_ s) (where_temp s) (owner s) (waiters s) (main_at s) (job0 s) (jobs s)
    (out s).
Definition set_vehicles (v : Z) (s : state) : state :=
  mk_state (start_point_list s) (passed_list s) (waiting_list s) (pCount s) (process s)
    (job_count s) (finish s) v (tick s) (list_index s) (passed_index s) (waiting_index s) (key s)
    (start s) (where_ s) (where_temp s) (owner s) (waiters s) (main_at s) (job0 s) (jobs s) (out
    s).
Definition set_tick (v : Z) (s : state) : state :=
  mk_state (start_point_list s) (passed_list s) (waiting_list s) (pCount s) (process s)
    (job_count s) (finish s) (vehicles s) v (list_index s) (passed_index s) (waiting_index s)
    (key s) (start s) (where_ s) (where_temp s) (owner s) (waiters s) (main_at s) (job0 s) (jobs
    s) (out s).
Definition set_list_index (v : Z) (s : state) : state :=
  mk_state (start_point_list s) (passed_list s) (waiting_list s) (pCount s) (process s)
    (job_count s) (finish s) (vehicles s) (tick s) v (passed_index s) (waiting_index s) (key s)
    (start s) (where_ s) (where_temp s) (owner s) (waiters s) (main_at s) (job0 s) (jobs s) (out
    s).
Definition set_passed_index (v : Z) (s : state) : state :=
  mk_state (start_point_list s) (passed_list s) (waiting_list s) (pCount s) (process s)
    (job_count s) (finish s) (vehicles s) (tick s) (list_index s) v (waiting_index s) (key s)
    (start s) (where_ s) (where_temp s) (owner s) (waiters s) (main_at s) (job0 s) (jobs s) (out
    s).
Definition set_waiting_index (v : Z) (s : state) : state :=
  mk_state (start_point_list s) (passed_list s) (waiting_list s) (pCount s) (process s)
    (job_count s) (finish s) (vehicles s) (tick s) (list_index s) (passed_index s) v (key s)
    (start s) (where_ s) (where_temp s) (owner s) (waiters s) (main_at s) (job0 s) (jobs s) (out
    s).
Definition set_key (v : Z) (s : state) : state :=
  mk_state (start_point_list s) (passed_list s) (waiting_list s) (pCount s) (process s)
    (job_count s) (finish s) (vehicles s) (tick s) (list_index s) (passed_index s) (waiting_index
    s) v (start s) (where_ s) (where_temp s) (owner s) (waiters s) (main_at s) (job0 s) (jobs s)
    (out s).
Definition set_start (v : Z) (s : state) : state :=
  mk_state (start_point_list s) (passed_list s) (waiting_list s) (pCount s) (process s)
    (job_count s) (finish s) (vehicles s) (tick s) (list_index s) (passed_index s) (waiting_index
    s) (key s) v (where_ s) (where_temp s) (owner s) (waiters s) (main_at s) (job0 s) (jobs s)
    (out s).
Definition set_where (v : Z) (s : state) : state :=
  mk_state (start_point_list s) (passed_list s) (waiting_list s) (pCount s) (process s)
    (job_count s) (finish s) (vehicles s) (tick s) (list_index s) (passed_index s) (waiting_index
    s) (key s) (start s) v (where_temp s) (owner s) (waiters s) (main_at s) (job0 s) (jobs s)
    (out s).
Definition set_where_temp (v : Z) (s : state) : state :=
  mk_state (start_point_list s) (passed_list s) (waiting_list s) (pCount s) (process s)
    (job_count s) (finish s) (vehicles s) (tick s) (list_index s) (passed_index s) (waiting_index
    s) (key s) (start s) (where_ s) v (owner s) (waiters s) (main_at s) (job0 s) (jobs s) (out
    s).
Definition set_owner (v : lock -> option thread) (s : state) : state :=
  mk_state (start_point_list s) (passed_list s) (waiting_list s) (pCount s) (process s)
    (job_count s) (finish s) (vehicles s) (tick s) (list_index s) (passed_index s) (waiting_index
    s) (key s) (start s) (where_ s) (where_temp s) v (waiters s) (main_at s) (job0 s) (jobs s)
    (out s).
Definition set_waiters (v : lock -> list thread) (s : state) : state :=
  mk_state (start_point_list s) (passed_list s) (waiting_list s) (pCount s) (process s)
    (job_count s) (finish s) (vehicles s) (tick s) (list_index s) (passed_index s) (waiting_index
    s) (key s) (start s) (where_ s) (where_temp s) (owner s) v (main_at s) (job0 s) (jobs s) (out
    s).
Definition set_main_at (v : main_pc) (s : state) : state :=
  mk_state (start_point_list s) (passed_list s) (waiting_list s) (pCount s) (process s)
    (job_count s) (finish s) (vehicles s) (tick s) (list_index s) (passed_index s) (waiting_index
    s) (key s) (start s) (where_ s) (where_temp s) (owner s) (waiters s) v (job0 s) (jobs s) (out
    s).
Definition set_job0 (v : job0_local) (s : state) : state :=
  mk_state (start_point_list s) (passed_list s) (waiting_list s) (pCount s) (process s)
    (job_count s) (finish s) (vehicles s) (tick s) (list_index s) (passed_index s) (waiting_index
    s) (key s) (start s) (where_ s) (where_temp s) (owner s) (waiters s) (main_at s) v (jobs s)
    (out s).
Definition set_jobs (v : point -> job_local) (s : state) : state :=
  mk_state (start_point_list s) (passed_list s) (waiting_list s) (pCount s) (process s)
    (job_count s) (finish s) (vehicles s) (tick s) (list_index s) (passed_index s) (waiting_index
    s) (key s) (start s) (where_ s) (where_temp s) (owner s) (waiters s) (main_at s) (job0 s) v
    (out s).
Definition set_out (v : string) (s : state) : state :=
  mk_state (start_point_list s) (passed_list s) (waiting_list s) (pCount s) (process s)
    (job_count s) (finish s) (vehicles s) (tick s) (list_index s) (passed_index s) (waiting_index
    s) (key s) (start s) (where_ s) (where_temp s) (owner s) (waiters s) (main_at s) (job0 s)
    (jobs s) v.

(** Moving a thread to its next statement. *)
Definition job_at (k : point) (p : job_pc) (s : state) : state :=
  set_jobs (upd (jobs s) k (mk_job p (init (jobs s k)))) s.
Definition job0_at (p : job0_pc) (s : state) : state :=
  let j := job0 s in set_job0 (mk_job0 p (temp j) (init0 j) (check j) (idx j)) s.
Definition set_temp (b : bool) (s : state) : state :=
  let j := job0 s in set_job0 (mk_job0 (pc0 j) b (init0 j) (check j) (idx j)) s.
Definition set_init0 (s : state) : state :=
  let j := job0 s in set_job0 (mk_job0 (pc0 j) (temp j) true (check j) (idx j)) s.
Definition set_check (b : bool) (i : option Z) (s : state) : state :=
  let j := job0 s in set_job0 (mk_job0 (pc0 j) (temp j) (init0 j) b i) s.

(** ** Mutexes and condition variables *)

(** A thread's attempt at a step: it cannot run now, it ran, or it did
    something undefined (or ended the process). *)
Inductive outcome := Blocked | Next (s : state) | Fault (e : fault).

Definition outcome_of (r : res state) : outcome :=
  match r with Ok s => Next s | Err e => Fault e end.

(** [pthread_mutex_lock]: a mutex that is held, by anyone, blocks. *)
Definition acquire (l : lock) (t : thread) (s : state) : option state :=
  match owner s l with
  | None => Some (set_owner (upd (owner s) l (Some t)) s)
  | Some _ => None
  end.
Definition release (l : lock) (s : state) : state := set_owner (upd (owner s) l None) s.

(** [pthread_cond_wait]: give the mutex up and block, atomically; once out of
    the queue, take the mutex back. *)
Definition start_wait (l : lock) (t : thread) (s : state) : state :=
  set_waiters (upd (waiters s) l (waiters s l ++ [t])) (release l s).
Definition end_wait (l : lock) (t : thread) (s : state) : option state :=
  if decide (t ∈ waiters s l) then None else acquire l t s.

(** [pthread_cond_signal]: wake one waiter if there is one; otherwise nothing. *)
Definition signal (l : lock) (s : state) : state :=
  set_waiters (upd (waiters s) l (tail (waiters s l))) s.

Definition or_blocked (o : option state) (f : state -> state) : outcome :=
  match o with None => Blocked | Some s => Next (f s) end.

(** ** [job1] to [job4] *)
Definition job_step (k : point) (s : state) : outcome :=
  let go p s := Next (job_at k p s) in
  match pc (jobs s k) with
  | J_new => Blocked
  | J_empty_test => if (pCount s k =? 0)%c then go J_empty_finish s else go J_lock s
  | J_empty_finish => go J_exit (set_finish (upd (finish s) k true) s)
  | J_lock => or_blocked (acquire (LK k) (TJob k) s) (job_at k J_init_test)
  | J_init_test => if init (jobs s k) then go J_incr s else go J_set_init s
  | J_set_init => Next (set_jobs (upd (jobs s) k (mk_job J_wait_init true)) s)
  | J_wait_init => go J_woken_init (start_wait (LK k) (TJob k) s)
  | J_woken_init => or_blocked (end_wait (LK k) (TJob k) s) (job_at k J_incr)
  | J_incr => go J_test (set_process (upd (process s) k (process s k + 1)) s)
  | J_test => if (process s k =? 1)%c then go J_where s
              else if (process s k =? 2)%c then go J_passed s else go J_check s
  | J_where => go J_check (set_where (num k) s)
  | J_passed =>
      outcome_of (l ← aset (passed_list s) (passed_index s) (num k);
        Ok (job_at k J_count (set_passed_index (passed_index s + 1) (set_passed_list l s))))
  | J_count => go J_process0 (set_job_count (upd (job_count s) k (job_count s k + 1)) s)
  | J_process0 => go J_where0 (set_process (upd (process s) k 0) s)
  | J_where0 => go J_check (set_where 0 s)
  | J_check => if (job_count s k =? pCount s k)%c then go J_finish s else go J_signal s
  | J_finish => go J_signal_last (set_finish (upd (finish s) k true) s)
  | J_signal_last => go J_unlock_last (signal L0 s)
  | J_unlock_last => go J_exit (release (LK k) s)
  | J_signal => go J_wait (signal L0 s)
  | J_wait => go J_woken (start_wait (LK k) (TJob k) s)
  | J_woken => or_blocked (end_wait (LK k) (TJob k) s) (job_at k J_unlock)
  | J_unlock => go J_lock (release (LK k) s)
  | J_exit => Blocked
  end.

Definition job1 : state -> outcome := job_step P1.
Definition job2 : state -> outcome := job_step P2.
Definition job3 : state -> outcome := job_step P3.
Definition job4 : state -> outcome := job_step P4.
Definition jobK (k : point) : state -> outcome :=
  match k with P1 => job1 | P2 => job2 | P3 => job3 | P4 => job4 end.

(** ** Printing *)
Definition print_cars (l : list Z) : string :=
  foldr (fun c rest => if (c =? 0)%c then rest else show c +:+ " " +:+ rest) EmptyString l.
Definition rule : string := newline +:+ "=============================" +:+ newline.

Definition print_progress (s : state) : state :=
  set_out (out s +:+ "tick : " +:+ show (tick s) +:+ rule +:+
           "Passed Vehicle" +:+ newline +:+ "Car " +:+ print_cars (passed_list s) +:+
           newline +:+ "Waiting Vehicle" +:+ newline +:+ "Car " +:+
           print_cars (waiting_list s) +:+ rule)
    (set_tick (tick s + 1) s).

Definition print_result (s : state) : state :=
  set_out (out s +:+ "Number of vehicles passed from each start point" +:+ newline +:+
           "P1 : " +:+ show (pCount s P1) +:+ " times" +:+ newline +:+
           "P2 : " +:+ show (pCount s P2) +:+ " times" +:+ newline +:+
           "P3 : " +:+ show (pCount s P3) +:+ " times" +:+ newline +:+
           "P4 : " +:+ show (pCount s P4) +:+ " times" +:+ newline +:+
           "Total time : " +:+ show (tick s - 1) +:+ " ticks" +:+ newline) s.

(** ** [job0] *)

(** Does a waiting vehicle [v] face the road [where] is on? *)
Definition faces (w v : Z) : bool :=
  (((w =? 1)%c && (v =? 3)%c) || ((w =? 2)%c && (v =? 4)%c)
   || ((w =? 3)%c && (v =? 1)%c) || ((w =? 4)%c && (v =? 2)%c))%bool.

(** Take the vehicle at index [i] out of the waiting list. *)
Definition take_waiting (i : nat) (v : Z) (s : state) : res state :=
  l ← aset (waiting_list s) (Z.of_nat i) 0; Ok (set_waiting_list l (set_key v s)).

(** [switch (where)] and [switch (key)]: the statement they lead to. *)
Definition switch_where (at_ key : Z) : job0_pc :=
  match point_of at_ with
  | None => if (at_ =? 0)%c then
              match point_of key with Some k => A_signal_free k | None => A_wait end
            else A_wait
  | Some w =>
      match point_of key with
      | Some k => if decide (k = facing w) then A_signal_facing w k else A_restore w k
      | None => A_resume w
      end
  end.

Definition job0_step (s : state) : outcome :=
  let go p s := Next (job0_at p s) in
  match pc0 (job0 s) with
  | A_new => Blocked
  | A_lock => or_blocked (acquire L0 TJob0 s) (job0_at A_init_test)
  | A_init_test => if init0 (job0 s) then go A_print s else go A_wait_init s
  | A_wait_init => go A_woken_init (start_wait L0 TJob0 s)
  | A_woken_init => or_blocked (end_wait L0 TJob0 s) (job0_at A_set_init)
  | A_set_init => go A_print (set_init0 s)
  | A_print => go A_sleep (print_progress s)
  | A_sleep => go A_passed_index s
  | A_passed_index => go (A_clear 0) (set_passed_index 0 s)
  | A_clear i =>
      if (Z.of_nat i <? 10)%c then
        outcome_of (l ← aset (passed_list s) (Z.of_nat i) 0;
                    Ok (job0_at (A_clear (S i)) (set_passed_list l s)))
      else go A_start s
  | A_start =>
      outcome_of (v ← aget (start_point_list s) (list_index s);
                  Ok (job0_at A_wait_list (set_start v (set_list_index (list_index s + 1) s))))
  | A_wait_list =>
      if (0 <? start s)%c then
        outcome_of (l ← aset (waiting_list s) (waiting_index s) (start s);
                    Ok (job0_at A_temp_test
                          (set_waiting_list l (set_waiting_index (waiting_index s + 1) s))))
      else go A_temp_test s
  | A_temp_test => if temp (job0 s) then go A_where_temp s else go A_check_off s
  | A_where_temp => go A_temp_off (set_where (where_temp s) s)
  | A_temp_off => go A_check_off (set_temp false s)
  | A_check_off => go A_key (set_check false None s)
  | A_key => go (A_facing 0) (set_key 0 s)
  | A_facing i =>
      if (Z.of_nat i <? 20)%c then
        outcome_of (v ← aget (waiting_list s) (Z.of_nat i);
          if faces (where_ s) v then
            s1 ← take_waiting i v s;
            Ok (job0_at A_not_found (set_check true (Some (Z.of_nat i)) s1))
          else Ok (job0_at (A_facing (S i)) s))
      else go A_not_found s
  | A_not_found => if check (job0 s) then go A_finished s else go (A_first 0) s
  | A_first i =>
      if (Z.of_nat i <? 20)%c then
        outcome_of (v ← aget (waiting_list s) (Z.of_nat i);
          if (0 <? v)%c then
            s1 ← take_waiting i v s;
            Ok (job0_at A_finished (set_check (check (job0 s)) (Some (Z.of_nat i)) s1))
          else Ok (job0_at (A_first (S i)) s))
      else go A_finished s
  | A_finished =>
      if (finish s P1 && finish s P2 && finish s P3 && finish s P4)%bool
      then go A_exit s else go A_switch s
  | A_switch => go (switch_where (where_ s) (key s)) s
  | A_signal_free k => go A_wait (signal (LK k) s)
  | A_restore w k =>
      outcome_of (i ← of_option Uninitialised (idx (job0 s));
                  l ← aset (waiting_list s) i (num k);
                  Ok (job0_at (A_resume w) (set_waiting_list l s)))
  | A_signal_facing w k => go (A_wait_facing w) (signal (LK k) s)
  | A_wait_facing w => go (A_woken_facing w) (start_wait L0 TJob0 s)
  | A_woken_facing w => or_blocked (end_wait L0 TJob0 s) (job0_at (A_save w))
  | A_save w => go (A_temp_on w) (set_where_temp (where_ s) s)
  | A_temp_on w => go (A_resume w) (set_temp true s)
  | A_resume w => go A_wait (signal (LK w) s)
  | A_wait => go A_woken (start_wait L0 TJob0 s)
  | A_woken => or_blocked (end_wait L0 TJob0 s) (job0_at A_unlock)
  | A_unlock => go A_lock (release L0 s)
  | A_exit => Blocked
  end.

(** ** [main] *)

(** The loop of [create_random_list]: vehicle [i] gets [rand() % 4 + 1]. *)
Fixpoint random_loop (rand : nat -> Z) (n i : nat) (s : state) : res state :=
  match n with
  | O => Ok s
  | S n =>
      let start_point := Z.rem (rand i) 4 + 1 in
      l ← aset (start_point_list s) (Z.of_nat i) start_point;
      k ← of_option OutOfBounds (point_of start_point);
      random_loop rand n (S i)
        (set_out (out s +:+ show start_point +:+ " ")
          (set_pCount (upd (pCount s) k (pCount s k + 1)) (set_start_point_list l s)))
  end.

(** [scanf("%d", &vehicles)] leaves the global 0 when there is no number. *)
Definition read_vehicles (stdin : string) : Z :=
  match scan_d stdin with ScanVal v _ => v | _ => 0 end.

Definition create_random_list (stdin : string) (rand : nat -> Z) (s : state) : res state :=
  let v := read_vehicles stdin in
  let s := set_out (out s +:+ "Total number of vehicles : " +:+ "Start point : ")
             (set_vehicles v s) in
  s ← random_loop rand (Z.to_nat v) 0 s;
  Ok (set_out (out s +:+ newline +:+ newline) s).

(** [pthread_create(&tid[i], NULL, jobI, NULL)] when it succeeds. *)
Definition start_thread (i : nat) (s : state) : state :=
  match i with
  | O => job0_at A_lock s
  | 1%nat => job_at P1 J_empty_test s
  | 2%nat => job_at P2 J_empty_test s
  | 3%nat => job_at P3 J_empty_test s
  | _ => job_at P4 J_empty_test s
  end.

(** Has the thread of [tid[i]] ended? *)
Definition joinable (i : nat) (s : state) : bool :=
  match i with
  | O => match pc0 (job0 s) with A_exit => true | _ => false end
  | S i => match pc (jobs s (nth i points P4)) with J_exit => true | _ => false end
  end.

Definition set_main (p : main_pc) (s : state) : state := set_main_at p s.

Definition main_step (s : state) : outcome :=
  match main_at s with
  | M_create i =>
      Next (set_main (if (Z.of_nat i <? 4)%c then M_create (S i) else M_sleep) (start_thread i s))
  | M_sleep => Next (set_main M_start s)
  | M_start =>
      outcome_of (v ← aget (start_point_list s) (list_index s);
                  Ok (set_main M_switch (set_start v (set_list_index (list_index s + 1) s))))
  | M_switch =>
      Next (set_main (M_join 0)
              match point_of (start s) with Some k => signal (LK k) s | None => s end)
  | M_join i =>
      if (Z.of_nat i <? 5)%c
      then if joinable i s then Next (set_main (M_join (S i)) s) else Blocked
      else Next (set_main M_destroy s)
  | M_destroy => Next (set_main M_result s)
  | M_result => Next (set_main M_done (print_result s))
  | M_done => Blocked
  end.

(** The globals as [main]'s [memset]s leave them, every thread still to be made. *)
Definition initial : state :=
  mk_state (replicate 20 0) (replicate 10 0) (replicate 20 0) (fun _ => 0) (fun _ => 0)
    (fun _ => 0) (fun _ => false) 0 1 0 0 0 0 0 0 0 (fun _ => None) (fun _ => [])
    (M_create 0) (mk_job0 A_new false false false None) (fun _ => mk_job J_new false) EmptyString.

Definition boot (stdin : string) (rand : nat -> Z) : res state :=
  create_random_list stdin rand initial.

(** ** Interleavings *)

(** What can happen next: a thread runs one step, a wait returns without a
    signal (POSIX allows it), or [pthread_create] fails. *)
Inductive event := Run (t : thread) | Spurious (t : thread) (l : lock) | CreateFails.

Definition thread_step (t : thread) (s : state) : outcome :=
  match t with TMain => main_step s | TJob0 => job0_step s | TJob k => jobK k s end.

Definition wake (t : thread) (l : lock) (s : state) : outcome :=
  if decide (t ∈ waiters s l)
  then Next (set_waiters (upd (waiters s) l (filter (fun u => u <> t) (waiters s l))) s)
  else Blocked.

Definition exec (e : event) (s : state) : outcome :=
  match e with
  | Run t => thread_step t s
  | Spurious t l => wake t l s
  | CreateFails => match main_at s with M_create _ => Fault (Exit 1) | _ => Blocked end
  end.

Fixpoint schedule (es : list event) (s : state) : outcome :=
  match es with
  | [] => Next s
  | e :: es => match exec e s with Next s => schedule es s | o => o end
  end.

(** The two step relations: with and without spurious wake-ups. *)
Inductive quiet_step : state -> state -> Prop :=
  | quiet_run t s s' : thread_step t s = Next s' -> quiet_step s s'.
Inductive any_step : state -> state -> Prop :=
  | any_event e s s' : exec e s = Next s' -> any_step s s'.

(** Nothing can move although [main] has not returned. *)
Definition all_threads : list thread := [TMain; TJob0; TJob P1; TJob P2; TJob P3; TJob P4].
Definition stuck (s : state) : bool :=
  forallb (fun t => match thread_step t s with Blocked => true | _ => false end) all_threads.
Definition finished (s : state) : bool := match main_at s with M_done => true | _ => false end.

(** The schedule the [sleep]s are meant to give: a thread keeps running until it
    blocks or sleeps; then the first other one that can run does, and a sleep
    ends when nothing else can run. *)
Definition sleeping (t : thread) (s : state) : bool :=
  match t with
  | TMain => match main_at s with M_sleep => true | _ => false end
  | TJob0 => match pc0 (job0 s) with A_sleep => true | _ => false end
  | TJob _ => false
  end.
Definition runnable (s : state) (t : thread) : bool :=
  match thread_step t s with Blocked => false | _ => true end.
Definition pick (t : thread) (s : state) : option thread :=
  let awake u := (runnable s u && negb (sleeping u s))%bool in
  match List.filter awake (t :: all_threads), List.filter (runnable s) all_threads with
  | u :: _, _ => Some u
  | [], u :: _ => Some u
  | [], [] => None
  end.

Fixpoint cooperative (fuel : nat) (t : thread) (s : state) : outcome :=
  match fuel, pick t s with
  | S fuel, Some u =>
      match thread_step u s with Next s' => cooperative fuel u s' | o => o end
  | _, _ => Next s
  end.
