(* ===== verification/CrossSafety.v ===== *)
(** * The crossroad is safe (src/Assignment_6/program.c)

    Invariants of the transition system of [Crossroad], by rule induction:
    what the threads count under every interleaving, and, as long as no wait
    returns without a signal, that two vehicles are on the crossing together
    only when they face each other. *)
From Stdlib Require Import ZArith Lia Ascii String.
From S2P Require Import Prelude CLib Crossroad.

Local Open Scope Z_scope.

(** ** Functions as arrays *)
Lemma upd_eq {K A} `{EqDecision K} (f : K -> A) k v : upd f k v k = v.
Proof. unfold upd. by rewrite decide_True. Qed.
Lemma upd_ne {K A} `{EqDecision K} (f : K -> A) k i v : i <> k -> upd f k v i = f i.
Proof. intros H. unfold upd. by rewrite decide_False. Qed.

Create Rewrite HintDb cross.
#[local] Hint Rewrite @upd_eq : cross.
#[local] Hint Rewrite @upd_ne using congruence : cross.

Lemma jobK_step k : jobK k = job_step k.
Proof. by destruct k. Qed.

Lemma facing_facing k : facing (facing k) = k.
Proof. by destruct k. Qed.
Lemma facing_ne k : facing k <> k.
Proof. by destruct k. Qed.
Lemma point_of_num k : point_of (num k) = Some k.
Proof. by destruct k. Qed.

Lemma outcome_next r s : outcome_of r = Next s -> r = Ok s.
Proof. destruct r; simpl; congruence. Qed.
Lemma or_blocked_next o f s : or_blocked o f = Next s -> exists s1, o = Some s1 /\ s = f s1.
Proof. destruct o; simpl; [intros [= <-]; eauto|done]. Qed.

(** Follow one step [H : _ = Next s'] into the statement its thread is at. *)
Ltac step_cases H :=
  cbv zeta in H;
  repeat match type of H with
  | outcome_of _ = _ => apply outcome_next in H
  | or_blocked _ _ = _ => apply or_blocked_next in H as (? & ? & ->)
  | context [match ?x with _ => _ end] =>
      match x with
      | mbind _ _ => fail 1
      | _ => destruct x eqn:?
      end
  | mbind _ ?m = Ok _ => destruct m eqn:?; simpl in H; [|discriminate H]
  | Next _ = Next _ => injection H as <-
  | Ok _ = Ok _ => injection H as <-
  | Blocked = Next _ => discriminate H
  | Err _ = Ok _ => discriminate H
  end.

(** ** What a step of one thread leaves alone *)

(** Everything about [jobK] that its own thread writes. *)
Definition job_view (k : point) (s : state) :=
  (jobs s k, process s k, job_count s k, finish s k, pCount s k).

Lemma job_view_jobs k s s' : job_view k s' = job_view k s -> jobs s' k = jobs s k.
Proof. unfold job_view. congruence. Qed.

Lemma acquire_view l t s s' : acquire l t s = Some s' ->
  s' = set_owner (upd (owner s) l (Some t)) s.
Proof. unfold acquire. destruct (owner s l); congruence. Qed.

Lemma end_wait_view l t s s' : end_wait l t s = Some s' ->
  t ∉ waiters s l /\ s' = set_owner (upd (owner s) l (Some t)) s.
Proof. unfold end_wait. destruct (decide _); [done|]. intros H%acquire_view. done. Qed.

Lemma take_waiting_view i v s s' : take_waiting i v s = Ok s' ->
  exists l, s' = set_waiting_list l (set_key v s).
Proof. unfold take_waiting. destruct (aset _ _ _); simpl; intros [= <-]; eauto. Qed.

(** What a lock operation or a removal from the waiting list did. *)
Ltac lock_views :=
  repeat match goal with
  | H : acquire _ _ _ = Some _ |- _ => apply acquire_view in H as ->
  | H : end_wait _ _ _ = Some _ |- _ => apply end_wait_view in H as [? ->]
  | H : take_waiting _ _ _ = Ok _ |- _ => apply take_waiting_view in H as [? ->]
  end.

(** The thread [jobK] alone writes its view; [job0] and [main] write none, except
    that [main] starts the threads. *)
Lemma job0_view s s' : job0_step s = Next s' ->
  (forall k, job_view k s' = job_view k s) /\ main_at s' = main_at s.
Proof.
  unfold job0_step. intros H. step_cases H; lock_views; split; done.
Qed.

Lemma job_others k s s' : job_step k s = Next s' ->
  pCount s' = pCount s /\ main_at s' = main_at s /\ job0 s' = job0 s /\ out s' = out s /\
  tick s' = tick s /\ forall j, j <> k -> job_view j s' = job_view j s.
Proof.
  unfold job_step. intros H. step_cases H; lock_views; do 5 (split; [done|]);
    intros j Hj; unfold job_view; simpl; by autorewrite with cross.
Qed.

(** ** Counting *)

(** The counters of [jobK], statement by statement. *)
Definition tally (k : point) (s : state) : Prop :=
  let p := process s k in let c := job_count s k in
  let n := pCount s k in let f := finish s k in
  0 <= c <= n /\
  match pc (jobs s k) with
  | J_new | J_empty_test => p = 0 /\ c = 0 /\ f = false
  | J_empty_finish => p = 0 /\ c = n /\ f = false
  | J_test => (p = 1 \/ p = 2) /\ c < n /\ f = false
  | J_where => p = 1 /\ c < n /\ f = false
  | J_passed | J_count => p = 2 /\ c < n /\ f = false
  | J_process0 => p = 2 /\ f = false
  | J_where0 | J_check => (p = 0 \/ p = 1) /\ f = false
  | J_finish => (p = 0 \/ p = 1) /\ c = n /\ f = false
  | J_signal_last | J_unlock_last | J_exit => (p = 0 \/ p = 1) /\ c = n /\ f = true
  | _ => (p = 0 \/ p = 1) /\ c < n /\ f = false
  end.

Lemma tally_view k s s' : job_view k s' = job_view k s -> tally k s -> tally k s'.
Proof. unfold job_view, tally. intros [= -> -> -> -> ->]. done. Qed.

Lemma job_tally k s s' : job_step k s = Next s' -> tally k s -> tally k s'.
Proof.
  unfold job_step, tally. intros H Ht.
  step_cases H; lock_views; simpl; rewrite ?upd_eq; simpl; bool_to_prop;
    intuition (try congruence; try lia).
Qed.

(** What [main] knows at each of its statements. *)
Definition rank (k : point) : nat := match k with P1 => 1 | P2 => 2 | P3 => 3 | P4 => 4 end.
Definition main_ok (s : state) : Prop :=
  match main_at s with
  | M_create i => (i <= 4)%nat /\ (i = 0%nat -> pc0 (job0 s) = A_new) /\
                  forall k, (i <= rank k)%nat -> pc (jobs s k) = J_new /\ init (jobs s k) = false
  | M_join i => forall j, (j < i)%nat -> joinable j s = true
  | M_destroy | M_result => forall j, (j < 5)%nat -> joinable j s = true
  | M_done => (forall j, (j < 5)%nat -> joinable j s = true) /\
              exists before, out s = out (print_result (set_out before s))
  | _ => True
  end.

Definition counted (s : state) : Prop := (forall k, tally k s) /\ main_ok s.

(** A thread that has ended stays so. *)
Lemma joinable_job0 s s' j : job0_step s = Next s' -> joinable j s = true -> joinable j s' = true.
Proof.
  intros H Hj. destruct (job0_view _ _ H) as [Hv _]. destruct j as [|j]; cbn [joinable] in *.
  - unfold job0_step in H. by destruct (pc0 (job0 s)).
  - specialize (Hv (nth j points P4)). apply job_view_jobs in Hv. by rewrite Hv.
Qed.

Lemma joinable_job k s s' j : job_step k s = Next s' -> joinable j s = true -> joinable j s' = true.
Proof.
  intros H Hj. destruct (job_others _ _ _ H) as (_ & _ & H0 & _ & _ & Hv).
  destruct j as [|j]; cbn [joinable] in *; [by rewrite H0|].
  destruct (decide (nth j points P4 = k)) as [Heq|Hne].
  - rewrite Heq in *. unfold job_step in H. by destruct (pc (jobs s k)).
  - specialize (Hv _ Hne). apply job_view_jobs in Hv. by rewrite Hv.
Qed.

Lemma counted_job0 s s' : job0_step s = Next s' -> counted s -> counted s'.
Proof.
  intros H [Ht Hm]. destruct (job0_view _ _ H) as [Hv Hmain]. split.
  - intros k. eapply tally_view; [apply Hv|apply Ht].
  - unfold main_ok in *. rewrite Hmain. destruct (main_at s) eqn:E; try done.
    + destruct Hm as (Hi & H0 & Hn). split; [done|]. split.
      * intros Hz. unfold job0_step in H. by rewrite (H0 Hz) in H.
      * intros k Hk. rewrite (job_view_jobs _ _ _ (Hv k)). auto.
    + intros j Hj. eapply joinable_job0; eauto.
    + intros j Hj. eapply joinable_job0; eauto.
    + intros j Hj. eapply joinable_job0; eauto.
    + exfalso. destruct Hm as [Hj _]. specialize (Hj 0%nat ltac:(lia)). simpl in Hj.
      unfold job0_step in H. by destruct (pc0 (job0 s)).
Qed.

Lemma counted_job k s s' : job_step k s = Next s' -> counted s -> counted s'.
Proof.
  intros H [Ht Hm]. destruct (job_others _ _ _ H) as (_ & Hmain & H0 & Hout & Htick & Hv). split.
  - intros j. destruct (decide (j = k)) as [->|Hne]; [by eapply job_tally|].
    eapply tally_view; [by apply Hv|apply Ht].
  - unfold main_ok in *. rewrite Hmain. destruct (main_at s) eqn:E; try done.
    + destruct Hm as (Hi & Hz & Hn). split; [done|]. split; [by rewrite H0|].
      intros j Hj. destruct (decide (j = k)) as [->|Hne].
      * unfold job_step in H. by rewrite (proj1 (Hn k Hj)) in H.
      * rewrite (job_view_jobs _ _ _ (Hv j Hne)). auto.
    + intros j Hj. eapply joinable_job; eauto.
    + intros j Hj. eapply joinable_job; eauto.
    + intros j Hj. eapply joinable_job; eauto.
    + exfalso. destruct Hm as [Hj _]. specialize (Hj (rank k) ltac:(destruct k; simpl; lia)).
      unfold job_step in H. destruct k; simpl in Hj; by destruct (pc (jobs s _)).
Qed.

(** [pthread_create] number [i] starts [job0] or the job of rank [i]. *)
Lemma start_thread_cases i s : (i <= 4)%nat ->
  (i = 0%nat /\ start_thread i s = job0_at A_lock s) \/
  exists k, i = rank k /\ start_thread i s = job_at k J_empty_test s.
Proof.
  intros Hi. do 4 (destruct i as [|i]; [first [by left|right; first [by exists P1|by exists P2|by exists P3]]|]).
  destruct i as [|i]; [|lia]. right. by exists P4.
Qed.

Lemma rank_inj j k : rank j = rank k -> j = k.
Proof. by destruct j, k. Qed.

(** A thread that is not made yet is made by the next [pthread_create]. *)
Lemma counted_create s i : main_at s = M_create i -> counted s ->
  counted (set_main (if (Z.of_nat i <? 4)%c then M_create (S i) else M_sleep) (start_thread i s)).
Proof.
  intros E [Ht Hm]. unfold main_ok in Hm. rewrite E in Hm. destruct Hm as (Hi & H0 & Hn).
  destruct (start_thread_cases i s Hi) as [[-> ->]|(k & -> & ->)]; (split; [|unfold main_ok; simpl]).
  - intros k. apply (tally_view _ s); [done|apply Ht].
  - split; [lia|]. split; [lia|]. intros k Hk. apply Hn. lia.
  - intros j. specialize (Ht j). unfold tally in *. simpl. destruct (decide (j = k)) as [->|Hne].
    + rewrite upd_eq. simpl. by rewrite (proj1 (Hn k (le_n _))) in Ht.
    + by rewrite upd_ne.
  - destruct (Z.ltb_spec (Z.of_nat (rank k)) 4); [|done].
    split; [lia|]. split; [lia|]. intros j Hj. rewrite upd_ne; [apply Hn; lia|].
    intros ->. lia.
Qed.

Lemma counted_main s s' : main_step s = Next s' -> counted s -> counted s'.
Proof.
  unfold main_step. intros H Hc. destruct (main_at s) eqn:E.
  { injection H as <-. by apply counted_create. }
  all: destruct Hc as [Ht Hm]; unfold main_ok in Hm; rewrite E in Hm; step_cases H.
  all: split; [intros k; apply (tally_view _ s); [done|apply Ht]|]; unfold main_ok; simpl; try done.
  - intros j Hj. lia.
  - intros j Hj. lia.
  - intros j Hj. destruct (decide (j = i)) as [->|Hne]; [done|]. apply Hm. lia.
  - intros j Hj. bool_to_prop. apply Hm. lia.
  - split; [exact Hm|]. eexists. reflexivity.
Qed.

Lemma wake_view t l s s' : wake t l s = Next s' ->
  exists w, s' = set_waiters (upd (waiters s) l w) s.
Proof. unfold wake. case_match; [intros [= <-]; eauto|done]. Qed.

Lemma counted_exec e s s' : exec e s = Next s' -> counted s -> counted s'.
Proof.
  destruct e as [[| |k]|t l|]; simpl; [apply counted_main|apply counted_job0| | |].
  - rewrite jobK_step. apply counted_job.
  - intros [w ->]%wake_view [Ht Hm]. split; [|exact Hm].
    intros k. apply (tally_view _ s); [done|apply Ht].
  - by destruct (main_at s).
Qed.

Lemma start_thread_pCount i s : pCount (start_thread i s) = pCount s.
Proof. by do 5 (destruct i as [|i]; [done|]). Qed.

Lemma exec_pCount e s s' : exec e s = Next s' -> pCount s' = pCount s.
Proof.
  destruct e as [[| |k]|t l|]; simpl.
  - unfold main_step. intros H. step_cases H; simpl; try done; apply start_thread_pCount.
  - unfold job0_step. intros H. by step_cases H; lock_views.
  - rewrite jobK_step. intros H. by apply (job_others k).
  - by intros [w ->]%wake_view.
  - by destruct (main_at s).
Qed.

(** ** The list of vehicles *)

(** The vehicles of [k] among numbers [i], ..., [i + n - 1]. *)
Definition starts_at (rand : nat -> Z) (k : point) (i : nat) : bool :=
  (Z.rem (rand i) 4 + 1 =? num k)%c.
Definition cars (rand : nat -> Z) (k : point) (n i : nat) : Z :=
  Z.of_nat (List.length (List.filter (starts_at rand k) (seq i n))).

Lemma random_point (rand : nat -> Z) i : 0 <= rand i -> exists k, Z.rem (rand i) 4 + 1 = num k.
Proof.
  intros Hr. pose proof (Z.rem_bound_pos (rand i) 4 Hr ltac:(lia)) as Hb.
  assert (Z.rem (rand i) 4 = 0 \/ Z.rem (rand i) 4 = 1 \/ Z.rem (rand i) 4 = 2 \/
    Z.rem (rand i) 4 = 3) as [->|[->|[->| ->]]] by lia; [exists P1|exists P2|exists P3|exists P4]; done.
Qed.

Lemma num_eqb j k : (num j =? num k) = bool_decide (j = k).
Proof. by destruct j, k. Qed.

Lemma cars_S rand j n i k : Z.rem (rand i) 4 + 1 = num k ->
  cars rand j (S n) i = cars rand j n (S i) + (if decide (j = k) then 1 else 0).
Proof.
  intros Hk. unfold cars. cbn [seq List.filter]. unfold starts_at at 1. rewrite Hk, num_eqb.
  destruct (decide (j = k)) as [->|Hne].
  - rewrite bool_decide_true by done. cbn [List.length]. lia.
  - rewrite bool_decide_false by congruence. lia.
Qed.

(** The loop of [create_random_list] fits in the array, and counts. *)
Lemma random_loop_ok rand n : (forall i, 0 <= rand i) -> forall i s,
  (i + n <= List.length (start_point_list s))%nat ->
  exists l o f, random_loop rand n i s = Ok (set_out o (set_pCount f (set_start_point_list l s))) /\
    List.length l = List.length (start_point_list s) /\
    forall k, f k = pCount s k + cars rand k n i.
Proof.
  intros Hr. induction n as [|n IH]; intros i s Hlen.
  - exists (start_point_list s), (out s), (pCount s). destruct s. split; [done|]. split; [done|].
    intros k. unfold cars. simpl. lia.
  - destruct (random_point rand i (Hr i)) as [k Hk].
    cbn [random_loop]. rewrite Hk, aset_ok, point_of_num by lia. simpl.
    set (s1 := set_out _ _). destruct (IH (S i) s1) as (l & o & f & -> & Hl & Hf).
    { subst s1. simpl. rewrite length_insert. lia. }
    exists l, o, f. split; [done|]. split.
    { rewrite Hl. subst s1. simpl. apply length_insert. }
    intros j. rewrite Hf, (cars_S _ _ _ _ k Hk). subst s1. simpl. unfold upd.
    destruct (decide (j = k)) as [->|]; lia.
Qed.

(** The state the threads start from. *)
Lemma boot_ok stdin rand : (forall i, 0 <= rand i) -> read_vehicles stdin <= 20 ->
  exists l o f, boot stdin rand =
    Ok (set_out o (set_pCount f (set_start_point_list l (set_vehicles (read_vehicles stdin) initial)))) /\
    List.length l = 20%nat /\ forall k, f k = cars rand k (Z.to_nat (read_vehicles stdin)) 0.
Proof.
  intros Hr Hv. unfold boot, create_random_list.
  set (s1 := set_out _ (set_vehicles _ initial)).
  destruct (random_loop_ok rand (Z.to_nat (read_vehicles stdin)) Hr 0%nat s1)
    as (l & o & f & -> & Hl & Hf); [subst s1; simpl; lia|].
  subst s1. simpl in *. do 3 eexists. split; [reflexivity|]. split; [exact Hl|].
  intros k. rewrite Hf. lia.
Qed.

Lemma counted_boot f l o v : (forall k, 0 <= f k) ->
  counted (set_out o (set_pCount f (set_start_point_list l (set_vehicles v initial)))).
Proof.
  intros Hf. split.
  - intros k. unfold tally. simpl. specialize (Hf k). intuition lia.
  - unfold main_ok. simpl. split; [lia|]. done.
Qed.

Lemma counted_reachable stdin rand s0 s :
  (forall i, 0 <= rand i) -> read_vehicles stdin <= 20 ->
  boot stdin rand = Ok s0 -> steps any_step s0 s ->
  counted s /\ forall k, pCount s k = cars rand k (Z.to_nat (read_vehicles stdin)) 0.
Proof.
  intros Hr Hv Hb. destruct (boot_ok stdin rand Hr Hv) as (l & o & f & Hb' & Hl & Hf).
  rewrite Hb' in Hb. injection Hb as <-.
  apply (steps_invariant _ (fun s => counted s /\ forall k, pCount s k = cars rand k _ 0)).
  - split; [|exact Hf]. apply counted_boot. intros k. rewrite Hf. unfold cars. lia.
  - intros a b [Hc Hp] Hstep. destruct Hstep as [e a b Hs].
    split; [exact (counted_exec e _ _ Hs Hc)|]. intros k. by rewrite (exec_pCount _ _ _ Hs).
Qed.

(** ** Who may move: the token

    Without spurious wake-ups the signals pass one token around: [main] has it
    until its [switch], [job0] has it from the end of a wait to its next signal,
    a vehicle thread from its wake-up to its signal to [job0].  A signal nobody
    is waiting for loses it. *)
Inductive token := AtMain | AtJob0 | AtJob (k : point) | Lost.
#[export] Instance token_eq_dec : EqDecision token.
Proof. solve_decision. Defined.

(** A vehicle thread without the token: before its first wait, blocked, on its
    way to the next wait, or ended. *)
Definition idle (k : point) (s : state) : Prop :=
  match pc (jobs s k) with
  | J_new | J_empty_test | J_empty_finish | J_lock | J_init_test | J_set_init =>
      init (jobs s k) = false /\ waiters s (LK k) = []
  | J_wait_init | J_wait => init (jobs s k) = true /\ waiters s (LK k) = []
  | J_woken_init | J_woken => init (jobs s k) = true /\ waiters s (LK k) = [TJob k]
  | J_unlock_last | J_exit => waiters s (LK k) = []
  | _ => False
  end.

(** A vehicle thread with the token: [enters] tells whether its [process[k-1]++]
    makes a vehicle enter the crossing or leave it. *)
Definition busy (k : point) (enters : bool) (s : state) : Prop :=
  init (jobs s k) = true /\ waiters s (LK k) = [] /\
  match pc (jobs s k) with
  | J_woken_init | J_woken | J_unlock | J_lock | J_init_test | J_incr =>
      process s k = if enters then 0 else 1
  | J_test => process s k = if enters then 1 else 2
  | J_where => enters = true /\ process s k = 1
  | J_passed | J_count | J_process0 => enters = false /\ process s k = 2
  | J_where0 => enters = false /\ process s k = 0
  | J_check | J_finish | J_signal_last | J_signal =>
      process s k = (if enters then 1 else 0) /\ where_ s = (if enters then num k else 0)
  | _ => False
  end.

(** The vehicles on the crossing: [o1] and [o2], and no other. *)
Definition on_road (o1 o2 : option point) (s : state) : Prop :=
  forall k, process s k = if decide (o1 = Some k \/ o2 = Some k) then 1 else 0.

Definition num_opt (o : option point) : Z := match o with Some k => num k | None => 0 end.

(** [job0] without the token: about to wait, or blocked; and for whose answer. *)
Definition idle0 (s : state) : Prop :=
  match pc0 (job0 s) with
  | A_new | A_lock | A_init_test | A_wait_init => init0 (job0 s) = false /\ waiters s L0 = []
  | A_woken_init => init0 (job0 s) = false /\ waiters s L0 = [TJob0]
  | A_wait | A_wait_facing _ => init0 (job0 s) = true /\ waiters s L0 = []
  | A_woken | A_woken_facing _ => init0 (job0 s) = true /\ waiters s L0 = [TJob0]
  | A_exit => waiters s L0 = []
  | _ => False
  end.
Definition expects (s : state) : option point :=
  match pc0 (job0 s) with
  | A_wait_facing w | A_woken_facing w => Some w
  | _ => None
  end.

(** [job0] with the token, statement by statement: who is on the crossing, and
    how [where], [where_temp] and [temp] say so. *)
Definition settled (s : state) : Prop :=
  temp (job0 s) = false /\ exists o, on_road o None s /\ where_ s = num_opt o.
Definition tick_start (s : state) : Prop :=
  settled s \/
  (temp (job0 s) = true /\ where_ s = 0 /\ exists w, on_road (Some w) None s /\ where_temp s = num w).

Definition work0 (s : state) : Prop :=
  waiters s L0 = [] /\
  match pc0 (job0 s) with
  | A_woken_init | A_set_init => init0 (job0 s) = false /\ tick_start s
  | A_woken | A_unlock | A_lock | A_init_test | A_print | A_sleep | A_passed_index | A_clear _
  | A_start | A_wait_list | A_temp_test => init0 (job0 s) = true /\ tick_start s
  | A_where_temp => init0 (job0 s) = true /\ temp (job0 s) = true /\
      exists w, on_road (Some w) None s /\ where_temp s = num w
  | A_temp_off => init0 (job0 s) = true /\ exists w, on_road (Some w) None s /\ where_ s = num w
  | A_check_off | A_key | A_facing _ | A_not_found | A_first _ | A_finished | A_switch =>
      init0 (job0 s) = true /\ settled s
  | A_signal_free _ => init0 (job0 s) = true /\ temp (job0 s) = false /\ on_road None None s
  | A_restore w _ => init0 (job0 s) = true /\ temp (job0 s) = false /\ on_road (Some w) None s
  | A_signal_facing w k => init0 (job0 s) = true /\ temp (job0 s) = false /\
      k = facing w /\ on_road (Some w) None s
  | A_woken_facing w | A_save w => init0 (job0 s) = true /\
      on_road (Some w) (Some (facing w)) s /\ where_ s = num (facing w)
  | A_temp_on w => init0 (job0 s) = true /\
      on_road (Some w) (Some (facing w)) s /\ where_temp s = num (facing w)
  | A_resume w => init0 (job0 s) = true /\
      ((temp (job0 s) = false /\ on_road (Some w) None s) \/
       (temp (job0 s) = true /\ on_road (Some w) (Some (facing w)) s /\ where_temp s = num (facing w)))
  | _ => False
  end.

(** What holds while [jobK] has the token: [job0] waits for it, and the vehicle
    facing it, if [beside], stays where it is. *)
Definition mission (k : point) (enters beside : bool) (s : state) : Prop :=
  busy k enters s /\ idle0 s /\
  (forall j, j <> k -> process s j = if decide (beside = true /\ j = facing k) then 1 else 0) /\
  expects s = (if enters && beside then Some (facing k) else None) /\
  temp (job0 s) = negb enters && beside /\
  (temp (job0 s) = true -> where_temp s = num (facing k)).

(** At most two vehicles on the crossing, facing each other. *)
Definition facing_only (s : state) : Prop :=
  exists w, forall k, process s k <> 0 -> k = w \/ k = facing w.

Definition holds (tok : token) (s : state) : Prop :=
  (forall k, tok <> AtJob k -> idle k s) /\
  match tok with
  | AtMain => (match main_at s with M_create _ | M_sleep | M_start | M_switch => True | _ => False end) /\
      idle0 s /\ init0 (job0 s) = false /\ temp (job0 s) = false /\ on_road None None s
  | _ => match main_at s with M_create _ | M_sleep | M_start | M_switch => False | _ => True end
  end /\
  match tok with
  | AtMain => True
  | AtJob0 => work0 s
  | AtJob k => exists enters beside, mission k enters beside s
  | Lost => idle0 s /\ facing_only s
  end.

(** ** The token moves, or nothing changes *)

(** What a vehicle thread without the token may change: where it is itself. *)
Definition frame (k : point) (s s' : state) : Prop :=
  process s' = process s /\ where_ s' = where_ s /\ where_temp s' = where_temp s /\
  job0 s' = job0 s /\ main_at s' = main_at s /\ waiters s' L0 = waiters s L0 /\
  forall j, j <> k -> jobs s' j = jobs s j /\ waiters s' (LK j) = waiters s (LK j).

Lemma idle_job k s s' : idle k s -> job_step k s = Next s' -> idle k s' /\ frame k s s'.
Proof.
  unfold idle, job_step. intros Hi H. step_cases H; try done; lock_views; destruct_and?.
  all: simpl; unfold frame; autorewrite with cross; simpl.
  all: try (match goal with
            | W : waiters ?u ?l = _, N : _ ∉ waiters ?u ?l |- _ =>
                exfalso; apply N; rewrite W; set_solver
            end).
  all: repeat match goal with W : waiters ?u ?l = _ |- _ => rewrite W end.
  all: split; [try (split; done); done|].
  all: do 6 (split; [done|]); intros j Hj; by autorewrite with cross.
Qed.

Lemma idle_frame k s s' j : frame k s s' -> j <> k -> idle j s -> idle j s'.
Proof. intros (_ & _ & _ & _ & _ & _ & Hj) Hne. unfold idle. by destruct (Hj j Hne) as [-> ->]. Qed.

Lemma busy_frame k s s' j e : frame k s s' -> j <> k -> busy j e s -> busy j e s'.
Proof.
  intros (Hp & Hw & _ & _ & _ & _ & Hj) Hne. unfold busy.
  by destruct (Hj j Hne) as [-> ->]; rewrite Hp, Hw.
Qed.

Lemma work0_frame k s s' : frame k s s' -> work0 s -> work0 s'.
Proof.
  intros (Hp & Hw & Ht & H0 & _ & HL & _).
  unfold work0, tick_start, settled, on_road. by rewrite Hp, Hw, Ht, H0, HL.
Qed.

Lemma idle0_frame k s s' : frame k s s' -> idle0 s -> idle0 s'.
Proof. intros (_ & _ & _ & H0 & _ & HL & _). unfold idle0. by rewrite H0, HL. Qed.

Lemma mission_frame k s s' j e b : frame k s s' -> j <> k -> mission j e b s -> mission j e b s'.
Proof.
  intros Hf Hne (H1 & H2 & H3). split; [by eapply busy_frame|]. split; [by eapply idle0_frame|].
  destruct Hf as (Hp & _ & Ht & H0 & _ & _ & _). unfold expects in *. by rewrite Hp, Ht, H0.
Qed.

Lemma holds_frame k tok s s' :
  frame k s s' -> idle k s' -> tok <> AtJob k -> holds tok s -> holds tok s'.
Proof.
  intros Hf Hk Hne (Hi & Hm & Ht). pose proof Hf as (Hp & Hw & Hwt & H0 & Hma & HL & Hj).
  split; [|split].
  - intros j Hj'. destruct (decide (j = k)) as [->|Hjk]; [done|]. eapply idle_frame; eauto.
  - destruct tok; rewrite Hma; try done. destruct Hm as (? & ? & ? & ? & ?).
    split; [done|]. split; [by eapply idle0_frame|]. unfold on_road in *. by rewrite H0, Hp.
  - destruct tok as [| |j|]; [done|by eapply work0_frame| |].
    + destruct Ht as (e & b & Hmi). exists e, b. eapply mission_frame; eauto; congruence.
    + destruct Ht as [Ht Hfo]. split; [by eapply idle0_frame|]. unfold facing_only in *. by rewrite Hp.
Qed.

(** *** A vehicle thread with the token *)

(** Its steps up to the signal. *)
Lemma busy_job k e b s s' : mission k e b s -> job_step k s = Next s' ->
  pc (jobs s k) <> J_signal -> pc (jobs s k) <> J_signal_last ->
  mission k e b s' /\ main_at s' = main_at s /\
  forall j, j <> k -> jobs s' j = jobs s j /\ waiters s' (LK j) = waiters s (LK j).
Proof.
  unfold mission, busy, job_step. intros Hm H Hs1 Hs2. step_cases H; try done; lock_views.
  all: destruct_and?; try done.
  all: unfold idle0, expects in *; simpl; autorewrite with cross; simpl.
  all: bool_to_prop.
  all: split; [|split; [done|intros j Hj; by autorewrite with cross]].
  all: repeat match goal with
       | |- _ /\ _ => split
       | |- forall _ : point, _ <> _ -> _ => intros j Hj; autorewrite with cross
       | |- _ => solve [auto | repeat case_match; (lia || congruence || auto)]
       end.
Qed.

(** The crossing as the vehicle thread leaves it to [job0]. *)
Lemma mission_road k e b s : mission k e b s ->
  process s k = (if e then 1 else 0) ->
  if b then on_road (Some (facing k)) (if e then Some k else None) s
  else on_road (if e then Some k else None) None s.
Proof.
  intros (_ & _ & Ho & _) Hp. pose proof (facing_ne k) as Hf.
  destruct b, e; intros j; (destruct (decide (j = k)) as [->|Hj]; [rewrite Hp|rewrite (Ho j Hj)]);
    repeat case_decide; intuition congruence.
Qed.

Lemma on_road_facing w o s : on_road (Some w) o s -> (o = None \/ o = Some (facing w)) ->
  facing_only s.
Proof.
  intros Hr Ho. exists w. intros k Hk. rewrite (Hr k) in Hk. case_decide; [|done].
  destruct Ho as [-> | ->]; intuition congruence.
Qed.

Lemma on_road_none s : on_road None None s -> facing_only s.
Proof. intros Hr. exists P1. intros k Hk. rewrite (Hr k) in Hk. case_decide; intuition congruence. Qed.

Lemma mission_facing_only k e b s : mission k e b s ->
  process s k = (if e then 1 else 0) -> facing_only s.
Proof.
  intros Hm Hp. pose proof (mission_road _ _ _ _ Hm Hp) as Hr.
  destruct b; [eapply on_road_facing; [exact Hr|]|].
  - destruct e; [right; by rewrite facing_facing|by left].
  - destruct e; [eapply on_road_facing; eauto|by apply on_road_none].
Qed.

(** [job0] wakes up with the answer it was waiting for. *)
Lemma mission_work0 k e b s s1 : mission k e b s ->
  process s k = (if e then 1 else 0) -> where_ s = (if e then num k else 0) ->
  waiters s L0 = [TJob0] ->
  process s1 = process s -> where_ s1 = where_ s -> where_temp s1 = where_temp s ->
  job0 s1 = job0 s -> waiters s1 L0 = [] -> work0 s1.
Proof.
  intros Hm Hp Hw HL Ep Ew Et E0 EL. pose proof (mission_road _ _ _ _ Hm Hp) as Hr.
  destruct Hm as (_ & Hi & _ & Hx & Ht & Hwt).
  unfold work0, idle0, expects in *. rewrite E0. split; [done|].
  assert (e && b = false -> tick_start s1) as Hts.
  { intros Heb. unfold tick_start, settled, on_road in *. rewrite E0, Ep, Ew, Et.
    destruct e, b; try discriminate; simpl in Ht.
    - left. split; [done|]. by exists (Some k).
    - right. split; [done|]. split; [done|]. exists (facing k). auto.
    - left. split; [done|]. by exists None. }
  destruct (pc0 (job0 s)); try contradiction; try (destruct Hi; congruence); try congruence;
    destruct Hi as [Hi _].
  - split; [done|]. apply Hts. by destruct (e && b).
  - destruct e, b; try discriminate. injection Hx as ->. simpl in Hr. split; [done|].
    rewrite facing_facing. unfold on_road in *. by rewrite Ep, Ew.
  - split; [done|]. apply Hts. by destruct (e && b).
Qed.

(** The signal of a vehicle thread hands the token to [job0], or loses it. *)
Lemma signal_job0 k e b s s1 :
  holds (AtJob k) s -> mission k e b s ->
  process s k = (if e then 1 else 0) -> where_ s = (if e then num k else 0) ->
  process s1 = process s -> where_ s1 = where_ s -> where_temp s1 = where_temp s ->
  job0 s1 = job0 s -> main_at s1 = main_at s -> waiters s1 L0 = tail (waiters s L0) ->
  (forall j, j <> k -> jobs s1 j = jobs s j /\ waiters s1 (LK j) = waiters s (LK j)) ->
  idle k s1 -> exists tok, holds tok s1.
Proof.
  intros (Hi & Hm & _) Hmi Hp Hw Ep Ew Et E0 Ema EL Ej Hk.
  assert (forall j, idle j s1) as Hidle.
  { intros j. destruct (decide (j = k)) as [->|Hj]; [done|]. destruct (Ej j Hj) as [Ej1 Ej2].
    unfold idle. rewrite Ej1, Ej2. apply (Hi j). congruence. }
  assert (waiters s L0 = [] \/ waiters s L0 = [TJob0]) as [HL|HL].
  { destruct Hmi as (_ & Hi0 & _). unfold idle0 in Hi0.
    destruct (pc0 (job0 s)); try contradiction; try (destruct Hi0; auto); auto. }
  - exists Lost. rewrite HL in EL. split; [auto|]. split; [by rewrite Ema|]. split.
    + destruct Hmi as (_ & Hi0 & _). unfold idle0 in *. rewrite HL in Hi0. by rewrite E0, EL.
    + unfold facing_only. rewrite Ep. exact (mission_facing_only _ _ _ _ Hmi Hp).
  - exists AtJob0. rewrite HL in EL. split; [auto|]. split; [by rewrite Ema|].
    by eapply mission_work0.
Qed.

(** One step of a vehicle thread. *)
Lemma holds_job k tok s s' : holds tok s -> job_step k s = Next s' -> exists tok', holds tok' s'.
Proof.
  intros Hh H. destruct (decide (tok = AtJob k)) as [->|Hne].
  - pose proof Hh as (Hi & Hma & e & b & Hmi).
    destruct (decide (pc (jobs s k) = J_signal \/ pc (jobs s k) = J_signal_last)) as [Hs|Hs].
    + pose proof Hmi as (Hb & _). unfold busy in Hb. unfold job_step in H.
      destruct Hs as [Hs|Hs]; rewrite Hs in H, Hb; injection H as <-; destruct_and?.
      all: eapply signal_job0; [exact Hh|exact Hmi|..]; try done.
      all: try (intros j Hj; simpl; by autorewrite with cross).
      all: unfold idle; simpl; autorewrite with cross; simpl; auto.
    + destruct (busy_job k e b s s' Hmi H) as (Hm' & Em & Ej); [tauto..|].
      exists (AtJob k). split; [|split; [by rewrite Em|eauto]].
      intros j Hj. assert (j <> k) as Hjk by congruence. destruct (Ej j Hjk) as [E1 E2].
      unfold idle. rewrite E1, E2. by apply Hi.
  - exists tok. destruct Hh as (Hi & Hrest). pose proof (Hi k Hne) as Hk.
    destruct (idle_job k s s' Hk H) as [Hk' Hf]. eapply holds_frame; eauto. by split.
Qed.

(** *** [job0] *)

(** What [job0] never changes. *)
Definition frame0 (s s' : state) : Prop :=
  process s' = process s /\ main_at s' = main_at s /\ jobs s' = jobs s /\
  forall k, waiters s' (LK k) = waiters s (LK k).

Lemma idle_frame0 s s' k : frame0 s s' -> idle k s -> idle k s'.
Proof. intros (_ & _ & Hj & Hw). unfold idle. by rewrite Hj, Hw. Qed.

Lemma idle0_step s s' : idle0 s -> job0_step s = Next s' ->
  idle0 s' /\ expects s' = expects s /\ init0 (job0 s') = init0 (job0 s) /\
  temp (job0 s') = temp (job0 s) /\ where_ s' = where_ s /\ where_temp s' = where_temp s /\
  frame0 s s'.
Proof.
  unfold idle0, job0_step, expects, frame0. intros Hi H.
  step_cases H; try contradiction; lock_views; try (destruct Hi; congruence).
  all: try (match goal with
            | Hw : _ /\ waiters ?u ?l = _, N : _ ∉ waiters ?u ?l |- _ =>
                exfalso; apply N; rewrite (proj2 Hw); set_solver
            end).
  all: simpl; autorewrite with cross; destruct Hi as [? Hw]; rewrite ?Hw; auto 10.
Qed.

(** A step of [job0] with the token, other than a signal: it keeps the token, or
    gives up because nothing is left to do or to wait for. *)
Definition signals (p : job0_pc) : bool :=
  match p with A_signal_free _ | A_signal_facing _ _ | A_resume _ => true | _ => false end.

Lemma settled_road s : settled s -> facing_only s.
Proof.
  intros [_ ([w|] & Hr & _)]; [eapply on_road_facing; eauto|by apply on_road_none].
Qed.

(** The two [switch]es find the vehicle [where] speaks of. *)
Lemma switch_settled s : settled s ->
  match switch_where (where_ s) (key s) with
  | A_wait => True
  | A_signal_free _ => on_road None None s
  | A_restore w _ | A_resume w => on_road (Some w) None s
  | A_signal_facing w k => k = facing w /\ on_road (Some w) None s
  | _ => False
  end.
Proof.
  intros [_ ([w|] & Hr & ->)]; unfold switch_where; simpl.
  - rewrite point_of_num. destruct (point_of (key s)) as [k|]; [|done].
    by destruct (decide (k = facing w)).
  - by destruct (point_of (key s)).
Qed.

Lemma work0_step s s' : work0 s -> job0_step s = Next s' -> signals (pc0 (job0 s)) = false ->
  frame0 s s' /\ (work0 s' \/ (idle0 s' /\ facing_only s')).
Proof.
  unfold job0_step. intros Hw H Hsig. pose proof Hw as [HL Hpc].
  destruct (decide (pc0 (job0 s) = A_switch)) as [Hsw|Hsw].
  { rewrite Hsw in H, Hpc. injection H as <-. destruct Hpc as [Hin Hset].
    pose proof (switch_settled s Hset) as Hs. pose proof (settled_road s Hset) as Hfo.
    split; [by repeat split|]. unfold work0, idle0. simpl. destruct Hset as [Ht _].
    destruct (switch_where (where_ s) (key s)); try contradiction; auto 10. }
  step_cases H; try contradiction; lock_views; try discriminate; try done.
  all: split; [repeat split; simpl; intros; by autorewrite with cross|].
  all: try (left; exact (conj HL Hpc)).
  all: unfold work0; simpl; rewrite HL.
  - left. split; [done|]. by destruct Hpc.
  - by destruct Hpc.
  - left. split; [done|]. split; [done|]. exact (proj2 Hpc).
  - left. split; [done|]. destruct Hpc as [Hi [[Hf _]|(Ht & _ & Hw')]]; [congruence|]. auto.
  - left. split; [done|]. destruct Hpc as [Hi [Hs|(Ht & _)]]; [|congruence]. auto.
  - left. split; [done|]. split; [exact (proj1 Hpc)|]. exact (proj2 (proj2 Hpc)).
  - left. split; [done|]. destruct Hpc as (Hi & w & Hr & Hw'). split; [done|]. split; [done|].
    exists (Some w). split; [exact Hr|exact Hw'].
  - right. split; [exact HL|]. exact (settled_road _ (proj2 Hpc)).
  - left. split; [done|]. destruct Hpc as (Hi & Ht & Hr). auto.
  - left. split; [done|]. destruct Hpc as (Hi & Ht & Hr). auto.
Qed.

(** *** Signals to a vehicle thread *)

(** Waking a vehicle thread hands it the token; waking nobody loses it. *)
Lemma signal_jobK k (e b : bool) s s1 :
  (forall j, idle j s) -> idle0 s1 -> facing_only s1 ->
  process s1 = process s -> jobs s1 = jobs s ->
  (forall j, waiters s1 (LK j) = if decide (j = k) then tail (waiters s (LK k)) else waiters s (LK j)) ->
  match main_at s1 with M_create _ | M_sleep | M_start | M_switch => False | _ => True end ->
  process s k = (if e then 0 else 1) ->
  (forall j, j <> k -> process s j = if decide (b = true /\ j = facing k) then 1 else 0) ->
  expects s1 = (if e && b then Some (facing k) else None) ->
  temp (job0 s1) = negb e && b ->
  (temp (job0 s1) = true -> where_temp s1 = num (facing k)) ->
  exists tok, holds tok s1.
Proof.
  intros Hi H0 Hfo Ep Ej Ew Hma Hp Ho Hx Ht Hwt. pose proof (Hi k) as Hk. unfold idle in Hk.
  assert (forall j, waiters s1 (LK j) = waiters s (LK j) -> idle j s1) as Hsame.
  { intros j Hj. specialize (Hi j). unfold idle in *. by rewrite Ej, Hj. }
  assert (forall j, j <> k -> idle j s1) as Hother.
  { intros j Hj. apply Hsame. rewrite Ew. by rewrite decide_False. }
  assert (waiters s (LK k) = [] \/ waiters s (LK k) = [TJob k]) as [HL|HL].
  { destruct (pc (jobs s k)); try contradiction; try (destruct Hk; auto); auto. }
  - exists Lost. split; [|by split]. intros j _. apply Hsame. rewrite Ew.
    destruct (decide (j = k)) as [->|]; [by rewrite HL|done].
  - exists (AtJob k). split; [|split; [done|]].
    + intros j Hj. apply Hother. congruence.
    + exists e, b. split; [|rewrite Ep; auto].
      unfold busy. rewrite Ej, Ew, decide_True, HL, Ep by done.
      destruct (pc (jobs s k)); try contradiction; try (destruct Hk; congruence); try congruence;
        destruct Hk; auto.
Qed.

Lemma waiters_signal k s j :
  waiters (signal (LK k) s) (LK j) = if decide (j = k) then tail (waiters s (LK k)) else waiters s (LK j).
Proof. simpl. unfold upd. repeat case_decide; naive_solver. Qed.

(** One step of [job0]. *)
Lemma holds_job0 tok s s' : holds tok s -> job0_step s = Next s' -> exists tok', holds tok' s'.
Proof.
  intros Hh H. pose proof Hh as (Hi & Hma & Ht).
  destruct (decide (tok = AtJob0)) as [->|Hne].
  - destruct (signals (pc0 (job0 s))) eqn:Hsig.
    + pose proof Ht as [HL Hpc]. unfold job0_step in H.
      assert (forall j, idle j s) as Hall by (intros j; by apply Hi).
      destruct (pc0 (job0 s)) eqn:E; try discriminate Hsig; injection H as <-.
      * destruct Hpc as (Hi0 & Htm & Hr).
        refine (signal_jobK k true false s (job0_at A_wait (signal (LK k) s))
                  Hall (conj Hi0 HL) _ eq_refl eq_refl _ Hma _ _ eq_refl Htm _).
        -- exact (on_road_none s Hr).
        -- exact (waiters_signal k s).
        -- rewrite (Hr k). case_decide; naive_solver.
        -- intros j Hj. rewrite (Hr j). repeat case_decide; naive_solver.
        -- simpl. congruence.
      * destruct Hpc as (Hi0 & Htm & -> & Hr). pose proof (facing_ne w) as Hf.
        refine (signal_jobK (facing w) true true s (job0_at (A_wait_facing w) (signal (LK (facing w)) s))
                  Hall (conj Hi0 HL) _ eq_refl eq_refl _ Hma _ _ _ Htm _).
        -- refine (on_road_facing w None s Hr _). by left.
        -- exact (waiters_signal (facing w) s).
        -- rewrite (Hr _). case_decide; naive_solver.
        -- intros j Hj. rewrite (Hr j), facing_facing. repeat case_decide; naive_solver.
        -- simpl. by rewrite facing_facing.
        -- simpl. congruence.
      * destruct Hpc as (Hi0 & Hcase).
        assert (exists b, temp (job0 s) = b /\ on_road (Some w) (if b then Some (facing w) else None) s
                /\ (temp (job0 s) = true -> where_temp s = num (facing w))) as (b & Htm & Hr & Hwt).
        { destruct Hcase as [[? ?]|(? & ? & ?)]; [exists false|exists true]; naive_solver congruence. }
        pose proof (facing_ne w) as Hf.
        refine (signal_jobK w false b s (job0_at A_wait (signal (LK w) s))
                  Hall (conj Hi0 HL) _ eq_refl eq_refl _ Hma _ _ eq_refl Htm Hwt).
        -- refine (on_road_facing w _ s Hr _). destruct b; auto.
        -- exact (waiters_signal w s).
        -- rewrite (Hr w). case_decide; naive_solver.
        -- intros j Hj. rewrite (Hr j). destruct b; repeat case_decide; naive_solver.
    + destruct (work0_step s s' Ht H Hsig) as (Hf & Hres).
      pose proof Hf as (_ & Hm & _).
      destruct Hres as [Hw|[Hw Hfo]]; [exists AtJob0|exists Lost].
      all: split; [intros j _; eapply idle_frame0; [exact Hf|by apply Hi]|]; by rewrite Hm.
  - assert (idle0 s) as Hi0.
    { destruct tok as [| |k|]; [tauto|done| |tauto]. by destruct Ht as (e & b & _ & ? & _). }
    destruct (idle0_step s s' Hi0 H) as (Hi0' & Hx & Hin & Htm & Hw & Hwt & Hf).
    pose proof Hf as (Hp & Hm & Hj & Hwl).
    exists tok. split; [intros j Hj'; eapply idle_frame0; [exact Hf|by apply Hi]|].
    rewrite Hm. unfold on_road, facing_only in *. destruct tok as [| |k|]; [|done| |].
    + rewrite Hin, Htm, Hp. tauto.
    + split; [done|]. destruct Ht as (e & b & Hb & _ & Ho & Hx' & Ht' & Hwt').
      exists e, b. unfold mission, busy in *. rewrite Hj, Hwl, Hp, Hw, Hx, Htm, Hwt. auto 10.
    + rewrite Hp. tauto.
Qed.

(** *** [main] *)
Lemma holds_create tok s i : main_at s = M_create i -> counted s -> holds tok s ->
  exists tok', holds tok'
    (set_main (if (Z.of_nat i <? 4)%c then M_create (S i) else M_sleep) (start_thread i s)).
Proof.
  intros E [_ Hmo] (Hi & Hma & _). unfold main_ok in Hmo. rewrite E in Hmo.
  destruct Hmo as (Hi4 & Hnew0 & Hnew).
  assert (tok = AtMain) as -> by (destruct tok; rewrite E in Hma; [done|contradiction..]).
  destruct Hma as (_ & H0 & Hin & Htm & Hr). exists AtMain.
  assert (match (if (Z.of_nat i <? 4)%c then M_create (S i) else M_sleep) with
          | M_create _ | M_sleep | M_start | M_switch => True | _ => False end) as Hm'.
  { by destruct (Z.of_nat i <? 4). }
  destruct (start_thread_cases i s Hi4) as [[-> ->]|(k & -> & ->)]; (split; [|split; [split; [exact Hm'|]|done]]).
  - intros j _. exact (Hi j ltac:(done)).
  - split; [|done]. unfold idle0 in *. simpl. by rewrite (Hnew0 eq_refl) in H0.
  - intros j _. specialize (Hi j ltac:(done)). unfold idle in *. simpl.
    destruct (decide (j = k)) as [->|Hj]; [|by rewrite upd_ne].
    rewrite upd_eq. simpl. by rewrite (proj1 (Hnew k (le_n _))) in Hi.
  - done.
Qed.

Lemma idle0_first s : idle0 s -> init0 (job0 s) = false -> expects s = None.
Proof.
  unfold idle0, expects. destruct (pc0 (job0 s)); try done; intros [? ?] ?; congruence.
Qed.

(** One step of [main]. *)
Lemma holds_main tok s s' : counted s -> holds tok s -> main_step s = Next s' ->
  exists tok', holds tok' s'.
Proof.
  intros Hc Hh H. unfold main_step in H. destruct (main_at s) eqn:E.
  { injection H as <-. by apply (holds_create tok). }
  all: pose proof Hh as (Hi & Hma & Ht); step_cases H.
  all: try (exists tok; split; [exact Hi|]; split; [by destruct tok; rewrite E in Hma|exact Ht]).
  all: assert (tok = AtMain) as -> by (destruct tok; rewrite E in Hma; [done|contradiction..]);
    destruct Hma as (_ & H0 & Hin & Htm & Hr);
    assert (forall j, idle j s) as Hall by (intros j; by apply Hi).
  - refine (signal_jobK p true false s (set_main (M_join 0) (signal (LK p) s))
              Hall H0 (on_road_none s Hr) eq_refl eq_refl (waiters_signal p s) I _ _
              (idle0_first s H0 Hin) Htm _); simpl.
    + rewrite (Hr p). case_decide; naive_solver.
    + intros j Hj. rewrite (Hr j). repeat case_decide; naive_solver.
    + congruence.
  - exists Lost. split; [intros j _; exact (Hall j)|]. split; [done|].
    split; [exact H0|exact (on_road_none s Hr)].
Qed.

Lemma holds_boot f l o v :
  holds AtMain (set_out o (set_pCount f (set_start_point_list l (set_vehicles v initial)))).
Proof. split; [by intros k _|]. split; [|done]. repeat split. Qed.

Lemma holds_facing tok s : holds tok s -> facing_only s.
Proof.
  intros (_ & Hm & Ht). destruct tok as [| |k|]; [apply on_road_none; tauto| | |by destruct Ht].
  - destruct Ht as [_ Ht]. unfold tick_start, settled in Ht.
    destruct (pc0 (job0 s)); destruct_and?; destruct_or?; destruct_and?; try contradiction;
      repeat match goal with
      | Hx : exists _, _ |- _ => destruct Hx as [? ?]; destruct_and?
      end;
      try match goal with
      | Hr : on_road None None _ |- _ => by apply on_road_none
      | Hr : on_road (Some _) _ _ |- _ => eapply on_road_facing; [exact Hr|auto]
      | Hr : on_road ?o None _ |- _ =>
          destruct o; [eapply on_road_facing; [exact Hr|auto]|by apply on_road_none]
      end.
  - destruct Ht as (e & b & Hm'). destruct Hm' as (_ & _ & Ho & _). exists k. intros j Hj.
    destruct (decide (j = k)) as [->|Hjk]; [by left|right]. rewrite (Ho j Hjk) in Hj.
    case_decide; [tauto|done].
Qed.

(** In every state reached without spurious wake-ups somebody, or nobody, has
    the token. *)
Lemma holds_reachable stdin rand s0 s :
  (forall i, 0 <= rand i) -> read_vehicles stdin <= 20 ->
  boot stdin rand = Ok s0 -> steps quiet_step s0 s -> exists tok, holds tok s.
Proof.
  intros Hr Hv Hb. destruct (boot_ok stdin rand Hr Hv) as (l & o & f & Hb' & Hl & Hf).
  rewrite Hb' in Hb. injection Hb as <-. intros Hs.
  enough (counted s /\ exists tok, holds tok s) by tauto. revert Hs.
  apply (steps_invariant _ (fun s => counted s /\ exists tok, holds tok s)).
  - split; [|exists AtMain; apply holds_boot]. apply counted_boot. intros k. rewrite Hf. unfold cars. lia.
  - intros a b [Hc [tok Hh]] Hstep. destruct Hstep as [t a b Hs].
    split; [exact (counted_exec (Run t) _ _ Hs Hc)|]. destruct t as [| |k]; simpl in Hs.
    + eapply holds_main; eauto.
    + eapply holds_job0; eauto.
    + rewrite jobK_step in Hs. eapply holds_job; eauto.
Qed.
