(* ===== verification/CrossMemory.v ===== *)
(** * The arrays of the crossroad (src/Assignment_6/program.c)

    Which accesses to start_point_list[20], waiting_list[20] and passed_list[10] can
    leave the array.  The indices follow the token of [CrossSafety]: between the
    moment [job0] resets passed_index and the pass of a vehicle nobody else may use
    it, so one vehicle passes in a tick. *)
From Stdlib Require Import ZArith Lia Ascii String.
From S2P Require Import Prelude CLib Crossroad CrossSafety.

Local Open Scope Z_scope.

(** ** Lengths and indices, in any interleaving *)
Definition idx_set (s : state) : Prop := exists i, idx (job0 s) = Some i /\ 0 <= i < 20.
Definition arrays (s : state) : Prop :=
  length (start_point_list s) = 20%nat /\ length (passed_list s) = 10%nat /\
  length (waiting_list s) = 20%nat /\ 0 <= passed_index s <= 10 /\
  0 <= waiting_index s <= list_index s /\ list_index s <= 20 /\
  match pc0 (job0 s) with
  | A_wait_list => waiting_index s < list_index s
  | A_facing _ | A_not_found | A_first _ | A_finished | A_switch => key s = 0 \/ idx_set s
  | A_restore _ _ => idx_set s
  | _ => True
  end.

Lemma aget_index {A} (l : list A) i x : aget l i = Ok x -> 0 <= i < Z.of_nat (length l).
Proof.
  unfold aget. destruct (Z.leb_spec 0 i); [|done]. destruct (l !! Z.to_nat i) eqn:E; [|done].
  apply lookup_lt_Some in E. lia.
Qed.
Lemma aset_index {A} (l l' : list A) i x : aset l i x = Ok l' -> length l' = length l /\ 0 <= i < Z.of_nat (length l).
Proof.
  intros H. split; [by eapply aset_length|]. unfold aset in H.
  destruct ((0 <=? i)%c && (i <? Z.of_nat (length l))%c)%bool eqn:E; [|done]. bool_to_prop. lia.
Qed.
Lemma aget_some {A} (l : list A) i : 0 <= i < Z.of_nat (length l) -> exists x, aget l i = Ok x.
Proof.
  intros H. destruct (lookup_lt_is_Some_2 l (Z.to_nat i)) as [x Hx]; [lia|]. exists x.
  replace i with (Z.of_nat (Z.to_nat i)) by lia. by apply aget_ok.
Qed.
Lemma aset_some {A} (l : list A) i (x : A) : 0 <= i < Z.of_nat (length l) -> exists l', aset l i x = Ok l'.
Proof. intros H. replace i with (Z.of_nat (Z.to_nat i)) by lia. eexists. apply aset_ok. lia. Qed.

Lemma take_waiting_arrays i v s s' : take_waiting i v s = Ok s' ->
  exists l, length l = length (waiting_list s) /\ s' = set_waiting_list l (set_key v s).
Proof.
  unfold take_waiting. destruct (aset (waiting_list s) (Z.of_nat i) 0) as [l|] eqn:E; simpl; [|done].
  intros [= <-]. exists l. by apply aset_length in E.
Qed.
Lemma take_waiting_ok i v s : (Z.of_nat i < 20) -> length (waiting_list s) = 20%nat ->
  exists s', take_waiting i v s = Ok s'.
Proof.
  intros Hi Hl. unfold take_waiting. destruct (aset_some (waiting_list s) (Z.of_nat i) 0) as [l ->]; [lia|].
  simpl. by eexists.
Qed.

Ltac lengths :=
  repeat match goal with
  | H : acquire _ _ _ = Some _ |- _ => apply acquire_view in H as ->
  | H : end_wait _ _ _ = Some _ |- _ => apply end_wait_view in H as [? ->]
  | H : take_waiting _ _ _ = Ok _ |- _ => apply take_waiting_arrays in H as (? & ? & ->)
  | H : aset _ _ _ = Ok _ |- _ => apply aset_index in H as [? ?]
  | H : aget _ _ = Ok _ |- _ => apply aget_index in H
  end.

Lemma arrays_job0 s s' : arrays s -> job0_step s = Next s' -> arrays s'.
Proof.
  unfold arrays, job0_step. intros (L1 & L2 & L3 & Hp & Hw & Hl & Hpc) H.
  step_cases H; lengths; bool_to_prop; simpl; split_and!; try done; try lia; try tauto.
  1,2: right; eexists; split; [reflexivity|lia].
  destruct Hpc as [Hk|Hi].
  - rewrite Hk. unfold switch_where. repeat case_match; simplify_eq; done.
  - assert (forall p, idx_set (job0_at p s)) as Hset by (intros p; exact Hi).
    unfold switch_where. repeat case_match; simplify_eq; auto.
Qed.
Lemma arrays_job k s s' : arrays s -> job_step k s = Next s' -> arrays s'.
Proof.
  unfold arrays, job_step. intros (L1 & L2 & L3 & Hp & Hw & Hl & Hpc) H.
  step_cases H; lengths; bool_to_prop; simpl; split_and!; try done; lia.
Qed.
(** Starting a thread puts it at its first statement. *)
Lemma start_thread_arrays i s : arrays s -> arrays (start_thread i s).
Proof. unfold arrays, start_thread. intros (L1 & L2 & L3 & Hp & Hw & Hl & Hpc). destruct i as [|[|[|[|i]]]]; simpl; split_and!; try done; lia. Qed.
Lemma arrays_main s s' : arrays s -> main_step s = Next s' -> arrays s'.
Proof.
  intros Ha H. unfold main_step in H. destruct (main_at s) eqn:E.
  { injection H as <-. by pose proof (start_thread_arrays i s Ha). }
  all: unfold arrays in *; destruct Ha as (L1 & L2 & L3 & Hp & Hw & Hl & Hpc).
  all: step_cases H; lengths; simpl; split_and!; try done; try lia.
  all: destruct (pc0 (job0 s)); try done; lia.
Qed.
Lemma arrays_step t s s' : arrays s -> thread_step t s = Next s' -> arrays s'.
Proof.
  destruct t as [| |k]; simpl; [apply arrays_main|apply arrays_job0|]. rewrite jobK_step. apply arrays_job.
Qed.

(** Spurious wake-ups change neither the arrays nor where [job0] is. *)
Lemma arrays_exec e s s' : arrays s -> exec e s = Next s' -> arrays s'.
Proof.
  destruct e as [t|t l|]; simpl; [apply arrays_step| |by destruct (main_at s)].
  intros Ha [w ->]%wake_view. exact Ha.
Qed.
Lemma arrays_boot stdin rand s0 : (forall i, 0 <= rand i) -> read_vehicles stdin <= 20 ->
  boot stdin rand = Ok s0 -> arrays s0.
Proof.
  intros Hr Hv Hb. destruct (boot_ok stdin rand Hr Hv) as (l & o & f & Hb' & Hl & Hf).
  rewrite Hb' in Hb. injection Hb as <-. unfold arrays. simpl. by split_and!.
Qed.
Lemma arrays_reachable stdin rand s0 s : (forall i, 0 <= rand i) -> read_vehicles stdin <= 20 ->
  boot stdin rand = Ok s0 -> steps any_step s0 s -> arrays s.
Proof.
  intros Hr Hv Hb. apply (steps_invariant _ arrays); [by eapply arrays_boot|].
  intros a b Ha Hab. destruct Hab as [e a b Hs]. by apply (arrays_exec e a).
Qed.
Lemma waiting_room s : arrays s -> pc0 (job0 s) = A_wait_list -> 0 <= waiting_index s < 20.
Proof. intros (_ & _ & _ & _ & Hw & Hl & Hpc) E. rewrite E in Hpc. lia. Qed.

(** ** Whose turn it is to pass *)
(** The vehicle thread has been woken to let its vehicle leave, and has not yet. *)
Definition leaving (k : point) (s : state) : Prop :=
  init (jobs s k) = true /\ waiters s (LK k) = [] /\
  match pc (jobs s k) with
  | J_woken_init | J_woken | J_unlock | J_lock | J_init_test | J_incr => process s k = 1
  | J_test => process s k = 2
  | J_passed => True
  | _ => False
  end.
(** [job0] is between the reset of passed_index and the signal to the vehicle that leaves. *)
Definition cleared (s : state) : bool :=
  match pc0 (job0 s) with
  | A_clear _ | A_start | A_wait_list | A_temp_test | A_where_temp | A_temp_off | A_check_off | A_key
  | A_facing _ | A_not_found | A_first _ | A_finished | A_switch | A_signal_free _ | A_restore _ _
  | A_signal_facing _ _ | A_wait_facing _ | A_woken_facing _ | A_save _ | A_temp_on _ | A_resume _ => true
  | _ => false
  end.
Definition before_switch (s : state) : bool :=
  match main_at s with M_create _ | M_sleep | M_start | M_switch => true | _ => false end.
Definition room (s : state) : Prop :=
  (cleared s = true \/ before_switch s = true \/ (exists k, leaving k s) -> passed_index s = 0) /\
  (match main_at s with M_create _ | M_sleep | M_start => list_index s = 0 | _ => True end).

Lemma idle_not_leaving k s : idle k s -> ~ leaving k s.
Proof.
  unfold idle, leaving. intros Hi (H1 & H2 & H3). rewrite H2 in Hi.
  destruct (pc (jobs s k)); try contradiction; destruct Hi; congruence.
Qed.

(** In front of its [switch], [main] has the token and [job0] is before its first wake-up. *)
Lemma before_idle0 tok s : holds tok s -> before_switch s = true -> tok = AtMain /\ idle0 s /\ init0 (job0 s) = false.
Proof.
  intros (_ & Hm & _) Hb. unfold before_switch in Hb. destruct tok.
  - tauto.
  - by destruct (main_at s).
  - by destruct (main_at s).
  - by destruct (main_at s).
Qed.
Lemma before_not_cleared tok s : holds tok s -> before_switch s = true -> cleared s = false.
Proof.
  intros Hh Hb. destruct (before_idle0 tok s Hh Hb) as (_ & Hi & Hf). unfold idle0, cleared in *.
  destruct (pc0 (job0 s)); try done; destruct Hi; congruence.
Qed.

Lemma room_job0 tok s s' : holds tok s -> room s -> job0_step s = Next s' -> room s'.
Proof.
  intros Hh [Hr Hm] H. pose proof (before_not_cleared tok s Hh) as Hbc. unfold cleared in Hbc.
  assert (list_index s' = list_index s \/ before_switch s = false) as Hli.
  { unfold job0_step in H. destruct (before_switch s) eqn:Hb; [left|by right]. specialize (Hbc eq_refl).
    step_cases H; try discriminate; by lock_views. }
  destruct (job0_view s s' H) as [_ Ema].
  split.
  2:{ rewrite Ema. unfold before_switch in Hli. by destruct Hli as [-> |]; destruct (main_at s). }
  assert (passed_index s' = 0 \/ (passed_index s' = passed_index s /\ (cleared s' = true -> cleared s = true) /\
    forall k, leaving k s' -> leaving k s \/ cleared s = true)) as [Hp|(Hp & Hc & Hl)].
  { unfold job0_step in H. step_cases H; lock_views; simpl; try (by left); right; (split; [done|]).
    all: unfold cleared, leaving; simpl; match goal with E : pc0 (job0 _) = _ |- _ => rewrite E end.
    all: split; [done|intros ?; rewrite ?upd_ne by done; first [by left|by right]]. }
  - done.
  - rewrite Hp. unfold before_switch in *. rewrite Ema. intros [H1|[H1|[k H1]]]; apply Hr; [tauto|tauto|].
    destruct (Hl k H1); eauto.
Qed.

(** A step of a vehicle thread that keeps passed_index makes nobody leave. *)
Lemma leaving_other k s s' j : job_step k s = Next s' -> j <> k -> leaving j s' -> leaving j s.
Proof.
  unfold job_step. intros H Hj. step_cases H; lock_views; unfold leaving; simpl; rewrite ?upd_ne by congruence; done.
Qed.
Lemma leaving_busy k e s s' : busy k e s -> job_step k s = Next s' -> leaving k s' -> leaving k s.
Proof.
  unfold job_step, busy. intros (Hi & Hw & Hpc) H. step_cases H; lock_views; unfold leaving; simpl; bool_to_prop;
    rewrite ?upd_eq; simpl; intros (H1 & H2 & H3); try contradiction.
  all: match goal with E : pc (jobs _ _) = _ |- _ => rewrite E end; rewrite ?Hi, ?Hw; split_and!; try done; lia.
Qed.
Lemma passed_same k s s' : job_step k s = Next s' -> pc (jobs s k) <> J_passed ->
  passed_index s' = passed_index s /\ list_index s' = list_index s.
Proof. unfold job_step. intros H Hp. step_cases H; lock_views; try done. Qed.

Lemma room_job k tok s s' : holds tok s -> room s -> job_step k s = Next s' -> room s'.
Proof.
  intros Hh [Hr Hm] H. pose proof Hh as (Hi & Hma & Ht).
  destruct (job_others k s s' H) as (_ & Ema & E0 & _).
  assert (list_index s' = list_index s) as Eli.
  { unfold job_step in H. by step_cases H; lock_views. }
  split; [|by rewrite Ema, Eli].
  assert (cleared s' = cleared s /\ before_switch s' = before_switch s) as [Ec Eb].
  { unfold cleared, before_switch. by rewrite E0, Ema. }
  rewrite Ec, Eb.
  destruct (decide (pc (jobs s k) = J_passed)) as [Hp|Hp].
  - destruct (decide (tok = AtJob k)) as [->|Hne].
    2:{ specialize (Hi k Hne). unfold idle in Hi. by rewrite Hp in Hi. }
    destruct Ht as (e & b & (Hb & H0 & _ & Hx & _)). unfold busy in Hb. rewrite Hp in Hb. destruct Hb as (_ & _ & -> & _).
    intros [H1|[H1|[j H1]]]; exfalso.
    + unfold cleared, idle0, expects in *. destruct (pc0 (job0 s)); try done; naive_solver.
    + unfold before_switch in H1. by destruct (main_at s).
    + destruct (decide (j = k)) as [->|Hj].
      * unfold job_step in H. rewrite Hp in H. step_cases H. destruct H1 as (_ & _ & H1). simpl in H1.
        by rewrite upd_eq in H1.
      * apply (idle_not_leaving j s); [apply Hi; congruence|by eapply leaving_other].
  - destruct (passed_same k s s' H Hp) as [-> _]. intros [H1|[H1|[j H1]]]; apply Hr; [by left|by right; left|].
    right; right. exists j. destruct (decide (j = k)) as [->|Hj]; [|by eapply leaving_other].
    destruct (decide (tok = AtJob k)) as [->|Hne].
    + destruct Ht as (e & b & Hb & _). by eapply leaving_busy.
    + destruct (idle_job k s s' (Hi k Hne) H) as [Hk _]. by apply idle_not_leaving in Hk.
Qed.

Lemma start_thread_keeps i s : passed_index (start_thread i s) = passed_index s /\ list_index (start_thread i s) = list_index s.
Proof. by destruct i as [|[|[|[|i]]]]. Qed.
Lemma room_main s s' : room s -> main_step s = Next s' -> room s'.
Proof.
  intros [Hr Hm] H. assert (before_switch s = true -> passed_index s = 0) as Hb by auto. unfold before_switch in Hb.
  unfold main_step in H. destruct (main_at s) eqn:E.
  { injection H as <-. destruct (start_thread_keeps i s) as [E1 E2]. split; simpl; [rewrite E1; auto|].
    rewrite E2. by destruct (Z.of_nat i <? 4). }
  all: step_cases H; split; simpl; auto.
  all: intros Hp; apply Hr; unfold before_switch in *; rewrite ?E; destruct Hp as [Hp|[Hp|Hp]]; auto.
Qed.

(** ** Everything that can go wrong *)
Definition memory (s : state) : Prop := arrays s /\ room s.
(** The vehicle that passes is the first since passed_index was reset. *)
Lemma passing_first tok s k : holds tok s -> memory s -> pc (jobs s k) = J_passed -> passed_index s = 0.
Proof.
  intros Hh [_ [Hr _]] E. destruct (decide (tok = AtJob k)) as [->|Hne].
  - destruct Hh as (_ & _ & e' & b & (Hb & _)). unfold busy in Hb. rewrite E in Hb. destruct Hb as (H1 & H2 & _).
    apply Hr. right; right. exists k. unfold leaving. by rewrite E.
  - pose proof (proj1 Hh k Hne) as Hi. unfold idle in Hi. by rewrite E in Hi.
Qed.

Ltac in_range H :=
  match type of H with
  | context [aget ?l ?i] =>
      let x := fresh in let E := fresh in destruct (aget_some l i) as [x E]; [simpl; lia|rewrite E in H; simpl in H]
  | context [aset ?l ?i ?v] =>
      let x := fresh in let E := fresh in destruct (aset_some l i v) as [x E]; [simpl; lia|rewrite E in H; simpl in H]
  end.
Lemma job0_fault s e : arrays s -> job0_step s = Fault e -> pc0 (job0 s) = A_start /\ list_index s = 20 /\ e = OutOfBounds.
Proof.
  intros (L1 & L2 & L3 & Hp & Hw & Hl & Hpc) H. unfold job0_step, or_blocked in H. cbv zeta in H.
  destruct (pc0 (job0 s)) as [| | | | | | | | |i| | | | | | | |i| |i| | |k|w k|w k|w|w|w|w|w| | | |] eqn:E;
    try discriminate H; try (case_match; discriminate H).
  - destruct (Z.ltb_spec (Z.of_nat i) 10); [|done]. in_range H. done.
  - split; [done|]. destruct (decide (list_index s = 20)) as [Hi|Hi]; [|in_range H; done].
    split; [done|]. unfold aget in H. rewrite Hi in H. simpl in H. rewrite lookup_ge_None_2 in H by lia. by injection H as <-.
  - destruct (Z.ltb_spec 0 (start s)); [|done]. in_range H. done.
  - destruct (Z.ltb_spec (Z.of_nat i) 20); [|done]. in_range H. case_match; [|done].
    match type of H with context [take_waiting i ?v s] => destruct (take_waiting_ok i v s) as [? Et]; [lia|done|rewrite Et in H] end. done.
  - destruct (Z.ltb_spec (Z.of_nat i) 20); [|done]. in_range H. case_match; [|done].
    match type of H with context [take_waiting i ?v s] => destruct (take_waiting_ok i v s) as [? Et]; [lia|done|rewrite Et in H] end. done.
  - destruct Hpc as (i & Hi & Hr). rewrite Hi in H. simpl in H. in_range H. done.
Qed.
(** What can be undefined in any interleaving: an index at the end of its array. *)
Lemma arrays_fault s t e : arrays s -> thread_step t s = Fault e -> e = OutOfBounds /\
  (t = TJob0 /\ pc0 (job0 s) = A_start /\ list_index s = 20 \/
   t = TMain /\ main_at s = M_start /\ list_index s = 20 \/
   exists k, t = TJob k /\ pc (jobs s k) = J_passed /\ passed_index s = 10).
Proof.
  intros Ha H. pose proof Ha as (L1 & L2 & L3 & Hp & Hw & Hl & _). destruct t as [| |k]; simpl in H.
  - unfold main_step in H. destruct (main_at s) eqn:E; try discriminate H; try (repeat case_match; discriminate H).
    destruct (decide (list_index s = 20)) as [Hi|Hi]; [|in_range H; done].
    split; [|tauto]. unfold aget in H. rewrite Hi in H. simpl in H. rewrite lookup_ge_None_2 in H by lia. by injection H as <-.
  - destruct (job0_fault s e Ha H) as (? & ? & ->). split; [done|tauto].
  - rewrite jobK_step in H. unfold job_step, or_blocked in H. cbv zeta in H.
    destruct (pc (jobs s k)) eqn:E; try discriminate H; try (repeat case_match; discriminate H).
    destruct (decide (passed_index s = 10)) as [Hi|Hi]; [|in_range H; done].
    split; [|eauto 6]. unfold aset in H. rewrite Hi, L2 in H. simpl in H. by injection H as <-.
Qed.
Lemma memory_fault tok s t e : holds tok s -> memory s -> thread_step t s = Fault e ->
  t = TJob0 /\ pc0 (job0 s) = A_start /\ list_index s = 20 /\ e = OutOfBounds.
Proof.
  intros Hh [Ha [Hr Hm]] H. pose proof Ha as (L1 & L2 & L3 & Hp & Hw & Hl & _). destruct t as [| |k]; simpl in H.
  - unfold main_step in H. destruct (main_at s) eqn:E; try discriminate H; try (repeat case_match; discriminate H).
    rewrite Hm in H. in_range H. done.
  - split; [done|]. by apply job0_fault.
  - rewrite jobK_step in H. unfold job_step, or_blocked in H. cbv zeta in H.
    destruct (pc (jobs s k)) eqn:E; try discriminate H; try (repeat case_match; discriminate H).
    exfalso. rewrite (passing_first tok s k Hh (conj Ha (conj Hr Hm)) E) in H. in_range H. done.
Qed.

Lemma memory_step tok t s s' : holds tok s -> memory s -> thread_step t s = Next s' -> memory s'.
Proof.
  intros Hh [Ha Hr] H. split; [by eapply arrays_step|]. destruct t as [| |k]; simpl in H.
  - by eapply room_main.
  - by eapply room_job0.
  - rewrite jobK_step in H. by eapply room_job.
Qed.
Lemma memory_boot stdin rand s0 : (forall i, 0 <= rand i) -> read_vehicles stdin <= 20 ->
  boot stdin rand = Ok s0 -> memory s0.
Proof.
  intros Hr Hv Hb. split; [by eapply arrays_boot|]. destruct (boot_ok stdin rand Hr Hv) as (l & o & f & Hb' & Hl & Hf).
  rewrite Hb' in Hb. by injection Hb as <-.
Qed.
Lemma memory_reachable stdin rand s0 s : (forall i, 0 <= rand i) -> read_vehicles stdin <= 20 ->
  boot stdin rand = Ok s0 -> steps quiet_step s0 s -> memory s.
Proof.
  intros Hr Hv Hb Hs. induction Hs as [a|a b c Hab IH Hbc]; [by eapply memory_boot|].
  destruct Hbc as [t b c H]. destruct (holds_reachable stdin rand a b Hr Hv Hb Hab) as [tok Hh].
  eapply memory_step; eauto.
Qed.
