(* ===== verification/CrossEnds.v ===== *)
(** * The crossroad comes to rest (src/Assignment_6/program.c)

    No interleaving goes on for ever unless waits keep returning without a signal: [job0] reads one entry of
    start_point_list in every turn and there are 20, a vehicle thread runs from one
    wait to the next only when it is signalled, and nobody but [job0] and [main]
    signals it.  [potential] bounds the steps that are left; a spurious wake-up adds
    as many as a signal does. *)
From Stdlib Require Import ZArith Lia Ascii String.
From S2P Require Import Prelude CLib Crossroad CrossSafety CrossMemory.

Local Open Scope Z_scope.

(** ** Steps left *)
(** A vehicle thread: up to its next wait.  Blocked, it has none. *)
Definition job_rank (p : job_pc) (blocked : bool) : Z :=
  match p with
  | J_new => 20 | J_empty_test => 19 | J_empty_finish => 18
  | J_woken => if blocked then 0 else 17
  | J_unlock => 16 | J_lock => 15 | J_init_test => 14
  | J_woken_init => if blocked then 0 else 14
  | J_incr => 13 | J_test => 12 | J_where => 11 | J_passed => 11 | J_count => 10 | J_process0 => 9 | J_where0 => 8
  | J_check => 7 | J_finish => 6 | J_signal_last => 5 | J_unlock_last => 4
  | J_signal => 3 | J_wait => 2
  | J_set_init => 2 | J_wait_init => 1
  | J_exit => 0
  end.
Definition job_left (s : state) (k : point) : Z :=
  job_rank (pc (jobs s k)) (bool_decide (TJob k ∈ waiters s (LK k))).
(** A signal to a vehicle thread lets it run once more: it counts as this many steps. *)
Definition credit : Z := 17.

(** [job0]: up to its next read of start_point_list, its signals counted with their credit. *)
Definition job0_rank (p : job0_pc) : Z :=
  match p with
  | A_wait_list => 140 | A_temp_test => 139 | A_where_temp => 138 | A_temp_off => 137 | A_check_off => 136 | A_key => 135
  | A_facing i => 114 + Z.of_nat (20 - i) | A_not_found => 113 | A_first i => 92 + Z.of_nat (20 - i)
  | A_finished => 91 | A_switch => 90
  | A_signal_facing _ _ => 80 | A_wait_facing _ => 62 | A_woken_facing _ => 61 | A_save _ => 60 | A_temp_on _ => 59
  | A_restore _ _ => 59 | A_resume _ => 58 | A_signal_free _ => 58
  | A_wait => 40 | A_woken => 39 | A_unlock => 38
  | A_new => 38 | A_lock => 37 | A_init_test => 36 | A_wait_init => 35 | A_woken_init => 34 | A_set_init => 33
  | A_print => 32 | A_sleep => 31 | A_passed_index => 30
  | A_clear i => 10 + Z.of_nat (10 - i) | A_start => 9 | A_exit => 0
  end.
Definition turn : Z := 132.
Definition main_rank (p : main_pc) : Z :=
  match p with
  | M_create i => 100 + 200 * Z.of_nat (5 - i) | M_sleep => 90 | M_start => 89 | M_switch => 88
  | M_join i => 10 + Z.of_nat (5 - i) | M_destroy => 2 | M_result => 1 | M_done => 0
  end.
Definition potential (s : state) : Z :=
  main_rank (main_at s) + turn * (20 - list_index s) + job0_rank (pc0 (job0 s)) +
  (job_left s P1 + job_left s P2 + job_left s P3 + job_left s P4).

Lemma job_rank_range p b : 0 <= job_rank p b <= 20.
Proof. destruct p, b; simpl; lia. Qed.
Lemma job0_rank_nonneg p : 0 <= job0_rank p.
Proof. destruct p; simpl; lia. Qed.
Lemma main_rank_nonneg p : 0 <= main_rank p.
Proof. destruct p; simpl; lia. Qed.
Lemma potential_nonneg s : list_index s <= 20 -> 0 <= potential s.
Proof.
  intros H. unfold potential, job_left, turn. pose proof (main_rank_nonneg (main_at s)). pose proof (job0_rank_nonneg (pc0 (job0 s))).
  pose proof (fun k => job_rank_range (pc (jobs s k)) (bool_decide (TJob k ∈ waiters s (LK k)))) as Hk.
  pose proof (Hk P1). pose proof (Hk P2). pose proof (Hk P3). pose proof (Hk P4). lia.
Qed.

(** Only the thread [k] has fewer steps left. *)
Lemma one_job_less s s' k d : job_left s' k + d <= job_left s k -> (forall j, j <> k -> job_left s' j = job_left s j) ->
  job_left s' P1 + job_left s' P2 + job_left s' P3 + job_left s' P4 + d <=
  job_left s P1 + job_left s P2 + job_left s P3 + job_left s P4.
Proof.
  intros H Ho. pose proof (Ho P1) as O1. pose proof (Ho P2) as O2. pose proof (Ho P3) as O3. pose proof (Ho P4) as O4.
  destruct k; rewrite ?O1, ?O2, ?O3, ?O4 by done; lia.
Qed.

Lemma job_left_same s s' j : jobs s' j = jobs s j -> waiters s' (LK j) = waiters s (LK j) -> job_left s' j = job_left s j.
Proof. intros E1 E2. unfold job_left. by rewrite E1, E2. Qed.

Lemma potential_job k s s' : job_step k s = Next s' -> potential s' < potential s.
Proof.
  intros H. destruct (job_others k s s' H) as (_ & Em & E0 & _ & _ & _).
  assert (list_index s' = list_index s) as El by (unfold job_step in H; by step_cases H; lock_views).
  unfold potential. rewrite Em, E0, El.
  enough (job_left s' P1 + job_left s' P2 + job_left s' P3 + job_left s' P4 + 1 <=
    job_left s P1 + job_left s P2 + job_left s P3 + job_left s P4) by lia.
  apply one_job_less with k.
  - unfold job_step in H. unfold job_left. step_cases H; lock_views; simpl; rewrite ?upd_eq; simpl; try lia.
    1,3: rewrite bool_decide_eq_true_2 by set_solver; lia.
    all: rewrite bool_decide_eq_false_2 by done; lia.
  - intros j Hj. apply job_left_same; unfold job_step in H; step_cases H; lock_views; simpl; by rewrite ?upd_ne by congruence.
Qed.

(** A signal to [k] is at most one more run of its thread. *)
Lemma signal_credit k s s' : jobs s' = jobs s ->
  (forall j, waiters s' (LK j) = if decide (j = k) then tail (waiters s (LK k)) else waiters s (LK j)) ->
  job_left s' P1 + job_left s' P2 + job_left s' P3 + job_left s' P4 <=
  job_left s P1 + job_left s P2 + job_left s P3 + job_left s P4 + credit.
Proof.
  intros Ej Ew. enough (job_left s' P1 + job_left s' P2 + job_left s' P3 + job_left s' P4 + - credit <=
    job_left s P1 + job_left s P2 + job_left s P3 + job_left s P4) by lia.
  apply one_job_less with k.
  - unfold job_left, credit. rewrite Ej, Ew, decide_True by done.
    destruct (bool_decide (TJob k ∈ waiters s (LK k))) eqn:E1; [destruct (pc (jobs s k)); simpl; repeat case_match; lia|].
    apply bool_decide_eq_false in E1. rewrite bool_decide_eq_false_2; [lia|].
    intros Hin. apply E1. destruct (waiters s (LK k)); [done|]. by right.
  - intros j Hj. apply job_left_same; [by rewrite Ej|]. by rewrite Ew, decide_False.
Qed.

(** The statement [job0] goes to, when it signals nobody, has a smaller rank. *)
Lemma switch_rank w k : job0_rank (switch_where w k) <= 80.
Proof. unfold switch_where. repeat case_match; simpl; lia. Qed.
Lemma job0_less s s' : job0_step s = Next s' -> signals (pc0 (job0 s)) = false ->
  (forall k, waiters s' (LK k) = waiters s (LK k)) /\ jobs s' = jobs s /\
  turn * (20 - list_index s') + job0_rank (pc0 (job0 s')) < turn * (20 - list_index s) + job0_rank (pc0 (job0 s)).
Proof.
  unfold job0_step, turn. intros H Hs. step_cases H; lock_views; try discriminate; simpl.
  all: split; [intros ?; by rewrite ?upd_ne by done|split; [done|]].
  all: bool_to_prop; try lia.
  pose proof (switch_rank (where_ s) (key s)). lia.
Qed.
Lemma potential_job0 s s' : job0_step s = Next s' -> potential s' < potential s.
Proof.
  intros H. destruct (job0_view s s' H) as [_ Em]. unfold potential. rewrite Em.
  destruct (signals (pc0 (job0 s))) eqn:Hs.
  - assert (exists k, jobs s' = jobs s /\ waiters s' = waiters (signal (LK k) s) /\ list_index s' = list_index s /\
      job0_rank (pc0 (job0 s')) + 18 <= job0_rank (pc0 (job0 s))) as (k & Ej & Ew & El & Er).
    { unfold job0_step in H. destruct (pc0 (job0 s)); try discriminate Hs; injection H as <-; eexists; simpl; (split_and!; [done|done|done|lia]). }
    pose proof (signal_credit k s s' Ej) as Hc. rewrite El. unfold credit in Hc.
    specialize (Hc ltac:(intros j; rewrite Ew; apply waiters_signal)). lia.
  - destruct (job0_less s s' H Hs) as (Hw & Ej & Hl).
    assert (forall j, job_left s' j = job_left s j) as Hj by (intros j; apply job_left_same; [by rewrite Ej|done]).
    rewrite !Hj. lia.
Qed.

Lemma start_thread_left i s : (i <= 4)%nat -> potential (start_thread i s) <= potential s + 100.
Proof.
  intros Hi. unfold potential. destruct (start_thread_cases i s Hi) as [[-> ->]|(k & -> & ->)].
  - assert (forall j, job_left (job0_at A_lock s) j = job_left s j) as E by done. rewrite !E. simpl.
    pose proof (job0_rank_nonneg (pc0 (job0 s))). lia.
  - assert (job_left (job_at k J_empty_test s) P1 + job_left (job_at k J_empty_test s) P2 +
      job_left (job_at k J_empty_test s) P3 + job_left (job_at k J_empty_test s) P4 + - 20 <=
      job_left s P1 + job_left s P2 + job_left s P3 + job_left s P4) as Hl.
    { apply one_job_less with k; [|intros j Hj; apply job_left_same; [simpl; by rewrite upd_ne|done]].
      unfold job_left. simpl. rewrite upd_eq. simpl.
      pose proof (job_rank_range (pc (jobs s k)) (bool_decide (TJob k ∈ waiters s (LK k)))). lia. }
    simpl in *. lia.
Qed.
(** [main] goes on; the others are as they were. *)
Lemma main_jump s p : potential (set_main p s) = potential s + main_rank p - main_rank (main_at s).
Proof. unfold potential. change (job_left (set_main p s)) with (job_left s). simpl. lia. Qed.

Lemma potential_main s s' : (forall i, main_at s = M_create i -> (i <= 4)%nat) -> main_step s = Next s' ->
  potential s' < potential s.
Proof.
  intros Hi H. unfold main_step in H. destruct (main_at s) eqn:E; step_cases H; rewrite ?main_jump, ?E; bool_to_prop.
  1,2: pose proof (Hi i eq_refl) as Hi4; pose proof (start_thread_left i s Hi4);
    assert (main_at (start_thread i s) = M_create i) as -> by (by destruct i as [|[|[|[|i]]]]); cbn [main_rank]; lia.
  all: simpl; try lia.
  - rewrite E. unfold potential. change (job_left (set_start a _)) with (job_left s).
    change (list_index (set_start a _)) with (list_index s + 1). change (job0 (set_start a _)) with (job0 s).
    change (main_at (set_start a _)) with (main_at s). rewrite E. unfold turn. cbn [main_rank]. lia.
  - rewrite E. pose proof (signal_credit p s (signal (LK p) s) eq_refl (waiters_signal p s)).
    unfold potential, credit in *. simpl in *. rewrite E. cbn [main_rank]. lia.
  - rewrite E. change (potential (print_result s)) with (potential s). cbn [main_rank]. lia.
Qed.

Lemma potential_step t s s' : (forall i, main_at s = M_create i -> (i <= 4)%nat) -> thread_step t s = Next s' ->
  potential s' < potential s.
Proof.
  destruct t as [| |k]; simpl; intros Hi; [by apply potential_main|apply potential_job0|]. rewrite jobK_step. apply potential_job.
Qed.

(** ** Histories with spurious wake-ups *)
Fixpoint spurious_wakeups (es : list event) : Z :=
  match es with
  | [] => 0
  | Spurious _ _ :: es => 1 + spurious_wakeups es
  | _ :: es => spurious_wakeups es
  end.
(** A thread woken without a signal runs once more, too. *)
Lemma potential_wake t l s s' : wake t l s = Next s' -> potential s' <= potential s + credit.
Proof.
  unfold wake. case_decide as Hin; [|done]. intros [= <-].
  set (s' := set_waiters _ s).
  assert (forall j, TJob j <> t -> job_left s' j = job_left s j) as Ho.
  { intros j Hj. unfold job_left. f_equal. apply bool_decide_ext. simpl. unfold upd. case_decide as El; [|done].
    rewrite <- El, list_elem_of_filter. naive_solver. }
  assert (forall j, job_left s' j <= job_left s j + credit) as Hk.
  { intros j. unfold job_left, credit. destruct (bool_decide (TJob j ∈ waiters s (LK j))) eqn:E1.
    - destruct (pc (jobs s j)) eqn:E; simpl; rewrite ?E; simpl; repeat case_match; lia.
    - rewrite (bool_decide_eq_false_2 (TJob j ∈ waiters s' (LK j))); [simpl; lia|]. apply bool_decide_eq_false in E1.
      simpl. unfold upd. case_decide as El; [|done]. rewrite <- El, list_elem_of_filter. tauto. }
  assert (potential s' = potential s + (job_left s' P1 + job_left s' P2 + job_left s' P3 + job_left s' P4) -
    (job_left s P1 + job_left s P2 + job_left s P3 + job_left s P4)) as -> by (unfold potential; simpl; lia).
  pose proof (Ho P1). pose proof (Ho P2). pose proof (Ho P3). pose proof (Ho P4).
  pose proof (Hk P1). pose proof (Hk P2). pose proof (Hk P3). pose proof (Hk P4). unfold credit in *.
  destruct t as [| |[]]; repeat match goal with H : TJob _ <> _ -> _ |- _ => (specialize (H ltac:(discriminate))) || clear H end; lia.
Qed.
Lemma potential_exec e s s' : (forall i, main_at s = M_create i -> (i <= 4)%nat) -> exec e s = Next s' ->
  potential s' + 1 <= potential s + 18 * spurious_wakeups [e].
Proof.
  intros Hi H. destruct e as [t|t l|]; simpl in *.
  - pose proof (potential_step t s s' Hi H). lia.
  - pose proof (potential_wake t l s s' H). unfold credit in *. lia.
  - by destruct (main_at s).
Qed.
(** The events of any history from [s0], by its potential and its spurious wake-ups. *)
Lemma history_bound stdin rand s0 s : (forall i, 0 <= rand i) -> read_vehicles stdin <= 20 -> boot stdin rand = Ok s0 ->
  forall es a, steps any_step s0 a -> schedule es a = Next s ->
  Z.of_nat (List.length es) + potential s <= potential a + 18 * spurious_wakeups es.
Proof.
  intros Hr Hv Hb. induction es as [|e es IH]; intros a Ha H; simpl in H.
  - injection H as <-. simpl. lia.
  - destruct (exec e a) as [|b|f] eqn:E; [done| |done].
    assert (steps any_step s0 b) as Hsb by (eapply steps_next; [exact Ha|by apply (any_event e)]).
    specialize (IH b Hsb H). destruct (counted_reachable stdin rand s0 a Hr Hv Hb Ha) as [[_ Hm] _].
    assert (forall i, main_at a = M_create i -> (i <= 4)%nat) as Hi
      by (intros i Ei; unfold main_ok in Hm; rewrite Ei in Hm; tauto).
    pose proof (potential_exec e a b Hi E) as Hp.
    simpl List.length. simpl spurious_wakeups in *. destruct e; lia.
Qed.

Lemma potential_boot stdin rand s0 : (forall i, 0 <= rand i) -> read_vehicles stdin <= 20 -> boot stdin rand = Ok s0 ->
  potential s0 = 3858.
Proof.
  intros Hr Hv Hb. destruct (boot_ok stdin rand Hr Hv) as (l & o & f & Hb' & Hl & Hf).
  rewrite Hb' in Hb. by injection Hb as <-.
Qed.
