(* ===== verification/CrossTheorems.v ===== *)
(** * What the crossroad program guarantees, and what it does not

    The properties of src/Assignment_6/program.c, from the invariants of
    [CrossSafety] and from concrete schedules of [Crossroad]. *)
From Stdlib Require Import ZArith Lia Ascii String.
From S2P Require Import Prelude CLib Crossroad CrossSafety CrossMemory CrossEnds.

Local Open Scope Z_scope.

(** ** Executable schedules are executions *)
Lemma schedule_steps ts : forall s s',
  schedule (map Run ts) s = Next s' -> steps quiet_step s s'.
Proof.
  induction ts as [|t ts IH]; intros s s'; simpl.
  - intros [= <-]. constructor.
  - destruct (thread_step t s) as [|s1|e] eqn:E; try discriminate. intros H.
    eapply steps_trans; [|exact (IH _ _ H)]. apply steps_one. by econstructor.
Qed.

Lemma cooperative_steps fuel : forall t s s',
  cooperative fuel t s = Next s' -> steps quiet_step s s'.
Proof.
  induction fuel as [|fuel IH]; intros t s s'; simpl.
  - intros [= <-]. constructor.
  - destruct (pick t s) as [u|]; [|intros [= <-]; constructor].
    destruct (thread_step u s) as [|s1|e] eqn:E; try discriminate. intros H.
    eapply steps_trans; [|exact (IH _ _ _ H)]. apply steps_one. by econstructor.
Qed.

Lemma cooperative_schedule fuel : forall t s s',
  cooperative fuel t s = Next s' -> exists ts, schedule (map Run ts) s = Next s'.
Proof.
  induction fuel as [|fuel IH]; intros t s s'; simpl.
  - intros [= <-]. by exists [].
  - destruct (pick t s) as [u|]; [|intros [= <-]; by exists []].
    destruct (thread_step u s) as [|s1|e] eqn:E; try discriminate. intros (ts & Hts)%IH.
    exists (u :: ts). simpl. by rewrite E.
Qed.
Lemma no_spurious ts : spurious_wakeups (map Run ts) = 0.
Proof. by induction ts. Qed.
Lemma spurious_nonneg es : 0 <= spurious_wakeups es.
Proof. induction es as [|[] es IH]; simpl; lia. Qed.
(** A history without spurious wake-ups is one of quiet steps. *)
Lemma schedule_quiet es : forall s s', schedule es s = Next s' -> spurious_wakeups es = 0 -> steps quiet_step s s'.
Proof.
  induction es as [|e es IH]; intros s s'; simpl.
  - intros [= <-] _. constructor.
  - destruct (exec e s) as [|s1|x] eqn:E; try discriminate. intros H Hw. pose proof (spurious_nonneg es).
    destruct e as [t|t l|]; [|lia|simpl in E; by destruct (main_at s)].
    eapply steps_trans; [|exact (IH _ _ H Hw)]. apply steps_one. by econstructor.
Qed.

Lemma schedule_any es : forall s s', schedule es s = Next s' -> steps any_step s s'.
Proof.
  induction es as [|e es IH]; intros s s'; simpl.
  - intros [= <-]. constructor.
  - destruct (exec e s) as [|s1|x] eqn:E; try discriminate. intros H.
    eapply steps_trans; [|exact (IH _ _ H)]. apply steps_one. by econstructor.
Qed.

Lemma quiet_any s s' : steps quiet_step s s' -> steps any_step s s'.
Proof.
  induction 1 as [|a b c Hab IH Hbc]; [constructor|]. eapply steps_next; [exact IH|].
  destruct Hbc as [t b c H]. by apply (any_event (Run t)).
Qed.

(** ** Concrete runs *)

(** Generators whose draws give the listed start points. *)
Definition draws (l : list Z) (i : nat) : Z := Z.max 0 (nth i l 1 - 1).
Lemma draws_nonneg l i : 0 <= draws l i.
Proof. unfold draws. lia. Qed.

Definition state_of (o : outcome) : state := match o with Next s => s | _ => initial end.
Definition booted (l : list Z) : state :=
  match boot (show (Z.of_nat (List.length l))) (draws l) with Ok s => s | Err _ => initial end.
Definition ended_by (fuel : nat) (l : list Z) : outcome := cooperative fuel TMain (booted l).

(** Every thread gets to its first wait (or ends), then [main] signals the first
    start point. *)
Definition warm_up (ks : list point) : list thread :=
  replicate 6 TMain ++ replicate 3 TJob0 ++
  concat (map (fun k => replicate (if decide (k ∈ ks) then 5 else 2)%nat (TJob k)) points) ++
  replicate 2 TMain.

Lemma stuck_final s : stuck s = true -> forall s', ~ quiet_step s s'.
Proof.
  intros Hs s' Hq. destruct Hq as [t s s' H]. unfold stuck in Hs. rewrite forallb_forall in Hs.
  specialize (Hs t). rewrite H in Hs. assert (List.In t all_threads) as Hin; [|by apply Hs in Hin].
  destruct t as [| |[]]; simpl; tauto.
Qed.

(** ** Properties *)

(** C8: The crossing is safe. In every state the threads can reach, in any
    order of their steps, if a vehicle from [j] and a vehicle from [k] are on the
    crossing at the same time, they come from the same or from facing start
    points (as long as no wait returns without a signal). *)
Theorem crossing_safe stdin rand s0 s j k :
  (forall i, 0 <= rand i) -> read_vehicles stdin <= 20 ->
  boot stdin rand = Ok s0 -> steps quiet_step s0 s ->
  process s j <> 0 -> process s k <> 0 -> j = k \/ j = facing k.
Proof.
  intros Hr Hv Hb Hs Hj Hk.
  destruct (holds_reachable stdin rand s0 s Hr Hv Hb Hs) as [tok Hh].
  destruct (holds_facing tok s Hh) as [w Hw].
  destruct (Hw j Hj) as [-> | ->], (Hw k Hk) as [-> | ->]; rewrite ?facing_facing; auto.
Qed.

(** The run of vehicles 1 and 3, stopped when both are on the crossing. *)
Definition both_on : state := state_of (ended_by 70 [1; 3]).

Lemma crossing_safe_witness :
  process both_on P1 = 1 /\ process both_on P3 = 1 /\ (P1 = P3 \/ P1 = facing P3).
Proof.
  assert (process both_on P1 = 1 /\ process both_on P3 = 1) as [H1 H3] by (split; vm_compute; reflexivity).
  split; [exact H1|]. split; [exact H3|].
  apply (crossing_safe "2" (draws [1; 3]) (booted [1; 3]) both_on P1 P3 (draws_nonneg _)).
  - vm_compute. discriminate.
  - vm_compute. reflexivity.
  - apply (cooperative_steps 70 TMain). vm_compute. reflexivity.
  - rewrite H1. discriminate.
  - rewrite H3. discriminate.
Defined.

(** What the program counts, under every interleaving and even with spurious
    wake-ups: no start point lets out more vehicles than the list has, a thread
    reports that it is finished only when all of its vehicles have passed, and
    [main] prints its result only when all vehicles of all start points have. *)
Theorem result_counts stdin rand s0 s k :
  (forall i, 0 <= rand i) -> read_vehicles stdin <= 20 ->
  boot stdin rand = Ok s0 -> steps any_step s0 s ->
  let n := cars rand k (Z.to_nat (read_vehicles stdin)) 0 in
  0 <= job_count s k <= n /\ 0 <= process s k <= 2 /\
  (finish s k = true -> job_count s k = n) /\
  (finished s = true -> job_count s k = n /\ pCount s k = n /\
     exists before, out s = out (print_result (set_out before s))).
Proof.
  intros Hr Hv Hb Hs n.
  destruct (counted_reachable stdin rand s0 s Hr Hv Hb Hs) as [[Ht Hm] Hp].
  specialize (Ht k). specialize (Hp k). fold n in Hp. rewrite <- Hp. unfold tally in Ht.
  split; [lia|]. split; [|split].
  - destruct (pc (jobs s k)); lia.
  - intros Hf. rewrite Hf in Ht. destruct (pc (jobs s k)); intuition congruence.
  - unfold finished, main_ok in *. destruct (main_at s); try done. intros _.
    destruct Hm as [Hj Hout]. split; [|by split].
    specialize (Hj (rank k) ltac:(destruct k; simpl; lia)).
    replace (joinable (rank k) s) with
      (match pc (jobs s k) with J_exit => true | _ => false end) in Hj by (by destruct k).
    destruct (pc (jobs s k)); try discriminate. intuition.
Qed.

(** The complete run of three vehicles. *)
Definition all_passed : state := state_of (ended_by 1000 [1; 3; 2]).

Lemma result_counts_witness :
  finished all_passed = true /\ job_count all_passed P2 = 1 /\ pCount all_passed P2 = 1.
Proof.
  assert (finished all_passed = true) as Hf by (vm_compute; reflexivity). split; [exact Hf|].
  destruct (result_counts "3" (draws [1; 3; 2]) (booted [1; 3; 2]) all_passed P2 (draws_nonneg _))
    as (_ & _ & _ & H).
  - vm_compute. discriminate.
  - vm_compute. reflexivity.
  - apply quiet_any. apply (cooperative_steps 1000 TMain). vm_compute. reflexivity.
  - destruct (H Hf) as (H1 & H2 & _). split; [exact H1|exact H2].
Defined.

(** C37: A signal can be lost. [job0] signals a vehicle thread while holding mutex0,
    but the answer comes under another mutex: when the vehicle thread answers
    before [job0] reaches its wait, [job0] waits for ever. Here the only vehicle
    has passed, no thread can move any more, and [main] never returns. *)
Theorem lost_wakeup_deadlock :
  exists s, steps quiet_step (booted [1]) s /\ (forall s', ~ quiet_step s s') /\
    finished s = false /\ job_count s P1 = 1 /\ pc0 (job0 s) = A_woken.
Proof.
  set (ts := warm_up [P1] ++ replicate 7 (TJob P1) ++ replicate 67 TJob0 ++
             replicate 14 (TJob P1) ++ [TJob0]).
  exists (state_of (schedule (map Run ts) (booted [1]))). split; [|split].
  - apply (schedule_steps ts). vm_compute. reflexivity.
  - apply stuck_final. vm_compute. reflexivity.
  - vm_compute. auto.
Qed.

(** The waits do not re-check their condition, so that one spurious wake-up puts
    vehicles from P1 and P2, which cross, on the crossing together. *)
Theorem spurious_wakeup_unsafe :
  exists s, steps any_step (booted [1; 2]) s /\ process s P1 = 1 /\ process s P2 = 1.
Proof.
  set (es := map Run (warm_up [P1; P2] ++ replicate 7 (TJob P1)) ++
             Spurious (TJob P2) (LK P2) :: map Run (replicate 2 (TJob P2))).
  exists (state_of (schedule es (booted [1; 2]))). split; [|vm_compute; auto].
  apply (schedule_any es). vm_compute. reflexivity.
Qed.

(** With the numbers of vehicles the program is meant for (10 to 15), when all of
    them come from the same start point, [job0] reads past the end of
    start_point_list: it advances list_index at every tick and needs two ticks
    per vehicle. *)
Theorem start_list_overrun :
  Forall (fun n => ended_by 5000 (replicate n 1) = Fault OutOfBounds) [10; 11; 12; 13; 14; 15]%nat.
Proof. repeat constructor; vm_compute; reflexivity. Qed.

(** C10: Where the program can leave its arrays, for at most 20 vehicles. In every
    interleaving, waits that return without a signal included, the only undefined
    steps are three: [job0] or [main] reads start_point_list after its last entry,
    or a vehicle enters passed_list when ten have passed since it was cleared;
    waiting_list always has room. When no wait returns without a signal only that
    read of [job0] is left, and the vehicle that passes is the first of its tick, so
    that passed_list is never used beyond its first element. *)
Theorem array_accesses stdin rand s0 s :
  (forall i, 0 <= rand i) -> read_vehicles stdin <= 20 -> boot stdin rand = Ok s0 ->
  (steps any_step s0 s ->
     (forall t e, thread_step t s = Fault e -> e = OutOfBounds /\
        (t = TJob0 /\ pc0 (job0 s) = A_start /\ list_index s = 20 \/
         t = TMain /\ main_at s = M_start /\ list_index s = 20 \/
         exists k, t = TJob k /\ pc (jobs s k) = J_passed /\ passed_index s = 10)) /\
     (pc0 (job0 s) = A_wait_list -> 0 <= waiting_index s < 20)) /\
  (steps quiet_step s0 s ->
     (forall t e, thread_step t s = Fault e ->
        t = TJob0 /\ pc0 (job0 s) = A_start /\ list_index s = 20 /\ e = OutOfBounds) /\
     (forall k, pc (jobs s k) = J_passed -> passed_index s = 0)).
Proof.
  intros Hr Hv Hb. split; intros Hs.
  - pose proof (arrays_reachable stdin rand s0 s Hr Hv Hb Hs) as Ha.
    split; [intros t e; by apply arrays_fault|by apply waiting_room].
  - destruct (holds_reachable stdin rand s0 s Hr Hv Hb Hs) as [tok Hh].
    pose proof (memory_reachable stdin rand s0 s Hr Hv Hb Hs) as Hm.
    split; [intros t e; by apply (memory_fault tok)|intros k E; by apply (passing_first tok s k Hh Hm E)].
Qed.

(** Ten vehicles from the same start point, just before the read outside start_point_list. *)
Definition last_read : state := state_of (ended_by 1317 (replicate 10 1)).
Lemma array_accesses_witness : job0_step last_read = Fault OutOfBounds /\ list_index last_read = 20.
Proof.
  assert (job0_step last_read = Fault OutOfBounds) as Hf by (vm_compute; reflexivity). split; [exact Hf|].
  destruct (array_accesses "10" (draws (replicate 10 1)) (booted (replicate 10 1)) last_read (draws_nonneg _))
    as (_ & H).
  - vm_compute. discriminate.
  - vm_compute. reflexivity.
  - destruct H as [H _]; [apply (cooperative_steps 1317 TMain); vm_compute; reflexivity|].
    destruct (H TJob0 OutOfBounds Hf) as (_ & _ & H1 & _). exact H1.
Defined.

(** C9: The program comes to rest unless waits keep returning without a signal. With at
    most 20 vehicles a history with [w] spurious wake-ups has at most 3858 + 18 w events,
    whatever the interleaving; when no thread can take another step, [main] has printed
    the result and returned, or every thread that has not ended waits for a signal or a
    thread that will not come, or a thread is about to leave an array; without spurious
    wake-ups that is [job0], about to read outside start_point_list. *)
Theorem crossing_terminates stdin rand s0 es s :
  (forall i, 0 <= rand i) -> read_vehicles stdin <= 20 -> boot stdin rand = Ok s0 -> schedule es s0 = Next s ->
  Z.of_nat (List.length es) <= 3858 + 18 * spurious_wakeups es /\
  ((forall t s', thread_step t s <> Next s') ->
   finished s = true \/ (stuck s = true /\ finished s = false) \/
   exists t, thread_step t s = Fault OutOfBounds /\ (spurious_wakeups es = 0 -> t = TJob0)).
Proof.
  intros Hr Hv Hb Hn. pose proof (schedule_any es s0 s Hn) as Hs.
  pose proof (arrays_reachable stdin rand s0 s Hr Hv Hb Hs) as Ha. split.
  - pose proof (history_bound stdin rand s0 s Hr Hv Hb es s0 (steps_refl _ _) Hn) as Hp.
    rewrite (potential_boot stdin rand s0 Hr Hv Hb) in Hp.
    pose proof (potential_nonneg s ltac:(apply Ha)). lia.
  - intros Hno. destruct (finished s) eqn:Hfin; [by left|]. right.
    destruct (stuck s) eqn:Hst; [by left|]. right. apply not_true_iff_false in Hst.
    destruct (existsb (fun t => match thread_step t s with Fault _ => true | _ => false end) all_threads) eqn:Hex.
    + apply existsb_exists in Hex as (t & _ & Ht). destruct (thread_step t s) as [| |e] eqn:E; try done.
      destruct (arrays_fault s t e Ha E) as [-> _]. exists t. split; [done|]. intros Hw.
      assert (steps quiet_step s0 s) as Hq by (by apply (schedule_quiet es)).
      destruct (holds_reachable stdin rand s0 s Hr Hv Hb Hq) as [tok Hh].
      by destruct (memory_fault tok s t _ Hh (memory_reachable stdin rand s0 s Hr Hv Hb Hq) E).
    + destruct Hst. apply forallb_forall. intros t Ht. destruct (thread_step t s) as [|s'|e] eqn:E; [done| |].
      * by destruct (Hno t s').
      * apply not_true_iff_false in Hex. destruct Hex. apply existsb_exists. exists t. by rewrite E.
Qed.

(** The complete run of three vehicles takes some number of steps, within the bound. *)
Lemma crossing_terminates_witness : exists ts, schedule (map Run ts) (booted [1; 3; 2]) = Next all_passed /\
  Z.of_nat (List.length (map Run ts)) <= 3858.
Proof.
  destruct (cooperative_schedule 1000 TMain (booted [1; 3; 2]) all_passed) as [ts Hts]; [vm_compute; reflexivity|].
  exists ts. split; [exact Hts|].
  pose proof (proj1 (crossing_terminates "3" (draws [1; 3; 2]) (booted [1; 3; 2]) (map Run ts) all_passed (draws_nonneg _)
    ltac:(vm_compute; discriminate) ltac:(vm_compute; reflexivity) Hts)) as H.
  rewrite (no_spurious ts), Z.mul_0_r, Z.add_0_r in H. exact H.
Defined.

(** ** Runs under the cooperative schedule *)
Fixpoint start_lists (n : nat) : list (list Z) :=
  match n with O => [[]] | S n => flat_map (fun l => [1 :: l; 2 :: l; 3 :: l; 4 :: l]) (start_lists n) end.
Definition all_through (l : list Z) : bool :=
  match ended_by 3000 l with
  | Next s => (finished s && (job_count s P1 + job_count s P2 + job_count s P3 + job_count s P4 =? Z.of_nat (List.length l))%Z)%bool
  | _ => false
  end.
(** As the [sleep]s mean it, every list of one to four vehicles gets through and [main] returns. *)
Theorem short_lists_get_through : forallb all_through (flat_map start_lists [1; 2; 3; 4]%nat) = true.
Proof. vm_compute. reflexivity. Qed.
(** Without a vehicle (or without a number on standard input) nobody wakes [job0], and [main]
    waits for it for ever. *)
Theorem no_vehicle_hangs : let s := state_of (ended_by 100 []) in
  stuck s = true /\ finished s = false /\ main_at s = M_join 0.
Proof. vm_compute. auto. Qed.
