(* ===== verification/OsEnv.v ===== *)
(** * The operating system as the course-work tools see it

    The calls by which [mylscpu], [myps] and [mytop] read the machine: files
    under /proc and /sys, directories, [stat], [access], [readlink], the
    password database and the clock.  An [os] is one snapshot of all of them;
    it is an argument of every operation that makes such a call. *)
From Stdlib Require Import ZArith Lia Ascii String.
From S2P Require Import Prelude CLib.

Local Open Scope stdpp_scope.
Local Open Scope Z_scope.

Inductive file_kind := IsDir | IsChr | IsOther.
Record fstat := mk_fstat { st_kind : file_kind; st_uid : Z; st_rdev : Z }.

Record os := mk_os {
  fopen_r : string -> option string;          (* fopen(path, "r") and the bytes read *)
  readdir_all : string -> option (list string);  (* opendir, then every d_name *)
  stat_of : string -> option fstat;           (* None: stat fails *)
  access_F : string -> bool;                  (* access(path, F_OK) == 0 *)
  access_R : string -> bool;                  (* access(path, R_OK) == 0 *)
  readlink_of : string -> option string;      (* None: readlink fails *)
  getpwuid_name : Z -> option string;         (* pw_name; None: no such user *)
  localtime_of : Z -> tm;
  now : Z;                                    (* time(NULL) *)
  clk_tck : Z;                                (* sysconf(_SC_CLK_TCK) *)
  my_pid : Z;
  my_uid : Z;
  cols : Z                                    (* COLS of ncurses *)
}.

(** ** Lines *)

(** [memset(buf, 0, size); fgets(buf, size, fp)]: the C string then in [buf],
    empty at the end of the file, and what is left of the file. *)
Definition read_line (size : nat) (fp : string) : string * string :=
  match fgets size fp with
  | None => (EmptyString, EmptyString)
  | Some (line, rest) => (cstr line, rest)
  end.

(** [while (cnt < row) { memset; fgets; cnt++; }]: [n] lines, the last one kept. *)
Fixpoint read_rows (size n : nat) (buf fp : string) : string * string :=
  match n with
  | O => (buf, fp)
  | S n => let '(line, rest) := read_line size fp in read_rows size n line rest
  end.

(** The offset of the first character satisfying [f]. *)
Fixpoint find_char (f : ascii -> bool) (s : string) (i : Z) : option Z :=
  match s with
  | EmptyString => None
  | String c t => if f c then Some i else find_char f t (i + 1)
  end.

(** [strncmp(s, prefix, strlen(prefix)) == 0] *)
Fixpoint starts (prefix s : string) : bool :=
  match prefix, s with
  | EmptyString, _ => true
  | String a p, String b t => (Ascii.eqb a b && starts p t)%bool
  | _, EmptyString => false
  end.

(** [sscanf(s, "%lu", &x)] with [x] left alone when there is no number. *)
Definition sscanf_lu (s : string) (old : Z) : Z :=
  match scan_lu s with ScanVal v _ => v | _ => old end.

(** [strcpy(buf, dir); strcat(buf, "/"); strcat(buf, name)] *)
Definition join_path (size : Z) (dir name : string) : res string :=
  p ← strcpy size dir; p ← strcat size p "/"; strcat size p name.

(** ** Facts *)
Fixpoint no_char (c : ascii) (s : string) : bool :=
  match s with
  | EmptyString => true
  | String d t => (negb (Ascii.eqb d c) && no_char c t)%bool
  end.

Lemma no_char_app c s t : no_char c (s +:+ t) = (no_char c s && no_char c t)%bool.
Proof. induction s as [|d s IH]; simpl; [done|]. by rewrite IH, andb_assoc. Qed.

Lemma fgets_loop_line line rest n :
  no_char LF line = true -> (String.length line < n)%nat ->
  fgets_loop n (line +:+ newline +:+ rest) = (line +:+ newline, rest).
Proof.
  revert n. induction line as [|c line IH]; intros n Hn Hl; destruct n as [|n]; simpl in Hl; try lia.
  - done.
  - simpl in Hn. apply andb_prop in Hn as [Hc Hn]. apply negb_true_iff in Hc.
    simpl. rewrite Hc. rewrite IH by (done || lia). done.
Qed.

Lemma cstr_all s : no_char NUL s = true -> cstr s = s.
Proof.
  unfold cstr. induction s as [|c s IH]; simpl; [done|]. intros [Hc Hs]%andb_prop.
  rewrite Hc. specialize (IH Hs). destruct (span _ s). simpl in *. by rewrite IH.
Qed.

(** A line that fits in the buffer is read whole, newline included. *)
Lemma read_line_line size line rest :
  no_char LF line = true -> no_char NUL line = true -> (String.length line + 1 < size)%nat ->
  read_line size (line +:+ newline +:+ rest) = (line +:+ newline, rest).
Proof.
  intros Hn H0 Hl. unfold read_line, fgets.
  assert (line +:+ newline +:+ rest <> EmptyString) as Hne by (by destruct line).
  destruct (line +:+ newline +:+ rest) eqn:E; [done|]. rewrite <- E.
  rewrite fgets_loop_line by (done || lia).
  rewrite cstr_all; [done|]. by rewrite no_char_app, H0.
Qed.

Lemma find_char_app f s c t i :
  find_char f s 0 = None -> f c = true -> find_char f (s +:+ String c t) i = Some (i + strlen s).
Proof.
  intros Hs Hc. revert i. induction s as [|d s IH]; intros i; simpl in *.
  - rewrite Hc. unfold strlen. simpl. f_equal. lia.
  - destruct (f d); [done|].
    assert (forall j k, find_char f s j = None -> find_char f s k = None) as Hshift.
    { clear. induction s as [|e s IH]; simpl; [done|]. intros j k. destruct (f e); [done|]. apply IH. }
    rewrite IH by (eapply Hshift; eauto). f_equal. unfold strlen. simpl. lia.
Qed.

Lemma sdrop_app s t : sdrop (String.length s) (s +:+ t) = t.
Proof. induction s; simpl; [by destruct t|done]. Qed.

Lemma join_path_ok size dir name : strlen dir + 1 + strlen name < size ->
  join_path size dir name = Ok (dir +:+ "/" +:+ name).
Proof.
  intros H. pose proof (strlen_nonneg name). unfold join_path, strcpy, strcat.
  rewrite (proj2 (Z.ltb_lt _ _)) by lia. simpl.
  rewrite (proj2 (Z.ltb_lt _ _)) by (change (strlen "/") with 1; lia). simpl.
  rewrite strlen_app. change (strlen "/") with 1.
  rewrite (proj2 (Z.ltb_lt _ _)) by lia. by rewrite append_assoc.
Qed.
