(* ===== verification/Lscpu.v ===== *)
(** * [mylscpu] (src/Assignment_2/mylscpu.c)

    The whole program: reading /proc/cpuinfo row by row, the cache sizes, the
    NUMA nodes and the vulnerabilities under /sys, and the report with its
    wrapped lines.  The calls [initscr]/[endwin] only give the terminal width. *)
From Stdlib Require Import ZArith Lia Ascii String.
From S2P Require Import Prelude CLib OsEnv.

Local Open Scope stdpp_scope.
Local Open Scope Z_scope.

Module Lscpu.

Definition BUFFER_SIZE : nat := 1024.
Definition PATH_SIZE : Z := 1024.
Definition INFO_LEN : Z := 1024.
Definition FLAG_LEN : Z := 2048.

Definition CPUINFO : string := "/proc/cpuinfo".
Definition NODE : string := "/sys/devices/system/node".
Definition ONLINE : string := "/sys/devices/system/cpu/online".
Definition IDX0 : string := "/sys/devices/system/cpu/cpu0/cache/index0/size".
Definition IDX1 : string := "/sys/devices/system/cpu/cpu0/cache/index1/size".
Definition IDX2 : string := "/sys/devices/system/cpu/cpu0/cache/index2/size".
Definition IDX3 : string := "/sys/devices/system/cpu/cpu0/cache/index3/size".
Definition VUL : string := "/sys/devices/system/cpu/vulnerabilities/".

(** The rows of /proc/cpuinfo. *)
Definition CPUINFO_VENDER_ID : nat := 2.
Definition CPUINFO_CPU_FAMILY : nat := 3.
Definition CPUINFO_MODEL : nat := 4.
Definition CPUINFO_MODEL_NAME : nat := 5.
Definition CPUINFO_STEPPING : nat := 6.
Definition CPUINFO_CPU_MHZ : nat := 8.
Definition CPUINFO_SIBLINGS : nat := 11.
Definition CPUINFO_CPU_CORES : nat := 13.
Definition CPUINFO_FLAGS : nat := 20.
Definition CPUINFO_CPU_BOGOMIPS : nat := 22.
Definition CPUINFO_ADDR_SIZE : nat := 26.

Record cpuInfo := mk_info {
  arch : string; opmode : string; byteorder : string;
  addrsize : string; online : string; venderid : string; cpufamily : string;
  model : string; modelname : string; stepping : string; speed : string; bogomips : string;
  vulnerability : list string; flags : string;
  numofcpu : Z; threads : Z; cores : Z; sockets : Z; siblings : Z
}.

(** ** ReadCpuInfo *)

(** The first loop: lines (or 1023-byte pieces of lines) beginning with "processor". *)
Fixpoint count_processors (fuel : nat) (fp : string) (num_of_cpu : Z) : Z :=
  match fuel with
  | O => num_of_cpu
  | S fuel =>
      match fgets BUFFER_SIZE fp with
      | None => num_of_cpu
      | Some (buf, rest) =>
          count_processors fuel rest
            (if starts "processor" (cstr buf) then num_of_cpu + 1 else num_of_cpu)
      end
  end.

Definition colon (c : ascii) : bool := Ascii.eqb c ":".

(** [ptr]: two characters after the first colon, or the whole line. *)
Definition value_of (buf : string) : res string :=
  match find_char colon buf 0 with
  | None => Ok buf
  | Some i => _ ← require (i + 2 <? Z.of_nat BUFFER_SIZE)%c OutOfBounds;
              Ok (sdrop (Z.to_nat (i + 2)) buf)
  end.

(** One field: read on to its row, and take the value. *)
Definition read_field (cnt row : nat) (fp : string) : res (string * string) :=
  let '(buf, rest) := read_rows BUFFER_SIZE (row - cnt) EmptyString fp in
  ptr ← value_of buf; Ok (ptr, rest).

(** Division of [unsigned long]s. *)
Definition udiv (a b : Z) : res Z := if (b =? 0)%c then Err DivideByZero else Ok (a / b).

Definition ReadCpuInfo (o : os) (info : cpuInfo) : res cpuInfo :=
  fp ← of_option (Exit 1) (fopen_r o CPUINFO);
  let numofcpu := count_processors (S (String.length fp)) fp 0 in
  '(ptr, fp) ← read_field 0 CPUINFO_VENDER_ID fp;
  venderid ← strcpy INFO_LEN ptr;
  '(ptr, fp) ← read_field CPUINFO_VENDER_ID CPUINFO_CPU_FAMILY fp;
  cpufamily ← strcpy INFO_LEN ptr;
  '(ptr, fp) ← read_field CPUINFO_CPU_FAMILY CPUINFO_MODEL fp;
  model ← strcpy INFO_LEN ptr;
  '(ptr, fp) ← read_field CPUINFO_MODEL CPUINFO_MODEL_NAME fp;
  modelname ← strcpy INFO_LEN ptr;
  '(ptr, fp) ← read_field CPUINFO_MODEL_NAME CPUINFO_STEPPING fp;
  stepping ← strcpy INFO_LEN ptr;
  '(ptr, fp) ← read_field CPUINFO_STEPPING CPUINFO_CPU_MHZ fp;
  speed ← strcpy INFO_LEN ptr;
  '(ptr, fp) ← read_field CPUINFO_CPU_MHZ CPUINFO_SIBLINGS fp;
  let siblings := sscanf_lu ptr (siblings info) in
  '(ptr, fp) ← read_field CPUINFO_SIBLINGS CPUINFO_CPU_CORES fp;
  let cores := sscanf_lu ptr (cores info) in
  '(ptr, fp) ← read_field CPUINFO_CPU_CORES CPUINFO_FLAGS fp;
  flags ← strcpy FLAG_LEN ptr;
  '(ptr, fp) ← read_field CPUINFO_FLAGS CPUINFO_CPU_BOGOMIPS fp;
  bogomips ← strcpy INFO_LEN ptr;
  '(ptr, fp) ← read_field CPUINFO_CPU_BOGOMIPS CPUINFO_ADDR_SIZE fp;
  addrsize ← strcpy INFO_LEN ptr;
  threads ← udiv siblings cores;
  per_thread ← udiv numofcpu threads;
  sockets ← udiv per_thread cores;
  Ok (mk_info (arch info) (opmode info) (byteorder info) addrsize (online info) venderid
        cpufamily model modelname stepping speed bogomips (vulnerability info) flags
        numofcpu threads cores sockets siblings).

(** ** ReadFileSystemCPU *)

(** The digits at the start of the size file, as an [int]. *)
Definition read_size (o : os) (path : string) : res Z :=
  fp ← of_option (Exit 1) (fopen_r o path);
  let buf := (read_line BUFFER_SIZE fp).1 in
  Ok (atoi (span isdigit buf).1).

(** [cacheVal[i] *= n] with an [unsigned long] [n]. *)
Definition times (v n : Z) : Z := s32 (u64 (u64 v * n)).

(** The unit loop: KiB become MiB from 1024 on. *)
Definition with_unit (v : Z) : Z * string :=
  if (1024 <=? v)%c then (Z.quot v 1024, "MiB") else (v, "KiB").

Definition ReadFileSystemCPU (o : os) (info : cpuInfo)
  : res (cpuInfo * list (Z * string)) :=
  fp ← of_option (Exit 1) (fopen_r o ONLINE);
  let online' := match fgets 1024 fp with Some (l, _) => cstr l | None => online info end in
  l1d ← read_size o IDX0;
  l1i ← read_size o IDX1;
  l2 ← read_size o IDX2;
  l3 ← read_size o IDX3;
  let n := numofcpu info in
  let info' := mk_info (arch info) (opmode info) (byteorder info) (addrsize info) online'
    (venderid info) (cpufamily info) (model info) (modelname info) (stepping info) (speed info)
    (bogomips info) (vulnerability info) (flags info) (numofcpu info) (threads info)
    (cores info) (sockets info) (siblings info) in
  Ok (info', map with_unit [times l1d n; times l1i n; times l2 n; times l3 (sockets info)]).

(** ** ReadFileSystemNode *)
Fixpoint count_nodes (o : os) (names : list string) (nodeCnt : Z) : res Z :=
  match names with
  | [] => Ok nodeCnt
  | d_name :: names =>
      nowPath ← join_path PATH_SIZE NODE d_name;
      statbuf ← of_option (Exit 1) (stat_of o nowPath);
      count_nodes o names
        (match st_kind statbuf with
         | IsDir => if starts "node" d_name then nodeCnt + 1 else nodeCnt
         | _ => nodeCnt
         end)
  end.

Definition ReadFileSystemNode (o : os) : res Z :=
  names ← of_option (Exit 1) (readdir_all o NODE);
  count_nodes o names 0.

(** ** ReadFileSystemVul *)
Definition vul_names : list string :=
  ["itlb_multihit"; "l1tf"; "mds"; "meltdown"; "spec_store_bypass"; "spectre_v1"; "spectre_v2";
   "srbds"; "tsx_async_abort"].

(** The nine [if]s: the entries named like the file get its first line. *)
Fixpoint store_vul (d_name fp : string) (names : list string) (vs : list string) : list string :=
  match names, vs with
  | n :: names, v :: vs =>
      (if String.eqb d_name n then (read_line BUFFER_SIZE fp).1 else v)
      :: store_vul d_name fp names vs
  | _, _ => vs
  end.

(** The directory loop stops at the first entry that cannot be opened. *)
Fixpoint read_vuls (o : os) (names vs : list string) : res (list string) :=
  match names with
  | [] => Ok vs
  | d_name :: names =>
      nowPath ← join_path PATH_SIZE VUL d_name;
      match fopen_r o nowPath with
      | None => Ok vs
      | Some fp => read_vuls o names (store_vul d_name fp vul_names vs)
      end
  end.

Definition ReadFileSystemVul (o : os) (info : cpuInfo) : res cpuInfo :=
  names ← of_option (Exit 1) (readdir_all o VUL);
  vs ← read_vuls o names (vulnerability info);
  Ok (mk_info (arch info) (opmode info) (byteorder info) (addrsize info) (online info)
    (venderid info) (cpufamily info) (model info) (modelname info) (stepping info) (speed info)
    (bogomips info) vs (flags info) (numofcpu info) (threads info)
    (cores info) (sockets info) (siblings info)).

(** ** PrintTerminal and PrintLSCPU *)
Definition blank : string := spaces 33.

(** The loop over [p]; a string without a newline is read past its end. *)
Fixpoint print_chars (termWidth : Z) (p : string) (i : Z) : res string :=
  match p with
  | EmptyString => Err OutOfBounds
  | String c t =>
      if Ascii.eqb c LF then Ok newline
      else
        pad ← (if (i =? 0)%c then Ok EmptyString
               else if (termWidth - 33 =? 0)%c then Err DivideByZero
               else Ok (if (Z.rem i (termWidth - 33) =? 0)%c then blank else EmptyString));
        rest ← print_chars termWidth t (i + 1);
        Ok (pad +:+ String c rest)
  end.
Definition PrintTerminal (termWidth : Z) (p : string) : res string := print_chars termWidth p 0.

(** A label of the report, then a wrapped value. *)
Definition print_field (termWidth : Z) (label value : string) : res string :=
  v ← PrintTerminal termWidth value; Ok (label +:+ v).

Fixpoint print_fields (termWidth : Z) (fields : list (string * string)) : res string :=
  match fields with
  | [] => Ok EmptyString
  | (label, value) :: fields =>
      a ← print_field termWidth label value;
      b ← print_fields termWidth fields;
      Ok (a +:+ b)
  end.

Definition cache_line (label : string) (c : Z * string) : string :=
  label +:+ show c.1 +:+ " " +:+ c.2 +:+ newline.

Definition PrintLSCPU (termWidth : Z) (info : cpuInfo) (caches : list (Z * string)) (nodeCnt : Z)
  : res string :=
  let cache i := nth i caches (0, EmptyString) in
  let vul i := nth i (vulnerability info) EmptyString in
  let head :=
    "Architecture:                    " +:+ arch info +:+ newline +:+
    "CPU op-mode(s):                  " +:+ opmode info +:+ newline +:+
    "Byte Order:                      " +:+ byteorder info +:+ newline +:+
    "Address sizes:                   " +:+ addrsize info +:+
    "CPU(s):                          " +:+ show (numofcpu info) +:+ newline +:+
    "On-line CPU(s) list:             " +:+ online info +:+
    "Thread(s) per core:              " +:+ show (threads info) +:+ newline +:+
    "Core(s) per socket:              " +:+ show (cores info) +:+ newline +:+
    "Socket(s):                       " +:+ show (sockets info) +:+ newline +:+
    "NUMA node(s):                    " +:+ show nodeCnt +:+ newline in
  a ← print_fields termWidth
    [("Vendor ID:                       ", venderid info);
     ("CPU family:                      ", cpufamily info);
     ("Model:                           ", model info);
     ("Model name:                      ", modelname info);
     ("Stepping:                        ", stepping info);
     ("CPU MHz:                         ", speed info);
     ("BogoMIPS:                        ", bogomips info)];
  let mid :=
    cache_line "L1d cache:                       " (cache 0%nat) +:+
    cache_line "L1i cache:                       " (cache 1%nat) +:+
    cache_line "L2 cache:                        " (cache 2%nat) +:+
    cache_line "L3 cache:                        " (cache 3%nat) in
  b ← print_fields termWidth
    [("NUMA node0 CPU(s):               ", online info);
     ("Vulnerability Itlb multihit:     ", vul 0%nat);
     ("Vulnerability L1tf:              ", vul 1%nat);
     ("Vulnerability Mds:               ", vul 2%nat);
     ("Vulnerability Meltdown:          ", vul 3%nat);
     ("Vulnerability Spec store bypass: ", vul 4%nat);
     ("Vulnerability Spectre v1:        ", vul 5%nat);
     ("Vulnerability Spectre v2:        ", vul 6%nat);
     ("Vulnerability Srbds:             ", vul 7%nat);
     ("Vulnerability Tsx async abort:   ", vul 8%nat);
     ("Flags:                           ", flags info)];
  Ok (head +:+ a +:+ mid +:+ b).

(** ** main: [machine] is [uname]'s, [first_byte] the byte at the lowest address
    of the [int] 0x12345678. *)
Definition empty_info : cpuInfo :=
  mk_info "" "" "" "" "" "" "" "" "" "" "" "" (replicate 9 EmptyString) "" 0 0 0 0 0.

Definition main (o : os) (machine : string) (first_byte : Z) : res string :=
  let termWidth := cols o in
  arch ← strcpy INFO_LEN machine;
  let byteorder := if (32 <? first_byte)%c then "Little Endian"%string else "Big Endian"%string in
  let info := mk_info arch "32-bit, 64-bit" byteorder "" "" "" "" "" "" "" "" ""
                (vulnerability empty_info) "" 0 0 0 0 0 in
  info ← ReadCpuInfo o info;
  '(info, caches) ← ReadFileSystemCPU o info;
  nodeCnt ← ReadFileSystemNode o;
  info ← ReadFileSystemVul o info;
  PrintLSCPU termWidth info caches nodeCnt.

End Lscpu.
