(* ===== verification/LscpuTheorems.v ===== *)
(** * What [mylscpu] reads and prints

    The rows of /proc/cpuinfo end in the right fields, the topology is the
    machine's, the vulnerabilities do not depend on the directory order, and the
    wrapped report puts every character in its column. *)
From Stdlib Require Import ZArith Lia Ascii String.
From S2P Require Import Prelude CLib OsEnv Lscpu.
Import Lscpu.

Local Open Scope stdpp_scope.
Local Open Scope Z_scope.

(** ** Files made of lines *)
Definition text (ls : list string) : string := foldr (fun l t => l +:+ newline +:+ t) EmptyString ls.

(** Lines the 1024-byte buffer holds whole. *)
Definition fits (l : string) : Prop :=
  no_char LF l = true /\ no_char NUL l = true /\ (String.length l + 1 < BUFFER_SIZE)%nat.

(** Row [r] (from 1) is "key: v" with no colon in the key. *)
Definition cpu_row (ls : list string) (r : nat) (v : string) : Prop :=
  exists k, no_char ":" k = true /\ ls !! (r - 1)%nat = Some (k +:+ ": " +:+ v).

Lemma read_line_text l ls : fits l -> read_line BUFFER_SIZE (text (l :: ls)) = (l +:+ newline, text ls).
Proof. intros (H1 & H2 & H3). by apply read_line_line. Qed.

Lemma read_rows_text ls : Forall fits ls -> forall n buf l, ls !! n = Some l ->
  read_rows BUFFER_SIZE (S n) buf (text ls) = (l +:+ newline, text (drop (S n) ls)).
Proof.
  induction 1 as [|a ls Ha Hls IH]; intros n buf l Hl; [done|].
  change (read_rows BUFFER_SIZE (S n) buf (text (a :: ls))) with
    (let '(line, rest) := read_line BUFFER_SIZE (text (a :: ls)) in read_rows BUFFER_SIZE n line rest).
  rewrite read_line_text by done. cbv iota.
  destruct n as [|n]; simpl in Hl; [by injection Hl as ->|]. by apply IH.
Qed.

Lemma no_char_find k : no_char ":" k = true -> find_char colon k 0 = None.
Proof.
  generalize 0. induction k as [|c k IH]; intros i; simpl; [done|]. intros [Hc Hk]%andb_prop.
  apply negb_true_iff in Hc. unfold colon at 1. rewrite Hc. by apply IH.
Qed.

Lemma value_of_row k v : no_char ":" k = true -> fits (k +:+ ": " +:+ v) ->
  value_of ((k +:+ ": " +:+ v) +:+ newline) = Ok (v +:+ newline).
Proof.
  intros Hk (_ & _ & Hl). unfold value_of. rewrite !append_assoc.
  change (": " +:+ v +:+ newline) with (String ":" (String " " (v +:+ newline))).
  rewrite find_char_app by (done || by apply no_char_find).
  rewrite !length_sapp in Hl. simpl in Hl. unfold strlen, BUFFER_SIZE in *.
  rewrite require_ok by (apply Z.ltb_lt; lia). simpl.
  replace (Z.to_nat (0 + Z.of_nat (String.length k) + 2)) with (String.length (k +:+ ": "))
    by (rewrite length_sapp; simpl; lia).
  change (k +:+ String ":" (String " " (v +:+ newline))) with (k +:+ ": " +:+ (v +:+ newline)).
  by rewrite <- (append_assoc k ": " (v +:+ newline)), sdrop_app.
Qed.

(** A field is the value of its row. *)
Lemma read_field_row ls cnt row v :
  Forall fits ls -> (cnt < row)%nat -> cpu_row ls row v ->
  read_field cnt row (text (drop cnt ls)) = Ok (v +:+ newline, text (drop row ls)).
Proof.
  intros Hls Hrow (k & Hk & Hl). unfold read_field.
  replace (row - cnt)%nat with (S (row - 1 - cnt))%nat by lia.
  erewrite read_rows_text; [|by apply Forall_drop|rewrite lookup_drop; replace (cnt + (row - 1 - cnt))%nat with (row - 1)%nat by lia; exact Hl].
  rewrite value_of_row; [|done|eapply Forall_lookup_1; eauto]. simpl.
  by rewrite drop_drop; replace (cnt + S (row - 1 - cnt))%nat with row by lia.
Qed.

(** The value of a row fits in its field. *)
Lemma row_strcpy ls row v cap : Forall fits ls -> cpu_row ls row v -> Z.of_nat BUFFER_SIZE <= cap ->
  strcpy cap (v +:+ newline) = Ok (v +:+ newline).
Proof.
  intros Hls (k & _ & Hl) Hcap. pose proof (Forall_lookup_1 _ _ _ _ Hls Hl) as (_ & _ & Hlen).
  rewrite !length_sapp in Hlen. unfold strcpy, strlen. rewrite length_sapp.
  rewrite (proj2 (Z.ltb_lt _ _)); [done|]. simpl in *. unfold BUFFER_SIZE in *. lia.
Qed.

(** The number of processor lines. *)
Definition processors (ls : list string) : Z :=
  Z.of_nat (List.length (List.filter (starts "processor") ls)).

Lemma starts_app p s t : starts p s = true -> starts p (s +:+ t) = true.
Proof.
  revert s. induction p as [|a p IH]; intros [|b s]; simpl; try done.
  intros [-> H]%andb_prop. by apply IH.
Qed.

Lemma starts_newline p s : no_char LF p = true -> starts p (s +:+ newline) = starts p s.
Proof.
  revert s. induction p as [|a p IH]; intros s Hp; [done|].
  simpl in Hp. apply andb_prop in Hp as [Ha Hp]. apply negb_true_iff in Ha.
  destruct s as [|b s]; simpl; [by rewrite Ha|]. by rewrite IH.
Qed.

Lemma count_processors_text ls : Forall fits ls -> forall fuel n,
  (List.length ls < fuel)%nat -> count_processors fuel (text ls) n = n + processors ls.
Proof.
  induction 1 as [|l ls Hl Hls IH]; intros fuel n Hf; destruct fuel as [|fuel]; simpl in Hf; try lia.
  - unfold processors. simpl. lia.
  - pose proof (read_line_text l ls Hl) as Hr. unfold read_line in Hr.
    change (count_processors (S fuel) (text (l :: ls)) n) with
      (match fgets BUFFER_SIZE (text (l :: ls)) with
       | None => n
       | Some (buf, rest) =>
          count_processors fuel rest (if starts "processor" (cstr buf) then n + 1 else n)
       end).
    destruct (fgets BUFFER_SIZE (text (l :: ls))) as [[buf rest]|];
      [|by destruct l]. injection Hr as -> ->.
    rewrite IH by lia. rewrite starts_newline by done.
    unfold processors. cbn [List.filter]. destruct (starts "processor" l); cbn [List.length]; lia.
Qed.

Lemma text_length ls : (List.length ls <= String.length (text ls))%nat.
Proof.
  induction ls as [|l ls IH]; simpl; [lia|]. rewrite length_sapp. simpl. lia.
Qed.

(** ** Dividing the processors up *)

(** A machine of [s] sockets, [c] cores each, [t] threads per core. *)
Lemma topology t c s : 0 < t -> 0 < c ->
  udiv (t * c) c = Ok t /\ udiv (s * (t * c)) t = Ok (s * c) /\ udiv (s * c) c = Ok s.
Proof.
  intros Ht Hc. unfold udiv.
  rewrite !(proj2 (Z.eqb_neq _ _)) by lia. rewrite !Z.div_mul by lia.
  replace (s * (t * c)) with (s * c * t) by lia. by rewrite Z.div_mul by lia.
Qed.

(** ** The wrapped report *)

(** Where the characters go: [i] characters are already printed. *)
Definition column (w i k : Z) : Z := k + 33 * ((i + k) / w - (if (i =? 0)%c then 0 else (i - 1) / w)).

Lemma get_app_r s t n : String.get (String.length s + n)%nat (s +:+ t) = String.get n t.
Proof. induction s; simpl; [done|exact IHs]. Qed.

Lemma get_app_l s t n : (n < String.length s)%nat -> String.get n (s +:+ t) = String.get n s.
Proof. revert n. induction s as [|c s IH]; intros [|n]; simpl; try lia; auto with lia. Qed.

Lemma length_blank : String.length blank = 33%nat.
Proof. reflexivity. Qed.

Lemma div_step i w : 0 < w -> 0 < i ->
  i / w = (i - 1) / w + (if (Z.rem i w =? 0)%c then 1 else 0).
Proof.
  intros Hw Hi. rewrite Z.rem_mod_nonneg by lia.
  pose proof (Z.div_mod i w ltac:(lia)). pose proof (Z.mod_pos_bound i w Hw).
  pose proof (Z.div_mod (i - 1) w ltac:(lia)). pose proof (Z.mod_pos_bound (i - 1) w Hw).
  destruct (Z.eqb_spec (i mod w) 0); nia.
Qed.

(** The padding in front of character number [i]. *)
Definition padding (w i : Z) : string :=
  if (i =? 0)%c then EmptyString else if (Z.rem i w =? 0)%c then blank else EmptyString.

Lemma column_0 w i : 0 < w -> 0 <= i -> column w i 0 = strlen (padding w i).
Proof.
  intros Hw Hi. unfold column, padding. destruct (Z.eqb_spec i 0) as [->|Hne].
  - change (0 + 0) with 0. rewrite Z.div_0_l by lia. reflexivity.
  - replace (i + 0) with i by lia. rewrite (div_step i w) by lia. destruct (Z.rem i w =? 0); unfold strlen; simpl; lia.
Qed.

Lemma column_S w i k : 0 < w -> 0 <= i -> column w i (k + 1) = strlen (padding w i) + 1 + column w (i + 1) k.
Proof.
  intros Hw Hi. rewrite <- column_0 by done. unfold column. rewrite (proj2 (Z.eqb_neq (i + 1) 0)) by lia.
  replace (i + 1 - 1) with i by lia. replace (i + (k + 1)) with (i + 1 + k) by lia.
  replace (i + 0) with i by lia. lia.
Qed.

Lemma column_nonneg w i k : 0 < w -> 0 <= i -> 0 <= k -> 0 <= column w i k.
Proof.
  intros Hw Hi Hk. unfold column.
  assert ((if (i =? 0)%c then 0 else (i - 1) / w) <= (i + k) / w).
  { destruct (Z.eqb_spec i 0); [apply Z.div_pos; lia|apply Z.div_le_mono; lia]. }
  lia.
Qed.

(** The padding of a character is part of what precedes it. *)
Lemma padding_column w i k : 0 < w -> 0 <= i -> 0 <= k -> strlen (padding w (i + k)) <= column w i k.
Proof.
  intros Hw Hi Hk. rewrite <- column_0 by lia. unfold column.
  replace (i + k + 0) with (i + k) by lia.
  destruct (Z.eqb_spec (i + k) 0), (Z.eqb_spec i 0); try lia.
  - subst i. pose proof (Z.div_pos (0 + k - 1) w ltac:(lia) Hw). lia.
  - pose proof (Z.div_le_mono (i - 1) (i + k - 1) w Hw ltac:(lia)). lia.
Qed.

Lemma padding_spaces w j y : (y < String.length (padding w j))%nat ->
  String.get y (padding w j) = Some SP.
Proof.
  unfold padding. do 2 (case_bool; simpl; try lia). intros Hy.
  do 33 (destruct y as [|y]; [done|]). lia.
Qed.

Lemma print_chars_cons W c p i : 33 < W -> 0 <= i -> Ascii.eqb c LF = false ->
  print_chars W (String c p) i =
    (rest ← print_chars W p (i + 1); Ok (padding (W - 33) i +:+ String c rest)).
Proof.
  intros HW Hi Hc. cbn [print_chars]. rewrite Hc. unfold padding.
  destruct (Z.eqb_spec i 0); [done|]. rewrite (proj2 (Z.eqb_neq (W - 33) 0)) by lia. simpl. by case_bool.
Qed.

(** Every character of the line is printed in its place, after its padding. *)
Lemma print_chars_places W p : 33 < W -> no_char LF p = true -> forall i, 0 <= i ->
  exists out, print_chars W (p +:+ newline) i = Ok out /\
    forall k, (k < String.length p)%nat ->
      let col := Z.to_nat (column (W - 33) i (Z.of_nat k)) in
      String.get col out = String.get k p /\
      forall y, (y < String.length (padding (W - 33) (i + Z.of_nat k)))%nat ->
        String.get (col - String.length (padding (W - 33) (i + Z.of_nat k)) + y) out = Some SP.
Proof.
  intros HW. induction p as [|c p IH]; intros Hp i Hi.
  - exists newline. split; [done|]. simpl. lia.
  - simpl in Hp. apply andb_prop in Hp as [Hc Hp]. apply negb_true_iff in Hc.
    destruct (IH Hp (i + 1) ltac:(lia)) as (out & Ho & Hk).
    change (String c p +:+ newline) with (String c (p +:+ newline)).
    rewrite print_chars_cons, Ho by done. simpl.
    exists (padding (W - 33) i +:+ String c out). split; [done|]. intros k Hlen.
    destruct k as [|k].
    + change (Z.of_nat 0) with 0. rewrite Z.add_0_r, column_0 by lia. unfold strlen. rewrite Nat2Z.id.
      cbv zeta. split.
      * rewrite <- (Nat.add_0_r (String.length _)). by rewrite get_app_r.
      * intros y Hy. rewrite Nat.sub_diag, get_app_l by done. by apply padding_spaces.
    + specialize (Hk k ltac:(simpl in Hlen; lia)) as [Hget Hpad].
      replace (Z.of_nat (S k)) with (Z.of_nat k + 1) by lia. rewrite column_S by lia.
      pose proof (column_nonneg (W - 33) (i + 1) (Z.of_nat k) ltac:(lia) ltac:(lia) ltac:(lia)) as Hcol.
      unfold strlen. cbv zeta.
      replace (Z.to_nat (Z.of_nat (String.length (padding (W - 33) i)) + 1 + column (W - 33) (i + 1) (Z.of_nat k)))
        with (String.length (padding (W - 33) i) + S (Z.to_nat (column (W - 33) (i + 1) (Z.of_nat k))))%nat by lia.
      split; [by rewrite get_app_r|]. intros y Hy.
      replace (i + (Z.of_nat k + 1)) with (i + 1 + Z.of_nat k) in * by lia.
      cbv zeta in Hpad. specialize (Hpad y Hy).
      set (q := padding (W - 33) (i + 1 + Z.of_nat k)) in *.
      assert (String.length q <= Z.to_nat (column (W - 33) (i + 1) (Z.of_nat k)))%nat as Hq.
      { pose proof (padding_column (W - 33) (i + 1) (Z.of_nat k)) as Hpc. fold q in Hpc.
        unfold strlen in Hpc. lia. }
      replace (String.length (padding (W - 33) i) + S (Z.to_nat (column (W - 33) (i + 1) (Z.of_nat k)))
               - String.length q + y)%nat
        with (String.length (padding (W - 33) i) + S (Z.to_nat (column (W - 33) (i + 1) (Z.of_nat k))
               - String.length q + y))%nat by lia.
      by rewrite get_app_r.
Qed.

(** ** Vulnerabilities *)

(** The first line of the file of a vulnerability. *)
Definition vul_line (o : os) (name : string) : string :=
  match fopen_r o (VUL +:+ "/" +:+ name) with
  | Some fp => (read_line BUFFER_SIZE fp).1
  | None => EmptyString
  end.

(** What entry [i] holds after the directory [names] was read over [vs]. *)
Definition vul_entry (o : os) (names : list string) (name old : string) : string :=
  if decide (name ∈ names) then vul_line o name else old.

Definition openable (o : os) (name : string) : Prop :=
  strlen VUL + 1 + strlen name < PATH_SIZE /\ is_Some (fopen_r o (VUL +:+ "/" +:+ name)).

Lemma store_vul_zip d fp ns : forall vs, List.length vs = List.length ns ->
  store_vul d fp ns vs =
    zip_with (fun n v => if String.eqb d n then (read_line BUFFER_SIZE fp).1 else v) ns vs.
Proof.
  induction ns as [|n ns IH]; intros [|v vs] Hl; try done. simpl. f_equal. apply IH. simpl in Hl. lia.
Qed.

Lemma zip_with_ext_l {A B C} (f g : A -> B -> C) l k :
  (forall a b, f a b = g a b) -> zip_with f l k = zip_with g l k.
Proof. intros H. revert k. induction l as [|a l IH]; intros [|b k]; simpl; [done..|]. by rewrite H, IH. Qed.

Lemma zip_with_twice {A B} (f g : A -> B -> B) l k : List.length k = List.length l ->
  zip_with f l (zip_with g l k) = zip_with (fun a b => f a (g a b)) l k.
Proof.
  revert k. induction l as [|a l IH]; intros [|b k] Hl; simpl; try done. f_equal. apply IH. simpl in Hl. lia.
Qed.

Lemma zip_with_second {A B} (l : list A) : forall k : list B, List.length k = List.length l ->
  zip_with (fun _ b => b) l k = k.
Proof. induction l as [|a l IH]; intros [|b k] Hl; simpl; try done. f_equal. apply IH. simpl in Hl. lia. Qed.

(** The loop over the directory, whatever its order. *)
Lemma read_vuls_entries o names : Forall (openable o) names -> forall vs,
  List.length vs = List.length vul_names ->
  read_vuls o names vs = Ok (zip_with (vul_entry o names) vul_names vs).
Proof.
  induction 1 as [|d names [Hlen [fp Hfp]] Hnames IH]; intros vs Hvs.
  - cbn [read_vuls]. f_equal. symmetry. erewrite zip_with_ext_l; [by apply zip_with_second|].
    intros a b. unfold vul_entry. rewrite decide_False; [done|set_solver].
  - cbn [read_vuls]. rewrite join_path_ok by done. cbn [mbind res_bind]. rewrite Hfp.
    rewrite store_vul_zip by done. rewrite IH by (rewrite length_zip_with_l; lia).
    rewrite zip_with_twice by done. f_equal. apply zip_with_ext_l. intros n v. unfold vul_entry, vul_line.
    destruct (String.eqb_spec d n) as [->|Hne].
    + rewrite Hfp. rewrite (decide_True (P := n ∈ n :: names)) by set_solver. by case_decide.
    + destruct (decide (n ∈ names)).
      * rewrite decide_True by set_solver. done.
      * rewrite decide_False by set_solver. done.
Qed.

(** * Properties *)

(** C38: /proc/cpuinfo is read into the right fields. When its lines fit in the
    buffer and rows 2, 3, 4, 5, 6, 8, 11, 13, 20, 22 and 26 are "key: value",
    every text field is the value of its row with its newline, the CPUs are the
    processor lines, and on a machine of [s] sockets with [c] cores of [t]
    threads each the program finds [t], [c] and [s]. *)
Theorem cpuinfo_fields o info ls v2 v3 v4 v5 v6 v8 v20 v22 v26 t c s :
  fopen_r o CPUINFO = Some (text ls) -> Forall fits ls ->
  cpu_row ls 2 v2 -> cpu_row ls 3 v3 -> cpu_row ls 4 v4 -> cpu_row ls 5 v5 -> cpu_row ls 6 v6 ->
  cpu_row ls 8 v8 -> cpu_row ls 11 (show (t * c)) -> cpu_row ls 13 (show c) ->
  cpu_row ls 20 v20 -> cpu_row ls 22 v22 -> cpu_row ls 26 v26 ->
  0 < t -> 0 < c -> t * c <= ULONG_MAX -> processors ls = s * (t * c) ->
  exists info', ReadCpuInfo o info = Ok info' /\
    venderid info' = v2 +:+ newline /\ cpufamily info' = v3 +:+ newline /\
    model info' = v4 +:+ newline /\ modelname info' = v5 +:+ newline /\
    stepping info' = v6 +:+ newline /\ speed info' = v8 +:+ newline /\
    flags info' = v20 +:+ newline /\ bogomips info' = v22 +:+ newline /\
    addrsize info' = v26 +:+ newline /\
    numofcpu info' = s * (t * c) /\ threads info' = t /\ cores info' = c /\ sockets info' = s.
Proof.
  intros Hf Hls H2 H3 H4 H5 H6 H8 H11 H13 H20 H22 H26 Ht Hc Hmax Hp.
  destruct (topology t c s Ht Hc) as (T1 & T2 & T3).
  unfold ReadCpuInfo. rewrite Hf. cbn [of_option mbind res_bind].
  rewrite count_processors_text, Hp by (done || (pose proof (text_length ls); lia)).
  rewrite Z.add_0_l. change (text ls) with (text (drop 0 ls)).
  do 11 (erewrite read_field_row by (eassumption || (unfold CPUINFO_VENDER_ID, CPUINFO_CPU_FAMILY,
      CPUINFO_MODEL, CPUINFO_MODEL_NAME, CPUINFO_STEPPING, CPUINFO_CPU_MHZ, CPUINFO_SIBLINGS,
      CPUINFO_CPU_CORES, CPUINFO_FLAGS, CPUINFO_CPU_BOGOMIPS, CPUINFO_ADDR_SIZE; lia));
    cbn [mbind res_bind];
    try (erewrite row_strcpy by (eassumption || (unfold BUFFER_SIZE, INFO_LEN, FLAG_LEN; lia));
         cbn [mbind res_bind])).
  unfold sscanf_lu. rewrite !scan_lu_show by (done || nia).
  rewrite T1. cbn [mbind res_bind]. rewrite T2. cbn [mbind res_bind]. rewrite T3. cbn [mbind res_bind].
  eexists. split; [reflexivity|]. simpl. repeat split; lia.
Qed.

(** Twenty-six rows of one processor of a machine with 1 socket, 1 core, 2 threads,
    then the line of the second processor. *)
Definition demo_cpuinfo : list string :=
  ["processor	: 0"; "vendor_id	: AuthenticAMD"; "cpu family	: 23"; "model		: 113";
   "model name	: Ryzen"; "stepping	: 10"; "microcode	: 0xde"; "cpu MHz		: 800.0"; "cache size	: 12288 KB";
   "physical id	: 0"; "siblings	: 2"; "core id		: 0"; "cpu cores	: 1"; "apicid		: 0";
   "initial apicid	: 0"; "fpu		: yes"; "fpu_exception	: yes"; "cpuid level	: 22"; "wp		: yes";
   "flags		: fpu vme"; "bugs		: mds"; "bogomips	: 6399.96"; "TLB size	: 3072 4K pages"; "clflush size	: 64";
   "cache_alignment	: 64"; "address sizes	: 43 bits physical"; "power management:"; "";
   "processor	: 1"].
Definition demo_os (cpuinfo : string) : os :=
  mk_os (fun p => if String.eqb p CPUINFO then Some cpuinfo else None) (fun _ => None) (fun _ => None)
    (fun _ => true) (fun _ => true) (fun _ => None) (fun _ => None) gmtime 0 100 1 0 80.

Lemma cpuinfo_fields_witness :
  exists info', ReadCpuInfo (demo_os (text demo_cpuinfo)) empty_info = Ok info' /\
    numofcpu info' = 2 /\ threads info' = 2 /\ cores info' = 1 /\ sockets info' = 1.
Proof.
  destruct (cpuinfo_fields (demo_os (text demo_cpuinfo)) empty_info demo_cpuinfo "AuthenticAMD" "23" "113" "Ryzen"
    "10" "800.0" "fpu vme" "6399.96" "43 bits physical" 2 1 1) as (info' & H & Hrest).
  - reflexivity.
  - repeat (apply Forall_cons; split; [split; [reflexivity|split; [reflexivity|apply Nat.ltb_lt; reflexivity]]|]).
    apply Forall_nil. exact I.
  - exists "vendor_id	"; split; reflexivity.
  - exists "cpu family	"; split; reflexivity.
  - exists "model		"; split; reflexivity.
  - exists "model name	"; split; reflexivity.
  - exists "stepping	"; split; reflexivity.
  - exists "cpu MHz		"; split; reflexivity.
  - exists "siblings	"; split; reflexivity.
  - exists "cpu cores	"; split; reflexivity.
  - exists "flags		"; split; reflexivity.
  - exists "bogomips	"; split; reflexivity.
  - exists "address sizes	"; split; reflexivity.
  - lia.
  - lia.
  - vm_compute. discriminate.
  - reflexivity.
  - exists info'. split; [exact H|]. destruct_and! Hrest. auto.
Defined.

(** The report is laid out in columns. On a terminal [W] > 33 columns wide, the
    [k]-th character of a value printed after a 33-character label stands in
    column 33 + k mod (W - 33) of row k / (W - 33) of the value, and when a new
    row begins, its first 33 columns are blank. *)
Theorem report_columns W label v : 33 < W -> String.length label = 33%nat -> no_char LF v = true ->
  exists out, print_field W label (v +:+ newline) = Ok out /\
    forall k, 0 <= k < strlen v ->
      let row := k / (W - 33) in let x := k mod (W - 33) in
      String.get (Z.to_nat (row * W + 33 + x)) out = String.get (Z.to_nat k) v /\
      (0 < row -> x = 0 -> forall y, 0 <= y < 33 ->
         String.get (Z.to_nat (row * W + y)) out = Some SP).
Proof.
  intros HW Hl Hv. destruct (print_chars_places W v HW Hv 0 ltac:(lia)) as (out & Ho & Hk).
  unfold print_field, PrintTerminal. rewrite Ho. cbn [mbind res_bind].
  exists (label +:+ out). split; [done|]. intros k Hlen. set (w := W - 33) in *.
  set (row := k / w). set (x := k mod w).
  pose proof (Z.div_mod k w ltac:(lia)) as Hdm. fold row x in Hdm.
  assert (column w 0 k = row * W + x) as Hcol.
  { unfold column. rewrite Z.eqb_refl, Z.add_0_l, Z.sub_0_r. fold row. subst w. lia. }
  assert (0 <= row) by (apply Z.div_pos; lia). assert (0 <= row * W) by nia.
  assert (0 <= x < w) by (apply Z.mod_pos_bound; lia).
  unfold strlen in Hlen. destruct (Hk (Z.to_nat k) ltac:(lia)) as [Hget Hpad].
  rewrite Z2Nat.id in Hget, Hpad by lia. rewrite Hcol in Hget, Hpad. split.
  - rewrite <- Hget, <- (get_app_r label out), Hl. f_equal. lia.
  - intros Hr Hx y Hy. rewrite Z.add_0_l in Hpad.
    assert (padding w k = blank) as Hb.
    { unfold padding. rewrite (proj2 (Z.eqb_neq k 0)) by lia.
      rewrite Z.rem_mod_nonneg by lia. fold x. by rewrite Hx. }
    rewrite Hb, length_blank in Hpad. specialize (Hpad (Z.to_nat y) ltac:(lia)).
    rewrite <- Hpad, <- (get_app_r label out), Hl. f_equal. nia.
Qed.

Lemma report_columns_witness :
  exists out, print_field 36 "Flags:                           " ("fpu vme de" +:+ newline) = Ok out /\
    String.get 36 out = Some SP /\ String.get 69 out = Some " "%char.
Proof.
  destruct (report_columns 36 "Flags:                           " "fpu vme de" ltac:(lia)
    ltac:(reflexivity) ltac:(reflexivity)) as (out & H & Hk).
  exists out. split; [exact H|]. 
  assert (0 <= 3 < strlen "fpu vme de") as H3 by (vm_compute; split; [discriminate|reflexivity]).
  destruct (Hk 3 H3) as [H1 H2]. split; [|exact H1]. apply (H2 eq_refl eq_refl 0). lia.
Defined.

(** When a value can be printed at all: [PrintTerminal] succeeds exactly when the
    text has a newline and the width is not 33 (or the newline comes at once or
    second). A value without a newline (a vulnerability the kernel does not
    list, a flags line cut by the buffer) is read past its end. *)
Theorem print_terminal_defined W p :
  is_ok (PrintTerminal W p) = true <->
  exists a b, p = a +:+ newline +:+ b /\ no_char LF a = true /\ (W <> 33 \/ (String.length a <= 1)%nat).
Proof.
  unfold PrintTerminal.
  assert (forall i, 0 <= i -> is_ok (print_chars W p i) = true <->
    exists a b, p = a +:+ newline +:+ b /\ no_char LF a = true /\
      (W <> 33 \/ (Z.of_nat (String.length a) + i <= 1) \/ a = EmptyString)) as Hgen.
  { induction p as [|c p IH]; intros i Hi; cbn [print_chars].
    - split; [done|]. by intros ([|? ?] & b & H & _).
    - destruct (Ascii.eqb_spec c LF) as [->|Hc].
      + split; [|done]. intros _. exists EmptyString, p. auto.
      + assert (is_ok (print_chars W p (i + 1)) = true /\ (W <> 33 \/ i = 0) <->
          exists a b, String c p = a +:+ newline +:+ b /\ no_char LF a = true /\
            (W <> 33 \/ (Z.of_nat (String.length a) + i <= 1) \/ a = EmptyString)) as <-.
        { rewrite IH by lia. split.
          - intros [(a & b & -> & Ha & Hw) H0]. exists (String c a), b. split; [done|].
            split; [simpl; rewrite (proj2 (Ascii.eqb_neq c LF)); done|]. destruct Hw as [?|[?| ->]]; simpl; lia.
          - intros ([|d a] & b & [= -> ->] & Ha & Hw); [done|]. simpl in Ha.
            apply andb_prop in Ha as [_ Ha]. simpl in Hw. split; [|destruct Hw as [?|[?|?]]; [lia|lia|done]].
            exists a, b. split; [done|]. split; [done|]. destruct Hw as [?|[?|?]]; [lia|lia|done]. }
        destruct (Z.eqb_spec i 0), (Z.eqb_spec (W - 33) 0); simpl.
        all: destruct (print_chars W p (i + 1)); simpl; intuition lia. }
  rewrite Hgen by lia. split; intros (a & b & H1 & H2 & H3); exists a, b; (split; [done|split; [done|]]).
  - destruct H3 as [?|[?| ->]]; simpl; lia.
  - destruct H3 as [?|?]; lia.
Qed.

(** The vulnerability entries do not depend on the order in which readdir
    lists the directory: entry [i] is the first line of its file when the file
    is there, and what it was before otherwise. *)
Theorem vulnerabilities_read o info names :
  readdir_all o VUL = Some names -> Forall (openable o) names ->
  List.length (vulnerability info) = 9%nat ->
  exists info', ReadFileSystemVul o info = Ok info' /\
    vulnerability info' = zip_with (vul_entry o names) vul_names (vulnerability info).
Proof.
  intros Hd Ho Hl. unfold ReadFileSystemVul. rewrite Hd. cbn [of_option mbind res_bind].
  rewrite read_vuls_entries by done. cbn [mbind res_bind]. by eexists.
Qed.

Definition vul_os : os :=
  mk_os (fun p => if String.eqb p (VUL +:+ "/mds") then Some ("Not affected" +:+ newline) else None)
    (fun p => if String.eqb p VUL then Some ["mds"] else None) (fun _ => None)
    (fun _ => true) (fun _ => true) (fun _ => None) (fun _ => None) gmtime 0 100 1 0 80.

Lemma vulnerabilities_read_witness :
  exists info', ReadFileSystemVul vul_os empty_info = Ok info' /\
    nth 2 (vulnerability info') "" = "Not affected" +:+ newline /\ nth 1 (vulnerability info') "x" = "".
Proof.
  destruct (vulnerabilities_read vul_os empty_info ["mds"] ltac:(reflexivity)) as (info' & H & Hv).
  - repeat constructor. exists ("Not affected" +:+ newline). reflexivity.
  - reflexivity.
  - exists info'. rewrite Hv. split; [exact H|]. split; reflexivity.
Defined.
