(* ===== verification/LongDouble.v ===== *)
(** * [long double] on x86-64

    The 80-bit extended format of the x87 (64-bit significand, 15-bit exponent)
    as an instance of the standard library's [spec_float], rounding to nearest
    even: arithmetic, comparisons, conversions to and from integers, and the
    [%Lf] directives of [scanf] and [printf]. *)
From Stdlib Require Import ZArith Lia Ascii String SpecFloat.
From S2P Require Import Prelude CLib.

Local Open Scope stdpp_scope.
Local Open Scope Z_scope.

Definition long_double : Type := spec_float.
Definition ld_prec : Z := 64.
Definition ld_emax : Z := 16384.

Definition ld_zero : long_double := S754_zero false.
Definition ld_of_Z (z : Z) : long_double := binary_normalize ld_prec ld_emax z 0 false.
Definition ld_add : long_double -> long_double -> long_double := SFadd ld_prec ld_emax.
Definition ld_sub : long_double -> long_double -> long_double := SFsub ld_prec ld_emax.
Definition ld_mul : long_double -> long_double -> long_double := SFmul ld_prec ld_emax.
Definition ld_div : long_double -> long_double -> long_double := SFdiv ld_prec ld_emax.

Definition isnan (x : long_double) : bool := match x with S754_nan => true | _ => false end.
Definition isinf (x : long_double) : bool := match x with S754_infinity _ => true | _ => false end.
Definition ld_lt (a b : long_double) : bool := SFltb a b.
Definition ld_gt (a b : long_double) : bool := SFltb b a.

(** The magnitude of a finite number as a fraction. *)
Definition ratio (m : positive) (e : Z) : Z * Z :=
  if (0 <=? e)%c then (Z.pos m * 2 ^ e, 1) else (Z.pos m, 2 ^ (- e)).

(** Conversion to an integer type of values [lo] to [hi]: truncation; a value that
    does not fit is undefined. *)
Definition ld_trunc (lo hi : Z) (x : long_double) : res Z :=
  match x with
  | S754_zero _ => Ok 0
  | S754_finite s m e =>
      let '(n, d) := ratio m e in
      let q := if s then - (n / d) else n / d in
      if ((lo <=? q)%c && (q <=? hi)%c)%bool then Ok q else Err Overflow
  | _ => Err Overflow
  end.
Definition ld_to_ull : long_double -> res Z := ld_trunc 0 ULONG_MAX.
Definition ld_to_int : long_double -> res Z := ld_trunc (- 2 ^ 31) (2 ^ 31 - 1).

(** ** Printing: [%.pLf] is exact, ties to even *)
Definition round_half_even (n d : Z) : Z :=
  let q := n / d in
  match 2 * (n mod d) ?= d with
  | Lt => q
  | Gt => q + 1
  | Eq => if Z.even q then q else q + 1
  end.

Definition fixed (p : Z) (n d : Z) : string :=
  let v := round_half_even (n * 10 ^ p) d in
  show_u (v / 10 ^ p) +:+ (if (p =? 0)%c then "" else "." +:+ lpad "0"%char p (show_u (v mod 10 ^ p))).

Definition show_ld (p : Z) (x : long_double) : string :=
  match x with
  | S754_zero s => (if s then "-" else "") +:+ fixed p 0 1
  | S754_infinity s => (if s then "-inf" else "inf")
  | S754_nan => "nan"
  | S754_finite s m e => let '(n, d) := ratio m e in (if s then "-" else "") +:+ fixed p n d
  end.

(** [%w.pLf] *)
Definition fmt_Lf (w p : Z) (x : long_double) : string := lpad SP w (show_ld p x).

(** ** Scanning: the value of [n / 10^k] rounded to nearest even *)

(** Enough bits of the quotient, the last one sticky. *)
Definition ld_of_ratio (n d : Z) : long_double :=
  let shift := ld_prec + 3 + Z.log2 d in
  let q := n * 2 ^ shift / d in
  let sticky := if (n * 2 ^ shift mod d =? 0)%c then 0 else 1 in
  binary_normalize ld_prec ld_emax (2 * q + sticky) (- shift - 1) false.

(** [%Lf] on decimal notation: a sign, digits, and a fraction. *)
Definition scan_Lf (s : string) : scan long_double :=
  match skip_spaces s with
  | EmptyString => ScanEof
  | s1 =>
      let '(neg, s2) := read_sign s1 in
      let '(whole, s3) := span isdigit s2 in
      let '(frac, rest) := match s3 with
                           | String "."%char t => span isdigit t
                           | _ => (EmptyString, s3)
                           end in
      match whole, frac with
      | EmptyString, EmptyString => ScanFail rest
      | _, _ =>
          let v := ld_of_ratio (digits_value 0 (whole +:+ frac)) (10 ^ strlen frac) in
          ScanVal (if neg then SFopp v else v) rest
      end
  end.

(** ** RoundDouble, the same function in [myps.c] and [mytop.c] *)
Fixpoint times_ten (n : nat) (x : long_double) : long_double :=
  match n with O => x | S n => times_ten n (ld_mul x (ld_of_Z 10)) end.
Fixpoint over_ten (n : nat) (x : long_double) : long_double :=
  match n with O => x | S n => over_ten n (ld_div x (ld_of_Z 10)) end.

Definition RoundDouble (src : long_double) (rdx : nat) : res long_double :=
  match rdx with
  | O => v ← ld_to_ull src; Ok (ld_of_Z v)
  | _ =>
      let tmp := times_ten (S rdx) src in
      whole ← ld_to_ull tmp;
      let val := whole mod 10 in
      tmp ← ld_to_ull (ld_div tmp (ld_of_Z 10));
      let tmp := ld_of_Z tmp in
      let tmp := if (5 <=? val)%c then ld_add tmp (ld_of_Z 1) else tmp in
      Ok (over_ten rdx tmp)
  end.

(** ** The order of [long double] *)

(** A number that is not NaN is placed by its class, its exponent and its
    significand. *)
Definition ld_key (x : long_double) : Z * Z * Z :=
  match x with
  | S754_infinity true => (-2, 0, 0)
  | S754_finite true m e => (-1, - e, - Z.pos m)
  | S754_zero _ | S754_nan => (0, 0, 0)
  | S754_finite false m e => (1, e, Z.pos m)
  | S754_infinity false => (2, 0, 0)
  end.
Definition key_lt (a b : Z * Z * Z) : Prop :=
  let '(a1, a2, a3) := a in let '(b1, b2, b3) := b in
  a1 < b1 \/ (a1 = b1 /\ (a2 < b2 \/ (a2 = b2 /\ a3 < b3))).

Lemma ld_lt_key a b : isnan a = false -> isnan b = false ->
  ld_lt a b = true <-> key_lt (ld_key a) (ld_key b).
Proof.
  unfold ld_lt, SFltb, key_lt. destruct a as [s|s| |s m e], b as [s'|s'| |s' m' e']; try discriminate;
    intros _ _; try (repeat match goal with x : bool |- _ => destruct x end; simpl; intuition (discriminate || lia)).
  simpl. change (PosDef.Pos.compare_cont Eq m m') with (Pos.compare m m').
  destruct s, s'; simpl; [| intuition (discriminate || lia) | intuition (discriminate || lia) |];
    destruct (Z.compare_spec e e'), (Pos.compare_spec m m'); simpl; intuition (discriminate || lia).
Qed.

Lemma key_lt_irrefl a : ~ key_lt a a.
Proof. destruct a as [[a1 a2] a3]. simpl. lia. Qed.
Lemma key_lt_trans a b c : key_lt a b -> key_lt b c -> key_lt a c.
Proof. destruct a as [[? ?] ?], b as [[? ?] ?], c as [[? ?] ?]. simpl. lia. Qed.
Lemma key_lt_total a b : key_lt a b \/ a = b \/ key_lt b a.
Proof.
  destruct a as [[a1 a2] a3], b as [[b1 b2] b3]. simpl.
  destruct (Z.lt_total a1 b1) as [?|[->|?]]; [lia| |lia].
  destruct (Z.lt_total a2 b2) as [?|[->|?]]; [lia| |lia].
  destruct (Z.lt_total a3 b3) as [?|[->|?]]; [lia| |lia]. auto.
Qed.

(** ** Rounding gives a number *)
Lemma shr_1_nonneg r : 0 <= shr_m r -> 0 <= shr_m (shr_1 r).
Proof. destruct r as [m b s]. simpl. destruct m as [|[p|p|]|p]; simpl; lia. Qed.
Lemma iter_shr_1_nonneg p : forall r, 0 <= shr_m r -> 0 <= shr_m (SpecFloat.iter_pos shr_1 p r).
Proof. induction p; intros r H; simpl; eauto using shr_1_nonneg. Qed.
Lemma shr_fexp_nonneg prec emax m e l : 0 <= m -> 0 <= shr_m (shr_fexp prec emax m e l).1.
Proof.
  intros H. unfold shr_fexp, shr. assert (0 <= shr_m (shr_record_of_loc m l)) by (by destruct l as [|[]]).
  destruct (_ - e); simpl; auto using iter_shr_1_nonneg.
Qed.
Lemma round_not_nan s m e l : 0 <= m ->
  isnan (binary_round_aux ld_prec ld_emax s m e l) = false.
Proof.
  intros H. unfold binary_round_aux.
  pose proof (shr_fexp_nonneg ld_prec ld_emax m e l H) as H1.
  destruct (shr_fexp _ _ m e l) as [r e']. simpl in H1.
  assert (0 <= round_nearest_even (shr_m r) (loc_of_shr_record r)) as H2.
  { unfold round_nearest_even. repeat case_match; lia. }
  pose proof (shr_fexp_nonneg ld_prec ld_emax _ e' loc_Exact H2) as H3.
  destruct (shr_fexp _ _ _ e' _) as [r' e'']. simpl in H3.
  destruct (shr_m r'); [done|by destruct (Z.leb _ _)|lia].
Qed.
Lemma normalize_not_nan m e s : isnan (binary_normalize ld_prec ld_emax m e s) = false.
Proof.
  unfold binary_normalize, binary_round. destruct m; [done| |];
    (destruct (shl_align _ _ _) as [mz ez]; by apply round_not_nan).
Qed.
Lemma ld_of_Z_not_nan z : isnan (ld_of_Z z) = false.
Proof. apply normalize_not_nan. Qed.
Lemma ld_div_not_nan x s m e : isnan x = false -> isnan (ld_div x (S754_finite s m e)) = false.
Proof.
  destruct x as [| | |sx mx ex]; try done. intros _. unfold ld_div, SFdiv.
  destruct (SFdiv_core_binary _ _ _ _ _ _) as [[q e'] l] eqn:E. apply round_not_nan.
  unfold SFdiv_core_binary in E.
  match type of E with (let '(_, _) := _ ?a ?b in _) = _ =>
    assert (0 <= a) as Ha; [|pose proof (Z.div_pos a b Ha ltac:(lia)) as Hq; unfold Z.div in Hq] end.
  - destruct (_ - _); [lia| |lia]. by apply Z.shiftl_nonneg.
  - by destruct (Z.div_eucl _ _); simplify_eq.
Qed.
Lemma ld_add_not_nan x s m e : isnan x = false -> isnan (ld_add x (S754_finite s m e)) = false.
Proof. destruct x; try done. intros _. apply normalize_not_nan. Qed.

Lemma RoundDouble_not_nan x y : RoundDouble x 1 = Ok y -> isnan y = false.
Proof.
  assert (exists m e, ld_of_Z 10 = S754_finite false m e) as (m & e & H10) by (vm_compute; eauto).
  assert (exists m e, ld_of_Z 1 = S754_finite false m e) as (m1 & e1 & H1) by (vm_compute; eauto).
  unfold RoundDouble. destruct (ld_to_ull (times_ten 2 x)); cbn [mbind res_bind]; [|done].
  destruct (ld_to_ull (ld_div _ _)); cbn [mbind res_bind]; [|done].
  intros E. assert (forall a, Ok a = Ok y -> isnan a = isnan y) as Ha by congruence.
  apply Ha in E. rewrite <- E. cbn [over_ten]. rewrite H10. apply ld_div_not_nan.
  case_match; [|apply ld_of_Z_not_nan]. rewrite H1. apply ld_add_not_nan, ld_of_Z_not_nan.
Qed.
