(* ===== verification/LongDoubleBounds.v ===== *)
(** * [long double]: how large a result can be

    Bounds on the rounded results of the x87 operations, by powers of two, and
    with them that [RoundDouble] converts no number out of range when the
    program asks for a percentage. *)
From Stdlib Require Import ZArith Lia String SpecFloat.
From S2P Require Import Prelude CLib LongDouble.

Local Open Scope stdpp_scope.
Local Open Scope Z_scope.

(** The significand has at most 64 bits. *)
Definition canonical (x : long_double) : Prop :=
  match x with S754_finite _ m _ => Z.pos m < 2 ^ 64 | _ => True end.
(** Zero, or positive and below [2^k]. *)
Definition below (k : Z) (x : long_double) : Prop :=
  match x with
  | S754_zero _ => True
  | S754_finite false m e => e <= k /\ Z.pos m < 2 ^ (k - e)
  | _ => False
  end.
Definition emin : Z := 3 - ld_emax - ld_prec.

(** ** Digits *)
Lemma digits2_bound p : Z.pos p < 2 ^ Z.pos (digits2_pos p).
Proof.
  induction p as [p IH|p IH|]; simpl digits2_pos; [..|lia];
    rewrite Pos2Z.inj_succ, Z.pow_succ_r by lia; lia.
Qed.
Lemma digits2_lower p : 2 ^ (Z.pos (digits2_pos p) - 1) <= Z.pos p.
Proof.
  induction p as [p IH|p IH|]; simpl digits2_pos; [..|done];
    rewrite Pos2Z.inj_succ; replace (Z.succ (Z.pos (digits2_pos p)) - 1) with (Z.succ (Z.pos (digits2_pos p) - 1)) by lia;
    rewrite Z.pow_succ_r by lia; lia.
Qed.
Lemma Zdigits2_bound m : 0 <= m -> 0 <= Zdigits2 m /\ m < 2 ^ Zdigits2 m.
Proof. destruct m as [|p|p]; [done| |lia]. intros _. split; [done|]. apply digits2_bound. Qed.
Lemma Zdigits2_upper m k : 0 <= k -> 0 <= m < 2 ^ k -> Zdigits2 m <= k.
Proof.
  intros Hk Hm. destruct m as [|p|p]; [done| |lia]. simpl.
  pose proof (digits2_lower p). assert (2 ^ (Z.pos (digits2_pos p) - 1) < 2 ^ k) by lia.
  apply Z.pow_lt_mono_r_iff in H0; lia.
Qed.

(** ** Shifting right *)
Lemma shr_1_half r : 0 <= shr_m r -> shr_m (shr_1 r) = shr_m r / 2.
Proof.
  destruct r as [m b s]. simpl. intros H. rewrite <- Z.div2_div.
  by destruct m as [|[p|p|]|p].
Qed.
Lemma iter_shr_1 p : forall r, 0 <= shr_m r ->
  shr_m (SpecFloat.iter_pos shr_1 p r) = shr_m r / 2 ^ Z.pos p.
Proof.
  induction p as [p IH|p IH|]; intros r H; cbn [SpecFloat.iter_pos].
  - pose proof (shr_1_nonneg r H). rewrite IH by eauto using iter_shr_1_nonneg.
    rewrite IH, shr_1_half by done. rewrite !Zdiv_Zdiv by lia.
    assert (2 ^ Z.pos p~1 = 2 * 2 ^ Z.pos p * 2 ^ Z.pos p) as ->; [|f_equal; lia].
    replace (Z.pos p~1) with (1 + Z.pos p + Z.pos p) by lia. rewrite !Z.pow_add_r by lia. lia.
  - rewrite IH by eauto using iter_shr_1_nonneg. rewrite IH by done. rewrite Zdiv_Zdiv by lia.
    assert (2 ^ Z.pos p~0 = 2 ^ Z.pos p * 2 ^ Z.pos p) as ->; [|done].
    replace (Z.pos p~0) with (Z.pos p + Z.pos p) by lia. by rewrite Z.pow_add_r by lia.
  - rewrite shr_1_half by done. done.
Qed.

(** The shift [shr_fexp] makes. *)
Definition drop (m e : Z) : Z := Z.max 0 (Z.max (Zdigits2 m + e - ld_prec) emin - e).
Lemma shr_fexp_drop m e l : 0 <= m ->
  shr_m (shr_fexp ld_prec ld_emax m e l).1 = m / 2 ^ drop m e /\
  (shr_fexp ld_prec ld_emax m e l).2 = e + drop m e.
Proof.
  intros H. unfold shr_fexp, shr, drop, fexp, SpecFloat.emin.
  change (3 - ld_emax - ld_prec) with emin.
  assert (shr_m (shr_record_of_loc m l) = m) as Hm by (by destruct l as [|[]]).
  destruct (Z.max (Zdigits2 m + e - ld_prec) emin - e) as [|p|p] eqn:E; cbn [fst snd].
  - rewrite Hm. change (Z.max 0 0) with 0. rewrite Z.pow_0_r, Z.div_1_r. lia.
  - rewrite iter_shr_1 by lia. rewrite Hm. done.
  - rewrite Hm. change (Z.max 0 (Z.neg p)) with 0. rewrite Z.pow_0_r, Z.div_1_r. lia.
Qed.

(** Where the shifted significand is. *)
Lemma drop_canonical m e : 0 <= m -> m / 2 ^ drop m e < 2 ^ 64.
Proof.
  intros Hm. pose proof (Zdigits2_bound m Hm) as [Hd0 Hd]. unfold drop. set (d := Z.max 0 _).
  assert (0 <= d) by lia. apply Z.div_lt_upper_bound; [lia|]. rewrite <- Z.pow_add_r by lia.
  eapply Z.lt_le_trans; [exact Hd|]. apply Z.pow_le_mono_r; unfold ld_prec in *; lia.
Qed.
Lemma drop_bounds m e k : 0 <= m -> emin <= k -> e <= k -> m < 2 ^ (k - e) ->
  0 <= drop m e /\ e + drop m e <= k /\ 0 <= m / 2 ^ drop m e < 2 ^ (k - (e + drop m e)).
Proof.
  intros Hm Hk He Hlt. pose proof (Zdigits2_bound m Hm) as [Hd0 Hd].
  assert (Zdigits2 m <= k - e) as Hd' by (apply Zdigits2_upper; lia).
  unfold drop. set (d := Z.max 0 _). assert (0 <= d) by lia.
  assert (e + d <= k) by (unfold ld_prec in *; lia).
  split; [done|]. split; [done|]. split.
  - apply Z.div_pos; lia.
  - apply Z.div_lt_upper_bound; [lia|]. rewrite <- Z.pow_add_r by lia.
    replace (d + (k - (e + d))) with (k - e) by lia. done.
Qed.

(** ** Rounding *)
Lemma nearest_nonneg m l : 0 <= m -> 0 <= round_nearest_even m l.
Proof. unfold round_nearest_even. repeat case_match; lia. Qed.
Lemma nearest_bounds m l j : 0 <= j -> 0 <= m < 2 ^ j -> round_nearest_even m l <= 2 ^ j.
Proof. unfold round_nearest_even. repeat case_match; lia. Qed.

Lemma round_canonical s m e l : 0 <= m -> canonical (binary_round_aux ld_prec ld_emax s m e l).
Proof.
  intros Hm. unfold binary_round_aux. pose proof (shr_fexp_nonneg ld_prec ld_emax m e l Hm) as H1.
  destruct (shr_fexp _ _ m e l) as [r e1]. cbn [fst snd] in *.
  pose proof (nearest_nonneg _ (loc_of_shr_record r) H1) as Hn. set (n := round_nearest_even _ _) in *.
  pose proof (shr_fexp_drop n e1 loc_Exact Hn) as [H3 _]. pose proof (drop_canonical n e1 Hn) as Hc.
  destruct (shr_fexp _ _ n e1 _) as [r2 e2]. cbn [fst snd] in *. rewrite <- H3 in Hc.
  destruct (shr_m r2); [done|by destruct (Z.leb _ _)|done].
Qed.
Lemma round_below m e l k : 0 <= m -> emin <= k <= 16000 -> e <= k -> m < 2 ^ (k - e) ->
  below (k + 1) (binary_round_aux ld_prec ld_emax false m e l).
Proof.
  intros Hm Hk He Hlt. unfold binary_round_aux.
  pose proof (shr_fexp_drop m e l Hm) as [H1 H2].
  destruct (shr_fexp _ _ m e l) as [r e1]. cbn [fst snd] in *.
  pose proof (drop_bounds m e k Hm (proj1 Hk) He Hlt) as (Hd & Hd1 & Hd2).
  rewrite <- H1, <- H2 in *.
  pose proof (nearest_nonneg (shr_m r) (loc_of_shr_record r) (proj1 Hd2)) as Hn0.
  pose proof (nearest_bounds (shr_m r) (loc_of_shr_record r) (k - e1) ltac:(lia) Hd2) as Hr.
  set (n := round_nearest_even _ _) in *. clearbody n.
  pose proof (shr_fexp_drop n e1 loc_Exact Hn0) as [H3 H4].
  destruct (shr_fexp _ _ n e1 _) as [r2 e2]. cbn [fst snd] in *.
  assert (n < 2 ^ (k + 1 - e1)) as Hn.
  { replace (k + 1 - e1) with (Z.succ (k - e1)) by lia. rewrite Z.pow_succ_r by lia. lia. }
  pose proof (drop_bounds n e1 (k + 1) Hn0 ltac:(lia) ltac:(lia) Hn) as (_ & Hb1 & Hb2).
  rewrite <- H3, <- H4 in *.
  destruct (shr_m r2) as [|p|p]; [done| |lia].
  rewrite (proj2 (Z.leb_le e2 _)) by (unfold ld_emax, ld_prec; lia). simpl. lia.
Qed.

(** ** The operations of [RoundDouble] *)
Lemma ld_mul_canonical a b : canonical (ld_mul a b).
Proof. destruct a, b; try done. by apply round_canonical. Qed.

(** Ten, as it is stored. *)
Lemma ld_ten : ld_of_Z 10 = S754_finite false (10 * 2 ^ 60) (-60).
Proof. vm_compute. reflexivity. Qed.

Lemma ld_mul_ten k x : emin <= k <= 15000 -> below k x -> below (k + 5) (ld_mul x (ld_of_Z 10)).
Proof.
  intros Hk. rewrite ld_ten. destruct x as [s|s| |[] m e]; try done. intros [He Hm].
  unfold ld_mul, SFmul. replace (k + 5) with (k + 4 + 1) by lia. apply round_below; [lia..|].
  replace (k + 4 - (e + -60)) with (k - e + 64) by lia. rewrite Z.pow_add_r by lia. lia.
Qed.
Lemma ld_div_ten k x : emin + 3 <= k <= 15000 -> below k x -> below (k - 2) (ld_div x (ld_of_Z 10)).
Proof.
  intros Hk. rewrite ld_ten. destruct x as [s|s| |[] m e]; try done. intros [He Hm].
  unfold ld_div, SFdiv, SFdiv_core_binary, fexp, SpecFloat.emin. change (3 - ld_emax - ld_prec) with emin.
  pose proof (Zdigits2_upper (Z.pos m) (k - e) ltac:(lia) ltac:(lia)) as Hd.
  change (Zdigits2 (Z.pos (10 * 2 ^ 60))) with 64.
  set (e' := Z.min _ _). assert (e' <= k - 3 /\ e' <= e + 60) as [H1 H2] by (unfold ld_prec in *; lia).
  clearbody e'. replace (e - -60 - e') with (e + 60 - e') by lia.
  assert (match e + 60 - e' with 0 => Z.pos m | Z.pos _ => Z.shiftl (Z.pos m) (e + 60 - e') | Z.neg _ => 0 end
          = Z.pos m * 2 ^ (e + 60 - e')) as ->.
  { destruct (e + 60 - e') eqn:E; [simpl; lia|rewrite Z.shiftl_mul_pow2; [done|lia]|lia]. }
  assert (Z.pos m * 2 ^ (e + 60 - e') / Z.pos (10 * 2 ^ 60) < 2 ^ (k - 3 - e')) as Hq.
  { apply Z.div_lt_upper_bound; [lia|].
    assert (2 ^ (k - e) * 2 ^ (e + 60 - e') = 2 ^ 63 * 2 ^ (k - 3 - e')) as Hp
      by (rewrite <- !Z.pow_add_r by lia; f_equal; lia).
    assert (0 < 2 ^ (e + 60 - e')) by lia. assert (0 < 2 ^ (k - 3 - e')) by lia. nia. }
  pose proof (Z.div_pos (Z.pos m * 2 ^ (e + 60 - e')) (Z.pos (10 * 2 ^ 60)) ltac:(lia) ltac:(lia)) as Hq0.
  unfold Z.div in Hq, Hq0. destruct (Z.div_eucl _ _) as [q r].
  replace (k - 2) with (k - 3 + 1) by lia. simpl xorb. apply round_below; [exact Hq0|lia|lia|exact Hq].
Qed.

(** ** Conversions *)
Lemma ull_trunc k q : 0 <= k <= 64 -> 0 <= q < 2 ^ k ->
  (if ((0 <=? q)%c && (q <=? ULONG_MAX)%c)%bool then Ok q else Err Overflow) = Ok q.
Proof.
  intros Hk Hq. assert (2 ^ k <= 2 ^ 64) by (apply Z.pow_le_mono_r; lia).
  rewrite (proj2 (Z.leb_le 0 _)), (proj2 (Z.leb_le _ ULONG_MAX)) by (unfold ULONG_MAX; lia). done.
Qed.
Lemma ull_below k x : 0 <= k <= 64 -> below k x -> exists v, ld_to_ull x = Ok v /\ 0 <= v < 2 ^ k.
Proof.
  intros Hk. destruct x as [s|s| |[] m e]; try done; [intros _; exists 0; split; [done|lia]|].
  intros [He Hm]. unfold ld_to_ull, ld_trunc, ratio. destruct (Z.leb_spec 0 e) as [H|H].
  - assert (0 <= Z.pos m * 2 ^ e / 1 < 2 ^ k) as Hb; [|eauto using ull_trunc].
    rewrite Z.div_1_r. split; [lia|].
    assert (2 ^ k = 2 ^ (k - e) * 2 ^ e) as -> by (rewrite <- Z.pow_add_r by lia; f_equal; lia).
    apply Z.mul_lt_mono_pos_r; lia.
  - assert (0 <= Z.pos m / 2 ^ (- e) < 2 ^ k) as Hb; [|eauto using ull_trunc].
    split; [apply Z.div_pos; lia|]. apply Z.div_lt_upper_bound; [lia|]. rewrite <- Z.pow_add_r by lia.
    by replace (- e + k) with (k - e) by lia.
Qed.

Lemma RoundDouble_below x : below 7 x -> exists y, RoundDouble x 1 = Ok y.
Proof.
  intros H. unfold RoundDouble. cbn [times_ten over_ten].
  assert (emin = -16445) as He by (vm_compute; reflexivity).
  apply (ld_mul_ten 7) in H; [|lia]. apply (ld_mul_ten 12) in H; [|lia].
  destruct (ull_below 17 _ ltac:(lia) H) as (v & -> & _). cbn [mbind res_bind].
  apply (ld_div_ten 17) in H; [|lia].
  destruct (ull_below 15 _ ltac:(lia) H) as (w & -> & _). cbn [mbind res_bind]. eauto.
Qed.

(** A stored number that is neither NaN nor out of 0 .. 100 is below 128. *)
Lemma between_below x : canonical x -> isnan x = false -> isinf x = false ->
  ld_gt x (ld_of_Z 100) = false -> ld_lt x (ld_of_Z 0) = false -> below 7 x.
Proof.
  intros Hc Hn Hi Hg Hl. assert (ld_of_Z 100 = S754_finite false (100 * 2 ^ 57) (-57)) as E by (vm_compute; reflexivity).
  rewrite E in Hg. destruct x as [s|s| |[] m e]; try done. simpl in Hc.
  assert (e <= -57).
  { apply not_true_iff_false in Hg. unfold ld_gt in Hg. rewrite ld_lt_key in Hg by done.
    unfold key_lt, ld_key in Hg. lia. }
  split; [lia|]. assert (2 ^ 64 <= 2 ^ (7 - e)) by (apply Z.pow_le_mono_r; lia). lia.
Qed.
