(* ===== verification/ProcFs.v ===== *)
(** * Reading /proc: the parts [myps.c] and [mytop.c] share

    The same functions occur, word for word, in both programs: the terminal of a
    process, the uptime, the tokens of /proc/PID/stat, the user name, the CPU
    and memory percentages, the start time, the short name and the command
    line.  Buffers keep their sizes: what does not fit is a fault. *)
From Stdlib Require Import ZArith Lia Ascii String.
From S2P Require Import Prelude CLib OsEnv LongDouble.

Local Open Scope stdpp_scope.
Local Open Scope Z_scope.

Module ProcFs.

Definition BUFFER_SIZE : Z := 1024.
Definition PATH_SIZE : Z := 1024.
Definition TOKEN_LEN : Z := 32.
Definition FNAME_LEN : Z := 128.
Definition MAX_TOKEN : nat := 22.
Definition UNAME_LEN : Z := 32.
Definition TTY_LEN : Z := 32.
Definition STAT_LEN : Z := 8.
Definition TIME_LEN : Z := 16.
Definition CMD_LEN : Z := 1024.
Definition PROCESS_MAX : Z := 4096.

Definition SYSTEMD : string := "systemd-".
Definition DEVNULL : string := "/dev/null".
Definition PTS : string := "pts/".
Definition PROC : string := "/proc".
Definition UPTIME : string := "/proc/uptime".
Definition MEMINFO : string := "/proc/meminfo".
Definition DEV : string := "/dev".
Definition FD__ZERO : string := "/fd/0".
Definition STAT : string := "/stat".
Definition STATUS : string := "/status".
Definition CMDLINE : string := "/cmdline".
Definition VMSIZE : string := "VmSize".

(** Indices of /proc/PID/stat. *)
Definition STAT_PID_IDX : nat := 0.
Definition STAT_CMD_IDX : nat := 1.
Definition STAT_STATE_IDX : nat := 2.
Definition STAT_PPID_IDX : nat := 3.
Definition STAT_SID_IDX : nat := 5.
Definition STAT_TTY_NR_IDX : nat := 6.
Definition STAT_TPGID_IDX : nat := 7.
Definition STAT_UTIME_IDX : nat := 13.
Definition STAT_STIME_IDX : nat := 14.
Definition STAT_PRIORITY_IDX : nat := 17.
Definition STAT_NICE_IDX : nat := 18.
Definition STAT_N_THREAD_IDX : nat := 19.
Definition STAT_START_TIME_IDX : nat := 21.

(** Rows of /proc/PID/status and /proc/meminfo. *)
Definition STATUS_VSZ_ROW : nat := 18.
Definition STATUS_VMLCK_ROW : nat := 19.
Definition STATUS_RSS_ROW : nat := 22.
Definition STATUS_SHR_ROW : nat := 24.
Definition MEMINFO_MEM_TOTAL_ROW : nat := 1.

(** ** Words and numbers *)

(** [fscanf(fp, "%s", buf)] into [cap] bytes holding [old]. *)
Definition fscanf_s (cap : Z) (old fp : string) : res (string * string) :=
  match scan_s fp with
  | ScanVal w rest => w ← strcpy cap w; Ok (w, rest)
  | _ => Ok (old, EmptyString)
  end.

(** The first [n] words, each into [cap] zeroed bytes. *)
Fixpoint read_tokens (cap : Z) (n : nat) (fp : string) : res (list string) :=
  match n with
  | O => Ok []
  | S n => '(w, rest) ← fscanf_s cap EmptyString fp;
           ws ← read_tokens cap n rest; Ok (w :: ws)
  end.
Definition token (ws : list string) (i : nat) : string := nth i ws EmptyString.
Definition token_ulong (ws : list string) (i : nat) : Z := u64 (atoi (token ws i)).
Definition token_int (ws : list string) (i : nat) : Z := atoi (token ws i).

(** [ptr = buf; for (...) if (isdigit(buf[i])) { ptr = buf + i; break; }] *)
Definition first_digit (buf : string) : string :=
  match find_char isdigit buf 0 with
  | Some i => sdrop (Z.to_nat i) buf
  | None => buf
  end.
(** [ptr] as above, and then [buf[n] = 0]: what there is to read at [ptr]. *)
Definition first_digit_cut (n : nat) (buf : string) : string :=
  match find_char isdigit buf 0 with
  | Some i => if (i <=? Z.of_nat n)%c then stake (n - Z.to_nat i) (sdrop (Z.to_nat i) buf)
              else sdrop (Z.to_nat i) buf
  | None => stake n buf
  end.
(** [while (!isdigit( *ptr)) ptr++]: runs off a line without digits. *)
Definition skip_to_digit (buf : string) : res string :=
  match find_char isdigit buf 0 with
  | Some i => Ok (sdrop (Z.to_nat i) buf)
  | None => Err OutOfBounds
  end.

(** Division of [unsigned long]s. *)
Definition udiv (a b : Z) : res Z := if (b =? 0)%c then Err DivideByZero else Ok (a / b).

(** ** GetTTY *)

(** The search of /dev for the character device number [ttyNr]. *)
Fixpoint search_dev (o : os) (ttyNr : Z) (names : list string) : res string :=
  match names with
  | [] => Ok EmptyString
  | d_name :: names =>
      nowPath ← join_path PATH_SIZE DEV d_name;
      statbuf ← of_option (Exit 1) (stat_of o nowPath);
      match st_kind statbuf with
      | IsChr => if (st_rdev statbuf =? u64 ttyNr)%c then strcpy TTY_LEN d_name
                 else search_dev o ttyNr names
      | _ => search_dev o ttyNr names
      end
  end.

(** [sscanf(link, "/dev/%s", tty)] into a zeroed [tty]. *)
Definition tty_of_link (link : string) : res string :=
  if starts "/dev/" link then '(w, _) ← fscanf_s TTY_LEN EmptyString (sdrop 5 link); Ok w
  else Ok EmptyString.

Definition GetTTY (o : os) (path : string) : res string :=
  p ← strcpy PATH_SIZE path;
  fdZeroPath ← strcat PATH_SIZE p FD__ZERO;
  if negb (access_F o fdZeroPath) then
    statPath ← strcat PATH_SIZE p STAT;
    match fopen_r o statPath with
    | None => Ok EmptyString
    | Some statFp =>
        ws ← read_tokens BUFFER_SIZE (S STAT_TTY_NR_IDX) statFp;
        let ttyNr := atoi (token ws STAT_TTY_NR_IDX) in
        names ← of_option (Exit 1) (readdir_all o DEV);
        tty ← search_dev o ttyNr names;
        Ok (if (strlen tty =? 0)%c then "?"%string else tty)
    end
  else
    symLinkName ← of_option (Exit 1) (readlink_of o fdZeroPath);
    _ ← require (strlen symLinkName <? FNAME_LEN)%c OutOfBounds;
    if String.eqb symLinkName DEVNULL then Ok "?"%string else tty_of_link symLinkName.

(** ** GetUpTime *)
Definition GetUpTime (o : os) : res Z :=
  fp ← of_option (Exit 1) (fopen_r o UPTIME);
  let buf := (read_line 1024 fp).1 in
  match scan_Lf buf with
  | ScanVal time _ => ld_to_ull time
  | _ => Err Uninitialised
  end.

(** The number in row [row] of /proc/meminfo. *)
Definition meminfo_total (o : os) : res Z :=
  fp ← of_option (Exit 1) (fopen_r o MEMINFO);
  let '(buf, _) := read_rows 1024 MEMINFO_MEM_TOTAL_ROW EmptyString fp in
  ptr ← skip_to_digit buf;
  Ok (sscanf_lu ptr 0).

(** ** Pieces of AddProcessList *)

(** The user name, "systemd+" for the systemd- users. *)
Definition user_name (o : os) (uid : Z) : res string :=
  pw_name ← of_option NullPointer (getpwuid_name o uid);
  tmp ← strcpy UNAME_LEN pw_name;
  if String.eqb (stake 8 tmp) SYSTEMD then Ok "systemd+"%string else strcpy UNAME_LEN pw_name.

(** What a percentage becomes: 0 when it makes no sense, else one decimal. *)
Definition percent (x : long_double) : res long_double :=
  if (isnan x || isinf x || ld_gt x (ld_of_Z 100) || ld_lt x (ld_of_Z 0))%bool
  then Ok ld_zero else RoundDouble x 1.

(** CPU share since the start of the process. *)
Definition cpu_since_start (totalTime startTime uptime hertz : Z) : res long_double :=
  t ← udiv totalTime hertz;
  st ← udiv startTime hertz;
  Ok (ld_mul (ld_div (ld_of_Z t) (ld_of_Z (u64 (uptime - st)))) (ld_of_Z 100)).

Definition mem_share (rss total_memory : Z) : long_double :=
  ld_mul (ld_div (ld_of_Z rss) (ld_of_Z total_memory)) (ld_of_Z 100).

(** The start time: hour and minute, day, or year, by age. *)
Definition start_text (o : os) (uptime startTime hertz : Z) : res string :=
  st ← udiv startTime hertz;
  let start := u64 (now o - uptime + st) in
  let tmStart := localtime_of o (s64 start) in
  let age := u64 (now o - start) in
  strcpy TIME_LEN (if (age <? 24 * 60 * 60)%c then strftime_HM tmStart
                   else if (age <? 7 * 24 * 60 * 60)%c then strftime_bd tmStart
                   else strftime_y tmStart).

(** [sscanf(token, "(%s", cmd); cmd[strlen(cmd)-1] = 0]: an empty [cmd] is
    written before its start. *)
Definition short_cmd (tok : string) : res string :=
  cmd ← (match tok with
         | String "("%char t => '(w, _) ← fscanf_s CMD_LEN EmptyString t; Ok w
         | _ => Ok EmptyString
         end);
  if (strlen cmd =? 0)%c then Err OutOfBounds
  else Ok (stake (String.length cmd - 1) cmd).

(** The loop over /proc/PID/cmdline: NULs separate the arguments, two in a row
    (or the end of the file) end the loop. *)
Fixpoint read_cmdline (fp command : string) : res string :=
  match fp with
  | EmptyString => Ok command
  | String c t =>
      if Ascii.eqb c NUL then
        match t with
        | EmptyString => Ok command
        | String d t' =>
            if Ascii.eqb d NUL then Ok command
            else command ← strcat CMD_LEN command " ";
                 command ← strcat CMD_LEN command (String d EmptyString);
                 read_cmdline t' command
        end
      else command ← strcat CMD_LEN command (String c EmptyString);
           read_cmdline t command
  end.

Definition long_command (fp cmd : string) : res string :=
  command ← read_cmdline fp EmptyString;
  if (strlen command =? 0)%c then strcpy CMD_LEN ("[" +:+ cmd +:+ "]") else Ok command.

(** Is a directory name a PID? *)
Definition is_pid (name : string) : bool := all_digits name.

(** ** Facts *)

(** A command line as the kernel writes it: every argument ends in a NUL. *)
Definition cmdline_of (args : list string) : string :=
  foldr (fun a s => a +:+ String NUL s) EmptyString args.
Fixpoint joined (args : list string) : string :=
  match args with
  | [] => EmptyString
  | [a] => a
  | a :: args => a +:+ " " +:+ joined args
  end.

Lemma read_cmdline_word w rest command : no_char NUL w = true ->
  strlen command + strlen w < CMD_LEN ->
  read_cmdline (w +:+ rest) command = read_cmdline rest (command +:+ w).
Proof.
  revert command. induction w as [|c w IH]; intros command Hw Hl; [by rewrite append_nil_r|].
  simpl in Hw. apply andb_prop in Hw as [Hc Hw]. apply negb_true_iff in Hc.
  cbn [String.append read_cmdline]. rewrite Hc.
  assert (strlen (String c w) = 1 + strlen w) as Hs by (unfold strlen; simpl; lia).
  unfold strcat. change (strlen (String c "")) with 1. pose proof (strlen_nonneg w).
  rewrite (proj2 (Z.ltb_lt _ _)) by lia. cbn [mbind res_bind].
  rewrite IH; [by rewrite append_assoc|done|].
  rewrite strlen_app. change (strlen (String c "")) with 1. lia.
Qed.

Definition is_arg (a : string) : Prop := no_char NUL a = true /\ a <> EmptyString.

Lemma read_cmdline_next c t command : Ascii.eqb c NUL = false ->
  strlen command + 2 < CMD_LEN ->
  read_cmdline (String NUL (String c t)) command = read_cmdline (String c t) (command +:+ " ").
Proof.
  intros Hc Hl. cbn [read_cmdline]. change (Ascii.eqb NUL NUL) with true. cbn iota. rewrite Hc.
  unfold strcat. change (strlen " ") with 1. rewrite (proj2 (Z.ltb_lt _ _)) by lia. done.
Qed.

(** A word that does not fit behind what is there already. *)
Lemma read_cmdline_full w rest : forall command, no_char NUL w = true ->
  strlen command < CMD_LEN <= strlen command + strlen w ->
  read_cmdline (w +:+ rest) command = Err BufferOverflow.
Proof.
  induction w as [|c w IH]; intros command Hw Hl; [change (strlen EmptyString) with 0 in Hl; lia|].
  simpl in Hw. apply andb_prop in Hw as [Hc Hw]. apply negb_true_iff in Hc.
  cbn [String.append read_cmdline]. rewrite Hc. assert (strlen (String c w) = 1 + strlen w) as Hs by (unfold strlen; simpl; lia).
  unfold strcat. change (strlen (String c "")) with 1.
  destruct (Z.ltb_spec (strlen command + 1) CMD_LEN); [|done]. cbn [mbind res_bind].
  apply IH; [done|]. rewrite strlen_app. change (strlen (String c "")) with 1. lia.
Qed.
Lemma joined_cons a b args : joined (a :: b :: args) = a +:+ " " +:+ joined (b :: args).
Proof. done. Qed.
Lemma joined_nonempty a args : is_arg a -> 0 < strlen (joined (a :: args)).
Proof.
  intros [_ Ha]. destruct a as [|c a]; [done|]. destruct args; unfold strlen; simpl; lia.
Qed.

(** Reading a command line of non-empty arguments appends them, joined by blanks;
    what does not fit in the array is written behind it. *)
Lemma read_cmdline_args args : Forall is_arg args -> forall command, strlen command < CMD_LEN ->
  read_cmdline (cmdline_of args) command = strcat CMD_LEN command (joined args).
Proof.
  induction 1 as [|a args [Ha Hne] Hargs IH]; intros command Hl.
  - unfold strcat. change (strlen (joined [])) with 0. rewrite (proj2 (Z.ltb_lt _ _)) by lia.
    simpl. by rewrite append_nil_r.
  - cbn [cmdline_of foldr]. fold (cmdline_of args). unfold strcat at 1.
    pose proof (strlen_nonneg a). destruct args as [|b args].
    + cbn [joined]. destruct (Z.ltb_spec (strlen command + strlen a) CMD_LEN) as [H1|H1].
      * by rewrite read_cmdline_word.
      * by rewrite read_cmdline_full.
    + pose proof (joined_nonempty b args ltac:(by inversion Hargs)) as Hj.
      rewrite joined_cons, !strlen_app. change (strlen " ") with 1.
      destruct (Z.ltb_spec (strlen command + strlen a) CMD_LEN) as [H1|H1].
      2: { rewrite read_cmdline_full by done. by rewrite (proj2 (Z.ltb_ge _ _)) by lia. }
      rewrite read_cmdline_word by done.
      inversion Hargs as [|? ? [Hb Hbne] _]; subst.
      destruct b as [|c b]; [done|]. simpl in Hb. apply andb_prop in Hb as [Hc _].
      apply negb_true_iff in Hc.
      change (cmdline_of (String c b :: args)) with (String c (b +:+ String NUL (cmdline_of args))) in *.
      destruct (Z.ltb_spec (strlen command + strlen a + 2) CMD_LEN) as [H2|H2].
      * rewrite read_cmdline_next by (done || rewrite strlen_app; lia).
        rewrite IH by (rewrite !strlen_app; change (strlen " ") with 1; lia).
        unfold strcat. rewrite !strlen_app. change (strlen " ") with 1.
        rewrite !append_assoc. by rewrite !Z.add_assoc.
      * cbn [read_cmdline]. change (Ascii.eqb NUL NUL) with true. cbn iota. rewrite Hc.
        unfold strcat. rewrite (proj2 (Z.ltb_ge (strlen command + _) CMD_LEN)) by lia.
        change (strlen " ") with 1. rewrite strlen_app.
        destruct (Z.ltb_spec (strlen command + strlen a + 1) CMD_LEN); [|done]. cbn [mbind res_bind].
        rewrite !strlen_app. change (strlen " ") with 1. change (strlen (String c "")) with 1.
        by rewrite (proj2 (Z.ltb_ge _ _)) by lia.
Qed.

End ProcFs.
