(* ===== verification/Ps.v ===== *)
(** * [myps] (src/Assignment_2/myps.c)

    The whole program over one snapshot of the machine: the options, the search
    of /proc, the fields of a process, and the table.  The process list is the
    first [procCnt] entries of [procList]. *)
From Stdlib Require Import ZArith Lia Ascii String.
From S2P Require Import Prelude CLib OsEnv LongDouble ProcFs.
Import ProcFs.

Local Open Scope stdpp_scope.
Local Open Scope Z_scope.

Module Ps.

Definition PID_MAX : Z := 32768.

Record myProc := mk_proc {
  pid : Z; uid : Z; ppid : Z; user : string;
  cpu : long_double; mem : long_double;
  vsz : Z; rss : Z; shr : Z; priority : Z; nice : Z;
  tty : string; stat : string; start : string; time : string;
  cmd : string; command : string
}.

(** EraseProcess and EraseProcessList *)
Definition EraseProcess (_ : myProc) : myProc :=
  mk_proc 0 0 0 "" ld_zero ld_zero 0 0 0 0 0 "" "" "" "" "" "".
Definition EraseProcessList (_ : list myProc) : list myProc := [].

Record options := mk_options {
  aOption : bool; eOption : bool; fOption : bool; hOption : bool;
  pOption : bool; uOption : bool; xOption : bool
}.
Definition no_options : options := mk_options false false false false false false false.

(** The globals [main] sets before the search. *)
Record globals := mk_globals {
  uptime : Z; total_memory : Z; hertz : Z; myUid : Z; myTTY : string
}.

Definition kib_to_kb (kib : Z) : Z := u64 (kib * 1024) / 1000.

Definition GetTotalMemory (o : os) : res Z :=
  kib ← meminfo_total o; Ok (kib_to_kb kib).

(** ** AddProcessList *)

Record memory := mk_memory { m_vsz : Z; m_rss : Z; m_shr : Z; m_lck : Z; m_mem : long_double }.

(** From /proc/PID/status: rows 18, 19, 22 and 24, when row 18 is VmSize. *)
Definition status_memory (total : Z) (statusFp : string) : res memory :=
  let '(buf, fp) := read_rows 1024 STATUS_VSZ_ROW EmptyString statusFp in
  if negb (String.eqb (stake 6 buf) VMSIZE) then Ok (mk_memory 0 0 0 0 ld_zero)
  else
    let vsz := sscanf_lu (first_digit_cut 6 buf) 0 in
    let '(buf, fp) := read_rows 1024 (STATUS_VMLCK_ROW - STATUS_VSZ_ROW) buf fp in
    let vmLck := sscanf_lu (first_digit buf) 0 in
    let '(buf, fp) := read_rows 1024 (STATUS_RSS_ROW - STATUS_VMLCK_ROW) buf fp in
    let rss := sscanf_lu (first_digit buf) 0 in
    let '(buf, fp) := read_rows 1024 (STATUS_SHR_ROW - STATUS_RSS_ROW) buf fp in
    let shr := sscanf_lu (first_digit buf) 0 in
    mem ← percent (mem_share rss total);
    Ok (mk_memory vsz rss shr vmLck mem).

(** The state letter and its marks, in an 8-byte buffer. *)
Definition stat_flags (ws : list string) (pid vmLck : Z) : res string :=
  let cat (b : bool) (mark st : string) := if b then strcat STAT_LEN st mark else Ok st in
  let nice := token_int ws STAT_NICE_IDX in
  st ← strcpy STAT_LEN (token ws STAT_STATE_IDX);
  st ← (if (nice <? 0)%c then strcat STAT_LEN st "<" else cat (0 <? nice)%c "N" st);
  st ← cat (0 <? vmLck)%c "L" st;
  st ← cat (u64 (token_int ws STAT_SID_IDX) =? pid)%c "s" st;
  st ← cat (1 <? token_int ws STAT_N_THREAD_IDX)%c "l" st;
  cat (negb (token_int ws STAT_TPGID_IDX =? -1)%c) "+" st.

(** The CPU time: with hours, or (options a, u, x without e) minutes and seconds. *)
Definition time_text (opts : options) (totalTime hertz : Z) : res string :=
  cpuTime ← udiv totalTime hertz;
  let t := gmtime cpuTime in
  strcpy TIME_LEN
    (if (eOption opts || (negb (aOption opts) && negb (uOption opts) && negb (xOption opts)))%bool
     then fmt_0d 2 (tm_hour t) +:+ ":" +:+ fmt_0d 2 (tm_min t) +:+ ":" +:+ fmt_0d 2 (tm_sec t)
     else show (tm_min t) +:+ ":" +:+ fmt_0d 2 (tm_sec t)).

(** One process; [None] when a file cannot be read and the function returns. *)
Definition make_proc (o : os) (opts : options) (g : globals) (path : string)
  : res (option myProc) :=
  if negb (access_R o path) then Ok None else
  p ← strcpy PATH_SIZE path;
  statPath ← strcat PATH_SIZE p STAT;
  if negb (access_R o statPath) then Ok None else
  match fopen_r o statPath with
  | None => Ok None
  | Some statFp =>
      ws ← read_tokens TOKEN_LEN MAX_TOKEN statFp;
      let pid := token_ulong ws STAT_PID_IDX in
      let ppid := token_ulong ws STAT_PPID_IDX in
      match stat_of o statPath with
      | None => Ok None
      | Some statbuf =>
          user ← user_name o (st_uid statbuf);
          let utime := token_ulong ws STAT_UTIME_IDX in
          let stime := token_ulong ws STAT_STIME_IDX in
          let startTime := token_ulong ws STAT_START_TIME_IDX in
          let totalTime := u64 (utime + stime) in
          share ← cpu_since_start totalTime startTime (uptime g) (hertz g);
          cpu ← percent share;
          statusPath ← strcat PATH_SIZE p STATUS;
          match fopen_r o statusPath with
          | None => Ok None
          | Some statusFp =>
              m ← status_memory (total_memory g) statusFp;
              tty ← GetTTY o path;
              stat ← stat_flags ws pid (m_lck m);
              start ← start_text o (uptime g) startTime (hertz g);
              time ← time_text opts totalTime (hertz g);
              cmd ← short_cmd (token ws STAT_CMD_IDX);
              cmdLinePath ← strcat PATH_SIZE p CMDLINE;
              match fopen_r o cmdLinePath with
              | None => Ok None
              | Some cmdLineFp =>
                  command ← long_command cmdLineFp cmd;
                  Ok (Some (mk_proc pid (st_uid statbuf) ppid user cpu (m_mem m) (m_vsz m)
                              (m_rss m) (m_shr m) (token_int ws STAT_PRIORITY_IDX)
                              (token_int ws STAT_NICE_IDX) tty stat start time cmd command))
              end
          end
      end
  end.

(** [procList[procCnt] = proc; procCnt++] *)
Definition push (procList : list myProc) (p : myProc) : res (list myProc) :=
  _ ← require (Z.of_nat (List.length procList) <? PROCESS_MAX)%c OutOfBounds;
  Ok (procList ++ [p]).

Definition AddProcessList (o : os) (opts : options) (g : globals) (path : string)
    (procList : list myProc) : res (list myProc) :=
  p ← make_proc o opts g path;
  match p with None => Ok procList | Some p => push procList p end.

(** ** SearchProcess *)

(** Is the process at [path] to be listed? *)
Definition selected (o : os) (opts : options) (g : globals) (path : string) (st_uid : Z)
  : res bool :=
  if (negb (aOption opts) && negb (st_uid =? myUid g)%c)%bool then Ok false else
  with_tty ← (if negb (xOption opts) then
                tty ← GetTTY o path;
                Ok (negb ((strlen tty =? 0)%c || String.eqb tty "?"))
              else Ok true);
  if negb with_tty then Ok false else
  if (negb (aOption opts) && negb (uOption opts) && negb (xOption opts))%bool then
    tty ← GetTTY o path; Ok (String.eqb tty (myTTY g))
  else Ok true.

Fixpoint search_loop (o : os) (opts : options) (g : globals) (names : list string)
    (procList : list myProc) : res (list myProc) :=
  match names with
  | [] => Ok procList
  | d_name :: names =>
      path ← join_path PATH_SIZE PROC d_name;
      statbuf ← of_option (Exit 1) (stat_of o path);
      match st_kind statbuf with
      | IsDir =>
          if negb (is_pid d_name) then search_loop o opts g names procList else
          take ← selected o opts g path (st_uid statbuf);
          if negb take then search_loop o opts g names procList else
          procList ← AddProcessList o opts g path procList;
          search_loop o opts g names procList
      | _ => search_loop o opts g names procList
      end
  end.

Definition SearchProcess (o : os) (opts : options) (total hertz uid : Z) (myTTY : string)
  : res (list myProc) :=
  uptime ← GetUpTime o;
  names ← of_option (Exit 1) (readdir_all o PROC);
  search_loop o opts (mk_globals uptime total hertz uid myTTY) names [].

End Ps.
