(* ===== verification/PsPrint.v ===== *)
(** * [myps]: the table and [main] (src/Assignment_2/myps.c)

    Column widths, the header, one line per process, and the options.  Lines are
    built by [strcat] in a 1024-byte buffer and cut at the terminal width. *)
From Stdlib Require Import ZArith Lia Ascii String.
From S2P Require Import Prelude CLib OsEnv LongDouble ProcFs Ps.
Import ProcFs Ps.

Local Open Scope stdpp_scope.
Local Open Scope Z_scope.

Module PsPrint.

(** ** Column widths *)
Record widths := mk_widths {
  wUSER : Z; wUID : Z; wPID : Z; wPPID : Z; wC : Z; wSTIME : Z; wCPU : Z; wMEM : Z;
  wVSZ : Z; wRSS : Z; wTTY : Z; wSTAT : Z; wSTART : Z; wTIME : Z; wCMD : Z; wCOMMAND : Z
}.

(** One of the loops: the longest text of a column, at least its title. *)
Definition widest (title : string) (texts : list string) : Z :=
  foldl (fun w s => if (w <? strlen s)%c then strlen s else w) (strlen title) texts.

(** [sprintf(buf, "%1d", (int)cpu)] *)
Definition cpu_int (p : myProc) : res string := n ← ld_to_int (cpu p); Ok (show n).
Definition cpu_text (p : myProc) : string := fmt_Lf 3 1 (cpu p).
Definition mem_text (p : myProc) : string := fmt_Lf 3 1 (mem p).

Fixpoint map_res {A B} (f : A -> res B) (l : list A) : res (list B) :=
  match l with
  | [] => Ok []
  | a :: l => b ← f a; bs ← map_res f l; Ok (b :: bs)
  end.

Definition measure (ps : list myProc) : res widths :=
  cs ← map_res cpu_int ps;
  Ok (mk_widths (widest "USER" (map user ps)) (widest "UID" (map user ps))
        (widest "PID" (map (fun p => show (pid p)) ps)) (widest "PPID" (map (fun p => show (ppid p)) ps))
        (widest "C" cs) (widest "STIME" (map Ps.start ps)) (widest "%CPU" (map cpu_text ps))
        (widest "%MEM" (map mem_text ps)) (widest "VSZ" (map (fun p => show (vsz p)) ps))
        (widest "RSS" (map (fun p => show (rss p)) ps)) (widest "TTY" (map tty ps))
        (widest "STAT" (map Ps.stat ps)) (widest "START" (map Ps.start ps))
        (widest "TIME" (map Ps.time ps)) (widest "CMD" (map cmd ps))
        (widest "COMMAND" (map command ps))).

(** The columns an option hides get width -1. *)
Definition hide (opts : options) (w : widths) : widths :=
  if fOption opts then
    mk_widths (-1) (wUID w) (wPID w) (wPPID w) (wC w) (wSTIME w) (wCPU w) (-1) (-1) (-1)
      (wTTY w) (-1) (wSTART w) (wTIME w) (wCMD w) (-1)
  else if (negb (aOption opts) && negb (uOption opts) && negb (xOption opts))%bool then
    mk_widths (-1) (wUID w) (wPID w) (-1) (-1) (-1) (-1) (-1) (-1) (-1)
      (wTTY w) (-1) (-1) (wTIME w) (wCMD w) (-1)
  else if negb (uOption opts) then
    mk_widths (-1) (wUID w) (wPID w) (-1) (-1) (-1) (-1) (-1) (-1) (-1)
      (wTTY w) (wSTAT w) (-1) (wTIME w) (-1) (wCOMMAND w)
  else
    mk_widths (wUSER w) (wUID w) (wPID w) (-1) (-1) (-1) (wCPU w) (wMEM w) (wVSZ w) (wRSS w)
      (wTTY w) (wSTAT w) (wSTART w) (wTIME w) (-1) (wCOMMAND w).

(** ** Cells *)

(** Left and right aligned, followed by a space; [extra] spaces in front. *)
Definition left_cell (w : Z) (s : string) : string := s +:+ spaces (w - strlen s) +:+ " ".
Definition right_cell (extra w : Z) (s : string) : string :=
  spaces (w - strlen s + extra) +:+ s +:+ " ".

Definition when (b : bool) (s : string) : string := if b then s else EmptyString.
Definition shows_stat (opts : options) : bool :=
  (negb (eOption opts) && (aOption opts || uOption opts || xOption opts))%bool.

(** The header up to the command column. *)
Definition header_cells (opts : options) (w : widths) : list string :=
  [when (uOption opts) (left_cell (wUSER w) "USER");
   when (fOption opts) (left_cell (wUID w) "UID");
   "  ";
   right_cell 1 (wPID w) "PID";
   when (fOption opts) (right_cell 0 (wPPID w) "PPID");
   when (fOption opts) (right_cell 0 (wC w) "C");
   when (fOption opts) (left_cell (wSTIME w) "STIME");
   when (uOption opts) (right_cell 0 (wCPU w) "%CPU");
   when (uOption opts) (right_cell 0 (wMEM w) "%MEM");
   when (uOption opts) (right_cell 0 (wVSZ w) "VSZ");
   when (uOption opts) (right_cell 0 (wRSS w) "RSS");
   left_cell (wTTY w) "TTY";
   when (shows_stat opts) (right_cell 3 (wSTAT w) "STAT");
   when (uOption opts) (left_cell (wSTART w) "START");
   right_cell 2 (wTIME w) "TIME"].

Definition header_title (opts : options) : string :=
  if (eOption opts || fOption opts)%bool then "CMD"
  else if (aOption opts || uOption opts || xOption opts)%bool then "COMMAND" else "CMD".

(** A process up to the command column; [c] is its truncated CPU share. *)
Definition row_cells (opts : options) (w : widths) (p : myProc) (c : string) : list string :=
  [when (uOption opts) (left_cell (wUSER w) (user p));
   when (fOption opts) (left_cell (wUID w) (user p));
   "  ";
   right_cell 1 (wPID w) (show (pid p));
   when (fOption opts) (right_cell 0 (wPPID w) (show (ppid p)));
   when (fOption opts) (right_cell 0 (wC w) c);
   when (fOption opts) (left_cell (wSTIME w) (Ps.start p));
   when (uOption opts) (right_cell 0 (wCPU w) (cpu_text p));
   when (uOption opts) (right_cell 0 (wMEM w) (mem_text p));
   when (uOption opts) (right_cell 0 (wVSZ w) (show (vsz p)));
   when (uOption opts) (right_cell 0 (wRSS w) (show (rss p)));
   left_cell (wTTY w) (tty p);
   when (shows_stat opts) ("   " +:+ left_cell (wSTAT w) (Ps.stat p));
   when (uOption opts) (left_cell (wSTART w) (Ps.start p));
   right_cell 2 (wTIME w) (Ps.time p)].

Definition row_command (opts : options) (p : myProc) : string :=
  if (aOption opts || uOption opts || xOption opts || fOption opts)%bool then command p else cmd p.

(** ** Lines *)

(** [strcat] after [strcat] into [buf], then [buf[COLS] = 0] and [printf("%s\n", buf)]. *)
Fixpoint concat_cells (buf : string) (cells : list string) : res string :=
  match cells with
  | [] => Ok buf
  | s :: cells => buf ← strcat BUFFER_SIZE buf s; concat_cells buf cells
  end.
Definition print_line (COLS : Z) (cells : list string) : res string :=
  buf ← concat_cells EmptyString cells;
  _ ← require ((0 <=? COLS)%c && (COLS <? BUFFER_SIZE)%c)%bool OutOfBounds;
  Ok (stake (Z.to_nat COLS) buf +:+ newline).

(** [pOption]: only the listed PIDs. *)
Definition wanted (opts : options) (pidList : list Z) (p : myProc) : bool :=
  (negb (pOption opts) || existsb (fun q => pid p =? q)%c pidList)%bool.

(** The percentages pass through [char token[TOKEN_LEN]]. *)
Definition token_ok (shown : bool) (s : string) : res unit :=
  require (negb shown || (strlen s <? TOKEN_LEN)%c) BufferOverflow.

Definition print_row (COLS : Z) (opts : options) (w : widths) (p : myProc) : res string :=
  c ← cpu_int p;
  _ ← token_ok (uOption opts) (cpu_text p);
  _ ← token_ok (uOption opts) (mem_text p);
  print_line COLS (row_cells opts w p c ++ [row_command opts p]).

Fixpoint print_rows (COLS : Z) (opts : options) (w : widths) (pidList : list Z)
    (ps : list myProc) : res string :=
  match ps with
  | [] => Ok EmptyString
  | p :: ps =>
      line ← (if wanted opts pidList p then print_row COLS opts w p else Ok EmptyString);
      rest ← print_rows COLS opts w pidList ps;
      Ok (line +:+ rest)
  end.

Definition PrintPS (COLS : Z) (opts : options) (pidList : list Z) (ps : list myProc)
  : res string :=
  w ← measure ps;
  let w := hide opts w in
  head ← (if negb (hOption opts)
          then print_line COLS (header_cells opts w ++ [header_title opts]) else Ok EmptyString);
  rows ← print_rows COLS opts w pidList ps;
  Ok (head +:+ rows).

(** ** Options *)

(** The [switch] on one character of an argument. *)
Definition option_char (opts : options) (c : ascii) : options :=
  let '(mk_options a e f h p u x) := opts in
  if Ascii.eqb c "a" then mk_options true e f h p u x
  else if Ascii.eqb c "e" then mk_options true true f h p u true
  else if Ascii.eqb c "f" then mk_options a e true h p u x
  else if Ascii.eqb c "h" then mk_options a e f true p u x
  else if Ascii.eqb c "p" then mk_options true e f h true u true
  else if Ascii.eqb c "u" then mk_options a e f h p true x
  else if Ascii.eqb c "x" then mk_options a e f h p u true
  else opts.
Fixpoint option_chars (opts : options) (s : string) : options :=
  match s with
  | EmptyString => opts
  | String c t => option_chars (option_char opts c) t
  end.

(** ErrorFunc prints the usage and exits with status 0. *)
Definition ErrorFunc {A} : res A := Err (Exit 0).

(** The loop over [argv[1..]]: once p is set, arguments are PIDs too. *)
Fixpoint parse_args (opts : options) (pidList : list Z) (argv : list string)
  : res (options * list Z) :=
  match argv with
  | [] => Ok (opts, pidList)
  | arg :: argv =>
      pidList ←
        (if pOption opts then
           if all_digits arg
           then _ ← require (Z.of_nat (List.length pidList) <? PID_MAX)%c OutOfBounds;
                Ok (pidList ++ [u64 (atoi arg)])
           else ErrorFunc
         else Ok pidList);
      parse_args (option_chars opts arg) pidList argv
  end.

(** Its own terminal, cut after the digits of pts/N. *)
Definition own_tty (tty : string) : string :=
  stake 4 tty +:+ (span isdigit (sdrop 4 tty)).1.

Definition main (o : os) (argv : list string) : res string :=
  total ← GetTotalMemory o;
  let hertz := u64 (clk_tck o) in
  myPath ← strcat PATH_SIZE PROC ("/" +:+ show (my_pid o));
  tty ← GetTTY o myPath;
  '(opts, pidList) ← parse_args no_options [] argv;
  ps ← SearchProcess o opts total hertz (my_uid o) (own_tty tty);
  PrintPS (cols o) opts pidList ps.

End PsPrint.
