(* ===== verification/PsTheorems.v ===== *)
(** * What [myps] reads and prints

    Fields read back from a well-formed /proc/PID, command lines, aligned
    columns, and the inputs on which the fixed buffers and formats fail. *)
From Stdlib Require Import ZArith Lia Ascii String.
From S2P Require Import Prelude CLib OsEnv LongDouble ProcFs Ps PsPrint.
Import ProcFs Ps PsPrint.

Local Open Scope stdpp_scope.
Local Open Scope Z_scope.

(** ** Column widths *)
Lemma widest_ge title texts : strlen title <= widest title texts /\
  forall s, s ∈ texts -> strlen s <= widest title texts.
Proof.
  unfold widest. generalize (strlen title). induction texts as [|a texts IH]; intros w; simpl.
  - split; [lia|]. intros s Hs. set_solver.
  - set (w' := if (w <? strlen a)%c then strlen a else w).
    assert (w <= w' /\ strlen a <= w') as [H1 H2].
    { subst w'. destruct (Z.ltb_spec w (strlen a)); lia. }
    destruct (IH w') as [H3 H4]. split; [lia|]. intros s [->|Hs]%elem_of_cons; [lia|]. by apply H4.
Qed.

Lemma map_res_elem {A B} (f : A -> res B) l bs a b :
  map_res f l = Ok bs -> a ∈ l -> f a = Ok b -> b ∈ bs.
Proof.
  revert bs. induction l as [|x l IH]; intros bs H Ha Hf; [set_solver|].
  simpl in H. destruct (f x) as [y|] eqn:Hx; [|discriminate]. simpl in H.
  destruct (map_res f l) as [ys|]; [|discriminate]. injection H as <-.
  apply elem_of_cons in Ha as [->|Ha]; [rewrite Hx in Hf; injection Hf as ->; set_solver|].
  apply elem_of_cons. right. by apply IH.
Qed.

(** ** Cells have the width of their column *)
Lemma strlen_left w s : strlen s <= w -> strlen (left_cell w s) = w + 1.
Proof.
  intros H. unfold left_cell. rewrite !strlen_app, strlen_spaces. change (strlen " ") with 1. lia.
Qed.
Lemma strlen_right e w s : 0 <= e -> strlen s <= w -> strlen (right_cell e w s) = w + e + 1.
Proof.
  intros He H. unfold right_cell. rewrite !strlen_app, strlen_spaces. change (strlen " ") with 1. lia.
Qed.

(** The options for which every printed column keeps its width. *)
Definition consistent (opts : options) : Prop :=
  fOption opts = true -> uOption opts = false /\ shows_stat opts = false.

(** The length of a line up to the command column. *)
Definition cells_length (cells : list string) : Z := foldr (fun s n => strlen s + n) 0 cells.

Lemma strlen_when b s t : strlen s = strlen t -> strlen (when b s) = strlen (when b t).
Proof. by destruct b. Qed.

(** One cell against its title, when both fit. *)
Lemma same_left b w s t : (b = true -> strlen s <= w /\ strlen t <= w) ->
  strlen (when b (left_cell w s)) = strlen (when b (left_cell w t)).
Proof. destruct b; [|done]. intros [H1 H2]; [done|]. simpl. by rewrite !strlen_left. Qed.
Lemma same_right b e w s t : 0 <= e -> (b = true -> strlen s <= w /\ strlen t <= w) ->
  strlen (when b (right_cell e w s)) = strlen (when b (right_cell e w t)).
Proof. intros He. destruct b; [|done]. intros [H1 H2]; [done|]. simpl. by rewrite !strlen_right. Qed.

(** What [measure] guarantees of a process of the list. *)
Definition wide_enough (w : widths) (p : myProc) (c : string) : Prop :=
  strlen (user p) <= wUSER w /\ strlen (user p) <= wUID w /\ strlen (show (pid p)) <= wPID w /\
  strlen (show (ppid p)) <= wPPID w /\ strlen c <= wC w /\ strlen (Ps.start p) <= wSTIME w /\
  strlen (cpu_text p) <= wCPU w /\ strlen (mem_text p) <= wMEM w /\
  strlen (show (vsz p)) <= wVSZ w /\ strlen (show (rss p)) <= wRSS w /\ strlen (tty p) <= wTTY w /\
  strlen (Ps.stat p) <= wSTAT w /\ strlen (Ps.start p) <= wSTART w /\ strlen (Ps.time p) <= wTIME w.
Definition titles_fit (w : widths) : Prop :=
  strlen "USER" <= wUSER w /\ strlen "UID" <= wUID w /\ strlen "PID" <= wPID w /\
  strlen "PPID" <= wPPID w /\ strlen "C" <= wC w /\ strlen "STIME" <= wSTIME w /\
  strlen "%CPU" <= wCPU w /\ strlen "%MEM" <= wMEM w /\ strlen "VSZ" <= wVSZ w /\
  strlen "RSS" <= wRSS w /\ strlen "TTY" <= wTTY w /\ strlen "STAT" <= wSTAT w /\
  strlen "START" <= wSTART w /\ strlen "TIME" <= wTIME w.

Lemma measure_wide ps w p c : measure ps = Ok w -> p ∈ ps -> cpu_int p = Ok c ->
  wide_enough w p c /\ titles_fit w.
Proof.
  unfold measure. destruct (map_res cpu_int ps) as [cs|] eqn:Ecs; [|discriminate]. simpl.
  intros [= <-] Hp Hc. pose proof (map_res_elem _ _ _ _ _ Ecs Hp Hc) as Hcs.
  assert (forall A (f : myProc -> A), f p ∈ map f ps) as Hmap.
  { intros A f. apply list_elem_of_fmap. eauto. }
  unfold wide_enough, titles_fit. simpl.
  repeat split; (apply (proj2 (widest_ge _ _)); first [exact Hcs | apply (Hmap _ (fun p => _ p))
    | apply (Hmap _ (fun p => show (_ p)))]) || apply (proj1 (widest_ge _ _)).
Qed.

(** Cell by cell, a line is as long as the header. *)
Lemma cells_aligned opts w p c : consistent opts -> wide_enough w p c -> titles_fit w ->
  cells_length (row_cells opts (hide opts w) p c) = cells_length (header_cells opts (hide opts w)).
Proof.
  intros Hc Hw Ht. unfold wide_enough, titles_fit in *.
  destruct opts as [[] [] [] h pp [] []]; try (destruct (Hc eq_refl); discriminate); clear Hc;
    unfold cells_length, row_cells, header_cells, hide, shows_stat;
    cbn [foldr when negb andb orb aOption eOption fOption uOption xOption wUSER wUID wPID wPPID wC
         wSTIME wCPU wMEM wVSZ wRSS wTTY wSTAT wSTART wTIME];
    rewrite ?strlen_app; rewrite ?strlen_left, ?strlen_right by lia;
    change (strlen "   ") with 3; lia.
Qed.

(** ** Words *)
Definition is_word (cap : Z) (w : string) : Prop :=
  w <> EmptyString /\ no_space w = true /\ strlen w < cap.
Definition unwords (ws : list string) : string := foldr (fun w s => w +:+ " " +:+ s) EmptyString ws.

Lemma scan_s_space s : scan_s (" " +:+ s) = scan_s s.
Proof. unfold scan_s. simpl. by rewrite skip_spaces_cons. Qed.

Lemma fscanf_word cap old w rest : is_word cap w ->
  fscanf_s cap old (w +:+ " " +:+ rest) = Ok (w, " " +:+ rest).
Proof.
  intros (Hne & Hw & Hl). unfold fscanf_s, scan_s.
  destruct w as [|c w]; [done|]. change (String c w +:+ " " +:+ rest) with (String c (w +:+ " " +:+ rest)).
  rewrite skip_spaces_cons. pose proof Hw as Hw'. simpl in Hw'. apply andb_prop in Hw' as [Hc _].
  apply negb_true_iff in Hc. rewrite Hc.
  change (String c (w +:+ " " +:+ rest)) with (String c w +:+ " " +:+ rest).
  rewrite span_all by (by apply no_space_span || done).
  unfold strcpy. by rewrite (proj2 (Z.ltb_lt _ _)).
Qed.

Lemma fscanf_space cap old s : fscanf_s cap old (" " +:+ s) = fscanf_s cap old s.
Proof. unfold fscanf_s. by rewrite scan_s_space. Qed.

(** The tokens of a line are its words. *)
Lemma read_tokens_words cap n ws : Forall (is_word cap) ws -> (n <= List.length ws)%nat ->
  read_tokens cap n (unwords ws) = Ok (take n ws).
Proof.
  intros Hws. revert n. induction Hws as [|w ws Hw Hws IH]; intros n Hn.
  - simpl in Hn. by replace n with 0%nat by lia.
  - destruct n as [|n]; [done|]. cbn [unwords foldr read_tokens]. fold (unwords ws).
    rewrite fscanf_word by done. cbn [mbind res_bind take].
    assert (read_tokens cap n (" " +:+ unwords ws) = read_tokens cap n (unwords ws)) as ->.
    { destruct n; [done|]. cbn [read_tokens]. by rewrite fscanf_space. }
    rewrite IH by (simpl in Hn; lia). done.
Qed.

(** Printed numbers are words. *)

Lemma show_word n : is_int n = true -> is_word TOKEN_LEN (show n).
Proof.
  intros Hn%is_int_bounds. destruct (show_head n) as (c & t & Hs & _).
  assert (forall m, 0 <= m < 10 ^ 10 -> no_space (show_u m) = true /\ strlen (show_u m) <= 10) as Hu.
  { intros m Hm. split; [apply digits_no_space, show_u_spec; lia|].
    unfold show_u. etransitivity; [apply (show_loop_length _ _ 10); lia|]. done. }
  split; [by rewrite Hs|]. unfold show. destruct (Z.ltb_spec n 0).
  - destruct (Hu (- n)) as [H1 H2]; [lia|]. split; [done|].
    unfold strlen, TOKEN_LEN in *. simpl. lia.
  - destruct (Hu n) as [H1 H2]; [lia|]. split; [done|]. unfold TOKEN_LEN. lia.
Qed.

(** ** A process as the kernel describes it *)
Record task := mk_task {
  t_pid : Z; t_comm : string; t_state : ascii; t_ppid : Z; t_pgrp : string; t_sid : Z;
  t_tty : string; t_tpgid : Z; t_faults : list string; t_utime : Z; t_stime : Z;
  t_cutime : string; t_cstime : string; t_priority : Z; t_nice : Z; t_threads : Z;
  t_itreal : string; t_start : Z; t_more : list string
}.

(** The line of /proc/PID/stat. *)
Definition stat_words (k : task) : list string :=
  [show (t_pid k); "(" +:+ t_comm k +:+ ")"; String (t_state k) EmptyString; show (t_ppid k);
   t_pgrp k; show (t_sid k); t_tty k; show (t_tpgid k)] ++ t_faults k ++
  [show (t_utime k); show (t_stime k); t_cutime k; t_cstime k; show (t_priority k);
   show (t_nice k); show (t_threads k); t_itreal k; show (t_start k)] ++ t_more k.

(** Numbers are [int]s, the name has no blank and fits in its token. *)
Definition task_ok (k : task) : Prop :=
  Forall (fun z => is_int z = true)
    [t_pid k; t_ppid k; t_sid k; t_tpgid k; t_utime k; t_stime k; t_priority k; t_nice k;
     t_threads k; t_start k] /\
  0 <= t_pid k /\ 0 <= t_ppid k /\ 0 <= t_sid k /\ 0 <= t_utime k /\ 0 <= t_stime k /\ 0 <= t_start k /\
  t_comm k <> EmptyString /\ no_space (t_comm k) = true /\ strlen (t_comm k) + 2 < TOKEN_LEN /\
  isspace (t_state k) = false /\ List.length (t_faults k) = 5%nat /\
  Forall (is_word TOKEN_LEN)
    ([t_pgrp k; t_tty k; t_cutime k; t_cstime k; t_itreal k] ++ t_faults k ++ t_more k).

(** The STAT column the task should get. *)
Definition stat_marks (k : task) (locked : Z) : string :=
  String (t_state k) EmptyString +:+
  (if (t_nice k <? 0)%c then "<" else if (0 <? t_nice k)%c then "N" else "") +:+
  (if (0 <? locked)%c then "L" else "") +:+
  (if (t_sid k =? t_pid k)%c then "s" else "") +:+
  (if (1 <? t_threads k)%c then "l" else "") +:+
  (if (t_tpgid k =? -1)%c then "" else "+").

Lemma no_space_app s t : no_space (s +:+ t) = (no_space s && no_space t)%bool.
Proof. induction s as [|c s IH]; simpl; [done|]. by rewrite IH, andb_assoc. Qed.

Lemma stat_words_ok k : task_ok k -> Forall (is_word TOKEN_LEN) (stat_words k).
Proof.
  intros (Hint & _ & _ & _ & _ & _ & _ & Hcne & Hc & Hcl & Hst & _ & Hw).
  rewrite !Forall_cons in Hint. rewrite !Forall_app, !Forall_cons in Hw. destruct_and?.
  unfold stat_words. rewrite !Forall_app, !Forall_cons.
  assert (is_word TOKEN_LEN ("(" +:+ t_comm k +:+ ")")).
  { split; [done|]. split; [rewrite !no_space_app, Hc; done|].
    rewrite !strlen_app. change (strlen "(") with 1. change (strlen ")") with 1. lia. }
  assert (is_word TOKEN_LEN (String (t_state k) EmptyString)).
  { split; [done|]. split; [simpl; by rewrite Hst|]. done. }
  repeat match goal with |- _ /\ _ => split | |- Forall _ [] => constructor end; auto using show_word.
Qed.

Lemma u64_int z : is_int z = true -> 0 <= z -> u64 z = z.
Proof. intros H%is_int_bounds H0. unfold u64. apply Z.mod_small. lia. Qed.

(** The tokens the program reads, by name. *)
Lemma stat_tokens_named k : task_ok k -> forall ws, ws = take MAX_TOKEN (stat_words k) ->
  token_ulong ws STAT_PID_IDX = t_pid k /\ token ws STAT_CMD_IDX = "(" +:+ t_comm k +:+ ")" /\
  token ws STAT_STATE_IDX = String (t_state k) EmptyString /\ token_ulong ws STAT_PPID_IDX = t_ppid k /\
  token_int ws STAT_SID_IDX = t_sid k /\ token_int ws STAT_TPGID_IDX = t_tpgid k /\
  token_ulong ws STAT_UTIME_IDX = t_utime k /\ token_ulong ws STAT_STIME_IDX = t_stime k /\
  token_int ws STAT_PRIORITY_IDX = t_priority k /\ token_int ws STAT_NICE_IDX = t_nice k /\
  token_int ws STAT_N_THREAD_IDX = t_threads k /\ token_ulong ws STAT_START_TIME_IDX = t_start k.
Proof.
  intros (Hint & H1 & H2 & H3 & H4 & H5 & H6 & _ & _ & _ & _ & Hf & _) ws ->.
  rewrite !Forall_cons in Hint. destruct_and?. unfold stat_words.
  destruct (t_faults k) as [|f1 [|f2 [|f3 [|f4 [|f5 [|]]]]]]; try discriminate Hf.
  unfold token_ulong, token_int, token. cbn [app take nth MAX_TOKEN STAT_PID_IDX STAT_CMD_IDX
    STAT_STATE_IDX STAT_PPID_IDX STAT_SID_IDX STAT_TPGID_IDX STAT_UTIME_IDX STAT_STIME_IDX
    STAT_PRIORITY_IDX STAT_NICE_IDX STAT_N_THREAD_IDX STAT_START_TIME_IDX].
  rewrite !atoi_show, !u64_int by done. auto 15.
Qed.

(** The marks always fit in the eight bytes. *)
Lemma stat_flags_marks k locked : task_ok k ->
  stat_flags (take MAX_TOKEN (stat_words k)) (t_pid k) locked = Ok (stat_marks k locked).
Proof.
  intros Hk. destruct (stat_tokens_named k Hk _ eq_refl) as
    (_ & _ & E1 & _ & E2 & E3 & _ & _ & _ & E4 & E5 & _).
  unfold stat_flags, stat_marks. rewrite E1, E2, E3, E4, E5.
  destruct Hk as (Hint & _ & _ & H3 & _). rewrite !Forall_cons in Hint. destruct_and?.
  rewrite u64_int by done.
  destruct (t_nice k <? 0); [|destruct (0 <? t_nice k)];
    destruct (0 <? locked), (t_sid k =? t_pid k), (1 <? t_threads k), (t_tpgid k =? -1); reflexivity.
Qed.

Lemma stake_app_last s c : stake (String.length (s +:+ String c EmptyString) - 1) (s +:+ String c EmptyString) = s.
Proof.
  rewrite length_sapp. simpl. replace (String.length s + 1 - 1)%nat with (String.length s) by lia.
  induction s as [|d s IH]; simpl; [done|by rewrite IH].
Qed.

Lemma short_cmd_comm k : task_ok k -> short_cmd ("(" +:+ t_comm k +:+ ")") = Ok (t_comm k).
Proof.
  intros (_ & _ & _ & _ & _ & _ & _ & Hne & Hc & Hl & _). unfold short_cmd.
  change ("(" +:+ t_comm k +:+ ")") with (String "(" (t_comm k +:+ ")")). cbv beta iota.
  assert (is_word CMD_LEN (t_comm k +:+ ")")) as Hw.
  { split; [by destruct (t_comm k)|]. split; [by rewrite no_space_app, Hc|].
    rewrite strlen_app. change (strlen ")") with 1. unfold TOKEN_LEN, CMD_LEN in *. lia. }
  assert (fscanf_s CMD_LEN EmptyString (t_comm k +:+ ")") = Ok (t_comm k +:+ ")", EmptyString)) as ->.
  { destruct Hw as (Hn & Hs & Hlen). unfold fscanf_s, scan_s.
    destruct (t_comm k +:+ ")") as [|c w] eqn:E; [done|]. rewrite skip_spaces_cons.
    pose proof Hs as Hs'. simpl in Hs'. apply andb_prop in Hs' as [Hc' _]. apply negb_true_iff in Hc'.
    rewrite Hc'. rewrite <- (append_nil_r (String c w)) at 1.
    rewrite span_all by (by apply no_space_span || done). unfold strcpy. by rewrite (proj2 (Z.ltb_lt _ _)). }
  cbn [mbind res_bind]. rewrite strlen_app. change (strlen ")") with 1.
  pose proof (strlen_nonneg (t_comm k)). rewrite (proj2 (Z.eqb_neq _ _)) by lia.
  by rewrite stake_app_last.
Qed.

(** The COMMAND of a task: its arguments, or its name in brackets. *)
Definition command_of (comm : string) (args : list string) : string :=
  match args with [] => "[" +:+ comm +:+ "]" | _ => joined args end.
(** What [make_proc] computes for a task, once its files are read. *)
Definition proc_of (o : os) (opts : options) (g : globals) (path : string) (uid : Z)
    (k : task) (statusText : string) (args : list string) : res (option myProc) :=
  user ← user_name o uid;
  share ← cpu_since_start (t_utime k + t_stime k) (t_start k) (uptime g) (hertz g);
  cpu ← percent share;
  m ← status_memory (total_memory g) statusText;
  tty ← GetTTY o path;
  start ← start_text o (uptime g) (t_start k) (hertz g);
  time ← time_text opts (t_utime k + t_stime k) (hertz g);
  command ← strcpy CMD_LEN (command_of (t_comm k) args);
  Ok (Some (mk_proc (t_pid k) uid (t_ppid k) user cpu (m_mem m) (m_vsz m) (m_rss m) (m_shr m)
              (t_priority k) (t_nice k) tty (stat_marks k (m_lck m)) start time (t_comm k) command)).

Lemma long_command_args cmd args : Forall is_arg args ->
  long_command (cmdline_of args) cmd = strcpy CMD_LEN (command_of cmd args).
Proof.
  intros Hargs. unfold long_command. rewrite read_cmdline_args by done.
  unfold strcat, strcpy, command_of. change (strlen "") with 0. rewrite Z.add_0_l.
  destruct args as [|a args]; [done|].
  inversion Hargs as [|? ? Ha _]; subst. pose proof (joined_nonempty a args Ha).
  destruct (strlen (joined _) <? CMD_LEN)%c; [|done]. cbn [mbind res_bind String.append].
  by rewrite (proj2 (Z.eqb_neq _ _)) by lia.
Qed.
(** A command line that does not fit ends every reading of the task. *)
Lemma proc_of_full o opts g path uid k statusText args : CMD_LEN <= strlen (joined args) ->
  is_ok (proc_of o opts g path uid k statusText args) = false.
Proof.
  intros Hl. unfold proc_of.
  assert (strcpy CMD_LEN (command_of (t_comm k) args) = Err BufferOverflow) as ->.
  { destruct args as [|a args]; [change (strlen _) with 0 in Hl; unfold CMD_LEN in Hl; lia|].
    unfold strcpy, command_of. by rewrite (proj2 (Z.ltb_ge _ _)). }
  destruct (user_name _ _); [|done]. cbn [mbind res_bind]. destruct (cpu_since_start _ _ _ _); [|done].
  cbn [mbind res_bind]. destruct (percent _); [|done]. cbn [mbind res_bind].
  destruct (status_memory _ _); [|done]. cbn [mbind res_bind]. destruct (GetTTY _ _); [|done].
  cbn [mbind res_bind]. destruct (start_text _ _ _ _); [|done]. cbn [mbind res_bind].
  by destruct (time_text _ _ _).
Qed.

Lemma path_file_ok path f : strlen path + 8 < PATH_SIZE -> strlen f <= 8 ->
  strcpy PATH_SIZE path = Ok path /\ strcat PATH_SIZE path f = Ok (path +:+ f).
Proof.
  intros H Hf. pose proof (strlen_nonneg f). unfold strcpy, strcat. rewrite !(proj2 (Z.ltb_lt _ _)) by lia. done.
Qed.

Lemma gmtime_min t : tm_min (gmtime t) = t / 60 mod 60.
Proof.
  unfold gmtime. destruct (split_years _ _ _) as [y d]. destruct (split_months _ _ _). simpl.
  Z.div_mod_to_equations. lia.
Qed.
Lemma gmtime_sec t : tm_sec (gmtime t) = t mod 60.
Proof.
  unfold gmtime. destruct (split_years _ _ _) as [y d]. destruct (split_months _ _ _). simpl.
  Z.div_mod_to_equations. lia.
Qed.

Lemma make_proc_task o opts g path k sb statusText args :
  task_ok k -> Forall is_arg args -> strlen path + 8 < PATH_SIZE ->
  access_R o path = true -> access_R o (path +:+ STAT) = true ->
  fopen_r o (path +:+ STAT) = Some (unwords (stat_words k)) -> stat_of o (path +:+ STAT) = Some sb ->
  fopen_r o (path +:+ STATUS) = Some statusText -> fopen_r o (path +:+ CMDLINE) = Some (cmdline_of args) ->
  make_proc o opts g path = proc_of o opts g path (st_uid sb) k statusText args.
Proof.
  intros Hk Hargs Hp A1 A2 F1 S1 F2 F3.
  unfold make_proc. rewrite A1. cbn [negb].
  destruct (path_file_ok path STAT Hp ltac:(done)) as [C0 C1].
  destruct (path_file_ok path STATUS Hp ltac:(done)) as [_ C2].
  destruct (path_file_ok path CMDLINE Hp ltac:(done)) as [_ C3].
  rewrite C0. cbn [mbind res_bind]. rewrite C1. cbn [mbind res_bind]. rewrite A2, F1. cbn [negb].
  rewrite read_tokens_words; [|by apply stat_words_ok|].
  2: { unfold stat_words, MAX_TOKEN. rewrite !length_app.
       destruct Hk as (_ & _ & _ & _ & _ & _ & _ & _ & _ & _ & _ & -> & _). simpl. lia. }
  cbn [mbind res_bind]. rewrite S1, C2.
  destruct (stat_tokens_named k Hk _ eq_refl) as (-> & -> & _ & -> & _ & _ & -> & -> & -> & -> & _ & ->).
  assert (u64 (t_utime k + t_stime k) = t_utime k + t_stime k) as ->.
  { destruct Hk as (Hint & _ & _ & _ & H4 & H5 & _). rewrite !Forall_cons in Hint. destruct_and?.
    unfold u64. apply Z.mod_small. rewrite is_int_bounds in *. lia. }
  unfold proc_of. destruct (user_name o (st_uid sb)) as [u|]; [|done]. cbn [mbind res_bind].
  destruct (cpu_since_start _ _ _ _) as [share|]; [|done]. cbn [mbind res_bind].
  destruct (percent share) as [c|]; [|done]. cbn [mbind res_bind]. rewrite F2.
  destruct (status_memory _ _) as [m|]; [|done]. cbn [mbind res_bind].
  destruct (GetTTY o path) as [tty|]; [|done]. cbn [mbind res_bind].
  rewrite stat_flags_marks by done. cbn [mbind res_bind].
  destruct (start_text _ _ _ _) as [st|]; [|done]. cbn [mbind res_bind].
  destruct (time_text _ _ _) as [tt|]; [|done]. cbn [mbind res_bind].
  rewrite short_cmd_comm by done. cbn [mbind res_bind]. rewrite C3. cbn [mbind res_bind].
  by rewrite F3, long_command_args.
Qed.

(** ** Properties *)

(** C15: A process is read correctly. When the files of a directory of /proc are those the
    kernel writes for task [k] (the stat line, a status file, the NUL-separated
    command line), its numbers are [int]s, the path is short, the name of the task has no
    blank and 1 to 29 characters, and no argument is empty, then the fields of the new entry
    are the task's: PID, parent, priority, nice, the state with its marks, the name and the command line. The
    command line is the arguments with blanks between them, and when these are CMD_LEN
    characters or more they run over the array [command]: the reading is no success. *)
Theorem process_read o opts g path k sb statusText args :
  task_ok k -> Forall is_arg args -> strlen path + 8 < PATH_SIZE ->
  access_R o path = true -> access_R o (path +:+ STAT) = true ->
  fopen_r o (path +:+ STAT) = Some (unwords (stat_words k)) -> stat_of o (path +:+ STAT) = Some sb ->
  fopen_r o (path +:+ STATUS) = Some statusText -> fopen_r o (path +:+ CMDLINE) = Some (cmdline_of args) ->
  make_proc o opts g path = proc_of o opts g path (st_uid sb) k statusText args /\
  (CMD_LEN <= strlen (joined args) -> is_ok (make_proc o opts g path) = false).
Proof.
  intros Hk Hargs Hp A1 A2 F1 S1 F2 F3.
  rewrite (make_proc_task o opts g path k sb statusText args) by done.
  split; [done|]. apply proc_of_full.
Qed.

(** A task, and a machine that has its files. *)
Definition demo_task : task :=
  mk_task 42 "bash" "S"%char 7 "42" 42 "34816" 42 ["4194304"; "1"; "2"; "3"; "4"] 1500 250 "0" "0"
    20 0 1 "0" 1000 ["999"].
Definition ps_os (stat : string) : os :=
  mk_os
    (fun p => if String.eqb p "/proc/42/stat" then Some stat
              else if String.eqb p "/proc/42/status" then Some ""
              else if String.eqb p "/proc/42/cmdline" then Some (cmdline_of ["bash"; "-l"]) else None)
    (fun _ => None) (fun _ => Some (mk_fstat IsDir 1000 0)) (fun _ => true) (fun _ => true)
    (fun _ => Some "/dev/pts/0") (fun _ => Some "kim") gmtime 100000 100 1 0 80.
Definition ps_globals : globals := mk_globals 50000 16000000 100 1000 "pts/0".

(** The same machine when task 42 has a single argument of [n] letters. *)
Definition long_args (n : nat) : list string := [srepeat "a"%char n].
Definition long_os (n : nat) : os :=
  let o := ps_os (unwords (stat_words demo_task)) in
  mk_os (fun p => if String.eqb p "/proc/42/cmdline" then Some (cmdline_of (long_args n)) else fopen_r o p)
    (readdir_all o) (stat_of o) (access_F o) (access_R o) (readlink_of o) (getpwuid_name o)
    (localtime_of o) (now o) (clk_tck o) (my_pid o) (my_uid o) (cols o).

Lemma process_read_witness :
  make_proc (ps_os (unwords (stat_words demo_task))) no_options ps_globals "/proc/42" =
    proc_of (ps_os (unwords (stat_words demo_task))) no_options ps_globals "/proc/42" 1000 demo_task ""
      ["bash"; "-l"] /\
  is_ok (make_proc (ps_os (unwords (stat_words demo_task))) no_options ps_globals "/proc/42") = true /\
  is_ok (make_proc (long_os 1024) no_options ps_globals "/proc/42") = false.
Proof.
  assert (task_ok demo_task) as Hk
    by (repeat split; try discriminate; repeat constructor; try discriminate).
  split; [|split; [vm_compute; reflexivity|]].
  - apply (process_read _ no_options ps_globals "/proc/42" demo_task (mk_fstat IsDir 1000 0)); try reflexivity;
      [exact Hk|]. repeat constructor; discriminate.
  - apply (process_read _ no_options ps_globals "/proc/42" demo_task (mk_fstat IsDir 1000 0) "" (long_args 1024));
      try reflexivity; [exact Hk|].
    constructor; [|constructor]. split; [vm_compute; reflexivity|discriminate].
Defined.
(** The longest argument that fits. *)
Example longest_command_line :
  is_ok (make_proc (long_os 1023) no_options ps_globals "/proc/42") = true.
Proof. vm_compute. reflexivity. Qed.

(** The table is aligned. For options that hide no printed column (so not f with
    u, or with a STAT column), every line of the table reaches the command
    column at the same offset as the header does. *)
Theorem columns_aligned opts ps w p c :
  consistent opts -> measure ps = Ok w -> p ∈ ps -> cpu_int p = Ok c ->
  cells_length (row_cells opts (hide opts w) p c) = cells_length (header_cells opts (hide opts w)).
Proof.
  intros Hc Hm Hp Hi. destruct (measure_wide ps w p c Hm Hp Hi) as [Hw Ht]. by apply cells_aligned.
Qed.

Definition demo_proc : myProc :=
  mk_proc 42 1000 7 "kim" ld_zero ld_zero 0 0 0 20 0 "pts/0" "Ss+" "10:00" "0:17" "bash" "bash -l".
Definition u_options : options := mk_options true false false false false true true.

Lemma columns_aligned_witness : exists w, measure [demo_proc] = Ok w /\
  cells_length (row_cells u_options (hide u_options w) demo_proc "0") =
  cells_length (header_cells u_options (hide u_options w)).
Proof.
  eexists. split; [vm_compute; reflexivity|].
  apply (columns_aligned u_options [demo_proc] _ demo_proc "0"); [|vm_compute; reflexivity| |vm_compute; reflexivity].
  - intros H. discriminate H.
  - apply list_elem_of_here.
Defined.

(** The TIME column loses the hours: with options a, u or x (and not e) a process
    that used an hour more of CPU time shows the same text. *)
Theorem time_drops_hours opts totalTime hertz :
  (aOption opts || uOption opts || xOption opts)%bool = true -> eOption opts = false -> 0 < hertz ->
  time_text opts (totalTime + 3600 * hertz) hertz = time_text opts totalTime hertz.
Proof.
  intros Ho He Hh. unfold time_text, udiv. rewrite (proj2 (Z.eqb_neq hertz 0)) by lia.
  cbn [mbind res_bind]. rewrite Z.div_add by lia. rewrite !gmtime_min, !gmtime_sec, He.
  replace ((totalTime / hertz + 3600) / 60) with (totalTime / hertz / 60 + 1 * 60)
    by (Z.div_mod_to_equations; lia).
  replace (totalTime / hertz + 3600) with (totalTime / hertz + 60 * 60) by lia.
  rewrite !Z.mod_add by lia.
  destruct (aOption opts), (uOption opts), (xOption opts); try discriminate; done.
Qed.

Lemma time_drops_hours_witness : time_text u_options 360100 100 = time_text u_options 100 100.
Proof. exact (time_drops_hours u_options 100 100 ltac:(reflexivity) ltac:(reflexivity) ltac:(lia)). Defined.

(** A blank in the name of a process breaks the fixed buffers: with the name
    "Web Content", the state token is "Content)", which does not fit the eight
    bytes of the state; and the name itself is read as "We". *)
Theorem blank_in_name :
  make_proc (ps_os "42 (Web Content) S 7 42 42 34816 42 4194304 1 2 3 4 1500 250 0 0 20 0 1 0 1000 999")
    no_options ps_globals "/proc/42" = Err BufferOverflow /\
  short_cmd "(Web" = Ok "We".
Proof. split; vm_compute; reflexivity. Qed.
