(* ===== verification/TopProc.v ===== *)
(** * [mytop]: reading and sorting the processes (src/Assignment_2/mytop.c)

    The process entries, the CPU share since the last refresh kept per PID in
    [cpuTimeTable], the search of /proc, and the bubble sort of pointers into
    the list. *)
From Stdlib Require Import ZArith Lia Ascii String.
From S2P Require Import Prelude CLib OsEnv LongDouble ProcFs.
Import ProcFs.

Local Open Scope stdpp_scope.
Local Open Scope Z_scope.

Module TopProc.

Definition PID_MAX : Z := 32768.

Record myProc := mk_proc {
  pid : Z; uid : Z; ppid : Z; runtime : Z; user : string;
  cpu : long_double; mem : long_double;
  vsz : Z; rss : Z; shr : Z; priority : Z; nice : Z;
  tty : string; stat : string; start : string; time : string;
  cmd : string; command : string
}.

(** [unsigned long cpuTimeTable[PID_MAX]]: the entries that are not zero. *)
Definition table : Type := gmap Z Z.
Definition table_get (t : table) (i : Z) : res Z :=
  if ((0 <=? i)%c && (i <? PID_MAX)%c)%bool then Ok (default 0 (t !! i)) else Err OutOfBounds.
Definition table_set (t : table) (i v : Z) : res table :=
  if ((0 <=? i)%c && (i <? PID_MAX)%c)%bool then Ok (<[i := v]> t) else Err OutOfBounds.

(** The globals a refresh reads. *)
Record clock := mk_clock { uptime : Z; total_memory : Z; hertz : Z; now_ : Z; before : Z }.

(** The functions shared with [myps.c]. *)
Definition RoundDouble : long_double -> nat -> res long_double := LongDouble.RoundDouble.
Definition GetTTY : os -> string -> res string := ProcFs.GetTTY.
Definition GetUpTime : os -> res Z := ProcFs.GetUpTime.
Definition GetTotalMemory (o : os) : res Z := meminfo_total o.

(** EraseProcess leaves [runtime] alone; EraseProcessList forgets the entries. *)
Definition EraseProcess (p : myProc) : myProc :=
  mk_proc 0 0 0 (runtime p) "" ld_zero ld_zero 0 0 0 0 0 "" "" "" "" "" "".
Definition EraseProcessList (_ : list myProc) : list myProc := [].

(** ** AddProcessList *)

(** The CPU share: since the last refresh when the PID was seen before, since
    the start of the process otherwise; the table remembers the time used. *)
Definition cpu_share (g : clock) (t : table) (pid totalTime startTime : Z)
  : res (long_double * table) :=
  old ← table_get t pid;
  t' ← table_set t pid totalTime;
  share ← (if negb (old =? 0)%c
           then Ok (ld_mul (ld_div (ld_div (ld_of_Z (u64 (totalTime - old)))
                                           (ld_of_Z (s64 (now_ g - before g))))
                                   (ld_of_Z (hertz g)))
                           (ld_of_Z 100))
           else cpu_since_start totalTime startTime (uptime g) (hertz g));
  cpu ← percent share;
  Ok (cpu, t').

Record memory := mk_memory { m_vsz : Z; m_rss : Z; m_shr : Z; m_mem : long_double }.

(** Rows 18, 22, 24 and 25 of /proc/PID/status (the lock row 19 is read and not
    used); the shared memory is the sum of rows 24 and 25. *)
Definition status_memory (total : Z) (statusFp : string) : res memory :=
  let '(buf, fp) := read_rows 1024 STATUS_VSZ_ROW EmptyString statusFp in
  if negb (String.eqb (stake 6 buf) VMSIZE) then Ok (mk_memory 0 0 0 ld_zero)
  else
    let vsz := sscanf_lu (first_digit_cut 6 buf) 0 in
    let '(buf, fp) := read_rows 1024 (STATUS_VMLCK_ROW - STATUS_VSZ_ROW) buf fp in
    let '(buf, fp) := read_rows 1024 (STATUS_RSS_ROW - STATUS_VMLCK_ROW) buf fp in
    let rss := sscanf_lu (first_digit buf) 0 in
    let '(buf, fp) := read_rows 1024 (STATUS_SHR_ROW - STATUS_RSS_ROW) buf fp in
    let shr := sscanf_lu (first_digit buf) 0 in
    let '(buf, _) := read_line 1024 fp in
    shr_add ← (match scan_lu (first_digit buf) with
               | ScanVal v _ => Ok v
               | _ => Err Uninitialised
               end);
    mem ← percent (mem_share rss total);
    Ok (mk_memory vsz rss (u64 (shr + shr_add)) mem).

(** Minutes, seconds and hundredths. *)
Definition time_plus (totalTime hertz : Z) : res string :=
  cpuTime ← udiv totalTime hertz;
  let t := gmtime cpuTime in
  strcpy TIME_LEN (show (tm_min t) +:+ ":" +:+ fmt_0d 2 (tm_sec t) +:+ "." +:+
                   fmt_0d 2 (totalTime mod 100)).

(** One process, and the table: it is updated even when a later file is missing. *)
Definition make_proc (o : os) (g : clock) (t : table) (path : string)
  : res (table * option myProc) :=
  if negb (access_R o path) then Ok (t, None) else
  p ← strcpy PATH_SIZE path;
  statPath ← strcat PATH_SIZE p STAT;
  if negb (access_R o statPath) then Ok (t, None) else
  match fopen_r o statPath with
  | None => Ok (t, None)
  | Some statFp =>
      ws ← read_tokens TOKEN_LEN MAX_TOKEN statFp;
      let pid := token_ulong ws STAT_PID_IDX in
      let ppid := token_ulong ws STAT_PPID_IDX in
      match stat_of o statPath with
      | None => Ok (t, None)
      | Some statbuf =>
          user ← user_name o (st_uid statbuf);
          let utime := token_ulong ws STAT_UTIME_IDX in
          let stime := token_ulong ws STAT_STIME_IDX in
          let startTime := token_ulong ws STAT_START_TIME_IDX in
          let totalTime := u64 (utime + stime) in
          '(cpu, t) ← cpu_share g t pid totalTime startTime;
          statusPath ← strcat PATH_SIZE p STATUS;
          match fopen_r o statusPath with
          | None => Ok (t, None)
          | Some statusFp =>
              m ← status_memory (total_memory g) statusFp;
              stat ← strcpy STAT_LEN (token ws STAT_STATE_IDX);
              start ← start_text o (uptime g) startTime (hertz g);
              time ← time_plus totalTime (hertz g);
              cmd ← short_cmd (token ws STAT_CMD_IDX);
              cmdLinePath ← strcat PATH_SIZE p CMDLINE;
              match fopen_r o cmdLinePath with
              | None => Ok (t, None)
              | Some cmdLineFp =>
                  command ← long_command cmdLineFp cmd;
                  Ok (t, Some (mk_proc pid (st_uid statbuf) ppid totalTime user cpu (m_mem m)
                                 (m_vsz m) (m_rss m) (m_shr m) (token_int ws STAT_PRIORITY_IDX)
                                 (token_int ws STAT_NICE_IDX) "" stat start time cmd command))
              end
          end
      end
  end.

Definition push (procList : list myProc) (p : myProc) : res (list myProc) :=
  _ ← require (Z.of_nat (List.length procList) <? PROCESS_MAX)%c OutOfBounds;
  Ok (procList ++ [p]).

Definition AddProcessList (o : os) (g : clock) (path : string) (st : table * list myProc)
  : res (table * list myProc) :=
  let '(t, procList) := st in
  '(t, p) ← make_proc o g t path;
  match p with
  | None => Ok (t, procList)
  | Some p => procList ← push procList p; Ok (t, procList)
  end.

(** ** SearchProcess *)
Fixpoint search_loop (o : os) (g : clock) (names : list string) (st : table * list myProc)
  : res (table * list myProc) :=
  match names with
  | [] => Ok st
  | d_name :: names =>
      path ← join_path PATH_SIZE PROC d_name;
      statbuf ← of_option (Exit 1) (stat_of o path);
      match st_kind statbuf with
      | IsDir =>
          if negb (is_pid d_name) then search_loop o g names st
          else st ← AddProcessList o g path st; search_loop o g names st
      | _ => search_loop o g names st
      end
  end.

(** The new [uptime], table and list. *)
Definition SearchProcess (o : os) (g : clock) (t : table) (procList : list myProc)
  : res (Z * table * list myProc) :=
  uptime ← GetUpTime o;
  let g := mk_clock uptime (total_memory g) (hertz g) (now_ g) (before g) in
  names ← of_option (Exit 1) (readdir_all o PROC);
  '(t, procList) ← search_loop o g names (t, procList);
  Ok (uptime, t, procList).

(** ** isGreater and SortProc *)
Inductive sort_mode := CPU_MODE | MEM_MODE | PID_MODE | TIME_MODE.
#[export] Instance sort_mode_eq_dec : EqDecision sort_mode.
Proof. solve_decision. Defined.

(** [Some b]: the function falls through with [value = b], which [reverseMode]
    negates; [None]: it returned already, comparing the PIDs. *)
Definition mode_value (sortMode : sort_mode) (a b : myProc) : option bool :=
  match sortMode with
  | CPU_MODE => if ld_lt (cpu a) (cpu b) then Some true
                else if ld_gt (cpu a) (cpu b) then Some false else None
  | MEM_MODE => if ld_lt (mem a) (mem b) then Some true
                else if ld_gt (mem a) (mem b) then Some false
                else if (rss a <? rss b)%c then Some true
                else if (rss b <? rss a)%c then Some false else None
  | PID_MODE => Some (pid b <? pid a)%c
  | TIME_MODE => if (runtime a <? runtime b)%c then Some true
                 else if (runtime b <? runtime a)%c then Some false else None
  end.

Definition isGreater (sortMode : sort_mode) (reverseMode : bool) (a b : myProc) : bool :=
  match mode_value sortMode a b with
  | Some value => if negb reverseMode then value else negb value
  | None => (pid b <? pid a)%c
  end.

(** The inner loop: one pass over [sorted[0..i]], greater entries move right. *)
Fixpoint bubble (greater : myProc -> myProc -> bool) (i : nat) (l : list myProc) : list myProc :=
  match i, l with
  | S i, a :: b :: l =>
      if greater a b then b :: bubble greater i (a :: l) else a :: bubble greater i (b :: l)
  | _, _ => l
  end.
(** The outer loop, [i] from [procCnt - 1] down to 1. *)
Fixpoint sort_loop (greater : myProc -> myProc -> bool) (i : nat) (l : list myProc) : list myProc :=
  match i with
  | O => l
  | S i' => sort_loop greater i' (bubble greater i l)
  end.
Definition SortProc (sortMode : sort_mode) (reverseMode : bool) (procList : list myProc)
  : list myProc :=
  sort_loop (isGreater sortMode reverseMode) (List.length procList - 1) procList.

End TopProc.
