(* ===== verification/TopSort.v ===== *)
(** * [mytop]: the sort is a sort (src/Assignment_2/mytop.c)

    The bubble sort for any comparison that is a strict total order on the
    elements, and [isGreater] as such an order in every mode. *)
From Stdlib Require Import ZArith Lia Sorted SpecFloat.
From S2P Require Import Prelude LongDouble TopProc.
Import TopProc.

Local Open Scope Z_scope.

(** ** Bubble sort *)
Section Bubble.
Context (greater : myProc -> myProc -> bool) (L : list myProc).
Hypothesis greater_asym : forall a b, a ∈ L -> b ∈ L -> a <> b ->
  greater a b = true -> greater b a = false.
Hypothesis greater_trans : forall a b c, a ∈ L -> b ∈ L -> c ∈ L -> a <> b -> b <> c -> a <> c ->
  greater a b = false -> greater b c = false -> greater a c = false.

(** [a] may stand before [b]. *)
Definition before_ok (a b : myProc) : Prop := greater a b = false.

Lemma bubble_perm i : forall l, bubble greater i l ≡ₚ l.
Proof.
  induction i as [|i IH]; intros l; [done|]. destruct l as [|a [|b l]]; [done..|].
  simpl. destruct (greater a b); rewrite IH; [apply Permutation_swap|done].
Qed.

Lemma bubble_app i : forall l suf, List.length l = S i ->
  bubble greater i (l ++ suf) = bubble greater i l ++ suf.
Proof.
  induction i as [|i IH]; intros l suf Hl; [done|].
  destruct l as [|a [|b l]]; simpl in Hl; [lia|lia|]. simpl.
  destruct (greater a b); simpl; f_equal; apply (IH (_ :: l)); simpl; lia.
Qed.

(** A pass brings the greatest of the first [S i] entries to the end. *)
Lemma bubble_max i : forall l, List.length l = S i -> NoDup l -> l ⊆ L ->
  exists l' m, bubble greater i l = l' ++ [m] /\ Forall (fun x => before_ok x m) l'.
Proof.
  induction i as [|i IH]; intros l Hl Hnd Hsub.
  - destruct l as [|a [|]]; simpl in Hl; try lia. exists [], a. by split.
  - destruct l as [|a [|b l]]; simpl in Hl; [lia|lia|].
    apply NoDup_cons in Hnd as [Ha Hnd]. pose proof Hnd as [Hb Hnd']%NoDup_cons.
    assert (a <> b) as Hab by set_solver.
    assert (a ∈ L /\ b ∈ L /\ l ⊆ L) as (HaL & HbL & HlL) by set_solver.
    simpl. destruct (greater a b) eqn:E.
    + destruct (IH (a :: l)) as (l' & m & Hm & Hall); [simpl; lia|apply NoDup_cons; set_solver|set_solver|].
      exists (b :: l'), m. rewrite Hm. split; [done|]. apply Forall_cons; split; [|done].
      pose proof (bubble_perm i (a :: l)) as Hp. rewrite Hm in Hp.
      assert (m ∈ a :: l) as Hin by (rewrite <- Hp; set_solver).
      assert (greater b a = false) as Hba by (by apply greater_asym).
      apply elem_of_cons in Hin as [->|Hin]; [done|].
      apply (greater_trans b a m); [done|done|set_solver|done|set_solver|set_solver|done|].
      assert (a ∈ l' ++ [m]) as Ha' by (rewrite Hp; set_solver).
      rewrite Forall_forall in Hall. apply elem_of_app in Ha' as [Ha'|Ha']; [by apply Hall|set_solver].
    + destruct (IH (b :: l)) as (l' & m & Hm & Hall); [simpl; lia|done|set_solver|].
      exists (a :: l'), m. rewrite Hm. split; [done|]. apply Forall_cons; split; [|done].
      pose proof (bubble_perm i (b :: l)) as Hp. rewrite Hm in Hp.
      assert (m ∈ b :: l) as Hin by (rewrite <- Hp; set_solver).
      apply elem_of_cons in Hin as [->|Hin]; [done|].
      apply (greater_trans a b m); [done|done|set_solver|done|set_solver|set_solver|done|].
      assert (b ∈ l' ++ [m]) as Hb' by (rewrite Hp; set_solver).
      rewrite Forall_forall in Hall. apply elem_of_app in Hb' as [Hb'|Hb']; [by apply Hall|set_solver].
Qed.

Lemma sort_loop_perm i : forall l, sort_loop greater i l ≡ₚ l.
Proof.
  induction i as [|i IH]; intros l; [done|].
  change (sort_loop greater (S i) l) with (sort_loop greater i (bubble greater (S i) l)).
  by rewrite IH, bubble_perm.
Qed.

(** The part behind [i] is sorted and not smaller than the rest. *)
Lemma sort_loop_sorted i : forall pre suf, List.length pre = S i ->
  NoDup (pre ++ suf) -> pre ++ suf ⊆ L -> StronglySorted before_ok suf ->
  (forall x y, x ∈ pre -> y ∈ suf -> before_ok x y) ->
  StronglySorted before_ok (sort_loop greater i (pre ++ suf)).
Proof.
  induction i as [|i IH]; intros pre suf Hl Hnd Hsub Hsuf Hcross.
  - destruct pre as [|a [|]]; simpl in Hl; try lia. simpl. constructor; [done|].
    apply Forall_forall. intros y Hy. apply Hcross; set_solver.
  - change (sort_loop greater (S i) (pre ++ suf)) with
      (sort_loop greater i (bubble greater (S i) (pre ++ suf))).
    rewrite bubble_app by done.
    destruct (bubble_max (S i) pre) as (l' & m & Hm & Hall);
      [done|by apply (NoDup_app pre suf) in Hnd as [? _]|set_solver|].
    pose proof (bubble_perm (S i) pre) as Hp. rewrite Hm in Hp.
    assert (List.length l' = S i) as Hl'.
    { apply Permutation_length in Hp. rewrite length_app in Hp. simpl in Hp. lia. }
    rewrite Hm, <- app_assoc. apply IH; [done| | | |].
    + rewrite app_assoc. rewrite Hp. done.
    + rewrite app_assoc. intros x. rewrite !elem_of_app. intros [Hx|Hx]; apply Hsub, elem_of_app; [left|by right].
      rewrite <- Hp. by apply elem_of_app.
    + simpl. constructor; [done|]. apply Forall_forall. intros y Hy.
      apply Hcross; [rewrite <- Hp; set_solver|done].
    + intros x y Hx Hy. simpl in Hy. apply elem_of_cons in Hy as [->|Hy].
      * by rewrite Forall_forall in Hall; apply Hall.
      * apply Hcross; [rewrite <- Hp; set_solver|done].
Qed.
End Bubble.

(** ** The comparison *)

(** What a mode compares first. *)
Definition mode_key (m : sort_mode) (p : myProc) : Z * Z * Z * Z :=
  match m with
  | CPU_MODE => (ld_key (cpu p), 0)
  | MEM_MODE => (ld_key (mem p), rss p)
  | PID_MODE => (0, 0, 0, - pid p)
  | TIME_MODE => (0, 0, 0, runtime p)
  end.
Definition key4_lt (a b : Z * Z * Z * Z) : Prop :=
  let '(a1, a2) := a in let '(b1, b2) := b in key_lt a1 b1 \/ (a1 = b1 /\ a2 < b2).

Definition numbers_ok (p : myProc) : Prop := isnan (cpu p) = false /\ isnan (mem p) = false.

Lemma ld_lt_false a b : isnan a = false -> isnan b = false ->
  ld_lt a b = false -> ~ key_lt (ld_key a) (ld_key b).
Proof. intros Ha Hb H Hk. apply ld_lt_key in Hk; [congruence|done|done]. Qed.

(** The three outcomes of [mode_value]. *)
Lemma mode_value_key m a b : numbers_ok a -> numbers_ok b -> pid a <> pid b ->
  match mode_value m a b with
  | Some true => key4_lt (mode_key m a) (mode_key m b)
  | Some false => key4_lt (mode_key m b) (mode_key m a)
  | None => mode_key m a = mode_key m b
  end.
Proof.
  intros [Ca Ma] [Cb Mb] Hpid. unfold mode_value, mode_key, key4_lt, ld_gt. destruct m.
  - destruct (ld_lt (cpu a) (cpu b)) eqn:E1; [left; by apply ld_lt_key|].
    change (SFltb (cpu b) (cpu a)) with (ld_lt (cpu b) (cpu a)).
    destruct (ld_lt (cpu b) (cpu a)) eqn:E2; [left; by apply ld_lt_key|].
    apply ld_lt_false in E1, E2; try done.
    by destruct (key_lt_total (ld_key (cpu a)) (ld_key (cpu b))) as [?|[->|?]].
  - destruct (ld_lt (mem a) (mem b)) eqn:E1; [left; by apply ld_lt_key|].
    change (SFltb (mem b) (mem a)) with (ld_lt (mem b) (mem a)).
    destruct (ld_lt (mem b) (mem a)) eqn:E2; [left; by apply ld_lt_key|].
    apply ld_lt_false in E1, E2; try done.
    assert (ld_key (mem a) = ld_key (mem b)) as Hk.
    { by destruct (key_lt_total (ld_key (mem a)) (ld_key (mem b))) as [?|[?|?]]. }
    destruct (Z.ltb_spec (rss a) (rss b)); [by right|].
    destruct (Z.ltb_spec (rss b) (rss a)); [right; by split|]. f_equal; [done|lia].
  - destruct (Z.ltb_spec (pid b) (pid a)); right; (split; [done|lia]).
  - destruct (Z.ltb_spec (runtime a) (runtime b)); [right; split; [done|lia]|].
    destruct (Z.ltb_spec (runtime b) (runtime a)); [right; split; [done|lia]|]. f_equal. lia.
Qed.

Lemma key4_lt_trans a b c : key4_lt a b -> key4_lt b c -> key4_lt a c.
Proof.
  destruct a as [a1 a2], b as [b1 b2], c as [c1 c2]. unfold key4_lt.
  intros [H1|[-> H1]] [H2|[-> H2]]; [left; by eapply key_lt_trans|by left|by left|right; split; [done|lia]].
Qed.
Lemma key4_lt_irrefl a : ~ key4_lt a a.
Proof. destruct a as [a1 a2]. unfold key4_lt. intros [H|[_ H]]; [by eapply key_lt_irrefl|lia]. Qed.

(** [isGreater a b] for different processes: the keys decide, then the PIDs. *)
Definition after (m : sort_mode) (r : bool) (a b : myProc) : Prop :=
  (if r then key4_lt (mode_key m b) (mode_key m a) else key4_lt (mode_key m a) (mode_key m b)) \/
  (mode_key m a = mode_key m b /\ pid b < pid a).

Lemma isGreater_after m r a b : numbers_ok a -> numbers_ok b -> pid a <> pid b ->
  if isGreater m r a b then after m r a b else after m r b a.
Proof.
  intros Ha Hb Hp. pose proof (mode_value_key m a b Ha Hb Hp) as H. unfold isGreater, after.
  destruct (mode_value m a b) as [[]|].
  - destruct r; simpl; auto.
  - destruct r; simpl; auto.
  - destruct (Z.ltb_spec (pid b) (pid a)); right; (split; [done|lia]).
Qed.

Lemma after_asym m r a b : after m r a b -> after m r b a -> False.
Proof.
  unfold after. intros [H1|[E1 H1]] [H2|[E2 H2]].
  - destruct r; eapply key4_lt_irrefl, key4_lt_trans; eauto.
  - rewrite E2 in H1. destruct r; by eapply key4_lt_irrefl.
  - rewrite E1 in H2. destruct r; by eapply key4_lt_irrefl.
  - lia.
Qed.
Lemma after_trans m r a b c : after m r a b -> after m r b c -> after m r a c.
Proof.
  unfold after. intros [H1|[E1 H1]] [H2|[E2 H2]].
  - left. destruct r; eapply key4_lt_trans; eauto.
  - left. by rewrite <- E2.
  - left. by rewrite E1.
  - right. split; [congruence|lia].
Qed.

Lemma isGreater_asym m r a b : numbers_ok a -> numbers_ok b -> pid a <> pid b ->
  isGreater m r a b = true -> isGreater m r b a = false.
Proof.
  intros Ha Hb Hp H. pose proof (isGreater_after m r a b Ha Hb Hp) as H1. rewrite H in H1.
  pose proof (isGreater_after m r b a Hb Ha (not_eq_sym Hp)) as H2.
  destruct (isGreater m r b a); [exfalso; by eapply after_asym|done].
Qed.

Lemma isGreater_trans m r a b c : numbers_ok a -> numbers_ok b -> numbers_ok c ->
  pid a <> pid b -> pid b <> pid c -> pid a <> pid c ->
  isGreater m r a b = false -> isGreater m r b c = false -> isGreater m r a c = false.
Proof.
  intros Ha Hb Hc Hab Hbc Hac H1 H2.
  pose proof (isGreater_after m r a b Ha Hb Hab) as A1. rewrite H1 in A1.
  pose proof (isGreater_after m r b c Hb Hc Hbc) as A2. rewrite H2 in A2.
  pose proof (isGreater_after m r a c Ha Hc Hac) as A3.
  destruct (isGreater m r a c); [|done]. exfalso. eapply after_asym; [exact A3|].
  by eapply after_trans.
Qed.
