(* ===== verification/TopPrint.v ===== *)
(** * [mytop]: the screen (src/Assignment_2/mytop.c, PrintTOP)

    The five summary lines, the column layout and the table of processes, as the
    list of things the program asks ncurses to do.  [sorted] holds the entries
    the pointer array points to: the NUL written into a name is not read again
    before the list is rebuilt. *)
From Stdlib Require Import ZArith Lia Ascii String.
From S2P Require Import Prelude CLib OsEnv LongDouble ProcFs TopProc.
Import ProcFs TopProc.

Local Open Scope stdpp_scope.
Local Open Scope Z_scope.

Module TopPrint.

(** What the program does to the terminal and to other processes. *)
Inductive effect :=
  | Draw (y x : Z) (s : string)     (* mvprintw *)
  | Reverse (on : bool)             (* attron/attroff(A_REVERSE) *)
  | Erase | Refresh
  | SendTerm (pid : Z).             (* kill(pid, SIGTERM) *)

Definition LOADAVG : string := "/proc/loadavg".
Definition CPUSTAT : string := "/proc/stat".
Definition TICK_CNT : nat := 8.
Definition USER_PROCESS : Z := 7.
Definition TAB_WIDTH : Z := 8.
Definition COLUMN_CNT : Z := 12.
Definition COMMAND_IDX : Z := 11.
Definition TOP_ROW : Z := 0.
Definition TASK_ROW : Z := 1.
Definition CPU_ROW : Z := 2.
Definition MEM_ROW : Z := 3.
Definition CMD_ROW : Z := 5.
Definition COLUMN_ROW : Z := 6.

(** [sscanf] of [n] consecutive [%Lf]: the values stored before the first failure. *)
Fixpoint scan_Lfs (n : nat) (s : string) : list long_double :=
  match n with
  | O => []
  | S n => match scan_Lf s with
           | ScanVal v rest => v :: scan_Lfs n rest
           | _ => []
           end
  end.

(** ** Line 1: the time, the uptime, the users and the load *)
Definition up_text (uptime : Z) : string :=
  let t := gmtime uptime in
  if (uptime <? 60 * 60)%c then fmt_d 2 (tm_min t) +:+ " min"
  else if (uptime <? 60 * 60 * 24)%c then fmt_d 2 (tm_hour t) +:+ ":" +:+ fmt_0d 2 (tm_min t)
  else fmt_d 3 (tm_yday t) +:+ " days, " +:+ fmt_0d 2 (tm_hour t) +:+ ":" +:+ fmt_0d 2 (tm_min t).

Definition count_users (ut_types : list Z) : Z :=
  Z.of_nat (List.length (List.filter (fun t => t =? USER_PROCESS)%c ut_types)).

Definition top_line (o : os) (ut_types : list Z) (now uptime : Z) : res effect :=
  let tmNow := localtime_of o now in
  let nowStr := "top - " +:+ fmt_0d 2 (tm_hour tmNow) +:+ ":" +:+ fmt_0d 2 (tm_min tmNow) +:+ ":" +:+
                fmt_0d 2 (tm_sec tmNow) +:+ " " in
  fp ← of_option (Exit 1) (fopen_r o LOADAVG);
  match scan_Lfs 3 (read_line 1024 fp).1 with
  | [l0; l1; l2] =>
      Ok (Draw TOP_ROW 0 (nowStr +:+ "up " +:+ up_text uptime +:+ ", " +:+ show (count_users ut_types) +:+
            " users, load average: " +:+ fmt_Lf 4 2 l0 +:+ ", " +:+ fmt_Lf 4 2 l1 +:+ ", " +:+ fmt_Lf 4 2 l2))
  | _ => Err Uninitialised
  end.

(** ** Line 2: the tasks by state *)
Definition count_state (states : list string) (ps : list myProc) : Z :=
  Z.of_nat (List.length (List.filter (fun p => existsb (String.eqb (TopProc.stat p)) states) ps)).

Definition task_line (ps : list myProc) : effect :=
  Draw TASK_ROW 0
    ("Tasks: " +:+ fmt_d 4 (Z.of_nat (List.length ps)) +:+ " total, " +:+
     fmt_d 4 (count_state ["R"] ps) +:+ " running, " +:+
     fmt_d 4 (count_state ["D"; "S"; "I"] ps) +:+ " sleeping, " +:+
     fmt_d 4 (count_state ["T"; "t"] ps) +:+ " stopped, " +:+
     fmt_d 4 (count_state ["Z"] ps) +:+ " zombie").

(** ** Line 3: the CPU ticks, since boot or since the last refresh *)

(** The eight counters; those [sscanf] does not reach stay 0. *)
Definition read_ticks (o : os) : res (list long_double) :=
  fp ← of_option (Exit 1) (fopen_r o CPUSTAT);
  ptr ← skip_to_digit (read_line 1024 fp).1;
  let vs := scan_Lfs TICK_CNT ptr in
  Ok (vs ++ replicate (TICK_CNT - List.length vs) ld_zero).

Definition tick_percent (tickCnt : Z) (x : long_double) : long_double :=
  let r := ld_mul (ld_div x (ld_of_Z tickCnt)) (ld_of_Z 100) in
  if (isnan r || isinf r)%bool then ld_zero else r.

Definition tick_results (uptime beforeUptime hertz : Z) (ticks beforeTicks : list long_double)
  : list long_double :=
  if (beforeUptime =? 0)%c then map (tick_percent (u64 (uptime * hertz))) ticks
  else map (tick_percent (u64 (u64 (uptime - beforeUptime) * hertz)))
           (zip_with ld_sub ticks beforeTicks).

Definition cpu_line (results : list long_double) : effect :=
  let r i := fmt_Lf 4 1 (nth i results ld_zero) in
  Draw CPU_ROW 0
    ("%Cpu(s): " +:+ r 0%nat +:+ " us, " +:+ r 2%nat +:+ " sy, " +:+ r 1%nat +:+ " ni, " +:+
     r 3%nat +:+ " id, " +:+ r 4%nat +:+ " wa, " +:+ r 5%nat +:+ " hi, " +:+ r 6%nat +:+ " si, " +:+
     r 7%nat +:+ " st").

(** ** Lines 4 and 5: memory and swap *)

(** The numbers in the rows of /proc/meminfo, read on from row [i]. *)
Fixpoint read_numbers (i : nat) (rows : list nat) (fp : string) : res (list Z) :=
  match rows with
  | [] => Ok []
  | row :: rows =>
      let '(buf, fp) := read_rows 1024 (row - i) EmptyString fp in
      ptr ← skip_to_digit buf;
      rest ← read_numbers row rows fp;
      Ok (sscanf_lu ptr 0 :: rest)
  end.
(** Total, free, available, buffers, cached, swap total, swap free, reclaimable. *)
Definition meminfo_rows : list nat := [1; 2; 3; 4; 5; 15; 16; 24]%nat.

Definition unit_name (byteUnit : Z) : string :=
  if (byteUnit =? 2)%c then "MiB" else if (byteUnit =? 3)%c then "GiB"
  else if (byteUnit =? 4)%c then "TiB" else if (byteUnit =? 5)%c then "PiB"
  else if (byteUnit =? 6)%c then "EiB" else "".

Fixpoint over_1024 (n : nat) (x : long_double) : long_double :=
  match n with O => x | S n => over_1024 n (ld_div x (ld_of_Z 1024)) end.

Definition mem_lines (byteUnit : Z) (ns : list Z) : list effect :=
  match ns with
  | [memTotal; memFree; memAvailable; buffers; cached; swapTotal; swapFree; sReclaimable] =>
      let memUsed := u64 (memTotal - memFree - buffers - cached - sReclaimable) in
      let swapUsed := u64 (swapTotal - swapFree) in
      let cache := u64 (buffers + cached + sReclaimable) in
      if (byteUnit =? 1)%c then
        let f n := fmt_d 8 n in
        [Draw MEM_ROW 0 ("Kib Mem : " +:+ f memTotal +:+ " total,  " +:+ f memFree +:+ " free,  " +:+
                         f memUsed +:+ " used,  " +:+ f cache +:+ " buff/cache");
         Draw (MEM_ROW + 1) 0 ("Kib Swap: " +:+ f swapTotal +:+ " total,  " +:+ f swapFree +:+
                         " free,  " +:+ f swapUsed +:+ " used,  " +:+ f memAvailable +:+ " avail Mem")]
      else
        let f n := fmt_Lf 6 1 (over_1024 (Z.to_nat (byteUnit - 1)) (ld_of_Z n)) in
        let u := unit_name byteUnit in
        [Draw MEM_ROW 0 (u +:+ " Mem : " +:+ f memTotal +:+ " total, " +:+ f memFree +:+ " free, " +:+
                         f memUsed +:+ " used, " +:+ f cache +:+ " buff/cache");
         Draw (MEM_ROW + 1) 0 (u +:+ " Swap: " +:+ f swapTotal +:+ " total, " +:+ f swapFree +:+
                         " free, " +:+ f swapUsed +:+ " used, " +:+ f memAvailable +:+ " avail Mem")]
  | _ => []
  end.

(** ** The columns *)
Definition widest (title : string) (texts : list string) : Z :=
  foldl (fun w s => if (w <? strlen s)%c then strlen s else w) (strlen title) texts.
Definition cpu_text (p : myProc) : string := fmt_Lf 3 1 (cpu p).
Definition mem_text (p : myProc) : string := fmt_Lf 3 1 (mem p).

Definition column_titles : list string :=
  ["PID"; "USER"; "PR"; "NI"; "VIRT"; "RES"; "SHR"; "S"; "%CPU"; "%MEM"; "TIME+"; "COMMAND"].
(** The texts of a process, column by column. *)
Definition column_texts (p : myProc) : list string :=
  [show (pid p); user p; show (priority p); show (nice p); show (vsz p); show (rss p); show (shr p);
   TopProc.stat p; cpu_text p; mem_text p; TopProc.time p; command p].
Definition columnWidth (ps : list myProc) : list Z :=
  imap (fun i title => widest title (map (fun p => nth i (column_texts p) EmptyString) ps))
       column_titles.

(** Where the columns start, which are shown, and how long a name may be. *)
Record layout := mk_layout { startX : list Z; startCol : Z; endCol : Z; maxCmd : Z }.

(** [for (i = col + 1; i < COLUMN_CNT; i++)] with [n] columns left: the positions,
    and the column at which the loop broke. *)
Fixpoint place (COLS : Z) (widths : list Z) (n i : nat) (xs : list Z) : list Z * option nat :=
  match n with
  | O => (xs, None)
  | S n =>
      let x := nth (i - 1) widths 0 + 2 + nth (i - 1) xs 0 in
      let xs := <[i := x]> xs in
      if (COLS <=? x)%c then (xs, Some i) else place COLS widths n (S i) xs
  end.

Definition make_layout (COLS col : Z) (widths : list Z) : layout :=
  let xs := 2 :: replicate 11 0 in
  if (COLUMN_CNT - 1 <=? col)%c then mk_layout xs COMMAND_IDX COLUMN_CNT COLS
  else
    let c := Z.to_nat col in
    match place COLS widths (11 - c) (S c) xs with
    | (xs, Some i) => mk_layout xs col (Z.of_nat i) (-1)
    | (xs, None) => mk_layout xs col COLUMN_CNT (COLS - nth 11 xs 0)
    end.

Definition visible (ly : layout) (i : nat) : bool :=
  ((startCol ly <=? Z.of_nat i)%c && (Z.of_nat i <? endCol ly)%c)%bool.

(** USER, S and COMMAND are left aligned, TIME+ stands one to the right. *)
Definition offset (i : nat) (gap : Z) : Z :=
  match i with 1%nat | 7%nat => 0 | 10%nat => gap + 1 | _ => gap end.

(** The cell of column [i] with text [s] in line [y], when it is shown. *)
Definition draw_cell (ly : layout) (widths : list Z) (y : Z) (i : nat) (s : string) : list effect :=
  if visible ly i
  then [Draw y (nth i (startX ly) 0 + offset i (nth i widths 0 - strlen s)) s] else [].

(** The columns before COMMAND. *)
Definition draw_cells (ly : layout) (widths : list Z) (y : Z) (texts : list string) : list effect :=
  concat (imap (draw_cell ly widths y) (take 11 texts)).

Definition draw_header (COLS : Z) (ly : layout) (widths : list Z) : list effect :=
  [Reverse true] ++
  map (fun i => Draw COLUMN_ROW (Z.of_nat i) " ") (seq 0 (Z.to_nat COLS)) ++
  draw_cells ly widths COLUMN_ROW column_titles ++
  [Draw COLUMN_ROW (nth 11 (startX ly) 0) "COMMAND"; Reverse false].

(** The name from offset [off], after the NUL at [maxCmd]. *)
Definition cut_name (cmd : string) (maxCmd off : Z) : res string :=
  _ ← require ((0 <=? maxCmd)%c && (maxCmd <? CMD_LEN)%c)%bool OutOfBounds;
  _ ← require ((0 <=? off)%c && (off <? CMD_LEN)%c)%bool OutOfBounds;
  Ok (if (off <=? maxCmd)%c then sdrop (Z.to_nat off) (stake (Z.to_nat maxCmd) cmd)
      else sdrop (Z.to_nat off) cmd).

(** A shown percentage passes through [char token[TOKEN_LEN]]. *)
Definition token_ok (shown : bool) (s : string) : res unit :=
  require (negb shown || (strlen s <? TOKEN_LEN)%c) BufferOverflow.

Definition draw_row (col : Z) (ly : layout) (widths : list Z) (y : Z) (p : myProc)
  : res (list effect) :=
  _ ← token_ok (visible ly 8) (cpu_text p);
  _ ← token_ok (visible ly 9) (mem_text p);
  let cells := draw_cells ly widths y (column_texts p) in
  let tap := col - COMMAND_IDX in
  if ((col =? COMMAND_IDX)%c && (strlen (command p) <? u64 (tap * TAB_WIDTH))%c)%bool then Ok cells
  else
    let tap := if (col <? COLUMN_CNT - 1)%c then 0 else tap in
    name ← cut_name (cmd p) (maxCmd ly) (tap * TAB_WIDTH);
    Ok (cells ++ [Draw y (nth 11 (startX ly) 0) name]).

(** [for (i = row; i < procCnt; i++)] *)
Fixpoint draw_rows (col : Z) (ly : layout) (widths : list Z) (y : Z) (ps : list myProc)
  : res (list effect) :=
  match ps with
  | [] => Ok []
  | p :: ps =>
      a ← draw_row col ly widths y p;
      b ← draw_rows col ly widths (y + 1) ps;
      Ok (a ++ b)
  end.

(** ** PrintTOP: the drawing, and the new [uptime] and [beforeTicks] *)
Definition PrintTOP (o : os) (ut_types : list Z) (now hertz beforeUptime : Z)
    (beforeTicks : list long_double) (byteUnit row col : Z) (procList sorted : list myProc)
  : res (list effect * Z * list long_double) :=
  uptime ← GetUpTime o;
  l1 ← top_line o ut_types now uptime;
  ticks ← read_ticks o;
  let results := tick_results uptime beforeUptime hertz ticks beforeTicks in
  fp ← of_option (Exit 1) (fopen_r o MEMINFO);
  ns ← read_numbers 0 meminfo_rows fp;
  let widths := columnWidth procList in
  let ly := make_layout (cols o) col widths in
  rows ← draw_rows col ly widths (COLUMN_ROW + 1) (drop (Z.to_nat row) sorted);
  Ok ([l1; task_line procList; cpu_line results] ++ mem_lines byteUnit ns ++
      draw_header (cols o) ly widths ++ rows, uptime, ticks).

End TopPrint.
