(* ===== verification/Top.v ===== *)
(** * [mytop]: the keys, the refresh and the main loop (src/Assignment_2/mytop.c)

    The globals are a record: what a refresh keeps, what the options set, and
    what the keys set.  One turn of the [do ... while] takes what the machine
    shows during it ([turn]): the snapshot, the utmp entries, what [mvscanw]
    stores and what [getch] returns at its end. *)
From Stdlib Require Import ZArith Lia Ascii String.
From S2P Require Import Prelude CLib OsEnv LongDouble ProcFs TopProc TopPrint.
Import ProcFs TopProc TopPrint.

Local Open Scope stdpp_scope.
Local Open Scope Z_scope.

Module Top.

Definition KIB : Z := 1.
Definition MIB : Z := 2.

(** The codes of <curses.h> and the characters the program compares [ch] with. *)
Definition KEY_DOWN : Z := 258.
Definition KEY_UP : Z := 259.
Definition KEY_LEFT : Z := 260.
Definition KEY_RIGHT : Z := 261.
Definition ENTER : Z := 10.
Definition SPACE : Z := 32.
Definition K : Z := 107.
Definition SHIFT_R : Z := 82.
Definition SHIFT_P : Z := 80.
Definition SHIFT_M : Z := 77.
Definition SHIFT_N : Z := 78.
Definition SHIFT_T : Z := 84.
Definition SHIFT_E : Z := 69.
Definition QUIT : Z := 113.

(** What the keys change. *)
Record ui := mk_ui {
  row : Z; col : Z; killMode : bool; reverseMode : bool;
  sortMode : sort_mode; byteUnit : Z; print : bool
}.
(** What the command line changes. *)
Record options := mk_options {
  dOption : bool; nOption : bool; updateTime : Z; updatePeriod : Z
}.
(** What a refresh keeps for the next one. *)
Record machine := mk_machine {
  cpuTimeTable : table; procList : list myProc; sorted : list myProc;
  uptime_ : Z; beforeUptime : Z; beforeTicks : list long_double;
  m_total : Z; m_hertz : Z; m_now : Z; m_before : Z
}.
Record state := mk_state {
  ch : Z; keys : ui; opts : options; mach : machine; myTTY : string
}.

(** [while (getutent())], [mvscanw(.., "%d", &input)] ([None]: nothing is
    stored) and [getch()]. *)
Record turn := mk_turn { t_os : os; t_utmp : list Z; t_scan : option Z; t_key : Z }.

(** ** ClearSCR: a blank at every position (it is never called) *)
Definition ClearSCR (LINES COLS : Z) : list ascii :=
  replicate (Z.to_nat LINES * Z.to_nat COLS) SP.

(** ** The switch over [ch] *)
Definition on_key (ch procCnt : Z) (u : ui) : ui :=
  let '(mk_ui row col killMode reverseMode sortMode byteUnit print) := u in
  if (ch =? KEY_LEFT)%c then
    let col := col - 1 in
    let col := if (col <? 0)%c then 0 else col in
    mk_ui row col killMode reverseMode sortMode byteUnit true
  else if (ch =? KEY_RIGHT)%c then
    mk_ui row (col + 1) killMode reverseMode sortMode byteUnit true
  else if (ch =? KEY_UP)%c then
    let row := row - 1 in
    let row := if (row <? 0)%c then 0 else row in
    mk_ui row col killMode reverseMode sortMode byteUnit true
  else if (ch =? KEY_DOWN)%c then
    let row := row + 1 in
    let row := if (procCnt <? row)%c then procCnt else row in
    mk_ui row col killMode reverseMode sortMode byteUnit true
  else if (ch =? ENTER)%c then mk_ui row col killMode reverseMode sortMode byteUnit true
  else if (ch =? SPACE)%c then mk_ui row col killMode reverseMode sortMode byteUnit true
  else if (ch =? SHIFT_R)%c then mk_ui row col killMode (negb reverseMode) sortMode byteUnit true
  else if (ch =? SHIFT_P)%c then mk_ui row col killMode reverseMode CPU_MODE byteUnit true
  else if (ch =? SHIFT_M)%c then mk_ui row col killMode reverseMode MEM_MODE byteUnit true
  else if (ch =? SHIFT_N)%c then mk_ui row col killMode reverseMode PID_MODE byteUnit true
  else if (ch =? SHIFT_T)%c then mk_ui row col killMode reverseMode TIME_MODE byteUnit true
  else if (ch =? SHIFT_E)%c then
    let byteUnit := byteUnit + 1 in
    let byteUnit := if (6 <? byteUnit)%c then KIB else byteUnit in
    mk_ui row col killMode reverseMode sortMode byteUnit true
  else if (ch =? K)%c then mk_ui row col true reverseMode sortMode byteUnit true
  else u.

(** ** KillProcess *)
Definition KillProcess (killMode : bool) (input : option Z) : res (list effect) :=
  if killMode then
    input ← of_option Uninitialised input;
    Ok [Draw CMD_ROW 0 "PID to signal/kill : "; SendTerm input]
  else Ok [].

(** ** Reading, sorting and drawing *)

(** SearchProcess, SortProc and PrintTOP on the globals. *)
Definition show_processes (o : os) (ut_types : list Z) (u : ui) (m : machine)
  : res (machine * list effect) :=
  '(up, t, ps) ← SearchProcess o (mk_clock (uptime_ m) (m_total m) (m_hertz m) (m_now m) (m_before m))
                   (cpuTimeTable m) (procList m);
  let srt := SortProc (sortMode u) (reverseMode u) ps in
  '(eff, up, ticks) ← PrintTOP o ut_types (m_now m) (m_hertz m) (beforeUptime m) (beforeTicks m)
                        (byteUnit u) (row u) (col u) ps srt;
  Ok (mk_machine t ps srt up up ticks (m_total m) (m_hertz m) (m_now m) (m_before m), eff).

Definition set_before (m : machine) (b : Z) : machine :=
  mk_machine (cpuTimeTable m) (procList m) (sorted m) (uptime_ m) (beforeUptime m) (beforeTicks m)
    (m_total m) (m_hertz m) (m_now m) b.
Definition set_now (m : machine) (n : Z) : machine :=
  mk_machine (cpuTimeTable m) (procList m) (sorted m) (uptime_ m) (beforeUptime m) (beforeTicks m)
    (m_total m) (m_hertz m) n (m_before m).
Definition erase_list (m : machine) : machine :=
  mk_machine (cpuTimeTable m) (EraseProcessList (procList m)) (sorted m) (uptime_ m)
    (beforeUptime m) (beforeTicks m) (m_total m) (m_hertz m) (m_now m) (m_before m).
Definition after_refresh (u : ui) : ui :=
  mk_ui (row u) (col u) false (reverseMode u) (sortMode u) (byteUnit u) false.

(** The body of the refresh up to [print = false]. *)
Definition refresh_screen (t : turn) (u : ui) (m : machine) : res (ui * machine * list effect) :=
  k ← KillProcess (killMode u) (t_scan t);
  '(m', eff) ← show_processes (t_os t) (t_utmp t) u (erase_list m);
  Ok (after_refresh u, set_before m' (m_now m'), k ++ [Erase] ++ eff ++ [Refresh]).

(** [if (nOption) { updatePeriod--; if (updatePeriod == 0) break; }] *)
Definition count_refresh (op : options) : options * bool :=
  if nOption op then
    let n := u64 (updatePeriod op - 1) in
    (mk_options (dOption op) (nOption op) (updateTime op) n, (n =? 0)%c)
  else (op, false).

Definition set_updateTime (op : options) (v : Z) : options :=
  mk_options (dOption op) (nOption op) v (updatePeriod op).

(** ** One turn of the loop, up to [getch] *)
Record outcome := mk_outcome { after_turn : state; drawn : option (list effect); stop : bool }.

Definition turn_body (t : turn) (s : state) : res outcome :=
  let m := set_now (mach s) (now (t_os t)) in
  let u := on_key (ch s) (Z.of_nat (List.length (procList m))) (keys s) in
  let op := if dOption (opts s) then opts s else set_updateTime (opts s) 3 in
  if (print u || (updateTime op <=? u64 (m_now m - m_before m))%c)%bool then
    let op := if ((ch s =? ENTER)%c || (ch s =? SPACE)%c)%bool then set_updateTime op 0 else op in
    '(u, m, eff) ← refresh_screen t u m;
    let '(op, stop) := count_refresh op in
    Ok (mk_outcome (mk_state (ch s) u op m (myTTY s)) (Some eff) stop)
  else Ok (mk_outcome (mk_state (ch s) u op m (myTTY s)) None false).

Definition set_ch (s : state) (c : Z) : state := mk_state c (keys s) (opts s) (mach s) (myTTY s).

(** ** The loop *)
Inductive ending := Counted | Quit | Running.
Record session := mk_session { last : state; screens : list (list effect); end_ : ending }.

Definition add_screen (e : option (list effect)) (r : session) : session :=
  match e with
  | Some e => mk_session (last r) (e :: screens r) (end_ r)
  | None => r
  end.

(** [Running]: every turn given was taken and the program goes on. *)
Fixpoint loop (turns : list turn) (s : state) : res session :=
  match turns with
  | [] => Ok (mk_session s [] Running)
  | t :: turns =>
      r ← turn_body t s;
      rest ← (if stop r then Ok (mk_session (after_turn r) [] Counted)
              else
                let s := set_ch (after_turn r) (t_key t) in
                if (t_key t =? QUIT)%c then Ok (mk_session s [] Quit) else loop turns s);
      Ok (add_screen (drawn r) rest)
  end.

(** ** main *)

(** The loop over [argv[1]]. *)
Fixpoint parse_options (arg value : string) (op : options) : options :=
  match arg with
  | EmptyString => op
  | String c arg =>
      if Ascii.eqb c "d" then mk_options true (nOption op) (u64 (atoi value)) (updatePeriod op)
      else if Ascii.eqb c "n" then mk_options (dOption op) true (updateTime op) (u64 (atoi value))
      else parse_options arg value op
  end.
(** [if (argc > 2)] *)
Definition read_args (argv : list string) : options :=
  let op := mk_options false false 0 0 in
  match argv with
  | _ :: arg :: value :: _ => parse_options arg value op
  | _ => op
  end.

Definition initial_ui : ui := mk_ui 0 0 false false CPU_MODE MIB false.

(** The terminal's name up to the first character that is not a digit. *)
Definition own_tty (tty : string) : string :=
  stake 4 tty +:+ (span isdigit (sdrop 4 tty)).1.

(** Up to the loop: the first screen.  [before] is set between the search, which
    reads it, and the drawing, which does not. *)
Definition start_top (o : os) (ut_types : list Z) (argv : list string)
  : res (state * list effect) :=
  total ← GetTotalMemory o;
  let hertz := u32 (clk_tck o) in
  _ ← require (strlen ("/" +:+ show (my_pid o)) <? FNAME_LEN)%c BufferOverflow;
  p ← strcpy PATH_SIZE PROC;
  myPath ← strcat PATH_SIZE p ("/" +:+ show (my_pid o));
  tty ← GetTTY o myPath;
  let m := mk_machine ∅ [] [] 0 0 (replicate TICK_CNT ld_zero) total hertz (now o) 0 in
  '(m, eff) ← show_processes o ut_types initial_ui m;
  Ok (mk_state 0 initial_ui (read_args argv) (set_before m (now o)) (own_tty tty),
      eff ++ [Refresh]).

Definition main (o : os) (ut_types : list Z) (argv : list string) (turns : list turn)
  : res session :=
  '(s, eff) ← start_top o ut_types argv;
  r ← loop turns s;
  Ok (add_screen (Some eff) r).

End Top.
