(* ===== verification/TopTheorems.v ===== *)
(** * [mytop]: theorems (src/Assignment_2/mytop.c)

    The entries can be compared, the sort sorts them, the loop keeps its state in
    range and counts its refreshes, the layout, and three ways to go wrong. *)
From Stdlib Require Import ZArith Lia Ascii String Sorted SpecFloat.
From S2P Require Import Prelude CLib OsEnv LongDouble ProcFs TopProc TopSort TopPrint Top.
Import ProcFs TopProc TopPrint Top.

Local Open Scope stdpp_scope.
Local Open Scope Z_scope.

(** ** What the search delivers can be compared *)
Lemma percent_not_nan x y : percent x = Ok y -> isnan y = false.
Proof.
  unfold percent. destruct (_ || _)%bool; [|apply RoundDouble_not_nan]. intros [= <-]. done.
Qed.

Lemma cpu_share_not_nan g t pid tt st c t' :
  cpu_share g t pid tt st = Ok (c, t') -> isnan c = false.
Proof.
  unfold cpu_share. intros H. binds H. simplify_eq. eauto using percent_not_nan.
Qed.
Lemma status_memory_not_nan total fp m : status_memory total fp = Ok m -> isnan (m_mem m) = false.
Proof.
  unfold status_memory. destruct (read_rows 1024 STATUS_VSZ_ROW _ _) as [buf fp1].
  destruct (negb _); [by intros [= <-]|]. intros H.
  repeat match type of H with context [read_rows ?a ?b ?c ?d] => destruct (read_rows a b c d) end.
  destruct (read_line _ _). binds H. simplify_eq. eauto using percent_not_nan.
Qed.

Lemma make_proc_numbers o g t path t' p :
  make_proc o g t path = Ok (t', Some p) -> numbers_ok p.
Proof.
  unfold make_proc. intros H.
  repeat (binds H; match type of H with
          | (if ?b then _ else _) = _ => destruct b; [discriminate H|]
          | (match ?x with Some _ => _ | None => _ end) = _ => destruct x; [|discriminate H]
          end).
  binds H. simplify_eq. split; eauto using cpu_share_not_nan, status_memory_not_nan.
Qed.

Lemma search_loop_numbers o g names : forall st t ps,
  Forall numbers_ok st.2 -> search_loop o g names st = Ok (t, ps) -> Forall numbers_ok ps.
Proof.
  induction names as [|d names IH]; intros [t0 ps0] t ps Hst H; cbn [search_loop] in H.
  - by simplify_eq.
  - binds H. destruct (st_kind _); eauto. destruct (negb _); [eauto|]. binds H.
    match goal with E : AddProcessList _ _ _ _ = Ok ?s |- _ =>
      assert (Forall numbers_ok s.2) as Hs; [|by eauto]; unfold AddProcessList in E; binds E;
      rename E into EA end.
    destruct o0 as [p|]; [|by simplify_eq]. binds EA. unfold push in *.
    match goal with E : mbind _ (require _ _) = Ok _ |- _ => binds E end. simplify_eq. simpl in *.
    apply Forall_app_2; [done|]. eauto using make_proc_numbers.
Qed.

Lemma SearchProcess_numbers o g t up t' ps :
  SearchProcess o g t [] = Ok (up, t', ps) -> Forall numbers_ok ps.
Proof.
  unfold SearchProcess. intros H. binds H. simplify_eq. by eapply search_loop_numbers; [|done].
Qed.

(** ** The sort *)

(** [a] is listed above [b]. *)
Definition above (m : sort_mode) (r : bool) (a b : myProc) : Prop := after m r b a.

Lemma SortProc_perm m r ps : SortProc m r ps ≡ₚ ps.
Proof. apply sort_loop_perm. Qed.

Lemma NoDup_pid_neq (ps : list myProc) a b :
  NoDup (map pid ps) -> a ∈ ps -> b ∈ ps -> a <> b -> pid a <> pid b.
Proof.
  intros Hnd Ha Hb Hab. revert Hnd Ha Hb. induction ps as [|p ps IH]; simpl; [set_solver|].
  intros [Hp Hnd]%NoDup_cons Ha Hb.
  assert (forall q, q ∈ ps -> pid p <> pid q) as Hne.
  { intros q Hq E. apply Hp. rewrite E. by apply list_elem_of_fmap_2. }
  apply elem_of_cons in Ha as [->|Ha]; apply elem_of_cons in Hb as [->|Hb]; eauto.
  intros E. by apply (Hne a).
Qed.

Lemma sorted_above m r (ps srt : list myProc) :
  Forall numbers_ok ps -> NoDup (map pid ps) -> srt ≡ₚ ps ->
  StronglySorted (before_ok (isGreater m r)) srt -> StronglySorted (above m r) srt.
Proof.
  intros Hok Hnd Hp Hs.
  assert (Forall numbers_ok srt) as Hok' by (by rewrite Hp).
  assert (NoDup (map pid srt)) as Hnd' by (by rewrite Hp).
  clear Hok Hnd Hp. induction Hs as [|a l Hs IH Hall]; constructor.
  - apply IH; [by inversion Hok'|by inversion Hnd'].
  - apply Forall_forall. intros b Hb. rewrite Forall_forall in Hall. specialize (Hall b Hb).
    rewrite Forall_forall in Hok'. simpl in Hnd'. apply NoDup_cons in Hnd' as [Hin _].
    pose proof (isGreater_after m r a b) as H. rewrite Hall in H. apply H.
    + apply Hok'. set_solver.
    + apply Hok'. set_solver.
    + intros E. apply Hin. rewrite E. by apply list_elem_of_fmap_2.
Qed.

Lemma SortProc_sorted m r ps : Forall numbers_ok ps -> NoDup (map pid ps) ->
  StronglySorted (above m r) (SortProc m r ps).
Proof.
  intros Hok Hnd. apply (sorted_above m r ps); [done|done|apply SortProc_perm|].
  assert (NoDup ps) as Hnd' by (by eapply (NoDup_fmap_1 pid)).
  rewrite Forall_forall in Hok. pose proof (NoDup_pid_neq ps) as Hneq.
  destruct ps as [|p ps]; [constructor|]. unfold SortProc.
  replace (List.length (p :: ps) - 1)%nat with (List.length ps) by (simpl; lia).
  rewrite <- (app_nil_r (p :: ps)).
  apply (sort_loop_sorted (isGreater m r) (p :: ps)); rewrite ?app_nil_r; try done.
  - intros a b Ha Hb Hab. apply isGreater_asym; auto.
  - intros a b c Ha Hb Hc Hab Hbc Hac. apply isGreater_trans; auto.
  - constructor.
  - intros x y _ Hy. by apply not_elem_of_nil in Hy.
Qed.

Lemma show_processes_sorted o ut u m m' eff : procList m = [] ->
  show_processes o ut u m = Ok (m', eff) ->
  Forall numbers_ok (procList m') /\
  sorted m' = SortProc (sortMode u) (reverseMode u) (procList m').
Proof.
  intros Hm. unfold show_processes. rewrite Hm. intros H. binds H. simplify_eq. simpl.
  split; [by eapply SearchProcess_numbers|done].
Qed.

(** ** The loop keeps the globals in range *)
Definition ui_ok (u : ui) : Prop := 0 <= row u /\ 0 <= col u /\ 1 <= byteUnit u <= 6.
Definition state_ok (s : state) : Prop := ui_ok (keys s) /\ sorted (mach s) ≡ₚ procList (mach s).

Lemma on_key_ok c n u : 0 <= n -> ui_ok u -> ui_ok (on_key c n u).
Proof.
  intros Hn. destruct u. unfold ui_ok, on_key, KIB. simpl. intros (H1 & H2 & H3).
  repeat case_bool; simpl; bool_to_prop; lia.
Qed.

(** What one turn does, by whether it refreshed. *)
Lemma turn_body_cases t s r : turn_body t s = Ok r ->
  (drawn r = None /\ stop r = false /\ procList (mach (after_turn r)) = procList (mach s) /\
   sorted (mach (after_turn r)) = sorted (mach s) /\ ch (after_turn r) = ch s /\
   keys (after_turn r) = on_key (ch s) (Z.of_nat (List.length (procList (mach s)))) (keys s) /\
   nOption (opts (after_turn r)) = nOption (opts s) /\
   updatePeriod (opts (after_turn r)) = updatePeriod (opts s) /\
   print (on_key (ch s) (Z.of_nat (List.length (procList (mach s)))) (keys s)) = false)
  \/
  (exists eff, drawn r = Some eff /\ ch (after_turn r) = ch s /\
   keys (after_turn r) =
     after_refresh (on_key (ch s) (Z.of_nat (List.length (procList (mach s)))) (keys s)) /\
   sorted (mach (after_turn r)) ≡ₚ procList (mach (after_turn r)) /\
   nOption (opts (after_turn r)) = nOption (opts s) /\
   (nOption (opts s) = true ->
    updatePeriod (opts (after_turn r)) = u64 (updatePeriod (opts s) - 1) /\
    stop r = (u64 (updatePeriod (opts s) - 1) =? 0)%c) /\
   (nOption (opts s) = false -> stop r = false)).
Proof.
  unfold turn_body. cbn [procList set_now]. set (u := on_key _ _ _).
  set (op := if dOption (opts s) then _ else _).
  assert (nOption op = nOption (opts s) /\ updatePeriod op = updatePeriod (opts s)) as [Hn Hp].
  { unfold op. by destruct (dOption _). }
  clearbody op.
  destruct (print u || _)%bool eqn:Eb; intros H.
  - right. apply bind_ok in H as ([[u' m'] eff] & ER & H).
    set (op' := if ((_ =? ENTER)%c || _)%bool then _ else op) in H.
    assert (nOption op' = nOption (opts s) /\ updatePeriod op' = updatePeriod (opts s)) as [Hn' Hp'].
    { unfold op'. case_bool; (split; [exact Hn|exact Hp]). }
    unfold count_refresh in H. rewrite Hn', Hp' in H.
    unfold refresh_screen in ER. binds ER. simplify_eq.
    match goal with E : show_processes _ _ _ _ = _ |- _ =>
      apply show_processes_sorted in E as [_ Hs]; [|done] end.
    destruct (nOption (opts s)) eqn:En; simplify_eq; simpl; rewrite ?Hs, ?Hn'; eexists;
      (split_and!; try done; apply SortProc_perm).
  - left. simplify_eq. simpl. rewrite Hn, Hp. apply orb_false_elim in Eb as [Eb _]. done.
Qed.

Lemma turn_body_ok t s r : state_ok s -> turn_body t s = Ok r -> state_ok (after_turn r).
Proof.
  intros [Hu Hs] H. assert (0 <= Z.of_nat (List.length (procList (mach s)))) as Hl by lia.
  pose proof (on_key_ok (ch s) _ _ Hl Hu) as Hk. unfold state_ok.
  apply turn_body_cases in H as [(_ & _ & -> & -> & _ & -> & _)|(eff & _ & _ & -> & Hp & _)]; done.
Qed.

(** One turn of [loop]: the turn itself, then the rest. *)
Lemma loop_cons t turns s r : loop (t :: turns) s = Ok r ->
  exists a rest, turn_body t s = Ok a /\ r = add_screen (drawn a) rest /\
    (if stop a then rest = mk_session (after_turn a) [] Counted
     else if (t_key t =? QUIT)%c then rest = mk_session (set_ch (after_turn a) (t_key t)) [] Quit
     else loop turns (set_ch (after_turn a) (t_key t)) = Ok rest).
Proof.
  cbn [loop]. intros H. apply bind_ok in H as (a & Ha & H). apply bind_ok in H as (rest & Hr & H).
  simplify_eq. exists a, rest. split_and!; [done..|].
  destruct (stop a); [congruence|]. destruct (_ =? QUIT)%c; [congruence|done].
Qed.

Lemma loop_ok turns : forall s r, state_ok s -> loop turns s = Ok r -> state_ok (last r).
Proof.
  induction turns as [|t turns IH]; intros s r Hs H.
  - cbn [loop] in H. by simplify_eq.
  - apply loop_cons in H as (a & rest & Ha & -> & H). apply turn_body_ok in Ha; [|done].
    assert (last (add_screen (drawn a) rest) = last rest) as -> by (by destruct (drawn a)).
    destruct (stop a); [by subst|]. destruct (_ =? QUIT)%c; [by subst|].
    by eapply IH in H.
Qed.

Lemma start_top_ok o ut argv s eff : start_top o ut argv = Ok (s, eff) ->
  state_ok s /\ opts s = read_args argv /\ ch s = 0.
Proof.
  unfold start_top. intros H. binds H. simplify_eq. simpl. split; [|done].
  match goal with E : show_processes _ _ _ _ = _ |- _ =>
    apply show_processes_sorted in E as [_ Hs]; [|done] end.
  unfold state_ok, ui_ok. simpl. rewrite Hs. split; [unfold MIB; lia|apply SortProc_perm].
Qed.

(** ** Counting the refreshes of -n *)
Lemma u64_pred k : 1 <= k < 2 ^ 64 -> u64 (k - 1) = k - 1.
Proof. intros H. unfold u64. apply Z.mod_small. lia. Qed.

Lemma loop_counts turns : forall s r k, nOption (opts s) = true ->
  updatePeriod (opts s) = Z.of_nat k -> 1 <= Z.of_nat k < 2 ^ 64 -> loop turns s = Ok r ->
  (List.length (screens r) <= k)%nat /\ (end_ r = Counted <-> List.length (screens r) = k).
Proof.
  induction turns as [|t turns IH]; intros s r k Hn Hp Hk H.
  - cbn [loop] in H. simplify_eq. simpl. split; [lia|]. split; [done|lia].
  - apply loop_cons in H as (a & rest & Ha & -> & H).
    apply turn_body_cases in Ha as [(Hd & Hst & _ & _ & _ & _ & Hn' & Hp' & _)
                                   |(eff & Hd & _ & _ & _ & Hn' & Hst & _)]; rewrite Hd.
    + rewrite Hst in H. simpl. destruct (_ =? QUIT)%c.
      * subst rest. simpl. split; [lia|]. split; [done|lia].
      * eapply IH in H; [exact H|cbn; congruence|cbn; congruence|done].
    + destruct (Hst Hn) as [Hp' Hs]. rewrite Hs in H. rewrite Hp, u64_pred in * by done.
      destruct (Z.eqb_spec (Z.of_nat k - 1) 0) as [E|E].
      * subst rest. simpl. split; [lia|]. split; [lia|done].
      * destruct (_ =? QUIT)%c; [subst rest; simpl; split; [lia|split; [done|lia]]|].
        destruct k as [|k]; [lia|].
        eapply (IH _ _ k) in H as [H1 H2]; [|cbn; congruence|cbn; lia|lia].
        simpl. split; [lia|]. rewrite H2. lia.
Qed.

(** Every turn whose key asks for a refresh draws. *)
Lemma on_key_space n u : print (on_key SPACE n u) = true.
Proof. by destruct u. Qed.

Lemma loop_stops turns : forall s r k, nOption (opts s) = true ->
  updatePeriod (opts s) = Z.of_nat k -> 1 <= Z.of_nat k < 2 ^ 64 -> ch s = SPACE ->
  Forall (fun t => t_key t = SPACE) turns -> (k <= List.length turns)%nat ->
  loop turns s = Ok r -> end_ r = Counted.
Proof.
  induction turns as [|t turns IH]; intros s r k Hn Hp Hk Hc Hall Hlen H; [simpl in Hlen; lia|].
  apply Forall_cons in Hall as [Ht Hall]. simpl in Hlen.
  apply loop_cons in H as (a & rest & Ha & -> & H).
  assert (end_ (add_screen (drawn a) rest) = end_ rest) as -> by (by destruct (drawn a)).
  apply turn_body_cases in Ha as [(_ & _ & _ & _ & _ & _ & _ & _ & Hpr)
                                 |(eff & Hd & _ & _ & _ & Hn' & Hst & _)].
  - rewrite Hc, on_key_space in Hpr. done.
  - destruct (Hst Hn) as [Hp' Hs]. rewrite Hs in H. rewrite Hp, u64_pred in * by done.
    destruct (Z.eqb_spec (Z.of_nat k - 1) 0) as [E|E]; [by subst rest|].
    rewrite Ht in H. cbn [Z.eqb QUIT SPACE Pos.eqb] in H. change (SPACE =? QUIT)%c with false in H.
    destruct k as [|k]; [lia|]. eapply (IH _ _ k); [| | | | | |exact H]; try done; cbn; try lia; congruence.
Qed.

(** One more turn to reach the first SPACE. *)
Lemma loop_stops_first turns s r k : nOption (opts s) = true ->
  updatePeriod (opts s) = Z.of_nat k -> 1 <= Z.of_nat k < 2 ^ 64 ->
  Forall (fun t => t_key t = SPACE) turns -> (k < List.length turns)%nat ->
  loop turns s = Ok r -> end_ r = Counted.
Proof.
  destruct turns as [|t turns]; intros Hn Hp Hk Hall Hlen H; [simpl in Hlen; lia|].
  apply Forall_cons in Hall as [Ht Hall]. simpl in Hlen.
  apply loop_cons in H as (a & rest & Ha & -> & H).
  assert (end_ (add_screen (drawn a) rest) = end_ rest) as -> by (by destruct (drawn a)).
  rewrite Ht in H. change (SPACE =? QUIT)%c with false in H.
  apply turn_body_cases in Ha as [(_ & Hst & _ & _ & _ & _ & Hn' & Hp' & _)
                                 |(eff & Hd & _ & _ & _ & Hn' & Hst & _)].
  - rewrite Hst in H. eapply (loop_stops turns _ rest k); [| | | | | |exact H]; try done; cbn; try lia; congruence.
  - destruct (Hst Hn) as [Hp' Hs]. rewrite Hs in H. rewrite Hp, u64_pred in * by done.
    destruct (Z.eqb_spec (Z.of_nat k - 1) 0) as [E|E]; [by subst rest|].
    destruct k as [|k]; [lia|].
    eapply (loop_stops turns _ rest k); [| | | | | |exact H]; try done; cbn; try lia; congruence.
Qed.

(** ** A small machine *)
Definition demo_files (p : string) : option string :=
  let named q := String.eqb p q in
  if named "/proc/uptime" then Some ("50000.25 1.00" +:+ newline)
  else if named "/proc/loadavg" then Some ("0.10 0.20 0.30 1/2 3" +:+ newline)
  else if named "/proc/stat" then Some ("cpu  100 2 30 4000 5 6 7 8 0 0" +:+ newline)
  else if named "/proc/meminfo" then
    Some (String.concat "" (replicate 24 ("Row: 1000 kB" +:+ newline)))
  else if named "/proc/7/stat" then
    Some "7 (init) S 1 7 7 0 -1 4194304 1 2 3 4 150 25 0 0 20 0 1 0 1000 999"
  else if named "/proc/42/stat" then
    Some "42 (bash) R 7 42 42 0 -1 4194304 1 2 3 4 90000 250 0 0 20 0 1 0 1000 999"
  else if (named "/proc/7/status" || named "/proc/42/status")%bool then Some ""
  else if (named "/proc/7/cmdline" || named "/proc/42/cmdline")%bool then Some ""
  else None.
Definition demo_os (time width : Z) : os :=
  mk_os demo_files (fun _ => Some ["7"; "42"]) (fun _ => Some (mk_fstat IsDir 1000 0))
    (fun _ => true) (fun _ => true) (fun _ => Some "/dev/pts/0") (fun _ => Some "kim") gmtime
    time 100 42 1000 width.
Definition demo_turn (time key : Z) : turn := mk_turn (demo_os time 80) [7] None key.

(** ** The layout *)

(** [place] fills the positions from left to right. *)
Lemma place_spec COLS widths n : forall i xs ys b,
  List.length xs = 12%nat -> (1 <= i)%nat -> (i + n = 12)%nat ->
  place COLS widths n i xs = (ys, b) ->
  List.length ys = 12%nat /\
  (forall j, (j < i)%nat -> nth j ys 0 = nth j xs 0) /\
  (forall j, (i <= j)%nat -> (j <= match b with Some k => k | None => 11 end)%nat ->
     nth j ys 0 = nth (j - 1) ys 0 + nth (j - 1) widths 0 + 2) /\
  match b with
  | Some k => (i <= k <= 11)%nat /\ COLS <= nth k ys 0
  | None => forall j, (i <= j <= 11)%nat -> nth j ys 0 < COLS
  end.
Proof.
  induction n as [|n IH]; intros i xs ys b Hl Hi Hn H; cbn [place] in H.
  - simplify_eq. split_and!; [done|done|lia|lia].
  - remember (nth (i - 1) widths 0 + 2 + nth (i - 1) xs 0) as x eqn:Ex.
    remember (<[i:=x]> xs) as zs eqn:Ez.
    assert (List.length zs = 12%nat) as Hlz by (by rewrite Ez, length_insert).
    assert (nth i zs 0 = x) as Hx.
    { rewrite nth_lookup, Ez, list_lookup_insert_eq by lia. done. }
    assert (forall j, (j < i)%nat -> nth j zs 0 = nth j xs 0) as Hlow.
    { intros j Hj. by rewrite !nth_lookup, Ez, list_lookup_insert_ne by lia. }
    destruct (Z.leb_spec COLS x) as [Hc|Hc].
    + injection H as <- <-. split_and!; [done|done| |lia|lia|lia].
      intros j Hj1 Hj2. assert (j = i) as -> by lia. rewrite Hx, Hlow by lia. lia.
    + apply IH in H as (H1 & H2 & H3 & H4); [|done|lia|lia].
      assert (nth i ys 0 = x) as Hyi by (rewrite H2 by lia; done).
      split_and!; [done| | |].
      * intros j Hj. rewrite H2 by lia. by apply Hlow.
      * intros j Hj1 Hj2. destruct (decide (j = i)) as [->|Hne]; [|apply H3; lia].
        rewrite Hyi, H2, Hlow by lia. lia.
      * destruct b as [k|]; [lia|]. intros j Hj.
        destruct (decide (j = i)) as [->|Hne]; [lia|apply H4; lia].
Qed.

Lemma make_layout_steps COLS col widths i : 0 <= col ->
  visible (make_layout COLS col widths) i = true ->
  visible (make_layout COLS col widths) (S i) = true -> (S i <= 11)%nat ->
  nth (S i) (startX (make_layout COLS col widths)) 0 =
  nth i (startX (make_layout COLS col widths)) 0 + nth i widths 0 + 2.
Proof.
  intros Hcol. unfold make_layout. destruct (Z.leb_spec (COLUMN_CNT - 1) col) as [Hc|Hc].
  - unfold visible. simpl. intros H _ Hi. bool_to_prop. unfold COMMAND_IDX in *. lia.
  - unfold COLUMN_CNT in Hc. set (c := Z.to_nat col).
    destruct (place COLS widths (11 - c) (S c) _) as [ys b] eqn:E.
    apply place_spec in E as (H1 & H2 & H3 & H4); [|done|lia|lia].
    intros V1 V2 Hi. assert (col <= Z.of_nat i) as Hci.
    { destruct b; unfold visible in V1; simpl in V1; bool_to_prop; lia. }
    assert (startX (match b with Some i0 => mk_layout ys col (Z.of_nat i0) (-1)
             | None => mk_layout ys col COLUMN_CNT (COLS - nth 11 ys 0) end) = ys) as Hx by (by destruct b).
    assert ((S i <= match b with Some k => k | None => 11 end)%nat) as Hb.
    { destruct b as [k|]; [|done]. unfold visible in V2. simpl in V2. bool_to_prop. lia. }
    destruct b; simpl in *; rewrite (H3 (S i)) by lia; simpl; by rewrite Nat.sub_0_r.
Qed.

Lemma visible_between ly i j k : (i <= j <= k)%nat ->
  visible ly i = true -> visible ly k = true -> visible ly j = true.
Proof.
  unfold visible. intros H H1 H2. bool_to_prop. apply andb_true_intro.
  split; [apply Z.leb_le|apply Z.ltb_lt]; lia.
Qed.

(** A later column starts two blanks behind an earlier one, or further. *)
Lemma make_layout_order COLS col widths i j : 0 <= col ->
  Forall (fun w => 0 <= w) widths -> (i < j <= 11)%nat ->
  visible (make_layout COLS col widths) i = true ->
  visible (make_layout COLS col widths) j = true ->
  nth i (startX (make_layout COLS col widths)) 0 + nth i widths 0 + 2 <=
  nth j (startX (make_layout COLS col widths)) 0.
Proof.
  intros Hcol Hw [Hij Hj] Vi Vj. set (ly := make_layout COLS col widths) in *.
  induction j as [|j IH]; [lia|].
  assert (visible ly j = true) as Vj' by (apply (visible_between ly i j (S j)); [lia|done|done]).
  pose proof (make_layout_steps COLS col widths j Hcol Vj' Vj Hj) as E. fold ly in E.
  destruct (decide (i = j)) as [->|Hne]; [lia|].
  assert (0 <= nth j widths 0) as H0.
  { rewrite nth_lookup. destruct (widths !! j) as [w|] eqn:Ew; [|done]. simpl.
    by eapply Forall_lookup_1 in Ew; [|exact Hw]. }
  specialize (IH ltac:(lia) ltac:(lia) Vj'). lia.
Qed.

(** ** The widths *)
Lemma column_widest_ge title texts s : (s = title \/ s ∈ texts) -> strlen s <= widest title texts.
Proof.
  unfold widest. assert (forall l w, w <= foldl (fun w s => if (w <? strlen s)%c then strlen s else w) w l
    /\ (forall s, s ∈ l -> strlen s <= foldl (fun w s => if (w <? strlen s)%c then strlen s else w) w l)) as H.
  { induction l as [|a l IH]; intros w; simpl; [split; [lia|set_solver]|].
    destruct (IH (if (w <? strlen a)%c then strlen a else w)) as [H1 H2].
    assert (w <= (if (w <? strlen a)%c then strlen a else w) /\
            strlen a <= (if (w <? strlen a)%c then strlen a else w)) as [Hw Ha]
      by (destruct (Z.ltb_spec w (strlen a)); lia).
    split; [lia|]. intros s' [->|Hs]%elem_of_cons; [lia|by apply H2]. }
  destruct (H texts (strlen title)) as [H1 H2]. intros [->|Hs]; auto.
Qed.

Lemma columnWidth_ge ps texts i :
  texts ∈ column_titles :: map column_texts ps -> (i <= 11)%nat ->
  strlen (nth i texts EmptyString) <= nth i (columnWidth ps) 0.
Proof.
  intros Ht Hi. unfold columnWidth. rewrite (nth_lookup (imap _ _)), list_lookup_imap.
  destruct (column_titles !! i) as [title|] eqn:Et.
  2:{ apply lookup_ge_None in Et. simpl in Et. lia. }
  simpl. apply column_widest_ge. apply elem_of_cons in Ht as [->|Ht].
  - left. by rewrite nth_lookup, Et.
  - right. apply list_elem_of_fmap in Ht as (p & -> & Hp). apply list_elem_of_fmap. eauto.
Qed.

Lemma columnWidth_nonneg ps : Forall (fun w => 0 <= w) (columnWidth ps).
Proof.
  apply Forall_lookup_2. intros i w H. unfold columnWidth in H. rewrite list_lookup_imap in H.
  destruct (column_titles !! i) as [title|]; [|done]. simpl in H. simplify_eq.
  etrans; [apply (strlen_nonneg title)|]. apply column_widest_ge. by left.
Qed.

Lemma narrow_layout COLS ps : COLS <= 59 ->
  maxCmd (make_layout COLS 0 (columnWidth ps)) = -1.
Proof.
  intros Hc. unfold make_layout. cbn [Z.leb COLUMN_CNT Z.sub Z.compare].
  change (COLUMN_CNT - 1 <=? 0)%c with false. change (Z.to_nat 0) with 0%nat.
  destruct (place COLS _ (11 - 0) 1 _) as [ys [k|]] eqn:E; [done|]. exfalso.
  apply place_spec in E as (_ & H0 & H3 & H4); [|done|lia|lia].
  assert (forall i, (i <= 11)%nat -> strlen (nth i column_titles EmptyString) <= nth i (columnWidth ps) 0) as Hw.
  { intros i Hi. apply columnWidth_ge; [apply list_elem_of_here|done]. }
  specialize (H0 0%nat ltac:(lia)). cbn [nth] in H0.
  pose proof (H4 11%nat ltac:(lia)) as H11.
  repeat match goal with
  | H : context [nth (S ?i) ys 0] |- _ =>
      lazymatch goal with
      | _ : nth (S i) ys 0 = _ |- _ => fail
      | _ => let E := fresh "E" in pose proof (H3 (S i) ltac:(lia) ltac:(lia)) as E;
             cbn [Nat.sub] in E; pose proof (Hw i ltac:(lia))
      end
  end.
  cbn [nth column_titles] in *. unfold strlen in *. cbn [String.length Z.of_nat Pos.of_succ_nat Pos.succ] in *. lia.
Qed.

(** ** A share that is not a number *)
Definition nonfinite (x : long_double) : bool := (isnan x || isinf x)%bool.
Lemma nonfinite_div x y : nonfinite x = true -> nonfinite (ld_div x y) = true.
Proof. destruct x as [| | |]; try done; by destruct y. Qed.
Lemma nonfinite_mul x y : nonfinite x = true -> nonfinite (ld_mul x y) = true.
Proof. destruct x as [| | |]; try done; by destruct y. Qed.
Lemma div_zero_nonfinite x : nonfinite (ld_div x ld_zero) = true.
Proof. by destruct x. Qed.
Lemma percent_nonfinite x : nonfinite x = true -> percent x = Ok ld_zero.
Proof. unfold nonfinite, percent. by intros ->. Qed.

(** ** The properties *)

(** C24: Every refresh lists all the processes found, each once, in the order of the
    chosen mode: with different PIDs, every entry is [above] those after it
    (higher share, memory or time first, lower PID first; reversed by R except
    for the PIDs that break ties). *)
Theorem refresh_sorted t u m u' m' eff :
  refresh_screen t u m = Ok (u', m', eff) ->
  sorted m' ≡ₚ procList m' /\
  (NoDup (map pid (procList m')) ->
   StronglySorted (above (sortMode u) (reverseMode u)) (sorted m')).
Proof.
  unfold refresh_screen. intros H. binds H. simplify_eq. cbn [sorted procList set_before].
  match goal with E : show_processes _ _ _ _ = _ |- _ =>
    apply show_processes_sorted in E as [Hn ->]; [|done] end.
  split; [apply SortProc_perm|intros Hnd; by apply SortProc_sorted].
Qed.

Definition demo_machine : machine :=
  mk_machine ∅ [] [] 0 0 (replicate TICK_CNT ld_zero) 1000 100 101 100.
Lemma refresh_sorted_witness : exists r,
  refresh_screen (demo_turn 101 SPACE) initial_ui demo_machine = Ok r /\
  StronglySorted (above CPU_MODE false) (sorted r.1.2) /\ List.length (sorted r.1.2) = 2%nat.
Proof.
  destruct (refresh_screen (demo_turn 101 SPACE) initial_ui demo_machine) as [[[u' m'] eff]|] eqn:E;
    [|vm_compute in E; discriminate E].
  exists (u', m', eff). split; [reflexivity|].
  destruct (refresh_sorted _ _ _ _ _ _ E) as [Hp Hs].
  assert (map pid (procList m') = [7; 42] /\ List.length (sorted m') = 2%nat) as [Hpid Hl].
  { vm_compute in E. injection E as _ <- _. split; reflexivity. }
  split; [|exact Hl]. apply Hs. rewrite Hpid.
  apply (bool_decide_unpack (NoDup [7; 42])). vm_compute. exact I.
Defined.

(** Whatever keys are pressed, the scroll position never becomes negative, the
    memory unit stays one of the six, and the pointers sorted are those of the
    process list. *)
Theorem session_invariant o ut argv turns r :
  main o ut argv turns = Ok r ->
  0 <= row (keys (last r)) /\ 0 <= col (keys (last r)) /\ 1 <= byteUnit (keys (last r)) <= 6 /\
  sorted (mach (last r)) ≡ₚ procList (mach (last r)).
Proof.
  unfold main. intros H. binds H. simplify_eq.
  match goal with E : start_top _ _ _ = _ |- _ => apply start_top_ok in E as (Hs & _) end.
  match goal with E : loop _ _ = _ |- _ => apply loop_ok in E as [(H1 & H2 & H3) H4]; [|done] end.
  simpl. done.
Qed.

Definition demo_session : res session :=
  main (demo_os 100 80) [7] ["mytop"; "-n"; show (Z.of_nat 2)]%string
    [demo_turn 101 SPACE; demo_turn 102 SPACE; demo_turn 103 SPACE].
Lemma session_invariant_witness : exists r, demo_session = Ok r /\ 0 <= row (keys (last r)).
Proof.
  destruct demo_session as [r|] eqn:E; [|vm_compute in E; discriminate E].
  exists r. split; [reflexivity|]. exact (proj1 (session_invariant _ _ _ _ _ E)).
Defined.

(** [mytop -n k] refreshes the screen [k] times after the first one and stops:
    never more often, it stops by itself exactly when the [k]-th refresh is
    done, and when the user keeps pressing SPACE it does so within [k + 1] turns. *)
Theorem n_option_stops o ut k turns r :
  1 <= Z.of_nat k < 2 ^ 31 -> main o ut ["mytop"; "-n"; show (Z.of_nat k)]%string turns = Ok r ->
  (List.length (screens r) <= S k)%nat /\
  (end_ r = Counted <-> List.length (screens r) = S k) /\
  (Forall (fun t => t_key t = SPACE) turns -> (k < List.length turns)%nat -> end_ r = Counted).
Proof.
  intros Hk. unfold main. intros H. binds H. simplify_eq.
  match goal with E : start_top _ _ _ = _ |- _ => apply start_top_ok in E as (_ & Ho & _) end.
  assert (is_int (Z.of_nat k) = true) as Hi by (apply is_int_bounds; lia).
  assert (opts s = mk_options false true 0 (Z.of_nat k)) as Hop.
  { rewrite Ho. unfold read_args. cbn [parse_options Ascii.eqb Bool.eqb].
    rewrite atoi_show by done. unfold u64. by rewrite Z.mod_small by lia. }
  match goal with E : loop _ _ = _ |- _ => rename E into HL end.
  assert (nOption (opts s) = true /\ updatePeriod (opts s) = Z.of_nat k) as [Hn Hp] by (by rewrite Hop).
  pose proof (loop_counts turns s _ k Hn Hp ltac:(lia) HL) as [H1 H2]. simpl.
  split; [lia|]. split; [rewrite H2; lia|]. intros Hall Hlen.
  eapply loop_stops_first; [exact Hn|exact Hp|lia|exact Hall|exact Hlen|exact HL].
Qed.

Lemma n_option_stops_witness : exists r, demo_session = Ok r /\ end_ r = Counted.
Proof.
  destruct demo_session as [r|] eqn:E; [|vm_compute in E; discriminate E].
  exists r. split; [reflexivity|].
  unfold demo_session in E.
  apply (proj2 (proj2 (n_option_stops _ _ 2 _ r ltac:(lia) E))).
  - repeat constructor.
  - simpl. lia.
Defined.

(** The cells of the table do not overlap. In the layout computed from the
    processes, the text of a shown column, in the header or in any row, ends
    before the text of a later one begins, and before the command column. *)
Theorem columns_disjoint COLS col ps texts texts' i j y y' x x' s s' :
  let ly := make_layout COLS col (columnWidth ps) in
  0 <= col -> texts ∈ column_titles :: map column_texts ps ->
  texts' ∈ column_titles :: map column_texts ps -> (i < j <= 11)%nat ->
  draw_cell ly (columnWidth ps) y i (nth i texts EmptyString) = [Draw y x s] ->
  (draw_cell ly (columnWidth ps) y' j (nth j texts' EmptyString) = [Draw y' x' s'] ->
   x + strlen s < x') /\
  (visible ly 11 = true -> x + strlen s < nth 11 (startX ly) 0).
Proof.
  intros ly Hcol Ht Ht' [Hij Hj].
  pose proof (columnWidth_ge ps texts i Ht ltac:(lia)) as Hw.
  pose proof (columnWidth_ge ps texts' j Ht' ltac:(lia)) as Hw'.
  pose proof (columnWidth_nonneg ps) as Hnn. subst ly.
  remember (columnWidth ps) as ws eqn:Ews. clear Ews. set (ly := make_layout COLS col ws).
  assert (forall k gap, 0 <= gap -> 0 <= offset k gap <= gap + 1) as Hoff.
  { intros k gap Hg. unfold offset. do 11 (destruct k as [|k]; [lia|]). lia. }
  unfold draw_cell at 1. destruct (visible ly i) eqn:Vi; [|done]. intros [= <- <-].
  pose proof (Hoff i (nth i ws 0 - strlen (nth i texts EmptyString)) ltac:(lia)) as Ho.
  split.
  - unfold draw_cell. destruct (visible ly j) eqn:Vj; [|done]. intros [= <- <-].
    pose proof (make_layout_order COLS col _ i j Hcol Hnn ltac:(lia) Vi Vj) as H. fold ly in H.
    pose proof (Hoff j (nth j ws 0 - strlen (nth j texts' EmptyString)) ltac:(lia)). lia.
  - intros V11.
    pose proof (make_layout_order COLS col _ i 11 Hcol Hnn ltac:(lia) Vi V11) as H. fold ly in H.
    lia.
Qed.

Definition demo_proc : myProc :=
  mk_proc 42 1000 7 175 "kim" ld_zero ld_zero 0 0 0 20 0 "" "S" "10:08" "0:01.75" "bash" "bash -l".
Lemma columns_disjoint_witness : 2 + 3 < 7 /\ 2 + 3 < 61.
Proof.
  destruct (columns_disjoint 80 0 [demo_proc] column_titles (column_texts demo_proc) 0 1 6 7 2 7 "PID" "kim")
    as [H1 H2].
  - lia.
  - apply list_elem_of_here.
  - apply list_elem_of_further, list_elem_of_here.
  - lia.
  - reflexivity.
  - split; [apply H1; vm_compute; reflexivity|].
    assert (nth 11 (startX (make_layout 80 0 (columnWidth [demo_proc]))) 0 = 61) as E by (vm_compute; reflexivity).
    rewrite <- E. apply H2. vm_compute. reflexivity.
Defined.

(** On a terminal of at most 59 columns the command column never fits, [maxCmd]
    stays -1, and the first process drawn writes a NUL to [cmd[-1]]. *)
Theorem narrow_terminal_overrun COLS ps y p rest :
  COLS <= 59 -> strlen (cpu_text p) < TOKEN_LEN -> strlen (mem_text p) < TOKEN_LEN ->
  draw_rows 0 (make_layout COLS 0 (columnWidth ps)) (columnWidth ps) y (p :: rest) = Err OutOfBounds.
Proof.
  intros Hc H1 H2. cbn [draw_rows]. unfold draw_row, token_ok.
  rewrite (proj2 (Z.ltb_lt _ _) H1), (proj2 (Z.ltb_lt _ _) H2), !orb_true_r.
  cbn [require mbind res_bind]. unfold cut_name. rewrite narrow_layout by done. done.
Qed.

Lemma narrow_terminal_overrun_witness :
  draw_rows 0 (make_layout 50 0 (columnWidth [demo_proc])) (columnWidth [demo_proc]) 7 [demo_proc] =
  Err OutOfBounds.
Proof.
  apply (narrow_terminal_overrun 50 [demo_proc] 7 demo_proc []); [lia| |]; vm_compute; reflexivity.
Defined.

(** A second refresh within the same second shows 0.0 as the CPU share of every
    process seen before, whatever it used: the share is divided by no time. *)
Theorem same_second_zero g t pid totalTime startTime old :
  now_ g = before g -> 0 <= pid < PID_MAX -> t !! pid = Some old -> old <> 0 ->
  cpu_share g t pid totalTime startTime = Ok (ld_zero, <[pid := totalTime]> t).
Proof.
  intros Hn Hp Ht Ho. unfold cpu_share, table_get, table_set.
  rewrite (proj2 (Z.leb_le 0 pid)), (proj2 (Z.ltb_lt pid PID_MAX)) by lia. cbn [andb mbind res_bind].
  rewrite Ht. cbn [default option_map from_option]. unfold id.
  rewrite (proj2 (Z.eqb_neq old 0)) by done. cbn [negb mbind res_bind].
  rewrite Hn, Z.sub_diag. change (ld_of_Z (s64 0)) with ld_zero.
  rewrite percent_nonfinite; [done|]. apply nonfinite_mul, nonfinite_div, div_zero_nonfinite.
Qed.

Lemma same_second_zero_witness :
  cpu_share (mk_clock 50000 1000 100 103 103) {[42 := 90000]} 42 90250 1000 =
  Ok (ld_zero, <[42 := 90250]> {[42 := 90000]}).
Proof.
  apply (same_second_zero (mk_clock 50000 1000 100 103 103) {[42 := 90000]} 42 90250 1000 90000);
    [reflexivity|unfold PID_MAX; lia|reflexivity|lia].
Defined.

(** With -d the period is gone after one ENTER or SPACE: [updateTime] is 0 from
    then on, so every later turn refreshes. *)
Theorem enter_drops_period t s r :
  ch s = ENTER \/ ch s = SPACE -> dOption (opts s) = true -> turn_body t s = Ok r ->
  dOption (opts (after_turn r)) = true /\ updateTime (opts (after_turn r)) = 0.
Proof.
  intros Hc Hd. unfold turn_body. rewrite Hd.
  assert (forall n u, print (on_key (ch s) n u) = true) as Hp by (intros n []; by destruct Hc as [->| ->]).
  assert (((ch s =? ENTER)%c || (ch s =? SPACE)%c)%bool = true) as -> by (by destruct Hc as [->| ->]).
  rewrite Hp. cbn [orb]. intros H. binds H. simplify_eq. simpl.
  unfold count_refresh, set_updateTime in *. simpl in *.
  destruct (nOption (opts s)); simplify_eq; done.
Qed.

Lemma enter_drops_period_witness :
  exists r, turn_body (demo_turn 101 SPACE)
              (mk_state ENTER initial_ui (mk_options true false 5 0) demo_machine "") = Ok r /\
    updateTime (opts (after_turn r)) = 0.
Proof.
  destruct (turn_body (demo_turn 101 SPACE)
              (mk_state ENTER initial_ui (mk_options true false 5 0) demo_machine "")) as [r|] eqn:E;
    [|vm_compute in E; discriminate E].
  exists r. split; [reflexivity|].
  apply (enter_drops_period (demo_turn 101 SPACE)
           (mk_state ENTER initial_ui (mk_options true false 5 0) demo_machine "") r);
    [left; reflexivity|reflexivity|exact E].
Defined.
