(* ===== verification/TopEquiv.v ===== *)
(** * [mytop]: the sort and a reference, and [myps] beside [mytop]

    The bubble sort of [SortProc] computes what a merge sort by the listing
    order computes, and the entries the two programs build for one process agree
    wherever both print the same thing. *)
From Stdlib Require Import ZArith Lia Ascii String Sorted SpecFloat.
From stdpp Require Import sorting.
From S2P Require Import Prelude CLib OsEnv LongDouble ProcFs Ps TopProc TopSort TopPrint Top TopTheorems.
Import ProcFs TopProc Top.

Local Open Scope stdpp_scope.
Local Open Scope Z_scope.

(** ** The listing order, decidable and total *)
#[export] Instance key_lt_dec a b : Decision (key_lt a b).
Proof. destruct a as [[a1 a2] a3], b as [[b1 b2] b3]. unfold key_lt. solve_decision. Defined.
#[export] Instance key4_lt_dec a b : Decision (key4_lt a b).
Proof. destruct a as [a1 a2], b as [b1 b2]. unfold key4_lt. solve_decision. Defined.
#[export] Instance after_dec m r a b : Decision (after m r a b).
Proof. unfold after. destruct r; solve_decision. Defined.

(** [a] may be listed above [b]: it is, or nothing the mode looks at tells them
    apart. *)
Definition lists (m : sort_mode) (r : bool) (a b : myProc) : Prop := ~ after m r a b.
#[export] Instance lists_dec m r a b : Decision (lists m r a b).
Proof. unfold lists. apply _. Defined.

Lemma key4_total a b : key4_lt a b \/ a = b \/ key4_lt b a.
Proof.
  destruct a as [a1 a2], b as [b1 b2]. unfold key4_lt.
  destruct (key_lt_total a1 b1) as [?|[->|?]]; [auto| |auto].
  destruct (Z.lt_total a2 b2) as [?|[->|?]]; auto.
Qed.

(** Not after: before, or alike. *)
Lemma lists_cases m r a b : lists m r a b <->
  after m r b a \/ (mode_key m a = mode_key m b /\ pid a = pid b).
Proof.
  unfold lists. split.
  - intros H. destruct (key4_total (mode_key m a) (mode_key m b)) as [Hk|[Hk|Hk]].
    + destruct r; [left; by left|]. exfalso. apply H. by left.
    + destruct (Z.lt_total (pid a) (pid b)) as [Hp|[Hp|Hp]].
      * left. right. by split.
      * by right.
      * exfalso. apply H. right. by split.
    + destruct r; [exfalso; apply H; by left|]. left. by left.
  - intros [H|[Hk Hp]] H'; [by eapply after_asym|]. destruct H' as [H'|[_ H']]; [|lia].
    rewrite Hk in H'. destruct r; by eapply key4_lt_irrefl.
Qed.

#[export] Instance lists_total m r : Total (lists m r).
Proof.
  intros a b. destruct (decide (lists m r a b)) as [H|H]; [by left|]. right.
  apply lists_cases. left. unfold lists in H. by destruct (decide (after m r a b)).
Qed.
#[export] Instance lists_trans m r : Transitive (lists m r).
Proof.
  intros a b c Hab Hbc. apply lists_cases in Hab, Hbc. apply lists_cases.
  destruct Hab as [Hab|[K1 P1]], Hbc as [Hbc|[K2 P2]].
  - left. by eapply after_trans.
  - left. unfold after in *. by rewrite <- K2, <- P2.
  - left. unfold after in *. by rewrite K1, P1.
  - right. split; congruence.
Qed.

(** Two entries with different PIDs are never alike. *)
Lemma lists_antisym m r (ps : list myProc) a b : NoDup (map pid ps) ->
  a ∈ ps -> b ∈ ps -> lists m r a b -> lists m r b a -> a = b.
Proof.
  intros Hnd Ha Hb H1 H2. destruct (decide (pid a = pid b)) as [E|E].
  - clear H1 H2. revert Hnd Ha Hb. induction ps as [|p ps IH]; simpl; [set_solver|].
    intros [Hp Hnd]%NoDup_cons Ha Hb.
    assert (forall q, q ∈ ps -> pid p <> pid q) as Hne.
    { intros q Hq E'. apply Hp. rewrite E'. by apply list_elem_of_fmap_2. }
    apply elem_of_cons in Ha as [->|Ha]; apply elem_of_cons in Hb as [->|Hb]; auto.
    + exfalso. by apply (Hne b).
    + exfalso. by apply (Hne a).
  - apply lists_cases in H1, H2. destruct H1 as [H1|[_ ?]], H2 as [H2|[_ ?]]; try congruence.
    exfalso. by eapply after_asym.
Qed.

Lemma above_lists m r l : StronglySorted (above m r) l -> StronglySorted (lists m r) l.
Proof.
  induction 1 as [|a l Hs IH Hall]; constructor; [done|].
  eapply Forall_impl; [exact Hall|]. intros b Hb. apply lists_cases. by left.
Qed.

(** ** One process in the two programs *)

(** Step both programs through the guard or file they test next. *)
Ltac lockstep :=
  repeat match goal with
  | H1 : ?e = Ok ?x, H2 : ?e = Ok ?y |- _ => rewrite H1 in H2; injection H2 as H2; subst
  | H1 : (if ?b then _ else _) = _, H2 : (if ?b then _ else _) = _ |- _ => destruct b
  | H1 : (match ?x with Some _ => _ | None => _ end) = _,
    H2 : (match ?x with Some _ => _ | None => _ end) = _ |- _ => destruct x eqn:?
  end.

(** The memory shares of [rss] pages in the two programs: of the total in units of
    1000 bytes, and of the total in KiB, when the status file has them. *)
Definition shares (total_ps total_top rss : Z) (mp mq : long_double) : Prop :=
  mp = ld_zero /\ mq = ld_zero \/
  percent (mem_share rss total_ps) = Ok mp /\ percent (mem_share rss total_top) = Ok mq.

(** What the two entries share. *)
Record same_process (total_ps total_top : Z) (p : Ps.myProc) (q : myProc) : Prop := {
  same_pid : Ps.pid p = pid q; same_uid : Ps.uid p = uid q; same_ppid : Ps.ppid p = ppid q;
  same_user : Ps.user p = user q; same_cpu : Ps.cpu p = cpu q; same_vsz : Ps.vsz p = vsz q;
  same_rss : Ps.rss p = rss q; same_priority : Ps.priority p = priority q; same_nice : Ps.nice p = nice q;
  same_start : Ps.start p = start q; same_cmd : Ps.cmd p = cmd q;
  same_command : Ps.command p = command q;
  same_mem : shares total_ps total_top (rss q) (Ps.mem p) (mem q);
  same_state : exists marks, Ps.stat p = stat q +:+ marks
}.

Lemma status_memory_agree total total' fp m m' :
  Ps.status_memory total fp = Ok m -> status_memory total' fp = Ok m' ->
  Ps.m_vsz m = m_vsz m' /\ Ps.m_rss m = m_rss m' /\ shares total total' (m_rss m') (Ps.m_mem m) (m_mem m').
Proof.
  unfold Ps.status_memory, status_memory, shares.
  destruct (read_rows 1024 STATUS_VSZ_ROW _ _) as [buf fp1].
  destruct (negb _); [intros [= <-] [= <-]; by auto|].
  repeat match goal with |- context [read_rows ?a ?b ?c ?d] => destruct (read_rows a b c d) end.
  destruct (read_line _ _). intros H1 H2. binds H1. binds H2. simplify_eq. simpl. auto.
Qed.

(** A PID the table does not know gets the share since the start of its process. *)
Lemma cpu_share_first g t pid tt st c t' : t !! pid = None -> cpu_share g t pid tt st = Ok (c, t') ->
  (share ← cpu_since_start tt st (uptime g) (hertz g); percent share) = Ok c /\ t' = <[pid := tt]> t.
Proof.
  unfold cpu_share, table_get, table_set. intros Ht H. destruct (_ && _)%bool; [|done]. cbn [mbind res_bind] in H.
  rewrite Ht in H. cbn in H. binds H. simplify_eq.
  match goal with E : cpu_since_start _ _ _ _ = Ok _ |- _ => rewrite E end. simpl. auto.
Qed.

(** A mark is appended or not. *)
Lemma mark_ok (b : bool) cap mark st st' :
  (if b then strcat cap st mark else Ok st) = Ok st' -> exists m, st' = st +:+ m.
Proof.
  destruct b; [intros [-> _]%strcat_ok; eauto|intros [= <-]]. exists EmptyString. by rewrite append_nil_r.
Qed.
Lemma stat_flags_prefix ws pid vmLck st : Ps.stat_flags ws pid vmLck = Ok st ->
  exists marks, st = token ws STAT_STATE_IDX +:+ marks.
Proof.
  unfold Ps.stat_flags. intros H.
  destruct (token_int ws STAT_NICE_IDX <? 0)%c; binds H;
    repeat match goal with
    | E : strcpy _ _ = Ok _ |- _ => apply strcpy_ok in E as [-> _]
    | E : strcat _ _ _ = Ok _ |- _ => apply strcat_ok in E as [-> _]
    | E : (if _ then strcat _ _ _ else Ok _) = Ok _ |- _ => apply mark_ok in E as [? ->]
    end; rewrite !append_assoc; eauto.
Qed.

(** The PID the stat file at [path] begins with. *)
Definition stat_pid (o : os) (path : string) : option Z :=
  match fopen_r o (path +:+ STAT) with
  | Some fp => match read_tokens TOKEN_LEN MAX_TOKEN fp with Ok ws => Some (token_ulong ws STAT_PID_IDX) | Err _ => None end
  | None => None
  end.
(** The table knows only PIDs of [seen]. *)
Definition table_within (t : table) (seen : list Z) : Prop := forall i, i ∈ dom t -> i ∈ seen.

Lemma table_within_insert t seen o path i v : stat_pid o path = Some i -> table_within t seen ->
  table_within (<[i := v]> t) (seen ++ option_list (stat_pid o path)).
Proof.
  intros -> Ht j Hj. apply dom_insert in Hj. revert Hj. rewrite elem_of_union, elem_of_singleton, elem_of_app. simpl.
  intros [->|Hj]; [right; left|left; by apply Ht].
Qed.

Lemma make_procs_agree o opts gp g t path p t' q seen :
  Ps.uptime gp = uptime g -> Ps.hertz gp = hertz g ->
  table_within t seen -> (forall i, stat_pid o path = Some i -> i ∉ seen) ->
  Ps.make_proc o opts gp path = Ok p -> make_proc o g t path = Ok (t', q) ->
  match p, q with
  | Some p, Some q => same_process (Ps.total_memory gp) (total_memory g) p q
  | None, None => True
  | _, _ => False
  end /\ table_within t' (seen ++ option_list (stat_pid o path)).
Proof.
  intros Hu Hh Hs Hn H1 H2. unfold Ps.make_proc in H1. unfold make_proc in H2. rewrite Hu, Hh in H1.
  assert (table_within t (seen ++ option_list (stat_pid o path))) as Hs' by (intros i Hi; apply elem_of_app; auto).
  repeat (binds H1; binds H2; lockstep; simplify_eq; try (by split)).
  1-3: match goal with E : strcpy PATH_SIZE _ = Ok _ |- _ => apply strcpy_ok in E as [-> _] end;
    match goal with E : strcat PATH_SIZE _ STAT = Ok _ |- _ => apply strcat_ok in E as [-> _] end;
    match goal with EC : cpu_share _ _ ?i _ _ = Ok _, F : fopen_r _ _ = Some _, R : read_tokens _ _ _ = Ok _ |- _ =>
      match goal with |- _ /\ table_within _ (_ ++ option_list ?m) =>
        assert (m = Some i) as Ei by (unfold stat_pid; by rewrite F, R) end;
      apply cpu_share_first in EC as [EC ->];
        [|apply not_elem_of_dom; intros Hin; exact (Hn _ Ei (Hs _ Hin))] end;
    (split; [|by apply table_within_insert]).
  2,3: done.
  match goal with A : Ps.status_memory _ _ = Ok _, B : status_memory _ _ = Ok _ |- _ =>
    destruct (status_memory_agree _ _ _ _ _ A B) as (? & ? & ?) end.
  constructor; try done.
  - match goal with A : cpu_since_start _ _ _ _ = Ok _, B : percent _ = Ok _,
      C : mbind _ (cpu_since_start _ _ _ _) = Ok _ |- _ =>
      rewrite A in C; simpl in C; rewrite B in C; by injection C end.
  - match goal with A : strcpy STAT_LEN _ = Ok _ |- _ => apply strcpy_ok in A as [-> _] end.
    eauto using stat_flags_prefix.
Qed.

(** ** The lists of the two programs *)
Definition ax_options : Ps.options := Ps.mk_options true false false false false false true.
(** The entries of /proc that are processes, by the PIDs their stat files begin with. *)
Fixpoint listed_pids (o : os) (names : list string) : list Z :=
  match names with
  | [] => []
  | d :: names => (if is_pid d then option_list (stat_pid o (PROC +:+ "/" +:+ d)) else []) ++ listed_pids o names
  end.

Lemma join_path_inv size d n p : join_path size d n = Ok p -> p = d +:+ "/" +:+ n.
Proof.
  unfold join_path. intros H. binds H.
  repeat match goal with E : strcpy _ _ = Ok _ |- _ => apply strcpy_ok in E as [-> _]
    | E : strcat _ _ _ = Ok _ |- _ => apply strcat_ok in E as [-> _] end. by rewrite append_assoc.
Qed.
Lemma search_loops_agree o gp g names :
  Ps.uptime gp = uptime g -> Ps.hertz gp = hertz g ->
  forall seen ps0 ps t0 qs0 t qs, NoDup (seen ++ listed_pids o names) -> table_within t0 seen ->
  Forall2 (same_process (Ps.total_memory gp) (total_memory g)) ps0 qs0 ->
  Ps.search_loop o ax_options gp names ps0 = Ok ps ->
  search_loop o g names (t0, qs0) = Ok (t, qs) ->
  Forall2 (same_process (Ps.total_memory gp) (total_memory g)) ps qs.
Proof.
  intros Hu Hh. induction names as [|d names IH]; intros seen ps0 ps t0 qs0 t qs Hnd Ht H0 H1 H2;
    cbn [Ps.search_loop search_loop] in H1, H2; [by simplify_eq|].
  binds H1. binds H2. lockstep.
  match goal with E : join_path _ _ _ = Ok ?p |- _ => apply join_path_inv in E as -> end.
  cbn [listed_pids] in Hnd. set (path := (PROC +:+ "/" +:+ d)%string) in *.
  assert (NoDup (seen ++ listed_pids o names)) as Hnd'.
  { apply (sublist_NoDup _ _ Hnd). apply sublist_app; [done|]. by apply sublist_inserts_l. }
  destruct (st_kind _); try by eapply (IH seen).
  destruct (is_pid d) eqn:Ep; cbn [negb] in H1, H2; [|by eapply (IH seen)].
  cbn [Ps.selected Ps.aOption Ps.xOption Ps.uOption ax_options negb andb mbind res_bind] in H1.
  assert (NoDup ((seen ++ option_list (stat_pid o path)) ++ listed_pids o names)) as Hnd2 by (by rewrite <- app_assoc).
  assert (forall i, stat_pid o path = Some i -> i ∉ seen) as Hn.
  { intros i Hi Hin. rewrite Hi in Hnd2. simpl in Hnd2. apply NoDup_app in Hnd2 as (N1 & _ & _).
    apply NoDup_app in N1 as (_ & N1 & _). apply (N1 i Hin). left. }
  binds H1. binds H2.
  match goal with E1 : Ps.AddProcessList _ _ _ _ _ = Ok ?l1, E2 : AddProcessList _ _ _ _ = Ok ?st |- _ =>
    enough (Forall2 (same_process (Ps.total_memory gp) (total_memory g)) l1 st.2 /\
      table_within st.1 (seen ++ option_list (stat_pid o path))) as [Hs1 Hs2]; [destruct st; by eapply IH|];
    unfold Ps.AddProcessList in E1; unfold AddProcessList in E2; binds E1; binds E2;
    rename E1 into EA, E2 into EB end.
  match goal with E1 : Ps.make_proc _ _ _ _ = Ok ?p, E2 : make_proc _ _ _ _ = Ok (_, ?q) |- _ =>
    destruct (make_procs_agree _ _ _ _ _ _ _ _ _ _ Hu Hh Ht Hn E1 E2) as [Ha Hw]; destruct p, q; try done end.
  - unfold Ps.push in EA. unfold push in EB. binds EA. binds EB. binds EB.
    unfold push in *. repeat match goal with E : mbind _ (require _ _) = Ok _ |- _ => binds E end.
    simplify_eq. simpl. split; [|done]. by apply Forall2_app; [|constructor].
  - simplify_eq. by split.
Qed.

(** The entries of [mytop] carry the PIDs of the stat files they come from. *)
Lemma make_proc_pid o g t path t' q : make_proc o g t path = Ok (t', Some q) -> stat_pid o path = Some (pid q).
Proof.
  unfold make_proc. intros H.
  repeat (binds H; match type of H with
          | (if ?b then _ else _) = _ => destruct b; [discriminate H|]
          | (match ?x with Some _ => _ | None => _ end) = _ => destruct x eqn:?; [|discriminate H]
          end).
  binds H. simplify_eq.
  match goal with E : strcpy PATH_SIZE _ = Ok _ |- _ => apply strcpy_ok in E as [-> _] end.
  match goal with E : strcat PATH_SIZE _ STAT = Ok _ |- _ => apply strcat_ok in E as [-> _] end.
  match goal with F : fopen_r _ (_ +:+ STAT) = Some _, R : read_tokens _ _ _ = Ok _ |- _ =>
    unfold stat_pid; by rewrite F, R end.
Qed.
Lemma search_loop_pids o g names : forall t0 qs0 t qs, search_loop o g names (t0, qs0) = Ok (t, qs) ->
  exists l, map pid qs = map pid qs0 ++ l /\ l `sublist_of` listed_pids o names.
Proof.
  induction names as [|d names IH]; intros t0 qs0 t qs H; cbn [search_loop listed_pids] in *.
  - simplify_eq. exists []. by rewrite app_nil_r.
  - assert (forall t0 qs0, search_loop o g names (t0, qs0) = Ok (t, qs) ->
      exists l, map pid qs = map pid qs0 ++ l /\ l `sublist_of`
        (if is_pid d then option_list (stat_pid o (PROC +:+ "/" +:+ d)) else []) ++ listed_pids o names) as Hskip.
    { intros t1 qs1 H1. destruct (IH _ _ _ _ H1) as (l & E & Hl). exists l. split; [done|]. by apply sublist_inserts_l. }
    binds H. match goal with E : join_path _ _ _ = Ok ?p |- _ => apply join_path_inv in E as -> end.
    destruct (st_kind _); eauto. destruct (is_pid d) eqn:Ep; cbn [negb] in H; eauto. binds H.
    match goal with E : AddProcessList _ _ _ _ = Ok ?st |- _ =>
      destruct st as [t1 qs1]; unfold AddProcessList in E; binds E; rename E into EA end.
    match goal with E : make_proc _ _ _ _ = Ok (_, ?r) |- _ => rename E into EM; destruct r as [p|] end;
      [|simplify_eq; eauto].
    apply make_proc_pid in EM as Ei.
    binds EA. unfold push in *. match goal with E : mbind _ (require _ _) = Ok _ |- _ => binds E end. simplify_eq.
    destruct (IH _ _ _ _ H) as (l & E & Hl). exists (pid p :: l). rewrite E, map_app, <- app_assoc. split; [done|].
    change (String "/" (String "p" (String "r" (String "o" (String "c" (String "/" d)))))) with (PROC +:+ "/" +:+ d) in Ei.
    rewrite Ei. by apply sublist_skip.
Qed.
Lemma SearchProcess_pids o g t up t' qs names : readdir_all o PROC = Some names -> NoDup (listed_pids o names) ->
  SearchProcess o g t [] = Ok (up, t', qs) -> NoDup (map pid qs).
Proof.
  unfold SearchProcess. intros Hn Hnd H. rewrite Hn in H. binds H. simplify_eq.
  match goal with E : of_option _ (Some _) = Ok _ |- _ => injection E as <- end.
  match goal with E : search_loop _ _ _ _ = Ok _ |- _ => apply search_loop_pids in E as (l & -> & Hl) end.
  by apply (sublist_NoDup _ _ Hnd).
Qed.

(** On one snapshot, with the same clock rate. *)
Lemma searches_agree o g total hertz_ uid tty names ps up t qs : hertz g = hertz_ ->
  readdir_all o PROC = Some names -> NoDup (listed_pids o names) ->
  SearchProcess o g ∅ [] = Ok (up, t, qs) -> Ps.SearchProcess o ax_options total hertz_ uid tty = Ok ps ->
  Forall2 (same_process total (total_memory g)) ps qs.
Proof.
  intros Hh Hn Hnd. unfold Ps.SearchProcess, SearchProcess, GetUpTime. rewrite Hn. intros H2 H1. binds H1. binds H2.
  lockstep. simplify_eq.
  match goal with E : of_option _ (Some _) = Ok _ |- _ => injection E as <- end.
  match goal with A : Ps.search_loop _ _ _ _ _ = Ok _, B : search_loop _ _ _ _ = Ok _ |- _ =>
    rename A into HA; rename B into HB end.
  refine (search_loops_agree o _ _ names _ _ [] [] ps ∅ [] t qs Hnd _ (Forall2_nil_2 _ _ _) HA HB); [done..|].
  intros i Hi. apply elem_of_dom in Hi as [v Hi]. done.
Qed.

(** The sort is the reference sort. *)
Lemma sort_is_merge m r ps :
  Forall numbers_ok ps -> NoDup (map pid ps) -> SortProc m r ps = merge_sort (lists m r) ps.
Proof.
  intros Hok Hnd. pose proof (SortProc_perm m r ps) as Hp1.
  pose proof (merge_sort_Permutation (lists m r) ps) as Hp2.
  apply (StronglySorted_unique_strong (lists m r)).
  - intros a b Ha Hb. rewrite Hp1 in Ha. rewrite Hp2 in Hb. by apply (lists_antisym m r ps).
  - by apply above_lists, SortProc_sorted.
  - apply StronglySorted_merge_sort; apply _.
  - by rewrite Hp1, Hp2.
Qed.

(** ** The properties *)

(** C14: [SortProc] is the reference sort: on processes with different PIDs the
    bubble sort of the pointers gives, in every mode and direction, exactly the
    list a merge sort by the listing order gives. *)
Theorem SortProc_is_merge_sort m r ps :
  Forall numbers_ok ps -> NoDup (map pid ps) -> SortProc m r ps = merge_sort (lists m r) ps.
Proof. apply sort_is_merge. Qed.

Lemma SortProc_is_merge_sort_witness :
  map pid (SortProc TIME_MODE true [demo_proc; EraseProcess demo_proc]) = [0; 42] /\
  SortProc TIME_MODE true [demo_proc; EraseProcess demo_proc] =
  merge_sort (lists TIME_MODE true) [demo_proc; EraseProcess demo_proc].
Proof.
  split; [vm_compute; reflexivity|].
  apply (SortProc_is_merge_sort TIME_MODE true [demo_proc; EraseProcess demo_proc]).
  - repeat constructor.
  - apply (bool_decide_unpack (NoDup [42; 0])). vm_compute. exact I.
Defined.

(** C16: [myps ax] and the first screen of [mytop] show the same processes. On one snapshot whose
    stat files begin with different PIDs, when both programs get through, the
    entries [mytop] finds are those of [myps] one by one: PID, parent, user, %CPU, virtual
    and resident memory, priority, nice value, start time, name, command line and
    state (that of [myps] has marks behind) are equal; %MEM is the share of the same
    resident memory, of a total that [myps] converts to units of 1000 bytes and
    [mytop] does not.  [myps] lists them as /proc does, [mytop] by %CPU, as a merge sort would. *)
Theorem ps_and_top_agree o ut argv tty total names ps s eff :
  0 <= clk_tck o < 2 ^ 32 -> readdir_all o PROC = Some names -> NoDup (listed_pids o names) ->
  Ps.GetTotalMemory o = Ok total ->
  Ps.SearchProcess o ax_options total (u64 (clk_tck o)) (my_uid o) tty = Ok ps ->
  start_top o ut argv = Ok (s, eff) ->
  exists kib, meminfo_total o = Ok kib /\ total = u64 (kib * 1024) / 1000 /\
    Forall2 (same_process total kib) ps (procList (mach s)) /\
    sorted (mach s) = merge_sort (lists CPU_MODE false) (procList (mach s)).
Proof.
  intros Hc Hn Hnd Ht H1 H2. unfold Ps.GetTotalMemory in Ht. binds Ht. simplify_eq.
  match goal with E : meminfo_total o = Ok ?k |- _ => exists k; rename E into Em; set (kib := k) in * end.
  split; [done|]. split; [done|].
  unfold start_top, GetTotalMemory in H2. rewrite Em in H2. binds H2. simplify_eq. cbn [mach set_before procList sorted].
  match goal with E : show_processes _ _ _ _ = Ok _ |- _ => rename E into ES end.
  pose proof ES as Hss. apply show_processes_sorted in Hss as [Hnum Hs]; [|done].
  split.
  - unfold show_processes in ES. binds ES. simplify_eq. cbn [procList].
    match goal with E : SearchProcess _ _ _ _ = Ok _ |- _ => rename E into EP end.
    refine (searches_agree o _ _ _ _ tty names ps _ _ _ _ Hn Hnd EP H1).
    simpl. unfold u32, u64. by rewrite !Z.mod_small by lia.
  - rewrite Hs. apply sort_is_merge; [done|]. unfold show_processes in ES. binds ES. simplify_eq. cbn [procList].
    match goal with E : SearchProcess _ _ _ _ = Ok _ |- _ => by apply (SearchProcess_pids _ _ _ _ _ _ names) in E end.
Qed.

Lemma ps_and_top_agree_witness : exists ps s eff,
  Ps.SearchProcess (demo_os 100 80) ax_options 1024 100 1000 "pts/0" = Ok ps /\
  start_top (demo_os 100 80) [7] ["mytop"] = Ok (s, eff) /\
  Forall2 (same_process 1024 1000) ps (procList (mach s)) /\ map Ps.pid ps = [7; 42] /\
  map pid (sorted (mach s)) = [42; 7].
Proof.
  destruct (Ps.SearchProcess (demo_os 100 80) ax_options 1024 100 1000 "pts/0") as [ps|] eqn:E1;
    [|vm_compute in E1; discriminate E1].
  destruct (start_top (demo_os 100 80) [7] ["mytop"]) as [[s eff]|] eqn:E2; [|vm_compute in E2; discriminate E2].
  exists ps, s, eff. split; [reflexivity|]. split; [reflexivity|].
  destruct (ps_and_top_agree (demo_os 100 80) [7] ["mytop"] "pts/0" 1024 ["7"; "42"] ps s eff)
    as (kib & Hk & Ht & H & _).
  - vm_compute. split; [discriminate|reflexivity].
  - reflexivity.
  - apply (bool_decide_unpack (NoDup (listed_pids (demo_os 100 80) ["7"; "42"]))). vm_compute. exact I.
  - vm_compute. reflexivity.
  - exact E1.
  - exact E2.
  - assert (kib = 1000) as -> by (vm_compute in Hk; injection Hk as <-; reflexivity).
    split; [exact H|]. split.
    + vm_compute in E1. injection E1 as <-. reflexivity.
    + vm_compute in E2. injection E2 as <- _. reflexivity.
Defined.
