(* ===== verification/TypedProc.v ===== *)
(** * [myps] and [mytop]: the declared types of the globals

    The C declarations of the two programs as predicates: machine words within
    their range, character arrays with room for their terminator, numbers that
    are numbers.  Every operation that fills the arrays keeps them. *)
From Stdlib Require Import ZArith Lia Ascii String.
From S2P Require Import Prelude CLib OsEnv LongDouble ProcFs Ps TopProc TopSort TopPrint Top TopTheorems.
Import ProcFs TopProc TopPrint Top.

Local Open Scope stdpp_scope.
Local Open Scope Z_scope.

(** ** C types *)
Definition ulong (z : Z) : Prop := 0 <= z < 2 ^ 64.
Definition cint (z : Z) : Prop := - 2 ^ 31 <= z < 2 ^ 31.
(** [char buf[cap]] holding the string [s]. *)
Definition char_array (cap : Z) (s : string) : Prop := strlen s < cap.
Definition number (x : long_double) : Prop := isnan x = false.

#[export] Instance ulong_dec z : Decision (ulong z).
Proof. unfold ulong. apply _. Defined.
#[export] Instance char_array_dec cap s : Decision (char_array cap s).
Proof. unfold char_array. apply _. Defined.

(** [uid_t] and the entries of [struct stat] fit their types. *)
Definition os_typed (o : os) : Prop :=
  forall path st, stat_of o path = Some st -> 0 <= st_uid st < 2 ^ 32.

Create HintDb ctypes.
Lemma u64_ulong z : ulong (u64 z).
Proof. unfold ulong, u64. apply Z.mod_pos_bound. lia. Qed.
Lemma s32_cint z : cint (s32 z).
Proof. unfold cint, s32. pose proof (Z.mod_pos_bound (z + 2 ^ 31) (2 ^ 32) ltac:(lia)). lia. Qed.
Lemma atoi_cint s : cint (atoi s).
Proof. unfold atoi. destruct (read_decimal _).1; [apply s32_cint|unfold cint; lia]. Qed.
Lemma token_int_cint ws i : cint (token_int ws i).
Proof. apply atoi_cint. Qed.
Lemma token_ulong_ulong ws i : ulong (token_ulong ws i).
Proof. apply u64_ulong. Qed.
Lemma sscanf_lu_ulong s old : ulong old -> ulong (sscanf_lu s old).
Proof.
  intros H. unfold sscanf_lu, scan_lu. destruct (skip_spaces s) as [|c t]; [done|].
  destruct (read_decimal _) as [[v|] r]; [|done]. unfold ULONG_MAX, clamp_ulong.
  destruct (Z.ltb_spec v 0); [destruct (Z.ltb_spec (2 ^ 64 - 1) (- v))|].
  - unfold ulong. lia.
  - apply u64_ulong.
  - unfold ulong, ULONG_MAX. lia.
Qed.
Lemma ulong_0 : ulong 0.
Proof. unfold ulong. lia. Qed.
Lemma strcpy_array cap s s' : strcpy cap s = Ok s' -> char_array cap s'.
Proof. by intros [-> ?]%strcpy_ok. Qed.
Lemma strcat_array cap s t s' : strcat cap s t = Ok s' -> char_array cap s'.
Proof. by intros [-> ?]%strcat_ok. Qed.
#[export] Hint Resolve u64_ulong s32_cint atoi_cint token_int_cint token_ulong_ulong
  sscanf_lu_ulong ulong_0 strcpy_array strcat_array : ctypes.

(** ** The pieces the two programs share *)
Lemma fscanf_s_array cap old fp w rest : char_array cap old ->
  fscanf_s cap old fp = Ok (w, rest) -> char_array cap w.
Proof.
  unfold fscanf_s. intros Ho. destruct (scan_s fp); [by intros [= <- _]..|].
  intros H. binds H. simplify_eq. eauto with ctypes.
Qed.
Lemma user_name_array o uid u : user_name o uid = Ok u -> char_array UNAME_LEN u.
Proof.
  unfold user_name. intros H. binds H. destruct (String.eqb _ _); [|eauto with ctypes].
  simplify_eq. by vm_compute.
Qed.
Lemma short_cmd_array tok c : short_cmd tok = Ok c -> char_array CMD_LEN c.
Proof.
  unfold short_cmd. intros H. apply bind_ok in H as (cmd & Hc & H).
  destruct (Z.eqb_spec (strlen cmd) 0); [done|]. simplify_eq.
  assert (char_array CMD_LEN cmd) as Ha.
  { assert (char_array CMD_LEN EmptyString) as H0 by (by vm_compute).
    destruct tok as [|a t]; [by simplify_eq|]. destruct a as [[] [] [] [] [] [] [] []]; try by simplify_eq.
    binds Hc. simplify_eq. by eapply fscanf_s_array. }
  assert (forall n s, strlen (stake n s) <= strlen s) as Hs.
  { clear. intros n. induction n as [|n IH]; intros s; [apply strlen_nonneg|].
    destruct s as [|a s]; [done|]. specialize (IH s). unfold strlen in *. simpl. lia. }
  unfold char_array in *. specialize (Hs (String.length cmd - 1)%nat cmd). lia.
Qed.
Lemma read_cmdline_array n fp : forall command c, (String.length fp <= n)%nat ->
  char_array CMD_LEN command -> read_cmdline fp command = Ok c -> char_array CMD_LEN c.
Proof.
  revert fp. induction n as [|n IH]; intros fp command c Hl Ha H; destruct fp as [|a t];
    simpl in Hl; try lia; cbn [read_cmdline] in H; try by simplify_eq.
  destruct (Ascii.eqb a NUL).
  - destruct t as [|d t']; [by simplify_eq|]. destruct (Ascii.eqb d NUL); [by simplify_eq|].
    binds H. eapply IH in H; [done|simpl in Hl; lia|eauto with ctypes].
  - binds H. eapply IH in H; [done|lia|eauto with ctypes].
Qed.
Lemma long_command_array fp cmd c : long_command fp cmd = Ok c -> char_array CMD_LEN c.
Proof.
  unfold long_command. intros H. binds H. destruct (_ =? 0)%c; [eauto with ctypes|]. simplify_eq.
  eapply read_cmdline_array; [done| |done]. by vm_compute.
Qed.
Lemma start_text_array o up st h s : start_text o up st h = Ok s -> char_array TIME_LEN s.
Proof. unfold start_text. intros H. binds H. eauto with ctypes. Qed.
#[export] Hint Resolve user_name_array short_cmd_array long_command_array start_text_array : ctypes.

Lemma search_dev_array o nr names : forall t, search_dev o nr names = Ok t -> char_array TTY_LEN t.
Proof.
  induction names as [|d names IH]; intros t H; cbn [search_dev] in H; [simplify_eq; by vm_compute|].
  binds H. destruct (st_kind _); [by apply IH| |by apply IH].
  destruct (_ =? _)%c; [eauto with ctypes|by apply IH].
Qed.
Lemma tty_of_link_array l t : tty_of_link l = Ok t -> char_array TTY_LEN t.
Proof.
  unfold tty_of_link. destruct (starts _ _); intros H; [|simplify_eq; by vm_compute].
  binds H. simplify_eq. by eapply fscanf_s_array; [|done].
Qed.
Lemma GetTTY_array o path t : ProcFs.GetTTY o path = Ok t -> char_array TTY_LEN t.
Proof.
  assert (char_array TTY_LEN "?" /\ char_array TTY_LEN EmptyString) as [H1 H0] by (by split; vm_compute).
  unfold ProcFs.GetTTY. intros H. binds H. destruct (negb _).
  - binds H. destruct (fopen_r _ _); [|by simplify_eq]. binds H. simplify_eq.
    destruct (_ =? 0)%c; [done|]. eauto using search_dev_array.
  - binds H. destruct (String.eqb _ _); [by simplify_eq|]. eauto using tty_of_link_array.
Qed.
Lemma mark_array (b : bool) cap mark st st' : char_array cap st ->
  (if b then strcat cap st mark else Ok st) = Ok st' -> char_array cap st'.
Proof. destruct b; [eauto with ctypes|by intros ? [= <-]]. Qed.
Lemma stat_flags_array ws pid lck st : Ps.stat_flags ws pid lck = Ok st -> char_array STAT_LEN st.
Proof.
  unfold Ps.stat_flags. intros H.
  destruct (token_int ws STAT_NICE_IDX <? 0)%c; binds H; repeat first
    [ eapply mark_array; [|eassumption] | eapply strcat_array; eassumption
    | eapply strcpy_array; eassumption ].
Qed.
Lemma time_text_array opts t h s : Ps.time_text opts t h = Ok s -> char_array TIME_LEN s.
Proof. unfold Ps.time_text. intros H. binds H. eauto with ctypes. Qed.
Lemma time_plus_array t h s : time_plus t h = Ok s -> char_array TIME_LEN s.
Proof. unfold time_plus. intros H. binds H. eauto with ctypes. Qed.
#[export] Hint Resolve GetTTY_array stat_flags_array time_text_array time_plus_array
  percent_not_nan : ctypes.

Lemma ps_memory_typed total fp m : Ps.status_memory total fp = Ok m ->
  ulong (Ps.m_vsz m) /\ ulong (Ps.m_rss m) /\ ulong (Ps.m_shr m) /\ number (Ps.m_mem m).
Proof.
  unfold Ps.status_memory. destruct (read_rows 1024 STATUS_VSZ_ROW _ _) as [buf fp1].
  destruct (negb _); [intros [= <-]; split_and!; done|]. intros H.
  repeat match type of H with context [read_rows ?a ?b ?c ?d] => destruct (read_rows a b c d) end.
  binds H. simplify_eq. unfold number. split_and!; simpl; eauto with ctypes.
Qed.
Lemma top_memory_typed total fp m : status_memory total fp = Ok m ->
  ulong (m_vsz m) /\ ulong (m_rss m) /\ ulong (m_shr m) /\ number (m_mem m).
Proof.
  unfold status_memory. destruct (read_rows 1024 STATUS_VSZ_ROW _ _) as [buf fp1].
  destruct (negb _); [intros [= <-]; split_and!; done|]. intros H.
  repeat match type of H with context [read_rows ?a ?b ?c ?d] => destruct (read_rows a b c d) end.
  destruct (read_line _ _). binds H. simplify_eq. unfold number. split_and!; simpl; eauto with ctypes.
Qed.

(** ** [myProc] *)

(** The declaration of the struct in [myps.c] ... *)
Record ps_typed (p : Ps.myProc) : Prop := {
  ps_pid : ulong (Ps.pid p); ps_uid : ulong (Ps.uid p); ps_ppid : ulong (Ps.ppid p);
  ps_user : char_array UNAME_LEN (Ps.user p); ps_cpu : number (Ps.cpu p); ps_mem : number (Ps.mem p);
  ps_vsz : ulong (Ps.vsz p); ps_rss : ulong (Ps.rss p); ps_shr : ulong (Ps.shr p);
  ps_priority : cint (Ps.priority p); ps_nice : cint (Ps.nice p);
  ps_tty : char_array TTY_LEN (Ps.tty p); ps_stat : char_array STAT_LEN (Ps.stat p);
  ps_start : char_array TIME_LEN (Ps.start p); ps_time : char_array TIME_LEN (Ps.time p);
  ps_cmd : char_array CMD_LEN (Ps.cmd p); ps_command : char_array CMD_LEN (Ps.command p)
}.

(** ... and in [mytop.c]. *)
Record top_typed (p : myProc) : Prop := {
  top_pid : 0 <= pid p < PID_MAX; top_uid : ulong (uid p); top_ppid : ulong (ppid p);
  top_runtime : ulong (runtime p);
  top_user : char_array UNAME_LEN (user p); top_cpu : number (cpu p); top_mem : number (mem p);
  top_vsz : ulong (vsz p); top_rss : ulong (rss p); top_shr : ulong (shr p);
  top_priority : cint (priority p); top_nice : cint (nice p);
  top_tty : char_array TTY_LEN (tty p); top_stat : char_array STAT_LEN (stat p);
  top_start : char_array TIME_LEN (start p); top_time : char_array TIME_LEN (time p);
  top_cmd : char_array CMD_LEN (cmd p); top_command : char_array CMD_LEN (command p)
}.
(** [unsigned long cpuTimeTable[PID_MAX]] *)
Definition table_typed (t : table) : Prop :=
  map_Forall (fun i v => 0 <= i < PID_MAX /\ ulong v) t.

Lemma table_set_typed t i v t' : table_typed t -> ulong v -> table_set t i v = Ok t' ->
  table_typed t' /\ 0 <= i < PID_MAX.
Proof.
  unfold table_set. destruct ((0 <=? i)%c && (i <? PID_MAX)%c)%bool eqn:Eb; [|done].
  apply andb_prop in Eb as [?%Z.leb_le ?%Z.ltb_lt]. intros Ht Hv [= <-].
  split; [|lia]. apply map_Forall_insert_2; [split; [lia|done]|done].
Qed.
Lemma cpu_share_typed g t pid tt st c t' : table_typed t -> ulong tt ->
  cpu_share g t pid tt st = Ok (c, t') -> table_typed t' /\ 0 <= pid < PID_MAX /\ number c.
Proof.
  unfold cpu_share. intros Ht Hv H. binds H. simplify_eq.
  match goal with E : table_set _ _ _ = Ok _ |- _ => apply table_set_typed in E as [? ?]; [|done..] end.
  split; [done|]. split; [done|]. unfold number. eauto with ctypes.
Qed.

(** Walk through the guards and files of a handler down to its result. *)
Ltac handler H :=
  repeat (binds H; match type of H with
          | (if ?b then _ else _) = _ => destruct b; try discriminate H
          | (match ?x with Some _ => _ | None => _ end) = _ => destruct x eqn:?; try discriminate H
          end); binds H.

Lemma uid_ulong o path st : os_typed o -> stat_of o path = Some st -> ulong (st_uid st).
Proof. intros Ho H. apply Ho in H. unfold ulong. lia. Qed.

Lemma ps_make_typed o opts g path p : os_typed o ->
  Ps.make_proc o opts g path = Ok (Some p) -> ps_typed p.
Proof.
  unfold Ps.make_proc. intros Ho H. handler H. simplify_eq.
  match goal with E : Ps.status_memory _ _ = Ok _ |- _ =>
    apply ps_memory_typed in E as (? & ? & ? & ?) end.
  constructor; simpl; unfold number; eauto using uid_ulong with ctypes.
Qed.
Lemma top_make_typed o g t path t' p : os_typed o -> table_typed t ->
  make_proc o g t path = Ok (t', p) -> table_typed t' /\ (forall q, p = Some q -> top_typed q).
Proof.
  unfold make_proc. intros Ho Ht H. handler H; simplify_eq; try done;
  match goal with E : cpu_share _ _ _ _ _ = Ok _ |- _ =>
    apply cpu_share_typed in E as (? & ? & ?); [|done|auto with ctypes] end;
  (split; [done|]); intros q [= <-].
  match goal with E : status_memory _ _ = Ok _ |- _ =>
    apply top_memory_typed in E as (? & ? & ? & ?) end.
  constructor; simpl; unfold number; eauto using uid_ulong with ctypes. by vm_compute.
Qed.

(** ** The arrays *)

(** [myProc procList[PROCESS_MAX]] with its first entries filled. *)
Definition array_of {A} (typed : A -> Prop) (l : list A) : Prop :=
  Z.of_nat (List.length l) <= PROCESS_MAX /\ Forall typed l.

Lemma push_array {A} (typed : A -> Prop) (l : list A) a :
  array_of typed l -> typed a -> Z.of_nat (List.length l) < PROCESS_MAX -> array_of typed (l ++ [a]).
Proof.
  intros [_ Hl] Ha Hn. split; [rewrite length_app; simpl; lia|]. apply Forall_app_2; auto.
Qed.

Lemma ps_add_typed o opts g path ps0 ps : os_typed o -> array_of ps_typed ps0 ->
  Ps.AddProcessList o opts g path ps0 = Ok ps -> array_of ps_typed ps.
Proof.
  unfold Ps.AddProcessList. intros Ho H0 H. apply bind_ok in H as ([p|] & Hp & H); [|by simplify_eq].
  unfold Ps.push, require in H. destruct (Z.ltb_spec (Z.of_nat (List.length ps0)) PROCESS_MAX); [|done].
  cbn [mbind res_bind] in H. simplify_eq. apply push_array; eauto using ps_make_typed.
Qed.
Lemma ps_search_typed o opts g names : os_typed o -> forall ps0 ps,
  array_of ps_typed ps0 -> Ps.search_loop o opts g names ps0 = Ok ps -> array_of ps_typed ps.
Proof.
  intros Ho. induction names as [|d names IH]; intros ps0 ps H0 H; cbn [Ps.search_loop] in H;
    [by simplify_eq|].
  binds H. destruct (st_kind _); eauto. destruct (negb _); [eauto|]. binds H.
  destruct (negb _); [eauto|]. binds H. eauto using ps_add_typed.
Qed.

Lemma top_add_typed o g path t0 ps0 t ps : os_typed o -> table_typed t0 -> array_of top_typed ps0 ->
  AddProcessList o g path (t0, ps0) = Ok (t, ps) -> table_typed t /\ array_of top_typed ps.
Proof.
  unfold AddProcessList. intros Ho Ht H0 H. apply bind_ok in H as ([t1 p] & Hp & H).
  destruct (top_make_typed _ _ _ _ _ _ Ho Ht Hp) as [Ht1 Hq].
  destruct p as [p|]; [|by simplify_eq].
  unfold push, require in H. destruct (Z.ltb_spec (Z.of_nat (List.length ps0)) PROCESS_MAX); [|done].
  cbn [mbind res_bind] in H. simplify_eq. split; [done|]. apply push_array; eauto.
Qed.
Lemma top_search_typed o g names : os_typed o -> forall t0 ps0 t ps,
  table_typed t0 -> array_of top_typed ps0 -> search_loop o g names (t0, ps0) = Ok (t, ps) ->
  table_typed t /\ array_of top_typed ps.
Proof.
  intros Ho. induction names as [|d names IH]; intros t0 ps0 t ps Ht H0 H; cbn [search_loop] in H;
    [by simplify_eq|].
  binds H. destruct (st_kind _); eauto. destruct (negb _); [eauto|].
  apply bind_ok in H as ([t1 ps1] & Ha & H). eapply top_add_typed in Ha as [? ?]; eauto.
Qed.

(** ** The globals of [mytop] over a session *)
Definition machine_typed (m : machine) : Prop :=
  table_typed (cpuTimeTable m) /\ array_of top_typed (procList m) /\ array_of top_typed (sorted m).

Lemma array_perm {A} (typed : A -> Prop) l l' : l' ≡ₚ l -> array_of typed l -> array_of typed l'.
Proof. unfold array_of. by intros ->. Qed.

Lemma show_processes_typed o ut u m m' eff : os_typed o -> table_typed (cpuTimeTable m) ->
  array_of top_typed (procList m) -> show_processes o ut u m = Ok (m', eff) -> machine_typed m'.
Proof.
  unfold show_processes, SearchProcess. intros Ho Ht Hp H. binds H. simplify_eq.
  match goal with E : (mbind _ _) = Ok _ |- _ => binds E end. simplify_eq.
  match goal with E : search_loop _ _ _ _ = Ok _ |- _ =>
    apply top_search_typed in E as [? ?]; [|done..] end.
  split; [done|]. split; [done|]. by eapply array_perm; [apply SortProc_perm|].
Qed.

Lemma array_nil {A} (typed : A -> Prop) : array_of typed [].
Proof. split; [by vm_compute|constructor]. Qed.

Lemma turn_body_typed t s r : os_typed (t_os t) -> machine_typed (mach s) ->
  turn_body t s = Ok r -> machine_typed (mach (after_turn r)).
Proof.
  intros Ho (Ht & Hp & Hs). unfold turn_body. destruct (_ || _)%bool; [|by intros [= <-]].
  intros H. apply bind_ok in H as ([[u' m'] eff] & ER & H). unfold refresh_screen in ER. binds ER.
  match goal with E : show_processes _ _ _ _ = _ |- _ =>
    apply show_processes_typed in E; [|done|done|apply array_nil] end.
  simplify_eq. destruct (count_refresh _). by simplify_eq.
Qed.

Lemma loop_typed turns : forall s r, Forall (fun t => os_typed (t_os t)) turns ->
  machine_typed (mach s) -> loop turns s = Ok r -> machine_typed (mach (last r)).
Proof.
  induction turns as [|t turns IH]; intros s r Ho Hs H.
  - cbn [loop] in H. by simplify_eq.
  - apply Forall_cons in Ho as [Ht Ho].
    apply loop_cons in H as (a & rest & Ha & -> & H). apply turn_body_typed in Ha; [|done..].
    assert (last (add_screen (drawn a) rest) = last rest) as -> by (by destruct (drawn a)).
    destruct (stop a); [by subst|]. destruct (_ =? QUIT)%c; [by subst|].
    by eapply IH in H.
Qed.

(** ** The properties *)

Lemma demo_os_typed time width : os_typed (demo_os time width).
Proof.
  intros path st. cbn [stat_of demo_os]. repeat case_match; intros; simplify_eq; simpl; lia.
Qed.
Lemma demo_turns_typed times :
  Forall (fun t => os_typed (t_os t)) (map (fun time => demo_turn time SPACE) times).
Proof. apply Forall_fmap, Forall_forall. intros time _. apply demo_os_typed. Qed.

(** Unless a fault ends them first, both programs keep their words in range: over every
    session of [mytop] each entry of [procList], and each entry a pointer of [sorted] leads
    to, holds machine words and percentages that are numbers, and [cpuTimeTable] holds
    [unsigned long]s at indices below PID_MAX; so does the list of [myps], whatever its
    options.  That no fault occurs on a well-formed /proc is [PsListing.process_list_complete]. *)
Theorem process_lists_typed o :
  os_typed o ->
  (forall ut argv turns r, Forall (fun t => os_typed (t_os t)) turns ->
     main o ut argv turns = Ok r -> machine_typed (mach (last r))) /\
  (forall opts total hertz uid tty ps, Ps.SearchProcess o opts total hertz uid tty = Ok ps ->
     array_of ps_typed ps).
Proof.
  intros Ho. split.
  - intros ut argv turns r Hts. unfold main, start_top. intros H. binds H. simplify_eq.
    match goal with E : mbind _ _ = Ok _ |- _ => binds E end. simplify_eq.
    match goal with E : show_processes _ _ _ _ = _ |- _ =>
      apply show_processes_typed in E; [|done|apply map_Forall_empty|apply array_nil] end.
    match goal with E : loop _ _ = _ |- _ => by apply loop_typed in E end.
  - intros opts total hertz uid tty ps. unfold Ps.SearchProcess. intros H. binds H.
    by eapply ps_search_typed; [|apply array_nil|].
Qed.

Lemma process_lists_typed_witness : exists r, demo_session = Ok r /\
  machine_typed (mach (last r)) /\ List.length (procList (mach (last r))) = 2%nat.
Proof.
  destruct demo_session as [r|] eqn:E; [|vm_compute in E; discriminate E].
  exists r. split; [reflexivity|]. split.
  - unfold demo_session in E.
    apply (proj1 (process_lists_typed (demo_os 100 80) (demo_os_typed 100 80)) _ _ _ _
             (demo_turns_typed [101; 102; 103]) E).
  - vm_compute in E. injection E as <-. reflexivity.
Defined.
