(* ===== verification/PsListing.v ===== *)
(** * [myps]: the list is complete

    On a machine whose /proc is as the kernel writes it, every directory of a
    process is read to its end: no array is too short, no division fails and no
    percentage is out of range, so that [SearchProcess] lists exactly the processes
    the options select, unless they are more than [procList] has room for. *)
From Stdlib Require Import ZArith Lia Ascii String.
From S2P Require Import Prelude CLib OsEnv LongDouble LongDoubleBounds ProcFs Ps PsTheorems TypedProc.
Import ProcFs Ps.

Local Open Scope stdpp_scope.
Local Open Scope Z_scope.

(** ** Percentages *)
Lemma percent_total x : canonical x -> exists y, percent x = Ok y.
Proof.
  intros Hc. unfold percent.
  destruct (isnan x) eqn:E1; [by eauto|]. destruct (isinf x) eqn:E2; [by eauto|].
  destruct (ld_gt x _) eqn:E3; [by eauto|]. destruct (ld_lt x _) eqn:E4; [by eauto|].
  by apply RoundDouble_below, between_below.
Qed.
Lemma cpu_total t st up hertz : hertz <> 0 ->
  exists x y, cpu_since_start t st up hertz = Ok x /\ percent x = Ok y.
Proof.
  intros Hh. unfold cpu_since_start, udiv. rewrite (proj2 (Z.eqb_neq _ _)) by done. cbn [mbind res_bind].
  match goal with |- context [Ok (ld_mul ?a ?b)] => destruct (percent_total (ld_mul a b)) as [y Hy] end;
    [apply ld_mul_canonical|]. eauto.
Qed.
Lemma status_memory_total total fp : exists m, status_memory total fp = Ok m.
Proof.
  unfold status_memory. destruct (read_rows 1024 STATUS_VSZ_ROW _ _). destruct (negb _); [eauto|].
  repeat match goal with |- context [read_rows ?a ?b ?c ?d] => destruct (read_rows a b c d) end.
  match goal with |- context [mem_share ?a ?b] => destruct (percent_total (mem_share a b)) as [y ->] end;
    [apply ld_mul_canonical|]. cbn [mbind res_bind]. eauto.
Qed.

(** ** Times *)

(** The fields of a broken-down time are in range. *)
Definition tm_ok (t : tm) : Prop := 0 <= tm_hour t < 24 /\ 0 <= tm_min t < 60 /\ 1 <= tm_mday t <= 31.

Lemma strcpy_total cap s : strlen s < cap -> exists t, strcpy cap s = Ok t.
Proof. intros H. unfold strcpy. rewrite (proj2 (Z.ltb_lt _ _)) by done. eauto. Qed.
Lemma two_digits n : 0 <= n < 100 -> strlen (fmt_0d 2 n) <= 2.
Proof.
  intros Hn. unfold fmt_0d. rewrite (proj2 (Z.ltb_ge _ _)) by lia. rewrite strlen_lpad.
  pose proof (show_u_length n 2 Hn ltac:(lia)). lia.
Qed.
Lemma month_name_length m : strlen (month_name m) <= 3.
Proof.
  unfold month_name. generalize (Z.to_nat m). intros n.
  do 13 (destruct n as [|n]; [vm_compute; discriminate|]). vm_compute. discriminate.
Qed.
Lemma start_text_total o up st hertz : hertz <> 0 -> (forall t, tm_ok (localtime_of o t)) ->
  exists s, start_text o up st hertz = Ok s.
Proof.
  intros Hh Ht. unfold start_text, udiv. rewrite (proj2 (Z.eqb_neq _ _)) by done. cbn [mbind res_bind].
  match goal with |- context [localtime_of o ?x] => destruct (Ht x) as (H1 & H2 & H3); set (tm := localtime_of o x) in * end.
  pose proof (two_digits (tm_hour tm) ltac:(lia)). pose proof (two_digits (tm_min tm) ltac:(lia)).
  pose proof (two_digits (tm_mday tm) ltac:(lia)). pose proof (month_name_length (tm_mon tm)).
  pose proof (two_digits (tm_year tm mod 100) ltac:(apply Z.mod_pos_bound; lia)).
  apply strcpy_total. unfold TIME_LEN, strftime_HM, strftime_bd, strftime_y. repeat case_match; rewrite ?strlen_app;
    change (strlen ":") with 1; change (strlen " ") with 1; lia.
Qed.
Lemma gmtime_hour t : tm_hour (gmtime t) = t mod 86400 / 3600.
Proof. unfold gmtime. destruct (split_years _ _ _) as [y d]. by destruct (split_months _ _ _). Qed.
Lemma show_two n : 0 <= n < 100 -> strlen (show n) <= 2.
Proof.
  intros Hn. unfold show. rewrite (proj2 (Z.ltb_ge _ _)) by lia. apply show_u_length; lia.
Qed.
Lemma time_text_total opts t hertz : hertz <> 0 -> exists s, time_text opts t hertz = Ok s.
Proof.
  intros Hh. unfold time_text, udiv. rewrite (proj2 (Z.eqb_neq _ _)) by done. cbn [mbind res_bind].
  set (tm := gmtime (t / hertz)).
  assert (0 <= tm_hour tm < 100 /\ 0 <= tm_min tm < 100 /\ 0 <= tm_sec tm < 100) as (H1 & H2 & H3).
  { subst tm. rewrite gmtime_hour, gmtime_min, gmtime_sec. Z.div_mod_to_equations. lia. }
  pose proof (two_digits _ H1). pose proof (two_digits _ H2). pose proof (two_digits _ H3). pose proof (show_two _ H2).
  apply strcpy_total. unfold TIME_LEN. case_match; rewrite !strlen_app; change (strlen ":") with 1; lia.
Qed.

(** ** Users and terminals *)
Definition user_ok (o : os) (uid : Z) : Prop :=
  exists name, getpwuid_name o uid = Some name /\ strlen name < UNAME_LEN.
Lemma user_name_total o uid : user_ok o uid -> exists u, user_name o uid = Ok u.
Proof.
  intros (name & Hn & Hl). unfold user_name, strcpy. rewrite Hn. cbn [mbind res_bind of_option].
  rewrite (proj2 (Z.ltb_lt _ _)) by done. cbn [mbind res_bind]. case_match; eauto.
Qed.

(** What [stat] says of the devices. *)
Definition dev_ok (o : os) : Prop := exists names, readdir_all o DEV = Some names /\
  Forall (fun d => strlen d < TTY_LEN /\ exists st, stat_of o (DEV +:+ "/" +:+ d) = Some st) names.
(** File 0 of the process: a link of a device with a short name, or no link. *)
Definition tty_ok (o : os) (path : string) : Prop :=
  access_F o (path +:+ FD__ZERO) = true -> exists link, readlink_of o (path +:+ FD__ZERO) = Some link /\
    strlen link < FNAME_LEN /\ (starts "/dev/" link = true -> strlen link < TTY_LEN + 5).

Lemma search_dev_total o nr names :
  Forall (fun d => strlen d < TTY_LEN /\ exists st, stat_of o (DEV +:+ "/" +:+ d) = Some st) names ->
  exists t, search_dev o nr names = Ok t.
Proof.
  induction 1 as [|d names [Hd [st Hs]] _ IH]; cbn [search_dev]; [eauto|].
  rewrite join_path_ok by (change (strlen DEV) with 4; unfold TTY_LEN, PATH_SIZE in *; lia).
  cbn [mbind res_bind]. rewrite Hs. cbn [mbind res_bind of_option]. destruct (st_kind st); [done| |done].
  case_match; [|done]. unfold strcpy. rewrite (proj2 (Z.ltb_lt _ _)) by done. eauto.
Qed.

Lemma fscanf_total cap old fp : strlen fp < cap -> exists w rest, fscanf_s cap old fp = Ok (w, rest).
Proof.
  intros H. unfold fscanf_s, scan_s. destruct (skip_spaces fp) as [|c t] eqn:E; [eauto|].
  destruct (span _ _) as [w rest] eqn:Es. unfold strcpy.
  assert (strlen w < cap) as Hw; [|rewrite (proj2 (Z.ltb_lt _ _)) by done; cbn [mbind res_bind]; eauto].
  pose proof (span_app (fun c => negb (isspace c)) (String c t)) as H1. rewrite Es in H1. simpl in H1.
  pose proof (span_length isspace fp) as H2. unfold skip_spaces in E. rewrite E, <- H1 in H2.
  rewrite length_sapp in H2. unfold strlen in *. lia.
Qed.
Lemma starts_length p s : starts p s = true -> (String.length p <= String.length s)%nat.
Proof.
  revert s. induction p as [|a p IH]; intros [|b s]; simpl; try done; [lia|].
  intros [_ H]%andb_prop. apply IH in H. lia.
Qed.
Lemma sdrop_length n s : String.length (sdrop n s) = (String.length s - n)%nat.
Proof. revert s. induction n as [|n IH]; intros [|c s]; simpl; [done..|by rewrite IH]. Qed.
Lemma tty_of_link_total link : (starts "/dev/" link = true -> strlen link < TTY_LEN + 5) ->
  exists t, tty_of_link link = Ok t.
Proof.
  intros H. unfold tty_of_link. destruct (starts _ _) eqn:E; [|eauto]. specialize (H eq_refl).
  apply starts_length in E. simpl in E.
  destruct (fscanf_total TTY_LEN EmptyString (sdrop 5 link)) as (w & rest & ->); [|cbn [mbind res_bind]; eauto].
  unfold strlen in *. rewrite sdrop_length. lia.
Qed.

Lemma is_word_mono c c' w : c <= c' -> is_word c w -> is_word c' w.
Proof. intros H (H1 & H2 & H3). split; [done|]. split; [done|]. lia. Qed.
Lemma stat_words_long k : task_ok k -> (MAX_TOKEN <= List.length (stat_words k))%nat.
Proof.
  intros (_ & _ & _ & _ & _ & _ & _ & _ & _ & _ & _ & Hf & _).
  unfold stat_words, MAX_TOKEN. rewrite !length_app, Hf. simpl. lia.
Qed.
Lemma GetTTY_total o path k : dev_ok o -> tty_ok o path -> task_ok k -> strlen path + 8 < PATH_SIZE ->
  fopen_r o (path +:+ STAT) = Some (unwords (stat_words k)) -> exists t, GetTTY o path = Ok t.
Proof.
  intros (names & Hn & Hd) Ht Hk Hp Hf. unfold GetTTY.
  destruct (path_file_ok path FD__ZERO Hp ltac:(done)) as [-> C1]. cbn [mbind res_bind]. rewrite C1.
  destruct (path_file_ok path STAT Hp ltac:(done)) as [_ C2]. cbn [mbind res_bind]. rewrite C2.
  cbn [mbind res_bind]. destruct (access_F o _) eqn:Ea; cbn [negb].
  - destruct (Ht Ea) as (link & -> & Hl & Hdev). cbn [mbind res_bind of_option].
    unfold require. rewrite (proj2 (Z.ltb_lt _ _)) by done. cbn [mbind res_bind].
    case_match; [eauto|]. by apply tty_of_link_total.
  - rewrite Hf. rewrite read_tokens_words.
    + cbn [mbind res_bind]. rewrite Hn. cbn [mbind res_bind of_option].
      match goal with |- context [search_dev o ?nr names] => destruct (search_dev_total o nr names Hd) as [t ->] end.
      cbn [mbind res_bind]. eauto.
    + eapply Forall_impl; [by apply stat_words_ok|]. intros w. by apply is_word_mono.
    + pose proof (stat_words_long k Hk). unfold MAX_TOKEN, STAT_TTY_NR_IDX in *. lia.
Qed.

(** ** A directory of /proc *)

(** The directory [path] is that of task [k], of user [uid]. *)
Record task_dir (o : os) (path : string) (k : task) (statusText : string) (args : list string) (uid : Z) : Prop := {
  td_task : task_ok k;
  td_args : Forall is_arg args;
  td_fits : strlen (joined args) < CMD_LEN;
  td_read : access_R o path = true;
  td_read_stat : access_R o (path +:+ STAT) = true;
  td_stat : fopen_r o (path +:+ STAT) = Some (unwords (stat_words k));
  td_owner : exists sb, stat_of o (path +:+ STAT) = Some sb /\ st_uid sb = uid;
  td_status : fopen_r o (path +:+ STATUS) = Some statusText;
  td_cmdline : fopen_r o (path +:+ CMDLINE) = Some (cmdline_of args);
  td_user : user_ok o uid;
  td_tty : tty_ok o path
}.
(** The machine: a calendar, devices with short names, user numbers that fit. *)
Record machine_ok (o : os) : Prop := {
  ma_dates : forall t, tm_ok (localtime_of o t);
  ma_dev : dev_ok o;
  ma_uids : os_typed o
}.
Definition proc_path (d : string) : string := PROC +:+ "/" +:+ d.
(** An entry of /proc: a name the file system allows; a process if it is a number. *)
Definition name_ok (o : os) (d : string) : Prop :=
  strlen d < 256 /\ exists sb, stat_of o (proc_path d) = Some sb /\
  (st_kind sb = IsDir -> is_pid d = true ->
   exists k statusText args uid, task_dir o (proc_path d) k statusText args uid).

(** Is the entry [d] a process the options select? *)
Definition is_process (o : os) (d : string) : bool :=
  match stat_of o (proc_path d) with
  | Some sb => match st_kind sb with IsDir => is_pid d | _ => false end
  | None => false
  end.
Definition is_selected (o : os) (opts : options) (g : globals) (d : string) : bool :=
  is_process o d &&
  match stat_of o (proc_path d) with
  | Some sb => match selected o opts g (proc_path d) (st_uid sb) with Ok b => b | Err _ => false end
  | None => false
  end.
(** [p] is the entry of the task whose directory is [d]. *)
Definition entry_of (o : os) (opts : options) (g : globals) (d : string) (p : myProc) : Prop :=
  exists k statusText args uid, task_dir o (proc_path d) k statusText args uid /\
    proc_of o opts g (proc_path d) uid k statusText args = Ok (Some p).

Lemma command_fits k args : task_ok k -> strlen (joined args) < CMD_LEN ->
  strcpy CMD_LEN (command_of (t_comm k) args) = Ok (command_of (t_comm k) args).
Proof.
  intros (_ & _ & _ & _ & _ & _ & _ & _ & _ & Hl & _) Ha. unfold strcpy.
  assert (strlen (command_of (t_comm k) args) < CMD_LEN) as H; [|by rewrite (proj2 (Z.ltb_lt _ _))].
  destruct args; [|done]. unfold command_of. rewrite !strlen_app. change (strlen "[") with 1.
  change (strlen "]") with 1. unfold TOKEN_LEN, CMD_LEN in *. lia.
Qed.
Lemma proc_of_total o opts g path k statusText args uid :
  machine_ok o -> hertz g <> 0 -> strlen path + 8 < PATH_SIZE -> task_dir o path k statusText args uid ->
  exists p, proc_of o opts g path uid k statusText args = Ok (Some p).
Proof.
  intros Hm Hh Hp Ht. unfold proc_of.
  destruct (user_name_total o uid (td_user _ _ _ _ _ _ Ht)) as [u ->]. cbn [mbind res_bind].
  destruct (cpu_total (t_utime k + t_stime k) (t_start k) (uptime g) (hertz g) Hh) as (x & y & -> & E).
  cbn [mbind res_bind]. rewrite E. cbn [mbind res_bind].
  destruct (status_memory_total (total_memory g) statusText) as [m ->]. cbn [mbind res_bind].
  destruct (GetTTY_total o path k (ma_dev o Hm) (td_tty _ _ _ _ _ _ Ht) (td_task _ _ _ _ _ _ Ht) Hp (td_stat _ _ _ _ _ _ Ht))
    as [tty ->]. cbn [mbind res_bind].
  destruct (start_text_total o (uptime g) (t_start k) (hertz g) Hh (ma_dates o Hm)) as [s ->]. cbn [mbind res_bind].
  destruct (time_text_total opts (t_utime k + t_stime k) (hertz g) Hh) as [tt ->]. cbn [mbind res_bind].
  rewrite command_fits by apply Ht. cbn [mbind res_bind]. eauto.
Qed.
Lemma make_proc_total o opts g path k statusText args uid :
  machine_ok o -> hertz g <> 0 -> strlen path + 8 < PATH_SIZE -> task_dir o path k statusText args uid ->
  exists p, proc_of o opts g path uid k statusText args = Ok (Some p) /\
    make_proc o opts g path = Ok (Some p) /\ ps_typed p.
Proof.
  intros Hm Hh Hp Ht. destruct (proc_of_total o opts g path k statusText args uid Hm Hh Hp Ht) as [p E].
  destruct (td_owner _ _ _ _ _ _ Ht) as (sb & Hs & Hu).
  assert (make_proc o opts g path = Ok (Some p)) as Em.
  { rewrite (make_proc_task o opts g path k sb statusText args) by apply Ht || done. by rewrite Hu. }
  exists p. split; [done|]. split; [done|]. by apply (ps_make_typed o opts g path), Em; apply Hm.
Qed.
Lemma selected_total o opts g path k statusText args uid u :
  machine_ok o -> strlen path + 8 < PATH_SIZE -> task_dir o path k statusText args uid ->
  exists b, selected o opts g path u = Ok b.
Proof.
  intros Hm Hp Ht. unfold selected. case_match; [eauto|].
  destruct (GetTTY_total o path k (ma_dev o Hm) (td_tty _ _ _ _ _ _ Ht) (td_task _ _ _ _ _ _ Ht) Hp (td_stat _ _ _ _ _ _ Ht))
    as [tty ->]. cbn [mbind res_bind]. destruct (negb (xOption opts)); cbn [mbind res_bind];
    (case_match; [eauto|]); case_match; eauto.
Qed.

(** ** The whole of /proc *)
Lemma path_short d : strlen d < 256 -> strlen (proc_path d) + 8 < PATH_SIZE.
Proof.
  intros H. unfold proc_path. rewrite !strlen_app. change (strlen PROC) with 5. change (strlen "/") with 1.
  unfold PATH_SIZE. lia.
Qed.

(** One entry: passed over, or a process appended. *)
Lemma search_loop_step o opts g d names ps0 : machine_ok o -> hertz g <> 0 -> name_ok o d ->
  search_loop o opts g (d :: names) ps0 =
    (if is_selected o opts g d then
       p ← make_proc o opts g (proc_path d);
       ps ← match p with None => Ok ps0 | Some p => push ps0 p end;
       search_loop o opts g names ps
     else search_loop o opts g names ps0) /\
  (is_selected o opts g d = true -> exists p,
     make_proc o opts g (proc_path d) = Ok (Some p) /\ entry_of o opts g d p /\ ps_typed p).
Proof.
  intros Hm Hh (Hd & sb & Hs & Hp). cbn [search_loop]. unfold is_selected, is_process.
  rewrite join_path_ok by (change (strlen PROC) with 5; unfold PATH_SIZE; lia). cbn [mbind res_bind].
  change (PROC +:+ "/" +:+ d) with (proc_path d). rewrite Hs. cbn [mbind res_bind of_option].
  destruct (st_kind sb) eqn:Ek; [|done..]. destruct (is_pid d) eqn:Ep; cbn [negb andb]; [|done].
  destruct (Hp eq_refl eq_refl) as (k & st & args & uid & Ht).
  destruct (selected_total o opts g (proc_path d) k st args uid (st_uid sb) Hm (path_short d Hd) Ht) as [b Eb].
  rewrite Eb. cbn [mbind res_bind]. destruct b; cbn [negb]; [|done]. split.
  - unfold AddProcessList. destruct (make_proc _ _ _ _) as [[p|]|]; done.
  - intros _. destruct (make_proc_total o opts g (proc_path d) k st args uid Hm Hh (path_short d Hd) Ht)
      as (p & E1 & E2 & Htp). exists p. split; [done|]. split; [|done]. by exists k, st, args, uid.
Qed.

Lemma search_loop_lists o opts g : machine_ok o -> hertz g <> 0 -> forall names, Forall (name_ok o) names ->
  forall ps0, Z.of_nat (List.length ps0) <= PROCESS_MAX ->
  let listed := List.filter (is_selected o opts g) names in
  if (Z.of_nat (List.length ps0 + List.length listed) <=? PROCESS_MAX)%c then
    exists ps, search_loop o opts g names ps0 = Ok (ps0 ++ ps) /\
      Forall2 (entry_of o opts g) listed ps /\ Forall ps_typed ps
  else search_loop o opts g names ps0 = Err OutOfBounds.
Proof.
  intros Hm Hh names. induction 1 as [|d names Hd _ IH]; intros ps0 H0 listed.
  - rewrite (proj2 (Z.leb_le _ _)) by (simpl; lia). exists []. by rewrite app_nil_r.
  - destruct (search_loop_step o opts g d names ps0 Hm Hh Hd) as [-> Hw]. subst listed. cbn [List.filter].
    destruct (is_selected o opts g d); [|by apply IH].
    destruct (Hw eq_refl) as (p & -> & He & Ht). cbn [mbind res_bind]. unfold push, require.
    destruct (Z.ltb_spec (Z.of_nat (List.length ps0)) PROCESS_MAX) as [Hl|Hl]; cbn [mbind res_bind].
    2: { rewrite (proj2 (Z.leb_gt _ _)) by (simpl; lia). done. }
    specialize (IH (ps0 ++ [p])). cbn zeta in IH. rewrite length_app in IH. cbn [List.length] in *.
    rewrite <- Nat.add_assoc in IH. specialize (IH ltac:(lia)).
    destruct (Z.of_nat _ <=? _)%c; [|done]. destruct IH as (ps & E & HF & HT).
    exists (p :: ps). rewrite E, <- app_assoc. auto using Forall2_cons, Forall_cons.
Qed.

(** With options a and x every process is selected. *)
Lemma selects_ax o opts g d : aOption opts = true -> xOption opts = true -> is_selected o opts g d = is_process o d.
Proof.
  intros Ha Hx. unfold is_selected, is_process. destruct (stat_of o _) as [sb|]; [|done].
  unfold selected. rewrite Ha, Hx. cbn. by rewrite andb_true_r.
Qed.

(** ** The property *)

(** C35: [myps] lists every process. On a machine whose /proc is as the kernel writes
    it (each directory named by a number holds the files of a task whose name has no blank,
    whose arguments are not empty and fit in CMD_LEN characters, whose user has a name shorter
    than UNAME_LEN and whose terminal a name shorter than TTY_LEN), and for any options,
    [SearchProcess] comes to its end: it finds one entry, with the fields of that task,
    for each process the options select, in the order of /proc, and each entry is of its C type
    (words in range, strings shorter than their arrays, percentages that are numbers), unless
    more than PROCESS_MAX are selected, and then it writes beyond [procList]. With options
    a and x all processes are selected. *)
Theorem process_list_complete o opts total hertz uid tty up names :
  machine_ok o -> hertz <> 0 -> GetUpTime o = Ok up -> readdir_all o PROC = Some names ->
  Forall (name_ok o) names ->
  let g := mk_globals up total hertz uid tty in
  let listed := List.filter (is_selected o opts g) names in
  (Z.of_nat (List.length listed) <= PROCESS_MAX -> exists ps,
     Ps.SearchProcess o opts total hertz uid tty = Ok ps /\
     Forall2 (entry_of o opts g) listed ps /\ Forall ps_typed ps) /\
  (PROCESS_MAX < Z.of_nat (List.length listed) ->
     Ps.SearchProcess o opts total hertz uid tty = Err OutOfBounds) /\
  (aOption opts = true -> xOption opts = true -> listed = List.filter (is_process o) names).
Proof.
  intros Hm Hh Hu Hn Hok g listed. unfold Ps.SearchProcess. rewrite Hu, Hn. cbn [mbind res_bind of_option].
  pose proof (search_loop_lists o opts g Hm Hh names Hok [] ltac:(done)) as HL. cbn zeta in HL. fold listed in HL.
  cbn [List.length plus app] in HL.
  split; [|split].
  - intros Hl. by rewrite (proj2 (Z.leb_le _ _) Hl) in HL.
  - intros Hl. by rewrite (proj2 (Z.leb_gt _ _) Hl) in HL.
  - intros Ha Hx. apply filter_ext. intros d. by apply selects_ax.
Qed.

(** A machine with one process, that of user "kim" on pts/0, and a directory that is none. *)
Definition clock_of (t : Z) : tm :=
  {| tm_sec := t mod 60; tm_min := t / 60 mod 60; tm_hour := t / 3600 mod 24; tm_mday := 1; tm_mon := 0;
     tm_year := 70; tm_yday := 0 |}.
Definition listing_os : os :=
  let o := ps_os (unwords (stat_words demo_task)) in
  mk_os (fun p => if String.eqb p UPTIME then Some ("500.25 900.00" +:+ newline) else fopen_r o p)
    (fun p => if String.eqb p PROC then Some ["acpi"; "42"] else Some ["tty"]) (stat_of o) (access_F o) (access_R o)
    (readlink_of o) (getpwuid_name o) clock_of (now o) (clk_tck o) (my_pid o) (my_uid o) (cols o).
Definition ax_listing : options := mk_options true false false false false false true.

Lemma process_list_complete_witness : exists ps,
  Ps.SearchProcess listing_os ax_listing 16000000 100 1000 "pts/0" = Ok ps /\
  Forall2 (entry_of listing_os ax_listing (mk_globals 500 16000000 100 1000 "pts/0")) ["42"] ps.
Proof.
  destruct (process_list_complete listing_os ax_listing 16000000 100 1000 "pts/0" 500 ["acpi"; "42"])
    as [(ps & E & H & _) _].
  - constructor.
    + intros t. unfold tm_ok. cbn [localtime_of listing_os clock_of tm_hour tm_min tm_mday].
      pose proof (Z.mod_pos_bound (t / 3600) 24 ltac:(lia)). pose proof (Z.mod_pos_bound (t / 60) 60 ltac:(lia)). lia.
    + exists ["tty"]. split; [reflexivity|]. repeat constructor. eexists. reflexivity.
    + intros path st [= <-]. cbn. lia.
  - lia.
  - vm_compute. reflexivity.
  - reflexivity.
  - constructor; [|constructor; [|constructor]]; (split; [vm_compute; reflexivity|]); eexists; (split; [reflexivity|]).
    + intros _ H. vm_compute in H. discriminate H.
    + intros _ _. exists demo_task, "", ["bash"; "-l"], 1000. constructor; try reflexivity.
      * repeat split; try discriminate; repeat constructor; try discriminate.
      * repeat constructor; discriminate.
      * eexists. split; reflexivity.
      * exists "kim". split; reflexivity.
      * intros _. exists "/dev/pts/0". split; [reflexivity|]. split; [reflexivity|]. intros _. vm_compute. reflexivity.
  - vm_compute. discriminate.
  - assert (List.filter (is_selected listing_os ax_listing (mk_globals 500 16000000 100 1000 "pts/0"))
              ["acpi"; "42"] = ["42"]) as Ef by (vm_compute; reflexivity).
    exists ps. split; [exact E|]. rewrite <- Ef. exact H.
Defined.
