(* ===== verification/SchedInfo.v ===== *)
(** * The CPU-time accounting of the modified kernel (src/Assignment_4)

    [stats.h] with the added [accumulated_cputime], the calls to it in
    [cfs/core.c] (enqueue_task, dequeue_task, prepare_task_switch, sched_fork)
    and the line printed for a dead task in finish_task_switch.  One run queue;
    its clock and all counters are [unsigned long long].  The names of the
    header constants are those of the kernel. *)
From Stdlib Require Import ZArith Lia.
From S2P Require Import Prelude CLib.

Local Open Scope Z_scope.

(** The two kernels of the assignment. *)
Inductive kernel := CFS | FIFO.
#[export] Instance kernel_eq_dec : EqDecision kernel.
Proof. solve_decision. Defined.

Module SchedInfo.

Inductive task_state := TASK_NEW | TASK_RUNNING | TASK_SLEEPING | TASK_DEAD.
#[export] Instance task_state_eq_dec : EqDecision task_state.
Proof. solve_decision. Defined.

Record sched_info := mk_info { pcount : Z; run_delay : Z; last_arrival : Z; last_queued : Z }.
Record task := mk_task { state : task_state; info : sched_info; accumulated_cputime : Z }.

(** The fields of [struct rq] used here. *)
Record rq := mk_rq { clock : Z; rq_pcount : Z; rq_run_delay : Z; rq_cpu_time : Z }.
Definition rq_clock (r : rq) : Z := clock r.

Definition with_info (t : task) (i : sched_info) : task := mk_task (state t) i (accumulated_cputime t).

(** ** stats.h

    [schedstats] is CONFIG_SCHEDSTATS, [sched_info_on] the header's function. *)
Section Stats.
Context (schedstats sched_info_on : bool).

Definition rq_sched_info_arrive (r : rq) (delta : Z) : rq :=
  if schedstats then mk_rq (clock r) (u64 (rq_pcount r + 1)) (u64 (rq_run_delay r + delta)) (rq_cpu_time r)
  else r.
Definition rq_sched_info_depart (r : rq) (delta : Z) : rq :=
  if schedstats then mk_rq (clock r) (rq_pcount r) (rq_run_delay r) (u64 (rq_cpu_time r + delta)) else r.
Definition rq_sched_info_dequeued (r : rq) (delta : Z) : rq :=
  if schedstats then mk_rq (clock r) (rq_pcount r) (u64 (rq_run_delay r + delta)) (rq_cpu_time r) else r.

Definition sched_info_reset_dequeued (t : task) : task :=
  with_info t (mk_info (pcount (info t)) (run_delay (info t)) (last_arrival (info t)) 0).

Definition add_run_delay (t : task) (delta : Z) : task :=
  with_info t (mk_info (pcount (info t)) (u64 (run_delay (info t) + delta)) (last_arrival (info t))
                 (last_queued (info t))).

Definition sched_info_dequeued (r : rq) (t : task) : rq * task :=
  let now := rq_clock r in
  let delta := if sched_info_on then
                 if negb (last_queued (info t) =? 0)%c then u64 (now - last_queued (info t)) else 0
               else 0 in
  let t := add_run_delay (sched_info_reset_dequeued t) delta in
  (rq_sched_info_dequeued r delta, t).

Definition sched_info_arrive (r : rq) (t : task) : rq * task :=
  let now := rq_clock r in
  let delta := if negb (last_queued (info t) =? 0)%c then u64 (now - last_queued (info t)) else 0 in
  let t := add_run_delay (sched_info_reset_dequeued t) delta in
  let t := with_info t (mk_info (u64 (pcount (info t) + 1)) (run_delay (info t)) now
                          (last_queued (info t))) in
  (rq_sched_info_arrive r delta, t).

Definition sched_info_queued (r : rq) (t : task) : task :=
  if sched_info_on then
    if (last_queued (info t) =? 0)%c
    then with_info t (mk_info (pcount (info t)) (run_delay (info t)) (last_arrival (info t)) (rq_clock r))
    else t
  else t.

Definition sched_info_depart (r : rq) (t : task) : rq * task :=
  let delta := u64 (rq_clock r - last_arrival (info t)) in
  let t := mk_task (state t) (info t) (u64 (accumulated_cputime t + delta)) in
  let r := rq_sched_info_depart r delta in
  (r, if decide (state t = TASK_RUNNING) then sched_info_queued r t else t).

(** ** The CPU: its tasks by PID, the running one, and the kernel log *)
Context (k : kernel) (idle : Z).

Record cpu := mk_cpu { the_rq : rq; tasks : gmap Z task; curr : Z; log : list (Z * Z) }.

(** [__sched_info_switch] under [sched_info_on()]; prev and next differ. *)
Definition sched_info_switch (c : cpu) (prev next : Z) : option cpu :=
  if negb sched_info_on then Some c else
  p ← tasks c !! prev;
  let '(r, ts) := if decide (prev = idle) then (the_rq c, tasks c)
                  else let '(r, p) := sched_info_depart (the_rq c) p in (r, <[prev := p]> (tasks c)) in
  n ← ts !! next;
  let '(r, ts) := if decide (next = idle) then (r, ts)
                  else let '(r, n) := sched_info_arrive r n in (r, <[next := n]> ts) in
  Some (mk_cpu r ts (curr c) (log c)).

(** The printk added to finish_task_switch (only in [cfs/core.c]). *)
Definition finish_task_switch (c : cpu) (prev : Z) : option cpu :=
  p ← tasks c !! prev;
  Some (if decide (state p = TASK_DEAD) then
          match k with
          | CFS => mk_cpu (the_rq c) (tasks c) (curr c) ((prev, accumulated_cputime p) :: log c)
          | FIFO => c
          end
        else c).

(** The part of __schedule after pick_next_task: [RCU_INIT_POINTER(rq->curr, next)],
    then context_switch (prepare_task_switch first, finish_task_switch last). *)
Definition switch_to (c : cpu) (next : Z) : option cpu :=
  let prev := curr c in
  if decide (prev = next) then Some c else
  c ← sched_info_switch c prev next;
  finish_task_switch (mk_cpu (the_rq c) (tasks c) next (log c)) prev.

(** enqueue_task and dequeue_task: [keep] is ENQUEUE_RESTORE or DEQUEUE_SAVE. *)
Definition enqueue_task (c : cpu) (pid : Z) (keep : bool) : option cpu :=
  t ← tasks c !! pid;
  Some (if keep then c
        else mk_cpu (the_rq c) (<[pid := sched_info_queued (the_rq c) t]> (tasks c)) (curr c) (log c)).
Definition dequeue_task (c : cpu) (pid : Z) (keep : bool) : option cpu :=
  t ← tasks c !! pid;
  Some (if keep then c
        else let '(r, t) := sched_info_dequeued (the_rq c) t in
             mk_cpu r (<[pid := t]> (tasks c)) (curr c) (log c)).

(** sched_fork on the copy of the current task; only [cfs/core.c] resets the
    accumulated time. *)
Definition fork_info (parent : task) : task :=
  mk_task TASK_NEW
    (if sched_info_on then mk_info 0 0 0 0 else info parent)
    (match k with CFS => 0 | FIFO => accumulated_cputime parent end).

(** ** Histories *)
Inductive event :=
  | Tick (d : Z)                       (* update_rq_clock: [d] ns have passed *)
  | Fork (pid : Z)                     (* the running task creates [pid] *)
  | SetState (pid : Z) (s : task_state)
  | Enqueue (pid : Z) (keep : bool) | Dequeue (pid : Z) (keep : bool)
  | Switch (next : Z).                 (* pick_next_task chose [next] *)

(** A history is possible when PIDs are fresh, and a dead task does not come back. *)
Definition exec (c : cpu) (e : event) : option cpu :=
  match e with
  | Tick d => 
      if decide (0 <= d) then
        Some (mk_cpu (mk_rq (u64 (clock (the_rq c) + d)) (rq_pcount (the_rq c)) (rq_run_delay (the_rq c))
                        (rq_cpu_time (the_rq c))) (tasks c) (curr c) (log c))
      else None
  | Fork pid =>
      p ← tasks c !! curr c;
      match tasks c !! pid with
      | Some _ => None
      | None => Some (mk_cpu (the_rq c) (<[pid := fork_info p]> (tasks c)) (curr c) (log c))
      end
  | SetState pid s =>
      t ← tasks c !! pid;
      if decide (state t = TASK_DEAD) then None
      else Some (mk_cpu (the_rq c) (<[pid := mk_task s (info t) (accumulated_cputime t)]> (tasks c))
                   (curr c) (log c))
  | Enqueue pid keep => enqueue_task c pid keep
  | Dequeue pid keep => dequeue_task c pid keep
  | Switch next =>
      t ← tasks c !! next;
      if decide (state t = TASK_DEAD) then None else switch_to c next
  end.

Fixpoint exec_all (c : cpu) (es : list event) : option cpu :=
  match es with
  | [] => Some c
  | e :: es => c ← exec c e; exec_all c es
  end.

(** Only the idle task. *)
Definition boot : cpu :=
  mk_cpu (mk_rq 0 0 0 0) {[idle := mk_task TASK_RUNNING (mk_info 0 0 0 0) 0]} idle [].
End Stats.

(** ** What is to be measured: the time that passed while [p] was running *)
Fixpoint ran (p running : Z) (es : list event) : Z :=
  match es with
  | [] => 0
  | Tick d :: es => (if decide (running = p) then d else 0) + ran p running es
  | Switch next :: es => ran p next es
  | _ :: es => ran p running es
  end.

End SchedInfo.
