(* ===== verification/SchedInfoTheorems.v ===== *)
(** * The printed CPU time is the CPU time (src/Assignment_4/stats.h, cfs/core.c)

    The invariant: the time credited to a task, with the stretch it is in, grows
    by exactly what passes while it runs; a line of the log keeps its value. *)
From Stdlib Require Import ZArith Lia.
From S2P Require Import Prelude CLib SchedInfo.
Import SchedInfo.

Local Open Scope Z_scope.

(** ** Arithmetic modulo [2 ^ 64] *)
Lemma u64_add_l a b : u64 (u64 a + b) = u64 (a + b).
Proof. apply Z.add_mod_idemp_l. lia. Qed.
Lemma u64_add_r a b : u64 (a + u64 b) = u64 (a + b).
Proof. apply Z.add_mod_idemp_r. lia. Qed.
Lemma u64_sub_l a b : u64 (u64 a - b) = u64 (a - b).
Proof. apply Zminus_mod_idemp_l. Qed.
Lemma u64_u64 a : u64 (u64 a) = u64 a.
Proof. apply Z.mod_mod. lia. Qed.

(** ** One task: what the operations keep *)
Section Accounting.
Context (schedstats : bool) (idle : Z).

(** An operation on a waiting task keeps its state, its time and its last arrival. *)
Definition keeps (t t' : task) : Prop :=
  state t' = state t /\ accumulated_cputime t' = accumulated_cputime t /\
  last_arrival (info t') = last_arrival (info t).

Lemma queued_keeps r t : keeps t (sched_info_queued true r t).
Proof. unfold sched_info_queued. by case_match. Qed.
Lemma dequeued_keeps r t : keeps t (sched_info_dequeued schedstats true r t).2.
Proof. by unfold sched_info_dequeued. Qed.

Lemma rq_depart_clock r d : clock (rq_sched_info_depart schedstats r d) = clock r.
Proof. unfold rq_sched_info_depart. by case_match. Qed.
Lemma rq_arrive_clock r d : clock (rq_sched_info_arrive schedstats r d) = clock r.
Proof. unfold rq_sched_info_arrive. by case_match. Qed.
Lemma rq_dequeued_clock r d : clock (rq_sched_info_dequeued schedstats r d) = clock r.
Proof. unfold rq_sched_info_dequeued. by case_match. Qed.

Lemma depart_spec r t r' t' : sched_info_depart schedstats true r t = (r', t') ->
  clock r' = clock r /\ state t' = state t /\
  accumulated_cputime t' = u64 (accumulated_cputime t + u64 (clock r - last_arrival (info t))).
Proof.
  unfold sched_info_depart, sched_info_queued. intros [= <- <-]. rewrite rq_depart_clock.
  split; [done|]. by repeat case_match.
Qed.
Lemma arrive_spec r t r' t' : sched_info_arrive schedstats r t = (r', t') ->
  clock r' = clock r /\ state t' = state t /\ accumulated_cputime t' = accumulated_cputime t /\
  last_arrival (info t') = clock r.
Proof. unfold sched_info_arrive. intros [= <- <-]. by rewrite rq_arrive_clock. Qed.

(** ** The time credited to a task, the current stretch included *)
Definition stretch (c : cpu) (p : Z) (t : task) : Z :=
  if decide (curr c = p) then clock (the_rq c) - last_arrival (info t) else 0.
Definition credit (c : cpu) (p : Z) : Z :=
  match tasks c !! p with
  | Some t => u64 (accumulated_cputime t + stretch c p t)
  | None => 0
  end.

Definition wf (c : cpu) : Prop :=
  is_Some (tasks c !! curr c) /\
  map_Forall (fun _ t => u64 (accumulated_cputime t) = accumulated_cputime t) (tasks c) /\
  Forall (fun '(p, v) => curr c <> p /\ exists t, tasks c !! p = Some t /\ state t = TASK_DEAD /\
                         accumulated_cputime t = v) (log c).

(** Replacing a task by one it [keeps]. *)
Lemma keeps_wf c p t t' r : wf c -> tasks c !! p = Some t -> keeps t t' ->
  wf (mk_cpu r (<[p := t']> (tasks c)) (curr c) (log c)).
Proof.
  intros (H1 & H2 & H3) Hp (Ks & Ka & Kl). split_and!; simpl.
  - destruct (decide (p = curr c)) as [->|]; [by rewrite lookup_insert_eq|by rewrite lookup_insert_ne].
  - apply map_Forall_insert_2; [|done]. rewrite Ka. by apply (H2 p).
  - eapply Forall_impl; [exact H3|]. intros [q v] (Hq & u & Hu & Hs & Hv). split; [done|].
    destruct (decide (p = q)) as [->|].
    + rewrite lookup_insert_eq. exists t'. simplify_eq. split_and!; congruence.
    + rewrite lookup_insert_ne by done. eauto.
Qed.
Lemma keeps_credit c p t t' r q : tasks c !! p = Some t -> keeps t t' -> clock r = clock (the_rq c) ->
  credit (mk_cpu r (<[p := t']> (tasks c)) (curr c) (log c)) q = credit c q.
Proof.
  intros Hp (Ks & Ka & Kl) Hc. unfold credit, stretch. simpl.
  destruct (decide (p = q)) as [->|]; [|rewrite lookup_insert_ne by done; by rewrite Hc].
  by rewrite lookup_insert_eq, Hp, Ka, Kl, Hc.
Qed.

(** What a context switch does to each task. *)
Definition departed (c : cpu) (prev q : Z) (t : task) : Z :=
  if decide (q = prev /\ prev <> idle)
  then u64 (accumulated_cputime t + u64 (clock (the_rq c) - last_arrival (info t)))
  else accumulated_cputime t.
Lemma switch_tasks c prev n c' : prev <> n ->
  sched_info_switch schedstats true idle c prev n = Some c' ->
  clock (the_rq c') = clock (the_rq c) /\ log c' = log c /\ is_Some (tasks c !! n) /\
  (forall q, tasks c !! q = None -> tasks c' !! q = None) /\
  (forall q t, tasks c !! q = Some t -> exists t', tasks c' !! q = Some t' /\ state t' = state t /\
     accumulated_cputime t' = departed c prev q t /\
     (q = n -> n <> idle -> last_arrival (info t') = clock (the_rq c))).
Proof.
  intros Hne. unfold sched_info_switch. cbn [negb].
  destruct (tasks c !! prev) as [tp|] eqn:Ep; cbn [mbind option_bind]; [|done].
  set (first := if decide (prev = idle) then _ else _).
  assert (clock first.1 = clock (the_rq c) /\ first.2 !! n = tasks c !! n /\
          (forall q, tasks c !! q = None -> first.2 !! q = None) /\
          (forall q t, tasks c !! q = Some t -> exists t', first.2 !! q = Some t' /\ state t' = state t /\
             accumulated_cputime t' = departed c prev q t)) as (F1 & F2 & F3 & F4).
  { unfold first, departed. case_decide as Hi; cbn [fst snd].
    - split_and!; [done..|]. intros q t Hq. exists t. by rewrite decide_False by tauto.
    - destruct (sched_info_depart schedstats true (the_rq c) tp) as [r t1] eqn:E. apply depart_spec in E as (D1 & D2 & D3). cbn [fst snd].
      split_and!; [done|by rewrite lookup_insert_ne| |].
      + intros q Hq. rewrite lookup_insert_ne by congruence. done.
      + intros q t Hq. destruct (decide (q = prev)) as [->|Hqp].
        * rewrite lookup_insert_eq. exists t1. simplify_eq. by rewrite decide_True.
        * rewrite lookup_insert_ne by done. exists t. by rewrite decide_False by tauto. }
  destruct first as [r ts]. cbn [fst snd] in *. rewrite F2.
  destruct (tasks c !! n) as [tn|] eqn:En; cbn [mbind option_bind]; [|done].
  assert (ts !! n = Some tn) as Hn by congruence.
  case_decide as Hi; [|destruct (sched_info_arrive schedstats r tn) as [r' t1] eqn:E;
                       apply arrive_spec in E as (A1 & A2 & A3 & A4)]; intros [= <-]; simpl.
  - split_and!; [done|done|eauto|done|]. intros q t Hq. destruct (F4 q t Hq) as (t' & H1 & H2 & H3).
    exists t'. split_and!; [done..|]. intros _ []. done.
  - split_and!; [congruence|done|eauto| |].
    + intros q Hq. rewrite lookup_insert_ne by congruence. auto.
    + intros q t Hq. destruct (F4 q t Hq) as (t' & H1 & H2 & H3). destruct (decide (q = n)) as [->|Hqn].
      * rewrite lookup_insert_eq. exists t1. simplify_eq. split_and!; [done|congruence|congruence|].
        intros _ _. congruence.
      * rewrite lookup_insert_ne by done. exists t'. split_and!; [done..|]. by intros ->.
Qed.

Lemma switch_wf c n c' tn : wf c -> curr c <> n -> tasks c !! n = Some tn -> state tn <> TASK_DEAD ->
  sched_info_switch schedstats true idle c (curr c) n = Some c' ->
  wf (mk_cpu (the_rq c') (tasks c') n (log c')).
Proof.
  intros (H1 & H2 & H3) Hne Hn Hd H.
  apply switch_tasks in H as (_ & Hlog & _ & S1 & S2); [|done]. split_and!; simpl.
  - destruct (S2 _ _ Hn) as (t' & -> & _). eauto.
  - intros q t' Hq. destruct (tasks c !! q) as [t|] eqn:Eq; [|by rewrite S1 in Hq by done].
    destruct (S2 q t Eq) as (t1 & Hq1 & _ & Ha & _). simplify_eq. rewrite Ha. unfold departed.
    case_decide; [apply u64_u64|]. by apply (H2 q).
  - rewrite Hlog. eapply Forall_impl; [exact H3|]. intros [q v] (Hq & t & Ht & Hs & Hv). split; [congruence|].
    destruct (S2 q t Ht) as (t' & Ht' & Hs' & Ha & _). exists t'. split_and!; [done|congruence|].
    rewrite Ha. unfold departed. rewrite decide_False; [done|]. intros [-> _]. done.
Qed.

Lemma switch_credit c n c' p : curr c <> n -> p <> idle ->
  sched_info_switch schedstats true idle c (curr c) n = Some c' ->
  credit (mk_cpu (the_rq c') (tasks c') n (log c')) p = credit c p.
Proof.
  intros Hne Hp H. apply switch_tasks in H as (Hc & _ & _ & S1 & S2); [|done].
  unfold credit. simpl. destruct (tasks c !! p) as [t|] eqn:Et; [|by rewrite S1].
  destruct (S2 p t Et) as (t' & -> & _ & Ha & Hl). rewrite Ha. unfold stretch, departed. simpl.
  destruct (decide (p = curr c)) as [->|Hpc].
  - rewrite decide_True, (decide_False (P := n = _)), decide_True by (done || congruence).
    by rewrite Z.add_0_r, u64_u64, u64_add_r.
  - rewrite decide_False by tauto. rewrite (decide_False (P := curr c = p)) by congruence.
    case_decide as Hnp; [|done]. subst n. rewrite Hl by done. rewrite Hc. f_equal. lia.
Qed.

(** finish_task_switch adds at most one line, of the task that left. *)
Lemma finish_spec c prev c' : finish_task_switch CFS c prev = Some c' -> exists t,
  tasks c !! prev = Some t /\ the_rq c' = the_rq c /\ tasks c' = tasks c /\ curr c' = curr c /\
  log c' = (if decide (state t = TASK_DEAD) then (prev, accumulated_cputime t) :: log c else log c).
Proof.
  unfold finish_task_switch. destruct (tasks c !! prev) as [t|]; cbn [mbind option_bind]; [|done].
  intros [= <-]. exists t. by case_decide.
Qed.

Lemma switch_to_step c n tn c' : wf c -> tasks c !! n = Some tn -> state tn <> TASK_DEAD ->
  switch_to schedstats true CFS idle c n = Some c' ->
  wf c' /\ curr c' = n /\ (forall p, p <> idle -> credit c' p = credit c p).
Proof.
  intros Hwf Hn Hd. unfold switch_to. case_decide as Hne; [intros [= <-]; by subst n|].
  destruct (sched_info_switch _ _ _ c (curr c) n) as [c1|] eqn:E; cbn [mbind option_bind]; [|done].
  pose proof (switch_wf c n c1 tn Hwf Hne Hn Hd E) as W.
  pose proof (fun p Hp => switch_credit c n c1 p Hne Hp E) as C.
  intros (t & Ht & Hr & Hts & Hcu & Hl)%finish_spec. simpl in *.
  assert (credit c' = credit (mk_cpu (the_rq c1) (tasks c1) n (log c1))) as Hcr.
  { unfold credit, stretch. by rewrite Hr, Hts, Hcu. }
  split_and!; [|done|intros p Hp; rewrite Hcr; by apply C].
  destruct W as (W1 & W2 & W3). unfold wf. rewrite Hts, Hcu, Hl. split_and!; [done..|]. simpl in *.
  case_decide; [|done]. constructor; [|done]. split; [congruence|eauto].
Qed.

(** ** One event *)

(** What passes for [p] in one event. *)
Definition passed (c : cpu) (e : event) (p : Z) : Z :=
  match e with Tick d => if decide (curr c = p) then d else 0 | _ => 0 end.

(** The running task, the credits and the log after an event. *)
Definition accounts (c : cpu) (e : event) (c' : cpu) : Prop :=
  wf c' /\ curr c' = (match e with Switch n => n | _ => curr c end) /\
  (forall p, p <> idle -> credit c' p = u64 (credit c p + passed c e p)).

Lemma credit_u64 c p : u64 (credit c p + 0) = credit c p.
Proof. unfold credit. rewrite Z.add_0_r. case_match; [apply u64_u64|done]. Qed.

(** Events that keep the credits. *)
Lemma accounts_same c e c' : wf c' -> curr c' = (match e with Switch n => n | _ => curr c end) ->
  (match e with Tick _ => False | _ => True end) ->
  (forall p, p <> idle -> credit c' p = credit c p) -> accounts c e c'.
Proof.
  intros W Hc He Hcr. split_and!; [done..|]. intros p Hp. rewrite Hcr by done.
  destruct e; try done; simpl; by rewrite credit_u64.
Qed.

Lemma tick_accounts c d c' : wf c -> exec schedstats true CFS idle c (Tick d) = Some c' ->
  accounts c (Tick d) c'.
Proof.
  intros Hwf. simpl. case_decide; [|done]. intros [= <-]. split_and!; [exact Hwf|done|].
  intros p Hp. unfold credit, stretch, passed. simpl. destruct (tasks c !! p) as [t|] eqn:Et.
  - case_decide; [|by rewrite !Z.add_0_r, u64_u64].
    rewrite u64_add_l, <- (u64_add_r _ (u64 _ - _)), u64_sub_l, u64_add_r. f_equal. lia.
  - case_decide; [|done]. destruct Hwf as ([t Ht] & _). congruence.
Qed.

Lemma fork_accounts c pid c' : wf c -> exec schedstats true CFS idle c (Fork pid) = Some c' ->
  accounts c (Fork pid) c'.
Proof.
  intros (W1 & W2 & W3). simpl. destruct (tasks c !! curr c) as [t|] eqn:Et; simpl; [|done].
  destruct (tasks c !! pid) eqn:Ep; [done|]. intros [= <-].
  assert (curr c <> pid) as Hcp by congruence. apply accounts_same; [|done|done|].
  - split_and!; simpl.
    + by rewrite lookup_insert_ne.
    + by apply map_Forall_insert_2.
    + eapply Forall_impl; [exact W3|]. intros [q v] (Hq & u & Hu & Hs & Hv). split; [done|].
      rewrite lookup_insert_ne by congruence. eauto.
  - intros p Hp. unfold credit, stretch. simpl. destruct (decide (p = pid)) as [->|].
    + rewrite lookup_insert_eq, Ep, decide_False by done. done.
    + by rewrite lookup_insert_ne.
Qed.

Lemma set_state_accounts c pid st c' : wf c ->
  exec schedstats true CFS idle c (SetState pid st) = Some c' -> accounts c (SetState pid st) c'.
Proof.
  intros (W1 & W2 & W3). simpl. destruct (tasks c !! pid) as [t|] eqn:Et; simpl; [|done].
  case_decide as Hd; [done|]. intros [= <-]. apply accounts_same; [|done|done|].
  - split_and!; simpl.
    + destruct (decide (pid = curr c)) as [->|]; [by rewrite lookup_insert_eq|by rewrite lookup_insert_ne].
    + apply map_Forall_insert_2; [exact (W2 pid t Et)|done].
    + eapply Forall_impl; [exact W3|]. intros [q v] (Hq & u & Hu & Hs & Hv). split; [done|].
      rewrite lookup_insert_ne by congruence. eauto.
  - intros p Hp. unfold credit, stretch. simpl. destruct (decide (pid = p)) as [->|].
    + by rewrite lookup_insert_eq, Et.
    + by rewrite lookup_insert_ne.
Qed.

Lemma queue_accounts c pid t t' r e : wf c -> tasks c !! pid = Some t -> keeps t t' ->
  clock r = clock (the_rq c) -> (match e with Enqueue _ _ | Dequeue _ _ => True | _ => False end) ->
  accounts c e (mk_cpu r (<[pid := t']> (tasks c)) (curr c) (log c)).
Proof.
  intros Hwf Ht K Hc He.
  apply accounts_same; [by eapply keeps_wf|by destruct e|by destruct e|].
  intros p _. by eapply keeps_credit.
Qed.

Lemma exec_step c e c' : wf c -> exec schedstats true CFS idle c e = Some c' -> accounts c e c'.
Proof.
  intros Hwf. destruct e as [d|pid|pid st|pid keep|pid keep|n]; intros H.
  - by apply tick_accounts.
  - by apply fork_accounts.
  - by apply set_state_accounts.
  - simpl in H. unfold enqueue_task in H. destruct (tasks c !! pid) as [t|] eqn:Et; simpl in H; [|done].
    destruct keep; simplify_eq; [by apply accounts_same|].
    by apply (queue_accounts c pid t); [| |apply queued_keeps| |].
  - simpl in H. unfold dequeue_task in H.
    destruct (tasks c !! pid) as [t|] eqn:Et; cbn [mbind option_bind] in H; [|done].
    destruct keep; [simplify_eq; by apply accounts_same|]. simplify_eq.
    apply (queue_accounts c pid t); [done|done|apply dequeued_keeps|apply rq_dequeued_clock|done].
  - simpl in H. destruct (tasks c !! n) as [t|] eqn:Et; simpl in H; [|done]. case_decide as Hd; [done|].
    eapply switch_to_step in H as (W & Hc & Hcr); [|done..]. by apply accounts_same.
Qed.

(** ** A whole history *)
Lemma exec_all_credit es : forall c c', wf c -> exec_all schedstats true CFS idle c es = Some c' ->
  wf c' /\ (forall p, p <> idle -> u64 (credit c' p) = u64 (credit c p + ran p (curr c) es)).
Proof.
  induction es as [|e es IH]; intros c c' Hwf H; cbn [exec_all] in H.
  - simplify_eq. split; [done|]. intros p _. simpl. by rewrite Z.add_0_r.
  - destruct (exec _ _ _ _ c e) as [c1|] eqn:E; cbn [mbind option_bind] in H; [|done].
    apply exec_step in E as (W1 & Hc & Hcr); [|done]. apply IH in H as (W' & Hr); [|done].
    split; [done|]. intros p Hp. rewrite Hr, Hcr, u64_add_l by done.
    destruct e; rewrite Hc; unfold passed; simpl; f_equal; lia.
Qed.

Lemma boot_wf : wf (boot idle).
Proof.
  unfold wf, boot. simpl. split_and!; [by rewrite lookup_singleton_eq|by apply map_Forall_singleton|done].
Qed.
End Accounting.

(** C13: The accounting added to the kernel is exact. In any history of a run queue
    with the statistics on, the accumulated time of a task that is not running
    is the time (in ns, modulo 2^64) that passed while it was running, and the
    line printed when a task has died shows the time of its whole life. *)
Theorem burst_time_exact schedstats idle es c :
  exec_all schedstats true CFS idle (boot idle) es = Some c ->
  (forall p t, p <> idle -> curr c <> p -> tasks c !! p = Some t ->
     accumulated_cputime t = u64 (ran p idle es)) /\
  (forall p v, p <> idle -> (p, v) ∈ log c -> v = u64 (ran p idle es)).
Proof.
  intros H. apply exec_all_credit in H as ((W1 & W2 & W3) & Hc); [|apply boot_wf].
  assert (forall p t, p <> idle -> curr c <> p -> tasks c !! p = Some t ->
            accumulated_cputime t = u64 (ran p idle es)) as Hmain.
  { intros p t Hp Hcu Ht. specialize (Hc p Hp). unfold credit, stretch in Hc. rewrite Ht in Hc.
    rewrite decide_False, Z.add_0_r, u64_u64 in Hc by done. unfold boot in Hc. simpl in Hc.
    rewrite lookup_singleton_ne in Hc by congruence. rewrite (W2 p t Ht) in Hc. exact Hc. }
  split; [done|]. intros p v Hp Hin. rewrite Forall_forall in W3.
  destruct (W3 (p, v) Hin) as (Hcu & t & Ht & _ & <-). by apply Hmain.
Qed.

(** Two processes share the CPU; the first dies after 5 + 3 ns. *)
Definition demo_history : list event :=
  [Fork 7; SetState 7 TASK_RUNNING; Fork 8; SetState 8 TASK_RUNNING; Tick 2; Switch 7; Tick 5;
   Switch 8; Tick 4; Switch 7; Tick 3; SetState 7 TASK_DEAD; Switch 8; Tick 1].
Lemma burst_time_exact_witness : exists c,
  exec_all true true CFS 0 (boot 0) demo_history = Some c /\ log c = [(7, 8)] /\ 8 = u64 (ran 7 0 demo_history).
Proof.
  destruct (exec_all true true CFS 0 (boot 0) demo_history) as [c|] eqn:E; [|vm_compute in E; discriminate E].
  assert (log c = [(7, 8)]) as Hl by (vm_compute in E; injection E as <-; reflexivity).
  exists c. split; [reflexivity|]. split; [exact Hl|].
  apply (proj2 (burst_time_exact true 0 demo_history c E)); [lia|]. rewrite Hl. apply list_elem_of_here.
Defined.

(** Without the statistics ([sched_info_on()] false) nothing is ever accumulated. *)
Example burst_time_off : exists c,
  exec_all true false CFS 0 (boot 0) demo_history = Some c /\ log c = [(7, 0)].
Proof. eexists. split; [vm_compute; reflexivity|reflexivity]. Qed.
