(* ===== verification/SchedClass.v ===== *)
(** * Priorities and policies in the two kernels (src/Assignment_4)

    The functions of [core.c] that decide a task's policy, priority, class and
    weight, for the kernel with the printed CPU time ([CFS]) and the one that
    runs normal tasks as SCHED_FIFO ([FIFO]).  The run queue is left out here (see
    RunQueue):
    dequeuing before and enqueuing after a change does not touch these fields.
    One caller at a time, so a policy read twice under the locks is the same. *)
From Stdlib Require Import ZArith Lia.
From S2P Require Import Prelude CLib SchedInfo.

Local Open Scope Z_scope.

(** ** What the kernel headers provide *)
Class headers := mk_headers {
  MAX_DL_PRIO : Z; MAX_RT_PRIO : Z; MAX_USER_RT_PRIO : Z;
  MIN_NICE : Z; MAX_NICE : Z; NICE_WIDTH : Z;
  NICE_TO_PRIO : Z -> Z; PRIO_TO_NICE : Z -> Z; nice_to_rlimit : Z -> Z;
  dl_prio : Z -> bool; rt_prio : Z -> bool;
  SCHED_NORMAL : Z; SCHED_FIFO : Z; SCHED_RR : Z; SCHED_BATCH : Z; SCHED_IDLE : Z;
  SCHED_DEADLINE : Z; SCHED_RESET_ON_FORK : Z;
  idle_policy : Z -> bool; fair_policy : Z -> bool; rt_policy : Z -> bool; dl_policy : Z -> bool;
  SCHED_FLAG_RESET_ON_FORK : Z; SCHED_FLAG_KEEP_PARAMS : Z; SCHED_FLAG_UTIL_CLAMP : Z;
  SCHED_FLAG_SUGOV : Z; SCHED_FLAG_ALL : Z;
  scale_load : Z -> Z; WEIGHT_IDLEPRIO : Z; WMULT_IDLEPRIO : Z
}.

(** What is documented of them (include/linux/sched/prio.h, include/uapi/linux/sched.h,
    kernel/sched/sched.h). *)
Class headers_ok (h : headers) : Prop := {
  dl_prio_def p : dl_prio p = (p <? MAX_DL_PRIO)%c;
  rt_prio_def p : rt_prio p = (p <? MAX_RT_PRIO)%c;
  prio_values : MAX_DL_PRIO = 0 /\ MAX_RT_PRIO = 100 /\ MAX_USER_RT_PRIO = 100;
  nice_values : MIN_NICE = -20 /\ MAX_NICE = 19 /\ NICE_WIDTH = 40;
  nice_prio n : NICE_TO_PRIO n = n + 120;
  prio_nice p : PRIO_TO_NICE p = p - 120;
  nice_rlimit n : nice_to_rlimit n = 20 - n;
  idle_policy_def p : idle_policy p = (p =? SCHED_IDLE)%c;
  fair_policy_def p : fair_policy p = ((p =? SCHED_NORMAL)%c || (p =? SCHED_BATCH)%c)%bool;
  rt_policy_def p : rt_policy p = ((p =? SCHED_FIFO)%c || (p =? SCHED_RR)%c)%bool;
  dl_policy_def p : dl_policy p = (p =? SCHED_DEADLINE)%c;
  normal_zero : SCHED_NORMAL = 0;
  policies_distinct :
    NoDup [SCHED_NORMAL; SCHED_FIFO; SCHED_RR; SCHED_BATCH; SCHED_IDLE; SCHED_DEADLINE];
  policies_small : Forall (fun p => 0 <= p < SCHED_RESET_ON_FORK)
    [SCHED_NORMAL; SCHED_FIFO; SCHED_RR; SCHED_BATCH; SCHED_IDLE; SCHED_DEADLINE];
  reset_bit : SCHED_RESET_ON_FORK = 2 ^ 30;
  flag_bits : Z.land SCHED_FLAG_RESET_ON_FORK SCHED_FLAG_KEEP_PARAMS = 0 /\
    Z.land SCHED_FLAG_ALL SCHED_FLAG_RESET_ON_FORK = SCHED_FLAG_RESET_ON_FORK
}.

(** Linux 5.11 on x86-64. *)
Definition linux : headers :=
  mk_headers 0 100 100 (-20) 19 40
    (fun n => n + 120) (fun p => p - 120) (fun n => 20 - n)
    (fun p => p <? 0)%c (fun p => p <? 100)%c
    0 1 2 3 5 6 1073741824
    (fun p => p =? 5)%c (fun p => (p =? 0)%c || (p =? 3)%c)%bool
    (fun p => (p =? 1)%c || (p =? 2)%c)%bool (fun p => p =? 6)%c
    1 16 96 268435456 127
    (fun w => Z.shiftl w 10) 3 1431655765.
#[export] Instance linux_ok : headers_ok linux.
Proof.
  split; simpl; intros; try reflexivity; try lia.
  - by apply (bool_decide_unpack (NoDup [0; 1; 2; 3; 5; 6])).
  - repeat constructor; lia.
  - done.
Qed.

Module SchedClass.
Section Model.
Context `{h : headers}.

Inductive sched_class := dl_sched_class | rt_sched_class | fair_sched_class.
#[export] Instance sched_class_eq_dec : EqDecision sched_class.
Proof. solve_decision. Defined.

Record load_weight := mk_load { weight : Z; inv_weight : Z }.

(** The fields of [struct task_struct] used here.  [pi_top] is the priority of
    the waiter rt_mutex_get_top_task finds. *)
Record task := mk_task {
  policy : Z; prio : Z; normal_prio_ : Z; static_prio : Z; rt_priority : Z;
  reset_on_fork : bool; class : sched_class; load : load_weight;
  has_mm : bool; pi_top : option Z
}.
Definition set_policy (p : task) v := mk_task v (prio p) (normal_prio_ p) (static_prio p) (rt_priority p) (reset_on_fork p) (class p) (load p) (has_mm p) (pi_top p).
Definition set_prio (p : task) v := mk_task (policy p) v (normal_prio_ p) (static_prio p) (rt_priority p) (reset_on_fork p) (class p) (load p) (has_mm p) (pi_top p).
Definition set_normal_prio (p : task) v := mk_task (policy p) (prio p) v (static_prio p) (rt_priority p) (reset_on_fork p) (class p) (load p) (has_mm p) (pi_top p).
Definition set_static_prio (p : task) v := mk_task (policy p) (prio p) (normal_prio_ p) v (rt_priority p) (reset_on_fork p) (class p) (load p) (has_mm p) (pi_top p).
Definition set_rt_priority (p : task) v := mk_task (policy p) (prio p) (normal_prio_ p) (static_prio p) v (reset_on_fork p) (class p) (load p) (has_mm p) (pi_top p).
Definition set_reset (p : task) v := mk_task (policy p) (prio p) (normal_prio_ p) (static_prio p) (rt_priority p) v (class p) (load p) (has_mm p) (pi_top p).
Definition set_class (p : task) v := mk_task (policy p) (prio p) (normal_prio_ p) (static_prio p) (rt_priority p) (reset_on_fork p) v (load p) (has_mm p) (pi_top p).
Definition set_load (p : task) v := mk_task (policy p) (prio p) (normal_prio_ p) (static_prio p) (rt_priority p) (reset_on_fork p) (class p) v (has_mm p) (pi_top p).
Definition no_waiter (p : task) := mk_task (policy p) (prio p) (normal_prio_ p) (static_prio p) (rt_priority p) (reset_on_fork p) (class p) (load p) (has_mm p) None.

Definition task_has_dl_policy (p : task) : bool := dl_policy (policy p).
Definition task_has_rt_policy (p : task) : bool := rt_policy (policy p).
Definition task_has_idle_policy (p : task) : bool := idle_policy (policy p).
Definition task_nice (p : task) : Z := PRIO_TO_NICE (static_prio p).

(** ** The weight tables *)
Definition sched_prio_to_weight : list Z :=
  [88761; 71755; 56483; 46273; 36291; 29154; 23254; 18705; 14949; 11916;
   9548; 7620; 6100; 4904; 3906; 3121; 2501; 1991; 1586; 1277;
   1024; 820; 655; 526; 423; 335; 272; 215; 172; 137;
   110; 87; 70; 56; 45; 36; 29; 23; 18; 15].
Definition sched_prio_to_wmult : list Z :=
  [48388; 59856; 76040; 92818; 118348; 147320; 184698; 229616; 287308; 360437;
   449829; 563644; 704093; 875809; 1099582; 1376151; 1717300; 2157191; 2708050; 3363326;
   4194304; 5237765; 6557202; 8165337; 10153587; 12820798; 15790321; 19976592; 24970740; 31350126;
   39045157; 49367440; 61356676; 76695844; 95443717; 119304647; 148102320; 186737708; 238609294; 286331153].

(** For a queued task of the fair class the update goes through reweight_task
    of fair.c, [reweight] here. *)
Context (reweight : Z -> res load_weight).

Definition set_load_weight (p : task) (update_load : bool) : res task :=
  let prio := static_prio p - MAX_RT_PRIO in
  if task_has_idle_policy p then Ok (set_load p (mk_load (scale_load WEIGHT_IDLEPRIO) WMULT_IDLEPRIO))
  else if (update_load && bool_decide (class p = fair_sched_class))%bool then
    l ← reweight prio; Ok (set_load p l)
  else
    w ← aget sched_prio_to_weight prio;
    v ← aget sched_prio_to_wmult prio;
    Ok (set_load p (mk_load (scale_load w) v)).

(** ** Priorities *)
Definition __normal_prio (p : task) : Z := static_prio p.
Definition normal_prio (p : task) : Z :=
  if task_has_dl_policy p then MAX_DL_PRIO - 1
  else if task_has_rt_policy p then MAX_RT_PRIO - 1 - rt_priority p
  else __normal_prio p.

(** The task with its new [normal_prio], and the priority returned. *)
Definition effective_prio (p : task) : task * Z :=
  let p := set_normal_prio p (normal_prio p) in
  (p, if negb (rt_prio (prio p)) then normal_prio_ p else prio p).

Definition rt_effective_prio (p : task) (v : Z) : Z :=
  match pi_top p with Some q => Z.min v q | None => v end.

Definition class_of (v : Z) : sched_class :=
  if dl_prio v then dl_sched_class else if rt_prio v then rt_sched_class else fair_sched_class.

(** ** sched_fork *)
Definition EAGAIN : Z := 11.
Definition EPERM : Z := 1.
Definition EINVAL : Z := 22.
Definition EBUSY : Z := 16.

(** The priority of the new task: [p->prio = current->normal_prio], or, in
    [fifo/core.c], SCHED_FIFO for a normal task. *)
Definition fork_prio (k : kernel) (current p : task) : task :=
  match k with
  | CFS => set_prio p (normal_prio_ current)
  | FIFO =>
      if (policy p =? SCHED_NORMAL)%c then
        let p := set_prio p (MAX_RT_PRIO / 2) in
        let p := set_normal_prio p (prio p) in
        let p := set_rt_priority p (prio p) in
        set_policy p SCHED_FIFO
      else p
  end.

(** [if (unlikely(p->sched_reset_on_fork))] *)
Definition fork_reset (p : task) : res task :=
  if reset_on_fork p then
    let p := if (task_has_dl_policy p || task_has_rt_policy p)%bool then
               set_rt_priority (set_static_prio (set_policy p SCHED_NORMAL) (NICE_TO_PRIO 0)) 0
             else if (PRIO_TO_NICE (static_prio p) <? 0)%c then set_static_prio p (NICE_TO_PRIO 0)
             else p in
    let p := set_normal_prio p (__normal_prio p) in
    let p := set_prio p (normal_prio_ p) in
    p ← set_load_weight p false;
    Ok (set_reset p false)
  else Ok p.

(** [p] starts as a copy of the current task without waiters. *)
Definition sched_fork (k : kernel) (current : task) : res (Z * task) :=
  let p := fork_prio k current (no_waiter current) in
  p ← fork_reset p;
  if dl_prio (prio p) then Ok (- EAGAIN, p)
  else if rt_prio (prio p) then Ok (0, set_class p rt_sched_class)
  else Ok (0, set_class p fair_sched_class).

(** ** nice *)

(** Who asks, and what the hooks outside [core.c] answer. *)
Record env := mk_env {
  capable_sys_nice : bool; rlimit_nice : Z; rlimit_rtprio : Z;
  euid : Z; p_euid : Z; p_uid : Z;
  security_task_setnice : Z; security_task_setscheduler : Z; uclamp_validate : Z;
  checkparam_dl : bool; is_stop : bool; dl_param_changed : bool;
  rt_group_denies : bool; dl_span_denies : bool; sched_dl_overflow : bool
}.

Definition set_user_nice (p : task) (nice : Z) : res task :=
  if ((task_nice p =? nice)%c || (nice <? MIN_NICE)%c || (MAX_NICE <? nice)%c)%bool then Ok p
  else if (task_has_dl_policy p || task_has_rt_policy p)%bool then
    Ok (set_static_prio p (NICE_TO_PRIO nice))
  else
    let p := set_static_prio p (NICE_TO_PRIO nice) in
    p ← set_load_weight p true;
    let '(p, v) := effective_prio p in
    Ok (set_prio p v).

Definition can_nice (e : env) (nice : Z) : bool :=
  ((nice_to_rlimit nice <=? rlimit_nice e)%c || capable_sys_nice e)%bool.

Definition clamp (v lo hi : Z) : Z := Z.max lo (Z.min hi v).

Definition sys_nice (e : env) (increment : Z) (current : task) : res (Z * task) :=
  let increment := clamp increment (- NICE_WIDTH) NICE_WIDTH in
  let nice := clamp (task_nice current + increment) MIN_NICE MAX_NICE in
  if ((increment <? 0)%c && negb (can_nice e nice))%bool then Ok (- EPERM, current)
  else if negb (security_task_setnice e =? 0)%c then Ok (security_task_setnice e, current)
  else p ← set_user_nice current nice; Ok (0, p).

(** The priority /proc shows. *)
Definition task_prio (p : task) : Z := prio p - MAX_RT_PRIO.

(** ** sched_setscheduler *)
Definition SETPARAM_POLICY : Z := -1.
(** [sched_policy] and [sched_priority] are [u32], [sched_nice] is [s32]. *)
Record sched_attr := mk_attr {
  sched_policy : Z; sched_flags : Z; sched_nice : Z; sched_priority : Z
}.
Definition flag (attr : sched_attr) (f : Z) : bool := negb (Z.land (sched_flags attr) f =? 0)%c.

Definition valid_policy (v : Z) : bool :=
  (idle_policy v || fair_policy v || rt_policy v || dl_policy v)%bool.

Definition __setscheduler_params (p : task) (attr : sched_attr) : res task :=
  let pol := s32 (sched_policy attr) in
  let pol := if (pol =? SETPARAM_POLICY)%c then policy p else pol in
  let p := set_policy p pol in
  let p := if dl_policy pol then p
           else if fair_policy pol then set_static_prio p (NICE_TO_PRIO (sched_nice attr)) else p in
  let p := set_rt_priority p (sched_priority attr) in
  let p := set_normal_prio p (normal_prio p) in
  set_load_weight p true.

Definition __setscheduler (p : task) (attr : sched_attr) (keep_boost : bool) : res task :=
  if flag attr SCHED_FLAG_KEEP_PARAMS then Ok p else
  p ← __setscheduler_params p attr;
  let p := set_prio p (normal_prio p) in
  let p := if keep_boost then set_prio p (rt_effective_prio p (prio p)) else p in
  Ok (set_class p (class_of (prio p))).

Definition check_same_owner (e : env) : bool := ((euid e =? p_euid e)%c || (euid e =? p_uid e)%c)%bool.

(** The permissions of a caller without CAP_SYS_NICE. *)
Definition may_set (e : env) (p : task) (attr : sched_attr) (pol : Z) (reset : bool) : bool :=
  if (fair_policy pol && (sched_nice attr <? task_nice p)%c && negb (can_nice e (sched_nice attr)))%bool
  then false
  else if (rt_policy pol && negb (pol =? policy p)%c && (rlimit_rtprio e =? 0)%c)%bool then false
  else if (rt_policy pol && (rt_priority p <? sched_priority attr)%c &&
           (rlimit_rtprio e <? sched_priority attr)%c)%bool then false
  else if dl_policy pol then false
  else if (task_has_idle_policy p && negb (idle_policy pol) && negb (can_nice e (task_nice p)))%bool
  then false
  else if negb (check_same_owner e) then false
  else negb (reset_on_fork p && negb reset).

(** The checks before the run queue is locked: 0 or a negative error. *)
Definition setscheduler_checks (e : env) (p : task) (attr : sched_attr) (user : bool)
    (pol : Z) (reset : bool) : Z :=
  if ((0 <=? s32 (sched_policy attr))%c && negb (valid_policy pol))%bool then - EINVAL
  else if flag attr (Z.lnot (Z.lor SCHED_FLAG_ALL SCHED_FLAG_SUGOV)) then - EINVAL
  else if ((has_mm p && (MAX_USER_RT_PRIO - 1 <? sched_priority attr)%c) ||
           (negb (has_mm p) && (MAX_RT_PRIO - 1 <? sched_priority attr)%c))%bool then - EINVAL
  else if ((dl_policy pol && negb (checkparam_dl e)) ||
           negb (Bool.eqb (rt_policy pol) (negb (sched_priority attr =? 0)%c)))%bool then - EINVAL
  else if (user && negb (capable_sys_nice e) && negb (may_set e p attr pol reset))%bool then - EPERM
  else if (user && flag attr SCHED_FLAG_SUGOV)%bool then - EINVAL
  else if (user && negb (security_task_setscheduler e =? 0)%c)%bool then security_task_setscheduler e
  else if (flag attr SCHED_FLAG_UTIL_CLAMP && negb (uclamp_validate e =? 0)%c)%bool then uclamp_validate e
  else 0.

(** Is there something to change? *)
Definition changes (e : env) (p : task) (attr : sched_attr) (pol : Z) : bool :=
  (negb (pol =? policy p)%c ||
   (fair_policy pol && negb (sched_nice attr =? task_nice p)%c) ||
   (rt_policy pol && negb (sched_priority attr =? rt_priority p)%c) ||
   (dl_policy pol && dl_param_changed e) || flag attr SCHED_FLAG_UTIL_CLAMP)%bool.

(** [pi] is true in every call. *)
Definition __sched_setscheduler (e : env) (p : task) (attr : sched_attr) (user : bool)
  : res (Z * task) :=
  let pol := s32 (sched_policy attr) in
  let '(pol, reset) := if (pol <? 0)%c then (policy p, reset_on_fork p)
                       else (pol, flag attr SCHED_FLAG_RESET_ON_FORK) in
  let retval := setscheduler_checks e p attr user pol reset in
  if negb (retval =? 0)%c then Ok (retval, p)
  else if is_stop e then Ok (- EINVAL, p)
  else if negb (changes e p attr pol) then Ok (0, set_reset p reset)
  else if (user && ((rt_policy pol && rt_group_denies e) ||
                    (dl_policy pol && negb (flag attr SCHED_FLAG_SUGOV) && dl_span_denies e)))%bool
  then Ok (- EPERM, p)
  else if ((dl_policy pol || dl_prio (prio p)) && sched_dl_overflow e)%bool then Ok (- EBUSY, p)
  else p ← __setscheduler (set_reset p reset) attr true; Ok (0, p).

(** The attributes; [fifo/core.c] turns SCHED_NORMAL into SCHED_FIFO first. *)
Definition setscheduler_attr (k : kernel) (p : task) (pol param_priority : Z) : sched_attr :=
  let attr := mk_attr (u32 pol) 0 (PRIO_TO_NICE (static_prio p)) (u32 param_priority) in
  let attr := match k with
              | CFS => attr
              | FIFO => if (sched_policy attr =? SCHED_NORMAL)%c
                        then mk_attr SCHED_FIFO (sched_flags attr) (sched_nice attr) (MAX_RT_PRIO / 2)
                        else attr
              end in
  if (negb (pol =? SETPARAM_POLICY)%c && negb (Z.land pol SCHED_RESET_ON_FORK =? 0)%c)%bool
  then mk_attr (u32 (Z.land pol (Z.lnot SCHED_RESET_ON_FORK)))
         (Z.lor (sched_flags attr) SCHED_FLAG_RESET_ON_FORK) (sched_nice attr) (sched_priority attr)
  else attr.

Definition _sched_setscheduler (k : kernel) (e : env) (p : task) (pol param_priority : Z) (check : bool)
  : res (Z * task) :=
  __sched_setscheduler e p (setscheduler_attr k p pol param_priority) check.

Definition sched_setscheduler (k : kernel) (e : env) (p : task) (pol param_priority : Z) :=
  _sched_setscheduler k e p pol param_priority true.
Definition sched_setscheduler_nocheck (k : kernel) (e : env) (p : task) (pol param_priority : Z) :=
  _sched_setscheduler k e p pol param_priority false.
Definition sched_setattr (e : env) (p : task) (attr : sched_attr) := __sched_setscheduler e p attr true.
Definition sched_setattr_nocheck (e : env) (p : task) (attr : sched_attr) :=
  __sched_setscheduler e p attr false.
Definition sched_set_fifo (k : kernel) (e : env) (p : task) :=
  sched_setscheduler_nocheck k e p SCHED_FIFO (MAX_RT_PRIO / 2).
Definition sched_set_fifo_low (k : kernel) (e : env) (p : task) :=
  sched_setscheduler_nocheck k e p SCHED_FIFO 1.
Definition sched_set_normal (e : env) (p : task) (nice : Z) :=
  sched_setattr_nocheck e p (mk_attr SCHED_NORMAL 0 nice 0).

End Model.
End SchedClass.
