(* ===== verification/SchedClassTheorems.v ===== *)
(** * Priorities and policies: theorems (src/Assignment_4)

    A consistent task ([task_ok]) and the operations that keep it so, for any
    [headers] with the documented values; fork, sched_setscheduler and nice in
    the two kernels; witnesses in Linux 5.11. *)
From Stdlib Require Import ZArith Lia.
From S2P Require Import Prelude CLib SchedInfo SchedClass.
Import SchedClass.

Local Open Scope Z_scope.

(** ** The tables *)

(** Every step of the nice value costs between 1/6 and 1/4 of the weight, and the
    second table holds the inverses of the first, to within 1. *)
Example weight_table :
  forallb (fun '(a, b) => (b * 12 <=? a * 10)%c && (a * 10 <=? b * 13)%c)%bool
    (combine sched_prio_to_weight (List.tl sched_prio_to_weight)) = true.
Proof. vm_compute. reflexivity. Qed.
Example wmult_table :
  forallb (fun '(w, v) => (Z.abs (w * v - 2 ^ 32) <? w)%c)
    (combine sched_prio_to_weight sched_prio_to_wmult) = true.
Proof. vm_compute. reflexivity. Qed.

Section Theorems.
Context {h : headers} {hok : headers_ok h}.
Context (reweight : Z -> res load_weight).
(** reweight_task installs the weight of the tables. *)
Hypothesis reweight_table : forall i, reweight i =
  (w ← aget sched_prio_to_weight i; v ← aget sched_prio_to_wmult i; Ok (mk_load (scale_load w) v)).

(** Use the values of the headers. *)
Ltac headers_values :=
  destruct prio_values as (?Hdl & ?Hrt & ?Hurt); destruct nice_values as (?Hmin & ?Hmax & ?Hwidth).

(** ** A consistent task *)
Definition task_ok (p : task) : Prop :=
  100 <= static_prio p < 140 /\
  (if rt_policy (policy p) then 1 <= rt_priority p <= 99 else rt_priority p = 0) /\
  normal_prio_ p = normal_prio p /\
  (pi_top p = None -> prio p = normal_prio_ p) /\
  class p = class_of (prio p).

Lemma policy_cases : SCHED_NORMAL <> SCHED_FIFO /\ SCHED_NORMAL <> SCHED_RR /\
  SCHED_NORMAL <> SCHED_DEADLINE /\ SCHED_FIFO <> SCHED_DEADLINE /\ SCHED_RR <> SCHED_DEADLINE /\
  SCHED_NORMAL <> SCHED_IDLE /\ SCHED_FIFO <> SCHED_IDLE /\ SCHED_FIFO <> SCHED_BATCH.
Proof.
  pose proof policies_distinct as Hd. rewrite !NoDup_cons, !elem_of_cons in Hd.
  intuition (subst; try tauto; congruence).
Qed.

Lemma normal_policy : rt_policy SCHED_NORMAL = false /\ dl_policy SCHED_NORMAL = false /\
  fair_policy SCHED_NORMAL = true.
Proof.
  destruct policy_cases as (H1 & H2 & H3 & _).
  rewrite rt_policy_def, dl_policy_def, fair_policy_def, Z.eqb_refl.
  rewrite (proj2 (Z.eqb_neq _ _) H1), (proj2 (Z.eqb_neq _ _) H2), (proj2 (Z.eqb_neq _ _) H3). done.
Qed.
Lemma fifo_policy : rt_policy SCHED_FIFO = true /\ dl_policy SCHED_FIFO = false /\
  idle_policy SCHED_FIFO = false /\ fair_policy SCHED_FIFO = false.
Proof.
  destruct policy_cases as (H1 & H2 & H3 & H4 & H5 & H6 & H7 & H8).
  rewrite rt_policy_def, dl_policy_def, idle_policy_def, fair_policy_def, Z.eqb_refl.
  rewrite (proj2 (Z.eqb_neq _ _) H4), (proj2 (Z.eqb_neq _ _) H7), (proj2 (Z.eqb_neq _ _) H8),
    (proj2 (Z.eqb_neq _ _) (not_eq_sym H1)). done.
Qed.

(** ** Weights *)
Lemma aget_range {A} (l : list A) i : 0 <= i < Z.of_nat (List.length l) -> exists x, aget l i = Ok x.
Proof.
  intros Hi. unfold aget. rewrite (proj2 (Z.leb_le 0 i)) by lia.
  destruct (lookup_lt_is_Some_2 l (Z.to_nat i)) as [x ->]; [lia|]. by exists x.
Qed.

Lemma set_load_weight_ok p b : 100 <= static_prio p < 140 ->
  exists l, set_load_weight reweight p b = Ok (set_load p l).
Proof.
  intros Hs. headers_values. unfold set_load_weight. rewrite Hrt.
  destruct (aget_range sched_prio_to_weight (static_prio p - 100)) as [w Hw]; [simpl; lia|].
  destruct (aget_range sched_prio_to_wmult (static_prio p - 100)) as [v Hv]; [simpl; lia|].
  case_match; [by eexists|]. rewrite reweight_table, Hw, Hv. cbn [mbind res_bind].
  case_match; by eexists.
Qed.

(** ** The operations keep a task consistent *)
Lemma class_of_fair v : 100 <= v -> class_of v = fair_sched_class.
Proof.
  intros Hv. headers_values. unfold class_of. rewrite dl_prio_def, rt_prio_def, Hdl, Hrt.
  by rewrite (proj2 (Z.ltb_ge v 0)), (proj2 (Z.ltb_ge v 100)) by lia.
Qed.
Lemma class_of_rt v : 0 <= v < 100 -> class_of v = rt_sched_class.
Proof.
  intros Hv. headers_values. unfold class_of. rewrite dl_prio_def, rt_prio_def, Hdl, Hrt.
  by rewrite (proj2 (Z.ltb_ge v 0)), (proj2 (Z.ltb_lt v 100)) by lia.
Qed.

(** The fields [task_ok] reads. *)
Lemma task_ok_load p l : task_ok p -> task_ok (set_load p l).
Proof. done. Qed.
Lemma task_ok_reset p b : task_ok p -> task_ok (set_reset p b).
Proof. done. Qed.

(** A task with normal policy and its static priority. *)
Lemma task_ok_fair p : 100 <= static_prio p < 140 -> rt_policy (policy p) = false ->
  dl_policy (policy p) = false -> rt_priority p = 0 ->
  task_ok (set_class (set_prio (set_normal_prio p (static_prio p)) (static_prio p)) fair_sched_class).
Proof.
  intros Hs Hr Hd Hp. unfold task_ok, normal_prio, task_has_dl_policy, task_has_rt_policy. simpl.
  rewrite Hr, Hd. split_and!; try done; try lia. symmetry. apply class_of_fair. lia.
Qed.

(** What sched_fork leaves when the reset flag was set. *)
Lemma fork_reset_ok p : 100 <= static_prio p < 140 ->
  (if rt_policy (policy p) then 1 <= rt_priority p <= 99 else rt_priority p = 0) ->
  reset_on_fork p = true -> exists p', fork_reset reweight p = Ok p' /\
    100 <= static_prio p' < 140 /\ rt_policy (policy p') = false /\ dl_policy (policy p') = false /\
    rt_priority p' = 0 /\ normal_prio_ p' = static_prio p' /\ prio p' = static_prio p' /\
    pi_top p' = pi_top p /\ reset_on_fork p' = false /\
    (dl_policy (policy p) = true \/ rt_policy (policy p) = true -> policy p' = SCHED_NORMAL) /\
    (dl_policy (policy p) = false -> rt_policy (policy p) = false -> policy p' = policy p).
Proof.
  intros Hs Hr Hb. unfold fork_reset. rewrite Hb. cbv zeta.
  set (q := if (task_has_dl_policy p || task_has_rt_policy p)%bool then _ else _).
  assert (100 <= static_prio q < 140 /\ rt_policy (policy q) = false /\ dl_policy (policy q) = false /\
          rt_priority q = 0 /\ pi_top q = pi_top p /\
          (dl_policy (policy p) = true \/ rt_policy (policy p) = true -> policy q = SCHED_NORMAL) /\
          (dl_policy (policy p) = false -> rt_policy (policy p) = false -> policy q = policy p))
    as (Q1 & Q2 & Q3 & Q4 & Q5 & Q6 & Q7).
  { unfold q, task_has_dl_policy, task_has_rt_policy. destruct normal_policy as (N1 & N2 & _).
    destruct (dl_policy (policy p)) eqn:Ed, (rt_policy (policy p)) eqn:Er; simpl;
      try (case_match; simpl); rewrite ?nice_prio; split_and!; intros; destruct_or?; try done; try lia. }
  clearbody q.
  destruct (set_load_weight_ok (set_prio (set_normal_prio q (__normal_prio q))
     (normal_prio_ (set_normal_prio q (__normal_prio q)))) false) as [l ->]; [done|].
  cbn [mbind res_bind]. eexists. split; [reflexivity|]. simpl. split_and!; try done; lia.
Qed.

(** sched_fork of the unmodified priorities: the child is consistent, and has
    the priority of the parent without its boost. *)
Lemma sched_fork_ok current : task_ok current ->
  exists r p', sched_fork reweight CFS current = Ok (r, p') /\
    (r = 0 -> task_ok p' /\ pi_top p' = None) /\
    (reset_on_fork current = false -> prio p' = normal_prio_ current) /\
    (r <> 0 -> r = - EAGAIN /\ dl_policy (policy current) = true /\ reset_on_fork current = false).
Proof.
  intros (Hs & Hr & Hn & Hp & Hc). headers_values. unfold sched_fork, fork_prio.
  set (p := set_prio (no_waiter current) (normal_prio_ current)).
  destruct (reset_on_fork current) eqn:Eb.
  - destruct (fork_reset_ok p Hs Hr Eb) as (q & -> & Q1 & Q2 & Q3 & Q4 & Q5 & Q6 & Q7 & _).
    cbn [mbind res_bind]. rewrite dl_prio_def, rt_prio_def, Q6, Hdl, Hrt.
    rewrite (proj2 (Z.ltb_ge _ 0)), (proj2 (Z.ltb_ge _ 100)) by lia.
    eexists _, _. split; [reflexivity|]. split_and!; [|done|done]. intros _. split; [|exact Q7].
    pose proof (task_ok_fair q Q1 Q2 Q3 Q4) as Hok.
    unfold task_ok in *. simpl in *. by rewrite Q5, Q6.
  - assert (fork_reset reweight p = Ok p) as ->.
    { unfold fork_reset. by change (reset_on_fork p) with (reset_on_fork current); rewrite Eb. }
    cbn [mbind res_bind]. change (prio p) with (normal_prio_ current).
    rewrite dl_prio_def, rt_prio_def, Hdl, Hrt, Hn. unfold normal_prio, task_has_dl_policy, task_has_rt_policy.
    rewrite Hdl, Hrt. destruct (dl_policy (policy current)) eqn:Ed.
    + simpl. eexists _, _. split; [reflexivity|]. split_and!; [unfold EAGAIN; lia| |done].
      intros _. unfold p. simpl. rewrite Hn. unfold normal_prio, task_has_dl_policy. by rewrite Ed, Hdl.
    + assert (forall cl, cl = class_of (normal_prio_ current) -> task_ok (set_class p cl)) as Hok.
      { intros cl ->. unfold task_ok, p. simpl. split_and!; try done; lia. }
      assert (normal_prio_ current = (if rt_policy (policy current) then 100 - 1 - rt_priority current
                                      else __normal_prio current)) as Hv.
      { rewrite Hn. unfold normal_prio, task_has_dl_policy, task_has_rt_policy. by rewrite Ed, Hrt. }
      destruct (rt_policy (policy current)) eqn:Er.
      * rewrite (proj2 (Z.ltb_ge _ 0)), (proj2 (Z.ltb_lt _ 100)) by lia.
        eexists _, _. split; [reflexivity|]. split_and!; [|done|done]. intros _. split; [|done].
        apply Hok. rewrite Hv. symmetry. apply class_of_rt. lia.
      * unfold __normal_prio in *. rewrite (proj2 (Z.ltb_ge _ 0)), (proj2 (Z.ltb_ge _ 100)) by lia.
        eexists _, _. split; [reflexivity|]. split_and!; [|done|done]. intros _. split; [|done].
        apply Hok. rewrite Hv. symmetry. apply class_of_fair. lia.
Qed.

(** ** nice *)
Lemma nice_of_prio p : task_nice p = static_prio p - 120.
Proof. apply prio_nice. Qed.

Lemma set_user_nice_ok p n : task_ok p -> exists p', set_user_nice reweight p n = Ok p' /\
  task_ok p' /\ pi_top p' = pi_top p /\ policy p' = policy p /\ reset_on_fork p' = reset_on_fork p /\
  (-20 <= n <= 19 -> static_prio p' = n + 120) /\ (~ -20 <= n <= 19 -> p' = p).
Proof.
  intros Hok. pose proof Hok as (Hs & Hr & Hn & Hp & Hc). headers_values.
  unfold set_user_nice. rewrite nice_of_prio, Hmin, Hmax.
  destruct (_ || _ || _)%bool eqn:Eb.
  - exists p. split_and!; try done. rewrite !orb_true_iff, Z.eqb_eq, !Z.ltb_lt in Eb. lia.
  - apply orb_false_elim in Eb as [[Eb1 Eb2]%orb_false_elim Eb3]. bool_to_prop.
    rewrite nice_prio. unfold task_has_dl_policy, task_has_rt_policy.
    destruct (dl_policy (policy p) || rt_policy (policy p))%bool eqn:Ed.
    + eexists. split; [reflexivity|]. split_and!; try done; try lia.
      unfold task_ok, normal_prio, task_has_dl_policy, task_has_rt_policy in *. simpl in *.
      destruct (dl_policy (policy p)), (rt_policy (policy p)); try done; split_and!; try done; lia.
    + apply orb_false_elim in Ed as [Ed Er].
      destruct (set_load_weight_ok (set_static_prio p (n + 120)) true) as [l ->]; [simpl; lia|].
      cbn [mbind res_bind effective_prio]. eexists. split; [reflexivity|].
      simpl. split_and!; try done; try lia.
      unfold task_ok, normal_prio, task_has_dl_policy, task_has_rt_policy in *. simpl in *.
      rewrite Ed, Er in *. unfold __normal_prio in *. simpl in *. rewrite rt_prio_def, Hrt.
      destruct (Z.ltb_spec (prio p) 100); simpl; split_and!; try done; try lia.
      * intros Hpi. specialize (Hp Hpi). lia.
      * by rewrite Hc, !class_of_fair by lia.
Qed.

(** ** sched_setscheduler *)

(** The checks passed: the parameters fit together. *)
Lemma checks_pass e p attr user pol reset :
  setscheduler_checks e p attr user pol reset = 0 ->
  (0 <= s32 (sched_policy attr) -> valid_policy pol = true) /\
  sched_priority attr <= 99 /\ (rt_policy pol = true <-> sched_priority attr <> 0).
Proof.
  headers_values. unfold setscheduler_checks, EINVAL, EPERM. rewrite Hurt, Hrt.
  destruct (_ && negb (valid_policy pol))%bool eqn:E1; [done|].
  destruct (flag _ _); [done|].
  destruct ((has_mm p && _) || _)%bool eqn:E2; [done|].
  destruct ((dl_policy pol && _) || _)%bool eqn:E3; [done|]. intros _.
  apply orb_false_elim in E2 as [E2 E2'], E3 as [_ E3]. apply negb_false_iff, eqb_prop in E3.
  split_and!.
  - intros Hp%Z.leb_le. rewrite Hp in E1. by apply negb_false_iff in E1.
  - destruct (has_mm p); simpl in *; bool_to_prop; lia.
  - rewrite E3, negb_true_iff, Z.eqb_neq. done.
Qed.

(** The attributes a system call can pass. *)
Definition attr_ok (attr : sched_attr) : Prop :=
  -1 <= s32 (sched_policy attr) /\ -20 <= sched_nice attr <= 19 /\ 0 <= sched_priority attr.

Lemma setscheduler_params_ok p attr pol :
  100 <= static_prio p < 140 -> attr_ok attr -> sched_priority attr <= 99 ->
  pol = (if (s32 (sched_policy attr) =? SETPARAM_POLICY)%c then policy p else s32 (sched_policy attr)) ->
  (rt_policy pol = true <-> sched_priority attr <> 0) ->
  exists p', __setscheduler_params reweight p attr = Ok p' /\ policy p' = pol /\
    100 <= static_prio p' < 140 /\ normal_prio_ p' = normal_prio p' /\
    rt_priority p' = sched_priority attr /\ pi_top p' = pi_top p /\
    (if rt_policy pol then 1 <= rt_priority p' <= 99 else rt_priority p' = 0).
Proof.
  intros Hs (_ & Hni & Hpr) Hpr' -> Hrt'. unfold __setscheduler_params. cbv zeta.
  set (pol := if (s32 (sched_policy attr) =? SETPARAM_POLICY)%c then policy p else _) in *.
  set (q := if dl_policy pol then _ else _).
  assert (100 <= static_prio q < 140 /\ policy q = pol /\ pi_top q = pi_top p) as (Q1 & Q2 & Q3).
  { unfold q. case_match; [done|]. case_match; [|done]. simpl. rewrite nice_prio. split_and!; try done; lia. }
  clearbody q. set (q2 := set_normal_prio (set_rt_priority q (sched_priority attr)) _).
  destruct (set_load_weight_ok q2 true) as [l ->]; [done|]. exists (set_load q2 l). simpl.
  split_and!; try done; try lia.
  destruct (rt_policy pol) eqn:Er.
  - assert (sched_priority attr <> 0) by (by apply Hrt'). lia.
  - destruct (decide (sched_priority attr = 0)) as [|Hne]; [done|]. apply Hrt' in Hne. done.
Qed.

Lemma setscheduler_ok e p attr user : task_ok p -> attr_ok attr ->
  exists r p', __sched_setscheduler reweight e p attr user = Ok (r, p') /\ task_ok p' /\
    pi_top p' = pi_top p /\ (r <> 0 -> p' = p).
Proof.
  intros Hok Ha. unfold __sched_setscheduler.
  set (pol0 := s32 (sched_policy attr)).
  assert (exists pol reset, (if (pol0 <? 0)%c then (policy p, reset_on_fork p)
            else (pol0, flag attr SCHED_FLAG_RESET_ON_FORK)) = (pol, reset) /\
          pol = (if (pol0 =? SETPARAM_POLICY)%c then policy p else pol0)) as (pol & reset & -> & Hpol).
  { destruct Ha as (Ha & _). unfold SETPARAM_POLICY. fold pol0 in Ha.
    destruct (Z.ltb_spec pol0 0), (Z.eqb_spec pol0 (-1)); try lia; eauto. }
  destruct (Z.eqb_spec (setscheduler_checks e p attr user pol reset) 0) as [Ec|Ec]; cbn [negb].
  2:{ eexists _, _. split; [reflexivity|]. done. }
  apply checks_pass in Ec as (_ & Hpr & Hrt').
  destruct (is_stop e); [eexists _, _; split; [reflexivity|done]|].
  destruct (negb (changes _ _ _ _)); [eexists _, _; split; [reflexivity|by apply (conj Hok)]|].
  destruct (user && _)%bool; [eexists _, _; split; [reflexivity|done]|].
  destruct (_ && sched_dl_overflow e)%bool; [eexists _, _; split; [reflexivity|done]|].
  unfold __setscheduler. destruct (flag attr SCHED_FLAG_KEEP_PARAMS).
  { cbn [mbind res_bind]. eexists _, _. split; [reflexivity|]. by apply (conj Hok). }
  destruct (setscheduler_params_ok (set_reset p reset) attr pol) as (q & -> & Q1 & Q2 & Q3 & Q4 & Q5 & Q6);
    [by destruct Hok|done|done|done|done|].
  cbn [mbind res_bind]. eexists _, _. split; [reflexivity|].
  unfold task_ok, rt_effective_prio. simpl. rewrite Q1, Q3. split_and!; try done; try lia.
  intros Hpi. by rewrite Hpi.
Qed.

Lemma land_lnot_range a b : 0 <= a -> 0 <= Z.land a (Z.lnot b) <= a.
Proof.
  intros Ha. rewrite <- Z.ldiff_land. apply Z.ldiff_le; [done|].
  apply Z.bits_inj'. intros n _. rewrite !Z.ldiff_spec, Z.bits_0.
  by destruct (Z.testbit a n), (Z.testbit b n).
Qed.
Lemma s32_u32 v : -1 <= v < 2 ^ 31 -> s32 (u32 v) = v.
Proof.
  intros Hv. unfold s32, u32. rewrite Z.add_mod_idemp_l by lia. rewrite Z.mod_small by lia. lia.
Qed.

Lemma setscheduler_attr_ok p pol v : task_ok p -> -1 <= pol < 2 ^ 31 ->
  attr_ok (setscheduler_attr CFS p pol v).
Proof.
  intros (Hs & _) Hpol. unfold setscheduler_attr, attr_ok.
  assert (0 <= u32 v) by (apply Z.mod_pos_bound; lia).
  destruct (_ && _)%bool eqn:E; cbn [sched_policy sched_nice sched_priority]; rewrite prio_nice.
  - unfold SETPARAM_POLICY in E. bool_to_prop.
    pose proof (land_lnot_range pol SCHED_RESET_ON_FORK). rewrite s32_u32; lia.
  - rewrite s32_u32; lia.
Qed.

Lemma sys_nice_ok e inc p : task_ok p -> exists r p', sys_nice reweight e inc p = Ok (r, p') /\
  task_ok p' /\ pi_top p' = pi_top p /\ (r <> 0 -> p' = p) /\
  (r = 0 -> static_prio p' = clamp (static_prio p + clamp inc (-40) 40) 100 139).
Proof.
  intros Hok. pose proof Hok as (Hs & _). headers_values. unfold sys_nice.
  cbv zeta. rewrite Hmin, Hmax, Hwidth, nice_of_prio. change (- (40)) with (-40).
  set (n := clamp (static_prio p - 120 + clamp inc (-40) 40) (-20) 19).
  assert (n + 120 = clamp (static_prio p + clamp inc (-40) 40) 100 139) as Hn by (unfold n, clamp; lia).
  assert (-20 <= n <= 19) as Hr by (unfold n, clamp; lia). clearbody n.
  destruct (_ && _)%bool; [eexists _, _; split; [reflexivity|done]|].
  destruct (Z.eqb_spec (security_task_setnice e) 0); cbn [negb]; [|eexists _, _; split; [reflexivity|done]].
  destruct (set_user_nice_ok p n Hok) as (p' & -> & H1 & H2 & _ & _ & H3 & _).
  cbn [mbind res_bind]. eexists _, _. split; [reflexivity|]. split_and!; try done. rewrite H3 by done. done.
Qed.

(** ** The life of a task in a kernel: forks (then the child), nice, changes of
    policy and parameters *)
Inductive sched_step (k : kernel) : task -> task -> Prop :=
  | step_fork p p' : sched_fork reweight k p = Ok (0, p') -> sched_step k p p'
  | step_nice e inc p r p' : sys_nice reweight e inc p = Ok (r, p') -> sched_step k p p'
  | step_setscheduler e pol v p r p' : -1 <= pol < 2 ^ 31 ->
      sched_setscheduler reweight k e p pol v = Ok (r, p') -> sched_step k p p'
  | step_setattr e attr p r p' : attr_ok attr ->
      sched_setattr reweight e p attr = Ok (r, p') -> sched_step k p p'.

Lemma cfs_step_ok p p' : task_ok p -> pi_top p = None -> sched_step CFS p p' ->
  task_ok p' /\ pi_top p' = None.
Proof.
  intros Hok Hpi Hstep. destruct Hstep as [p p' E|e inc p r p' E|e pol v p r p' Hpol E|e attr p r p' Ha E].
  - destruct (sched_fork_ok p Hok) as (r & q & Hq & Hr & _). rewrite E in Hq. injection Hq as <- <-. auto.
  - destruct (sys_nice_ok e inc p Hok) as (r' & q & Hq & H1 & H2 & _). rewrite E in Hq.
    injection Hq as <- <-. split; [done|congruence].
  - destruct (setscheduler_ok e p (setscheduler_attr CFS p pol v) true Hok) as (r' & q & Hq & H1 & H2 & _);
      [by apply setscheduler_attr_ok|].
    unfold sched_setscheduler, _sched_setscheduler in E. rewrite E in Hq. injection Hq as <- <-.
    split; [done|congruence].
  - destruct (setscheduler_ok e p attr true Hok Ha) as (r' & q & Hq & H1 & H2 & _).
    unfold sched_setattr in E. rewrite E in Hq. injection Hq as <- <-. split; [done|congruence].
Qed.

(** ** What a successful call installs *)
Lemma setscheduler_success e p attr user p' pol :
  s32 (sched_policy attr) = pol -> 0 <= pol -> flag attr SCHED_FLAG_KEEP_PARAMS = false ->
  __sched_setscheduler reweight e p attr user = Ok (0, p') ->
  policy p' = pol /\ (rt_policy pol = true -> rt_priority p' = sched_priority attr) /\
  (fair_policy pol = true -> dl_policy pol = false -> task_nice p' = sched_nice attr) /\
  reset_on_fork p' = flag attr SCHED_FLAG_RESET_ON_FORK.
Proof.
  intros Hpol H0 Hk. unfold __sched_setscheduler. rewrite Hpol. rewrite (proj2 (Z.ltb_ge pol 0)) by lia.
  destruct (Z.eqb_spec (setscheduler_checks e p attr user pol (flag attr SCHED_FLAG_RESET_ON_FORK)) 0) as [Ec|Ec];
    cbn [negb]; [|congruence].
  destruct (is_stop e); [done|].
  destruct (changes e p attr pol) eqn:Ech; cbn [negb].
  2:{ intros [= <-]. unfold changes in Ech. repeat apply orb_false_elim in Ech as [Ech ?].
      apply negb_false_iff, Z.eqb_eq in Ech. split_and!; [done| | |done].
      - intros Hr. simpl. rewrite Hr in *. simpl in *. bool_to_prop. done.
      - intros Hf _. unfold task_nice in *. simpl. rewrite Hf in *. simpl in *. bool_to_prop. done. }
  destruct (user && _)%bool; [done|]. destruct (_ && sched_dl_overflow e)%bool; [done|].
  unfold __setscheduler. rewrite Hk. unfold __setscheduler_params. rewrite Hpol. cbv zeta.
  assert ((pol =? SETPARAM_POLICY)%c = false) as -> by (apply Z.eqb_neq; unfold SETPARAM_POLICY; lia).
  set (q := set_normal_prio (set_rt_priority (if dl_policy pol then _ else _) (sched_priority attr)) _).
  assert (policy q = pol /\ rt_priority q = sched_priority attr /\
          (fair_policy pol = true -> dl_policy pol = false -> task_nice q = sched_nice attr) /\
          reset_on_fork q = flag attr SCHED_FLAG_RESET_ON_FORK) as (Q1 & Q2 & Q3 & Q4).
  { unfold q. simpl. split_and!; [| done | |].
    - destruct (dl_policy pol); [done|]. by destruct (fair_policy pol).
    - intros Hf Hd. rewrite Hf, Hd. unfold task_nice. simpl. rewrite nice_prio, prio_nice. lia.
    - destruct (dl_policy pol); [done|]. by destruct (fair_policy pol). }
  clearbody q. unfold set_load_weight. intros H.
  apply bind_ok in H as (p1 & H & [= <-]). apply bind_ok in H as (p2 & H & [= <-]). simpl.
  destruct (task_has_idle_policy q); [|destruct (true && _)%bool];
    repeat (apply bind_ok in H as (? & ? & H)); injection H as <-; by split_and!.
Qed.

(** The load after a change of the nice value of a task of the fair class. *)
Lemma set_user_nice_weight p n p' : task_ok p -> fair_policy (policy p) = true ->
  -20 <= n <= 19 -> task_nice p <> n -> set_user_nice reweight p n = Ok p' ->
  exists w, aget sched_prio_to_weight (n + 20) = Ok w /\ weight (load p') = scale_load w.
Proof.
  intros (Hs & _) Hf Hn Hne. headers_values. unfold set_user_nice. rewrite Hmin, Hmax.
  rewrite (proj2 (Z.eqb_neq _ _) Hne), (proj2 (Z.ltb_ge n (-20))), (proj2 (Z.ltb_ge 19 n)) by lia.
  assert (dl_policy (policy p) = false /\ rt_policy (policy p) = false /\ idle_policy (policy p) = false)
    as (Hd & Hr & Hi).
  { pose proof policies_distinct as HD. rewrite !NoDup_cons, !elem_of_cons in HD.
    rewrite fair_policy_def in Hf. rewrite dl_policy_def, rt_policy_def, idle_policy_def.
    apply orb_true_iff in Hf. rewrite !Z.eqb_eq in Hf.
    rewrite orb_false_iff, !Z.eqb_neq. intuition (subst; try tauto; congruence). }
  unfold task_has_dl_policy, task_has_rt_policy, task_has_idle_policy. rewrite Hd, Hr. cbn [orb].
  unfold set_load_weight, task_has_idle_policy. simpl. rewrite Hi, Hrt, nice_prio, reweight_table.
  replace (n + 120 - 100) with (n + 20) by lia.
  destruct (aget_range sched_prio_to_weight (n + 20)) as [w Hw]; [simpl; lia|].
  destruct (aget_range sched_prio_to_wmult (n + 20)) as [v Hv]; [simpl; lia|].
  rewrite Hw, Hv. cbn [mbind res_bind]. intros H. exists w. split; [done|].
  destruct (bool_decide _); simpl in H; by injection H as <-.
Qed.

(** C18: In the kernel with the default policies a task stays consistent. From a
    consistent task without waiters, through any sequence of forks (following
    the child), nice, sched_setscheduler and sched_setattr calls by any caller,
    the nice value is in range, the real-time priority is 1..99 exactly under a
    real-time policy and 0 otherwise, the priority is the one normal_prio
    computes, and the class is that of the priority; and no call runs off the
    weight tables. *)
Theorem cfs_priorities_consistent p p' : task_ok p -> pi_top p = None ->
  steps (sched_step CFS) p p' ->
  100 <= static_prio p' < 140 /\
  (if rt_policy (policy p') then 1 <= rt_priority p' <= 99 else rt_priority p' = 0) /\
  prio p' = normal_prio p' /\ class p' = class_of (prio p') /\
  is_ok (sched_fork reweight CFS p') = true /\
  (forall e inc, is_ok (sys_nice reweight e inc p') = true) /\
  (forall e attr user, attr_ok attr -> is_ok (__sched_setscheduler reweight e p' attr user) = true).
Proof.
  intros Hok Hpi Hst.
  assert (task_ok p' /\ pi_top p' = None) as [Hok' Hpi'].
  { revert Hst. apply (steps_invariant _ (fun q => task_ok q /\ pi_top q = None)); [done|].
    intros a b [Ha Hb]. by apply cfs_step_ok. }
  pose proof Hok' as (H1 & H2 & H3 & H4 & H5). split_and!; try done; try lia.
  - rewrite <- H3. auto.
  - by destruct (sched_fork_ok p' Hok') as (r & q & -> & _).
  - intros e inc. by destruct (sys_nice_ok e inc p' Hok') as (r & q & -> & _).
  - intros e attr user Ha. by destruct (setscheduler_ok e p' attr user Hok' Ha) as (r & q & -> & _).
Qed.

(** Fork in the two kernels. The default one gives the child the parent's
    unboosted priority. The FIFO kernel turns the child of a normal task into a
    SCHED_FIFO task of class rt with all three priorities 50, although
    normal_prio computes 49 for it; a child of any other policy keeps the
    boosted priority of its parent; and with SCHED_RESET_ON_FORK the child is
    made a normal task again. *)
Theorem fork_in_both_kernels current : task_ok current ->
  (reset_on_fork current = false ->
     (exists r c, sched_fork reweight CFS current = Ok (r, c) /\ prio c = normal_prio_ current) /\
     (policy current = SCHED_NORMAL -> exists c, sched_fork reweight FIFO current = Ok (0, c) /\
        policy c = SCHED_FIFO /\ class c = rt_sched_class /\ prio c = 50 /\ rt_priority c = 50 /\
        normal_prio_ c = 50 /\ normal_prio c = 49) /\
     (policy current <> SCHED_NORMAL -> exists r c,
        sched_fork reweight FIFO current = Ok (r, c) /\ prio c = prio current)) /\
  (reset_on_fork current = true -> policy current = SCHED_NORMAL ->
     exists c, sched_fork reweight FIFO current = Ok (0, c) /\ policy c = SCHED_NORMAL /\
       class c = fair_sched_class /\ prio c = static_prio c).
Proof.
  intros Hok. headers_values. destruct fifo_policy as (F1 & F2 & _). split.
  - intros Hb. split_and!.
    + destruct (sched_fork_ok current Hok) as (r & c & Hc & _ & Hp & _). eauto.
    + intros Hpol. unfold sched_fork, fork_prio. simpl. rewrite Hpol, Z.eqb_refl.
      unfold fork_reset. simpl. rewrite Hb. cbn [mbind res_bind]. simpl.
      rewrite dl_prio_def, rt_prio_def, Hdl, Hrt. simpl. eexists. split; [reflexivity|].
      unfold normal_prio, task_has_dl_policy, task_has_rt_policy. simpl. by rewrite F1, F2, Hrt.
    + intros Hpol%Z.eqb_neq. unfold sched_fork, fork_prio. simpl. rewrite Hpol.
      unfold fork_reset. simpl. rewrite Hb. cbn [mbind res_bind]. simpl.
      destruct (dl_prio _); [|destruct (rt_prio _)]; eexists _, _; (split; [reflexivity|done]).
  - intros Hb Hpol. destruct Hok as (Hs & _). unfold sched_fork, fork_prio. simpl. rewrite Hpol, Z.eqb_refl.
    set (q := set_policy _ SCHED_FIFO).
    destruct (fork_reset_ok q) as (c & -> & C1 & C2 & C3 & C4 & C5 & C6 & _ & _ & C7 & _);
      [exact Hs|unfold q; simpl; rewrite F1, Hrt; by split|done|].
    cbn [mbind res_bind]. rewrite dl_prio_def, rt_prio_def, C6, Hdl, Hrt.
    rewrite (proj2 (Z.ltb_ge _ 0)), (proj2 (Z.ltb_ge _ 100)) by lia.
    eexists. split; [reflexivity|]. simpl. split_and!; try done. apply C7. right. done.
Qed.

(** C39: Which requests for the normal policy the FIFO kernel redirects. A successful
    sched_setscheduler with SCHED_NORMAL leaves a SCHED_FIFO task of priority
    50; without privilege and real-time limit it is refused with EPERM. The
    same request with SCHED_RESET_ON_FORK, or through sched_setattr, is not
    redirected. *)
Theorem fifo_setscheduler_normal e p v r p' : task_ok p ->
  (sched_setscheduler reweight FIFO e p SCHED_NORMAL v = Ok (0, p') ->
     policy p' = SCHED_FIFO /\ rt_priority p' = 50) /\
  (capable_sys_nice e = false -> rlimit_rtprio e = 0 -> policy p <> SCHED_FIFO ->
     sched_setscheduler reweight FIFO e p SCHED_NORMAL v = Ok (r, p') -> r = - EPERM /\ p' = p) /\
  (sched_setscheduler reweight FIFO e p (Z.lor SCHED_NORMAL SCHED_RESET_ON_FORK) v = Ok (0, p') ->
     policy p' = SCHED_NORMAL) /\
  (forall attr, sched_policy attr = SCHED_NORMAL -> flag attr SCHED_FLAG_KEEP_PARAMS = false ->
     sched_setattr reweight e p attr = Ok (0, p') -> policy p' = SCHED_NORMAL).
Proof.
  intros Hok. headers_values. destruct fifo_policy as (F1 & F2 & F3 & F4). destruct flag_bits as (Hfl & _).
  assert (0 <= SCHED_FIFO < 2 ^ 30) as Hff.
  { pose proof policies_small as Hs. rewrite !Forall_cons, reset_bit in Hs. tauto. }
  assert (setscheduler_attr FIFO p SCHED_NORMAL v = mk_attr SCHED_FIFO 0 (PRIO_TO_NICE (static_prio p)) 50) as Ha.
  { unfold setscheduler_attr. rewrite normal_zero, Hrt. done. }
  assert (s32 SCHED_FIFO = SCHED_FIFO) as Hs32 by (unfold s32; rewrite Z.mod_small by lia; lia).
  unfold sched_setscheduler, _sched_setscheduler, sched_setattr. rewrite Ha. split_and!.
  - intros H. apply (setscheduler_success e p _ true p' SCHED_FIFO) in H as (H1 & H2 & _); try done; try lia.
    split; [done|]. by apply H2.
  - intros Hcap Hlim Hpol. unfold __sched_setscheduler. cbn [sched_policy]. rewrite Hs32.
    rewrite (proj2 (Z.ltb_ge SCHED_FIFO 0)) by lia. cbv iota.
    assert (setscheduler_checks e p (mk_attr SCHED_FIFO 0 (PRIO_TO_NICE (static_prio p)) 50) true SCHED_FIFO
              (flag (mk_attr SCHED_FIFO 0 (PRIO_TO_NICE (static_prio p)) 50) SCHED_FLAG_RESET_ON_FORK)
            = - EPERM) as ->.
    { unfold setscheduler_checks, valid_policy, may_set. rewrite F1, F2, F3, F4, Hcap, Hlim, Hurt, Hrt.
      rewrite (proj2 (Z.eqb_neq SCHED_FIFO (policy p))) by congruence.
      unfold flag. cbn [sched_flags sched_priority]. rewrite !orb_true_r. simpl.
      rewrite andb_false_r. by destruct (has_mm p). }
    cbn. by intros [= <- <-].
  - assert (setscheduler_attr FIFO p (Z.lor SCHED_NORMAL SCHED_RESET_ON_FORK) v =
      mk_attr 0 SCHED_FLAG_RESET_ON_FORK (PRIO_TO_NICE (static_prio p)) (u32 v)) as ->.
    { unfold setscheduler_attr. rewrite normal_zero, reset_bit. simpl. done. }
    intros H. apply (setscheduler_success e p _ true p' 0) in H as [H1 _]; [by rewrite normal_zero|done|lia|].
    unfold flag. simpl. by rewrite Hfl.
  - intros attr Hat Hk H. rewrite normal_zero in *.
    apply (setscheduler_success e p attr true p' 0) in H as [H1 _]; [done|by rewrite Hat|lia|done].
Qed.

(** nice. A refused call changes nothing. A call with a negative increment is
    refused with EPERM when the new value is below the limit and the caller has
    no privilege; any other, when the security hook agrees, succeeds, and the
    new nice value is the sum clamped to -20..19. A task of the fair class that
    changed gets the weight of its new nice value. *)
Theorem nice_contract e inc p r p' : task_ok p -> sys_nice reweight e inc p = Ok (r, p') ->
  let n := clamp (task_nice p + inc) (-20) 19 in
  (r <> 0 -> p' = p) /\
  (inc < 0 -> rlimit_nice e < 20 - n -> capable_sys_nice e = false -> r = - EPERM) /\
  (0 <= inc \/ 20 - n <= rlimit_nice e \/ capable_sys_nice e = true -> r = security_task_setnice e) /\
  (r = 0 -> task_nice p' = n /\ policy p' = policy p /\
     (fair_policy (policy p) = true -> n <> task_nice p ->
        exists w, aget sched_prio_to_weight (n + 20) = Ok w /\ weight (load p') = scale_load w)).
Proof.
  intros Hok H n. pose proof Hok as (Hs & _). headers_values.
  assert (clamp (task_nice p + clamp inc (- NICE_WIDTH) NICE_WIDTH) MIN_NICE MAX_NICE = n) as Hn.
  { unfold n. rewrite nice_of_prio, Hmin, Hmax, Hwidth. unfold clamp. lia. }
  assert (-20 <= n <= 19) as Hr by (unfold n, clamp; lia).
  assert ((clamp inc (- NICE_WIDTH) NICE_WIDTH <? 0)%c = (inc <? 0)%c) as Hneg.
  { rewrite Hwidth. unfold clamp. destruct (Z.ltb_spec inc 0); [apply Z.ltb_lt|apply Z.ltb_ge]; lia. }
  unfold sys_nice in H. cbv zeta in H. rewrite Hn, Hneg in H. clearbody n.
  assert (can_nice e n = true <-> 20 - n <= rlimit_nice e \/ capable_sys_nice e = true) as Hcan.
  { unfold can_nice. by rewrite nice_rlimit, orb_true_iff, Z.leb_le. }
  destruct ((inc <? 0)%c && negb (can_nice e n))%bool eqn:Ed.
  { injection H as <- <-. bool_to_prop. unfold EPERM. split_and!; try done.
    intros [?|Hc%Hcan]; [lia|congruence]. }
  assert (inc < 0 -> rlimit_nice e < 20 - n -> capable_sys_nice e = false -> False) as Hno.
  { intros Hi%Z.ltb_lt Hl Hc. rewrite Hi in Ed. apply negb_false_iff, Hcan in Ed as [?|?]; [lia|congruence]. }
  destruct (Z.eqb_spec (security_task_setnice e) 0) as [E0|E0]; cbn [negb] in H.
  2:{ injection H as <- <-. split_and!; try done. intros Hi Hl Hc. by destruct Hno. }
  apply bind_ok in H as (q & Hq & H). injection H as <- <-.
  split_and!; try done; [intros; by destruct Hno|].
  intros _. destruct (set_user_nice_ok p n Hok) as (q' & Hq' & _ & _ & Hpo & _ & Hst & _).
  rewrite Hq in Hq'. injection Hq' as <-. split_and!; [rewrite nice_of_prio, Hst; lia|done|].
  intros Hf Hne. eapply set_user_nice_weight; eauto.
Qed.
End Theorems.

(** ** Witnesses: a normal task in Linux 5.11 *)
Definition linux_reweight (i : Z) : res load_weight :=
  w ← aget sched_prio_to_weight i; v ← aget sched_prio_to_wmult i;
  Ok (mk_load (Z.shiftl w 10) v).
Definition demo_task : task :=
  mk_task 0 120 120 120 0 false fair_sched_class (mk_load 1048576 4194304) true None.
Definition root_env : env := mk_env true 0 0 0 0 0 0 0 0 true false false false false false.
Definition user_env : env := mk_env false 0 0 1000 1000 1000 0 0 0 true false false false false false.

Lemma demo_task_ok : task_ok (h := linux) demo_task.
Proof. repeat split; simpl; try discriminate; reflexivity. Qed.

Lemma cfs_priorities_consistent_witness :
  exists p', steps (sched_step (h := linux) linux_reweight CFS) demo_task p' /\ prio p' = 130 /\
    class p' = class_of (h := linux) (prio p').
Proof.
  eexists. assert (steps (sched_step (h := linux) linux_reweight CFS) demo_task
    (set_prio (set_normal_prio (set_load (set_static_prio demo_task 130) (mk_load 112640 39045157)) 130) 130)) as Hst.
  { apply steps_one. apply (step_nice linux_reweight CFS root_env 10 _ 0). reflexivity. }
  split; [exact Hst|]. split; [reflexivity|].
  exact (proj1 (proj2 (proj2 (proj2
    (cfs_priorities_consistent (h := linux) (hok := linux_ok) linux_reweight ltac:(reflexivity)
       _ _ demo_task_ok eq_refl Hst))))).
Defined.

Lemma fork_in_both_kernels_witness : exists c,
  sched_fork (h := linux) linux_reweight FIFO demo_task = Ok (0, c) /\ normal_prio_ c = 50 /\
  normal_prio (h := linux) c = 49.
Proof.
  destruct (proj1 (proj2 (proj1 (fork_in_both_kernels (h := linux) (hok := linux_ok) linux_reweight
    ltac:(reflexivity) demo_task demo_task_ok) eq_refl)) eq_refl) as (c & H1 & _ & _ & _ & _ & H2 & H3).
  exists c. split; [exact H1|]. split; [exact H2|exact H3].
Defined.

Lemma fifo_setscheduler_normal_witness : exists p',
  sched_setscheduler (h := linux) linux_reweight FIFO root_env demo_task 0 0 = Ok (0, p') /\
  policy p' = 1 /\ rt_priority p' = 50.
Proof.
  set (p' := set_class (set_prio (set_normal_prio (set_rt_priority (set_policy demo_task 1) 50) 49) 49) rt_sched_class).
  assert (sched_setscheduler (h := linux) linux_reweight FIFO root_env demo_task 0 0 = Ok (0, p')) as E
    by reflexivity.
  exists p'. split; [exact E|].
  exact (proj1 (fifo_setscheduler_normal (h := linux) (hok := linux_ok) linux_reweight
    root_env demo_task 0 0 p' demo_task_ok) E).
Defined.

Lemma nice_contract_witness : exists p',
  sys_nice (h := linux) linux_reweight user_env 7 demo_task = Ok (0, p') /\ task_nice (h := linux) p' = 7.
Proof.
  set (p' := set_prio (set_normal_prio (set_load (set_static_prio demo_task 127) (mk_load 220160 19976592)) 127) 127).
  assert (sys_nice (h := linux) linux_reweight user_env 7 demo_task = Ok (0, p')) as E by reflexivity.
  exists p'. split; [exact E|].
  assert (forall i, linux_reweight i = linux_reweight i) as Hrw by reflexivity.
  destruct (nice_contract (h := linux) (hok := linux_ok) linux_reweight Hrw user_env 7 demo_task 0 p'
    demo_task_ok E) as (_ & _ & _ & H).
  exact (proj1 (H eq_refl)).
Defined.
