(* ===== verification/SchedCalls.v ===== *)
(** * The scheduling system calls (src/Assignment_4/fifo/core.c)

    sched_setscheduler, sched_setparam, sched_setattr and their readers, from the
    bytes in user memory to the functions of SchedClass.  [user] maps the mapped
    addresses to bytes; the copying functions of other files are the interface
    [uaccess], [uaccess_ok] states what is documented of them. *)
From Stdlib Require Import ZArith Lia.
From stdpp Require Import gmap.
From S2P Require Import Prelude CLib SchedInfo SchedClass.

Local Open Scope Z_scope.

(** ** User memory *)
Abbreviation user := (gmap Z Z).
Definition read (m : user) (a : Z) (n : nat) : option (list Z) :=
  mapM (fun i => m !! (a + Z.of_nat i)) (seq 0 n).
Fixpoint write (m : user) (a : Z) (bs : list Z) : user :=
  match bs with [] => m | b :: bs => write (<[a := b]> m) (a + 1) bs end.

(** Numbers of [n] bytes, the lowest first. *)
Fixpoint le (bs : list Z) : Z := match bs with [] => 0 | b :: bs => b + 256 * le bs end.
Fixpoint to_le (n : nat) (v : Z) : list Z :=
  match n with O => [] | S n => v mod 256 :: to_le n (v / 256) end.

Definition ESRCH : Z := 3.
Definition E2BIG : Z := 7.
Definition EFAULT : Z := 14.

(** Errors are negative numbers; [copy_to_user] tells whether all was copied. *)
Class uaccess := {
  get_user : user -> Z -> Z + Z;
  put_user : user -> Z -> Z -> user * Z;
  copy_from_user : user -> Z -> nat -> option (list Z);
  access_ok : Z -> Z -> bool;
  copy_to_user : user -> Z -> list Z -> user * bool;
  copy_struct_from_user : user -> nat -> Z -> nat -> Z + list Z
}.
Class uaccess_ok (u : uaccess) : Prop := {
  get_user_read m a : get_user m a = match read m a 4 with Some bs => inr (le bs) | None => inl (- EFAULT) end;
  put_user_write m a v : is_Some (read m a 4) -> put_user m a v = (write m a (to_le 4 v), 0);
  put_user_frame m a v b : ~ a <= b < a + 4 -> (put_user m a v).1 !! b = m !! b;
  copy_from_user_read m a n : copy_from_user m a n = read m a n;
  access_ok_mapped m a n : is_Some (read m a n) -> access_ok a (Z.of_nat n) = true;
  copy_to_user_write m a bs : is_Some (read m a (length bs)) -> copy_to_user m a bs = (write m a bs, true);
  copy_to_user_frame m a bs b : ~ a <= b < a + Z.of_nat (length bs) -> (copy_to_user m a bs).1 !! b = m !! b;
  (** Shorter than the structure: filled with zeros; longer: the rest must be zeros. *)
  copy_struct_short m k a n : (n <= k)%nat -> copy_struct_from_user m k a n =
    match read m a n with Some bs => inr (bs ++ replicate (k - n) 0) | None => inl (- EFAULT) end;
  copy_struct_long m k a n : (k < n)%nat -> copy_struct_from_user m k a n =
    match read m (a + Z.of_nat k) (n - k) with
    | None => inl (- EFAULT)
    | Some rest =>
        if forallb (fun b => b =? 0)%c rest
        then match read m a k with Some bs => inr bs | None => inl (- EFAULT) end
        else inl (- E2BIG)
    end
}.

(** include/uapi/linux/sched.h and sched/types.h, asm/page.h. *)
Class sched_uapi := mk_uapi {
  SCHED_FLAG_KEEP_POLICY : Z; SCHED_ATTR_SIZE_VER0 : Z; SCHED_ATTR_SIZE_VER1 : Z; PAGE_SIZE : Z
}.
Class sched_uapi_ok `{h : headers} (u : sched_uapi) : Prop := {
  attr_sizes : SCHED_ATTR_SIZE_VER0 = 48 /\ SCHED_ATTR_SIZE_VER1 = 56 /\ PAGE_SIZE = 4096;
  reset_flag : 0 <= SCHED_FLAG_RESET_ON_FORK < 2 ^ 64
}.
Definition linux_uapi : sched_uapi := mk_uapi 8 48 56 4096.
#[export] Instance linux_uapi_ok : sched_uapi_ok (h := linux) linux_uapi.
Proof. split; [done|simpl; lia]. Qed.

Module SchedCalls.

(** ** struct sched_attr, as sched_setattr(2) lays it out *)
Record attr := mk_attr {
  size : Z; sched_policy : Z; sched_flags : Z; sched_nice : Z; sched_priority : Z;
  sched_runtime : Z; sched_deadline : Z; sched_period : Z; sched_util_min : Z; sched_util_max : Z
}.
Definition sizeof_attr : nat := 56.
Definition field (bs : list Z) (off n : nat) : Z := le (take n (drop off bs)).
Definition decode (bs : list Z) : attr :=
  mk_attr (field bs 0 4) (field bs 4 4) (field bs 8 8) (s32 (field bs 16 4)) (field bs 20 4)
    (field bs 24 8) (field bs 32 8) (field bs 40 8) (field bs 48 4) (field bs 52 4).
Definition encode (a : attr) : list Z :=
  to_le 4 (size a) ++ to_le 4 (sched_policy a) ++ to_le 8 (sched_flags a) ++ to_le 4 (u32 (sched_nice a)) ++
  to_le 4 (sched_priority a) ++ to_le 8 (sched_runtime a) ++ to_le 8 (sched_deadline a) ++
  to_le 8 (sched_period a) ++ to_le 4 (sched_util_min a) ++ to_le 4 (sched_util_max a).
Definition set_nice (a : attr) (v : Z) : attr :=
  mk_attr (size a) (sched_policy a) (sched_flags a) v (sched_priority a) (sched_runtime a) (sched_deadline a)
    (sched_period a) (sched_util_min a) (sched_util_max a).
Definition set_policy (a : attr) (v : Z) : attr :=
  mk_attr (size a) v (sched_flags a) (sched_nice a) (sched_priority a) (sched_runtime a) (sched_deadline a)
    (sched_period a) (sched_util_min a) (sched_util_max a).
Definition set_size (a : attr) (v : Z) : attr :=
  mk_attr v (sched_policy a) (sched_flags a) (sched_nice a) (sched_priority a) (sched_runtime a) (sched_deadline a)
    (sched_period a) (sched_util_min a) (sched_util_max a).
(** The fields SchedClass reads. *)
Definition class_attr (a : attr) : SchedClass.sched_attr :=
  SchedClass.mk_attr (sched_policy a) (sched_flags a) (sched_nice a) (sched_priority a).

Section Model.
Context `{h : headers} `{ua : uaccess} `{uapi : sched_uapi}.
Context (reweight : Z -> res SchedClass.load_weight).
(** The security hook, [uclamp_req] of a task, and what __getparam_dl of deadline.c
    fills in. *)
Context (security_task_getscheduler : Z -> Z) (uclamp_req : Z -> Z * Z).
Context (__getparam_dl : SchedClass.task -> attr -> attr).

Record sys := mk_sys { tasks : gmap Z SchedClass.task; current : Z; mem : user }.
Definition set_mem (s : sys) (m : user) : sys := mk_sys (tasks s) (current s) m.
Definition set_task (s : sys) (pid : Z) (p : SchedClass.task) : sys :=
  mk_sys (<[pid := p]> (tasks s)) (current s) (mem s).

(** The number of the task, and the task. *)
Definition find_process_by_pid (s : sys) (pid : Z) : option (Z * SchedClass.task) :=
  let pid := if (pid =? 0)%c then current s else pid in
  p ← tasks s !! pid; Some (pid, p).

Definition EINVAL : Z := SchedClass.EINVAL.

(** ** Setting *)
Definition do_sched_setscheduler (k : kernel) (e : SchedClass.env) (s : sys) (pid policy param : Z)
  : res (Z * sys) :=
  if ((param =? 0)%c || (pid <? 0)%c)%bool then Ok (- EINVAL, s) else
  match copy_from_user (mem s) param 4 with
  | None => Ok (- EFAULT, s)
  | Some bs =>
      match find_process_by_pid s pid with
      | None => Ok (- ESRCH, s)
      | Some (pid, p) =>
          '(retval, p) ← SchedClass.sched_setscheduler reweight k e p policy (s32 (le bs));
          Ok (retval, set_task s pid p)
      end
  end.
Definition sys_sched_setscheduler (k : kernel) (e : SchedClass.env) (s : sys) (pid policy param : Z)
  : res (Z * sys) :=
  if (policy <? 0)%c then Ok (- EINVAL, s) else do_sched_setscheduler k e s pid policy param.
Definition sys_sched_setparam (k : kernel) (e : SchedClass.env) (s : sys) (pid param : Z) : res (Z * sys) :=
  do_sched_setscheduler k e s pid SchedClass.SETPARAM_POLICY param.

(** [goto err_size] *)
Definition err_size (m : user) (uattr : Z) : user * (Z + attr) :=
  ((put_user m uattr (Z.of_nat sizeof_attr)).1, inl (- E2BIG)).
Definition sched_copy_attr (m : user) (uattr : Z) : user * (Z + attr) :=
  match get_user m uattr with
  | inl ret => (m, inl ret)
  | inr size =>
      let size := if (size =? 0)%c then SCHED_ATTR_SIZE_VER0 else size in
      if ((size <? SCHED_ATTR_SIZE_VER0)%c || (PAGE_SIZE <? size)%c)%bool then err_size m uattr else
      match copy_struct_from_user m sizeof_attr uattr (Z.to_nat size) with
      | inl ret => if (ret =? - E2BIG)%c then err_size m uattr else (m, inl ret)
      | inr bs =>
          let a := decode bs in
          if (negb (Z.land (sched_flags a) SCHED_FLAG_UTIL_CLAMP =? 0)%c && (size <? SCHED_ATTR_SIZE_VER1)%c)%bool
          then (m, inl (- EINVAL))
          else (m, inr (set_nice a (SchedClass.clamp (sched_nice a) MIN_NICE MAX_NICE)))
      end
  end.

Definition sys_sched_setattr (e : SchedClass.env) (s : sys) (pid uattr flags : Z) : res (Z * sys) :=
  if ((uattr =? 0)%c || (pid <? 0)%c || negb (flags =? 0)%c)%bool then Ok (- EINVAL, s) else
  match sched_copy_attr (mem s) uattr with
  | (m, inl retval) => Ok (retval, set_mem s m)
  | (m, inr a) =>
      let s := set_mem s m in
      if (s32 (sched_policy a) <? 0)%c then Ok (- EINVAL, s) else
      let a := if negb (Z.land (sched_flags a) SCHED_FLAG_KEEP_POLICY =? 0)%c
               then set_policy a (u32 SchedClass.SETPARAM_POLICY) else a in
      match find_process_by_pid s pid with
      | None => Ok (- ESRCH, s)
      | Some (pid, p) =>
          '(retval, p) ← SchedClass.sched_setattr reweight e p (class_attr a);
          Ok (retval, set_task s pid p)
      end
  end.

(** ** Reading *)
Definition sys_sched_getscheduler (s : sys) (pid : Z) : Z :=
  if (pid <? 0)%c then - EINVAL else
  match find_process_by_pid s pid with
  | None => - ESRCH
  | Some (pid, p) =>
      let retval := security_task_getscheduler pid in
      if (retval =? 0)%c
      then Z.lor (SchedClass.policy p) (if SchedClass.reset_on_fork p then SCHED_RESET_ON_FORK else 0)
      else retval
  end.

Definition sys_sched_getparam (s : sys) (pid param : Z) : Z * sys :=
  if ((param =? 0)%c || (pid <? 0)%c)%bool then (- EINVAL, s) else
  match find_process_by_pid s pid with
  | None => (- ESRCH, s)
  | Some (pid, p) =>
      let retval := security_task_getscheduler pid in
      if negb (retval =? 0)%c then (retval, s) else
      let prio := if SchedClass.task_has_rt_policy p then SchedClass.rt_priority p else 0 in
      let '(m, done) := copy_to_user (mem s) param (to_le 4 prio) in
      (if done then 0 else - EFAULT, set_mem s m)
  end.

Definition sched_attr_copy_to_user (m : user) (uattr : Z) (kattr : attr) (usize : Z) : user * Z :=
  if negb (access_ok uattr usize) then (m, - EFAULT) else
  let kattr := set_size kattr (Z.min usize (Z.of_nat sizeof_attr)) in
  let '(m, done) := copy_to_user m uattr (take (Z.to_nat (size kattr)) (encode kattr)) in
  (m, if done then 0 else - EFAULT).

(** What sched_getattr reports of a task. *)
Definition set_util (a : attr) (v : Z * Z) : attr :=
  mk_attr (size a) (sched_policy a) (sched_flags a) (sched_nice a) (sched_priority a) (sched_runtime a)
    (sched_deadline a) (sched_period a) v.1 v.2.
Definition attr_of (pid : Z) (p : SchedClass.task) : attr :=
  let flags := if SchedClass.reset_on_fork p then SCHED_FLAG_RESET_ON_FORK else 0 in
  let kattr nice priority := mk_attr 0 (SchedClass.policy p) flags nice priority 0 0 0 0 0 in
  set_util (if SchedClass.task_has_dl_policy p then __getparam_dl p (kattr 0 0)
            else if SchedClass.task_has_rt_policy p then kattr 0 (SchedClass.rt_priority p)
            else kattr (SchedClass.task_nice p) 0) (uclamp_req pid).

Definition sys_sched_getattr (s : sys) (pid uattr usize flags : Z) : Z * sys :=
  if ((uattr =? 0)%c || (pid <? 0)%c || (PAGE_SIZE <? usize)%c || (usize <? SCHED_ATTR_SIZE_VER0)%c ||
      negb (flags =? 0)%c)%bool then (- EINVAL, s) else
  match find_process_by_pid s pid with
  | None => (- ESRCH, s)
  | Some (pid, p) =>
      let retval := security_task_getscheduler pid in
      if negb (retval =? 0)%c then (retval, s) else
      let '(m, retval) := sched_attr_copy_to_user (mem s) uattr (attr_of pid p) usize in
      (retval, set_mem s m)
  end.

(** ** The ranges of priorities *)
Definition sched_get_priority_max (policy : Z) : Z :=
  if ((policy =? SCHED_FIFO)%c || (policy =? SCHED_RR)%c)%bool then MAX_USER_RT_PRIO - 1
  else if ((policy =? SCHED_DEADLINE)%c || (policy =? SCHED_NORMAL)%c || (policy =? SCHED_BATCH)%c ||
           (policy =? SCHED_IDLE)%c)%bool then 0
  else - EINVAL.
Definition sched_get_priority_min (policy : Z) : Z :=
  if ((policy =? SCHED_FIFO)%c || (policy =? SCHED_RR)%c)%bool then 1
  else if ((policy =? SCHED_DEADLINE)%c || (policy =? SCHED_NORMAL)%c || (policy =? SCHED_BATCH)%c ||
           (policy =? SCHED_IDLE)%c)%bool then 0
  else - EINVAL.

End Model.
End SchedCalls.
