(* ===== verification/SchedCallsTheorems.v ===== *)
(** * The scheduling system calls: theorems (src/Assignment_4/fifo/core.c)

    What is set is read back through user memory; structures of other sizes; which
    bytes the calls write; the ranges of priorities. *)
From Stdlib Require Import ZArith Lia.
From stdpp Require Import gmap.
From S2P Require Import Prelude CLib SchedInfo SchedClass SchedClassTheorems SchedCalls.
Import SchedCalls.

Local Open Scope Z_scope.

(** ** Bytes *)
Lemma le_to_le n : forall v, 0 <= v < 256 ^ Z.of_nat n -> le (to_le n v) = v.
Proof.
  induction n as [|n IH]; intros v Hv; [simpl in *; lia|]. cbn [to_le le].
  rewrite Nat2Z.inj_succ, Z.pow_succ_r in Hv by lia.
  rewrite IH; [pose proof (Z_div_mod_eq_full v 256); lia|].
  split; [apply Z.div_pos; lia|apply Z.div_lt_upper_bound; lia].
Qed.
Lemma length_to_le n : forall v, length (to_le n v) = n.
Proof. induction n as [|n IH]; intros v; simpl; by rewrite ?IH. Qed.
Lemma length_encode a : length (encode a) = sizeof_attr.
Proof. reflexivity. Qed.

(** The fields of an encoded structure. *)
Lemma decode_policy a : 0 <= sched_policy a < 2 ^ 32 -> sched_policy (decode (encode a)) = sched_policy a.
Proof. intros H. change (le (to_le 4 (sched_policy a)) = sched_policy a). by apply le_to_le. Qed.
Lemma decode_flags a : 0 <= sched_flags a < 2 ^ 64 -> sched_flags (decode (encode a)) = sched_flags a.
Proof. intros H. change (le (to_le 8 (sched_flags a)) = sched_flags a). by apply le_to_le. Qed.
Lemma decode_priority a : 0 <= sched_priority a < 2 ^ 32 -> sched_priority (decode (encode a)) = sched_priority a.
Proof. intros H. change (le (to_le 4 (sched_priority a)) = sched_priority a). by apply le_to_le. Qed.
Lemma decode_nice a : - 2 ^ 31 <= sched_nice a < 2 ^ 31 -> sched_nice (decode (encode a)) = sched_nice a.
Proof.
  intros H. change (s32 (le (to_le 4 (u32 (sched_nice a)))) = sched_nice a).
  rewrite le_to_le by (apply Z.mod_pos_bound; lia). unfold s32, u32.
  rewrite Zplus_mod_idemp_l, Z.mod_small; lia.
Qed.

(** ** Memory *)
Lemma read_cons m a n : read m a (S n) = b ← m !! a; bs ← read m (a + 1) n; Some (b :: bs).
Proof.
  unfold read. cbn [seq]. simpl. rewrite Z.add_0_r. destruct (m !! a); [|done]. simpl.
  rewrite <- seq_shift. f_equal.
  assert (forall l, mapM (fun i => m !! (a + Z.of_nat i)) (map S l) = mapM (fun i => m !! (a + 1 + Z.of_nat i)) l) as ->.
  { induction l as [|i l IH]; [done|]. simpl. rewrite IH. do 2 f_equal. lia. }
  done.
Qed.
Lemma write_other m bs : forall a i, ~ a <= i < a + Z.of_nat (length bs) -> write m a bs !! i = m !! i.
Proof.
  revert m. induction bs as [|b bs IH]; intros m a i Hi; [done|]. cbn [write length] in *.
  rewrite IH by lia. by rewrite lookup_insert_ne by lia.
Qed.
Lemma read_write bs : forall m a, read (write m a bs) a (length bs) = Some bs.
Proof.
  induction bs as [|b bs IH]; intros m a; [done|]. cbn [write length]. rewrite read_cons.
  rewrite write_other by lia. rewrite lookup_insert_eq. simpl. by rewrite IH.
Qed.
Lemma read_prefix m : forall n a k, (k <= n)%nat -> is_Some (read m a n) -> is_Some (read m a k).
Proof.
  induction n as [|n IH]; intros a [|k] Hk [bs Hbs]; try (by eexists); [lia|].
  rewrite read_cons in *. destruct (m !! a) as [b|]; [|done]. simpl in *.
  destruct (read m (a + 1) n) as [bs'|] eqn:E; [|done].
  destruct (IH (a + 1) k) as [bs2 E2]; [lia|by eexists|]. rewrite E2. by eexists.
Qed.
Lemma read_app m : forall n a k bs, read m a (n + k) = Some bs ->
  read m a n = Some (take n bs) /\ read m (a + Z.of_nat n) k = Some (drop n bs).
Proof.
  induction n as [|n IH]; intros a k bs Hb.
  - rewrite Z.add_0_r. by rewrite drop_0.
  - cbn [Nat.add] in Hb. rewrite read_cons in *. destruct (m !! a) as [b|]; [|done]. simpl in *.
    destruct (read m (a + 1) (n + k)) as [bs'|] eqn:E; [|done]. simpl in Hb. injection Hb as <-.
    destruct (IH _ _ _ E) as [-> H2]. simpl. split; [done|]. rewrite <- H2. f_equal. lia.
Qed.
Lemma read_length m n : forall a bs, read m a n = Some bs -> length bs = n.
Proof.
  induction n as [|n IH]; intros a bs Hb; [by injection Hb as <-|]. rewrite read_cons in Hb.
  destruct (m !! a); [|done]. simpl in Hb. destruct (read m (a + 1) n) as [bs'|] eqn:E; [|done].
  simpl in Hb. injection Hb as <-. simpl. by rewrite (IH _ _ E).
Qed.

(** ** Flat memory, where every mapped byte can be copied *)
#[export] Instance flat : uaccess := {
  get_user m a := match read m a 4 with Some bs => inr (le bs) | None => inl (- EFAULT) end;
  put_user m a v := match read m a 4 with Some _ => (write m a (to_le 4 v), 0) | None => (m, - EFAULT) end;
  copy_from_user := read;
  access_ok a n := true;
  copy_to_user m a bs := match read m a (length bs) with Some _ => (write m a bs, true) | None => (m, false) end;
  copy_struct_from_user m k a n :=
    if (n <=? k)%nat
    then match read m a n with Some bs => inr (bs ++ replicate (k - n) 0) | None => inl (- EFAULT) end
    else match read m (a + Z.of_nat k) (n - k) with
         | None => inl (- EFAULT)
         | Some rest => if forallb (fun b => b =? 0)%c rest
                        then match read m a k with Some bs => inr bs | None => inl (- EFAULT) end
                        else inl (- E2BIG)
         end
}.
#[export] Instance flat_ok : uaccess_ok flat.
Proof.
  split; try done.
  - intros m a v [bs H]. simpl. by rewrite H.
  - intros m a v b Hb. simpl. case_match; [|done]. simpl. rewrite <- (write_other m (to_le 4 v) a b); done.
  - intros m a bs [l H]. simpl. by rewrite H.
  - intros m a bs b Hb. simpl. case_match; [|done]. simpl. by rewrite write_other.
  - intros m k a n Hk. simpl. by rewrite (proj2 (Nat.leb_le n k) Hk).
  - intros m k a n Hk. simpl. by rewrite (proj2 (Nat.leb_gt n k) Hk).
Qed.

Section Theorems.
Context `{h : headers} {hok : headers_ok h} `{ua : uaccess} {uok : uaccess_ok ua}.
Context `{uapi : sched_uapi} {apiok : sched_uapi_ok uapi}.
Context (reweight : Z -> res SchedClass.load_weight).
Context (security_task_getscheduler : Z -> Z) (uclamp_req : Z -> Z * Z).
Context (__getparam_dl : SchedClass.task -> attr -> attr).

(** ** Sizes *)

(** A structure as it is after a successful copy. *)
Definition copied (bs : list Z) : attr :=
  set_nice (decode bs) (SchedClass.clamp (sched_nice (decode bs)) MIN_NICE MAX_NICE).
Definition size_of (bs : list Z) : Z :=
  let n := le (take 4 bs) in if (n =? 0)%c then 48 else n.
Definition wants_clamp (bs : list Z) : bool := negb (Z.land (sched_flags (decode bs)) SCHED_FLAG_UTIL_CLAMP =? 0)%c.

Lemma get_user_prefix m u n bs : read m u n = Some bs -> (4 <= n)%nat -> get_user m u = inr (le (take 4 bs)).
Proof.
  intros Hr Hn. rewrite get_user_read. replace n with (4 + (n - 4))%nat in Hr by lia.
  by destruct (read_app _ _ _ _ _ Hr) as [-> _].
Qed.

(** The size protocol of struct sched_attr. For a readable buffer, by the size
    in its first field (0 counting as 48): below 48 or above a page the call
    answers E2BIG and stores 56; up to 56 missing bytes count as zeros, but
    utilization clamps need all 56; above 56 the rest must be zeros, or the answer
    is E2BIG with 56 stored. The nice value is always clamped. *)
Theorem sched_attr_sizes m u bs :
  read m u (length bs) = Some bs -> (56 <= length bs)%nat -> size_of bs <= Z.of_nat (length bs) ->
  let big := (write m u (to_le 4 56), inl (- E2BIG)) in
  let n := Z.to_nat (size_of bs) in
  sched_copy_attr m u =
    (if ((size_of bs <? 48)%c || (4096 <? size_of bs)%c)%bool then big
     else if (size_of bs <=? 56)%c then
       let known := take n bs ++ replicate (56 - n) 0 in
       if (wants_clamp known && (size_of bs <? 56)%c)%bool then (m, inl (- EINVAL)) else (m, inr (copied known))
     else if forallb (fun b => b =? 0)%c (drop 56 (take n bs)) then (m, inr (copied (take 56 bs))) else big).
Proof.
  intros Hr Hlen Hs. cbv zeta. destruct attr_sizes as (E0 & E1 & E2).
  assert (put_user m u (Z.of_nat sizeof_attr) = (write m u (to_le 4 56), 0)) as Hput.
  { apply put_user_write. apply (read_prefix m (length bs)); [lia|by rewrite Hr]. }
  unfold sched_copy_attr, err_size. rewrite Hput, E0, E1, E2.
  rewrite (get_user_prefix _ _ _ _ Hr) by lia. cbv zeta.
  change (if (le (take 4 bs) =? 0)%c then 48 else le (take 4 bs)) with (size_of bs).
  destruct (_ || _)%bool eqn:Eb; [done|]. apply orb_false_elim in Eb as [Eb1%Z.ltb_ge Eb2%Z.ltb_ge].
  assert (Z.to_nat (size_of bs) <= length bs)%nat as Hn by lia.
  destruct (Z.leb_spec (size_of bs) 56) as [H56|H56].
  - rewrite copy_struct_short by (unfold sizeof_attr; lia).
    replace (length bs) with (Z.to_nat (size_of bs) + (length bs - Z.to_nat (size_of bs)))%nat in Hr by lia.
    destruct (read_app _ _ _ _ _ Hr) as [-> _]. unfold wants_clamp, copied. by destruct (_ && _)%bool.
  - rewrite copy_struct_long by (unfold sizeof_attr; lia). unfold sizeof_attr.
    set (n := Z.to_nat (size_of bs)) in *.
    assert (read m u n = Some (take n bs)) as Hrn.
    { replace (length bs) with (n + (length bs - n))%nat in Hr by lia. by destruct (read_app _ _ _ _ _ Hr). }
    assert (read m u 56 = Some (take 56 bs) /\ read m (u + Z.of_nat 56) (n - 56) = Some (drop 56 (take n bs)))
      as [H1 H2].
    { replace n with (56 + (n - 56))%nat in Hrn by lia. destruct (read_app _ _ _ _ _ Hrn) as [H1 H2].
      rewrite take_take in H1. rewrite Nat.min_l in H1 by lia. split; [done|].
      by replace (56 + (n - 56))%nat with n in H2 by lia. }
    rewrite H1, H2. destruct (forallb _ _); [|done].
    rewrite (proj2 (Z.ltb_ge (size_of bs) 56)) by lia. by rewrite andb_false_r.
Qed.

(** ** Round trip *)

(** A structure that fits its 56 bytes. *)
Definition attr_wf (a : attr) : Prop :=
  size a = 56 /\ 0 <= sched_policy a < 2 ^ 31 /\ 0 <= sched_flags a < 2 ^ 64 /\
  - 2 ^ 31 <= sched_nice a < 2 ^ 31 /\ 0 <= sched_priority a < 2 ^ 32.
Definition has_flag (a : attr) (f : Z) : bool := negb (Z.land (sched_flags a) f =? 0)%c.

Lemma copy_encoded m u a : attr_wf a -> read m u 56 = Some (encode a) ->
  sched_copy_attr m u =
    (m, inr (set_nice (decode (encode a)) (SchedClass.clamp (sched_nice a) MIN_NICE MAX_NICE))).
Proof.
  intros (Hsz & _ & _ & Hn & _) Hr. destruct attr_sizes as (E0 & E1 & E2). unfold sched_copy_attr.
  rewrite (get_user_prefix _ _ _ _ Hr) by lia.
  change (take 4 (encode a)) with (to_le 4 (size a)). rewrite Hsz. cbv zeta. rewrite E0, E1, E2.
  change (le (to_le 4 56)) with 56. cbn -[copy_struct_from_user decode encode SchedClass.clamp sizeof_attr Z.to_nat replicate Nat.sub].
  rewrite copy_struct_short by (unfold sizeof_attr; lia). change (Z.to_nat 56) with 56%nat.
  rewrite Hr. change (replicate (sizeof_attr - 56) 0) with (@nil Z). rewrite app_nil_r, andb_false_r.
  by rewrite decode_nice.
Qed.

Lemma find_set_task s pid n p p' : find_process_by_pid s pid = Some (n, p) ->
  find_process_by_pid (set_task s n p') pid = Some (n, p').
Proof.
  unfold find_process_by_pid. simpl. set (k := if (pid =? 0)%c then _ else _). intros H.
  destruct (tasks s !! k) as [q|]; simpl in H; [|done]. injection H as <- <-.
  by rewrite lookup_insert_eq.
Qed.

Lemma rt_not_fair pol : rt_policy pol = true -> fair_policy pol = true -> False.
Proof.
  pose proof policies_distinct as HD. rewrite !NoDup_cons, !elem_of_cons in HD.
  rewrite rt_policy_def, fair_policy_def, !orb_true_iff, !Z.eqb_eq. naive_solver congruence.
Qed.

(** What sched_setattr did, when it answers 0. *)
Lemma setattr_success e s pid u s' a : attr_wf a -> has_flag a SCHED_FLAG_KEEP_POLICY = false ->
  read (mem s) u 56 = Some (encode a) -> sys_sched_setattr reweight e s pid u 0 = Ok (0, s') ->
  exists (n : Z) p p', find_process_by_pid s pid = Some (n, p) /\ s' = set_task s n p' /\
    SchedClass.sched_setattr reweight e p
      (SchedClass.mk_attr (sched_policy a) (sched_flags a)
         (SchedClass.clamp (sched_nice a) MIN_NICE MAX_NICE) (sched_priority a)) = Ok (0, p').
Proof.
  intros Hwf Hk Hr. unfold sys_sched_setattr. destruct (_ || _)%bool; [done|].
  rewrite (copy_encoded _ _ _ Hwf Hr). destruct Hwf as (_ & Hp & Hf & _ & Hpr).
  cbn [sched_policy sched_flags set_nice]. rewrite decode_policy, decode_flags by lia.
  unfold has_flag in Hk. rewrite Hk. destruct (_ <? 0)%c; [done|].
  assert (set_mem s (mem s) = s) as -> by by destruct s.
  destruct (find_process_by_pid s pid) as [[n p]|]; [|done]. intros H.
  apply bind_ok in H as ([r p'] & H & E). injection E as -> <-. exists n, p, p'. split_and!; try done.
  unfold class_attr in H. cbn [sched_policy sched_flags sched_nice sched_priority set_nice] in H.
  by rewrite decode_policy, decode_flags, decode_priority in H by lia.
Qed.

(** Reading the attributes of a known task into a mapped buffer. *)
Lemma getattr_success s pid v usize n p : find_process_by_pid s pid = Some (n, p) -> 0 <= pid -> v <> 0 ->
  56 <= usize <= 4096 -> security_task_getscheduler n = 0 -> is_Some (read (mem s) v (Z.to_nat usize)) ->
  let k := set_size (attr_of uclamp_req __getparam_dl n p) 56 in
  sys_sched_getattr security_task_getscheduler uclamp_req __getparam_dl s pid v usize 0 =
    (0, set_mem s (write (mem s) v (encode k))).
Proof.
  intros Hf Hp Hv Hu Hs Hr k. destruct attr_sizes as (E0 & _ & E2). unfold sys_sched_getattr.
  rewrite E0, E2, Hf, Hs, (proj2 (Z.eqb_neq _ _) Hv), (proj2 (Z.ltb_ge pid 0)), (proj2 (Z.ltb_ge 4096 usize)),
    (proj2 (Z.ltb_ge usize 48)) by lia.
  cbn [orb negb Z.eqb]. unfold sched_attr_copy_to_user.
  replace usize with (Z.of_nat (Z.to_nat usize)) at 1 by lia. rewrite (access_ok_mapped (mem s)) by done.
  cbn [negb]. cbv zeta. replace (Z.min usize (Z.of_nat sizeof_attr)) with 56 by (unfold sizeof_attr; lia).
  fold k. change (Z.to_nat (size k)) with (length (encode k)). rewrite firstn_all.
  rewrite copy_to_user_write; [done|]. apply (read_prefix _ (Z.to_nat usize)); [|done].
  change (length (encode k)) with 56%nat. lia.
Qed.

(** ** What is written *)
Definition changed_only (m m' : user) (a n : Z) : Prop := forall b, ~ a <= b < a + n -> m' !! b = m !! b.

Lemma length_take_encode n a : (n <= 56)%nat -> length (take n (encode a)) = n.
Proof. intros Hn. rewrite length_take, length_encode. unfold sizeof_attr. lia. Qed.

(** The calls write to user memory only where they may. sched_getattr changes
    nothing outside the [usize] bytes it is given, and never more than 56;
    sched_getparam nothing but the 4 bytes of the priority; sched_setattr nothing
    but the size field, and only when it answers E2BIG. *)
Theorem calls_write_in_bounds e s pid u usize flags :
  changed_only (mem s) (mem (sys_sched_getattr security_task_getscheduler uclamp_req __getparam_dl s pid u usize flags).2)
    u (Z.min usize 56) /\
  changed_only (mem s) (mem (sys_sched_getparam security_task_getscheduler s pid u).2) u 4 /\
  (forall r s', sys_sched_setattr reweight e s pid u flags = Ok (r, s') ->
     mem s' = mem s \/ r = - E2BIG /\ changed_only (mem s) (mem s') u 4).
Proof.
  split_and!.
  - intros b Hb. unfold sys_sched_getattr. destruct attr_sizes as (E0 & _ & E2). rewrite E0, E2.
    destruct (_ || _)%bool eqn:Eb; [done|]. repeat apply orb_false_elim in Eb as [Eb ?]. bool_to_prop.
    destruct (find_process_by_pid s pid) as [[n p]|]; [|done].
    destruct (negb _); [done|]. unfold sched_attr_copy_to_user. destruct (negb _); [done|].
    set (k := set_size _ _). destruct (copy_to_user _ _ _) as [m' d] eqn:E. simpl.
    change (m') with (m', d).1. rewrite <- E. apply copy_to_user_frame.
    assert (size k = Z.min usize 56) as -> by done. rewrite length_take_encode by lia. lia.
  - intros b Hb. unfold sys_sched_getparam. destruct (_ || _)%bool; [done|].
    destruct (find_process_by_pid s pid) as [[n p]|]; [|done]. destruct (negb _); [done|].
    destruct (copy_to_user _ _ _) as [m' d] eqn:E. simpl. change m' with (m', d).1. rewrite <- E.
    by apply copy_to_user_frame.
  - intros r s'. unfold sys_sched_setattr. destruct (_ || _)%bool; [intros [= <- <-]; by left|].
    destruct (sched_copy_attr (mem s) u) as [m' [retval|a]] eqn:E.
    + intros [= <- <-]. simpl. unfold sched_copy_attr, err_size in E.
      destruct (get_user _ _) as [x|n]; [left; by simplify_eq|]. cbv zeta in E.
      repeat case_match; simplify_eq; try (by left);
        right; (split; [done|]; intros b Hb; by apply put_user_frame).
    + assert (m' = mem s) as ->.
      { unfold sched_copy_attr, err_size in E. repeat case_match; by simplify_eq. }
      simpl. case_match; [intros [= <- <-]; by left|].
      destruct (find_process_by_pid _ _) as [[n p]|]; [|intros [= <- <-]; by left].
      intros Hb. apply bind_ok in Hb as ([rv p'] & _ & Hb). simplify_eq. by left.
Qed.

(** C34: What sched_setattr stores is what the readers report. After an accepted call
    on a full structure (not a deadline policy, nothing to keep), sched_getattr of
    the same task into any mapped buffer of 56 bytes or more answers 0, and the
    structure in the buffer has the policy set, the priority under a real-time
    policy, the nice value clamped to -20..19 under a fair one, and of the flags
    exactly SCHED_FLAG_RESET_ON_FORK when it was asked for. sched_getscheduler
    reports the same policy, with its own bit for that flag. *)
Theorem set_then_get e s pid u s1 a v usize n p :
  attr_wf a -> has_flag a SCHED_FLAG_KEEP_POLICY = false -> has_flag a SCHED_FLAG_KEEP_PARAMS = false ->
  dl_policy (sched_policy a) = false -> read (mem s) u 56 = Some (encode a) ->
  sys_sched_setattr reweight e s pid u 0 = Ok (0, s1) ->
  find_process_by_pid s pid = Some (n, p) -> 0 <= pid -> v <> 0 -> security_task_getscheduler n = 0 ->
  56 <= usize <= 4096 -> is_Some (read (mem s) v (Z.to_nat usize)) ->
  exists s2 b, sys_sched_getattr security_task_getscheduler uclamp_req __getparam_dl s1 pid v usize 0 = (0, s2) /\
    option_map decode (read (mem s2) v 56) = Some b /\ size b = 56 /\ sched_policy b = sched_policy a /\
    (rt_policy (sched_policy a) = true -> sched_priority b = sched_priority a) /\
    (fair_policy (sched_policy a) = true -> sched_nice b = SchedClass.clamp (sched_nice a) (-20) 19) /\
    sched_flags b = (if has_flag a SCHED_FLAG_RESET_ON_FORK then SCHED_FLAG_RESET_ON_FORK else 0) /\
    sys_sched_getscheduler security_task_getscheduler s1 pid =
      Z.lor (sched_policy a) (if has_flag a SCHED_FLAG_RESET_ON_FORK then SCHED_RESET_ON_FORK else 0).
Proof.
  intros Hwf Hk Hkp Hdl Hr Hset Hf Hpid Hv Hsec Hu Hbuf.
  destruct (setattr_success _ _ _ _ _ _ Hwf Hk Hr Hset) as (n' & q & p' & Hf' & -> & Hs).
  rewrite Hf in Hf'. injection Hf' as <- <-. destruct Hwf as (_ & Hp & Hfl & Hn & Hpr).
  destruct nice_values as (Hmin & Hmax & _). rewrite Hmin, Hmax in Hs.
  apply (setscheduler_success reweight e p _ true p' (sched_policy a)) in Hs as (S1 & S2 & S3 & S4);
    [|unfold s32; simpl; rewrite Z.mod_small; lia|lia|exact Hkp].
  change (SchedClass.reset_on_fork p' = has_flag a SCHED_FLAG_RESET_ON_FORK) in S4.
  pose proof (find_set_task s pid n p p' Hf) as Hf1.
  rewrite (getattr_success _ pid v usize n p' Hf1 Hpid Hv Hu Hsec Hbuf).
  set (k := set_size _ 56).
  assert (sched_policy k = sched_policy a /\ sched_flags k = (if has_flag a SCHED_FLAG_RESET_ON_FORK then SCHED_FLAG_RESET_ON_FORK else 0) /\
    (rt_policy (sched_policy a) = true -> sched_priority k = sched_priority a) /\
    (fair_policy (sched_policy a) = true -> sched_nice k = SchedClass.clamp (sched_nice a) (-20) 19)) as (K1 & K2 & K3 & K4).
  { unfold k, attr_of, SchedClass.task_has_dl_policy, SchedClass.task_has_rt_policy. rewrite S1, S4, Hdl.
    destruct (rt_policy (sched_policy a)) eqn:Ert; cbn; split_and!; try done.
    - intros Hfair. by destruct (rt_not_fair _ Ert).
    - intros Hfair. by apply S3. }
  assert (0 <= sched_flags k < 2 ^ 64) as Kf.
  { rewrite K2. destruct (has_flag a SCHED_FLAG_RESET_ON_FORK); [apply reset_flag|lia]. }
  eexists _, (decode (encode k)). split; [done|]. cbn [mem set_mem].
  assert (read (write (mem s) v (encode k)) v 56 = Some (encode k)) as Hrd by apply read_write.
  change (mem (set_task s n p')) with (mem s). rewrite Hrd. split; [done|]. split; [reflexivity|].
  rewrite decode_policy, decode_flags by (try done; lia). rewrite K1, K2. split_and!; [done| | |done|].
  - intros Hrt. rewrite decode_priority; rewrite K3 by done; [done|lia].
  - intros Hfair. rewrite decode_nice; rewrite K4 by done; [done|]. unfold SchedClass.clamp. lia.
  - unfold sys_sched_getscheduler. rewrite Hf1, Hsec, (proj2 (Z.ltb_ge pid 0)) by lia.
    cbn -[Z.lor]. by rewrite S1, S4.
Qed.

(** ** The ranges of priorities *)

Lemma priority_range_cases pol :
  rt_policy pol = true /\ SchedClass.valid_policy pol = true /\
    sched_get_priority_min pol = 1 /\ sched_get_priority_max pol = 99 \/
  rt_policy pol = false /\ SchedClass.valid_policy pol = true /\
    sched_get_priority_min pol = 0 /\ sched_get_priority_max pol = 0 \/
  SchedClass.valid_policy pol = false /\ sched_get_priority_min pol = - SchedClass.EINVAL /\
    sched_get_priority_max pol = - SchedClass.EINVAL.
Proof.
  destruct prio_values as (_ & _ & Hurt). unfold sched_get_priority_min, sched_get_priority_max, SchedClass.valid_policy.
  rewrite idle_policy_def, fair_policy_def, rt_policy_def, dl_policy_def, Hurt.
  destruct (pol =? SCHED_FIFO)%c, (pol =? SCHED_RR)%c, (pol =? SCHED_DEADLINE)%c, (pol =? SCHED_NORMAL)%c,
    (pol =? SCHED_BATCH)%c, (pol =? SCHED_IDLE)%c; cbn; auto 6.
Qed.

(** The checks of a privileged caller who asks for no flags. *)
Lemma checks_privileged e p pol nice v q reset :
  SchedClass.capable_sys_nice e = true -> SchedClass.security_task_setscheduler e = 0 ->
  SchedClass.checkparam_dl e = true ->
  SchedClass.setscheduler_checks e p (SchedClass.mk_attr pol 0 nice v) true q reset =
    (if ((0 <=? s32 pol)%c && negb (SchedClass.valid_policy q))%bool then - SchedClass.EINVAL
     else if (99 <? v)%c then - SchedClass.EINVAL
     else if negb (Bool.eqb (rt_policy q) (negb (v =? 0)%c)) then - SchedClass.EINVAL else 0).
Proof.
  intros Hcap Hsec Hdlp. destruct prio_values as (_ & Hrt & Hurt).
  unfold SchedClass.setscheduler_checks, SchedClass.flag.
  cbn [SchedClass.sched_policy SchedClass.sched_flags SchedClass.sched_priority].
  rewrite Hcap, Hsec, Hdlp, Hrt, Hurt, !Z.land_0_l, andb_false_r. change (100 - 1) with 99. cbn.
  by destruct (SchedClass.has_mm p), (99 <? v)%c.
Qed.

(** sched_get_priority_min and sched_get_priority_max tell the priorities that
    sched_setscheduler takes. For a privileged caller the checks accept a policy and
    a priority exactly when the priority is in the reported range, for every policy
    number, and answer EINVAL otherwise; the range of an unknown policy is empty.
    The redirected SCHED_NORMAL of the FIFO kernel is accepted with any priority,
    although its range is 0..0. *)
Theorem priority_ranges e p pol nice v reset : 0 <= pol < 2 ^ 31 -> 0 <= v ->
  SchedClass.capable_sys_nice e = true -> SchedClass.security_task_setscheduler e = 0 ->
  SchedClass.checkparam_dl e = true ->
  SchedClass.setscheduler_checks e p (SchedClass.mk_attr pol 0 nice v) true pol reset =
    (if ((sched_get_priority_min pol <=? v)%c && (v <=? sched_get_priority_max pol)%c)%bool
     then 0 else - SchedClass.EINVAL) /\
  SchedClass.setscheduler_checks e p (SchedClass.setscheduler_attr SchedInfo.FIFO p SCHED_NORMAL v) true
    SCHED_FIFO reset = 0 /\
  sched_get_priority_min SCHED_NORMAL = 0 /\ sched_get_priority_max SCHED_NORMAL = 0.
Proof.
  intros Hpol Hv Hcap Hsec Hdlp. destruct prio_values as (_ & Hrt & Hurt).
  destruct policy_cases as (N1%Z.eqb_neq & N2%Z.eqb_neq & _). split_and!.
  - rewrite checks_privileged by done. unfold s32. rewrite Z.mod_small by lia.
    replace (pol + 2 ^ 31 - 2 ^ 31) with pol by lia. rewrite (proj2 (Z.leb_le 0 _)) by lia.
    destruct (priority_range_cases pol) as [(Hr & -> & -> & ->)|[(Hr & -> & -> & ->)|(-> & -> & ->)]];
      rewrite ?Hr; cbn [negb orb andb].
    + destruct (Z.ltb_spec 99 v), (Z.leb_spec v 99); try lia; [by rewrite andb_false_r|].
      destruct (Z.eqb_spec v 0) as [->|Hv0]; [done|]. by rewrite (proj2 (Z.leb_le 1 v)) by lia.
    + rewrite (proj2 (Z.leb_le 0 v)) by lia.
      destruct (Z.ltb_spec 99 v), (Z.eqb_spec v 0), (Z.leb_spec v 0); try lia; done.
    + rewrite (proj2 (Z.leb_gt v _)) by (unfold SchedClass.EINVAL; lia). by rewrite andb_false_r.
  - assert (SchedClass.setscheduler_attr SchedInfo.FIFO p SCHED_NORMAL v =
      SchedClass.mk_attr SCHED_FIFO 0 (PRIO_TO_NICE (SchedClass.static_prio p)) 50) as ->.
    { unfold SchedClass.setscheduler_attr. rewrite normal_zero, Hrt. done. }
    destruct fifo_policy as (F1 & _). rewrite checks_privileged by done.
    unfold SchedClass.valid_policy. by rewrite F1, !orb_true_r, andb_false_r.
  - unfold sched_get_priority_min. by rewrite N1, N2, Z.eqb_refl, !orb_true_r.
  - unfold sched_get_priority_max. by rewrite N1, N2, Z.eqb_refl, !orb_true_r.
Qed.

End Theorems.

(** ** Witnesses: Linux 5.11 with flat memory *)
#[local] Existing Instances linux linux_uapi.

(** SCHED_BATCH with nice -100 and reset-on-fork at address 4096, a free buffer at 8192. *)
Definition demo_attr : attr := mk_attr 56 3 1 (-100) 0 0 0 0 0 0.
Definition demo_mem : user := write (write ∅ 4096 (encode demo_attr)) 8192 (replicate 64 0).
Definition demo_sys : sys := mk_sys {[ 1 := SchedClassTheorems.demo_task ]} 1 demo_mem.
Definition demo_after : sys :=
  match sys_sched_setattr linux_reweight root_env demo_sys 0 4096 0 with Ok (_, s) => s | _ => demo_sys end.

Lemma sched_attr_sizes_witness :
  sched_copy_attr demo_mem 4096 = (demo_mem, inr (set_nice demo_attr (-20))).
Proof.
  rewrite (sched_attr_sizes (h := linux) (uok := flat_ok) (apiok := linux_uapi_ok) demo_mem 4096 (encode demo_attr)).
  - vm_compute. reflexivity.
  - vm_compute. reflexivity.
  - vm_compute. lia.
  - vm_compute. discriminate.
Defined.

Lemma set_then_get_witness : exists s2 b,
  sys_sched_getattr (fun _ => 0) (fun _ => (0, 1024)) (fun _ k => k) demo_after 1 8192 64 0 = (0, s2) /\
  option_map decode (read (mem s2) 8192 56) = Some b /\ sched_policy b = 3 /\ sched_nice b = -20.
Proof.
  destruct (set_then_get (h := linux) (hok := linux_ok) (uok := flat_ok) (apiok := linux_uapi_ok) linux_reweight
    (fun _ => 0) (fun _ => (0, 1024)) (fun _ k => k) root_env demo_sys 1 4096 demo_after demo_attr 8192 64
    1 SchedClassTheorems.demo_task) as (s2 & b & H1 & H2 & _ & H3 & _ & H4 & _).
  1: { unfold attr_wf. vm_compute. split_and!; try reflexivity; discriminate. }
  1-6: vm_compute; reflexivity.
  1: lia.
  1: discriminate.
  1: reflexivity.
  1: lia.
  1: { eexists. vm_compute. reflexivity. }
  exists s2, b. split; [exact H1|]. split; [exact H2|]. split; [exact H3|]. apply H4. reflexivity.
Defined.

Lemma priority_ranges_witness :
  SchedClass.setscheduler_checks root_env demo_task (SchedClass.mk_attr 2 0 0 100) true 2 false = -22.
Proof.
  destruct (priority_ranges (h := linux) (hok := linux_ok) root_env demo_task 2 0 100 false) as [-> _];
    first [reflexivity|lia|vm_compute; done].
Defined.

(** A buffer of 48 bytes: the eight bytes behind it keep their value. *)
Lemma calls_write_in_bounds_witness :
  read (mem (sys_sched_getattr (fun _ => 0) (fun _ => (7, 1024)) (fun _ k => k) demo_after 1 8192 48 0).2) 8240 8 =
  Some (replicate 8 0).
Proof.
  pose proof (proj1 (calls_write_in_bounds (h := linux) (uok := flat_ok) (apiok := linux_uapi_ok) linux_reweight
    (fun _ => 0) (fun _ => (7, 1024)) (fun _ k => k) root_env demo_after 1 8192 48 0)) as H.
  unfold read. cbn [seq mapM].
  rewrite (H (8240 + Z.of_nat 0)), (H (8240 + Z.of_nat 1)), (H (8240 + Z.of_nat 2)), (H (8240 + Z.of_nat 3)),
    (H (8240 + Z.of_nat 4)), (H (8240 + Z.of_nat 5)), (H (8240 + Z.of_nat 6)), (H (8240 + Z.of_nat 7)) by lia.
  vm_compute. reflexivity.
Defined.
