(* ===== verification/RunQueue.v ===== *)
(** * The run queue of one CPU (src/Assignment_4/fifo/core.c, sched.h)

    Which task runs: fork, wake-up, sleep, exit, tick, preemption and yield, down
    to the calls into the scheduling classes, for a kernel without CONFIG_SMP.
    The classes (rt.c, fair.c, deadline.c, idle.c) are not here: they are the
    interface [sched_classes], and [sched_classes_ok] and [rt_ok] state what is
    documented of them.  Clocks, statistics and PSI are left out (see SchedInfo
    for the statistics and UClampSys for the clamps of the same functions);
    SetPrio adds the changes of priority of a queued task. *)
From Stdlib Require Import ZArith Lia.
From stdpp Require Import gmap.
From S2P Require Import Prelude CLib SchedInfo SchedClass.

Local Open Scope Z_scope.

(** The classes an !SMP kernel has, [rank] is the order of their addresses. *)
Inductive class_id := dl_class | rt_class | fair_class | idle_class.
#[export] Instance class_id_eq_dec : EqDecision class_id.
Proof. solve_decision. Defined.
Definition rank (c : class_id) : Z :=
  match c with dl_class => 4 | rt_class => 3 | fair_class => 2 | idle_class => 1 end.

(** What a class is told of a task. *)
Record entity := mk_entity { e_pid : Z; e_prio : Z; e_policy : Z }.
(** The result of pick_next_task_fair. *)
Inductive picked := RETRY_TASK | Picked (p : option Z).

(** The operations of [struct sched_class]; [cstate] is what the classes keep in
    the run queue; a [bool] tells whether the class called resched_curr. *)
Class sched_classes := mk_classes {
  cstate : Type;
  class_enqueue_task : class_id -> cstate -> entity -> bool -> cstate;
  class_dequeue_task : class_id -> cstate -> entity -> bool -> cstate;
  class_yield_task : class_id -> cstate -> entity -> cstate;
  class_check_preempt_curr : class_id -> cstate -> entity -> entity -> cstate * bool;
  class_pick_next_task : class_id -> cstate -> cstate * option Z;
  pick_next_task_fair : cstate -> entity -> cstate * picked;
  class_put_prev_task : class_id -> cstate -> entity -> cstate;
  class_task_tick : class_id -> cstate -> entity -> cstate * bool;
  class_task_fork : class_id -> cstate -> entity -> entity -> cstate * bool;
  class_task_dead : class_id -> cstate -> entity -> cstate;
  nr_running : cstate -> Z;
  h_nr_running : cstate -> Z                (* of cfs *)
}.

(** ** What every class promises: a set of queued tasks

    That of the real-time class follows from its lists, below. *)
Class sched_classes_ok (sc : sched_classes) (idle : Z) := {
  queued : class_id -> cstate -> gset Z;
  (** [s'] has the same tasks queued as [s]. *)
  same_queued (s s' : cstate) : Prop := forall c, queued c s' = queued c s;
  queued_enqueue c s e w : c <> idle_class ->
    queued c (class_enqueue_task c s e w) = queued c s ∪ {[ e_pid e ]};
  queued_enqueue_other c c' s e w : c' <> c -> queued c' (class_enqueue_task c s e w) = queued c' s;
  queued_dequeue c s e w : c <> idle_class -> c <> rt_class ->
    queued c (class_dequeue_task c s e w) = queued c s ∖ {[ e_pid e ]};
  queued_dequeue_other c c' s e w : c' <> c -> queued c' (class_dequeue_task c s e w) = queued c' s;
  queued_yield c s e : same_queued s (class_yield_task c s e);
  queued_check c s e e' : same_queued s (class_check_preempt_curr c s e e').1;
  queued_pick c s : same_queued s (class_pick_next_task c s).1;
  queued_pick_fair s e : same_queued s (pick_next_task_fair s e).1;
  queued_put c s e : same_queued s (class_put_prev_task c s e);
  queued_tick c s e : same_queued s (class_task_tick c s e).1;
  queued_fork c s e e' : same_queued s (class_task_fork c s e e').1;
  queued_dead c s e : same_queued s (class_task_dead c s e);
  pick_member c s pid : c <> idle_class -> (class_pick_next_task c s).2 = Some pid -> pid ∈ queued c s;
  pick_none c s : c <> idle_class -> (class_pick_next_task c s).2 = None -> queued c s = ∅;
  pick_idle s : (class_pick_next_task idle_class s).2 = Some idle;
  pick_fair_member s e pid : (pick_next_task_fair s e).2 = Picked (Some pid) -> pid ∈ queued fair_class s;
  pick_fair_none s e : (pick_next_task_fair s e).2 = Picked None -> queued fair_class s = ∅;
  running_fair s : nr_running s = h_nr_running s -> queued dl_class s = ∅ /\ queued rt_class s = ∅
}.

(** ** What the real-time class promises (man sched(7), without throttling)

    A list per priority; a task that becomes runnable goes to the end of its
    list; the first of the best list is picked; a better priority preempts; a
    tick concerns SCHED_RR only: at the end of its time slice the task goes to the
    end of its list and the class asks for a reschedule. *)
Class rt_ok `{h : headers} (sc : sched_classes) (idle : Z) (ok : sched_classes_ok sc idle) := {
  rt_list : cstate -> Z -> list Z;
  same_lists (s s' : cstate) : Prop := forall p, rt_list s' p = rt_list s p;
  rt_queued s pid : pid ∈ queued rt_class s <-> exists p, pid ∈ rt_list s p;
  rt_enqueue s e w p : rt_list (class_enqueue_task rt_class s e w) p =
    if decide (p = e_prio e) then rt_list s p ++ [e_pid e] else rt_list s p;
  rt_dequeue s e w p : rt_list (class_dequeue_task rt_class s e w) p =
    if decide (p = e_prio e) then filter (fun pid => pid <> e_pid e) (rt_list s p)
    else rt_list s p;
  rt_yield s e p : e_pid e ∈ rt_list s (e_prio e) -> rt_list (class_yield_task rt_class s e) p =
    if decide (p = e_prio e)
    then filter (fun pid => pid <> e_pid e) (rt_list s p) ++ [e_pid e] else rt_list s p;
  rt_check s curr e : same_lists s (class_check_preempt_curr rt_class s curr e).1 /\
    (class_check_preempt_curr rt_class s curr e).2 = (e_prio e <? e_prio curr)%c;
  rt_pick s pid : (class_pick_next_task rt_class s).2 = Some pid ->
    exists p q, rt_list s p = pid :: q /\ forall p', p' < p -> rt_list s p' = [];
  rt_tick s e : same_lists s (class_task_tick rt_class s e).1 /\ (class_task_tick rt_class s e).2 = false \/
    e_policy e = SCHED_RR /\ (class_task_tick rt_class s e).2 = true /\
    (e_pid e ∈ rt_list s (e_prio e) -> forall p, rt_list (class_task_tick rt_class s e).1 p =
       if decide (p = e_prio e)
       then filter (fun pid => pid <> e_pid e) (rt_list s p) ++ [e_pid e] else rt_list s p);
  rt_pick_same c s : same_lists s (class_pick_next_task c s).1;
  rt_pick_fair_same s e : same_lists s (pick_next_task_fair s e).1;
  rt_put_same c s e : same_lists s (class_put_prev_task c s e);
  rt_fork_same c s e e' : same_lists s (class_task_fork c s e e').1;
  rt_dead_same c s e : same_lists s (class_task_dead c s e);
  other_enqueue c s e w : c <> rt_class -> same_lists s (class_enqueue_task c s e w);
  other_dequeue c s e w : c <> rt_class -> same_lists s (class_dequeue_task c s e w);
  other_yield c s e : c <> rt_class -> same_lists s (class_yield_task c s e);
  other_check c s curr e : c <> rt_class -> same_lists s (class_check_preempt_curr c s curr e).1;
  other_tick c s e : c <> rt_class -> same_lists s (class_task_tick c s e).1
}.

Module RunQueue.

(** ** Task states *)
Definition TASK_RUNNING : Z := 0x0.
Definition TASK_INTERRUPTIBLE : Z := 0x1.
Definition TASK_UNINTERRUPTIBLE : Z := 0x2.
Definition TASK_DEAD : Z := 0x80.
Definition TASK_WAKEKILL : Z := 0x100.
Definition TASK_NOLOAD : Z := 0x400.
Definition TASK_NEW : Z := 0x800.
Definition TASK_NORMAL : Z := Z.lor TASK_INTERRUPTIBLE TASK_UNINTERRUPTIBLE.
Definition has (state mask : Z) : bool := negb (Z.land state mask =? 0)%c.

(** Values of [on_rq] (kernel/sched/sched.h has their names). *)
Inductive on_rq_state := NOT_QUEUED | TASK_ON_RQ_QUEUED | TASK_ON_RQ_MIGRATING.
#[export] Instance on_rq_state_eq_dec : EqDecision on_rq_state.
Proof. solve_decision. Defined.

(** The fields of [struct task_struct] used here; [base] has the policy and the
    priorities, [is_idle] stands for [sched_class == &idle_sched_class],
    [need_resched] for TIF_NEED_RESCHED, [frozen] for PF_FROZEN. *)
Record task := mk_task {
  base : SchedClass.task; is_idle : bool; state : Z; on_rq : on_rq_state; need_resched : bool;
  sched_contributes_to_load : bool; in_iowait : bool; frozen : bool; nvcsw : Z; nivcsw : Z
}.
(** sched_fork leaves no task in the idle class. *)
Definition set_base (t : task) v := mk_task v false (state t) (on_rq t) (need_resched t) (sched_contributes_to_load t) (in_iowait t) (frozen t) (nvcsw t) (nivcsw t).
Definition set_state (t : task) v := mk_task (base t) (is_idle t) v (on_rq t) (need_resched t) (sched_contributes_to_load t) (in_iowait t) (frozen t) (nvcsw t) (nivcsw t).
Definition set_on_rq (t : task) v := mk_task (base t) (is_idle t) (state t) v (need_resched t) (sched_contributes_to_load t) (in_iowait t) (frozen t) (nvcsw t) (nivcsw t).
Definition set_need_resched (t : task) v := mk_task (base t) (is_idle t) (state t) (on_rq t) v (sched_contributes_to_load t) (in_iowait t) (frozen t) (nvcsw t) (nivcsw t).
Definition set_contributes (t : task) v := mk_task (base t) (is_idle t) (state t) (on_rq t) (need_resched t) v (in_iowait t) (frozen t) (nvcsw t) (nivcsw t).
Definition set_in_iowait (t : task) v := mk_task (base t) (is_idle t) (state t) (on_rq t) (need_resched t) (sched_contributes_to_load t) v (frozen t) (nvcsw t) (nivcsw t).
Definition count_switch (t : task) (voluntary : bool) :=
  mk_task (base t) (is_idle t) (state t) (on_rq t) (need_resched t) (sched_contributes_to_load t) (in_iowait t)
    (frozen t) (if voluntary then nvcsw t + 1 else nvcsw t) (if voluntary then nivcsw t else nivcsw t + 1).

(** The tracepoints of these functions. *)
Inductive tracepoint :=
  | sched_wakeup (pid : Z) | sched_wakeup_new (pid : Z) | sched_switch (preempt : bool) (prev next : Z).

Section Model.
Context `{h : headers} `{sc : sched_classes}.
Context (reweight : Z -> res SchedClass.load_weight).

Definition klass (t : task) : class_id :=
  if is_idle t then idle_class
  else match SchedClass.class (base t) with
       | SchedClass.dl_sched_class => dl_class
       | SchedClass.rt_sched_class => rt_class
       | SchedClass.fair_sched_class => fair_class
       end.
Definition entity_of (pid : Z) (t : task) : entity :=
  mk_entity pid (SchedClass.prio (base t)) (SchedClass.policy (base t)).

(** [nr_switches] and the counters that load average and /proc/stat read. *)
Record rq := mk_rq {
  curr : Z; tasks : gmap Z task; classes : cstate;
  nr_uninterruptible : Z; nr_iowait : Z; nr_switches : Z; trace : list tracepoint
}.
Definition set_curr (s : rq) v := mk_rq v (tasks s) (classes s) (nr_uninterruptible s) (nr_iowait s) (nr_switches s) (trace s).
Definition set_tasks (s : rq) v := mk_rq (curr s) v (classes s) (nr_uninterruptible s) (nr_iowait s) (nr_switches s) (trace s).
Definition set_classes (s : rq) v := mk_rq (curr s) (tasks s) v (nr_uninterruptible s) (nr_iowait s) (nr_switches s) (trace s).
Definition add_uninterruptible (s : rq) n := mk_rq (curr s) (tasks s) (classes s) (nr_uninterruptible s + n) (nr_iowait s) (nr_switches s) (trace s).
Definition add_iowait (s : rq) n := mk_rq (curr s) (tasks s) (classes s) (nr_uninterruptible s) (nr_iowait s + n) (nr_switches s) (trace s).
Definition add_switch (s : rq) := mk_rq (curr s) (tasks s) (classes s) (nr_uninterruptible s) (nr_iowait s) (nr_switches s + 1) (trace s).
Definition add_trace (s : rq) (e : tracepoint) := mk_rq (curr s) (tasks s) (classes s) (nr_uninterruptible s) (nr_iowait s) (nr_switches s) (trace s ++ [e]).

Definition the_task (s : rq) (pid : Z) : res task := of_option NullPointer (tasks s !! pid).
(** Change the task [pid], which exists. *)
Definition update (s : rq) (pid : Z) (f : task -> task) : res rq :=
  t ← the_task s pid; Ok (set_tasks s (<[pid := f t]> (tasks s))).

(** ** Queueing *)
Definition resched_curr (s : rq) : res rq :=
  t ← the_task s (curr s);
  if need_resched t then Ok s else update s (curr s) (fun t => set_need_resched t true).

Definition check_preempt_curr (s : rq) (pid : Z) : res rq :=
  p ← the_task s pid;
  c ← the_task s (curr s);
  if decide (klass p = klass c) then
    let '(cs, resched) :=
      class_check_preempt_curr (klass c) (classes s) (entity_of (curr s) c) (entity_of pid p) in
    if resched then resched_curr (set_classes s cs) else Ok (set_classes s cs)
  else if (rank (klass c) <? rank (klass p))%c then resched_curr s
  else Ok s.

Definition enqueue_task (s : rq) (pid : Z) (wakeup : bool) : res rq :=
  p ← the_task s pid;
  Ok (set_classes s (class_enqueue_task (klass p) (classes s) (entity_of pid p) wakeup)).
Definition dequeue_task (s : rq) (pid : Z) (sleep : bool) : res rq :=
  p ← the_task s pid;
  Ok (set_classes s (class_dequeue_task (klass p) (classes s) (entity_of pid p) sleep)).
Definition activate_task (s : rq) (pid : Z) (wakeup : bool) : res rq :=
  s ← enqueue_task s pid wakeup;
  update s pid (fun p => set_on_rq p TASK_ON_RQ_QUEUED).
Definition deactivate_task (s : rq) (pid : Z) (sleep : bool) : res rq :=
  s ← update s pid (fun p => set_on_rq p (if sleep then NOT_QUEUED else TASK_ON_RQ_MIGRATING));
  dequeue_task s pid sleep.

(** ** Wake-up *)
Definition ttwu_do_wakeup (s : rq) (pid : Z) : res rq :=
  s ← check_preempt_curr s pid;
  s ← update s pid (fun p => set_state p TASK_RUNNING);
  Ok (add_trace s (sched_wakeup pid)).

Definition ttwu_do_activate (s : rq) (pid : Z) : res rq :=
  p ← the_task s pid;
  let s := if sched_contributes_to_load p then add_uninterruptible s (-1) else s in
  let s := if in_iowait p then add_iowait s (-1) else s in
  s ← activate_task s pid true;
  ttwu_do_wakeup s pid.

(** [None]: the wake-up is not done. *)
Definition ttwu_runnable (s : rq) (pid : Z) : res (option rq) :=
  p ← the_task s pid;
  if decide (on_rq p = TASK_ON_RQ_QUEUED) then s ← ttwu_do_wakeup s pid; Ok (Some s) else Ok None.

Definition ttwu_queue (s : rq) (pid : Z) : res rq := ttwu_do_activate s pid.

Definition try_to_wake_up (s : rq) (pid mask : Z) : res (Z * rq) :=
  p ← the_task s pid;
  if (pid =? curr s)%c then
    if negb (has (state p) mask) then Ok (0, s)
    else s ← update s pid (fun p => set_state p TASK_RUNNING); Ok (1, add_trace s (sched_wakeup pid))
  else if negb (has (state p) mask) then Ok (0, s)
  else
    r ← (if decide (on_rq p = NOT_QUEUED) then Ok None else ttwu_runnable s pid);
    match r with
    | Some s => Ok (1, s)
    | None => s ← ttwu_queue s pid; Ok (1, s)
    end.
Definition wake_up_process (s : rq) (pid : Z) : res (Z * rq) := try_to_wake_up s pid TASK_NORMAL.
Definition wake_up_state (s : rq) (pid mask : Z) : res (Z * rq) := try_to_wake_up s pid mask.

(** ** Fork: [p] is the copy of the current task fork.c made *)
Definition __sched_fork (p : task) : task := set_on_rq p NOT_QUEUED.

Definition sched_fork (s : rq) (pid : Z) (p : task) : res (Z * rq) :=
  c ← the_task s (curr s);
  let p := set_state (__sched_fork p) TASK_NEW in
  '(rv, b) ← SchedClass.sched_fork reweight FIFO (base c);
  if negb (rv =? 0)%c then Ok (rv, s) else
  let p := set_base p b in
  let s := set_tasks s (<[pid := p]> (tasks s)) in
  let '(cs, resched) := class_task_fork (klass p) (classes s) (entity_of (curr s) c) (entity_of pid p) in
  s ← (if resched then resched_curr (set_classes s cs) else Ok (set_classes s cs));
  Ok (0, s).

Definition wake_up_new_task (s : rq) (pid : Z) : res rq :=
  s ← update s pid (fun p => set_state p TASK_RUNNING);
  s ← activate_task s pid false;
  check_preempt_curr (add_trace s (sched_wakeup_new pid)) pid.

(** ** The next task *)
Definition put_prev_task_balance (s : rq) (prev : Z) : res rq :=
  p ← the_task s prev;
  Ok (set_classes s (class_put_prev_task (klass p) (classes s) (entity_of prev p))).

(** [for_each_class]; BUG() when no class has a task. *)
Fixpoint pick_class (cs : list class_id) (s : cstate) : res (cstate * Z) :=
  match cs with
  | [] => Err Bug
  | c :: cs => let '(s, p) := class_pick_next_task c s in
               match p with Some pid => Ok (s, pid) | None => pick_class cs s end
  end.
Definition all_classes : list class_id := [dl_class; rt_class; fair_class; idle_class].

Definition pick_restart (s : rq) (prev : Z) : res (rq * Z) :=
  s ← put_prev_task_balance s prev;
  '(cs, pid) ← pick_class all_classes (classes s);
  Ok (set_classes s cs, pid).

Definition pick_next_task (s : rq) (prev : Z) : res (rq * Z) :=
  p ← the_task s prev;
  if ((rank (klass p) <=? rank fair_class)%c && (nr_running (classes s) =? h_nr_running (classes s))%c)%bool then
    let '(cs, r) := pick_next_task_fair (classes s) (entity_of prev p) in
    let s := set_classes s cs in
    match r with
    | RETRY_TASK => pick_restart s prev
    | Picked (Some pid) => Ok (s, pid)
    | Picked None =>
        s ← put_prev_task_balance s prev;
        '(cs, pid) ← pick_class [idle_class] (classes s);
        Ok (set_classes s cs, pid)
    end
  else pick_restart s prev.

(** ** __schedule: [sig] is signal_pending_state *)
Definition contributes (p : task) : bool :=
  (has (state p) TASK_UNINTERRUPTIBLE && negb (has (state p) TASK_NOLOAD) && negb (frozen p))%bool.

(** [if (!preempt && prev_state)]: the state, and whether the switch is voluntary. *)
Definition schedule_prev (preempt : bool) (sig : Z -> Z -> bool) (s : rq) : res (rq * bool) :=
  let prev := curr s in
  p ← the_task s prev;
  if (preempt || (state p =? TASK_RUNNING)%c)%bool then Ok (s, false)
  else if sig (state p) prev then s ← update s prev (fun p => set_state p TASK_RUNNING); Ok (s, true)
  else
    s ← update s prev (fun p => set_contributes p (contributes p));
    let s := if contributes p then add_uninterruptible s 1 else s in
    s ← deactivate_task s prev true;
    Ok (if in_iowait p then add_iowait s 1 else s, true).

(** finish_task_switch, for the task that was switched away. *)
Definition finish_task_switch (s : rq) (prev : Z) : res rq :=
  p ← the_task s prev;
  if (state p =? TASK_DEAD)%c
  then Ok (set_classes s (class_task_dead (klass p) (classes s) (entity_of prev p))) else Ok s.

Definition __schedule (preempt : bool) (sig : Z -> Z -> bool) (s : rq) : res rq :=
  let prev := curr s in
  '(s, voluntary) ← schedule_prev preempt sig s;
  '(s, next) ← pick_next_task s prev;
  s ← update s prev (fun p => set_need_resched p false);
  if (prev =? next)%c then Ok s
  else
    let s := set_curr (add_switch s) next in
    s ← update s prev (fun p => count_switch p voluntary);
    finish_task_switch (add_trace s (sched_switch preempt prev next)) prev.

Definition schedule_round (sig : Z -> Z -> bool) (s : rq) : res (rq * bool) :=
  s ← __schedule false sig s;
  c ← the_task s (curr s);
  Ok (s, need_resched c).
(** [do __schedule(false) while (need_resched())]; [None]: [fuel] rounds were not enough. *)
Fixpoint schedule (fuel : nat) (sig : Z -> Z -> bool) (s : rq) : option (res rq) :=
  match fuel with
  | O => None
  | S fuel =>
      match schedule_round sig s with
      | Ok (s, again) => if again then schedule fuel sig s else Some (Ok s)
      | Err e => Some (Err e)
      end
  end.

(** ** Tick, yield, exit, I/O *)
Definition scheduler_tick (s : rq) : res rq :=
  c ← the_task s (curr s);
  let '(cs, resched) := class_task_tick (klass c) (classes s) (entity_of (curr s) c) in
  if resched then resched_curr (set_classes s cs) else Ok (set_classes s cs).

Definition yield_task (s : rq) : res rq :=
  c ← the_task s (curr s);
  Ok (set_classes s (class_yield_task (klass c) (classes s) (entity_of (curr s) c))).
Definition do_sched_yield (fuel : nat) (sig : Z -> Z -> bool) (s : rq) : option (res rq) :=
  match yield_task s with Ok s => schedule fuel sig s | Err e => Some (Err e) end.

Definition set_current_state (s : rq) (v : Z) : res rq := update s (curr s) (fun c => set_state c v).
Definition yield (fuel : nat) (sig : Z -> Z -> bool) (s : rq) : option (res rq) :=
  match set_current_state s TASK_RUNNING with
  | Ok s => do_sched_yield fuel sig s | Err e => Some (Err e)
  end.

Definition do_task_dead (sig : Z -> Z -> bool) (s : rq) : res rq :=
  s ← set_current_state s TASK_DEAD;
  __schedule false sig s.

Definition io_schedule_prepare (s : rq) : res (bool * rq) :=
  c ← the_task s (curr s);
  s ← update s (curr s) (fun c => set_in_iowait c true);
  Ok (in_iowait c, s).
Definition io_schedule_finish (s : rq) (token : bool) : res rq :=
  update s (curr s) (fun c => set_in_iowait c token).

(** ** Boot: the task [p] becomes the idle task [pid] *)
Definition init_idle (s : rq) (pid : Z) (p : task) : rq :=
  let p := set_on_rq (set_state (__sched_fork p) TASK_RUNNING) TASK_ON_RQ_QUEUED in
  let p := mk_task (base p) true (state p) (on_rq p) (need_resched p) (sched_contributes_to_load p)
             (in_iowait p) (frozen p) (nvcsw p) (nivcsw p) in
  set_curr (set_tasks s (<[pid := p]> (tasks s))) pid.

(** ** What happens on the CPU

    [Schedule] is a call of schedule() by the current task, [Preempt] the
    __schedule(true) of an interrupt or preempt_enable. *)
Inductive event :=
  | Fork (pid : Z) (p : task)
  | Wake (pid mask : Z)
  | SetState (v : Z)
  | Schedule (sig : Z -> Z -> bool)
  | Preempt (sig : Z -> Z -> bool)
  | Tick
  | Yield (sig : Z -> Z -> bool)
  | Exit (sig : Z -> Z -> bool)
  | IoPrepare
  | IoFinish (token : bool).

(** [None]: the event is not possible in the state. *)
Definition not_idle (s : rq) : bool :=
  match tasks s !! curr s with Some c => negb (is_idle c) | None => false end.
Definition must_resched (s : rq) : bool :=
  match tasks s !! curr s with Some c => need_resched c | None => false end.
(** The two calls fork.c makes. *)
Definition fork_and_wake (s : rq) (pid : Z) (p : task) : res rq :=
  '(rv, s) ← sched_fork s pid p;
  if negb (rv =? 0)%c then Ok s else wake_up_new_task s pid.
Definition exec (s : rq) (e : event) : option (res rq) :=
  match e with
  | Fork pid p =>
      match tasks s !! pid with
      | Some _ => None
      | None =>
          if not_idle s then
            Some (fork_and_wake s pid p)
          else None
      end
  | Wake pid mask =>
      t ← tasks s !! pid;
      if is_idle t then None else Some (res_fmap _ _ snd (try_to_wake_up s pid mask))
  | SetState v => if not_idle s then Some (set_current_state s v) else None
  | Schedule sig => schedule 1 sig s
  | Preempt sig => if must_resched s then Some (__schedule true sig s) else None
  | Tick => Some (scheduler_tick s)
  | Yield sig => if not_idle s then do_sched_yield 1 sig s else None
  | Exit sig => if not_idle s then Some (do_task_dead sig s) else None
  | IoPrepare => if not_idle s then Some (res_fmap _ _ snd (io_schedule_prepare s)) else None
  | IoFinish token => if not_idle s then Some (io_schedule_finish s token) else None
  end.
Fixpoint exec_all (s : rq) (es : list event) : option (res rq) :=
  match es with
  | [] => Some (Ok s)
  | e :: es => r ← exec s e; match r with Ok s => exec_all s es | Err f => Some (Err f) end
  end.

(** The tasks in order of the switches to them. *)
Definition switched_to (tr : list tracepoint) : list Z :=
  omap (fun e => match e with sched_switch _ _ next => Some next | _ => None end) tr.

End Model.
End RunQueue.
