(* ===== verification/RunQueueInv.v ===== *)
(** * The run queue of one CPU: the invariant (src/Assignment_4/fifo/core.c)

    [queues_ok]: the classes hold exactly the queued tasks, the real-time lists in
    the order of arrival; [current_ok]: the current task is queued and it alone can
    be asked to reschedule; and unless it is, it is the best one.  Every event
    keeps them. *)
From Stdlib Require Import ZArith Lia.
From stdpp Require Import gmap.
From S2P Require Import Prelude CLib SchedInfo SchedClass RunQueue.
Import RunQueue.

Local Open Scope Z_scope.

(** ** Maps related entry by entry *)
Lemma alter_Forall2 {A} (R : A -> A -> Prop) (f : A -> A) (m : gmap Z A) i :
  (forall x, R x x) -> (forall x, m !! i = Some x -> R x (f x)) ->
  forall j, option_Forall2 R (m !! j) (alter f i m !! j).
Proof.
  intros Hr Hf j. destruct (decide (i = j)) as [<-|Hij].
  - rewrite lookup_alter_eq. destruct (m !! i) as [x|] eqn:E; simpl; constructor. by apply Hf.
  - rewrite lookup_alter_ne by done. destruct (m !! j); constructor. apply Hr.
Qed.

Lemma alter_insert_lookup {A} (f : A -> A) (m : gmap Z A) i x :
  m !! i = Some x -> alter f i m = <[i := f x]> m.
Proof.
  intros Hx. apply map_eq. intros j. destruct (decide (i = j)) as [<-|Hij].
  - by rewrite lookup_alter_eq, lookup_insert_eq, Hx.
  - by rewrite lookup_alter_ne, lookup_insert_ne.
Qed.

(** ** Lists without one element *)
Lemma filter_head (a : Z) q : NoDup (a :: q) -> filter (fun x => x <> a) (a :: q) = q.
Proof.
  intros [Ha _]%NoDup_cons. rewrite filter_cons_False by tauto. induction q as [|b q IH]; [done|].
  apply not_elem_of_cons in Ha as [Hab Ha]. rewrite filter_cons_True by congruence. f_equal. by apply IH.
Qed.

Section Invariant.
Context `{h : headers} `{sc : sched_classes}.
Context {idle : Z} {ok : sched_classes_ok sc idle} {rok : rt_ok sc idle ok}.

Local Abbreviation prio t := (SchedClass.prio (base t)).
Local Abbreviation policy t := (SchedClass.policy (base t)).
Local Abbreviation static_prio t := (SchedClass.static_prio (base t)).

(** ** Neutral changes *)
Definition same_task (t t' : task) : Prop :=
  base t' = base t /\ is_idle t' = is_idle t /\ on_rq t' = on_rq t /\
  (is_idle t = true -> state t' = state t).
Record similar (s s' : rq) : Prop := {
  sim_tasks pid : option_Forall2 same_task (tasks s !! pid) (tasks s' !! pid);
  sim_queued : same_queued (classes s) (classes s');
  sim_lists : same_lists (classes s) (classes s')
}.
#[global] Instance same_task_refl : Reflexive same_task.
Proof. by intros t. Qed.
Lemma same_task_trans t1 t2 t3 : same_task t1 t2 -> same_task t2 t3 -> same_task t1 t3.
Proof.
  intros (H1 & H2 & H3 & H4) (J1 & J2 & J3 & J4). unfold same_task.
  rewrite J1, J2, J3, H1, H2, H3. split_and!; try done. intros Hi.
  rewrite J4 by (by rewrite H2). by apply H4.
Qed.
#[global] Instance similar_refl : Reflexive similar.
Proof. intros s. split; [|by intros ?..]. intros pid. destruct (tasks s !! pid); by constructor. Qed.
#[global] Instance similar_trans : Transitive similar.
Proof.
  intros s1 s2 s3 [H1 H2 H3] [J1 J2 J3]. split.
  - intros pid. specialize (H1 pid). specialize (J1 pid).
    destruct H1 as [t1 t2 Ht|]; inversion J1; simplify_eq; constructor. by eapply same_task_trans.
  - intros c. by rewrite J2.
  - intros p. by rewrite J3.
Qed.
Lemma similar_task s s' pid t : similar s s' -> tasks s !! pid = Some t ->
  exists t', tasks s' !! pid = Some t' /\ same_task t t'.
Proof. intros [H _ _] Ht. specialize (H pid). rewrite Ht in H. inversion H. eauto. Qed.
Lemma similar_task_back s s' pid t' : similar s s' -> tasks s' !! pid = Some t' ->
  exists t, tasks s !! pid = Some t /\ same_task t t'.
Proof. intros [H _ _] Ht. specialize (H pid). rewrite Ht in H. inversion H. eauto. Qed.
Lemma same_klass t t' : same_task t t' -> klass t' = klass t.
Proof. intros (Hb & Hi & _). unfold klass. by rewrite Hb, Hi. Qed.

Definition upd (s : rq) (pid : Z) (f : task -> task) : rq := set_tasks s (alter f pid (tasks s)).
Lemma update_eq s pid f t : tasks s !! pid = Some t -> update s pid f = Ok (upd s pid f).
Proof.
  intros Ht. unfold update, the_task, upd. rewrite Ht. cbn [of_option mbind res_bind].
  do 2 f_equal. symmetry. apply (alter_insert_lookup f _ _ _ Ht).
Qed.
Lemma upd_similar s pid f : (forall t, tasks s !! pid = Some t -> same_task t (f t)) -> similar s (upd s pid f).
Proof. intros Hf. split; [|by intros ?..]. simpl. by apply alter_Forall2. Qed.
Lemma classes_similar s cs : same_queued (classes s) cs -> same_lists (classes s) cs ->
  similar s (set_classes s cs).
Proof. intros H1 H2. split; [|done..]. intros pid. simpl. destruct (tasks s !! pid); by constructor. Qed.

(** ** The invariant *)

(** The class is that of the priority; 99 belongs to no valid real-time priority. *)
Definition base_ok (b : SchedClass.task) : Prop :=
  100 <= SchedClass.static_prio b < 140 /\
  SchedClass.class b = SchedClass.class_of (SchedClass.prio b) /\
  SchedClass.prio b <> 99 /\ SchedClass.normal_prio_ b <> 99 /\
  (dl_policy (SchedClass.policy b) = true -> SchedClass.prio b < 0 /\ SchedClass.normal_prio_ b < 0).
Record queues_ok (s : rq) : Prop := {
  inv_idle : exists t, tasks s !! idle = Some t /\ is_idle t = true /\ on_rq t = TASK_ON_RQ_QUEUED /\
               state t = TASK_RUNNING;
  inv_base pid t : tasks s !! pid = Some t -> base_ok (base t);
  inv_tasks pid t : tasks s !! pid = Some t -> pid <> idle -> is_idle t = false /\
               on_rq t <> TASK_ON_RQ_MIGRATING /\
               (on_rq t = TASK_ON_RQ_QUEUED -> pid ∈ queued (klass t) (classes s));
  inv_queued c pid : c <> idle_class -> pid ∈ queued c (classes s) ->
               exists t, tasks s !! pid = Some t /\ klass t = c /\ on_rq t = TASK_ON_RQ_QUEUED;
  inv_lists pid p : pid ∈ rt_list (classes s) p -> exists t, tasks s !! pid = Some t /\ prio t = p;
  inv_nodup p : NoDup (rt_list (classes s) p)
}.

(** [pid], the task [t], is what the classes would choose. *)
Definition best_of (s : rq) (pid : Z) (t : task) : Prop :=
  match klass t with
  | dl_class => True
  | rt_class => queued dl_class (classes s) = ∅ /\
                (exists q, rt_list (classes s) (prio t) = pid :: q) /\
                (forall p, p < prio t -> rt_list (classes s) p = [])
  | fair_class => queued dl_class (classes s) = ∅ /\ queued rt_class (classes s) = ∅
  | idle_class => queued dl_class (classes s) = ∅ /\ queued rt_class (classes s) = ∅ /\
                  queued fair_class (classes s) = ∅
  end.
Record current_ok (s : rq) : Prop := {
  inv_curr : exists c, tasks s !! curr s = Some c /\ on_rq c = TASK_ON_RQ_QUEUED;
  inv_resched pid t : tasks s !! pid = Some t -> need_resched t = true -> pid = curr s
}.
Record inv (s : rq) : Prop := {
  inv_queues : queues_ok s; inv_current : current_ok s;
  inv_best c : tasks s !! curr s = Some c -> need_resched c = false -> best_of s (curr s) c
}.
(** The current task is the first of its list ... *)
Definition head_ok (s : rq) : Prop := forall c, tasks s !! curr s = Some c -> klass c = rt_class ->
  exists q, rt_list (classes s) (prio c) = curr s :: q.
(** ... while no priority changes, unless its time slice has just ended. *)
Definition served_ok (s : rq) : Prop := forall c, tasks s !! curr s = Some c -> klass c = rt_class ->
  policy c <> SCHED_RR \/ need_resched c = false -> exists q, rt_list (classes s) (prio c) = curr s :: q.

Lemma best_similar s s' pid t t' : similar s s' -> same_task t t' -> best_of s pid t -> best_of s' pid t'.
Proof.
  intros [_ Hq Hl] Ht. unfold best_of. rewrite (same_klass _ _ Ht). destruct Ht as (-> & _).
  destruct (klass t); rewrite ?Hq, ?Hl; try done. intros (H1 & H2 & H3). split_and!; try done.
  intros p Hp. rewrite Hl. by apply H3.
Qed.
Lemma similar_queues s s' : similar s s' -> queues_ok s -> queues_ok s'.
Proof.
  intros Hs H. pose proof Hs as [_ Hq Hl]. split.
  - destruct (inv_idle _ H) as (t & Ht & Hi & Ho & Hst).
    destruct (similar_task _ _ _ _ Hs Ht) as (t' & Ht' & _ & Hi' & Ho' & Hst').
    exists t'. split_and!; [done|by rewrite Hi'|by rewrite Ho'|by rewrite Hst'].
  - intros pid t' Ht'. destruct (similar_task_back _ _ _ _ Hs Ht') as (t & Ht & -> & _).
    by apply (inv_base _ H pid).
  - intros pid t' Ht' Hp. destruct (similar_task_back _ _ _ _ Hs Ht') as (t & Ht & Hsame).
    rewrite (same_klass _ _ Hsame), Hq. destruct Hsame as (_ & -> & -> & _). by apply (inv_tasks _ H).
  - intros c pid Hc. rewrite Hq. intros Hin. destruct (inv_queued _ H _ _ Hc Hin) as (t & Ht & Hk & Ho).
    destruct (similar_task _ _ _ _ Hs Ht) as (t' & Ht' & Hsame). exists t'.
    rewrite (same_klass _ _ Hsame). by destruct Hsame as (_ & _ & -> & _).
  - intros pid p. rewrite Hl. intros Hin. destruct (inv_lists _ H _ _ Hin) as (t & Ht & Hp).
    destruct (similar_task _ _ _ _ Hs Ht) as (t' & Ht' & Hb & _). exists t'. by rewrite Hb.
  - intros p. rewrite Hl. by apply (inv_nodup _ H).
Qed.

(** [s'] has the tasks and queues of [s]; the flag may be set on the current task. *)
Record neutral (s s' : rq) : Prop := {
  neu_similar : similar s s';
  neu_curr : curr s' = curr s;
  neu_flags pid t t' : tasks s !! pid = Some t -> tasks s' !! pid = Some t' ->
    need_resched t' = need_resched t \/ pid = curr s /\ need_resched t' = true
}.
#[global] Instance neutral_refl : Reflexive neutral.
Proof. intros s. split; [done..|]. intros pid t t' Ht Ht'. simplify_eq. by left. Qed.
#[global] Instance neutral_trans : Transitive neutral.
Proof.
  intros s1 s2 s3 [S1 C1 F1] [S2 C2 F2]. split; [by etrans|congruence|].
  intros pid t1 t3 H1 H3. destruct (similar_task _ _ _ _ S1 H1) as (t2 & H2 & _).
  destruct (F1 _ _ _ H1 H2) as [E1|[-> E1]], (F2 _ _ _ H2 H3) as [E2|[E2' E2]];
    rewrite ?C1 in *; rewrite ?E2, ?E1; auto.
Qed.
Lemma upd_neutral s pid f :
  (forall t, tasks s !! pid = Some t -> same_task t (f t)) ->
  (forall t, need_resched (f t) = need_resched t \/ pid = curr s /\ need_resched (f t) = true) ->
  neutral s (upd s pid f).
Proof.
  intros Hs Hn. split; [by apply upd_similar|done|]. intros i t t' Ht. simpl.
  destruct (decide (pid = i)) as [<-|Hi].
  - rewrite lookup_alter_eq, Ht. intros [= <-]. apply Hn.
  - rewrite lookup_alter_ne by done. rewrite Ht. intros [= <-]. by left.
Qed.
Lemma classes_neutral s cs : same_queued (classes s) cs -> same_lists (classes s) cs ->
  neutral s (set_classes s cs).
Proof. intros H1 H2. split; [by apply classes_similar|done|]. simpl. intros; simplify_eq; by left. Qed.

Lemma neutral_current s s' : neutral s s' -> current_ok s -> current_ok s'.
Proof.
  intros [Hs Hc Hf] H. split.
  - destruct (inv_curr _ H) as (c & Hcur & Ho). destruct (similar_task _ _ _ _ Hs Hcur) as (c' & Hc' & Hsame).
    exists c'. rewrite Hc. split; [done|]. by destruct Hsame as (_ & _ & -> & _).
  - intros pid t' Ht' Hn. rewrite Hc. destruct (similar_task_back _ _ _ _ Hs Ht') as (t & Ht & _).
    destruct (Hf _ _ _ Ht Ht') as [E|[-> _]]; [|done]. apply (inv_resched _ H _ _ Ht). congruence.
Qed.
Lemma neutral_inv s s' : neutral s s' -> inv s -> inv s'.
Proof.
  intros Hn [Hq Hc Hb]. pose proof Hn as [Hs Hcur Hf].
  split; [by eapply similar_queues|by eapply neutral_current|]. rewrite Hcur.
  intros c' Hc' Hn'. destruct (similar_task_back _ _ _ _ Hs Hc') as (c & Ht & Hsame).
  eapply best_similar; [done..|]. apply Hb; [done|].
  destruct (Hf _ _ _ Ht Hc') as [E|[_ E]]; congruence.
Qed.

Lemma neutral_head s s' : neutral s s' -> head_ok s -> head_ok s'.
Proof.
  intros [Hs Hcur _] Hh c' Hc'. rewrite Hcur in *.
  destruct (similar_task_back _ _ _ _ Hs Hc') as (c & Ht & Hsame).
  rewrite (same_klass _ _ Hsame), (sim_lists _ _ Hs). destruct Hsame as (-> & _). by apply Hh.
Qed.

(** ** resched_curr and check_preempt_curr *)
Definition flagged (s : rq) : Prop :=
  forall c, tasks s !! curr s = Some c -> need_resched c = true.

Lemma resched_spec s : current_ok s ->
  exists s', resched_curr s = Ok s' /\ neutral s s' /\ flagged s'.
Proof.
  intros H. destruct (inv_curr _ H) as (c & Hc & Ho). unfold resched_curr, the_task. rewrite Hc.
  cbn [of_option mbind res_bind]. destruct (need_resched c) eqn:En.
  - exists s. split_and!; [done..|]. intros c' Hc'. by simplify_eq.
  - rewrite (update_eq _ _ _ _ Hc). eexists. split_and!; [done| |].
    + apply upd_neutral; [done|]. by right.
    + intros c'. simpl. rewrite lookup_alter_eq, Hc. by intros [= <-].
Qed.

(** A task for which the current one must be asked to go. *)
Definition beats (t c : task) : Prop :=
  rank (klass c) < rank (klass t) \/ klass t = rt_class /\ klass c = rt_class /\ prio t < prio c.

Lemma check_lists c s e e' : same_lists s (class_check_preempt_curr c s e e').1.
Proof. destruct (decide (c = rt_class)) as [->|]; [by apply rt_check|by apply other_check]. Qed.

Lemma check_preempt_spec s pid t : current_ok s -> tasks s !! pid = Some t ->
  exists s', check_preempt_curr s pid = Ok s' /\ neutral s s' /\
    (forall c, tasks s !! curr s = Some c -> beats t c -> flagged s').
Proof.
  intros H Ht. destruct (inv_curr _ H) as (c & Hc & Ho). unfold check_preempt_curr, the_task.
  rewrite Ht, Hc. cbn [of_option mbind res_bind]. destruct (decide (klass t = klass c)) as [Ek|Ek].
  - destruct (class_check_preempt_curr (klass c) (classes s) (entity_of (curr s) c) (entity_of pid t))
      as [cs resched] eqn:Ecs.
    assert (neutral s (set_classes s cs)) as Hn.
    { apply classes_neutral; [|pose proof (check_lists (klass c) (classes s) (entity_of (curr s) c) (entity_of pid t))
                               as Hl; by rewrite Ecs in Hl].
      pose proof (queued_check (klass c) (classes s) (entity_of (curr s) c) (entity_of pid t)) as Hq.
      by rewrite Ecs in Hq. }
    destruct resched.
    + destruct (resched_spec (set_classes s cs)) as (s' & -> & Hn' & Hf); [by eapply neutral_current|].
      exists s'. split_and!; [done|by etrans|done].
    + eexists. split_and!; [done..|]. intros c' Hc' Hb. simplify_eq. exfalso.
      destruct Hb as [Hb|(Hk1 & Hk2 & Hp)]; [rewrite Ek in Hb; lia|].
      rewrite Hk2 in Ecs. destruct (rt_check (classes s) (entity_of (curr s) c') (entity_of pid t)) as [_ Hr].
      rewrite Ecs in Hr. simpl in Hr. symmetry in Hr. apply Z.ltb_ge in Hr. lia.
  - destruct (Z.ltb_spec (rank (klass c)) (rank (klass t))) as [Hr|Hr].
    + destruct (resched_spec s H) as (s' & -> & Hn & Hf). by exists s'.
    + exists s. split_and!; [done..|]. intros c' Hc' Hb. simplify_eq. exfalso.
      destruct Hb as [Hb|(Hk1 & Hk2 & _)]; [lia|congruence].
Qed.

(** ** A task joins its class *)
Definition activated (s : rq) (pid : Z) (t : task) (w : bool) : rq :=
  upd (set_classes s (class_enqueue_task (klass t) (classes s) (entity_of pid t) w)) pid
    (fun p => set_on_rq p TASK_ON_RQ_QUEUED).
Lemma activate_eq s pid t w : tasks s !! pid = Some t -> activate_task s pid w = Ok (activated s pid t w).
Proof.
  intros Ht. unfold activate_task, enqueue_task, the_task. rewrite Ht. cbn [of_option mbind res_bind].
  by apply (update_eq _ _ _ t).
Qed.

(** The list of each priority after [t] joined. *)
Definition joined (s : rq) (pid : Z) (t : task) (p : Z) : list Z :=
  if decide (klass t = rt_class /\ p = prio t) then rt_list (classes s) p ++ [pid] else rt_list (classes s) p.
Lemma activated_lists s pid t w p : klass t <> idle_class ->
  rt_list (classes (activated s pid t w)) p = joined s pid t p.
Proof.
  intros Hk. unfold joined. simpl. destruct (decide (klass t = rt_class)) as [E|E].
  - rewrite E, rt_enqueue. simpl. destruct (decide (p = prio t)), (decide (_ /\ _)); try done; naive_solver.
  - rewrite other_enqueue by done. destruct (decide (_ /\ _)); [naive_solver|done].
Qed.
Lemma activated_queued s pid t w c : klass t <> idle_class ->
  queued c (classes (activated s pid t w)) =
  if decide (c = klass t) then queued c (classes s) ∪ {[ pid ]} else queued c (classes s).
Proof.
  intros Hk. simpl. destruct (decide (c = klass t)) as [->|Hc]; [by rewrite queued_enqueue|].
  by rewrite queued_enqueue_other.
Qed.

(** Not queued: in no list. *)
Lemma absent_lists s pid t p : queues_ok s -> tasks s !! pid = Some t -> on_rq t <> TASK_ON_RQ_QUEUED ->
  pid ∉ rt_list (classes s) p.
Proof.
  intros H Ht Ho Hin. assert (pid ∈ queued rt_class (classes s)) as Hq by (apply rt_queued; eauto).
  destruct (inv_queued _ H rt_class pid) as (t' & Ht' & _ & Ho'); [done|done|]. congruence.
Qed.

Section Activate.
Context (s : rq) (pid : Z) (t : task) (w : bool).
Context (Hok : queues_ok s) (Ht : tasks s !! pid = Some t) (Hi : pid <> idle)
  (Hq : on_rq t <> TASK_ON_RQ_QUEUED).

Lemma activated_not_idle : klass t <> idle_class.
Proof.
  destruct (inv_tasks _ Hok _ _ Ht Hi) as (Hid & _). unfold klass. rewrite Hid.
  by destruct (SchedClass.class (base t)).
Qed.
Lemma activated_task i : tasks (activated s pid t w) !! i =
  if decide (i = pid) then Some (set_on_rq t TASK_ON_RQ_QUEUED) else tasks s !! i.
Proof.
  simpl. destruct (decide (i = pid)) as [->|Hne]; [by rewrite lookup_alter_eq, Ht|by rewrite lookup_alter_ne].
Qed.

Lemma activated_ok : queues_ok (activated s pid t w).
Proof.
  pose proof activated_not_idle as Hk. split.
  - destruct (inv_idle _ Hok) as (u & Hu & H1 & H2 & H3). exists u. rewrite activated_task.
    rewrite decide_False; done.
  - intros i u. rewrite activated_task. case_decide; [|apply (inv_base _ Hok)].
    intros [= <-]. apply (inv_base _ Hok pid t Ht).
  - intros i u. rewrite activated_task. case_decide as Ei.
    + subst i. intros [= <-] _. change (klass (set_on_rq t TASK_ON_RQ_QUEUED)) with (klass t).
      rewrite activated_queued, decide_True by done.
      destruct (inv_tasks _ Hok _ _ Ht Hi) as (Hid & _). split_and!; [done|done|]. intros _. set_solver.
    + intros Hu Hne. destruct (inv_tasks _ Hok _ _ Hu Hne) as (H1 & H2 & H3). split_and!; [done..|].
      intros Hu'. rewrite activated_queued by done. specialize (H3 Hu'). case_decide; set_solver.
  - intros c i Hc. rewrite activated_queued by done. intros Hin. rewrite activated_task.
    destruct (decide (i = pid)) as [->|Ei].
    + eexists. split_and!; [done| |done]. change (klass (set_on_rq t TASK_ON_RQ_QUEUED)) with (klass t).
      destruct (decide (c = klass t)) as [Ec|Ec]; [done|]. destruct (inv_queued _ Hok _ _ Hc Hin) as (u & Hu & _ & Hou). congruence.
    + apply (inv_queued _ Hok); [done|]. destruct (decide (c = klass t)); set_solver.
  - intros i p. rewrite activated_lists by done. unfold joined. rewrite activated_task. case_decide as Ed.
    + destruct Ed as [_ ->]. rewrite elem_of_app, list_elem_of_singleton. intros [Hin| ->].
      * case_decide as Ei; [subst i; by destruct (absent_lists _ _ _ (prio t) Hok Ht Hq)|].
        by apply (inv_lists _ Hok).
      * rewrite decide_True by done. by eexists.
    + intros Hin. case_decide as Ei; [|by apply (inv_lists _ Hok)].
      subst i. by destruct (absent_lists _ _ _ p Hok Ht Hq).
  - intros p. rewrite activated_lists by done. unfold joined. case_decide as Ed; [|apply (inv_nodup _ Hok)].
    apply NoDup_app. split_and!; [apply (inv_nodup _ Hok)| |apply NoDup_singleton].
    intros x Hx ->%list_elem_of_singleton. by apply (absent_lists _ _ _ p Hok Ht Hq).
Qed.

(** The current task stays the best unless the new one beats it. *)
Lemma activated_best c : current_ok s -> tasks s !! curr s = Some c -> curr s <> pid ->
  ~ beats t c -> best_of s (curr s) c -> best_of (activated s pid t w) (curr s) c.
Proof.
  intros Hcur Hc Hne Hb Hbest. pose proof activated_not_idle as Hk.
  unfold beats in Hb. unfold best_of in *.
  destruct (klass c) eqn:Ec; [done| | |].
  - destruct Hbest as (H1 & (q & H2) & H3). rewrite activated_queued by done.
    assert (dl_class <> klass t) as Hdl by (intros E; rewrite <- E in Hb; simpl in Hb; lia).
    rewrite decide_False by done. split_and!; [done| |].
    + rewrite activated_lists by done. unfold joined. case_decide; [exists (q ++ [pid]); by rewrite H2|by exists q].
    + intros p Hp. rewrite activated_lists by done. unfold joined. case_decide as Ed; [|by apply H3].
      destruct Ed as [Ek ->]. exfalso. apply Hb. by right.
  - destruct Hbest as (H1 & H2). rewrite !activated_queued by done.
    assert (dl_class <> klass t) as Hdl by (intros E; rewrite <- E in Hb; simpl in Hb; lia).
    assert (rt_class <> klass t) as Hrt by (intros E; rewrite <- E in Hb; simpl in Hb; lia).
    rewrite !decide_False; done.
  - exfalso. apply Hb. left. destruct (klass t); simpl; try lia. done.
Qed.
End Activate.

(** Activation and the test for preemption that follows it keep the invariant. *)
Lemma join_spec s pid t w : inv s -> tasks s !! pid = Some t -> pid <> idle ->
  on_rq t <> TASK_ON_RQ_QUEUED -> need_resched t = false ->
  exists s', check_preempt_curr (activated s pid t w) pid = Ok s' /\ inv s' /\
    neutral (activated s pid t w) s'.
Proof.
  intros [Hq Hc Hb] Ht Hi Ho Hn. pose proof (activated_ok s pid t w Hq Ht Hi Ho) as Hq1.
  pose proof (activated_not_idle s pid t Hq Ht Hi) as Hk.
  destruct (inv_curr _ Hc) as (c & Hcur & Hoc).
  assert (curr s <> pid) as Hne by congruence.
  assert (current_ok (activated s pid t w)) as Hc1.
  { split.
    - exists c. split; [|done]. rewrite (activated_task s pid t w Ht). change (curr (activated s pid t w)) with (curr s).
      by rewrite decide_False.
    - intros i u. rewrite (activated_task s pid t w Ht). case_decide.
      + intros [= <-]. simpl. congruence.
      + apply (inv_resched _ Hc). }
  destruct (check_preempt_spec (activated s pid t w) pid (set_on_rq t TASK_ON_RQ_QUEUED))
    as (s' & Hs' & Hneu & Hf); [done| |].
  { rewrite (activated_task s pid t w Ht). by rewrite decide_True. }
  exists s'. split_and!; [done| |done]. pose proof Hneu as [Hsim Hcurr Hfl].
  assert (tasks (activated s pid t w) !! curr (activated s pid t w) = Some c) as Hcur1.
  { rewrite (activated_task s pid t w Ht). by rewrite decide_False. }
  split; [by eapply similar_queues|by eapply neutral_current|]. rewrite Hcurr.
  intros c' Hc' Hn'. destruct (similar_task_back _ _ _ _ Hsim Hc') as (c0 & Ht0 & Hsame). simplify_eq.
  eapply best_similar; [done..|].
  assert (need_resched c = false) as Hnc.
  { destruct (Hfl _ _ _ Hcur1 Hc') as [E|[_ E]]; congruence. }
  change (curr (activated s pid t w)) with (curr s).
  apply (activated_best s pid t w Hq Ht Hi); [done..| |by apply Hb].
  intros Hbeat. assert (need_resched c' = true); [|congruence].
  apply (Hf c Hcur1 Hbeat). by rewrite Hcurr.
Qed.

(** ** A task leaves its class *)
Definition deactivated (s : rq) (pid : Z) (t : task) : rq :=
  set_classes (upd s pid (fun p => set_on_rq p NOT_QUEUED))
    (class_dequeue_task (klass t) (classes s) (entity_of pid t) true).
Lemma deactivate_eq s pid t : tasks s !! pid = Some t ->
  deactivate_task s pid true = Ok (deactivated s pid t).
Proof.
  intros Ht. unfold deactivate_task. rewrite (update_eq _ _ _ _ Ht). cbn [mbind res_bind].
  unfold dequeue_task, the_task. simpl. by rewrite lookup_alter_eq, Ht.
Qed.
(** The list of each priority after [t] left. *)
Definition without (s : rq) (pid : Z) (t : task) (p : Z) : list Z :=
  if decide (klass t = rt_class /\ p = prio t) then filter (fun x => x <> pid) (rt_list (classes s) p)
  else rt_list (classes s) p.
Lemma deactivated_lists s pid t p : rt_list (classes (deactivated s pid t)) p = without s pid t p.
Proof.
  unfold without. simpl. destruct (decide (klass t = rt_class)) as [E|E].
  - rewrite E, rt_dequeue. simpl. destruct (decide (p = prio t)), (decide (_ /\ _)); try done; naive_solver.
  - rewrite other_dequeue by done. destruct (decide (_ /\ _)); [naive_solver|done].
Qed.

Section Deactivate.
Context (s : rq) (pid : Z) (t : task) (Hok : queues_ok s) (Ht : tasks s !! pid = Some t) (Hi : pid <> idle).

Lemma deactivated_queued c : queued c (classes (deactivated s pid t)) =
  if decide (c = klass t) then queued c (classes s) ∖ {[ pid ]} else queued c (classes s).
Proof.
  pose proof (activated_not_idle s pid t Hok Ht Hi) as Hk. simpl.
  destruct (decide (c = klass t)) as [->|Hc]; [|by rewrite queued_dequeue_other].
  destruct (decide (klass t = rt_class)) as [E|E]; [|by rewrite queued_dequeue].
  apply set_eq. intros x. rewrite elem_of_difference, elem_of_singleton, E, !rt_queued.
  pose proof (deactivated_lists s pid t) as Hl. simpl in Hl. rewrite E in Hl.
  split.
  - intros (p & Hp). rewrite Hl in Hp. unfold without in Hp. case_decide as Ed.
    + apply list_elem_of_filter in Hp as [Hx Hp]. eauto.
    + split; [eauto|]. intros ->. destruct (inv_lists _ Hok _ _ Hp) as (u & Hu & Hpu). simplify_eq. by destruct Ed.
  - intros [(p & Hp) Hx]. exists p. rewrite Hl. unfold without. case_decide; [|done].
    by apply list_elem_of_filter.
Qed.
Lemma deactivated_task i : tasks (deactivated s pid t) !! i =
  if decide (i = pid) then Some (set_on_rq t NOT_QUEUED) else tasks s !! i.
Proof.
  simpl. destruct (decide (i = pid)) as [->|Hne]; [by rewrite lookup_alter_eq, Ht|by rewrite lookup_alter_ne].
Qed.
Lemma deactivated_ok : queues_ok (deactivated s pid t).
Proof.
  split.
  - destruct (inv_idle _ Hok) as (u & Hu & H1 & H2 & H3). exists u. rewrite deactivated_task.
    rewrite decide_False by congruence. done.
  - intros i u. rewrite deactivated_task. case_decide; [|apply (inv_base _ Hok)].
    intros [= <-]. apply (inv_base _ Hok pid t Ht).
  - intros i u. rewrite deactivated_task. case_decide as Ei.
    + subst i. intros [= <-] _. by destruct (inv_tasks _ Hok _ _ Ht Hi) as (Hid & _).
    + intros Hu Hne. destruct (inv_tasks _ Hok _ _ Hu Hne) as (H1 & H2 & H3). split_and!; [done..|].
      intros Hu'. rewrite deactivated_queued. specialize (H3 Hu'). case_decide; set_solver.
  - intros c i Hc. rewrite deactivated_queued. intros Hin.
    assert (i ∈ queued c (classes s)) as Hin0 by (destruct (decide (c = klass t)); set_solver).
    destruct (inv_queued _ Hok _ _ Hc Hin0) as (u & Hu & Hku & Hou). rewrite deactivated_task.
    rewrite decide_False; [eauto|]. intros ->. simplify_eq. rewrite decide_True in Hin by done. set_solver.
  - intros i p. rewrite deactivated_lists, deactivated_task. intros Hin.
    assert (i ∈ rt_list (classes s) p) as Hin0.
    { unfold without in Hin. case_decide; [|done]. by apply list_elem_of_filter in Hin as [_ ?]. }
    destruct (inv_lists _ Hok _ _ Hin0) as (u & Hu & Hpu). case_decide as Ei; [|eauto].
    subst i. simplify_eq. by eexists.
  - intros p. rewrite deactivated_lists. unfold without. case_decide; [|apply (inv_nodup _ Hok)].
    apply NoDup_filter, (inv_nodup _ Hok).
Qed.
End Deactivate.

(** ** The choice of the next task *)
Definition chosen (cs : cstate) (c : class_id) (next : Z) : Prop :=
  match c with
  | dl_class => next ∈ queued dl_class cs
  | rt_class => queued dl_class cs = ∅ /\
      exists p q, rt_list cs p = next :: q /\ forall p', p' < p -> rt_list cs p' = []
  | fair_class => queued dl_class cs = ∅ /\ queued rt_class cs = ∅ /\ next ∈ queued fair_class cs
  | idle_class => queued dl_class cs = ∅ /\ queued rt_class cs = ∅ /\ queued fair_class cs = ∅ /\ next = idle
  end.
Lemma chosen_same cs cs' c next : same_queued cs cs' -> same_lists cs cs' -> chosen cs' c next -> chosen cs c next.
Proof.
  intros Hq Hl. destruct c; simpl; rewrite !Hq; try done.
  intros (H1 & p & q & H2 & H3). rewrite Hl in H2. split; [done|]. exists p, q. split; [done|].
  intros p' Hp'. rewrite <- (Hl p'). by apply H3.
Qed.
Lemma chosen_task s c next : queues_ok s -> chosen (classes s) c next ->
  exists t, tasks s !! next = Some t /\ on_rq t = TASK_ON_RQ_QUEUED /\ best_of s next t.
Proof.
  intros H. destruct c; simpl.
  - intros Hin. destruct (inv_queued _ H dl_class next) as (t & Ht & Hk & Ho); [done..|].
    exists t. split_and!; [done..|]. unfold best_of. by rewrite Hk.
  - intros (H1 & p & q & H2 & H3).
    assert (next ∈ rt_list (classes s) p) as Hin by (rewrite H2; left).
    destruct (inv_lists _ H _ _ Hin) as (t & Ht & Hp).
    assert (next ∈ queued rt_class (classes s)) as Hin' by (apply rt_queued; eauto).
    destruct (inv_queued _ H rt_class next) as (t' & Ht' & Hk & Ho); [done..|]. simplify_eq.
    exists t. split_and!; [done..|]. unfold best_of. rewrite Hk. split_and!; [done|eauto|done].
  - intros (H1 & H2 & Hin). destruct (inv_queued _ H fair_class next) as (t & Ht & Hk & Ho); [done..|].
    exists t. split_and!; [done..|]. unfold best_of. by rewrite Hk.
  - intros (H1 & H2 & H3 & ->). destruct (inv_idle _ H) as (t & Ht & Hid & Ho & _).
    exists t. split_and!; [done..|]. unfold best_of, klass. by rewrite Hid.
Qed.

(** What picking does to the run queue: nothing but to the classes' own state. *)
Definition picks (s : rq) (r : res (rq * Z)) : Prop :=
  exists cs c next, r = Ok (set_classes s cs, next) /\ same_queued (classes s) cs /\
    same_lists (classes s) cs /\ chosen (classes s) c next.

Lemma same_queued_trans a b c : same_queued a b -> same_queued b c -> same_queued a c.
Proof. intros H1 H2 x. by rewrite H2. Qed.
Lemma same_lists_trans a b c : same_lists a b -> same_lists b c -> same_lists a c.
Proof. intros H1 H2 x. by rewrite H2. Qed.

Lemma pick_class_spec cs : exists cs' c next, pick_class all_classes cs = Ok (cs', next) /\
  same_queued cs cs' /\ same_lists cs cs' /\ chosen cs c next.
Proof.
  assert (forall c s, same_queued s (class_pick_next_task c s).1 /\ same_lists s (class_pick_next_task c s).1)
    as Hsame by (split; [apply queued_pick|apply rt_pick_same]).
  unfold all_classes. simpl.
  pose proof (pick_member dl_class cs) as D1. pose proof (pick_none dl_class cs) as D2.
  destruct (Hsame dl_class cs) as [D3 D4]. destruct (class_pick_next_task dl_class cs) as [c1 [p|]]; simpl in *.
  { eexists _, dl_class, _. split_and!; [done..|]. by apply D1. }
  specialize (D2 (ltac:(done)) eq_refl).
  pose proof (rt_pick c1) as R1. pose proof (pick_none rt_class c1) as R2.
  destruct (Hsame rt_class c1) as [R3 R4]. destruct (class_pick_next_task rt_class c1) as [c2 [p|]]; simpl in *.
  { eexists _, rt_class, _. split_and!; [done|by eapply same_queued_trans|by eapply same_lists_trans|].
    eapply chosen_same; [exact D3|exact D4|]. split; [by rewrite D3|by apply R1]. }
  specialize (R2 (ltac:(done)) eq_refl). rewrite D3 in R2.
  assert (same_queued cs c2) as Q2 by (by eapply same_queued_trans).
  assert (same_lists cs c2) as L2 by (by eapply same_lists_trans).
  pose proof (pick_member fair_class c2) as F1. pose proof (pick_none fair_class c2) as F2.
  destruct (Hsame fair_class c2) as [F3 F4]. destruct (class_pick_next_task fair_class c2) as [c3 [p|]]; simpl in *.
  { eexists _, fair_class, _. split_and!; [done|by eapply same_queued_trans|by eapply same_lists_trans|].
    split_and!; [done..|]. rewrite <- Q2. by apply F1. }
  specialize (F2 (ltac:(done)) eq_refl). rewrite Q2 in F2.
  pose proof (pick_idle c3) as I1. destruct (Hsame idle_class c3) as [I3 I4].
  destruct (class_pick_next_task idle_class c3) as [c4 q]; simpl in *. subst q.
  eexists _, idle_class, _. split_and!; [done| | |done].
  - eapply same_queued_trans; [exact Q2|]. by eapply same_queued_trans.
  - eapply same_lists_trans; [exact L2|]. by eapply same_lists_trans.
Qed.

Lemma pick_restart_spec s prev p : tasks s !! prev = Some p -> picks s (pick_restart s prev).
Proof.
  intros Hp. unfold pick_restart, put_prev_task_balance, the_task. rewrite Hp. cbn [of_option mbind res_bind].
  set (cs := class_put_prev_task _ _ _). cbn [classes set_classes].
  assert (same_queued (classes s) cs) as Hq by apply queued_put.
  assert (same_lists (classes s) cs) as Hl by apply rt_put_same.
  destruct (pick_class_spec cs) as (cs' & c & next & -> & Hq' & Hl' & Hc). simpl.
  exists cs', c, next. split_and!; [done|by eapply same_queued_trans|by eapply same_lists_trans|].
  by eapply chosen_same.
Qed.

Lemma pick_spec s prev p : tasks s !! prev = Some p -> picks s (pick_next_task s prev).
Proof.
  intros Hp. pose proof (pick_restart_spec s prev p Hp) as Hr. unfold pick_next_task, the_task.
  rewrite Hp. cbn [of_option mbind res_bind]. destruct (_ && _)%bool eqn:Eb; [|done].
  apply andb_prop in Eb as [_ Er%Z.eqb_eq]. apply running_fair in Er as [Hdl Hrt].
  pose proof (queued_pick_fair (classes s) (entity_of prev p)) as Hq.
  pose proof (rt_pick_fair_same (classes s) (entity_of prev p)) as Hl.
  pose proof (pick_fair_member (classes s) (entity_of prev p)) as Hm.
  pose proof (pick_fair_none (classes s) (entity_of prev p)) as Hn.
  destruct (pick_next_task_fair _ _) as [cs [|[next|]]]; simpl in *.
  - destruct (pick_restart_spec (set_classes s cs) prev p) as (cs' & c & next & -> & Hq' & Hl' & Hc); [done|].
    exists cs', c, next. split_and!; [done|by eapply same_queued_trans|by eapply same_lists_trans|].
    by eapply chosen_same.
  - exists cs, fair_class, next. split_and!; [done..|]. split_and!; [done..|]. by apply Hm.
  - unfold put_prev_task_balance, the_task. simpl. rewrite Hp. cbn [of_option mbind res_bind].
    set (cs1 := class_put_prev_task _ _ _). simpl.
    pose proof (pick_idle cs1) as I1. pose proof (queued_pick idle_class cs1) as I2.
    pose proof (rt_pick_same idle_class cs1) as I3.
    destruct (class_pick_next_task idle_class cs1) as [cs2 q]; simpl in *. subst q.
    exists cs2, idle_class, idle. split_and!; [done| | |].
    + eapply same_queued_trans; [exact Hq|]. eapply same_queued_trans; [apply queued_put|done].
    + eapply same_lists_trans; [exact Hl|]. eapply same_lists_trans; [apply rt_put_same|done].
    + split_and!; [done..| |done]. by apply Hn.
Qed.

(** What no pending reschedule means for the queued tasks. *)
Lemma best_is_best s c pid t : inv s -> tasks s !! curr s = Some c -> best_of s (curr s) c ->
  tasks s !! pid = Some t -> on_rq t = TASK_ON_RQ_QUEUED ->
  rank (klass t) <= rank (klass c) /\
  (klass t = rt_class -> klass c = rt_class -> prio c <= prio t).
Proof.
  intros H Hc Hb Ht Ho. destruct (decide (pid = idle)) as [->|Hne].
  { destruct (inv_idle _ (inv_queues _ H)) as (u & Hu & Hi & _). simplify_eq.
    assert (klass t = idle_class) as Hk by (unfold klass; by rewrite Hi). rewrite Hk.
    split; [destruct (klass c); simpl; lia|done]. }
  destruct (inv_tasks _ (inv_queues _ H) _ _ Ht Hne) as (_ & _ & Hq). specialize (Hq Ho).
  unfold best_of in Hb. destruct (klass c) eqn:Ec.
  - split; [destruct (klass t); simpl; lia|done].
  - destruct Hb as (H1 & _ & H3). destruct (klass t) eqn:Et; simpl; split; try lia; try done.
    + set_solver.
    + intros _ _. apply rt_queued in Hq as (p & Hp).
      destruct (inv_lists _ (inv_queues _ H) _ _ Hp) as (u & Hu & <-). simplify_eq.
      destruct (Z.le_gt_cases (prio c) (prio t)) as [|Hgt]; [done|]. rewrite H3 in Hp by lia. set_solver.
  - destruct Hb as (H1 & H2). destruct (klass t) eqn:Et; simpl; split; try lia; try done; set_solver.
  - destruct Hb as (H1 & H2 & H3). destruct (klass t) eqn:Et; simpl; split; try lia; try done; set_solver.
Qed.

End Invariant.
