(* ===== verification/RunQueueSched.v ===== *)
(** * The run queue of one CPU: __schedule and the events (src/Assignment_4/fifo/core.c)

    Every event keeps the invariant of RunQueueInv, never fails, and changes the
    list of each priority only at its ends ([list_step]). *)
From Stdlib Require Import ZArith Lia.
From stdpp Require Import gmap.
From S2P Require Import Prelude CLib SchedInfo SchedClass SchedClassTheorems RunQueue RunQueueInv.
Import RunQueue.

Local Open Scope Z_scope.

(** signal_pending_state answers for states a signal can end only. *)
Definition sig_ok (sig : Z -> Z -> bool) : Prop :=
  forall st pid, has st (Z.lor TASK_INTERRUPTIBLE TASK_WAKEKILL) = false -> sig st pid = false.

Section Sched.
Context `{h : headers} {hok : headers_ok h} `{sc : sched_classes}.
Context (reweight : Z -> res SchedClass.load_weight).
Context {idle : Z} {ok : sched_classes_ok sc idle} {rok : rt_ok sc idle ok}.

Local Abbreviation prio t := (SchedClass.prio (base t)).
(** Does __schedule take the current task [c] off the queue? *)
Definition leaves (preempt : bool) (sig : Z -> Z -> bool) (pid : Z) (c : task) : bool :=
  (negb (preempt || (state c =? TASK_RUNNING)%c) && negb (sig (state c) pid))%bool.

Lemma current_not_idle s c : queues_ok s -> tasks s !! curr s = Some c -> state c <> TASK_RUNNING ->
  curr s <> idle.
Proof. intros Hq Hc Hs E. destruct (inv_idle _ Hq) as (t & Ht & _ & _ & Hr). rewrite E in Hc. congruence. Qed.

(** [s1] is [s] with the current task possibly taken off. *)
Record prev_done (s s1 : rq) (c : task) (off : bool) : Prop := {
  pd_queues : queues_ok s1;
  pd_curr : curr s1 = curr s;
  pd_task : exists c1, tasks s1 !! curr s = Some c1 /\ base c1 = base c /\
              on_rq c1 = (if off then NOT_QUEUED else TASK_ON_RQ_QUEUED);
  pd_others pid : pid <> curr s -> tasks s1 !! pid = tasks s !! pid;
  pd_lists p : rt_list (classes s1) p =
              if off then without s (curr s) c p else rt_list (classes s) p
}.

Lemma schedule_prev_spec preempt sig s c : queues_ok s -> current_ok s -> tasks s !! curr s = Some c ->
  exists s1 v, schedule_prev preempt sig s = Ok (s1, v) /\ prev_done s s1 c (leaves preempt sig (curr s) c).
Proof.
  intros Hq Hcur Hc. destruct (inv_curr _ Hcur) as (c' & Hc' & Ho). simplify_eq.
  unfold schedule_prev, the_task, leaves. rewrite Hc. cbn [of_option mbind res_bind].
  destruct (preempt || (state c =? TASK_RUNNING)%c)%bool eqn:Ep.
  { exists s, false. split; [done|]. split; [done..|by exists c|done|done]. }
  apply orb_false_elim in Ep as [_ Es%Z.eqb_neq].
  assert (curr s <> idle) as Hid by (by eapply current_not_idle).
  assert (is_idle c = false) as Hii by apply (inv_tasks _ Hq _ _ Hc Hid).
  destruct (sig (state c) (curr s)).
  { rewrite (update_eq _ _ _ _ Hc). cbn [mbind res_bind negb andb].
    eexists _, true. split; [done|]. split; [|done| | |done].
    - eapply similar_queues; [|done]. apply upd_similar. intros t Ht. simplify_eq.
      unfold same_task. simpl. rewrite Hii. done.
    - simpl. rewrite lookup_alter_eq, Hc. by exists (set_state c TASK_RUNNING).
    - intros pid Hp. simpl. by rewrite lookup_alter_ne. }
  rewrite (update_eq _ _ _ _ Hc). cbn [mbind res_bind negb andb].
  set (f := fun p : task => set_contributes p (contributes p)).
  set (s0 := if contributes c then add_uninterruptible (upd s (curr s) f) 1 else upd s (curr s) f).
  assert (similar s s0) as Hs0.
  { assert (similar s (upd s (curr s) f)) as Hu by (apply upd_similar; by intros).
    unfold s0. destruct (contributes c); [|done]. destruct Hu as [H1 H2 H3]. by split. }
  assert (curr s0 = curr s /\ classes s0 = classes s /\ tasks s0 = alter f (curr s) (tasks s)) as (E1 & E2 & E3)
    by (unfold s0; by destruct (contributes c)).
  assert (tasks s0 !! curr s = Some (f c)) as Hc0 by (by rewrite E3, lookup_alter_eq, Hc).
  rewrite (deactivate_eq s0 (curr s) (f c) Hc0). cbn [mbind res_bind].
  set (s1 := if in_iowait c then _ else _).
  assert (queues_ok (deactivated s0 (curr s) (f c))) as Hq1
    by (apply deactivated_ok; [by eapply similar_queues|done|done]).
  assert (queues_ok s1 /\ curr s1 = curr s /\ tasks s1 = tasks (deactivated s0 (curr s) (f c)) /\
          classes s1 = classes (deactivated s0 (curr s) (f c))) as (F1 & F2 & F3 & F4).
  { unfold s1. destruct (in_iowait c); split_and!; try done.
    eapply similar_queues; [|exact Hq1]. split; [|done..]. intros pid. simpl.
    destruct (alter _ _ _ !! pid); by constructor. }
  exists s1, true. split; [done|]. split; [done|done| | |].
  - rewrite F3, (deactivated_task s0 (curr s) (f c) Hc0), decide_True by done. by eexists.
  - intros pid Hp. rewrite F3, (deactivated_task s0 (curr s) (f c) Hc0), decide_False by done.
    by rewrite E3, lookup_alter_ne.
  - intros p. rewrite F4, deactivated_lists. unfold without. rewrite E2. done.
Qed.

(** The next task is the best of those left, nobody is asked to reschedule. *)
Record scheduled (s s1 s' : rq) : Prop := {
  sd_inv : inv s';
  sd_similar : similar s1 s';
  sd_flags pid t : tasks s' !! pid = Some t -> need_resched t = false;
  sd_states pid t t' : tasks s1 !! pid = Some t -> tasks s' !! pid = Some t' -> state t' = state t
}.

(** What __schedule does to the run queue after the choice: only the flag and the
    counters of the previous task change. *)
Lemma switch_spec s1 cs next prev p preempt v : tasks s1 !! prev = Some p ->
  same_queued (classes s1) cs -> same_lists (classes s1) cs -> curr s1 = prev ->
  exists s', (s ← update (set_classes s1 cs) prev (fun p => set_need_resched p false);
              if (prev =? next)%c then Ok s
              else
                let s := set_curr (add_switch s) next in
                s ← update s prev (fun p => count_switch p v);
                finish_task_switch (add_trace s (sched_switch preempt prev next)) prev) = Ok s' /\
    similar s1 s' /\ curr s' = next /\
    (forall pid, pid <> prev -> tasks s' !! pid = tasks s1 !! pid) /\
    (exists p', tasks s' !! prev = Some p' /\ need_resched p' = false /\ state p' = state p).
Proof.
  intros Hp Hq Hl Hc. rewrite (update_eq (set_classes s1 cs) prev _ p Hp). cbn [mbind res_bind].
  set (s2 := upd _ _ _).
  assert (similar s1 s2) as Hs2.
  { etrans; [by apply (classes_similar _ cs)|]. apply upd_similar. by intros. }
  assert (tasks s2 !! prev = Some (set_need_resched p false)) as Hp2 by (simpl; by rewrite lookup_alter_eq, Hp).
  destruct (Z.eqb_spec prev next) as [E|E].
  - exists s2. split_and!; [done|done|simpl; congruence| |by eexists].
    intros pid Hne. simpl. by rewrite lookup_alter_ne.
  - cbv zeta. rewrite (update_eq (set_curr (add_switch s2) next) prev _ _ Hp2). cbn [mbind res_bind].
    set (s3 := add_trace _ _).
    assert (tasks s3 !! prev = Some (count_switch (set_need_resched p false) v)) as Hp3
      by (simpl; by rewrite lookup_alter_eq, lookup_alter_eq, Hp).
    assert (similar s1 s3) as Hs3.
    { etrans; [exact Hs2|]. split; [|by intros ?..]. simpl. apply alter_Forall2; [done|by intros]. }
    assert (forall pid, pid <> prev -> tasks s3 !! pid = tasks s1 !! pid) as Hne3
      by (intros pid Hne; simpl; by rewrite !lookup_alter_ne).
    unfold finish_task_switch, the_task. rewrite Hp3. cbn [of_option mbind res_bind].
    case_match.
    + eexists. split; [done|]. split_and!; [|done|exact Hne3|by eexists].
      etrans; [exact Hs3|]. apply (classes_similar); [apply queued_dead|apply rt_dead_same].
    + exists s3. split_and!; [done|done|done|exact Hne3|by eexists].
Qed.

Lemma schedule_spec preempt sig s c : queues_ok s -> current_ok s -> tasks s !! curr s = Some c ->
  exists s1 s', __schedule preempt sig s = Ok s' /\
    prev_done s s1 c (leaves preempt sig (curr s) c) /\ scheduled s s1 s'.
Proof.
  intros Hq Hcur Hc. unfold __schedule. cbv zeta.
  destruct (schedule_prev_spec preempt sig s c Hq Hcur Hc) as (s1 & v & -> & Hpd).
  cbn [mbind res_bind]. pose proof Hpd as [Hq1 Hc1 (c1 & Hcc & Hb & Ho) Hoth Hlists].
  destruct (pick_spec s1 (curr s) c1 Hcc) as (cs & k & next & -> & Hqs & Hls & Hch).
  cbn [mbind res_bind].
  destruct (switch_spec s1 cs next (curr s) c1 preempt v Hcc Hqs Hls Hc1)
    as (s' & Hsw & Hsim & Hnext & Hne & (p' & Hp' & Hn' & Hst')).
  cbv zeta in Hsw. rewrite Hsw.
  exists s1, s'. split; [done|]. split; [done|].
  destruct (chosen_task s1 k next Hq1 Hch) as (t & Ht & Hot & Hbest).
  assert (forall pid t, tasks s' !! pid = Some t -> need_resched t = false) as Hfl.
  { intros pid u Hu. destruct (decide (pid = curr s)) as [->|Hpid]; [congruence|].
    rewrite Hne, Hoth in Hu by done. destruct (need_resched u) eqn:En; [|done].
    by destruct (inv_resched _ Hcur _ _ Hu En). }
  destruct (similar_task _ _ _ _ Hsim Ht) as (t' & Ht' & Hsame).
  split; [|done|done|].
  - split; [by eapply similar_queues| |].
    + split; [rewrite Hnext; exists t'; split; [done|by destruct Hsame as (_ & _ & -> & _)]|].
      intros pid u Hu Hnu. rewrite (Hfl _ _ Hu) in Hnu. done.
    + rewrite Hnext. intros c' Hc' _. simplify_eq. by eapply best_similar.
  - intros pid u u' Hu Hu'. destruct (decide (pid = curr s)) as [->|Hpid]; [congruence|].
    rewrite Hne in Hu' by done. congruence.
Qed.

(** ** Small steps *)
Lemma counters_neutral s s' : curr s' = curr s -> tasks s' = tasks s -> classes s' = classes s -> neutral s s'.
Proof.
  intros Hc Ht Hcs. split; [|done|].
  - split; [|intros ?; by rewrite Hcs|intros ?; by rewrite Hcs].
    intros pid. rewrite Ht. destruct (tasks s !! pid); by constructor.
  - intros pid t t' H1 H2. rewrite Ht in H2. simplify_eq. by left.
Qed.
Lemma state_neutral s pid v t : tasks s !! pid = Some t -> is_idle t = false ->
  neutral s (upd s pid (fun p => set_state p v)).
Proof.
  intros Ht Hi. apply upd_neutral; [|by left]. intros t' Ht'. simplify_eq.
  unfold same_task. simpl. by rewrite Hi.
Qed.
Lemma not_idle_task s : not_idle s = true -> exists c, tasks s !! curr s = Some c /\ is_idle c = false.
Proof.
  unfold not_idle. destruct (tasks s !! curr s) as [c|] eqn:E; [|done].
  intros Hn%negb_true_iff. by exists c.
Qed.
Lemma idle_iff s pid t : queues_ok s -> tasks s !! pid = Some t -> is_idle t = false -> pid <> idle.
Proof. intros H Ht Hi ->. destruct (inv_idle _ H) as (u & Hu & Hid & _). congruence. Qed.

(** A class operation that keeps tasks and lists, with or without resched_curr. *)
Lemma class_op_spec s cs (b : bool) : inv s -> same_queued (classes s) cs -> same_lists (classes s) cs ->
  exists s', (if b then resched_curr (set_classes s cs) else Ok (set_classes s cs)) = Ok s' /\ neutral s s'.
Proof.
  intros [_ Hc _] Hq Hl. assert (neutral s (set_classes s cs)) as Hn by (by apply classes_neutral).
  destruct b; [|eauto]. destruct (resched_spec (set_classes s cs)) as (s' & -> & Hn' & _).
  - by eapply neutral_current.
  - exists s'. split; [done|by etrans].
Qed.

(** The current task stays, and no task changes its class or priority. *)
Definition stays (s s' : rq) : Prop :=
  curr s' = curr s /\ forall pid t, tasks s !! pid = Some t ->
    exists t', tasks s' !! pid = Some t' /\ base t' = base t /\ is_idle t' = is_idle t.
#[global] Instance stays_trans : Transitive stays.
Proof.
  intros s1 s2 s3 [C1 H1] [C2 H2]. split; [congruence|]. intros pid t Ht.
  destruct (H1 _ _ Ht) as (t2 & Ht2 & Hb & Hi). destruct (H2 _ _ Ht2) as (t3 & Ht3 & Hb3 & Hi3).
  exists t3. split_and!; congruence.
Qed.
Lemma neutral_stays s s' : neutral s s' -> stays s s'.
Proof.
  intros Hn. split; [apply Hn|]. intros pid t Ht.
  destruct (similar_task _ _ _ _ (neu_similar _ _ Hn) Ht) as (t' & Ht' & Hb & Hi & _). by exists t'.
Qed.
Lemma activated_stays s pid t w : tasks s !! pid = Some t -> stays s (activated s pid t w).
Proof.
  intros Ht. split; [done|]. intros i u Hu. rewrite (activated_task s pid t w Ht).
  case_decide; [|by exists u]. subst i. simplify_eq. by eexists.
Qed.

(** ** Wake-up *)
Lemma do_wakeup_spec s pid t : inv s -> tasks s !! pid = Some t -> is_idle t = false ->
  exists s', ttwu_do_wakeup s pid = Ok s' /\ neutral s s' /\
    (exists t', tasks s' !! pid = Some t' /\ state t' = TASK_RUNNING /\ on_rq t' = on_rq t).
Proof.
  intros H Ht Hi. unfold ttwu_do_wakeup.
  destruct (check_preempt_spec s pid t) as (s1 & -> & Hn & _); [apply H|done|]. cbn [mbind res_bind].
  destruct (similar_task _ _ _ _ (neu_similar _ _ Hn) Ht) as (t1 & Ht1 & Hsame).
  rewrite (update_eq _ _ _ _ Ht1). cbn [mbind res_bind]. eexists. split; [done|].
  assert (is_idle t1 = false) as Hi1 by (destruct Hsame as (_ & -> & _); done).
  split.
  - etrans; [exact Hn|]. etrans; [by eapply state_neutral|]. by apply counters_neutral.
  - simpl. rewrite lookup_alter_eq, Ht1. eexists. split_and!; [done..|].
    simpl. by destruct Hsame as (_ & _ & -> & _).
Qed.

Lemma join_wakeup_spec s pid t w : inv s -> tasks s !! pid = Some t -> is_idle t = false ->
  on_rq t = NOT_QUEUED ->
  exists s', check_preempt_curr (activated s pid t w) pid = Ok s' /\ inv s' /\
    neutral (activated s pid t w) s'.
Proof.
  intros H Ht Hi Ho. apply join_spec; [done|done| |congruence|].
  - eapply idle_iff; [apply H|done..].
  - destruct (need_resched t) eqn:En; [|done]. exfalso.
    pose proof (inv_resched _ (inv_current _ H) _ _ Ht En) as ->.
    destruct (inv_curr _ (inv_current _ H)) as (c & Hc & Hoc). congruence.
Qed.

Lemma do_activate_spec s pid t : inv s -> tasks s !! pid = Some t -> is_idle t = false ->
  on_rq t = NOT_QUEUED ->
  exists s', ttwu_do_activate s pid = Ok s' /\ inv s' /\ stays s s' /\
    (forall p, rt_list (classes s') p = joined s pid t p) /\
    (exists t', tasks s' !! pid = Some t' /\ state t' = TASK_RUNNING /\ on_rq t' = TASK_ON_RQ_QUEUED).
Proof.
  intros H Ht Hi Ho. unfold ttwu_do_activate, the_task. rewrite Ht. cbn [of_option mbind res_bind].
  set (s0 := if sched_contributes_to_load t then add_uninterruptible s (-1) else s).
  set (s1 := if in_iowait t then add_iowait s0 (-1) else s0).
  assert (neutral s s1 /\ tasks s1 = tasks s /\ classes s1 = classes s) as (Hn & Et & Ec).
  { unfold s1, s0. destruct (sched_contributes_to_load t), (in_iowait t);
      (split; [by apply counters_neutral|done]). }
  clearbody s1. clear s0. assert (tasks s1 !! pid = Some t) as Ht1 by congruence.
  assert (inv s1) as H1 by (by eapply neutral_inv).
  rewrite (activate_eq s1 pid t true Ht1). cbn [mbind res_bind]. unfold ttwu_do_wakeup.
  destruct (join_wakeup_spec s1 pid t true) as (s2 & -> & H2 & Hn2); [done..|]. cbn [mbind res_bind].
  assert (tasks (activated s1 pid t true) !! pid = Some (set_on_rq t TASK_ON_RQ_QUEUED)) as Hta
    by (by rewrite (activated_task s1 pid t true Ht1), decide_True).
  destruct (similar_task _ _ _ _ (neu_similar _ _ Hn2) Hta) as (t2 & Ht2 & Hsame).
  rewrite (update_eq _ _ _ _ Ht2). cbn [mbind res_bind]. eexists. split; [done|].
  assert (is_idle t2 = false) as Hi2 by (destruct Hsame as (_ & -> & _); done).
  assert (neutral s2 (add_trace (upd s2 pid (fun p => set_state p TASK_RUNNING)) (sched_wakeup pid))) as Hn3.
  { etrans; [by eapply state_neutral|]. by apply counters_neutral. }
  split_and!.
  - by eapply neutral_inv.
  - etrans; [by apply neutral_stays|]. etrans; [by eapply activated_stays|].
    etrans; by apply neutral_stays.
  - intros p. simpl. rewrite (sim_lists _ _ (neu_similar _ _ Hn2)).
    rewrite activated_lists; [unfold joined; by rewrite Ec|].
    apply (activated_not_idle s1 pid t (inv_queues _ H1) Ht1). by eapply idle_iff; [apply H|..].
  - simpl. rewrite lookup_alter_eq, Ht2. eexists. split_and!; [done..|].
    simpl. by destruct Hsame as (_ & _ & -> & _).
Qed.

(** ** Lists change at their ends *)
Inductive list_step (cur : Z) : list Z -> list Z -> Prop :=
  | list_same q : list_step cur q q
  | list_enter q pid : pid ∉ q -> list_step cur q (q ++ [pid])
  | list_leave q : list_step cur (cur :: q) q.
Definition lists_step (s s' : rq) : Prop :=
  forall p, list_step (curr s) (rt_list (classes s) p) (rt_list (classes s') p).
Lemma neutral_lists s s' : neutral s s' -> lists_step s s'.
Proof. intros Hn p. rewrite (sim_lists _ _ (neu_similar _ _ Hn)). apply list_same. Qed.
Lemma joined_lists s s' pid t : inv s -> tasks s !! pid = Some t -> on_rq t = NOT_QUEUED ->
  (forall p, rt_list (classes s') p = joined s pid t p) -> lists_step s s'.
Proof.
  intros H Ht Ho Hl p. rewrite Hl. unfold joined. case_decide; [|apply list_same].
  apply list_enter. eapply absent_lists; [apply H|done|congruence].
Qed.

Lemma try_to_wake_up_spec s pid mask t : inv s -> tasks s !! pid = Some t -> is_idle t = false ->
  exists s', try_to_wake_up s pid mask = Ok (if has (state t) mask then 1 else 0, s') /\
    inv s' /\ lists_step s s' /\ stays s s' /\
    (if has (state t) mask
     then exists t', tasks s' !! pid = Some t' /\ state t' = TASK_RUNNING /\ on_rq t' = TASK_ON_RQ_QUEUED
     else s' = s).
Proof.
  intros H Ht Hi. unfold try_to_wake_up, the_task. rewrite Ht. cbn [of_option mbind res_bind].
  assert (pid <> idle) as Hid by (by eapply idle_iff; [apply H|..]).
  destruct (Z.eqb_spec pid (curr s)) as [E|E].
  - destruct (has (state t) mask); cbn [negb].
    + rewrite (update_eq _ _ _ _ Ht). cbn [mbind res_bind]. eexists. split; [done|].
      assert (neutral s (add_trace (upd s pid (fun p => set_state p TASK_RUNNING)) (sched_wakeup pid))) as Hn.
      { etrans; [by eapply state_neutral|]. by apply counters_neutral. }
      split_and!; [by eapply neutral_inv|by apply neutral_lists|by apply neutral_stays|].
      simpl. rewrite lookup_alter_eq, Ht. eexists. split_and!; [done..|]. simpl.
      destruct (inv_curr _ (inv_current _ H)) as (c & Hc & Hoc). congruence.
    + exists s. split_and!; [done|done|by apply neutral_lists|by apply neutral_stays|done].
  - destruct (has (state t) mask); cbn [negb].
    2:{ exists s. split_and!; [done|done|by apply neutral_lists|by apply neutral_stays|done]. }
    destruct (inv_tasks _ (inv_queues _ H) _ _ Ht Hid) as (_ & Hm & _).
    destruct (decide (on_rq t = NOT_QUEUED)) as [Ho|Ho]; cbn [mbind res_bind].
    + unfold ttwu_queue. destruct (do_activate_spec s pid t) as (s' & -> & H' & Hst & Hl & Ht'); [done..|].
      exists s'. split_and!; [done|done| |done|done]. by eapply joined_lists.
    + unfold ttwu_runnable, the_task. rewrite Ht. cbn [of_option mbind res_bind].
      assert (on_rq t = TASK_ON_RQ_QUEUED) as Hoq by (destruct (on_rq t); congruence).
      rewrite decide_True by done.
      destruct (do_wakeup_spec s pid t) as (s' & -> & Hn & (t' & Ht' & Hs' & Ho')); [done..|].
      cbn [mbind res_bind]. exists s'.
      split_and!; [done|by eapply neutral_inv|by apply neutral_lists|by apply neutral_stays|].
      exists t'. split_and!; [done..|congruence].
Qed.

(** ** Fork *)
Lemma load_weight_fork b : 100 <= SchedClass.static_prio b < 140 ->
  exists l, SchedClass.set_load_weight reweight b false = Ok (SchedClass.set_load b l).
Proof.
  intros Hs. destruct prio_values as (_ & Hrt & _). unfold SchedClass.set_load_weight. rewrite Hrt.
  destruct (aget_range SchedClass.sched_prio_to_weight (SchedClass.static_prio b - 100)) as [w ->]; [simpl; lia|].
  destruct (aget_range SchedClass.sched_prio_to_wmult (SchedClass.static_prio b - 100)) as [v ->]; [simpl; lia|].
  case_match; by eexists.
Qed.

(** Without the class, which sched_fork sets last. *)
Definition fork_ok (b : SchedClass.task) : Prop :=
  100 <= SchedClass.static_prio b < 140 /\
  SchedClass.prio b <> 99 /\ SchedClass.normal_prio_ b <> 99 /\
  (dl_policy (SchedClass.policy b) = true -> SchedClass.prio b < 0 /\ SchedClass.normal_prio_ b < 0).

Lemma fork_prio_ok b : base_ok b -> fork_ok (SchedClass.fork_prio FIFO b (SchedClass.no_waiter b)).
Proof.
  intros (Hs & _ & H9 & Hn9). destruct prio_values as (_ & Hrt & _), fifo_policy as (_ & Hdl & _).
  unfold SchedClass.fork_prio, fork_ok. case_match; simpl; [|done]. rewrite Hrt, Hdl. split_and!; try done; lia.
Qed.

Lemma fork_reset_spec q : fork_ok q -> exists b, SchedClass.fork_reset reweight q = Ok b /\ fork_ok b.
Proof.
  intros Hb. unfold SchedClass.fork_reset. destruct (SchedClass.reset_on_fork q); [|by exists q].
  set (r := if (SchedClass.task_has_dl_policy q || SchedClass.task_has_rt_policy q)%bool then _ else _).
  assert (100 <= SchedClass.static_prio r < 140 /\ dl_policy (SchedClass.policy r) = false) as (Hr2 & Hr3).
  { destruct policy_cases as (_ & H1 & H2 & _), Hb as (Hs & _). unfold r.
    destruct (SchedClass.task_has_dl_policy q) eqn:Ed; simpl.
    - rewrite nice_prio, dl_policy_def. split_and!; [lia..|by apply Z.eqb_neq].
    - repeat case_match; simpl; rewrite ?nice_prio; (split_and!; [lia..|]); try done.
      rewrite dl_policy_def. by apply Z.eqb_neq. }
  destruct (load_weight_fork (SchedClass.set_prio (SchedClass.set_normal_prio r (SchedClass.__normal_prio r))
    (SchedClass.normal_prio_ (SchedClass.set_normal_prio r (SchedClass.__normal_prio r))))) as [l Hl]; [done|].
  cbv zeta. rewrite Hl. eexists. split; [done|]. unfold fork_ok. simpl. unfold SchedClass.__normal_prio.
  rewrite Hr3. split_and!; try done; lia.
Qed.

Lemma fork_base_spec b : base_ok b ->
  exists rv b', SchedClass.sched_fork reweight FIFO b = Ok (rv, b') /\ (rv = 0 -> base_ok b').
Proof.
  intros Hb. unfold SchedClass.sched_fork.
  destruct (fork_reset_spec _ (fork_prio_ok b Hb)) as (b' & -> & H1 & H2 & H3). cbn [mbind res_bind].
  destruct (dl_prio (SchedClass.prio b')) eqn:Ed; [eexists _, _; split; [done|]; unfold SchedClass.EAGAIN; lia|].
  assert (SchedClass.class_of (SchedClass.prio b') =
    if rt_prio (SchedClass.prio b') then SchedClass.rt_sched_class else SchedClass.fair_sched_class) as Hc
    by (unfold SchedClass.class_of; by rewrite Ed).
  destruct (rt_prio (SchedClass.prio b')); eexists _, _; (split; [done|]); intros _; unfold base_ok; simpl; by rewrite Hc.
Qed.

Lemma new_task_ok s pid p : inv s -> tasks s !! pid = None -> is_idle p = false ->
  on_rq p = NOT_QUEUED -> need_resched p = false -> base_ok (base p) ->
  inv (set_tasks s (<[pid := p]> (tasks s))).
Proof.
  intros [Hq Hc Hb] Hn Hi Ho Hr Hbase.
  assert (forall i t, tasks s !! i = Some t -> <[pid := p]> (tasks s) !! i = Some t) as Hold.
  { intros i t Ht. rewrite lookup_insert_ne by congruence. done. }
  destruct (inv_curr _ Hc) as (c & Hcur & Hoc).
  assert (forall t, <[pid := p]> (tasks s) !! curr s = Some t -> tasks s !! curr s = Some t) as Hback.
  { intros t Ht. rewrite (Hold _ _ Hcur) in Ht. congruence. }
  split.
  - split.
    + destruct (inv_idle _ Hq) as (t & Ht & H1). exists t. split; [by apply Hold|done].
    + intros i t Ht. simpl in Ht. apply lookup_insert_Some in Ht as [[<- <-]|[_ Ht]]; [done|by apply (inv_base _ Hq i)].
    + intros i t Ht Hid. simpl in Ht. apply lookup_insert_Some in Ht as [[<- <-]|[_ Ht]]; [by rewrite Hi, Ho|by apply (inv_tasks _ Hq)].
    + intros k i Hk Hin. destruct (inv_queued _ Hq _ _ Hk Hin) as (t & Ht & H1). exists t.
      split; [by apply Hold|done].
    + intros i k Hin. destruct (inv_lists _ Hq _ _ Hin) as (t & Ht & H1). exists t. split; [by apply Hold|done].
    + apply (inv_nodup _ Hq).
  - split.
    + exists c. split; [by apply Hold|done].
    + intros i t Ht Hnr. simpl in Ht. apply lookup_insert_Some in Ht as [[<- <-]|[_ Ht]]; [congruence|by apply (inv_resched _ Hc i t)].
  - intros t Ht Hnr. by apply (Hb t (Hback _ Ht)).
Qed.

(** fork.c copies the current task with the flag cleared. *)
Lemma fork_spec s pid p : inv s -> tasks s !! pid = None -> not_idle s = true -> need_resched p = false ->
  exists s', fork_and_wake reweight s pid p = Ok s' /\ inv s' /\ lists_step s s' /\ stays s s'.
Proof.
  intros H Hn (c & Hc & Hi)%not_idle_task Hr. unfold fork_and_wake, sched_fork, the_task. rewrite Hc.
  cbn [of_option mbind res_bind].
  destruct (fork_base_spec (base c)) as (rv & b & -> & Hb); [by apply (inv_base _ (inv_queues _ H) (curr s))|].
  cbn [mbind res_bind]. destruct (Z.eqb_spec rv 0) as [->|Hrv]; cbn [negb]; [specialize (Hb eq_refl)|].
  2:{ cbn [mbind res_bind]. rewrite (proj2 (Z.eqb_neq _ _) Hrv). exists s. split_and!; [done..| |by apply neutral_stays].
      by apply neutral_lists. }
  cbv zeta. set (p1 := set_base (set_state (__sched_fork p) TASK_NEW) b).
  set (s1 := set_tasks s (<[pid := p1]> (tasks s))).
  assert (inv s1) as H1 by (by apply new_task_ok).
  destruct (class_task_fork _ _ _ _) as [cs resched] eqn:Ecs.
  destruct (class_op_spec s1 cs resched) as (s2 & -> & Hn2); [done|..].
  { pose proof (queued_fork (klass p1) (classes s1) (entity_of (curr s1) c) (entity_of pid p1)) as Hq.
    by rewrite Ecs in Hq. }
  { pose proof (rt_fork_same (klass p1) (classes s1) (entity_of (curr s1) c) (entity_of pid p1)) as Hq.
    by rewrite Ecs in Hq. }
  cbn [mbind res_bind negb Z.eqb]. unfold wake_up_new_task.
  assert (inv s2) as H2 by (by eapply neutral_inv).
  assert (tasks s1 !! pid = Some p1) as Hp1 by (by apply lookup_insert_eq).
  destruct (similar_task _ _ _ _ (neu_similar _ _ Hn2) Hp1) as (p2 & Hp2 & Hsame).
  rewrite (update_eq _ _ _ _ Hp2). cbn [mbind res_bind].
  set (s3 := upd s2 pid _).
  assert (is_idle p2 = false /\ on_rq p2 = NOT_QUEUED) as [Hi2 Ho2] by (by destruct Hsame as (_ & -> & -> & _)).
  assert (neutral s2 s3) as Hn3 by (by eapply state_neutral).
  assert (tasks s3 !! pid = Some (set_state p2 TASK_RUNNING)) as Hp3 by (simpl; by rewrite lookup_alter_eq, Hp2).
  rewrite (activate_eq s3 pid _ false Hp3). cbn [mbind res_bind].
  destruct (join_wakeup_spec (add_trace s3 (sched_wakeup_new pid)) pid (set_state p2 TASK_RUNNING) false)
    as (s4 & Hs4 & H4 & Hn4); [|done..|].
  { eapply neutral_inv; [|exact H2]. etrans; [exact Hn3|by apply counters_neutral]. }
  exists s4. split_and!; [exact Hs4|done| |].
  2:{ etrans; [|by apply neutral_stays]. etrans; [|by apply (activated_stays (add_trace s3 _))].
      etrans; [|apply neutral_stays; etrans; [exact Hn3|by apply counters_neutral]].
      etrans; [|by apply neutral_stays]. split; [done|]. intros i u Hu. exists u. split; [|done].
      simpl. rewrite lookup_insert_ne by congruence. done. }
  intros k. rewrite (sim_lists _ _ (neu_similar _ _ Hn4)).
  assert (forall k, rt_list (classes s3) k = rt_list (classes s) k) as Hl3.
  { intros k'. change (classes s3) with (classes s2). by rewrite (sim_lists _ _ (neu_similar _ _ Hn2)). }
  assert (inv s3) as H3 by (by eapply neutral_inv).
  change (classes (activated (add_trace s3 _) pid _ false)) with (classes (activated s3 pid (set_state p2 TASK_RUNNING) false)).
  rewrite activated_lists.
  2:{ apply (activated_not_idle s3 pid _ (inv_queues _ H3) Hp3). by eapply idle_iff; [apply H3|..]. }
  unfold joined. rewrite Hl3. case_decide; [|apply list_same]. apply list_enter.
  rewrite <- Hl3. by eapply absent_lists; [apply H3|exact Hp3|simpl; rewrite Ho2].
Qed.

End Sched.
