(* ===== verification/RunQueueEvents.v ===== *)
(** * The run queue of one CPU: histories (src/Assignment_4/fifo/core.c)

    Tick, yield, exit and the rest of the events; what one event and a history of
    events keep. *)
From Stdlib Require Import ZArith Lia.
From stdpp Require Import gmap.
From S2P Require Import Prelude CLib SchedInfo SchedClass RunQueue RunQueueInv RunQueueSched.
Import RunQueue.

Local Open Scope Z_scope.

Section Events.
Context `{h : headers} {hok : headers_ok h} `{sc : sched_classes}.
Context (reweight : Z -> res SchedClass.load_weight).
Context {idle : Z} {ok : sched_classes_ok sc idle} {rok : rt_ok sc idle ok}.

Local Abbreviation prio t := (SchedClass.prio (base t)).
Local Abbreviation policy t := (SchedClass.policy (base t)).

(** fork.c clears TIF_NEED_RESCHED of the copy. *)
Definition event_ok (e : event) : Prop :=
  match e with Fork _ p => need_resched p = false | _ => True end.
(** The events that send the current task to the end of its list: it yields, or
    its time slice may end. *)
Definition rotates (s : rq) (e : event) : bool :=
  match e with
  | Yield _ => true
  | Tick => match tasks s !! curr s with Some c => bool_decide (policy c = SCHED_RR) | None => false end
  | _ => false
  end.

(** ** The current task goes to the end of its list *)
Lemma current_queued s c : queues_ok s -> current_ok s -> tasks s !! curr s = Some c -> klass c = rt_class ->
  curr s ∈ rt_list (classes s) (prio c).
Proof.
  intros Hq Hc Hcur Hk. destruct (inv_curr _ Hc) as (c' & Hc' & Ho). simplify_eq.
  assert (curr s <> idle) as Hi.
  { intros E. destruct (inv_idle _ Hq) as (t & Ht & Hi & _). rewrite E in Hcur. simplify_eq.
    unfold klass in Hk. by rewrite Hi in Hk. }
  destruct (inv_tasks _ Hq _ _ Hcur Hi) as (_ & _ & Hin). specialize (Hin Ho). rewrite Hk in Hin.
  apply rt_queued in Hin as (p & Hp). destruct (inv_lists _ Hq _ _ Hp) as (t & Ht & <-). by simplify_eq.
Qed.
Lemma rotated_ok s c cs : queues_ok s -> current_ok s -> tasks s !! curr s = Some c -> same_queued (classes s) cs ->
  (forall p, rt_list cs p = if decide (p = prio c)
     then filter (fun pid => pid <> curr s) (rt_list (classes s) p) ++ [curr s] else rt_list (classes s) p) ->
  queues_ok (set_classes s cs) /\ current_ok (set_classes s cs).
Proof.
  intros [H1 H2 H3 H4 H5 H6] Hc Hcur Hsq Hl.
  split; [|split; [exact (inv_curr _ Hc)|exact (inv_resched _ Hc)]]. split; [done|done| | | |].
  - intros pid t. simpl. rewrite Hsq. apply H3.
  - intros k pid. simpl. rewrite Hsq. apply H4.
  - intros pid p. simpl. rewrite Hl. case_decide; [|apply H5].
    rewrite elem_of_app, list_elem_of_filter, list_elem_of_singleton. subst p.
    intros [[_ Hp]| ->]; [by apply H5|by exists c].
  - intros p. simpl. rewrite Hl. case_decide; [|apply H6]. apply NoDup_app.
    split_and!; [by apply NoDup_filter| |apply NoDup_singleton].
    intros x [Hx _]%list_elem_of_filter ->%list_elem_of_singleton. done.
Qed.

(** ** Tick *)
Lemma tick_spec s : inv s -> exists s', scheduler_tick s = Ok s' /\ inv s' /\ stays s s' /\
  (rotates s Tick = false -> lists_step s s').
Proof.
  intros H. destruct (inv_curr _ (inv_current _ H)) as (c & Hc & _). unfold scheduler_tick, the_task, rotates.
  rewrite Hc. cbn [of_option mbind res_bind].
  assert (same_queued (classes s) (class_task_tick (klass c) (classes s) (entity_of (curr s) c)).1) as Hq by apply queued_tick.
  assert (same_lists (classes s) (class_task_tick (klass c) (classes s) (entity_of (curr s) c)).1 \/
    policy c = SCHED_RR /\ klass c = rt_class /\ (class_task_tick (klass c) (classes s) (entity_of (curr s) c)).2 = true /\
    (curr s ∈ rt_list (classes s) (prio c) -> forall p,
       rt_list (class_task_tick (klass c) (classes s) (entity_of (curr s) c)).1 p = if decide (p = prio c)
       then filter (fun pid => pid <> curr s) (rt_list (classes s) p) ++ [curr s] else rt_list (classes s) p)) as Hl.
  { destruct (decide (klass c = rt_class)) as [->|]; [|left; by apply other_tick].
    destruct (rt_tick (classes s) (entity_of (curr s) c)) as [[Hl _]|(Hp & Hr & Hl)]; [by left|by right]. }
  destruct (class_task_tick _ _ _) as [cs resched]. cbn [fst snd] in *. destruct Hl as [Hl|(Hp & Hk & -> & Hl)].
  - destruct (class_op_spec s cs resched H Hq Hl) as (s' & -> & Hn). exists s'.
    split_and!; [done|by eapply neutral_inv|by apply neutral_stays|intros _; by apply neutral_lists].
  - specialize (Hl (current_queued s c (inv_queues _ H) (inv_current _ H) Hc Hk)).
    destruct (rotated_ok s c cs (inv_queues _ H) (inv_current _ H) Hc Hq Hl) as [Hq1 Hc1].
    destruct (resched_spec (set_classes s cs) Hc1) as (s' & -> & Hn & Hf). exists s'.
    split_and!; [done| | |rewrite Hp, bool_decide_eq_true_2 by done; done].
    + split; [by eapply similar_queues; [apply Hn|]|by eapply neutral_current|]. intros c' Hc' Hr. rewrite (Hf c' Hc') in Hr. done.
    + etrans; [|by apply neutral_stays]. split; [done|]. intros pid t Ht. by exists t.
Qed.

(** ** Yield *)
Lemma yield_task_spec s : inv s -> exists s', yield_task s = Ok s' /\ queues_ok s' /\ current_ok s'.
Proof.
  intros [Hq Hc _]. destruct (inv_curr _ Hc) as (c & Hcur & Ho). unfold yield_task, the_task.
  rewrite Hcur. cbn [of_option mbind res_bind]. eexists. split; [done|].
  set (cs := class_yield_task _ _ _).
  assert (same_queued (classes s) cs) as Hsq by apply queued_yield.
  destruct (decide (klass c = rt_class)) as [Hk|Hk].
  - apply (rotated_ok s c); [done..|]. intros p. unfold cs.
    by rewrite Hk, (rt_yield _ (entity_of (curr s) c)) by (by apply current_queued).
  - assert (neutral s (set_classes s cs)) as Hn by (apply classes_neutral; [done|by apply other_yield]).
    split; [by eapply similar_queues, Hq; apply Hn|by eapply neutral_current].
Qed.

(** ** schedule() *)
Lemma schedule_step preempt sig s : inv s -> exists s', __schedule preempt sig s = Ok s' /\ inv s' /\
  (head_ok s -> lists_step s s') /\ (forall c, tasks s' !! curr s' = Some c -> need_resched c = false).
Proof.
  intros H. destruct (inv_curr _ (inv_current _ H)) as (c & Hc & _).
  destruct (schedule_spec preempt sig s c) as (s1 & s' & -> & Hpd & Hsd); [apply H|apply H|done|].
  exists s'. split_and!; [done|apply Hsd| |intros; by eapply sd_flags].
  intros Hh p. rewrite (sim_lists _ _ (sd_similar _ _ _ Hsd)), (pd_lists _ _ _ _ Hpd).
  destruct (leaves _ _ _ _); [|apply list_same]. unfold without. case_decide as Ed; [|apply list_same].
  destruct Ed as [Hk ->]. destruct (Hh _ Hc Hk) as (q & Hq). rewrite Hq.
  rewrite filter_head; [apply list_leave|]. rewrite <- Hq. apply (inv_nodup _ (inv_queues _ H)).
Qed.

(** One round is enough: after it nobody is asked to reschedule. *)
Lemma schedule_once sig s : queues_ok s -> current_ok s ->
  exists s', __schedule false sig s = Ok s' /\ schedule 1 sig s = Some (Ok s') /\ inv s'.
Proof.
  intros Hq Hc. destruct (inv_curr _ Hc) as (c & Hcur & _).
  destruct (schedule_spec false sig s c) as (s1 & s' & E & _ & Hsd); [done..|].
  exists s'. split_and!; [done| |apply Hsd]. simpl. unfold schedule_round, the_task. rewrite E.
  cbn [mbind res_bind]. destruct (inv_curr _ (inv_current _ (sd_inv _ _ _ Hsd))) as (c' & Hc' & _).
  rewrite Hc'. cbn [of_option mbind res_bind]. by rewrite (sd_flags _ _ _ Hsd _ _ Hc').
Qed.

Lemma set_state_spec s v : inv s -> not_idle s = true ->
  exists s', set_current_state s v = Ok s' /\ neutral s s' /\
    (exists c, tasks s' !! curr s' = Some c /\ state c = v).
Proof.
  intros H (c & Hc & Hi)%not_idle_task. unfold set_current_state. rewrite (update_eq _ _ _ _ Hc).
  eexists. split_and!; [done|by eapply state_neutral|]. simpl. rewrite lookup_alter_eq, Hc. by eexists.
Qed.

(** ** One event *)
Lemma exec_spec s e r : inv s -> event_ok e -> exec reweight s e = Some r ->
  exists s', r = Ok s' /\ inv s' /\ (head_ok s -> rotates s e = false -> lists_step s s').
Proof.
  intros H He. destruct e as [pid p|pid mask|v|sig|sig| |sig|sig| |token]; simpl.
  - destruct (tasks s !! pid) eqn:Hn; [done|]. destruct (not_idle s) eqn:Hi; [|done]. intros [= <-].
    destruct (fork_spec reweight s pid p) as (s' & -> & H' & Hl & _); [done..|]. by exists s'.
  - destruct (tasks s !! pid) as [t|] eqn:Ht; [|done]. cbn [mbind option_bind].
    destruct (is_idle t) eqn:Hi; [done|]. intros [= <-].
    destruct (try_to_wake_up_spec s pid mask t) as (s' & -> & H' & Hl & _); [done..|]. by exists s'.
  - destruct (not_idle s) eqn:Hi; [|done]. intros [= <-].
    destruct (set_state_spec s v H Hi) as (s' & -> & Hn & _). exists s'.
    split_and!; [done|by eapply neutral_inv|intros _ _; by apply neutral_lists].
  - intros Hr. destruct (schedule_once sig s (inv_queues _ H) (inv_current _ H)) as (s' & E & E' & H').
    change (schedule 1 sig s = Some r) in Hr. rewrite E' in Hr. simplify_eq. exists s'. split_and!; [done..|].
    intros Hh _. destruct (schedule_step false sig s H) as (s2 & E2 & _ & Hl & _). assert (s2 = s') as -> by congruence. by apply Hl.
  - destruct (must_resched s); [|done]. intros [= <-].
    destruct (schedule_step true sig s H) as (s' & -> & H' & Hl & _). exists s'. split_and!; auto.
  - intros [= <-]. destruct (tick_spec s H) as (s' & -> & H' & _ & Hl). exists s'. by split_and!; [..|intros _].
  - destruct (not_idle s); [|done]. unfold do_sched_yield.
    destruct (yield_task_spec s H) as (s1 & -> & Hq & Hc). intros Hr.
    destruct (schedule_once sig s1 Hq Hc) as (s' & _ & E' & H').
    change (schedule 1 sig s1 = Some r) in Hr. rewrite E' in Hr. simplify_eq. by exists s'.
  - destruct (not_idle s) eqn:Hi; [|done]. intros [= <-]. unfold do_task_dead.
    destruct (set_state_spec s TASK_DEAD H Hi) as (s1 & -> & Hn & _). cbn [mbind res_bind].
    assert (inv s1) as H1 by (by eapply neutral_inv).
    destruct (schedule_step false sig s1 H1) as (s' & -> & H' & Hl & _). exists s'. split_and!; [done..|].
    intros Hh _ p. specialize (Hl (neutral_head _ _ Hn Hh) p).
    by rewrite (neu_curr _ _ Hn), (sim_lists _ _ (neu_similar _ _ Hn)) in Hl.
  - destruct (not_idle s) eqn:Hi; [|done]. intros [= <-].
    apply not_idle_task in Hi as (c & Hc & Hi). unfold io_schedule_prepare, the_task. rewrite Hc.
    cbn [of_option mbind res_bind]. rewrite (update_eq _ _ _ _ Hc). eexists. split; [done|].
    assert (neutral s (upd s (curr s) (fun c => set_in_iowait c true))) as Hn by (apply upd_neutral; [done|by left]).
    split; [by eapply neutral_inv|intros _ _; by apply neutral_lists].
  - destruct (not_idle s) eqn:Hi; [|done]. intros [= <-].
    apply not_idle_task in Hi as (c & Hc & Hi). unfold io_schedule_finish.
    rewrite (update_eq _ _ _ _ Hc). eexists. split; [done|].
    assert (neutral s (upd s (curr s) (fun c => set_in_iowait c token))) as Hn by (apply upd_neutral; [done|by left]).
    split; [by eapply neutral_inv|intros _ _; by apply neutral_lists].
Qed.

(** ** Who runs *)

(** An event leaves the current task on the CPU, or ends in a choice. *)
Lemma exec_current s e s' : inv s -> event_ok e -> exec reweight s e = Some (Ok s') ->
  stays s s' /\ (forall c, tasks s !! curr s = Some c -> policy c <> SCHED_RR -> rotates s e = false) \/
  (forall c, tasks s' !! curr s' = Some c -> need_resched c = false).
Proof.
  intros H He. destruct e as [pid p|pid mask|v|sig|sig| |sig|sig| |token]; simpl.
  - destruct (tasks s !! pid) eqn:Hn; [done|]. destruct (not_idle s) eqn:Hi; [|done].
    destruct (fork_spec reweight s pid p) as (s1 & -> & _ & _ & Hst); [done..|]. intros [= <-]. left. split; [done|by intros].
  - destruct (tasks s !! pid) as [t|] eqn:Ht; [|done]. cbn [mbind option_bind].
    destruct (is_idle t) eqn:Hi; [done|].
    destruct (try_to_wake_up_spec s pid mask t) as (s1 & -> & _ & _ & Hst & _); [done..|].
    intros [= <-]. left. split; [done|by intros].
  - destruct (not_idle s) eqn:Hi; [|done]. destruct (set_state_spec s v H Hi) as (s1 & -> & Hn & _).
    intros [= <-]. left. split; [by apply neutral_stays|by intros].
  - intros Hs. destruct (schedule_once sig s (inv_queues _ H) (inv_current _ H)) as (s1 & E & E' & _).
    change (schedule 1 sig s = Some (Ok s')) in Hs. rewrite E' in Hs. simplify_eq. right.
    destruct (schedule_step false sig s H) as (s2 & E2 & _ & _ & Hf).
    assert (s2 = s') as -> by congruence. done.
  - destruct (must_resched s); [|done]. destruct (schedule_step true sig s H) as (s1 & -> & _ & _ & Hf).
    intros [= <-]. by right.
  - destruct (tick_spec s H) as (s1 & -> & _ & Hst & _). intros [= <-]. left. split; [done|].
    intros c Hc Hp. rewrite Hc. by apply bool_decide_eq_false.
  - destruct (not_idle s); [|done]. unfold do_sched_yield.
    destruct (yield_task_spec s H) as (s1 & -> & Hq & Hc). intros Hs. right.
    destruct (inv_curr _ Hc) as (c & Hcur & _).
    destruct (schedule_spec false sig s1 c) as (s2 & s3 & E & _ & Hsd); [done..|].
    destruct (schedule_once sig s1 Hq Hc) as (s4 & E4 & E' & _).
    change (schedule 1 sig s1 = Some (Ok s')) in Hs. rewrite E' in Hs. simplify_eq.
    assert (s3 = s') as -> by congruence. intros c' Hc'. by eapply sd_flags.
  - destruct (not_idle s) eqn:Hi; [|done]. unfold do_task_dead.
    destruct (set_state_spec s TASK_DEAD H Hi) as (s1 & -> & Hn & _). cbn [mbind res_bind].
    destruct (schedule_step false sig s1) as (s2 & -> & _ & _ & Hf); [by eapply neutral_inv|].
    intros [= <-]. by right.
  - destruct (not_idle s) eqn:Hi; [|done]. apply not_idle_task in Hi as (c & Hc & _).
    unfold io_schedule_prepare, the_task. rewrite Hc. cbn [of_option mbind res_bind].
    rewrite (update_eq _ _ _ _ Hc). intros [= <-]. left. split; [|by intros]. apply neutral_stays, upd_neutral; [done|by left].
  - destruct (not_idle s) eqn:Hi; [|done]. apply not_idle_task in Hi as (c & Hc & _).
    unfold io_schedule_finish. rewrite (update_eq _ _ _ _ Hc). intros [= <-]. left.
    split; [|by intros]. apply neutral_stays, upd_neutral; [done|by left].
Qed.

(** The current task stays the first of its list, or is chosen anew. *)
Lemma best_head s : inv s -> (forall c, tasks s !! curr s = Some c -> need_resched c = false) -> head_ok s.
Proof.
  intros H Hf c Hc Hk. pose proof (inv_best _ H _ Hc (Hf _ Hc)) as Hb. unfold best_of in Hb.
  rewrite Hk in Hb. by destruct Hb as (_ & ? & _).
Qed.
Lemma exec_head s e s' : inv s -> head_ok s -> event_ok e -> rotates s e = false ->
  exec reweight s e = Some (Ok s') -> head_ok s'.
Proof.
  intros H Hh He Hy E. destruct (exec_spec s e _ H He E) as (s1 & [= <-] & H' & Hl).
  destruct (exec_current s e s' H He E) as [[[Ecur Hst] _]|Hf]; [|by apply best_head].
  intros c' Hc' Hk. destruct (inv_curr _ (inv_current _ H)) as (c & Hc & _).
  destruct (Hst _ _ Hc) as (c2 & Hc2 & Hb & Hi). rewrite Ecur in Hc'. simplify_eq.
  assert (klass c = rt_class) as Hkc by (unfold klass in *; by rewrite <- Hb, <- Hi).
  destruct (Hh _ Hc Hkc) as (q & Hq). rewrite Hb, Ecur.
  pose proof (Hl Hh Hy (prio c)) as Hls. rewrite Hq in Hls.
  inversion Hls; subst; [by eexists|by eexists|]. exfalso.
  pose proof (inv_nodup _ (inv_queues _ H) (prio c)) as Hnd. rewrite Hq in Hnd. apply NoDup_cons in Hnd as [Hn _].
  apply Hn. rewrite <- Hb, <- Ecur.
  apply current_queued; [apply H'|apply H'|by rewrite Ecur|done].
Qed.
(** So it is for tasks that are not round-robin, and for those with time left. *)
Lemma exec_served s e s' : inv s -> served_ok s -> event_ok e -> exec reweight s e = Some (Ok s') -> served_ok s'.
Proof.
  intros H Hh He E. destruct (exec_spec s e _ H He E) as (s1 & [= <-] & H' & _).
  destruct (exec_current s e s' H He E) as [[[Ecur Hst] Hro]|Hf].
  2:{ intros c Hc Hk _. by apply (best_head s' H' Hf). }
  intros c' Hc' Hk Hcase. destruct (need_resched c') eqn:En; [destruct Hcase as [Hp|]; [|done]|].
  - destruct (inv_curr _ (inv_current _ H)) as (c & Hc & _).
    destruct (Hst _ _ Hc) as (c2 & Hc2 & Hb & _). rewrite <- Ecur in Hc2.
    assert (c2 = c') as -> by congruence. rewrite Hb in Hp.
    refine (exec_head s e s' H _ He (Hro c Hc Hp) E c' Hc' Hk).
    intros c0 Hc0 Hk0. apply (Hh c0 Hc0 Hk0). left. congruence.
  - pose proof (inv_best _ H' _ Hc' En) as Hbest. unfold best_of in Hbest. rewrite Hk in Hbest. by destruct Hbest as (_ & ? & _).
Qed.

Lemma exec_all_inv es : forall s r, inv s -> served_ok s -> Forall event_ok es -> exec_all reweight s es = Some r ->
  exists s', r = Ok s' /\ inv s' /\ served_ok s'.
Proof.
  induction es as [|e es IH]; intros s r H Hh He; simpl.
  - intros [= <-]. by exists s.
  - apply Forall_cons in He as [He Hes]. destruct (exec reweight s e) as [r1|] eqn:E1; [|done].
    destruct (exec_spec s e r1 H He E1) as (s1 & -> & H1 & _). cbn [mbind option_bind].
    apply IH; [done|by apply (exec_served s e)|done].
Qed.

(** No event of the history sends the current task to the end of its list: nobody
    yields, and no tick finds a round-robin task. *)
Fixpoint in_turn (s : rq) (es : list event) : Prop :=
  match es with
  | [] => True
  | e :: es => rotates s e = false /\
      match exec reweight s e with Some (Ok s') => in_turn s' es | _ => True end
  end.

(** ** Arrivals and departures at a priority *)
Definition entering (p : Z) (s s' : rq) : list Z :=
  filter (fun pid => pid ∉ rt_list (classes s) p) (rt_list (classes s') p).
Fixpoint arrivals (p : Z) (s : rq) (es : list event) : list Z :=
  match es with
  | [] => []
  | e :: es => match exec reweight s e with
               | Some (Ok s') => entering p s s' ++ arrivals p s' es
               | _ => []
               end
  end.
Fixpoint departures (p : Z) (s : rq) (es : list event) : list Z :=
  match es with
  | [] => []
  | e :: es => match exec reweight s e with
               | Some (Ok s') => entering p s' s ++ departures p s' es
               | _ => []
               end
  end.

Lemma filter_none (P : Z -> Prop) `{forall x, Decision (P x)} (q : list Z) :
  (forall x, x ∈ q -> ~ P x) -> filter P q = [].
Proof.
  induction q as [|a q IH]; intros Hn; [done|]. rewrite filter_cons_False; [apply IH|apply Hn; left].
  intros x Hx. apply Hn. by right.
Qed.

Lemma filter_own (q q' : list Z) : filter (fun pid => pid ∉ q ++ q') q = [].
Proof. apply filter_none. intros x Hx Hn. apply Hn, elem_of_app. by left. Qed.
Lemma filter_new (q : list Z) x : x ∉ q -> filter (fun pid => pid ∉ q) [x] = [x].
Proof. intros Hx. by rewrite filter_cons_True. Qed.

Lemma list_step_fifo cur q q' : NoDup q -> list_step cur q q' ->
  q ++ filter (fun pid => pid ∉ q) q' = filter (fun pid => pid ∉ q') q ++ q'.
Proof.
  intros Hnd. destruct 1 as [q|q pid Hp|q].
  - rewrite filter_none; [by rewrite app_nil_r|]. intros x Hx Hn. by apply Hn.
  - rewrite filter_own, filter_app, (filter_new q pid Hp), filter_none; [done|].
    intros x Hx Hn. by apply Hn.
  - apply NoDup_cons in Hnd as [Hc Hnd]. rewrite filter_cons_True by done.
    rewrite !filter_none; [by rewrite app_nil_r|..].
    + intros x Hx Hn. by apply Hn.
    + intros x Hx Hn. apply Hn. by right.
Qed.

Lemma exec_fifo s e s' p : inv s -> head_ok s -> event_ok e -> rotates s e = false -> exec reweight s e = Some (Ok s') ->
  rt_list (classes s) p ++ entering p s s' = entering p s' s ++ rt_list (classes s') p.
Proof.
  intros H Hh He Hy E. destruct (exec_spec s e _ H He E) as (s1 & [= <-] & _ & Hl).
  eapply list_step_fifo; [apply (inv_nodup _ (inv_queues _ H))|by apply Hl].
Qed.

(** ** The first of its priority *)

(** [a] is the first of priority [p] and runs, or something better does. *)
Definition ahead (a p : Z) (s : rq) : Prop :=
  (exists q, rt_list (classes s) p = a :: q) /\
  exists c, tasks s !! curr s = Some c /\
    (curr s = a \/ klass c = dl_class \/ klass c = rt_class /\ prio c < p).

Lemma exec_ahead a p s e s' : inv s -> head_ok s -> event_ok e -> rotates s e = false ->
  exec reweight s e = Some (Ok s') -> ahead a p s -> a ∈ rt_list (classes s') p -> ahead a p s'.
Proof.
  intros H Hh He Hy E [(q & Hq) (c & Hc & Hcase)] Hin.
  destruct (exec_spec s e _ H He E) as (s1 & [= <-] & H' & Hl). specialize (Hl Hh Hy p).
  pose proof (inv_nodup _ (inv_queues _ H) p) as Hnd. rewrite Hq in Hl, Hnd.
  assert (exists q', rt_list (classes s') p = a :: q') as (q' & Hq').
  { apply NoDup_cons in Hnd as [Ha _]. inversion Hl as [|? pid Hp|q0 Hcur]; subst; [by exists q|by eexists|congruence]. }
  split; [by eexists|]. destruct (inv_curr _ (inv_current _ H')) as (c' & Hc' & _). exists c'. split; [done|].
  destruct (exec_current s e s' H He E) as [[[Ecur Hst] _]|Hf].
  - destruct (Hst _ _ Hc) as (c2 & Hc2 & Hb & Hi). rewrite Ecur in *. simplify_eq.
    unfold klass in *. by rewrite Hb, Hi.
  - pose proof (inv_best _ H' _ Hc' (Hf _ Hc')) as Hbest.
    assert (a ∈ queued rt_class (classes s')) as Haq by (apply rt_queued; eauto).
    unfold best_of in Hbest. destruct (klass c') eqn:Ek; [by auto| | |].
    + destruct Hbest as (_ & (q2 & H2) & H3). destruct (Z.lt_total (prio c') p) as [Hlt|[Heq|Hgt]]; [by auto| |].
      * left. rewrite Heq, Hq' in H2. by injection H2 as ->.
      * rewrite (H3 p Hgt) in Hq'. done.
    + destruct Hbest as (_ & Hr). set_solver.
    + destruct Hbest as (_ & Hr & _). set_solver.
Qed.

End Events.
