(* ===== verification/RunQueueCount.v ===== *)
(** * The run queue of one CPU: the counters (src/Assignment_4/fifo/core.c)

    [nr_switches], [nr_uninterruptible] and [nr_iowait] are the sums over the
    tasks they stand for. *)
From Stdlib Require Import ZArith Lia.
From stdpp Require Import gmap.
From S2P Require Import Prelude CLib SchedInfo SchedClass RunQueue RunQueueInv RunQueueSched RunQueueEvents.
Import RunQueue.

Local Open Scope Z_scope.

(** ** Sums over a map *)
Definition total {A} (w : A -> Z) (m : gmap Z A) : Z := map_fold (fun _ t acc => w t + acc) 0 m.
Lemma total_insert {A} (w : A -> Z) (m : gmap Z A) i x :
  m !! i = None -> total w (<[i := x]> m) = w x + total w m.
Proof. intros Hi. unfold total. apply (map_fold_insert_L (fun _ t acc => w t + acc)); [lia|done]. Qed.
Lemma total_delete {A} (w : A -> Z) (m : gmap Z A) i x :
  m !! i = Some x -> total w m = w x + total w (delete i m).
Proof. intros Hi. rewrite <- (insert_delete_id m i x Hi) at 1. by rewrite total_insert by apply lookup_delete_eq. Qed.
Lemma total_alter {A} (w : A -> Z) (m : gmap Z A) (f : A -> A) i x :
  m !! i = Some x -> total w (alter f i m) = total w m - w x + w (f x).
Proof.
  intros Hi. rewrite (alter_insert_lookup f m i x Hi), <- insert_delete_eq, total_insert by apply lookup_delete_eq.
  rewrite (total_delete w m i x Hi). lia.
Qed.

Section Count.
Context `{h : headers} {hok : headers_ok h} `{sc : sched_classes}.
Context (reweight : Z -> res SchedClass.load_weight).
Context {idle : Z} {ok : sched_classes_ok sc idle} {rok : rt_ok sc idle ok}.

(** ** What a task counts for *)
Definition off (t : task) : bool := bool_decide (on_rq t = NOT_QUEUED).
Definition switches (t : task) : Z := nvcsw t + nivcsw t.
Definition uninterruptible (t : task) : Z := if (off t && sched_contributes_to_load t)%bool then 1 else 0.
Definition iowaiting (t : task) : Z := if (off t && in_iowait t)%bool then 1 else 0.

(** The counters are ahead of the sums by [a], [b] and [c]. *)
Record counted_up (s : rq) (a b c : Z) : Prop := {
  cu_switches : nr_switches s = total switches (tasks s) + a;
  cu_uninterruptible : nr_uninterruptible s = total uninterruptible (tasks s) + b;
  cu_iowait : nr_iowait s = total iowaiting (tasks s) + c
}.
Definition counted (s : rq) : Prop := counted_up s 0 0 0.

Lemma update_count s pid f s' a b c t : update s pid f = Ok s' -> tasks s !! pid = Some t ->
  counted_up s a b c ->
  counted_up s' (a + switches t - switches (f t)) (b + uninterruptible t - uninterruptible (f t))
    (c + iowaiting t - iowaiting (f t)).
Proof.
  intros Hu Ht [H1 H2 H3]. rewrite (update_eq _ _ _ _ Ht) in Hu. injection Hu as <-.
  split; simpl; rewrite (total_alter _ _ _ _ _ Ht); lia.
Qed.

(** Changes that do not count. *)
Definition same_weight (t t' : task) : Prop :=
  switches t' = switches t /\ uninterruptible t' = uninterruptible t /\ iowaiting t' = iowaiting t.
Lemma update_same s pid f s' a b c : update s pid f = Ok s' ->
  (forall t, tasks s !! pid = Some t -> same_weight t (f t)) -> counted_up s a b c -> counted_up s' a b c.
Proof.
  intros Hu Hf H. pose proof Hu as Hu'. unfold update, the_task in Hu'.
  destruct (tasks s !! pid) as [t|] eqn:Ht; [|done]. destruct (Hf t eq_refl) as (E1 & E2 & E3).
  pose proof (update_count s pid f s' a b c t Hu Ht H) as H'. rewrite E1, E2, E3 in H'.
  destruct H' as [? ? ?]. split; lia.
Qed.
Lemma classes_count s cs a b c : counted_up s a b c -> counted_up (set_classes s cs) a b c.
Proof. by intros [H1 H2 H3]. Qed.
Lemma trace_count s e a b c : counted_up s a b c -> counted_up (add_trace s e) a b c.
Proof. by intros [H1 H2 H3]. Qed.

Lemma resched_count s s' a b c : resched_curr s = Ok s' -> counted_up s a b c -> counted_up s' a b c.
Proof.
  unfold resched_curr. intros H. binds H. destruct (need_resched _); [by simplify_eq|].
  eapply update_same; [done|]. by intros.
Qed.
Lemma check_count s pid s' a b c : check_preempt_curr s pid = Ok s' -> counted_up s a b c -> counted_up s' a b c.
Proof.
  unfold check_preempt_curr. intros H. binds H. repeat case_match; simplify_eq; intros Hc;
    try (eapply resched_count; [eassumption|]); by try apply classes_count.
Qed.
Lemma wakeup_count s pid s' a b c : ttwu_do_wakeup s pid = Ok s' -> counted_up s a b c -> counted_up s' a b c.
Proof.
  unfold ttwu_do_wakeup. intros H Hc. binds H. simplify_eq. apply trace_count.
  eapply update_same; [eassumption|by intros|]. by eapply check_count.
Qed.

(** [b] as a number. *)
Definition num (b : bool) : Z := if b then 1 else 0.
Lemma weight_off t : off t = true ->
  uninterruptible t = num (sched_contributes_to_load t) /\ iowaiting t = num (in_iowait t).
Proof. intros Ho. unfold uninterruptible, iowaiting. by rewrite Ho. Qed.
Lemma weight_queued t : off t = false -> uninterruptible t = 0 /\ iowaiting t = 0.
Proof. intros Ho. unfold uninterruptible, iowaiting. by rewrite Ho. Qed.

Lemma activate_count s pid w s' t a b c : activate_task s pid w = Ok s' -> tasks s !! pid = Some t ->
  off t = true -> counted_up s a b c ->
  counted_up s' a (b + num (sched_contributes_to_load t)) (c + num (in_iowait t)).
Proof.
  intros H Ht Ho Hc. rewrite (activate_eq s pid t w Ht) in H. injection H as <-.
  set (s0 := set_classes s (class_enqueue_task (klass t) (classes s) (entity_of pid t) w)).
  pose proof (update_count s0 pid (fun p => set_on_rq p TASK_ON_RQ_QUEUED) _ a b c t
    (update_eq s0 pid _ t Ht) Ht (classes_count _ _ _ _ _ Hc)) as [H1 H2 H3].
  destruct (weight_off t Ho) as [E2 E3], (weight_queued (set_on_rq t TASK_ON_RQ_QUEUED) eq_refl) as [E4 E5].
  change (switches (set_on_rq t TASK_ON_RQ_QUEUED)) with (switches t) in H1.
  split; simpl in *; lia.
Qed.

Lemma do_activate_count s pid s' t : ttwu_do_activate s pid = Ok s' -> tasks s !! pid = Some t ->
  off t = true -> counted s -> counted s'.
Proof.
  unfold ttwu_do_activate, the_task. intros H Ht Ho [H1 H2 H3]. rewrite Ht in H. cbn [of_option mbind res_bind] in H.
  set (s1 := if in_iowait t then _ else _) in H. binds H.
  assert (counted_up s1 0 (- num (sched_contributes_to_load t)) (- num (in_iowait t)) /\ tasks s1 = tasks s) as [Hs1 Et].
  { unfold s1, num. destruct (sched_contributes_to_load t), (in_iowait t); split; try done; split; simpl; lia. }
  eapply wakeup_count; [done|].
  eapply activate_count in Hs1 as [J1 J2 J3]; [|eassumption|by rewrite Et|done]. split; lia.
Qed.

Lemma wake_count s pid mask r s' t : inv s -> try_to_wake_up s pid mask = Ok (r, s') ->
  tasks s !! pid = Some t -> is_idle t = false -> counted s -> counted s'.
Proof.
  intros Hinv H Ht Hi Hc. unfold try_to_wake_up, the_task in H. rewrite Ht in H. cbn [of_option mbind res_bind] in H.
  assert (pid <> idle) as Hid by (by eapply idle_iff; [apply Hinv|..]).
  destruct (inv_tasks _ (inv_queues _ Hinv) _ _ Ht Hid) as (_ & Hm & _).
  destruct (pid =? curr s)%c, (negb (has (state t) mask)); simplify_eq; try done.
  - binds H. simplify_eq. apply trace_count. eapply update_same; [eassumption|by intros|done].
  - destruct (decide (on_rq t = NOT_QUEUED)) as [Ho|Ho].
    + cbn [mbind res_bind] in H. binds H. simplify_eq. unfold ttwu_queue in *.
      eapply do_activate_count; [eassumption|done|by apply bool_decide_eq_true|done].
    + unfold ttwu_runnable, the_task in H. rewrite Ht in H. cbn [of_option mbind res_bind] in H.
      rewrite decide_True in H by (destruct (on_rq t); congruence). binds H. simplify_eq.
      match goal with E : mbind _ _ = Ok _ |- _ => binds E; simplify_eq end. by eapply wakeup_count.
Qed.

(** ** Fork *)
Lemma resched_lookup s s' pid t : resched_curr s = Ok s' -> tasks s !! pid = Some t ->
  exists t', tasks s' !! pid = Some t' /\ on_rq t' = on_rq t /\
    sched_contributes_to_load t' = sched_contributes_to_load t /\ in_iowait t' = in_iowait t.
Proof.
  unfold resched_curr. intros H Ht. binds H. destruct (need_resched _); [simplify_eq; eauto|].
  unfold update in H. binds H. simplify_eq. simpl. unfold the_task in *.
  destruct (decide (pid = curr s)) as [->|Hne].
  - rewrite lookup_insert_eq. rewrite Ht in *. simpl in *. simplify_eq. by eexists.
  - rewrite lookup_insert_ne by done. eauto.
Qed.

Lemma fork_count s pid p s' : tasks s !! pid = None -> switches p = 0 ->
  fork_and_wake reweight s pid p = Ok s' -> counted s -> counted s'.
Proof.
  intros Hn Hsw H [H1 H2 H3]. unfold fork_and_wake in H. binds H.
  match goal with E : sched_fork _ _ _ _ = Ok _ |- _ => rename E into Hf end.
  unfold sched_fork in Hf. binds Hf.
  match type of Hf with (if ?b then _ else _) = _ => destruct b eqn:Eb end.
  { simplify_eq. rewrite Eb in H. by simplify_eq. }
  cbv zeta in Hf. binds Hf. simplify_eq. cbn [negb Z.eqb] in H.
  set (p1 := set_base _ _) in *. set (s1 := set_tasks s (<[pid := p1]> (tasks s))) in *.
  assert (counted_up s1 0 (- num (sched_contributes_to_load p1)) (- num (in_iowait p1))) as Hs1.
  { assert (switches p1 = 0) as E1 by done.
    assert (uninterruptible p1 = num (sched_contributes_to_load p1) /\ iowaiting p1 = num (in_iowait p1)) as [E2 E3] by done.
    split; unfold s1; cbn [nr_switches nr_uninterruptible nr_iowait tasks set_tasks];
      rewrite total_insert by done; lia. }
  match goal with E : (if ?b then _ else _) = Ok ?x |- _ => rename x into s2; rename E into Hr end.
  assert (counted_up s2 0 (- num (sched_contributes_to_load p1)) (- num (in_iowait p1)) /\
          exists p2, tasks s2 !! pid = Some p2 /\ on_rq p2 = NOT_QUEUED /\
            sched_contributes_to_load p2 = sched_contributes_to_load p1 /\ in_iowait p2 = in_iowait p1)
    as [Hs2 (p2 & Hp2 & Ho2 & E2 & E3)].
  { match type of Hr with (if ?b then _ else _) = _ => destruct b end.
    - split; [eapply resched_count; [eassumption|by apply classes_count]|].
      apply (resched_lookup _ _ pid p1 Hr). simpl. by rewrite lookup_insert_eq.
    - simplify_eq. split; [by apply classes_count|]. exists p1. simpl. by rewrite lookup_insert_eq. }
  clear Hr. unfold wake_up_new_task in H. binds H.
  match goal with E : update s2 pid _ = Ok ?x |- _ => rename x into s3; rename E into Hu end.
  match goal with E : activate_task s3 pid _ = Ok ?x |- _ => rename x into s4; rename E into Ha end.
  eapply check_count; [exact H|]. apply trace_count.
  assert (tasks s3 !! pid = Some (set_state p2 TASK_RUNNING)) as Hp3.
  { rewrite (update_eq _ _ _ _ Hp2) in Hu. injection Hu as <-. simpl. by rewrite lookup_alter_eq, Hp2. }
  eapply update_same in Hs2; [|exact Hu|by intros].
  eapply activate_count in Hs2 as [J1 J2 J3]; [|exact Ha|exact Hp3|by apply bool_decide_eq_true].
  simpl in *. rewrite E2, E3 in *. split; lia.
Qed.

(** ** __schedule *)
Lemma deactivate_count s pid s' t a b c : deactivate_task s pid true = Ok s' -> tasks s !! pid = Some t ->
  off t = false -> counted_up s a b c ->
  counted_up s' a (b - num (sched_contributes_to_load t)) (c - num (in_iowait t)).
Proof.
  intros H Ht Ho Hc. rewrite (deactivate_eq s pid t Ht) in H. injection H as <-. apply classes_count.
  pose proof (update_count s pid (fun p => set_on_rq p NOT_QUEUED) _ a b c t
    (update_eq s pid _ t Ht) Ht Hc) as [H1 H2 H3].
  destruct (weight_queued t Ho) as [E2 E3], (weight_off (set_on_rq t NOT_QUEUED) eq_refl) as [E4 E5].
  change (switches (set_on_rq t NOT_QUEUED)) with (switches t) in H1.
  split; simpl in *; lia.
Qed.

Lemma schedule_prev_count preempt sig s s' v : current_ok s -> schedule_prev preempt sig s = Ok (s', v) ->
  counted s -> counted s'.
Proof.
  intros Hcur H Hc. destruct (inv_curr _ Hcur) as (c & Hcc & Ho).
  assert (off c = false) as Hoff by (apply bool_decide_eq_false; congruence).
  unfold schedule_prev, the_task in H. rewrite Hcc in H. cbn [of_option mbind res_bind] in H.
  destruct (preempt || _)%bool; [by simplify_eq|]. destruct (sig _ _).
  { binds H. simplify_eq. eapply update_same; [eassumption|by intros|done]. }
  binds H. simplify_eq.
  match goal with E : update s _ _ = Ok ?x |- _ => rename x into s1; rename E into Hu end.
  match goal with E : deactivate_task _ _ _ = Ok ?x |- _ => rename x into s2; rename E into Hd end.
  pose proof Hu as Hu'. rewrite (update_eq _ _ _ _ Hcc) in Hu'. injection Hu' as Hu'.
  assert (tasks s1 !! curr s = Some (set_contributes c (contributes c))) as H1
    by (rewrite <- Hu'; simpl; by rewrite lookup_alter_eq, Hcc).
  assert (counted s1) as Hc1.
  { eapply update_same; [exact Hu| |done]. intros t Ht. simplify_eq.
    unfold same_weight, uninterruptible, switches, iowaiting, off in *. simpl. by rewrite Hoff. }
  assert (counted_up (if contributes c then add_uninterruptible s1 1 else s1) 0 (num (contributes c)) 0) as Hc1'.
  { destruct Hc1 as [J1 J2 J3]. destruct (contributes c); split; simpl; lia. }
  assert (tasks (if contributes c then add_uninterruptible s1 1 else s1) !! curr s =
          Some (set_contributes c (contributes c))) as H1' by (destruct (contributes c); exact H1).
  eapply deactivate_count in Hc1' as [J1 J2 J3]; [|exact Hd|exact H1'|exact Hoff].
  simpl in *. destruct (in_iowait c); split; simpl in *; lia.
Qed.

Lemma pick_restart_count s prev s' next a b c : pick_restart s prev = Ok (s', next) ->
  counted_up s a b c -> counted_up s' a b c.
Proof.
  unfold pick_restart, put_prev_task_balance. intros H Hc. binds H. simplify_eq.
  match goal with E : mbind _ _ = Ok _ |- _ => binds E; simplify_eq end. by do 2 apply classes_count.
Qed.
Lemma pick_count s prev s' next a b c : pick_next_task s prev = Ok (s', next) ->
  counted_up s a b c -> counted_up s' a b c.
Proof.
  unfold pick_next_task. intros H Hc. binds H. destruct (_ && _)%bool; [|by eapply pick_restart_count].
  destruct (pick_next_task_fair _ _) as [cs [|[p|]]].
  - eapply pick_restart_count; [done|by apply classes_count].
  - simplify_eq. by apply classes_count.
  - unfold put_prev_task_balance in H. binds H. simplify_eq.
    match goal with E : mbind _ _ = Ok _ |- _ => binds E; simplify_eq end. by do 3 apply classes_count.
Qed.

Lemma schedule_count preempt sig s s' : current_ok s -> __schedule preempt sig s = Ok s' -> counted s -> counted s'.
Proof.
  intros Hcur H Hc. unfold __schedule in H. cbv zeta in H. binds H.
  match goal with E : schedule_prev _ _ _ = _ |- _ => eapply schedule_prev_count in E; [|done..] end.
  match goal with E : pick_next_task _ _ = _ |- _ => eapply pick_count in E; [|eassumption] end.
  match goal with E : update _ _ _ = Ok ?x |- _ => rename x into s2; rename E into Hu end.
  eapply update_same in Hu; [|by intros|eassumption].
  destruct (curr s =? _)%c; [by simplify_eq|]. binds H.
  match goal with E : update (set_curr _ _) _ _ = Ok ?x |- _ => rename x into s3; rename E into Hu3 end.
  assert (counted s3) as Hc3.
  { pose proof Hu3 as Hu4. unfold update, the_task in Hu4. destruct (tasks (set_curr _ _) !! _) as [t|] eqn:Ht; [|done].
    match type of Hu3 with update ?s0 _ _ = _ =>
      assert (counted_up s0 1 0 0) as Hup by (destruct Hu as [J1 J2 J3]; split; simpl; lia) end.
    pose proof (update_count _ _ _ _ _ _ _ _ Hu3 Ht Hup) as [J1 J2 J3].
    split; rewrite ?J1, ?J2, ?J3; unfold switches, uninterruptible, iowaiting, off; simpl;
      repeat case_match; lia. }
  unfold finish_task_switch in H. binds H. case_match; simplify_eq; [apply classes_count|]; by apply trace_count.
Qed.
Lemma schedule_loop_count fuel sig : forall s s', queues_ok s -> current_ok s ->
  schedule fuel sig s = Some (Ok s') -> counted s -> counted s'.
Proof.
  destruct fuel as [|fuel]; [done|]. intros s s' Hq Hcur H Hc.
  destruct (schedule_once sig s Hq Hcur) as (s1 & E & E1 & H1).
  simpl in *. destruct (schedule_round sig s) as [[s2 again]|] eqn:Er; [|done].
  destruct again; [done|]. simplify_eq. by eapply schedule_count.
Qed.

(** ** One event *)
Lemma exec_count s e s' : inv s -> event_ok e ->
  match e with Fork _ p => switches p = 0 | _ => True end ->
  exec reweight s e = Some (Ok s') -> counted s -> counted s'.
Proof.
  intros H He Hsw E Hc. destruct e as [pid p|pid mask|v|sig|sig| |sig|sig| |token]; simpl in E.
  - destruct (tasks s !! pid) eqn:Hn; [done|]. destruct (not_idle s); [|done]. injection E as E.
    by eapply fork_count.
  - destruct (tasks s !! pid) as [t|] eqn:Ht; [|done]. cbn [mbind option_bind] in E.
    destruct (is_idle t) eqn:Hi; [done|]. injection E as E.
    destruct (try_to_wake_up s pid mask) as [[r s1]|] eqn:Ew; [|done]. injection E as <-.
    eapply wake_count; eassumption.
  - destruct (not_idle s); [|done]. injection E as E. eapply update_same; [exact E|by intros|done].
  - eapply (schedule_loop_count 1); [apply H|apply H|exact E|done].
  - destruct (must_resched s); [|done]. injection E as E. eapply schedule_count; [apply H|done..].
  - injection E as E. unfold scheduler_tick in E. binds E.
    match type of E with (if ?b then _ else _) = _ => destruct b end.
    + eapply resched_count; [exact E|by apply classes_count].
    + simplify_eq. by apply classes_count.
  - destruct (not_idle s); [|done]. unfold do_sched_yield in E.
    destruct (yield_task_spec s H) as (s1 & Ey & Hq & Hcur). rewrite Ey in E.
    eapply (schedule_loop_count 1); [exact Hq|exact Hcur|exact E|].
    unfold yield_task in Ey. binds Ey. simplify_eq. by apply classes_count.
  - destruct (not_idle s) eqn:Hi; [|done]. injection E as E. unfold do_task_dead in E. binds E.
    destruct (set_state_spec s TASK_DEAD H Hi) as (s1 & E1 & Hn & _).
    match goal with E2 : set_current_state _ _ = Ok ?x |- _ => assert (x = s1) as -> by congruence end.
    eapply schedule_count; [eapply neutral_current; [exact Hn|apply H]|exact E|].
    eapply update_same; [exact E1|by intros|done].
  - destruct (not_idle s); [|done]. injection E as E. destruct (io_schedule_prepare s) as [[v s1]|] eqn:Ei; [|done].
    injection E as <-.
    unfold io_schedule_prepare in Ei. binds Ei. simplify_eq.
    eapply update_same; [eassumption| |done]. intros t Ht.
    destruct (inv_curr _ (inv_current _ H)) as (c & Hcc & Ho). simplify_eq.
    unfold same_weight, iowaiting, off. simpl. rewrite Ho. done.
  - destruct (not_idle s); [|done]. injection E as E. unfold io_schedule_finish in E.
    eapply update_same; [eassumption| |done]. intros t Ht.
    destruct (inv_curr _ (inv_current _ H)) as (c & Hcc & Ho). simplify_eq.
    unfold same_weight, iowaiting, off. simpl. rewrite Ho. done.
Qed.

End Count.
