(* ===== verification/RtTextbook.v ===== *)
(** * Textbook scheduling classes

    The simplest classes that keep what RunQueue.v states of the classes of the
    kernel, so that histories can be computed: queues of deadline and normal
    tasks served from the front, real-time tasks by priority, a time slice of
    one tick for the round-robin ones. *)
From Stdlib Require Import ZArith Lia.
From stdpp Require Import gmap.
From S2P Require Import Prelude CLib SchedClass RunQueue.

Local Open Scope Z_scope.

(** The real-time tasks with their priorities, in order of arrival. *)
Record queues := mk_queues { dlq : list Z; rtq : list (Z * Z); fairq : list Z }.

Definition drop (pid : Z) (q : list Z) : list Z := filter (fun x => x <> pid) q.
Definition drop_rt (e : entity) (q : list (Z * Z)) : list (Z * Z) :=
  filter (fun x => x <> (e_pid e, e_prio e)) q.
(** The first of those with the lowest number. *)
Fixpoint best (q : list (Z * Z)) : option (Z * Z) :=
  match q with
  | [] => None
  | x :: q => match best q with
              | Some y => if (y.2 <? x.2)%c then Some y else Some x
              | None => Some x
              end
  end.
Definition list_of (q : list (Z * Z)) (p : Z) : list Z := (filter (fun x => x.2 = p) q).*1.

Definition set_rtq (s : queues) (q : list (Z * Z)) : queues := mk_queues (dlq s) q (fairq s).

#[export] Instance textbook : sched_classes := {
  cstate := queues;
  class_enqueue_task c s e _ :=
    match c with
    | dl_class => mk_queues (dlq s ++ [e_pid e]) (rtq s) (fairq s)
    | rt_class => set_rtq s (rtq s ++ [(e_pid e, e_prio e)])
    | fair_class => mk_queues (dlq s) (rtq s) (fairq s ++ [e_pid e])
    | idle_class => s
    end;
  class_dequeue_task c s e _ :=
    match c with
    | dl_class => mk_queues (drop (e_pid e) (dlq s)) (rtq s) (fairq s)
    | rt_class => set_rtq s (drop_rt e (rtq s))
    | fair_class => mk_queues (dlq s) (rtq s) (drop (e_pid e) (fairq s))
    | idle_class => s
    end;
  class_yield_task c s e :=
    match c with
    | rt_class => if decide ((e_pid e, e_prio e) ∈ rtq s)
                  then set_rtq s (drop_rt e (rtq s) ++ [(e_pid e, e_prio e)]) else s
    | _ => s
    end;
  class_check_preempt_curr c s curr e :=
    (s, match c with rt_class => (e_prio e <? e_prio curr)%c | _ => false end);
  class_pick_next_task c s :=
    (s, match c with
        | dl_class => head (dlq s)
        | rt_class => fst <$> best (rtq s)
        | fair_class => head (fairq s)
        | idle_class => Some 0
        end);
  pick_next_task_fair s _ := (s, Picked (head (fairq s)));
  class_put_prev_task _ s _ := s;
  class_task_tick c s e :=
    match c with
    | rt_class => if decide ((e_pid e, e_prio e) ∈ rtq s /\ e_policy e = SCHED_RR (headers := linux))
                  then (set_rtq s (drop_rt e (rtq s) ++ [(e_pid e, e_prio e)]), true) else (s, false)
    | _ => (s, false)
    end;
  class_task_fork _ s _ _ := (s, false);
  class_task_dead _ s _ := s;
  nr_running s := Z.of_nat (length (dlq s) + length (rtq s) + length (fairq s));
  h_nr_running s := Z.of_nat (length (fairq s))
}.

Definition members (c : class_id) (s : queues) : gset Z :=
  match c with
  | dl_class => list_to_set (dlq s)
  | rt_class => list_to_set (rtq s).*1
  | fair_class => list_to_set (fairq s)
  | idle_class => ∅
  end.

Lemma members_drop (pid : Z) q : list_to_set (C := gset Z) (drop pid q) = list_to_set q ∖ {[ pid ]}.
Proof.
  apply set_eq. intros x. unfold drop. rewrite elem_of_difference, !elem_of_list_to_set, list_elem_of_filter.
  set_solver.
Qed.
Lemma yield_members s e : (e_pid e, e_prio e) ∈ rtq s ->
  list_to_set (C := gset Z) (drop_rt e (rtq s) ++ [(e_pid e, e_prio e)]).*1 = list_to_set (rtq s).*1.
Proof.
  intros Hin. apply set_eq. intros x. rewrite !elem_of_list_to_set, !list_elem_of_fmap. unfold drop_rt. split.
  - intros (y & -> & Hy). rewrite elem_of_app, list_elem_of_singleton, list_elem_of_filter in Hy.
    destruct Hy as [[_ Hy]| ->]; eauto.
  - intros (y & -> & Hy). exists y. split; [done|]. rewrite elem_of_app, list_elem_of_singleton, list_elem_of_filter.
    destruct (decide (y = (e_pid e, e_prio e))); auto.
Qed.
Lemma best_none q : best q = None -> q = [].
Proof. destruct q as [|x q]; [done|]. simpl. by repeat case_match. Qed.
Lemma best_first q : forall x, best q = Some x ->
  (exists l, list_of q x.2 = x.1 :: l) /\ forall p, p < x.2 -> list_of q p = [].
Proof.
  unfold list_of. induction q as [|a q IH]; intros x; [done|]. simpl.
  destruct (best q) as [y|] eqn:E.
  - destruct (IH y eq_refl) as [(l & Hl) Hlow]. destruct (Z.ltb_spec y.2 a.2) as [Hlt|Hge]; intros [= <-].
    + rewrite filter_cons_False by lia. split; [eauto|]. intros p Hp.
      rewrite filter_cons_False by lia. by apply Hlow.
    + rewrite filter_cons_True by done. split; [by eexists|]. intros p Hp.
      rewrite filter_cons_False by lia. apply Hlow. lia.
  - intros [= <-]. apply best_none in E as ->. rewrite filter_cons_True by done.
    split; [by eexists|]. intros p Hp. by rewrite filter_cons_False by lia.
Qed.
Lemma head_in (q : list Z) x : head q = Some x -> x ∈ q.
Proof. destruct q; [done|]. intros [= ->]. left. Qed.

#[export, program] Instance textbook_ok : sched_classes_ok textbook 0 := { queued := members }.
Next Obligation. intros [] s e w Hc; simpl; try done; rewrite ?fmap_app, list_to_set_app_L; simpl; set_solver. Qed.
Next Obligation. intros [] [] s e w Hc; done. Qed.
Next Obligation. intros [] s e w Hc Hr; simpl; try done; apply members_drop. Qed.
Next Obligation. intros [] [] s e w Hc; done. Qed.
Next Obligation.
  intros [] s e c; try done. simpl. case_decide; [|done]. destruct c; try done. simpl. by apply yield_members.
Qed.
Next Obligation. done. Qed.
Next Obligation. done. Qed.
Next Obligation. done. Qed.
Next Obligation. done. Qed.
Next Obligation.
  intros [] s e c; try done. simpl. case_decide as H; [|done]. destruct c; try done. simpl. destruct H. by apply yield_members.
Qed.
Next Obligation. done. Qed.
Next Obligation. done. Qed.
Next Obligation.
  intros [] s pid Hc; simpl; try done; rewrite elem_of_list_to_set; try apply head_in.
  destruct (best (rtq s)) as [x|] eqn:E; [|done]. intros [= <-].
  destruct (best_first _ _ E) as [(l & Hl) _]. assert (x.1 ∈ list_of (rtq s) x.2) as Hx by (rewrite Hl; left).
  apply list_elem_of_fmap in Hx as (y & -> & [_ Hy]%list_elem_of_filter). by apply list_elem_of_fmap_2.
Qed.
Next Obligation.
  intros [] s Hc; simpl; try done.
  - by destruct (dlq s).
  - destruct (best (rtq s)) eqn:E; [done|]. by apply best_none in E as ->.
  - by destruct (fairq s).
Qed.
Next Obligation. done. Qed.
Next Obligation. simpl. intros s e pid [= Hp]. by apply elem_of_list_to_set, head_in. Qed.
Next Obligation. simpl. intros s e [= Hp]. by destruct (fairq s). Qed.
Next Obligation. simpl. intros s Hn. destruct (dlq s), (rtq s); simpl in *; try lia. done. Qed.

Lemma list_of_app q q' p : list_of (q ++ q') p = list_of q p ++ list_of q' p.
Proof. unfold list_of. by rewrite filter_app, fmap_app. Qed.
Lemma list_of_drop e q p : list_of (drop_rt e q) p =
  if decide (p = e_prio e) then filter (fun x => x <> e_pid e) (list_of q p) else list_of q p.
Proof.
  unfold list_of, drop_rt. induction q as [|[x k] q IH]; [by case_decide|].
  destruct (decide ((x, k) = (e_pid e, e_prio e))) as [E|E].
  - rewrite filter_cons_False by tauto. rewrite IH. injection E as -> ->.
    destruct (decide (p = e_prio e)) as [->|Hp].
    + rewrite (filter_cons_True (fun x : Z * Z => x.2 = _)) by done. simpl. by rewrite filter_cons_False by tauto.
    + by rewrite (filter_cons_False (fun x : Z * Z => x.2 = _)) by (simpl; congruence).
  - rewrite filter_cons_True by done. destruct (decide (k = p)) as [->|Hk].
    + rewrite !(filter_cons_True (fun x : Z * Z => x.2 = p)) by done. rewrite !fmap_cons, IH. case_decide; [|done].
      rewrite (filter_cons_True (fun x => x <> e_pid e)) by (simpl; congruence). done.
    + by rewrite !(filter_cons_False (fun x : Z * Z => x.2 = _)) by done.
Qed.
Lemma list_of_one e p : list_of [(e_pid e, e_prio e)] p = if decide (p = e_prio e) then [e_pid e] else [].
Proof.
  unfold list_of. case_decide; subst; [by rewrite filter_cons_True|].
  rewrite filter_cons_False; [done|]. simpl. congruence.
Qed.

#[export, program] Instance textbook_rt : rt_ok (h := linux) textbook 0 textbook_ok :=
  { rt_list s p := list_of (rtq s) p }.
Next Obligation.
  intros s pid. simpl. rewrite elem_of_list_to_set. unfold list_of. split.
  - intros (x & -> & Hx)%list_elem_of_fmap. exists x.2. apply list_elem_of_fmap. exists x.
    by rewrite list_elem_of_filter.
  - intros (p & (x & -> & [_ Hx]%list_elem_of_filter)%list_elem_of_fmap). by apply list_elem_of_fmap_2.
Qed.
Next Obligation. intros s e w p. simpl. rewrite list_of_app, list_of_one. case_decide; [done|]. apply app_nil_r. Qed.
Next Obligation. intros s e w p. simpl. apply list_of_drop. Qed.
Next Obligation.
  intros s e p Hin. simpl. rewrite decide_True.
  - simpl. rewrite list_of_app, list_of_drop, list_of_one. case_decide; [done|]. apply app_nil_r.
  - apply list_elem_of_fmap in Hin as ([x k] & E & [E2 Hx]%list_elem_of_filter). simpl in *. by subst.
Qed.
Next Obligation. intros s curr e. by split. Qed.
Next Obligation.
  intros s pid. simpl. destruct (best (rtq s)) as [x|] eqn:E; [|done]. intros [= <-].
  destruct (best_first _ _ E) as [(l & Hl) Hlow]. by exists x.2, l.
Qed.
Next Obligation.
  intros s e. simpl. case_decide as H; [|by left]. right. destruct H as [Hin Hp]. split_and!; [done..|].
  intros _ p. simpl. rewrite list_of_app, list_of_drop, list_of_one. case_decide; [done|]. apply app_nil_r.
Qed.
Next Obligation. done. Qed.
Next Obligation. done. Qed.
Next Obligation. done. Qed.
Next Obligation. done. Qed.
Next Obligation. done. Qed.
Next Obligation. intros [] s e w Hc p; done. Qed.
Next Obligation. intros [] s e w Hc p; done. Qed.
Next Obligation. intros [] s e Hc p; done. Qed.
Next Obligation. done. Qed.
Next Obligation. intros [] s e Hc p; done. Qed.
