(* ===== verification/RunQueueProps.v ===== *)
(** * The run queue of one CPU: the properties (src/Assignment_4/fifo/core.c)

    What the scheduler guarantees for every history since boot, and the order in
    which the processes of the experiments run as SCHED_FIFO tasks. *)
From Stdlib Require Import ZArith Lia.
From stdpp Require Import gmap.
From S2P Require Import Prelude CLib SchedInfo SchedClass RunQueue RunQueueInv RunQueueSched RunQueueEvents RunQueueCount.
From S2P Require Import RtTextbook.
Import RunQueue.

Local Open Scope Z_scope.

(** ** Boot: the idle task runs, all others sleep *)
Section Boot.
Context `{h : headers} `{sc : sched_classes}.
Context {idle : Z} {ok : sched_classes_ok sc idle} {rok : rt_ok sc idle ok}.

Definition asleep (t : task) : Prop :=
  is_idle t = false /\ on_rq t = NOT_QUEUED /\ need_resched t = false /\ base_ok (base t).
Record booted (s : rq) : Prop := {
  boot_idle : exists s0 p, s = init_idle s0 idle p /\ base_ok (base p);
  boot_tasks pid t : tasks s !! pid = Some t -> pid <> idle -> asleep t;
  boot_queued c : c <> idle_class -> queued c (classes s) = ∅
}.

Lemma boot_inv s : booted s -> inv s.
Proof.
  intros [(s0 & p & -> & Hp) Ht Hq]. set (s := init_idle s0 idle p) in *.
  assert (exists t, tasks s !! idle = Some t /\ is_idle t = true /\ on_rq t = TASK_ON_RQ_QUEUED /\
            state t = TASK_RUNNING /\ base t = base p) as (t & Hi & H1 & H2 & H3 & H4).
  { eexists. split; [apply lookup_insert_eq|done]. }
  assert (forall k, rt_list (classes s) k = []) as Hl.
  { intros k. destruct (rt_list (classes s) k) as [|x q] eqn:E; [done|].
    assert (x ∈ queued rt_class (classes s)) as Hx by (apply rt_queued; exists k; rewrite E; left).
    rewrite Hq in Hx by done. set_solver. }
  split.
  - split.
    + by exists t.
    + intros pid u Hu. destruct (decide (pid = idle)) as [->|Hne].
      * simplify_eq. by rewrite H4.
      * by apply (Ht pid).
    + intros pid u Hu Hne. destruct (Ht _ _ Hu Hne) as (E1 & E2 & _). by rewrite E1, E2.
    + intros c pid Hc. rewrite Hq by done. set_solver.
    + intros pid k. rewrite Hl. set_solver.
    + intros k. rewrite Hl. constructor.
  - split; [by exists t|]. intros pid u Hu Hn. destruct (decide (pid = idle)) as [->|Hne]; [done|].
    destruct (Ht _ _ Hu Hne) as (_ & _ & E & _). congruence.
  - intros c Hc _. unfold best_of. change (curr s) with idle in Hc. simplify_eq.
    assert (klass t = idle_class) as -> by (unfold klass; by rewrite H1). by rewrite !Hq.
Qed.
Lemma boot_head s : booted s -> head_ok s.
Proof.
  intros [(s0 & p & -> & Hp) _ _] c Hc Hk. simpl in Hc. rewrite lookup_insert_eq in Hc. by injection Hc as <-.
Qed.
Lemma boot_served s : booted s -> served_ok s.
Proof. intros Hb c Hc Hk _. by apply (boot_head s). Qed.
End Boot.

Section Properties.
Context `{h : headers} {hok : headers_ok h} `{sc : sched_classes}.
Context (reweight : Z -> res SchedClass.load_weight).
Context {idle : Z} {ok : sched_classes_ok sc idle} {rok : rt_ok sc idle ok}.
Local Abbreviation prio t := (SchedClass.prio (base t)).
Local Abbreviation policy t := (SchedClass.policy (base t)).

(** C3: The best task runs. After any history since boot no call has failed (the
    BUG() of pick_next_task is not reached); the current task is queued, and
    unless it is marked to be rescheduled no queued task is of a higher class
    or, in the real-time class, of a better priority.  A real-time task that runs
    is the one that has waited longest at its priority; for a round-robin task this
    holds until its time slice is over and it is marked to be rescheduled. *)
Theorem highest_priority_runs s0 es r :
  booted s0 -> Forall event_ok es -> exec_all reweight s0 es = Some r ->
  exists s c, r = Ok s /\ tasks s !! curr s = Some c /\ on_rq c = TASK_ON_RQ_QUEUED /\
    (need_resched c = false -> forall pid t, tasks s !! pid = Some t -> on_rq t = TASK_ON_RQ_QUEUED ->
       rank (klass t) <= rank (klass c) /\
       (klass t = rt_class -> klass c = rt_class -> prio c <= prio t)) /\
    (klass c = rt_class -> policy c <> SCHED_RR \/ need_resched c = false ->
       head (rt_list (classes s) (prio c)) = Some (curr s)).
Proof.
  intros Hb He Hr. destruct (exec_all_inv reweight es s0 r) as (s & -> & H & Hh); [by apply boot_inv|by apply boot_served|done..|].
  destruct (inv_curr _ (inv_current _ H)) as (c & Hc & Ho). exists s, c. split_and!; [done..| |].
  - intros Hn pid t. apply best_is_best; [done..|]. by apply (inv_best _ H).
  - intros Hk Hp. by destruct (Hh _ Hc Hk Hp) as (q & ->).
Qed.

(** C4: First in, first out at every priority. In every history in which nobody calls
    sched_yield and no tick finds a SCHED_RR task running, the tasks that became
    runnable at a priority are, in that order, those that have left the CPU by
    sleeping or exiting, followed by those that still wait. *)
Theorem fifo_arrival_order s0 es s p :
  booted s0 -> Forall event_ok es -> in_turn reweight s0 es ->
  exec_all reweight s0 es = Some (Ok s) ->
  arrivals reweight p s0 es = departures reweight p s0 es ++ rt_list (classes s) p.
Proof.
  intros Hb. assert (rt_list (classes s0) p = []) as Hl.
  { destruct (rt_list (classes s0) p) as [|x q] eqn:E; [done|].
    assert (x ∈ queued rt_class (classes s0)) as Hx by (apply rt_queued; exists p; rewrite E; left).
    rewrite (boot_queued _ Hb) in Hx by done. set_solver. }
  pose proof (boot_inv _ Hb) as H. pose proof (boot_head _ Hb) as Hh. clear Hb. intros He Hy Hr.
  change (arrivals reweight p s0 es) with ([] ++ arrivals reweight p s0 es). rewrite <- Hl. clear Hl.
  revert s0 Hy H Hh Hr. induction es as [|e es IH]; intros s0 Hy H Hh Hr; simpl in *.
  - simplify_eq. by rewrite app_nil_r.
  - apply Forall_cons in He as [He Hes]. destruct Hy as [Hy Hys].
    destruct (exec reweight s0 e) as [r1|] eqn:E1; [|done].
    destruct (exec_spec reweight s0 e r1 H He E1) as (s1 & -> & H1 & _). cbn [mbind option_bind] in Hr.
    specialize (IH Hes s1 Hys H1 (exec_head reweight _ _ _ H Hh He Hy E1) Hr). rewrite app_assoc, (exec_fifo reweight s0 e s1) by done.
    by rewrite <- app_assoc, IH, app_assoc.
Qed.

(** A FIFO task keeps the CPU. From the moment it runs until it sleeps or
    exits, whatever wakes, forks or ticks, as long as nobody yields and no tick finds
    a SCHED_RR task, either it runs or a task of better priority (or a deadline task)
    does. *)
Theorem runs_until_it_leaves s0 es s1 es' s a c :
  booted s0 -> Forall event_ok (es ++ es') -> in_turn reweight s1 es' ->
  exec_all reweight s0 es = Some (Ok s1) -> curr s1 = a -> tasks s1 !! a = Some c -> klass c = rt_class -> policy c <> SCHED_RR ->
  exec_all reweight s1 es' = Some (Ok s) -> a ∉ departures reweight (prio c) s1 es' ->
  exists c', tasks s !! curr s = Some c' /\
    (curr s = a \/ klass c' = dl_class \/ klass c' = rt_class /\ prio c' < prio c).
Proof.
  intros Hb [He He']%Forall_app Hy Hr1 Hcur Hc Hk Hpol Hr Ha.
  destruct (exec_all_inv reweight es s0 _ (boot_inv _ Hb) (boot_served _ Hb) He Hr1) as (s1' & [= <-] & H1 & Hs1).
  assert (head_ok s1) as Hh1.
  { intros c0 Hc0 Hk0. rewrite Hcur, Hc in Hc0. simplify_eq. apply Hs1; auto. }
  assert (ahead a (prio c) s1) as Hah.
  { subst a. split; [by apply Hh1|]. exists c. auto. }
  clear Hcur Hc Hk Hr1 Hb He Hs1 Hpol. generalize dependent (prio c). intros p Ha Hah.
  cut (ahead a p s); [by intros [_ ?]|].
  revert s1 Hy H1 Hh1 Hr Ha Hah. induction es' as [|e es' IH]; intros s1 Hy H1 Hh1 Hr Ha Hah; simpl in *.
  - by simplify_eq.
  - apply Forall_cons in He' as [He Hes]. destruct Hy as [Hy Hys].
    destruct (exec reweight s1 e) as [r1|] eqn:E1; [|done].
    destruct (exec_spec reweight s1 e r1 H1 He E1) as (s2 & -> & H2 & _). cbn [mbind option_bind] in Hr.
    apply not_elem_of_app in Ha as [Ha1 Ha2]. apply (IH Hes s2); try done; [by apply (exec_head reweight s1 e)|].
    apply (exec_ahead reweight a p s1 e); try done.
    destruct Hah as [(q & Hq) _]. destruct (decide (a ∈ rt_list (classes s2) p)) as [|Hn]; [done|].
    exfalso. apply Ha1. apply list_elem_of_filter. rewrite Hq. split; [done|left].
Qed.

(** A wake-up is not lost, before or after the sleeper has called schedule().
    try_to_wake_up answers 1 exactly for the states in its mask, and then the
    task is runnable and queued; if it had marked itself asleep but not yet
    called schedule(), that call leaves it on the queue. *)
Theorem no_lost_wakeup s0 es s pid t mask :
  booted s0 -> Forall event_ok es -> exec_all reweight s0 es = Some (Ok s) ->
  tasks s !! pid = Some t -> is_idle t = false ->
  exists s', try_to_wake_up s pid mask = Ok (if has (state t) mask then 1 else 0, s') /\
    (has (state t) mask = false -> s' = s) /\
    (has (state t) mask = true ->
       (exists t', tasks s' !! pid = Some t' /\ state t' = TASK_RUNNING /\ on_rq t' = TASK_ON_RQ_QUEUED) /\
       (pid = curr s -> forall sig s2, schedule 1 sig s' = Some (Ok s2) ->
          exists t2, tasks s2 !! pid = Some t2 /\ on_rq t2 = TASK_ON_RQ_QUEUED)).
Proof.
  intros Hb He Hr Ht Hi. destruct (exec_all_inv reweight es s0 _ (boot_inv _ Hb) (boot_served _ Hb) He Hr) as (s1 & [= <-] & H & _).
  destruct (try_to_wake_up_spec s pid mask t) as (s' & E & H' & _ & [Hcur _] & Hcase); [done..|].
  exists s'. split; [done|]. destruct (has (state t) mask); [|by split]. split; [done|]. intros _.
  split; [done|]. intros -> sig s2 Hs2. destruct Hcase as (t' & Ht' & Hst & Ho). rewrite <- Hcur in *.
  destruct (schedule_spec false sig s' t' (inv_queues _ H') (inv_current _ H') Ht') as (s3 & s4 & E4 & Hpd & Hsd).
  destruct (schedule_once sig s' (inv_queues _ H') (inv_current _ H')) as (s5 & E5 & E6 & _).
  rewrite E6 in Hs2. simplify_eq. destruct (pd_task _ _ _ _ Hpd) as (t1 & Ht1 & _ & Ho1).
  unfold leaves in Ho1. rewrite Hst in Ho1. simpl in Ho1.
  destruct (similar_task _ _ _ _ (sd_similar _ _ _ Hsd) Ht1) as (t2 & Ht2 & _ & _ & Ho2 & _).
  exists t2. split; congruence.
Qed.

(** The counters are the sums they stand for, over every history: nr_switches
    that of the voluntary and involuntary switches of the tasks, and
    nr_uninterruptible and nr_iowait the numbers of sleeping tasks that count. *)
Theorem scheduler_counters s0 es s :
  booted s0 -> counted s0 -> Forall event_ok es ->
  Forall (fun e => match e with Fork _ p => switches p = 0 | _ => True end) es ->
  exec_all reweight s0 es = Some (Ok s) ->
  nr_switches s = total (fun t => nvcsw t + nivcsw t) (tasks s) /\
  nr_uninterruptible s =
    total (fun t => num (bool_decide (on_rq t = NOT_QUEUED) && sched_contributes_to_load t)) (tasks s) /\
  nr_iowait s = total (fun t => num (bool_decide (on_rq t = NOT_QUEUED) && in_iowait t)) (tasks s).
Proof.
  intros Hb Hc He Hf Hr. cut (counted s); [intros [H1 H2 H3]; rewrite Z.add_0_r in *; done|].
  pose proof (boot_inv _ Hb) as H. clear Hb. revert s0 H Hc Hr.
  induction es as [|e es IH]; intros s0 H Hc Hr; simpl in *; [by simplify_eq|].
  apply Forall_cons in He as [He Hes]. apply Forall_cons in Hf as [Hf Hfs].
  destruct (exec reweight s0 e) as [r1|] eqn:E1; [|done].
  destruct (exec_spec reweight s0 e r1 H He E1) as (s2 & -> & H2 & _). cbn [mbind option_bind] in Hr.
  apply (IH Hes Hfs s2); [done| |done]. exact (exec_count reweight s0 e s2 H He Hf E1 Hc).
Qed.
End Properties.

(** ** The experiment as SCHED_FIFO tasks *)

(** A parent at priority 50 that forks three children and waits; each child wakes
    it when it exits.  The children are never preempted by each other, nor by the
    parent, whatever the number of ticks. *)
Definition fifo_base : SchedClass.task :=
  SchedClass.mk_task (SCHED_FIFO (headers := linux)) 50 50 120 50 false SchedClass.rt_sched_class
    (SchedClass.mk_load 0 0) true None.
Definition new_task : task := mk_task fifo_base false TASK_INTERRUPTIBLE NOT_QUEUED false false false false 0 0.
Definition no_signal (_ _ : Z) : bool := false.
Definition any_reweight (_ : Z) : res SchedClass.load_weight := Err OutOfBounds.

Definition demo_boot : rq :=
  init_idle (mk_rq 0 {[1 := new_task; 9 := new_task]} (mk_queues [] [] []) 0 0 0 []) 0 new_task.
Definition demo : list event -> option (res rq) := exec_all (h := linux) any_reweight demo_boot.

Lemma fifo_base_ok : base_ok (h := linux) fifo_base.
Proof. unfold base_ok. split_and!; done || (simpl; lia). Qed.
Lemma demo_booted : booted (h := linux) demo_boot.
Proof.
  split.
  - eexists _, _. split; [reflexivity|]. apply fifo_base_ok.
  - intros pid t Ht Hne. simpl in Ht. rewrite lookup_insert_ne in Ht by done.
    assert (t = new_task) as ->.
    { apply lookup_insert_Some in Ht as [[_ <-]|[_ Ht]]; [done|]. by apply lookup_singleton_Some in Ht as [_ <-]. }
    split_and!; try done; apply fifo_base_ok.
  - intros [] Hc; done.
Qed.

Definition run_children : list event :=
  [Wake 1 TASK_NORMAL; Preempt no_signal;
   Fork 2 new_task; Tick; Fork 3 new_task; Fork 4 new_task; Tick;
   SetState TASK_INTERRUPTIBLE; Schedule no_signal;                       (* the parent waits *)
   Tick; Tick; Wake 1 TASK_NORMAL; Exit no_signal;                        (* 2 *)
   Tick; Wake 1 TASK_NORMAL; Tick; Exit no_signal;                        (* 3 *)
   Tick; Tick; Tick; Wake 1 TASK_NORMAL; Exit no_signal].                 (* 4 *)

(** The order of the switches: the parent, the children as they were forked, and
    the parent when all have ended. *)
Example children_in_order : exists s, demo run_children = Some (Ok s) /\
  switched_to (trace s) = [1; 2; 3; 4; 1] /\ nr_switches s = 5.
Proof. eexists. split; [vm_compute; reflexivity|]. split; vm_compute; reflexivity. Qed.

(** Two round-robin tasks take turns, a tick each, with the time slice of RtTextbook. *)
Definition round_robin_task : task :=
  mk_task (SchedClass.mk_task (SCHED_RR (headers := linux)) 50 50 120 50 false SchedClass.rt_sched_class
    (SchedClass.mk_load 0 0) true None) false TASK_INTERRUPTIBLE NOT_QUEUED false false false false 0 0.
Definition robin_boot : rq :=
  init_idle (mk_rq 0 {[1 := round_robin_task; 2 := round_robin_task]} (mk_queues [] [] []) 0 0 0 []) 0 new_task.
Example round_robin_turns : exists s, exec_all (h := linux) any_reweight robin_boot
    [Wake 1 TASK_NORMAL; Wake 2 TASK_NORMAL; Preempt no_signal; Tick; Preempt no_signal; Tick; Preempt no_signal] = Some (Ok s) /\
  switched_to (trace s) = [1; 2; 1].
Proof. eexists. split; vm_compute; reflexivity. Qed.

Lemma events_ok (es : list event) :
  forallb (fun e => match e with Fork _ p => negb (need_resched p) && (switches p =? 0)%c | _ => true end)%bool es = true ->
  Forall event_ok es /\ Forall (fun e => match e with Fork _ p => switches p = 0 | _ => True end) es.
Proof.
  induction es as [|e es IH]; [by split; constructor|]. cbn [forallb]. intros [He Hes]%andb_prop.
  destruct (IH Hes) as [H1 H2]. split; constructor; try done; destruct e; try done;
    apply andb_prop in He as [Hr%negb_true_iff Hs%Z.eqb_eq]; done.
Qed.

Lemma highest_priority_runs_witness : exists s c, demo run_children = Some (Ok s) /\
  tasks s !! curr s = Some c /\ (klass c = rt_class -> head (rt_list (rt_ok := textbook_rt) (classes s) 50) = Some 1).
Proof.
  destruct (demo run_children) as [r|] eqn:E; [|vm_compute in E; discriminate E].
  destruct (highest_priority_runs (h := linux) any_reweight demo_boot run_children r) as (s & c & -> & Hc & _ & _ & Hh).
  - exact demo_booted.
  - apply events_ok. vm_compute. reflexivity.
  - exact E.
  - exists s, c. split; [reflexivity|]. split; [exact Hc|]. intros Hk. specialize (Hh Hk).
    assert (curr s = 1) as H1 by (vm_compute in E; injection E as <-; reflexivity).
    assert (SchedClass.prio (base c) = 50 /\ need_resched c = false) as [Hp Hn].
    { rewrite H1 in Hc. vm_compute in E. injection E as <-. vm_compute in Hc. injection Hc as <-. split; reflexivity. }
    rewrite Hp, H1 in Hh. apply Hh. right. exact Hn.
Defined.

Lemma fifo_arrival_order_witness : exists s, demo run_children = Some (Ok s) /\
  arrivals (h := linux) any_reweight 50 demo_boot run_children = [1; 2; 3; 4; 1] /\
  departures (h := linux) any_reweight 50 demo_boot run_children ++ [1] = [1; 2; 3; 4; 1].
Proof.
  destruct (demo run_children) as [[s|]|] eqn:E; try (vm_compute in E; discriminate E).
  assert (rt_list (rt_ok := textbook_rt) (classes s) 50 = [1]) as Hl
    by (vm_compute in E; injection E as <-; vm_compute; reflexivity).
  pose proof (fifo_arrival_order (h := linux) any_reweight demo_boot run_children s 50) as H.
  rewrite Hl in H. rewrite <- H.
  - exists s. split; [reflexivity|]. split; vm_compute; reflexivity.
  - exact demo_booted.
  - apply events_ok. vm_compute. reflexivity.
  - vm_compute. repeat split.
  - exact E.
Defined.

(** The first child, from its first instant until it exits. *)
Definition until_child : list event := firstn 9 run_children.
Definition child_runs : list event := [Tick; Tick; Wake 1 TASK_NORMAL; Tick; Wake 9 TASK_NORMAL; Tick].
Lemma runs_until_it_leaves_witness : exists s1 s, demo until_child = Some (Ok s1) /\ curr s1 = 2 /\
  exec_all (h := linux) any_reweight s1 child_runs = Some (Ok s) /\
  exists c', tasks s !! curr s = Some c' /\
    (curr s = 2 \/ klass c' = dl_class \/ klass c' = rt_class /\ SchedClass.prio (base c') < 50).
Proof.
  destruct (demo until_child) as [[s1|]|] eqn:E1; try (vm_compute in E1; discriminate E1).
  assert (curr s1 = 2 /\ exists c s, tasks s1 !! 2 = Some c /\ klass c = rt_class /\ SchedClass.policy (base c) <> SCHED_RR (headers := linux) /\ SchedClass.prio (base c) = 50 /\
    exec_all (h := linux) any_reweight s1 child_runs = Some (Ok s) /\
    departures (h := linux) any_reweight 50 s1 child_runs = []) as (H2 & c & s & Hc & Hk & Hf & Hp & E2 & Hd).
  { vm_compute in E1. injection E1 as <-. split; [reflexivity|]. eexists _, _.
    split; [vm_compute; reflexivity|]. split; [vm_compute; reflexivity|]. split; [vm_compute; discriminate|].
    split; [vm_compute; reflexivity|]. split; [vm_compute; reflexivity|vm_compute; reflexivity]. }
  exists s1, s. split; [reflexivity|]. split; [exact H2|]. split; [exact E2|].
  rewrite <- Hp.
  apply (runs_until_it_leaves (h := linux) any_reweight demo_boot until_child s1 child_runs s 2 c).
  - exact demo_booted.
  - apply events_ok. vm_compute. reflexivity.
  - vm_compute in E1. injection E1 as <-. vm_compute. repeat split.
  - exact E1.
  - exact H2.
  - exact Hc.
  - exact Hk.
  - exact Hf.
  - exact E2.
  - rewrite Hp, Hd. apply not_elem_of_nil.
Defined.

(** The parent has marked itself asleep; a child's death comes before its schedule(). *)
Definition about_to_sleep : list event := firstn 8 run_children.
Lemma no_lost_wakeup_witness : exists s s', demo about_to_sleep = Some (Ok s) /\ curr s = 1 /\
  try_to_wake_up s 1 TASK_NORMAL = Ok (1, s') /\
  forall sig s2, schedule 1 sig s' = Some (Ok s2) ->
    exists t2, tasks s2 !! 1 = Some t2 /\ on_rq t2 = TASK_ON_RQ_QUEUED.
Proof.
  destruct (demo about_to_sleep) as [[s|]|] eqn:E; try (vm_compute in E; discriminate E).
  assert (curr s = 1 /\ exists t, tasks s !! 1 = Some t /\ is_idle t = false /\ has (state t) TASK_NORMAL = true)
    as (H1 & t & Ht & Hi & Hm).
  { vm_compute in E. injection E as <-. split; [reflexivity|]. eexists.
    split; [vm_compute; reflexivity|]. split; vm_compute; reflexivity. }
  destruct (no_lost_wakeup (h := linux) any_reweight demo_boot about_to_sleep s 1 t TASK_NORMAL)
    as (s' & Ew & _ & Hw).
  - exact demo_booted.
  - apply events_ok. vm_compute. reflexivity.
  - exact E.
  - exact Ht.
  - exact Hi.
  - rewrite Hm in Ew, Hw. exists s, s'. split; [reflexivity|]. split; [exact H1|]. split; [exact Ew|].
    apply (proj2 (Hw eq_refl)). symmetry. exact H1.
Defined.

(** A task that waits for I/O is counted while it is away. *)
Definition waits_for_io : list event :=
  [Wake 1 TASK_NORMAL; Preempt no_signal; IoPrepare; SetState TASK_UNINTERRUPTIBLE; Schedule no_signal].
Lemma scheduler_counters_witness : exists s, demo waits_for_io = Some (Ok s) /\
  nr_uninterruptible s = 1 /\ nr_iowait s = 1 /\
  nr_switches s = total (fun t => nvcsw t + nivcsw t) (tasks s).
Proof.
  destruct (demo waits_for_io) as [[s|]|] eqn:E; try (vm_compute in E; discriminate E).
  destruct (scheduler_counters (h := linux) any_reweight demo_boot waits_for_io s) as (H & _ & _).
  - exact demo_booted.
  - split; vm_compute; reflexivity.
  - apply events_ok. vm_compute. reflexivity.
  - apply events_ok. vm_compute. reflexivity.
  - exact E.
  - exists s. split; [reflexivity|]. split; [vm_compute in E; injection E as <-; reflexivity|].
    split; [vm_compute in E; injection E as <-; reflexivity|exact H].
Defined.
