(* ===== verification/SetPrio.v ===== *)
(** * Priority changes of a queued task (src/Assignment_4/fifo/core.c)

    nice, __sched_setscheduler and the priority inheritance of rt_mutex_setprio on
    a task of the run queue: the task is taken off its queue, changed, put back
    and the change is announced to the classes.  What the change does to the task
    alone is SchedClass.  The operations of the classes are the interface
    [prio_classes]; the deadline parameters of a task are left out. *)
From Stdlib Require Import ZArith Lia.
From stdpp Require Import gmap.
From S2P Require Import Prelude CLib SchedInfo SchedClass RunQueue.
Import RunQueue.

Local Open Scope Z_scope.

(** DEQUEUE_MOVE, ENQUEUE_HEAD, ENQUEUE_REPLENISH; DEQUEUE_SAVE and its pair
    ENQUEUE_RESTORE are set in every call here. *)
Record queue_flags := mk_flags { f_move : bool; f_head : bool; f_replenish : bool }.

(** What the hooks of the classes look at: the task, whether it is queued, whether
    it runs, and the current task with its class. *)
Record change := mk_change {
  c_task : entity; c_queued : bool; c_running : bool; c_curr : entity; c_curr_class : class_id
}.

(** A [bool] tells whether the class called resched_curr. *)
Class prio_classes {sc : sched_classes} := {
  class_dequeue_saved : class_id -> cstate -> entity -> bool -> cstate;
  class_enqueue_restored : class_id -> cstate -> entity -> queue_flags -> cstate;
  class_set_next_task : class_id -> cstate -> entity -> cstate;
  class_switched_from : class_id -> cstate -> change -> cstate * bool;
  class_switched_to : class_id -> cstate -> change -> cstate * bool;
  class_prio_changed : class_id -> Z -> cstate -> change -> cstate * bool
}.

(** ** What the classes promise

    Queues change as flags say: without DEQUEUE_MOVE a real-time task keeps its
    place.  A class marks the current task when a queued task it has received, or
    whose priority rose, should run instead, and when the current task itself
    fell behind. *)
Class prio_classes_ok `{h : headers} {sc : sched_classes} (pc : prio_classes) {idle : Z}
    {ok : sched_classes_ok sc idle} (rok : rt_ok sc idle ok) := {
  saved_queued c s e m : c <> idle_class -> c <> rt_class ->
    queued c (class_dequeue_saved c s e m) = queued c s ∖ {[ e_pid e ]};
  saved_other c c' s e m : c' <> c -> queued c' (class_dequeue_saved c s e m) = queued c' s;
  saved_lists s e m p : rt_list (class_dequeue_saved rt_class s e m) p =
    if decide (p = e_prio e /\ m = true) then filter (fun pid => pid <> e_pid e) (rt_list s p) else rt_list s p;
  saved_same c s e m : c <> rt_class -> same_lists s (class_dequeue_saved c s e m);
  restored_queued c s e fl : c <> idle_class -> c <> rt_class ->
    queued c (class_enqueue_restored c s e fl) = queued c s ∪ {[ e_pid e ]};
  restored_other c c' s e fl : c' <> c -> queued c' (class_enqueue_restored c s e fl) = queued c' s;
  restored_lists s e fl p : rt_list (class_enqueue_restored rt_class s e fl) p =
    if decide (p = e_prio e /\ f_move fl = true)
    then (if f_head fl then e_pid e :: rt_list s p else rt_list s p ++ [e_pid e]) else rt_list s p;
  restored_same c s e fl : c <> rt_class -> same_lists s (class_enqueue_restored c s e fl);
  set_next_same c s e : same_queued s (class_set_next_task c s e) /\ same_lists s (class_set_next_task c s e);
  switched_from_same c s x : same_queued s (class_switched_from c s x).1 /\ same_lists s (class_switched_from c s x).1;
  switched_to_same c s x : same_queued s (class_switched_to c s x).1 /\ same_lists s (class_switched_to c s x).1;
  prio_changed_same c old s x : same_queued s (class_prio_changed c old s x).1 /\
    same_lists s (class_prio_changed c old s x).1;
  switched_to_better c s x : c_queued x = true -> c_running x = false ->
    rank (c_curr_class x) < rank c \/
    c = rt_class /\ c_curr_class x = rt_class /\ e_prio (c_task x) < e_prio (c_curr x) ->
    (class_switched_to c s x).2 = true;
  switched_to_fair s x : c_queued x = true -> c_running x = true ->
    (class_switched_to fair_class s x).2 = true;
  prio_changed_rt old s x : c_queued x = true ->
    (if c_running x then old < e_prio (c_task x) else e_prio (c_task x) < e_prio (c_curr x)) ->
    (class_prio_changed rt_class old s x).2 = true
}.

Module SetPrio.

Definition set_pi_top (b : SchedClass.task) v := SchedClass.mk_task (SchedClass.policy b) (SchedClass.prio b)
  (SchedClass.normal_prio_ b) (SchedClass.static_prio b) (SchedClass.rt_priority b) (SchedClass.reset_on_fork b)
  (SchedClass.class b) (SchedClass.load b) (SchedClass.has_mm b) v.

Section Model.
Context `{h : headers} {sc : sched_classes} {pc : prio_classes}.
Context (reweight : Z -> res SchedClass.load_weight) (dl_entity_preempt : Z -> Z -> bool).

(** The task with other parameters; the class of the idle task never changes. *)
Definition put_base (t : task) v := mk_task v (is_idle t) (state t) (on_rq t) (need_resched t)
  (sched_contributes_to_load t) (in_iowait t) (frozen t) (nvcsw t) (nivcsw t).
Definition change_base (s : rq) (pid : Z) (b : SchedClass.task) : res rq := update s pid (fun p => put_base p b).

(** ** The common parts of the three functions *)

(** [if (queued) dequeue_task(...); if (running) put_prev_task(...)] *)
Definition take_off (s : rq) (pid : Z) (move : bool) : res (rq * bool * bool) :=
  p ← the_task s pid;
  let queued := bool_decide (on_rq p = TASK_ON_RQ_QUEUED) in
  let running := (pid =? curr s)%c in
  let cs := if queued then class_dequeue_saved (klass p) (classes s) (entity_of pid p) move else classes s in
  let cs := if running then class_put_prev_task (klass p) cs (entity_of pid p) else cs in
  Ok (set_classes s cs, queued, running).
(** [if (queued) enqueue_task(...); if (running) set_next_task(...)] *)
Definition put_back (s : rq) (pid : Z) (queued running : bool) (fl : queue_flags) : res rq :=
  p ← the_task s pid;
  let cs := if queued then class_enqueue_restored (klass p) (classes s) (entity_of pid p) fl else classes s in
  let cs := if running then class_set_next_task (klass p) cs (entity_of pid p) else cs in
  Ok (set_classes s cs).
Definition class_hook (f : cstate -> change -> cstate * bool) (s : rq) (pid : Z) : res rq :=
  p ← the_task s pid;
  c ← the_task s (curr s);
  let '(cs, resched) := f (classes s) (mk_change (entity_of pid p) (bool_decide (on_rq p = TASK_ON_RQ_QUEUED))
    (pid =? curr s)%c (entity_of (curr s) c) (klass c)) in
  if resched then resched_curr (set_classes s cs) else Ok (set_classes s cs).

Definition check_class_changed (s : rq) (pid : Z) (prev_class : class_id) (oldprio : Z) : res rq :=
  p ← the_task s pid;
  if decide (prev_class = klass p) then
    if (negb (oldprio =? SchedClass.prio (base p))%c || dl_prio (SchedClass.prio (base p)))%bool
    then class_hook (class_prio_changed (klass p) oldprio) s pid else Ok s
  else
    s ← class_hook (class_switched_from prev_class) s pid;
    class_hook (class_switched_to (klass p)) s pid.

(** ** nice *)
Definition set_user_nice (s : rq) (pid nice : Z) : res rq :=
  p ← the_task s pid;
  let b := base p in
  if ((SchedClass.task_nice b =? nice)%c || (nice <? MIN_NICE)%c || (MAX_NICE <? nice)%c)%bool then Ok s
  else if (SchedClass.task_has_dl_policy b || SchedClass.task_has_rt_policy b)%bool then
    change_base s pid (SchedClass.set_static_prio b (NICE_TO_PRIO nice))
  else
    '(s, queued, running) ← take_off s pid false;
    b ← SchedClass.set_load_weight reweight (SchedClass.set_static_prio b (NICE_TO_PRIO nice)) true;
    let old_prio := SchedClass.prio b in
    let '(b, v) := SchedClass.effective_prio b in
    s ← change_base s pid (SchedClass.set_prio b v);
    s ← put_back s pid queued running (mk_flags false false false);
    class_hook (class_prio_changed (klass p) old_prio) s pid.
Definition sys_nice (s : rq) (e : SchedClass.env) (increment : Z) : res (Z * rq) :=
  c ← the_task s (curr s);
  let increment := SchedClass.clamp increment (- NICE_WIDTH) NICE_WIDTH in
  let nice := SchedClass.clamp (SchedClass.task_nice (base c) + increment) MIN_NICE MAX_NICE in
  if ((increment <? 0)%c && negb (SchedClass.can_nice e nice))%bool then Ok (- SchedClass.EPERM, s)
  else if negb (SchedClass.security_task_setnice e =? 0)%c then Ok (SchedClass.security_task_setnice e, s)
  else s ← set_user_nice s (curr s) nice; Ok (0, s).

(** ** sched_setscheduler *)
Definition newprio (attr : SchedClass.sched_attr) : Z :=
  if dl_policy (s32 (SchedClass.sched_policy attr)) then MAX_DL_PRIO - 1
  else MAX_RT_PRIO - 1 - SchedClass.sched_priority attr.
(** From [p->sched_reset_on_fork = reset_on_fork] on. *)
Definition do_change (s : rq) (pid : Z) (p : task) (b : SchedClass.task) (attr : SchedClass.sched_attr) : res rq :=
  let oldprio := SchedClass.prio b in
  let move := negb (SchedClass.rt_effective_prio b (newprio attr) =? oldprio)%c in
  '(s, queued, running) ← take_off s pid move;
  b ← SchedClass.__setscheduler reweight b attr true;
  s ← change_base s pid b;
  s ← put_back s pid queued running (mk_flags move (oldprio <? SchedClass.prio b)%c false);
  check_class_changed s pid (klass p) oldprio.
Definition __sched_setscheduler (s : rq) (pid : Z) (e : SchedClass.env) (attr : SchedClass.sched_attr) (user : bool)
  : res (Z * rq) :=
  p ← the_task s pid;
  let b := base p in
  let pol := s32 (SchedClass.sched_policy attr) in
  let '(pol, reset) := if (pol <? 0)%c then (SchedClass.policy b, SchedClass.reset_on_fork b)
                       else (pol, SchedClass.flag attr SCHED_FLAG_RESET_ON_FORK) in
  let retval := SchedClass.setscheduler_checks e b attr user pol reset in
  if negb (retval =? 0)%c then Ok (retval, s)
  else if SchedClass.is_stop e then Ok (- SchedClass.EINVAL, s)
  else if negb (SchedClass.changes e b attr pol)
  then s ← change_base s pid (SchedClass.set_reset b reset); Ok (0, s)
  else if (user && ((rt_policy pol && SchedClass.rt_group_denies e) ||
                    (dl_policy pol && negb (SchedClass.flag attr SCHED_FLAG_SUGOV) && SchedClass.dl_span_denies e)))%bool
  then Ok (- SchedClass.EPERM, s)
  else if ((dl_policy pol || dl_prio (SchedClass.prio b)) && SchedClass.sched_dl_overflow e)%bool
  then Ok (- SchedClass.EBUSY, s)
  else s ← do_change s pid p (SchedClass.set_reset b reset) attr; Ok (0, s).

(** ** Priority inheritance

    The task holds the priority its donor [pi_task] had at the last call; the test
    of the first line compares the donors themselves. *)
Definition rt_mutex_setprio (s : rq) (pid : Z) (pi_task : option Z) : res rq :=
  p ← the_task s pid;
  let b := base p in
  top ← match pi_task with None => Ok None | Some d => t ← the_task s d; Ok (Some (SchedClass.prio (base t))) end;
  let b' := set_pi_top b top in
  let prio := SchedClass.rt_effective_prio b' (SchedClass.normal_prio_ b) in
  s ← change_base s pid b';
  if ((prio =? SchedClass.prio b)%c && negb (dl_prio prio))%bool then Ok s
  else if is_idle p then Ok s
  else
    let oldprio := SchedClass.prio b in
    let move := negb (oldprio =? prio)%c in
    '(s, queued, running) ← take_off s pid move;
    let replenish := (dl_prio prio && (negb (dl_prio (SchedClass.normal_prio_ b)) ||
      match pi_task, top with Some d, Some v => dl_prio v && dl_entity_preempt d pid | _, _ => false end))%bool in
    let head := (negb (dl_prio prio) && rt_prio prio && (oldprio <? prio)%c)%bool in
    s ← change_base s pid (SchedClass.set_prio (SchedClass.set_class b' (SchedClass.class_of prio)) prio);
    s ← put_back s pid queued running (mk_flags move head replenish);
    check_class_changed s pid (klass p) oldprio.

(** ** Histories with priority changes

    [top] is the priority of the donor when sched_setscheduler is called. *)
Inductive prio_event :=
  | Sched (e : event)
  | Nice (pid nice : Z)
  | SetScheduler (pid : Z) (top : option Z) (env : SchedClass.env) (attr : SchedClass.sched_attr) (user : bool)
  | Inherit (pid : Z) (pi_task : option Z).
Definition set_scheduler (s : rq) (pid : Z) (top : option Z) (e : SchedClass.env) (attr : SchedClass.sched_attr)
    (user : bool) : res (Z * rq) :=
  p ← the_task s pid;
  s ← change_base s pid (set_pi_top (base p) top);
  __sched_setscheduler s pid e attr user.
(** Does the running task leave the deadline class?  deadline.c then decides what
    runs: not modelled. *)
Definition leaves_dl (s s' : rq) : bool :=
  match tasks s !! curr s, tasks s' !! curr s with
  | Some c, Some c' => bool_decide (klass c = dl_class /\ klass c' <> dl_class)
  | _, _ => false
  end.
Definition change_event (s : rq) (pid : Z) (r : res rq) : option (res rq) :=
  t ← tasks s !! pid;
  if is_idle t then None
  else match r with Ok s' => if leaves_dl s s' then None else Some r | Err _ => Some r end.
Definition exists_donor (s : rq) (pi_task : option Z) : bool :=
  match pi_task with Some d => bool_decide (is_Some (tasks s !! d)) | None => true end.
Definition exec (s : rq) (e : prio_event) : option (res rq) :=
  match e with
  | Sched e => RunQueue.exec reweight s e
  | Nice pid nice => change_event s pid (set_user_nice s pid nice)
  | SetScheduler pid top env attr user =>
      change_event s pid (res_fmap _ _ snd (set_scheduler s pid top env attr user))
  | Inherit pid pi_task =>
      if exists_donor s pi_task then change_event s pid (rt_mutex_setprio s pid pi_task) else None
  end.
Fixpoint exec_all (s : rq) (es : list prio_event) : option (res rq) :=
  match es with
  | [] => Some (Ok s)
  | e :: es => r ← exec s e; match r with Ok s => exec_all s es | Err f => Some (Err f) end
  end.

End Model.
End SetPrio.
