(* ===== verification/SetPrioInv.v ===== *)
(** * Priority changes of a queued task: the invariant (src/Assignment_4/fifo/core.c)

    Taking a task off its queue, changing it and putting it back: what becomes of
    the queues, and that the hooks of the classes mark the current task whenever
    it is no longer the best. *)
From Stdlib Require Import ZArith Lia.
From stdpp Require Import gmap.
From S2P Require Import Prelude CLib SchedInfo SchedClass SchedClassTheorems RunQueue RunQueueInv RunQueueSched RunQueueEvents SetPrio.
Import RunQueue SetPrio.

Local Open Scope Z_scope.

Section Change.
Context `{h : headers} {hok : headers_ok h} {sc : sched_classes} {pc : prio_classes}.
Context {idle : Z} {ok : sched_classes_ok sc idle} {rok : rt_ok sc idle ok} {pok : prio_classes_ok pc rok}.
Local Abbreviation prio t := (SchedClass.prio (base t)).

(** ** Class and priority *)
Lemma class_cases (c : class_id) : c <> idle_class -> c = dl_class \/ c = rt_class \/ c = fair_class.
Proof. destruct c; [by left|by right; left|by right; right|done]. Qed.
Lemma klass_prio t : is_idle t = false -> base_ok (base t) ->
  (klass t = dl_class <-> prio t < 0) /\ (klass t = rt_class <-> 0 <= prio t < 100) /\
  (klass t = fair_class <-> 100 <= prio t) /\ klass t <> idle_class.
Proof.
  intros Hi (_ & Hc & _). unfold klass. rewrite Hi, Hc. unfold SchedClass.class_of.
  rewrite dl_prio_def, rt_prio_def. destruct prio_values as (-> & -> & _).
  destruct (Z.ltb_spec (prio t) 0), (Z.ltb_spec (prio t) 100); split_and!; try split; try done; lia.
Qed.

(** A queued task of another priority is in no list. *)
Lemma list_member s pid t p : queues_ok s -> tasks s !! pid = Some t -> pid <> idle ->
  pid ∈ rt_list (classes s) p <-> on_rq t = TASK_ON_RQ_QUEUED /\ klass t = rt_class /\ p = prio t.
Proof.
  intros H Ht Hne. split.
  - intros Hin. assert (pid ∈ queued rt_class (classes s)) as Hq by (apply rt_queued; eauto).
    destruct (inv_queued _ H rt_class pid) as (u & Hu & Hk & Ho); [done|done|].
    destruct (inv_lists _ H _ _ Hin) as (v & Hv & Hp). by simplify_eq.
  - intros (Ho & Hk & ->). destruct (inv_tasks _ H _ _ Ht Hne) as (_ & _ & Hq). specialize (Hq Ho).
    rewrite Hk in Hq. apply rt_queued in Hq as (p & Hp). destruct (inv_lists _ H _ _ Hp) as (v & Hv & <-). by simplify_eq.
Qed.

(** ** Off the queue and back *)
Section Requeue.
Context (s : rq) (pid : Z) (t : task) (b : SchedClass.task) (fl : queue_flags).
Local Abbreviation t' := (put_base t b).

Definition is_queued : bool := bool_decide (on_rq t = TASK_ON_RQ_QUEUED).
Definition off_queue : cstate :=
  let cs := if is_queued then class_dequeue_saved (klass t) (classes s) (entity_of pid t) (f_move fl) else classes s in
  if (pid =? curr s)%c then class_put_prev_task (klass t) cs (entity_of pid t) else cs.
Definition on_queue : cstate :=
  let cs := if is_queued then class_enqueue_restored (klass t') off_queue (entity_of pid t') fl else off_queue in
  if (pid =? curr s)%c then class_set_next_task (klass t') cs (entity_of pid t') else cs.
Definition changed : rq := set_classes (set_tasks s (<[pid := t']> (tasks s))) on_queue.

(** The list of each priority afterwards. *)
Definition list_off (p : Z) : list Z :=
  if decide (klass t = rt_class /\ p = prio t /\ f_move fl = true)
  then filter (fun x => x <> pid) (rt_list (classes s) p) else rt_list (classes s) p.
Definition list_on (p : Z) : list Z :=
  if decide (klass t' = rt_class /\ p = prio t' /\ f_move fl = true)
  then (if f_head fl then pid :: list_off p else list_off p ++ [pid]) else list_off p.

Lemma list_off_nil p : rt_list (classes s) p = [] -> list_off p = [].
Proof. intros He. unfold list_off. rewrite He. by case_decide. Qed.
Lemma off_lists p : rt_list off_queue p = if is_queued then list_off p else rt_list (classes s) p.
Proof.
  assert (rt_list (if is_queued then class_dequeue_saved (klass t) (classes s) (entity_of pid t) (f_move fl)
                   else classes s) p = if is_queued then list_off p else rt_list (classes s) p) as Hl.
  { destruct is_queued; [|done]. unfold list_off. destruct (decide (klass t = rt_class)) as [E|E].
    - rewrite E, saved_lists. simpl. destruct (decide (p = _ /\ _)), (decide (_ /\ _ /\ _)); naive_solver.
    - rewrite saved_same by done. by rewrite decide_False by tauto. }
  unfold off_queue. destruct (pid =? curr s)%c; [|done]. by rewrite rt_put_same.
Qed.
Lemma on_lists p : rt_list on_queue p = if is_queued then list_on p else rt_list (classes s) p.
Proof.
  assert (rt_list (if is_queued then class_enqueue_restored (klass t') off_queue (entity_of pid t') fl else off_queue) p =
    if is_queued then list_on p else rt_list (classes s) p) as Hl.
  { pose proof (off_lists p) as Ho. destruct is_queued; [|done]. unfold list_on.
    destruct (decide (klass t' = rt_class)) as [E|E].
    - rewrite E, restored_lists, Ho. simpl. destruct (decide (p = _ /\ _)), (decide (_ /\ _ /\ _)); naive_solver.
    - rewrite restored_same by done. by rewrite decide_False by tauto. }
  unfold on_queue. destruct (pid =? curr s)%c; [|done]. destruct (set_next_same (klass t')
    (if is_queued then class_enqueue_restored (klass t') off_queue (entity_of pid t') fl else off_queue)
    (entity_of pid t')) as [_ Hs]. by rewrite Hs.
Qed.

Context (Hq : queues_ok s) (Hcur : current_ok s) (Ht : tasks s !! pid = Some t) (Hi : is_idle t = false).
Context (Hb : base_ok b).
(** A task that is not moved keeps class and priority. *)
Context (Hstay : f_move fl = false -> klass t = rt_class \/ klass t' = rt_class ->
  klass t' = klass t /\ SchedClass.prio b = prio t).

Lemma changed_ne : pid <> idle.
Proof. by eapply idle_iff. Qed.
Lemma changed_lookup i : tasks changed !! i = if decide (i = pid) then Some t' else tasks s !! i.
Proof. simpl. case_decide as E; [rewrite E; by apply lookup_insert_eq|by apply lookup_insert_ne]. Qed.
Lemma changed_klass : klass t' <> idle_class /\ klass t <> idle_class.
Proof.
  split; [by apply (klass_prio t')|]. apply (klass_prio t); [done|]. by apply (inv_base _ Hq pid).
Qed.

(** The changed task is in the list of its priority only, the others stay. *)
Lemma list_on_self p : is_queued = true -> pid ∈ list_on p <-> klass t' = rt_class /\ p = prio t'.
Proof.
  intros Eq%bool_decide_eq_true. pose proof (fun p => list_member s pid t p Hq Ht changed_ne) as Hm.
  unfold list_on. destruct (decide (_ /\ _ /\ f_move fl = true)) as [(H1 & H2 & H3)|Hn].
  { split; [by split|]. intros _. destruct (f_head fl); set_solver. }
  unfold list_off. destruct (decide (_ /\ _ /\ f_move fl = true)) as [(H1 & H2 & H3)|Hn'].
  - split; [intros [Hx _]%list_elem_of_filter; done|]. intros [E1 E2]. naive_solver.
  - rewrite Hm. destruct (f_move fl); [naive_solver|].
    split.
    + intros (_ & H1 & ->). destruct (Hstay eq_refl) as [E1 E2]; [by left|]. simpl. split; congruence.
    + intros (H1 & ->). destruct (Hstay eq_refl) as [E1 E2]; [by right|]. simpl. split_and!; [done|congruence|done].
Qed.
Lemma list_on_other p x : x <> pid -> x ∈ list_on p <-> x ∈ rt_list (classes s) p.
Proof.
  intros Hx. unfold list_on, list_off.
  repeat case_decide; rewrite ?list_elem_of_filter; try destruct (f_head fl);
    rewrite ?elem_of_cons, ?elem_of_app, ?list_elem_of_filter, ?list_elem_of_singleton; tauto.
Qed.

Lemma on_queued_other c x : c <> idle_class -> x <> pid ->
  x ∈ queued c on_queue <-> x ∈ queued c (classes s).
Proof.
  intros Hc Hx. destruct (decide (c = rt_class)) as [->|Hr].
  { rewrite !rt_queued. split; intros (p & Hp); exists p; rewrite on_lists in *; destruct is_queued; try done;
      by apply list_on_other. }
  assert (x ∈ queued c off_queue <-> x ∈ queued c (classes s)) as Ho.
  { unfold off_queue. destruct (pid =? curr s)%c; rewrite ?queued_put; (destruct is_queued; [|done]);
      (destruct (decide (c = klass t)) as [->|]; [rewrite saved_queued by done; set_solver|by rewrite saved_other]). }
  unfold on_queue. rewrite <- Ho. destruct (pid =? curr s)%c;
    try (destruct (set_next_same (klass t') (if is_queued then class_enqueue_restored (klass t') off_queue
      (entity_of pid t') fl else off_queue) (entity_of pid t')) as [Hs _]; rewrite Hs); (destruct is_queued; [|done]);
    (destruct (decide (c = klass t')) as [->|]; [rewrite restored_queued by done; set_solver|by rewrite restored_other]).
Qed.
Lemma on_queued_self c : c <> idle_class ->
  pid ∈ queued c on_queue <-> on_rq t = TASK_ON_RQ_QUEUED /\ c = klass t'.
Proof.
  intros Hc. destruct changed_klass as [Hk' Hk].
  assert (is_queued = false -> pid ∉ queued c (classes s)) as Hno.
  { intros E%bool_decide_eq_false Hin. destruct (inv_queued _ Hq _ _ Hc Hin) as (u & Hu & _ & Ho). by simplify_eq. }
  assert (is_queued = true <-> on_rq t = TASK_ON_RQ_QUEUED) as Hiff by apply bool_decide_eq_true.
  destruct (decide (c = rt_class)) as [->|Hr].
  { rewrite rt_queued. split.
    - intros (p & Hp). rewrite on_lists in Hp. destruct is_queued eqn:E; [apply list_on_self in Hp; intuition|].
      destruct (Hno eq_refl). apply rt_queued. eauto.
    - intros (Ho%Hiff & Ek). exists (prio t'). rewrite on_lists, Ho. by apply list_on_self. }
  assert (is_queued = true -> pid ∉ queued c off_queue) as Hoff.
  { intros E. unfold off_queue. rewrite E.
    assert (pid ∉ queued c (class_dequeue_saved (klass t) (classes s) (entity_of pid t) (f_move fl))) as Hd.
    { destruct (decide (c = klass t)) as [->|Hne]; [rewrite saved_queued by done; set_solver|].
      rewrite saved_other by done. intros Hin. destruct (inv_queued _ Hq _ _ Hc Hin) as (u & Hu & Hku & _). by simplify_eq. }
    destruct (pid =? curr s)%c; [by rewrite queued_put|done]. }
  assert (queued c on_queue = queued c (if is_queued then class_enqueue_restored (klass t') off_queue
    (entity_of pid t') fl else off_queue)) as ->.
  { unfold on_queue. destruct (pid =? curr s)%c; [|done]. by apply set_next_same. }
  destruct is_queued eqn:E.
  - destruct (decide (c = klass t')) as [->|Hne]; [rewrite restored_queued by done; set_solver|].
    rewrite restored_other by done. specialize (Hoff eq_refl). naive_solver.
  - specialize (Hno eq_refl). assert (queued c off_queue = queued c (classes s)) as ->.
    { unfold off_queue. rewrite E. destruct (pid =? curr s)%c; [by apply queued_put|done]. }
    naive_solver.
Qed.

Lemma list_on_nodup p : is_queued = true -> NoDup (list_on p).
Proof.
  intros Eq. pose proof (inv_nodup _ Hq p) as Hn.
  assert (NoDup (list_off p)) as Ho by (unfold list_off; case_decide; [by apply NoDup_filter|done]).
  unfold list_on. case_decide as Ec; [|done]. destruct Ec as (H1 & H2 & H3).
  assert (pid ∉ list_off p) as Hnot.
  { unfold list_off. case_decide as Ed; [by intros [? _]%list_elem_of_filter|].
    rewrite (list_member s pid t p Hq Ht changed_ne). naive_solver. }
  destruct (f_head fl); [by constructor|]. apply NoDup_app. split_and!; [done| |apply NoDup_singleton].
  by intros x Hx ->%list_elem_of_singleton.
Qed.

Lemma changed_queues : queues_ok changed.
Proof.
  pose proof changed_ne as Hne. split.
  - destruct (inv_idle _ Hq) as (u & Hu & H1). exists u. rewrite changed_lookup, decide_False by done. done.
  - intros i u. rewrite changed_lookup. case_decide; [by intros [= <-]|apply (inv_base _ Hq)].
  - intros i u. rewrite changed_lookup. change (classes changed) with on_queue. case_decide as E.
    + intros [= <-] _. subst i. split_and!; [done|by apply (inv_tasks _ Hq _ _ Ht Hne)|].
      intros Ho. apply on_queued_self; [apply changed_klass|done].
    + intros Hu Hid. destruct (inv_tasks _ Hq _ _ Hu Hid) as (H1 & H2 & H3). split_and!; [done..|].
      intros Ho. apply on_queued_other; [|done|by apply H3].
      apply (klass_prio u); [done|]. by apply (inv_base _ Hq i).
  - intros c i Hc. change (classes changed) with on_queue. rewrite changed_lookup. case_decide as E.
    + subst i. intros [Ho ->]%on_queued_self; [|done]. by exists t'.
    + intros Hin. apply (inv_queued _ Hq); [done|]. by apply on_queued_other in Hin.
  - intros i p. change (classes changed) with on_queue. rewrite changed_lookup. case_decide as E.
    + subst i. intros Hin. assert (pid ∈ queued rt_class on_queue) as Hr by (apply rt_queued; eauto).
      apply on_queued_self in Hr as [Ho Hk]; [|done]. exists t'. split; [done|].
      rewrite on_lists in Hin. unfold is_queued in Hin at 1. rewrite bool_decide_eq_true_2 in Hin by done.
      symmetry. apply list_on_self in Hin; [by apply Hin|by apply bool_decide_eq_true].
    + rewrite on_lists. intros Hin. apply (inv_lists _ Hq). destruct is_queued; [|done]. by apply list_on_other in Hin.
  - intros p. change (classes changed) with on_queue. rewrite on_lists. destruct is_queued eqn:E.
    + by apply list_on_nodup.
    + apply (inv_nodup _ Hq).
Qed.
Lemma changed_current : current_ok changed.
Proof.
  split.
  - destruct (inv_curr _ Hcur) as (c & Hc & Ho). change (curr changed) with (curr s). rewrite changed_lookup.
    case_decide as E; [|by exists c]. exists t'. split; [done|]. rewrite E in Hc. by simplify_eq.
  - intros i u. rewrite changed_lookup. case_decide as E.
    + subst i. intros [= <-] Hn. by apply (inv_resched _ Hcur _ t).
    + apply (inv_resched _ Hcur).
Qed.
End Requeue.

(** ** The hooks *)
Definition seen (s : rq) (pid : Z) (t c : task) : change :=
  mk_change (entity_of pid t) (is_queued t) (pid =? curr s)%c (entity_of (curr s) c) (klass c).
Lemma class_hook_spec f s pid t : current_ok s -> tasks s !! pid = Some t ->
  (forall cs x, same_queued cs (f cs x).1 /\ same_lists cs (f cs x).1) ->
  exists s', class_hook f s pid = Ok s' /\ neutral s s' /\
    (forall c, tasks s !! curr s = Some c -> (f (classes s) (seen s pid t c)).2 = true -> flagged s').
Proof.
  intros Hcur Ht Hf. destruct (inv_curr _ Hcur) as (c & Hc & _). unfold class_hook, the_task.
  rewrite Ht, Hc. cbn [of_option mbind res_bind]. change (mk_change _ _ _ _ _) with (seen s pid t c).
  destruct (Hf (classes s) (seen s pid t c)) as [H1 H2].
  destruct (f (classes s) (seen s pid t c)) as [cs r] eqn:E. simpl in H1, H2.
  assert (neutral s (set_classes s cs)) as Hn by (by apply classes_neutral).
  destruct r.
  - destruct (resched_spec (set_classes s cs)) as (s' & -> & Hn' & Hfl); [by eapply neutral_current|].
    exists s'. split_and!; [done|by etrans|done].
  - exists (set_classes s cs). split_and!; [done..|]. intros c' Hc'. simplify_eq. by rewrite E.
Qed.

(** The changes of [t'] after which the current task has to be marked. *)
Definition overdue (s : rq) (pid : Z) (t' : task) (prev_class : class_id) (old : Z) : Prop :=
  on_rq t' = TASK_ON_RQ_QUEUED /\ exists c, tasks s !! curr s = Some c /\
    (if decide (prev_class = klass t')
     then klass t' = rt_class /\ prio t' <> old /\
          (if (pid =? curr s)%c then old < prio t' else prio t' < prio c)
     else if (pid =? curr s)%c then klass t' = fair_class else beats t' c).
Lemma class_changed_spec s pid t' k old : current_ok s -> tasks s !! pid = Some t' ->
  exists s', check_class_changed s pid k old = Ok s' /\ neutral s s' /\ (overdue s pid t' k old -> flagged s').
Proof.
  intros Hcur Ht. unfold check_class_changed, the_task. rewrite Ht. cbn [of_option mbind res_bind].
  unfold overdue. destruct (decide (k = klass t')) as [->|Hk].
  - destruct (_ || _)%bool eqn:E.
    + destruct (class_hook_spec (class_prio_changed (klass t') old) s pid t') as (s' & -> & Hn & Hf);
        [done|done|intros; apply prio_changed_same|].
      exists s'. split_and!; [done..|]. intros (Ho & c & Hc & Hr & Hne & Hp). apply (Hf c Hc). rewrite Hr.
      apply prio_changed_rt; simpl; [by apply bool_decide_eq_true|]. by destruct (pid =? curr s)%c.
    + exists s. split_and!; [done..|]. intros (_ & c & _ & _ & Hne & _). apply orb_false_elim in E as [E _].
      apply negb_false_iff, Z.eqb_eq in E. congruence.
  - destruct (class_hook_spec (class_switched_from k) s pid t') as (s1 & -> & Hn1 & _);
      [done|done|intros; apply switched_from_same|]. cbn [mbind res_bind].
    destruct (similar_task _ _ _ _ (neu_similar _ _ Hn1) Ht) as (t1 & Ht1 & Hsame).
    destruct (class_hook_spec (class_switched_to (klass t')) s1 pid t1) as (s2 & -> & Hn2 & Hf);
      [by eapply neutral_current|done|intros; apply switched_to_same|].
    exists s2. split_and!; [done|by etrans|]. intros (Ho & c & Hc & Hp).
    destruct (similar_task _ _ _ _ (neu_similar _ _ Hn1) Hc) as (c1 & Hc1 & Hsc).
    rewrite <- (neu_curr _ _ Hn1) in Hc1. apply (Hf c1 Hc1).
    assert (is_queued t1 = true) as Hq1 by (apply bool_decide_eq_true; by destruct Hsame as (_ & _ & -> & _)).
    rewrite <- (neu_curr _ _ Hn1) in Hp. destruct (pid =? curr s1)%c eqn:Er.
    + rewrite Hp. by apply switched_to_fair.
    + apply switched_to_better; [done|done|]. simpl. rewrite (same_klass _ _ Hsc).
      destruct Hsame as (-> & _), Hsc as (-> & _). destruct Hp as [?|(? & ? & ?)]; auto.
Qed.

(** ** The best task *)
Lemma rt_empty (s : rq) p : queued rt_class (classes s) = ∅ -> rt_list (classes s) p = [].
Proof.
  intros He. destruct (rt_list (classes s) p) as [|x q] eqn:E; [done|].
  assert (x ∈ queued rt_class (classes s)) as Hx by (apply rt_queued; exists p; rewrite E; left). set_solver.
Qed.
Section Empty.
Context (s : rq) (pid : Z) (t : task) (b : SchedClass.task) (fl : queue_flags).
Local Abbreviation t' := (put_base t b).
Local Abbreviation s1 := (changed s pid t b fl).
Context (H : inv s) (Ht : tasks s !! pid = Some t) (Hi : is_idle t = false) (Hb : base_ok b).
Context (Hstay : f_move fl = false -> klass t = rt_class \/ klass t' = rt_class ->
  klass t' = klass t /\ SchedClass.prio b = prio t).

Lemma class_empty c : c <> idle_class -> c <> klass t' -> queued c (classes s) = ∅ -> queued c (classes s1) = ∅.
Proof.
  intros Hc Hne He. apply set_eq. intros x. split; [|set_solver]. intros Hx.
  change (classes s1) with (on_queue s pid t b fl) in Hx. destruct (decide (x = pid)) as [->|Hx'].
  - by apply (on_queued_self s pid t b fl (inv_queues _ H) (inv_current _ H) Ht Hi Hb Hstay) in Hx as [_ ->].
  - by apply (on_queued_other s pid t b fl (inv_queues _ H) (inv_current _ H) Ht Hi Hb Hstay) in Hx; [set_solver|..].
Qed.
Lemma list_empty p : rt_list (classes s) p = [] -> klass t' <> rt_class \/ p <> SchedClass.prio b ->
  rt_list (classes s1) p = [].
Proof.
  intros He Hp. change (classes s1) with (on_queue s pid t b fl). rewrite on_lists.
  assert (list_off s pid t fl p = []) as Ho by (by apply list_off_nil).
  destruct (is_queued t); [|done]. unfold list_on. rewrite decide_False; [done|]. simpl. tauto.
Qed.

End Empty.

Section Best.
Context (s : rq) (pid : Z) (t : task) (b : SchedClass.task) (fl : queue_flags).
Local Abbreviation t' := (put_base t b).
Local Abbreviation s1 := (changed s pid t b fl).
Context (H : inv s) (Ht : tasks s !! pid = Some t) (Hi : is_idle t = false) (Hb : base_ok b).
Context (Hstay : f_move fl = false -> klass t = rt_class \/ klass t' = rt_class ->
  klass t' = klass t /\ SchedClass.prio b = prio t).
(** A real-time task of unchanged priority is not moved; only a lowered one goes to the head. *)
Context (Hsame : klass t = rt_class -> klass t' = rt_class -> SchedClass.prio b = prio t -> f_move fl = false).
Context (Hhead : f_head fl = true -> klass t' = rt_class -> prio t < SchedClass.prio b).

(** The running task changes: it stays the best unless it fell behind. *)
Lemma running_best : pid = curr s -> need_resched t = false -> (klass t = dl_class -> klass t' = dl_class) ->
  ~ overdue s1 pid t' (klass t) (prio t) -> best_of s1 pid t'.
Proof.
  intros Hp Hn Hdl Hno. pose proof (inv_best _ H t) as Hbest. rewrite <- Hp in Hbest. specialize (Hbest Ht Hn).
  destruct (inv_curr _ (inv_current _ H)) as (c & Hc & Ho). rewrite <- Hp in Hc. assert (c = t) as -> by congruence.
  assert (tasks s1 !! curr s1 = Some t') as Hc1.
  { change (curr s1) with (curr s). rewrite <- Hp, changed_lookup. by rewrite decide_True. }
  assert (is_queued t = true) as Eq by (by apply bool_decide_eq_true).
  unfold overdue in Hno. change (curr s1) with (curr s) in *. rewrite <- Hp in Hno, Hc1. rewrite Z.eqb_refl in Hno.
  destruct (klass_prio t Hi (inv_base _ (inv_queues _ H) _ _ Ht)) as (_ & _ & _ & Hki).
  destruct (klass_prio t' Hi Hb) as (_ & _ & _ & Hki').
  unfold best_of in *. destruct (class_cases _ Hki') as [Ek'|[Ek'|Ek']]; rewrite Ek'; [done| |].
  - (* real-time *)
    assert (queued dl_class (classes s) = ∅ /\ (forall p, p < SchedClass.prio b -> rt_list (classes s) p = []) /\
            exists q, rt_list (classes s1) (SchedClass.prio b) = pid :: q) as (Hd & Hlow & Hhd).
    2:{ split_and!; [apply class_empty; (done || congruence)|done|]. intros p Hlt. simpl in Hlt.
      apply list_empty; [by apply Hlow|]. right. lia. }
    assert (forall p, rt_list (classes s1) p = list_on s pid t b fl p) as Hl.
    { intros p. change (classes s1) with (on_queue s pid t b fl). rewrite on_lists. by rewrite Eq. }
    assert (f_move fl = true -> rt_list (classes s) (SchedClass.prio b) = [] ->
      rt_list (classes s1) (SchedClass.prio b) = [pid]) as Hone.
    { intros Hm He. rewrite Hl. unfold list_on. rewrite decide_True by done.
      rewrite list_off_nil by done. by destruct (f_head fl). }
    destruct (class_cases _ Hki) as [Ek|[Ek|Ek]]; rewrite Ek in Hbest; [specialize (Hdl Ek); congruence| |].
    + destruct Hbest as (Hd & (q & Hq) & Hlow). split; [done|].
      assert (SchedClass.prio b <= prio t) as Hle.
      { destruct (Z.le_gt_cases (SchedClass.prio b) (prio t)); [done|]. exfalso. apply Hno.
        split; [done|]. exists t'. split; [done|]. rewrite decide_True by congruence. simpl. split_and!; [done|lia..]. }
      split; [intros p Hlt; apply Hlow; lia|].
      destruct (Z.eq_dec (SchedClass.prio b) (prio t)) as [E|E].
      * exists q. rewrite Hl. unfold list_on, list_off. rewrite !decide_False; [by rewrite E| |];
          intros (_ & _ & Hm); rewrite Hsame in Hm; done.
      * exists []. apply Hone; [|apply Hlow; lia]. destruct (f_move fl) eqn:Em; [done|].
        destruct (Hstay eq_refl) as [_ E']; [by left|done].
    + destruct Hbest as (Hd & Hr). split; [done|]. split; [intros; by apply rt_empty|]. exists [].
      apply Hone; [|by apply rt_empty]. destruct (f_move fl) eqn:Em; [done|].
      destruct (Hstay eq_refl) as [E' _]; [by right|congruence].
  - (* fair *)
    destruct (class_cases _ Hki) as [Ek|[Ek|Ek]]; rewrite Ek in Hbest; [specialize (Hdl Ek); congruence| |].
    + exfalso. apply Hno. split; [done|]. exists t'. split; [done|]. rewrite decide_False by congruence. done.
    + destruct Hbest as (Hd & Hr). split; apply class_empty; (done || congruence).
Qed.

(** Another task changes: the running one stays the best unless it is overtaken. *)
Lemma other_best c : pid <> curr s -> tasks s !! curr s = Some c -> need_resched c = false ->
  ~ overdue s1 pid t' (klass t) (prio t) -> best_of s1 (curr s) c.
Proof.
  intros Hp Hc Hn Hno. pose proof (inv_best _ H c Hc Hn) as Hbest.
  assert (tasks s1 !! curr s1 = Some c) as Hc1 by (rewrite changed_lookup; by rewrite decide_False).
  destruct (decide (on_rq t = TASK_ON_RQ_QUEUED)) as [Ho|Ho].
  2:{ assert (is_queued t = false) as Eq by (by apply bool_decide_eq_false).
      assert (forall p, rt_list (classes s1) p = rt_list (classes s) p) as Hl.
      { intros p. change (classes s1) with (on_queue s pid t b fl). rewrite on_lists. by rewrite Eq. }
      assert (forall k, k <> idle_class -> queued k (classes s) = ∅ -> queued k (classes s1) = ∅) as Hq.
      { intros k Hk He. apply set_eq. intros x. split; [|set_solver]. intros Hx.
        change (classes s1) with (on_queue s pid t b fl) in Hx. destruct (decide (x = pid)) as [->|Hx'].
        - by apply (on_queued_self s pid t b fl (inv_queues _ H) (inv_current _ H) Ht Hi Hb Hstay) in Hx as [? _].
        - apply (on_queued_other s pid t b fl (inv_queues _ H) (inv_current _ H) Ht Hi Hb Hstay) in Hx; [set_solver|done..]. }
      unfold best_of in *. destruct (klass c); [done| | |].
      - destruct Hbest as (H1 & (q & H2) & H3). split_and!; [by apply Hq|exists q; by rewrite Hl|].
        intros p Hlt. rewrite Hl. by apply H3.
      - destruct Hbest as (H1 & H2). by split; apply Hq.
      - destruct Hbest as (H1 & H2 & H3). split_and!; by apply Hq. }
  assert (is_queued t = true) as Eq by (by apply bool_decide_eq_true).
  destruct (best_is_best s c pid t H Hc Hbest Ht Ho) as [Hrank Hrt].
  destruct (klass_prio t Hi (inv_base _ (inv_queues _ H) _ _ Ht)) as (Kd & Kr & _).
  assert (~ beats t' c) as Hb'.
  { intros Hbe. apply Hno. split; [done|]. exists c. split; [done|]. change (curr s1) with (curr s).
    rewrite (proj2 (Z.eqb_neq _ _) Hp). destruct (decide (klass t = klass t')) as [E|E]; [|done].
    destruct Hbe as [Hr|(H1 & H2 & H3)]; [rewrite E in Hrank; lia|]. rewrite <- E in H1. specialize (Hrt H1 H2).
    simpl in *. split_and!; [congruence|lia|done]. }
  assert (forall k, rank (klass c) < rank k -> k <> klass t') as Hk.
  { intros k Hk ->. apply Hb'. by left. }
  unfold best_of in *. destruct (klass c) eqn:Ec; [done| | |].
  - destruct Hbest as (Hd & (q & Hq) & Hlow). split_and!; [apply class_empty; by try apply Hk| |].
    + change (classes s1) with (on_queue s pid t b fl). rewrite on_lists, Eq.
      assert (exists q', list_off s pid t fl (prio c) = curr s :: q') as (q' & Hq').
      { unfold list_off. rewrite Hq. case_decide; [|by eexists]. rewrite filter_cons_True by congruence. by eexists. }
      unfold list_on. rewrite Hq'. case_decide as Ed; [|by eexists]. destruct Ed as (E1 & E2 & _).
      destruct (f_head fl); [exfalso|by eexists]. specialize (Hhead eq_refl E1). simpl in E2.
      destruct (klass_prio t' Hi Hb) as (_ & [K _] & _). specialize (K E1). simpl in K.
      destruct (Z.lt_ge_cases (prio t) 0) as [Hneg%Kd|Hnn]; [rewrite Hneg in Hrank; simpl in Hrank; lia|].
      assert (klass t = rt_class) as Hkt by (apply Kr; lia). specialize (Hrt Hkt eq_refl). lia.
    + intros p Hp'. apply list_empty; [by apply Hlow|].
      destruct (decide (klass t' = rt_class)) as [E|E]; [|by left]. right. intros ->. apply Hb'. right. by rewrite E.
  - destruct Hbest as (Hd & Hr). split; apply class_empty; by try apply Hk.
  - destruct Hbest as (Hd & Hr & Hf). split_and!; apply class_empty; by try apply Hk.
Qed.

(** After the hooks the invariant holds again, for the queue as [check_class_changed] leaves it. *)
Lemma change_inv s2 : neutral s1 s2 -> (overdue s1 pid t' (klass t) (prio t) -> flagged s2) ->
  (pid = curr s -> klass t = dl_class -> klass t' = dl_class) -> inv s2.
Proof.
  intros Hn Hf Hdl. pose proof Hn as [Hsim Hcur Hfl].
  pose proof (changed_queues s pid t b fl (inv_queues _ H) (inv_current _ H) Ht Hi Hb Hstay) as Hq1.
  assert (current_ok s1) as Hc1 by (apply changed_current; [apply H|done..]).
  split; [by eapply similar_queues|by eapply neutral_current|].
  rewrite Hcur. intros c2 Hc2 Hn2.
  destruct (similar_task_back _ _ _ _ Hsim Hc2) as (c1 & Hcc & Hsame').
  eapply best_similar; [done..|]. change (curr s1) with (curr s) in *.
  assert (~ overdue s1 pid t' (klass t) (prio t)) as Hno.
  { intros Ho. specialize (Hf Ho c2). rewrite Hcur in Hf. change (curr s1) with (curr s) in Hf. specialize (Hf Hc2). congruence. }
  assert (need_resched c1 = false) as Hn1 by (destruct (Hfl _ _ _ Hcc Hc2) as [E|[_ E]]; congruence).
  rewrite changed_lookup in Hcc. case_decide as E.
  - injection Hcc as <-. rewrite E. apply running_best; auto.
  - apply other_best; auto.
Qed.
End Best.
End Change.
