(* ===== verification/SetPrioEvents.v ===== *)
(** * Priority changes of a queued task: the operations (src/Assignment_4/fifo/core.c)

    nice, sched_setscheduler and rt_mutex_setprio do to the task what SchedClass
    says, put it where it belongs in its queue and keep the invariant of the run
    queue. *)
From Stdlib Require Import ZArith Lia.
From stdpp Require Import gmap.
From S2P Require Import Prelude CLib SchedInfo SchedClass SchedClassTheorems RunQueue RunQueueInv RunQueueSched RunQueueEvents SetPrio SetPrioInv.
Import RunQueue SetPrio.

Local Open Scope Z_scope.

(** The place of a task whose priority becomes [new]: unchanged, the head of its
    new list when lowered, the end when raised. *)
Definition placed (l : Z -> list Z) (pid old new p : Z) : list Z :=
  if decide (new = old) then l p
  else if decide (p = new) then (if decide (old < new) then pid :: l p else l p ++ [pid])
  else if decide (p = old) then filter (fun x => x <> pid) (l p) else l p.

Section Operations.
Context `{h : headers} {hok : headers_ok h} {sc : sched_classes} {pc : prio_classes}.
Context {idle : Z} {ok : sched_classes_ok sc idle} {rok : rt_ok sc idle ok} {pok : prio_classes_ok pc rok}.
Context (reweight : Z -> res SchedClass.load_weight).
Hypothesis reweight_table : forall i, reweight i =
  (w ← aget SchedClass.sched_prio_to_weight i; v ← aget SchedClass.sched_prio_to_wmult i;
   Ok (SchedClass.mk_load (scale_load w) v)).
Local Abbreviation prio t := (SchedClass.prio (base t)).

(** What an operation makes of the run queue when the task [t] gets the parameters [b]. *)
Record outcome (s s' : rq) (pid : Z) (t : task) (b : SchedClass.task) : Prop := {
  oc_curr : curr s' = curr s;
  oc_task : exists t', tasks s' !! pid = Some t' /\ base t' = b /\ is_idle t' = is_idle t /\ on_rq t' = on_rq t;
  oc_others i u : i <> pid -> tasks s !! i = Some u -> exists u', tasks s' !! i = Some u' /\ same_task u u';
  oc_lists p : klass t = rt_class -> SchedClass.class b = SchedClass.rt_sched_class ->
    on_rq t = TASK_ON_RQ_QUEUED ->
    rt_list (classes s') p = placed (rt_list (classes s)) pid (prio t) (SchedClass.prio b) p;
  oc_inv : leaves_dl s s' = false -> inv s'
}.

(** ** Changes that leave class and priority alone *)
Definition plain (s : rq) (pid : Z) (t : task) (b : SchedClass.task) : rq :=
  set_tasks s (<[pid := put_base t b]> (tasks s)).
Lemma change_base_eq s pid t b : tasks s !! pid = Some t -> change_base s pid b = Ok (plain s pid t b).
Proof. intros Ht. unfold change_base, update, the_task. by rewrite Ht. Qed.

Section Plain.
Context (s : rq) (pid : Z) (t : task) (b : SchedClass.task).
Context (H : inv s) (Ht : tasks s !! pid = Some t) (Hi : is_idle t = false) (Hb : base_ok b).
Context (Hc : SchedClass.class b = SchedClass.class (base t)) (Hp : SchedClass.prio b = prio t).

Lemma plain_lookup i u : tasks (plain s pid t b) !! i = Some u -> exists u0, tasks s !! i = Some u0 /\
  klass u = klass u0 /\ prio u = prio u0 /\ is_idle u = is_idle u0 /\ on_rq u = on_rq u0 /\
  state u = state u0 /\ need_resched u = need_resched u0 /\ (base_ok (base u0) -> base_ok (base u)).
Proof.
  simpl. intros [[<- <-]|[_ Hu]]%lookup_insert_Some; [|by exists u]. exists t.
  split_and!; try done. unfold klass. simpl. by rewrite Hc.
Qed.
Lemma plain_back i u0 : tasks s !! i = Some u0 -> exists u, tasks (plain s pid t b) !! i = Some u /\
  klass u = klass u0 /\ prio u = prio u0 /\ is_idle u = is_idle u0 /\ on_rq u = on_rq u0 /\
  state u = state u0 /\ need_resched u = need_resched u0.
Proof.
  intros Hu. simpl. destruct (decide (i = pid)) as [->|Hne].
  - rewrite lookup_insert_eq. simplify_eq. eexists. split; [done|]. unfold klass. simpl. by rewrite Hc.
  - rewrite lookup_insert_ne by done. by exists u0.
Qed.
Lemma plain_inv : inv (plain s pid t b).
Proof.
  destruct H as [Hq Hcur Hbest]. split.
  - split.
    + destruct (inv_idle _ Hq) as (u & Hu & H1 & H2 & H3).
      destruct (plain_back _ _ Hu) as (u' & Hu' & _ & _ & E1 & E2 & E3 & _). exists u'. by rewrite E1, E2, E3.
    + intros i u Hu. destruct (plain_lookup _ _ Hu) as (u0 & Hu0 & _ & _ & _ & _ & _ & _ & Hok).
      by apply Hok, (inv_base _ Hq i).
    + intros i u Hu Hne. destruct (plain_lookup _ _ Hu) as (u0 & Hu0 & -> & _ & -> & -> & _).
      by apply (inv_tasks _ Hq).
    + intros c i Hci Hin. destruct (inv_queued _ Hq _ _ Hci Hin) as (u & Hu & H1 & H2).
      destruct (plain_back _ _ Hu) as (u' & Hu' & E1 & _ & _ & E2 & _). exists u'. by rewrite E1, E2.
    + intros i p Hin. destruct (inv_lists _ Hq _ _ Hin) as (u & Hu & H1).
      destruct (plain_back _ _ Hu) as (u' & Hu' & _ & E & _). exists u'. by rewrite E.
    + apply (inv_nodup _ Hq).
  - split.
    + destruct (inv_curr _ Hcur) as (u & Hu & H1). destruct (plain_back _ _ Hu) as (u' & Hu' & _ & _ & _ & E & _).
      exists u'. by rewrite E.
    + intros i u Hu. destruct (plain_lookup _ _ Hu) as (u0 & Hu0 & _ & _ & _ & _ & _ & -> & _).
      by apply (inv_resched _ Hcur).
  - intros u Hu. destruct (plain_lookup _ _ Hu) as (u0 & Hu0 & E1 & E2 & _ & _ & _ & -> & _). intros Hn.
    specialize (Hbest _ Hu0 Hn). unfold best_of in *. by rewrite E1, E2.
Qed.
Lemma plain_outcome : outcome s (plain s pid t b) pid t b.
Proof.
  split; [done| | | |by intros; apply plain_inv].
  - exists (put_base t b). simpl. by rewrite lookup_insert_eq.
  - intros i u Hne Hu. exists u. simpl. by rewrite lookup_insert_ne.
  - intros p _ _ _. unfold placed. by rewrite decide_True.
Qed.
End Plain.
Lemma no_outcome s pid t : inv s -> tasks s !! pid = Some t -> outcome s s pid t (base t).
Proof.
  intros H Ht. split; [done|by exists t|by intros i u _ Hu; exists u| |done].
  intros p _ _ _. unfold placed. by rewrite decide_True.
Qed.

(** ** Off the queue and back *)
Lemma take_off_eq s pid t fl : tasks s !! pid = Some t ->
  take_off s pid (f_move fl) = Ok (set_classes s (off_queue s pid t fl), is_queued t, (pid =? curr s)%c).
Proof. intros Ht. unfold take_off, the_task. by rewrite Ht. Qed.
Lemma put_back_eq s pid t b fl : tasks s !! pid = Some t ->
  put_back (plain (set_classes s (off_queue s pid t fl)) pid t b) pid (is_queued t) (pid =? curr s)%c fl =
  Ok (changed s pid t b fl).
Proof. intros Ht. unfold put_back, the_task. simpl. by rewrite lookup_insert_eq. Qed.

Section Requeued.
Context (s s2 : rq) (pid : Z) (t : task) (b : SchedClass.task) (fl : queue_flags).
Local Abbreviation t' := (put_base t b).
Local Abbreviation s1 := (changed s pid t b fl).
Context (H : inv s) (Ht : tasks s !! pid = Some t) (Hi : is_idle t = false) (Hb : base_ok b).
Context (Hstay : f_move fl = false -> klass t = rt_class \/ klass t' = rt_class -> SchedClass.prio b = prio t).
Context (Hsame : klass t = rt_class -> klass t' = rt_class -> SchedClass.prio b = prio t -> f_move fl = false).
Context (Hhead : klass t' = rt_class -> f_move fl = true -> f_head fl = (prio t <? SchedClass.prio b)%c).
Context (Hhead' : f_head fl = true -> f_move fl = true).
Context (Hn : neutral s1 s2) (Hf : overdue s1 pid t' (klass t) (prio t) -> flagged s2).

Lemma requeued_stay : f_move fl = false -> klass t = rt_class \/ klass t' = rt_class ->
  klass t' = klass t /\ SchedClass.prio b = prio t.
Proof.
  intros Hm Hk. pose proof (Hstay Hm Hk) as E. split; [|done].
  assert (base_ok (base t)) as (_ & Hct & _) by by apply (inv_base _ (inv_queues _ H) pid).
  pose proof Hb as (_ & Hcb & _). unfold klass. simpl. by rewrite Hi, Hct, Hcb, E.
Qed.
Lemma requeued_lists p : klass t = rt_class -> klass t' = rt_class -> on_rq t = TASK_ON_RQ_QUEUED ->
  rt_list (classes s2) p = placed (rt_list (classes s)) pid (prio t) (SchedClass.prio b) p.
Proof.
  intros Hk Hk' Ho. rewrite (sim_lists _ _ (neu_similar _ _ Hn)). change (classes s1) with (on_queue s pid t b fl).
  rewrite on_lists. assert (is_queued t = true) as -> by (by apply bool_decide_eq_true).
  unfold placed, list_on, list_off. simpl. specialize (Hhead Hk').
  destruct (decide (SchedClass.prio b = prio t)) as [E|E].
  { specialize (Hsame Hk Hk' E). rewrite !decide_False; [done| |]; intros (_ & _ & Hm); congruence. }
  assert (f_move fl = true) as Hm by (destruct (f_move fl); [done|]; destruct E; auto).
  rewrite (Hhead Hm). destruct (decide (p = SchedClass.prio b)) as [->|Hp].
  - rewrite decide_True by done. rewrite decide_False by tauto.
    destruct (Z.ltb_spec (prio t) (SchedClass.prio b)); [by rewrite decide_True|by rewrite decide_False by lia].
  - rewrite decide_False by tauto. destruct (decide (p = prio t)); [by rewrite decide_True|by rewrite decide_False by tauto].
Qed.
Lemma requeued_outcome : outcome s s2 pid t b.
Proof.
  pose proof Hn as [Hsim Hcur Hfl].
  assert (tasks s1 !! pid = Some t') as Ht1 by (rewrite changed_lookup; by rewrite decide_True).
  destruct (similar_task _ _ _ _ Hsim Ht1) as (t2 & Ht2 & Hs2). split; [done| | | |].
  - exists t2. split; [done|]. by destruct Hs2 as (-> & -> & -> & _).
  - intros i u Hne Hu. apply (similar_task s1); [done|]. rewrite changed_lookup. by rewrite decide_False.
  - intros p Hk Hc. apply requeued_lists; [done|]. unfold klass. simpl. by rewrite Hi, Hc.
  - intros Hl. apply (change_inv s pid t b fl H Ht Hi Hb requeued_stay Hsame) with (s2 := s2); [|done|done|].
    + intros Hh Hk. specialize (Hhead Hk (Hhead' Hh)). rewrite Hh in Hhead. symmetry in Hhead. by apply Z.ltb_lt in Hhead.
    + intros Hp Hk. unfold leaves_dl in Hl.
      rewrite <- Hp, Ht, Ht2 in Hl. apply bool_decide_eq_false in Hl. rewrite (same_klass _ _ Hs2) in Hl.
      destruct (decide (klass t' = dl_class)); [done|]. destruct Hl; auto.
Qed.
End Requeued.

(** ** nice *)
Lemma class_of_prio b : base_ok b -> SchedClass.class b = SchedClass.rt_sched_class -> SchedClass.prio b < 100.
Proof.
  intros (_ & Hc & _) Hr. destruct (Z.lt_ge_cases (SchedClass.prio b) 100) as [|Hge]; [done|].
  rewrite Hc, class_of_fair in Hr by done. done.
Qed.

Lemma nice_base b nice : base_ok b -> -20 <= nice <= 19 ->
  SchedClass.task_has_dl_policy b = false -> SchedClass.task_has_rt_policy b = false ->
  exists l, let bl := SchedClass.set_load (SchedClass.set_static_prio b (NICE_TO_PRIO nice)) l in
    let b' := SchedClass.set_prio (SchedClass.effective_prio bl).1 (SchedClass.effective_prio bl).2 in
    SchedClass.set_load_weight reweight (SchedClass.set_static_prio b (NICE_TO_PRIO nice)) true = Ok bl /\
    base_ok b' /\ SchedClass.class b' = SchedClass.class b /\
    (SchedClass.class b = SchedClass.rt_sched_class -> SchedClass.prio b' = SchedClass.prio b).
Proof.
  intros Hb Hn Hd Hr. pose proof (class_of_prio b Hb) as Hlt. destruct Hb as (Hs & Hc & H9 & Hn9 & Hdl).
  destruct (set_load_weight_ok reweight reweight_table (SchedClass.set_static_prio b (NICE_TO_PRIO nice)) true)
    as [l Hl]; [simpl; rewrite nice_prio; lia|]. exists l. cbv zeta. split; [done|].
  destruct prio_values as (_ & Hrt & _).
  unfold SchedClass.effective_prio, SchedClass.normal_prio, SchedClass.task_has_dl_policy,
    SchedClass.task_has_rt_policy, SchedClass.__normal_prio in *. simpl. rewrite Hd, Hr, nice_prio, rt_prio_def, Hrt. split; [|split].
  - unfold base_ok. simpl. rewrite ?nice_prio, Hd. destruct (Z.ltb_spec (SchedClass.prio b) 100); cbn [negb];
      (split_and!; try done; try lia). rewrite Hc, !class_of_fair by lia. done.
  - done.
  - intros Hk. by rewrite (proj2 (Z.ltb_lt _ _) (Hlt Hk)).
Qed.

Lemma set_user_nice_spec s pid t nice : inv s -> tasks s !! pid = Some t -> is_idle t = false ->
  exists s' b, SchedClass.set_user_nice reweight (base t) nice = Ok b /\
    set_user_nice reweight s pid nice = Ok s' /\ outcome s s' pid t b.
Proof.
  intros H Ht Hi. pose proof (inv_base _ (inv_queues _ H) _ _ Ht) as Hb.
  unfold set_user_nice, SchedClass.set_user_nice, the_task. rewrite Ht. cbn [of_option mbind res_bind].
  destruct (_ || (MAX_NICE <? nice)%c)%bool eqn:En; [eexists _, _; split_and!; [done..|by apply no_outcome]|].
  apply orb_false_elim in En as [En En3%Z.ltb_ge]. apply orb_false_elim in En as [_ En2%Z.ltb_ge].
  destruct nice_values as (Hmin & Hmax & _). rewrite Hmin in En2. rewrite Hmax in En3.
  destruct (SchedClass.task_has_dl_policy (base t) || SchedClass.task_has_rt_policy (base t))%bool eqn:Ep.
  { rewrite (change_base_eq _ _ t) by done. eexists _, _. split_and!; [done..|].
    apply plain_outcome; try done. destruct Hb as (H2 & H3). unfold base_ok. simpl. rewrite nice_prio.
    split_and!; [lia..|by apply H3|by apply H3|by apply H3|by apply H3]. }
  apply orb_false_elim in Ep as [Hd Hr].
  destruct (nice_base (base t) nice Hb) as (l & Hl & Hb' & Hc & Hp); [lia|done..|].
  pose proof (take_off_eq s pid t (mk_flags false false false) Ht) as Eoff. cbn [f_move] in Eoff. rewrite Eoff.
  cbn [mbind res_bind]. rewrite Hl. cbn [mbind res_bind].
  set (bl := SchedClass.set_load _ l) in *. destruct (SchedClass.effective_prio bl) as [b v] eqn:Ee. simpl in Hb', Hc, Hp.
  rewrite (change_base_eq _ _ t) by done. cbn [mbind res_bind].
  rewrite put_back_eq by done. cbn [mbind res_bind].
  set (b' := SchedClass.set_prio b v) in *. set (s1 := changed _ _ _ _ _).
  assert (current_ok s1) as Hc1 by (apply changed_current; [apply H|done..]).
  assert (tasks s1 !! pid = Some (put_base t b')) as Ht1 by (unfold s1; rewrite changed_lookup; by rewrite decide_True).
  destruct (class_hook_spec (class_prio_changed (klass t) (SchedClass.prio bl)) s1 pid _ Hc1 Ht1) as (s2 & -> & Hn & _);
    [intros; apply prio_changed_same|].
  exists s2, b'. split_and!; [done..|].
  assert (klass (put_base t b') = klass t) as Hk by (unfold klass; simpl; by rewrite Hc).
  assert (klass t = rt_class -> SchedClass.prio b' = prio t) as Hpr.
  { intros Hkt. apply Hp. unfold klass in Hkt. rewrite Hi in Hkt. by destruct (SchedClass.class (base t)). }
  apply (requeued_outcome s s2 pid t b' (mk_flags false false false)); try done.
  - intros _ Hor. apply Hpr. rewrite Hk in Hor. tauto.
  - intros (_ & c & _ & Ho). rewrite decide_True in Ho by done. destruct Ho as (Hkr & Hne & _).
    destruct Hne. apply Hpr. congruence.
Qed.

(** ** sched_setscheduler *)
Definition the_policy (b : SchedClass.task) (attr : SchedClass.sched_attr) : Z :=
  if (s32 (SchedClass.sched_policy attr) =? SchedClass.SETPARAM_POLICY)%c then SchedClass.policy b
  else s32 (SchedClass.sched_policy attr).

Lemma setscheduler_base b attr : base_ok b -> attr_ok attr -> SchedClass.sched_priority attr <= 99 ->
  (rt_policy (the_policy b attr) = true <-> SchedClass.sched_priority attr <> 0) ->
  SchedClass.flag attr SCHED_FLAG_KEEP_PARAMS = false ->
  SchedClass.pi_top b <> Some 99 ->
  let eff := SchedClass.rt_effective_prio b (newprio attr) in
  exists b', SchedClass.__setscheduler reweight b attr true = Ok b' /\ base_ok b' /\
    (eff = SchedClass.prio b -> SchedClass.prio b' = SchedClass.prio b) /\
    (SchedClass.prio b' = SchedClass.prio b -> 0 <= SchedClass.prio b < 100 -> eff = SchedClass.prio b).
Proof.
  intros (Hs & Hc & H9 & Hn9 & Hdl) Ha H99 Hrt Hk Htop eff.
  destruct (setscheduler_params_ok reweight reweight_table b attr (the_policy b attr))
    as (q & Hq & Q1 & Q2 & Q3 & Q4 & Q5 & Q6); [done..|].
  unfold SchedClass.__setscheduler. rewrite Hk, Hq. cbn [mbind res_bind]. eexists. split; [done|].
  destruct prio_values as (Vdl & Vrt & _).
  assert (SchedClass.normal_prio q = if dl_policy (the_policy b attr) then -1
    else if rt_policy (the_policy b attr) then 99 - SchedClass.sched_priority attr else SchedClass.static_prio q) as Hnp.
  { unfold SchedClass.normal_prio, SchedClass.task_has_dl_policy, SchedClass.task_has_rt_policy.
    by rewrite Q1, Q4, Vdl, Vrt. }
  assert (newprio attr = if dl_policy (s32 (SchedClass.sched_policy attr)) then -1 else 99 - SchedClass.sched_priority attr)
    as Hnew by (unfold newprio; by rewrite Vdl, Vrt).
  assert (dl_policy (s32 (SchedClass.sched_policy attr)) = true -> dl_policy (the_policy b attr) = true) as Hd1.
  { unfold the_policy. destruct (Z.eqb_spec (s32 (SchedClass.sched_policy attr)) SchedClass.SETPARAM_POLICY) as [E|E]; [|done].
    rewrite E, dl_policy_def. pose proof policies_small as Hsm. rewrite !Forall_cons in Hsm. intros Hd%Z.eqb_eq.
    unfold SchedClass.SETPARAM_POLICY in Hd. lia. }
  assert (dl_policy (the_policy b attr) = true -> dl_policy (s32 (SchedClass.sched_policy attr)) = false ->
    SchedClass.prio b < 0) as Hd2.
  { unfold the_policy. destruct (Z.eqb_spec (s32 (SchedClass.sched_policy attr)) SchedClass.SETPARAM_POLICY);
      [intros Hd _; by apply Hdl|congruence]. }
  assert (rt_policy (the_policy b attr) = true -> 1 <= SchedClass.sched_priority attr) as Hr1.
  { intros Hr%Hrt. destruct Ha as (_ & _ & Ha). lia. }
  assert (rt_policy (the_policy b attr) = false -> SchedClass.sched_priority attr = 0) as Hr0.
  { intros Hr. destruct (Z.eq_dec (SchedClass.sched_priority attr) 0) as [|Hne]; [done|]. apply Hrt in Hne. congruence. }
  assert (forall top, SchedClass.pi_top b = Some top -> top <> 99) as Ht9 by (intros top E ->; by rewrite E in Htop).
  unfold base_ok, eff, SchedClass.rt_effective_prio. simpl. rewrite Q1, Q3, Q5, Hnp, Hnew.
  destruct (dl_policy (the_policy b attr)) eqn:Ed.
  - specialize (Hd2 eq_refl). destruct (dl_policy (s32 (SchedClass.sched_policy attr))) eqn:Ed';
      [|specialize (Hd2 eq_refl)]; destruct (SchedClass.pi_top b) as [top|]; split_and!; try done; lia.
  - destruct (dl_policy (s32 (SchedClass.sched_policy attr))); [by specialize (Hd1 eq_refl)|].
    destruct (rt_policy (the_policy b attr)); [specialize (Hr1 eq_refl)|rewrite (Hr0 eq_refl)];
      (destruct (SchedClass.pi_top b) as [top|]; [specialize (Ht9 top eq_refl)|]); split_and!; try done; lia.
Qed.

Lemma do_change_spec s pid t reset attr : inv s -> tasks s !! pid = Some t -> is_idle t = false ->
  attr_ok attr -> SchedClass.sched_priority attr <= 99 ->
  (rt_policy (the_policy (base t) attr) = true <-> SchedClass.sched_priority attr <> 0) ->
  SchedClass.flag attr SCHED_FLAG_KEEP_PARAMS = false ->
  SchedClass.pi_top (base t) <> Some 99 ->
  let b0 := SchedClass.set_reset (base t) reset in
  exists s' b, SchedClass.__setscheduler reweight b0 attr true = Ok b /\
    do_change reweight s pid t b0 attr = Ok s' /\ outcome s s' pid t b.
Proof.
  intros H Ht Hi Ha H99 Hrt Hk Htop b0. pose proof (inv_base _ (inv_queues _ H) _ _ Ht) as Hb.
  destruct (setscheduler_base b0 attr) as (b & Es & Hb' & E1 & E2); [done..|]. cbv zeta in E1, E2.
  unfold do_change. set (move := negb (_ =? _)%c).
  set (fl := mk_flags move (SchedClass.prio b0 <? SchedClass.prio b)%c false).
  pose proof (take_off_eq s pid t fl Ht) as Eoff. cbn [f_move fl] in Eoff. rewrite Eoff, Es. cbn [mbind res_bind].
  rewrite (change_base_eq _ _ t) by done. cbn [mbind res_bind]. fold fl. rewrite put_back_eq by done. cbn [mbind res_bind].
  set (s1 := changed _ _ _ _ _).
  assert (current_ok s1) as Hc1 by (apply changed_current; [apply H|done..]).
  assert (tasks s1 !! pid = Some (put_base t b)) as Ht1 by (unfold s1; rewrite changed_lookup; by rewrite decide_True).
  destruct (class_changed_spec s1 pid _ (klass t) (SchedClass.prio b0) Hc1 Ht1) as (s2 & -> & Hn & Hf).
  exists s2, b. split_and!; [done..|].
  assert (move = false <-> SchedClass.rt_effective_prio b0 (newprio attr) = prio t) as Hmv.
  { unfold move. rewrite negb_false_iff, Z.eqb_eq. done. }
  apply (requeued_outcome s s2 pid t b fl); try done.
  - intros Hm _. by apply E1, Hmv.
  - intros Hkr _ Hp. apply Hmv, E2; [done|]. by apply (klass_prio t).
  - intros Hh. destruct (f_move fl) eqn:Em; [done|]. apply Hmv, E1 in Em. simpl in Hh.
    apply Z.ltb_lt in Hh. change (SchedClass.prio b0) with (prio t) in *. lia.
Qed.

Lemma sched_setscheduler_spec s pid t e attr user : inv s -> tasks s !! pid = Some t -> is_idle t = false ->
  attr_ok attr -> SchedClass.flag attr SCHED_FLAG_KEEP_PARAMS = false -> SchedClass.pi_top (base t) <> Some 99 ->
  exists r s' b, SchedClass.__sched_setscheduler reweight e (base t) attr user = Ok (r, b) /\
    __sched_setscheduler reweight s pid e attr user = Ok (r, s') /\ outcome s s' pid t b.
Proof.
  intros H Ht Hi Ha Hk Htop. pose proof (inv_base _ (inv_queues _ H) _ _ Ht) as Hb.
  unfold __sched_setscheduler, SchedClass.__sched_setscheduler, the_task. rewrite Ht. cbn [of_option mbind res_bind].
  assert (exists pol reset, (if (s32 (SchedClass.sched_policy attr) <? 0)%c
    then (SchedClass.policy (base t), SchedClass.reset_on_fork (base t))
    else (s32 (SchedClass.sched_policy attr), SchedClass.flag attr SCHED_FLAG_RESET_ON_FORK)) = (pol, reset) /\
    pol = the_policy (base t) attr) as (pol & reset & -> & Hpol).
  { destruct Ha as (Ha & _). unfold the_policy, SchedClass.SETPARAM_POLICY.
    destruct (Z.ltb_spec (s32 (SchedClass.sched_policy attr)) 0), (Z.eqb_spec (s32 (SchedClass.sched_policy attr)) (-1));
      try lia; eauto. }
  destruct (Z.eqb_spec (SchedClass.setscheduler_checks e (base t) attr user pol reset) 0) as [Ec|Ec]; cbn [negb].
  2:{ eexists _, s, _. split_and!; [done..|by apply no_outcome]. }
  apply checks_pass in Ec as (_ & H99 & Hrt).
  destruct (SchedClass.is_stop e); [eexists _, s, _; split_and!; [done..|by apply no_outcome]|].
  destruct (negb (SchedClass.changes _ _ _ _)).
  { rewrite (change_base_eq _ _ t) by done. cbn [mbind res_bind]. eexists _, _, _. split_and!; [done..|].
    by apply plain_outcome. }
  destruct (user && _)%bool; [eexists _, s, _; split_and!; [done..|by apply no_outcome]|].
  destruct (_ && SchedClass.sched_dl_overflow e)%bool; [eexists _, s, _; split_and!; [done..|by apply no_outcome]|].
  subst pol. destruct (do_change_spec s pid t reset attr) as (s' & b & -> & -> & Ho); [done..|].
  cbn [mbind res_bind]. by exists 0, s', b.
Qed.

(** The waiter of highest priority is read first: nothing moves yet. *)
Lemma outcome_after_plain s s' pid t b b' : inv s -> tasks s !! pid = Some t -> is_idle t = false -> base_ok b ->
  SchedClass.class b = SchedClass.class (base t) -> SchedClass.prio b = prio t ->
  outcome (plain s pid t b) s' pid (put_base t b) b' -> outcome s s' pid t b'.
Proof.
  intros H Ht Hi Hb Hc Hp [O1 O2 O3 O4 O5].
  assert (klass (put_base t b) = klass t) as Hk by (unfold klass; simpl; by rewrite Hc).
  split; [done|done| | |].
  - intros i u Hne Hu. apply O3; [done|]. simpl. by rewrite lookup_insert_ne.
  - intros p Hkt Hcb Ho. rewrite O4 by (done || congruence). simpl. by rewrite Hp.
  - intros Hl. apply O5. unfold leaves_dl in *. change (curr (plain s pid t b)) with (curr s).
    destruct (tasks s !! curr s) as [c|] eqn:Ec.
    + destruct (plain_back s pid t b Ht Hc Hp _ _ Ec) as (c' & -> & -> & _). done.
    + destruct (tasks (plain s pid t b) !! curr s) as [c|] eqn:Ec'; [|done].
      destruct (plain_lookup s pid t b Ht Hb Hc Hp _ _ Ec') as (c' & Hc' & _). congruence.
Qed.

(** Requests that keep the parameters are left out (see [keep_params_loses_turn] in
    SetPrioProps), and no donor has the priority 99, which belongs to no task. *)
Definition prio_event_ok (e : prio_event) : Prop :=
  match e with
  | Sched e => event_ok e
  | SetScheduler _ top _ attr _ => attr_ok attr /\ SchedClass.flag attr SCHED_FLAG_KEEP_PARAMS = false /\ top <> Some 99
  | _ => True
  end.

(** The run queue after sched_setscheduler, the waiter's priority as it was then. *)
Lemma set_scheduler_spec s pid t top e attr user : inv s -> tasks s !! pid = Some t -> is_idle t = false ->
  prio_event_ok (SetScheduler pid top e attr user) ->
  exists r s' b, SchedClass.__sched_setscheduler reweight e (set_pi_top (base t) top) attr user = Ok (r, b) /\
    set_scheduler reweight s pid top e attr user = Ok (r, s') /\ outcome s s' pid t b.
Proof.
  intros H Ht Hi (Ha & Hk & Htop). pose proof (inv_base _ (inv_queues _ H) _ _ Ht) as Hb.
  unfold set_scheduler, the_task. rewrite Ht. cbn [of_option mbind res_bind].
  rewrite (change_base_eq _ _ t) by done. cbn [mbind res_bind]. set (b0 := set_pi_top (base t) top).
  destruct (sched_setscheduler_spec (plain s pid t b0) pid (put_base t b0) e attr user) as (r & s' & b & E1 & E2 & Ho);
    [by apply plain_inv|apply lookup_insert_eq|done..|].
  exists r, s', b. split_and!; [done|done|]. by apply (outcome_after_plain s s' pid t b0 b).
Qed.

(** ** Priority inheritance *)
Context (dl_entity_preempt : Z -> Z -> bool).
Definition donor (s : rq) (pi_task : option Z) : option (option Z) :=
  match pi_task with None => Some None | Some d => t ← tasks s !! d; Some (Some (prio t)) end.

Lemma rt_mutex_setprio_spec s pid t pi_task top : inv s -> tasks s !! pid = Some t -> is_idle t = false ->
  donor s pi_task = Some top ->
  let b := set_pi_top (base t) top in
  let v := SchedClass.rt_effective_prio b (SchedClass.normal_prio_ (base t)) in
  exists s', rt_mutex_setprio dl_entity_preempt s pid pi_task = Ok s' /\
    outcome s s' pid t (SchedClass.set_prio (SchedClass.set_class b (SchedClass.class_of v)) v).
Proof.
  intros H Ht Hi Hd b v. pose proof (inv_base _ (inv_queues _ H) _ _ Ht) as Hb.
  assert (match pi_task with None => Ok None | Some d => t ← the_task s d; Ok (Some (prio t)) end = Ok top) as Etop.
  { unfold donor in Hd. destruct pi_task as [d|]; [|by simplify_eq]. unfold the_task.
    destruct (tasks s !! d); simpl in *; by simplify_eq. }
  assert (forall q, top = Some q -> q <> 99) as Htop.
  { unfold donor in Hd. intros q ->. destruct pi_task as [d|]; [|done].
    destruct (tasks s !! d) as [td|] eqn:Etd; [|done]. injection Hd as <-. by apply (inv_base _ (inv_queues _ H) d). }
  assert (the_task s pid = Ok t) as Et by (unfold the_task; by rewrite Ht).
  unfold rt_mutex_setprio. rewrite Et. cbn [mbind res_bind]. rewrite Etop. cbn [mbind res_bind]. fold b. fold v.
  rewrite (change_base_eq _ _ t) by done. cbn [mbind res_bind].
  assert (base_ok b) as Hb1 by done.
  assert (v <> 99) as Hv.
  { unfold v, SchedClass.rt_effective_prio. destruct Hb as (_ & _ & _ & H9 & _).
    simpl. destruct top as [q|]; [|done]. specialize (Htop q eq_refl). lia. }
  destruct ((v =? prio t)%c && negb (dl_prio v))%bool eqn:Ev.
  { apply andb_prop in Ev as [Ev%Z.eqb_eq _]. eexists. split; [done|].
    assert (SchedClass.set_prio (SchedClass.set_class b (SchedClass.class_of v)) v = b) as ->.
    { rewrite Ev. destruct Hb as (_ & <- & _). done. }
    by apply plain_outcome. }
  rewrite Hi. set (b' := SchedClass.set_prio _ v). set (s0 := plain s pid t b). set (t0 := put_base t b).
  assert (tasks s0 !! pid = Some t0) as Ht0 by apply lookup_insert_eq.
  assert (inv s0) as H0 by (by apply plain_inv).
  assert (base_ok b') as Hb'.
  { destruct Hb as (B2 & B3 & B4 & B5 & B6). unfold base_ok. simpl. split_and!; try done; try lia.
    intros Hdl. destruct (B6 Hdl) as [_ Hneg]. split; [|done]. unfold v, SchedClass.rt_effective_prio.
    simpl. destruct top; lia. }
  set (fl := mk_flags (negb (prio t =? v)%c) (negb (dl_prio v) && rt_prio v && (prio t <? v)%c)%bool _).
  pose proof (take_off_eq s0 pid t0 fl Ht0) as Eoff. cbn [f_move fl] in Eoff. rewrite Eoff. cbn [mbind res_bind].
  rewrite (change_base_eq _ _ t0) by done. cbn [mbind res_bind]. fold fl.
  rewrite (put_back_eq s0 pid t0 b' fl) by done. cbn [mbind res_bind].
  set (s1 := changed _ _ _ _ _).
  assert (current_ok s1) as Hc1 by (apply changed_current; [apply H0|done..]).
  assert (tasks s1 !! pid = Some (put_base t0 b')) as Ht1 by (unfold s1; rewrite changed_lookup; by rewrite decide_True).
  destruct (class_changed_spec s1 pid _ (klass t) (prio t) Hc1 Ht1) as (s2 & -> & Hn & Hf).
  exists s2. split; [done|]. apply (outcome_after_plain s s2 pid t b b'); try done. fold s0 t0.
  apply (requeued_outcome s0 s2 pid t0 b' fl); try done.
  - intros Hm%negb_false_iff%Z.eqb_eq _. simpl. done.
  - intros _ _ Hp. apply negb_false_iff, Z.eqb_eq. done.
  - intros Hk _. simpl. apply (klass_prio (put_base t0 b')) in Hk; [|done|done]. simpl in Hk.
    destruct prio_values as (Vdl & Vrt & _). rewrite dl_prio_def, rt_prio_def, Vdl, Vrt.
    rewrite (proj2 (Z.ltb_ge v 0)), (proj2 (Z.ltb_lt v 100)) by lia. done.
  - simpl. intros [_ Hlt%Z.ltb_lt]%andb_prop. apply negb_true_iff, Z.eqb_neq. lia.
Qed.

(** ** Events *)
Lemma change_event_spec s pid o r : inv s ->
  (forall t, tasks s !! pid = Some t -> is_idle t = false -> exists s' b, o = Ok s' /\ outcome s s' pid t b) ->
  change_event s pid o = Some r -> exists s', r = Ok s' /\ inv s'.
Proof.
  intros H Ho. unfold change_event. destruct (tasks s !! pid) as [t|] eqn:Ht; [|done]. cbn [mbind option_bind].
  destruct (is_idle t) eqn:Hi; [done|]. destruct (Ho t eq_refl Hi) as (s' & b & -> & Hout).
  destruct (leaves_dl s s') eqn:El; [done|]. intros [= <-]. exists s'. split; [done|]. by apply (oc_inv _ _ _ _ _ Hout).
Qed.

Lemma prio_exec_spec s e r : inv s -> prio_event_ok e -> SetPrio.exec reweight dl_entity_preempt s e = Some r ->
  exists s', r = Ok s' /\ inv s'.
Proof.
  intros H He. destruct e as [e|pid nice|pid top env attr user|pid pi_task]; simpl.
  - intros E. destruct (exec_spec reweight s e r H He E) as (s' & -> & H' & _). by exists s'.
  - apply change_event_spec; [done|]. intros t Ht Hi.
    destruct (set_user_nice_spec s pid t nice H Ht Hi) as (s' & b & _ & E & Ho). eauto.
  - apply change_event_spec; [done|]. intros t Ht Hi.
    destruct (set_scheduler_spec s pid t top env attr user H Ht Hi He) as (rv & s' & b & _ & E & Ho).
    exists s', b. by rewrite E.
  - destruct (exists_donor s pi_task) eqn:Ed; [|done]. apply change_event_spec; [done|]. intros t Ht Hi.
    assert (exists top, donor s pi_task = Some top) as (top & Hd).
    { unfold donor. destruct pi_task as [d|]; [|eauto]. apply bool_decide_eq_true in Ed as [u Hu].
      rewrite Hu. simpl. eauto. }
    destruct (rt_mutex_setprio_spec s pid t pi_task top H Ht Hi Hd) as (s' & E & Ho). eauto.
Qed.
Lemma prio_exec_all_inv es : forall s r, inv s -> Forall prio_event_ok es ->
  SetPrio.exec_all reweight dl_entity_preempt s es = Some r -> exists s', r = Ok s' /\ inv s'.
Proof.
  induction es as [|e es IH]; intros s r H He; simpl.
  - intros [= <-]. by exists s.
  - apply Forall_cons in He as [He Hes]. destruct (SetPrio.exec _ _ s e) as [r1|] eqn:E1; [|done].
    destruct (prio_exec_spec s e r1 H He E1) as (s1 & -> & H1). cbn [mbind option_bind]. by apply IH.
Qed.
End Operations.
