(* ===== verification/SetPrioProps.v ===== *)
(** * Priority changes of a queued task: the properties (src/Assignment_4/fifo/core.c)

    What the scheduler still guarantees when priorities change while tasks wait and
    run: the best task runs, a changed task is where sched(7) says, the task gets
    what SchedClass computes, and an inherited priority is given back. *)
From Stdlib Require Import ZArith Lia.
From stdpp Require Import gmap.
From S2P Require Import Prelude CLib SchedInfo SchedClass SchedClassTheorems RunQueue RunQueueInv RunQueueSched RunQueueEvents.
From S2P Require Import RtTextbook RunQueueProps SetPrio SetPrioInv SetPrioEvents.
Import RunQueue SetPrio.

Local Open Scope Z_scope.

Section Properties.
Context `{h : headers} {hok : headers_ok h} {sc : sched_classes} {pc : prio_classes}.
Context {idle : Z} {ok : sched_classes_ok sc idle} {rok : rt_ok sc idle ok} {pok : prio_classes_ok pc rok}.
Context (reweight : Z -> res SchedClass.load_weight) (dl_entity_preempt : Z -> Z -> bool).
Hypothesis reweight_table : forall i, reweight i =
  (w ← aget SchedClass.sched_prio_to_weight i; v ← aget SchedClass.sched_prio_to_wmult i;
   Ok (SchedClass.mk_load (scale_load w) v)).
Local Abbreviation prio t := (SchedClass.prio (base t)).
Local Abbreviation reaches s0 es s := (SetPrio.exec_all reweight dl_entity_preempt s0 es = Some (Ok s)).

Lemma reached_inv s0 es s : booted s0 -> Forall prio_event_ok es -> reaches s0 es s -> inv s.
Proof.
  intros Hb He Hr. destruct (prio_exec_all_inv reweight reweight_table dl_entity_preempt es s0 _ (boot_inv _ Hb) He Hr)
    as (s' & [= <-] & H). done.
Qed.


(** The task an event changes. *)
Definition changes_task (e : prio_event) : option Z :=
  match e with Sched _ => None | Nice pid _ | SetScheduler pid _ _ _ _ | Inherit pid _ => Some pid end.

Lemma change_outcome s e pid t s' : inv s -> prio_event_ok e -> changes_task e = Some pid ->
  tasks s !! pid = Some t -> SetPrio.exec reweight dl_entity_preempt s e = Some (Ok s') ->
  exists b, outcome s s' pid t b.
Proof.
  intros H He Hp Ht. assert (forall o, change_event s pid o = Some (Ok s') -> is_idle t = false /\ o = Ok s') as Hce.
  { intros o. unfold change_event. rewrite Ht. cbn [mbind option_bind]. destruct (is_idle t); [done|].
    destruct o; [|done]. case_match; [done|]. by intros [= ->]. }
  destruct e as [e|i nice|i top env attr user|i pi_task]; simpl in Hp; simplify_eq; simpl.
  - intros [Hi E]%Hce. destruct (set_user_nice_spec reweight reweight_table s pid t nice H Ht Hi) as (s1 & b & _ & E1 & Ho).
    exists b. by assert (s1 = s') as <- by congruence.
  - intros [Hi E]%Hce.
    destruct (set_scheduler_spec reweight reweight_table s pid t top env attr user H Ht Hi He) as (r & s1 & b & _ & E1 & Ho).
    rewrite E1 in E. simpl in E. injection E as <-. by exists b.
  - destruct (exists_donor s pi_task) eqn:Ed; [|done]. intros [Hi E]%Hce.
    assert (exists top, donor s pi_task = Some top) as (top & Hd).
    { unfold donor. destruct pi_task as [d|]; [|eauto]. apply bool_decide_eq_true in Ed as [u Hu]. rewrite Hu. simpl. eauto. }
    destruct (rt_mutex_setprio_spec dl_entity_preempt s pid t pi_task top H Ht Hi Hd) as (s1 & E1 & Ho).
    eexists. rewrite E1 in E. injection E as <-. done.
Qed.

(** The place of a changed task. When nice, sched_setscheduler or priority
    inheritance leaves a queued real-time task in the real-time class, the lists
    change as sched(7) says: with the same priority every list stays as it was; a
    raised task leaves its list for the end of the new one, a lowered one for the
    head; the order of all others never changes. *)
Theorem priority_change_moves s0 es s e pid t s' t' p : booted s0 -> Forall prio_event_ok (es ++ [e]) ->
  reaches s0 es s -> changes_task e = Some pid -> SetPrio.exec reweight dl_entity_preempt s e = Some (Ok s') ->
  tasks s !! pid = Some t -> klass t = rt_class -> on_rq t = TASK_ON_RQ_QUEUED ->
  tasks s' !! pid = Some t' -> klass t' = rt_class ->
  rt_list (classes s') p = placed (rt_list (classes s)) pid (prio t) (prio t') p.
Proof.
  intros Hb [He [Hee _]%Forall_cons]%Forall_app Hr Hp E Ht Hk Ho Ht' Hk'.
  pose proof (reached_inv _ _ _ Hb He Hr) as H.
  destruct (change_outcome s e pid t s' H Hee Hp Ht E) as (b & [O1 (u & Hu & Hub & Hui & _) O3 O4 O5]).
  assert (u = t') as -> by congruence. subst b. apply O4; [done| |done].
  unfold klass in Hk'. destruct (is_idle t'); [done|]. by destruct (SchedClass.class (base t')).
Qed.

(** C32: On a task of the run queue, queued, running or asleep, nice and
    sched_setscheduler (without SCHED_FLAG_KEEP_PARAMS) return what SchedClass computes for
    the task alone and give the task exactly those parameters; no other task changes. *)
Theorem run_queue_refines_task s0 es s pid t nice e attr user top : booted s0 -> Forall prio_event_ok es ->
  reaches s0 es s -> tasks s !! pid = Some t -> is_idle t = false ->
  prio_event_ok (SetScheduler pid top e attr user) ->
  (exists s' b t', SchedClass.set_user_nice reweight (base t) nice = Ok b /\
     SetPrio.set_user_nice reweight s pid nice = Ok s' /\ tasks s' !! pid = Some t' /\ base t' = b /\
     on_rq t' = on_rq t /\
     forall i u, i <> pid -> tasks s !! i = Some u -> exists u', tasks s' !! i = Some u' /\ base u' = base u) /\
  (exists r s' b t', SchedClass.__sched_setscheduler reweight e (set_pi_top (base t) top) attr user = Ok (r, b) /\
     SetPrio.set_scheduler reweight s pid top e attr user = Ok (r, s') /\ tasks s' !! pid = Some t' /\ base t' = b /\
     on_rq t' = on_rq t /\
     forall i u, i <> pid -> tasks s !! i = Some u -> exists u', tasks s' !! i = Some u' /\ base u' = base u).
Proof.
  intros Hb He Hr Ht Hi Hok. pose proof (reached_inv _ _ _ Hb He Hr) as H.
  assert (forall s' b, outcome s s' pid t b -> exists t', tasks s' !! pid = Some t' /\ base t' = b /\ on_rq t' = on_rq t /\
    forall i u, i <> pid -> tasks s !! i = Some u -> exists u', tasks s' !! i = Some u' /\ base u' = base u) as Hout.
  { intros s' b [_ (t' & H1 & H2 & _ & H3) Ho _ _]. exists t'. split_and!; try done.
    intros i u Hne Hu. destruct (Ho i u Hne Hu) as (u' & Hu' & Hs & _). by exists u'. }
  split.
  - destruct (set_user_nice_spec reweight reweight_table s pid t nice H Ht Hi) as (s' & b & E1 & E2 & Ho).
    destruct (Hout _ _ Ho) as (t' & Hx). by exists s', b, t'.
  - destruct (set_scheduler_spec reweight reweight_table s pid t top e attr user H Ht Hi Hok) as (r & s' & b & E1 & E2 & Ho).
    destruct (Hout _ _ Ho) as (t' & Hx). by exists r, s', b, t'.
Qed.

(** C33: Priority inheritance. Given a waiter, the holder of a lock gets the better of
    its normal priority and that of the waiter, and the class of that priority, so
    its class is never below the waiter's; when the waiter is gone the holder is
    given its normal priority back, and a task that was not boosted before is
    exactly as it was. *)
Theorem inheritance_is_given_back s0 es s pid t d w : booted s0 -> Forall prio_event_ok es -> reaches s0 es s ->
  tasks s !! pid = Some t -> is_idle t = false -> tasks s !! d = Some w -> d <> pid -> is_idle w = false ->
  exists s1 t1, rt_mutex_setprio dl_entity_preempt s pid (Some d) = Ok s1 /\ tasks s1 !! pid = Some t1 /\
    prio t1 = Z.min (SchedClass.normal_prio_ (base t)) (prio w) /\ rank (klass w) <= rank (klass t1) /\
    (klass w = rt_class -> klass t1 = rt_class -> prio t1 <= prio w) /\
    (leaves_dl s s1 = false ->
       exists s2 t2, rt_mutex_setprio dl_entity_preempt s1 pid None = Ok s2 /\ tasks s2 !! pid = Some t2 /\
         prio t2 = SchedClass.normal_prio_ (base t) /\
         (SchedClass.pi_top (base t) = None -> prio t = SchedClass.normal_prio_ (base t) -> base t2 = base t)).
Proof.
  intros Hb He Hr Ht Hi Hw Hne Hiw. pose proof (reached_inv _ _ _ Hb He Hr) as H.
  pose proof (inv_base _ (inv_queues _ H) _ _ Ht) as Hbt. pose proof (inv_base _ (inv_queues _ H) _ _ Hw) as Hbw.
  destruct (rt_mutex_setprio_spec dl_entity_preempt s pid t (Some d) (Some (prio w)) H Ht Hi) as (s1 & E1 & Ho1);
    [simpl; by rewrite Hw|].
  destruct (oc_task _ _ _ _ _ Ho1) as (t1 & Ht1 & Hb1 & Hi1 & _). rewrite Hi in Hi1. exists s1, t1.
  set (v := SchedClass.rt_effective_prio _ _) in *.
  assert (v = Z.min (SchedClass.normal_prio_ (base t)) (prio w)) as Hv by done.
  assert (prio t1 = v) as Hp1 by (by rewrite Hb1).
  assert (klass t1 = match SchedClass.class_of v with SchedClass.dl_sched_class => dl_class
            | SchedClass.rt_sched_class => rt_class | SchedClass.fair_sched_class => fair_class end) as Hk1.
  { unfold klass. by rewrite Hi1, Hb1. }
  assert (klass w = match SchedClass.class_of (prio w) with SchedClass.dl_sched_class => dl_class
            | SchedClass.rt_sched_class => rt_class | SchedClass.fair_sched_class => fair_class end) as Hkw.
  { unfold klass. rewrite Hiw. destruct Hbw as (_ & -> & _). done. }
  split_and!; [done|done|congruence| |lia|].
  - rewrite Hk1, Hkw. unfold SchedClass.class_of. rewrite !dl_prio_def, !rt_prio_def.
    destruct prio_values as (-> & -> & _).
    destruct (Z.ltb_spec (prio w) 0), (Z.ltb_spec v 0), (Z.ltb_spec (prio w) 100), (Z.ltb_spec v 100); simpl; lia.
  - intros Hl. pose proof (oc_inv _ _ _ _ _ Ho1 Hl) as H1.
    destruct (rt_mutex_setprio_spec dl_entity_preempt s1 pid t1 None None H1 Ht1 Hi1 eq_refl) as (s2 & E2 & Ho2).
    destruct (oc_task _ _ _ _ _ Ho2) as (t2 & Ht2 & Hb2 & _). exists s2, t2.
    split_and!; [done|done|rewrite Hb2; simpl; by rewrite Hb1|].
    intros Hnone Hn. rewrite Hb2. cbn. rewrite Hb1. cbn. destruct Hbt as (_ & Hc & _).
    destruct (base t) as [b1 b2 b3 b4 b5 b6 b7 b8 b9 b10]. simpl in *. subst. by f_equal.
Qed.
End Properties.

(** ** The textbook classes *)
Definition to_rt (x : change) : bool := (e_prio (c_task x) <? e_prio (c_curr x))%c.
#[export] Instance textbook_prio : prio_classes (sc := textbook) := {
  class_dequeue_saved c s e move :=
    match c with
    | dl_class => mk_queues (drop (e_pid e) (dlq s)) (rtq s) (fairq s)
    | rt_class => if move then set_rtq s (drop_rt e (rtq s)) else s
    | fair_class => mk_queues (dlq s) (rtq s) (drop (e_pid e) (fairq s))
    | idle_class => s
    end;
  class_enqueue_restored c s e fl :=
    match c with
    | dl_class => mk_queues (dlq s ++ [e_pid e]) (rtq s) (fairq s)
    | rt_class => if f_move fl
                  then set_rtq s (if f_head fl then (e_pid e, e_prio e) :: rtq s else rtq s ++ [(e_pid e, e_prio e)])
                  else s
    | fair_class => mk_queues (dlq s) (rtq s) (fairq s ++ [e_pid e])
    | idle_class => s
    end;
  class_set_next_task _ s _ := s;
  class_switched_from _ s _ := (s, false);
  class_switched_to c s x := (s, c_queued x &&
    (if c_running x then bool_decide (c = fair_class)
     else (rank (c_curr_class x) <? rank c)%c ||
          bool_decide (c = rt_class /\ c_curr_class x = rt_class) && to_rt x))%bool;
  class_prio_changed c old s x := (s, bool_decide (c = rt_class) && c_queued x &&
    (if c_running x then (old <? e_prio (c_task x))%c else to_rt x))%bool
}.
#[export, program] Instance textbook_prio_ok : prio_classes_ok (h := linux) textbook_prio textbook_rt.
Next Obligation. intros [] s e m Hc Hr; simpl; try done; apply members_drop. Qed.
Next Obligation. intros [] [] s e []; done. Qed.
Next Obligation.
  intros s e m p. simpl. destruct m; [|by rewrite decide_False by naive_solver].
  etrans; [apply list_of_drop|].
  destruct (decide (p = e_prio e)); [by rewrite decide_True|by rewrite decide_False by tauto].
Qed.
Next Obligation. by intros [] s e m Hc p. Qed.
Next Obligation. intros [] s e fl Hc Hr; simpl; try done; rewrite list_to_set_app_L; simpl; set_solver. Qed.
Next Obligation. intros [] [] s e [[] [] ?]; done. Qed.
Next Obligation.
  intros s e [[] hd r] p; simpl; [|by rewrite decide_False by naive_solver].
  destruct hd; simpl.
  - etrans; [apply (list_of_app [(e_pid e, e_prio e)])|]. rewrite list_of_one.
    destruct (decide (p = e_prio e)); [by rewrite decide_True|by rewrite decide_False by tauto].
  - etrans; [apply list_of_app|]. rewrite list_of_one.
    destruct (decide (p = e_prio e)); [by rewrite decide_True|rewrite decide_False by tauto; apply app_nil_r].
Qed.
Next Obligation. by intros [] s e fl Hc p. Qed.
Next Obligation. done. Qed.
Next Obligation. done. Qed.
Next Obligation. done. Qed.
Next Obligation. done. Qed.
Next Obligation.
  intros c s x Hq Hr Hb. simpl. rewrite Hq, Hr. unfold to_rt. destruct Hb as [Hb%Z.ltb_lt|(H1 & H2 & H3%Z.ltb_lt)].
  - by rewrite Hb.
  - rewrite H3, bool_decide_eq_true_2 by done. apply orb_true_r.
Qed.
Next Obligation. intros s x Hq Hr. simpl. by rewrite Hq, Hr. Qed.
Next Obligation.
  intros old s x Hq Hb. simpl. rewrite Hq. unfold to_rt. destruct (c_running x); by apply Z.ltb_lt in Hb as ->.
Qed.

(** ** Witnesses: three tasks of priority 50 *)
Definition demo_changes : list prio_event -> option (res rq) :=
  SetPrio.exec_all (h := linux) linux_reweight (fun _ _ => false) demo_boot.
Definition three_tasks : list prio_event :=
  Sched <$> [Wake 1 TASK_NORMAL; Preempt no_signal; Fork 2 new_task; Fork 3 new_task].
Definition fifo_attr (priority : Z) : SchedClass.sched_attr := SchedClass.mk_attr 1 0 0 priority.
Definition set_fifo (pid priority : Z) : prio_event := SetScheduler pid None root_env (fifo_attr priority) true.

Lemma linux_table i : linux_reweight i =
  (w ← aget SchedClass.sched_prio_to_weight i; v ← aget SchedClass.sched_prio_to_wmult i;
   Ok (SchedClass.mk_load (scale_load (headers := linux) w) v)).
Proof. reflexivity. Qed.
Lemma set_fifo_ok pid priority : 0 <= priority -> prio_event_ok (h := linux) (set_fifo pid priority).
Proof. intros Hp. by split_and!. Qed.
Lemma three_tasks_ok : Forall (prio_event_ok (h := linux)) three_tasks.
Proof. repeat constructor. Qed.
(** The run queues used below. *)
Lemma demo_runs es s : demo_changes es = Some (Ok s) ->
  SetPrio.exec_all (h := linux) linux_reweight (fun _ _ => false) demo_boot es = Some (Ok s).
Proof. done. Qed.


(** The running task lowers itself: it is the first of its new list. *)
Lemma priority_change_moves_witness : exists s s',
  demo_changes three_tasks = Some (Ok s) /\
  SetPrio.exec (h := linux) linux_reweight (fun _ _ => false) s (set_fifo 1 20) = Some (Ok s') /\
  rt_list (rt_ok := textbook_rt) (classes s') 79 = [1] /\ rt_list (rt_ok := textbook_rt) (classes s') 50 = [2; 3].
Proof.
  destruct (demo_changes three_tasks) as [[s|]|] eqn:E; try (vm_compute in E; discriminate E).
  destruct (SetPrio.exec (h := linux) linux_reweight (fun _ _ => false) s (set_fifo 1 20)) as [[s'|]|] eqn:E1;
    try (vm_compute in E; injection E as <-; vm_compute in E1; discriminate E1).
  assert (exists t t', tasks s !! 1 = Some t /\ klass t = rt_class /\ on_rq t = TASK_ON_RQ_QUEUED /\
    SchedClass.prio (base t) = 50 /\ tasks s' !! 1 = Some t' /\ klass t' = rt_class /\ SchedClass.prio (base t') = 79 /\
    rt_list (rt_ok := textbook_rt) (classes s) 79 = [] /\ rt_list (rt_ok := textbook_rt) (classes s) 50 = [1; 2; 3])
    as (t & t' & Ht & Hk & Ho & Hp & Ht' & Hk' & Hp' & Hl1 & Hl2).
  { vm_compute in E. injection E as <-. vm_compute in E1. injection E1 as <-. eexists _, _.
    split; [vm_compute; reflexivity|]. split; [vm_compute; reflexivity|]. split; [vm_compute; reflexivity|].
    split; [vm_compute; reflexivity|]. split; [vm_compute; reflexivity|]. split; [vm_compute; reflexivity|].
    split; [vm_compute; reflexivity|]. split; vm_compute; reflexivity. }
  pose proof (fun p => priority_change_moves (h := linux) (hok := linux_ok) (pok := textbook_prio_ok) linux_reweight
    (fun _ _ => false) linux_table demo_boot three_tasks s (set_fifo 1 20) 1 t s' t' p demo_booted
    (proj2 (Forall_app _ _ _) (conj three_tasks_ok (Forall_cons_2 _ _ _ (set_fifo_ok 1 20 ltac:(lia)) (Forall_nil_2 _))))
    E eq_refl E1 Ht Hk Ho Ht' Hk') as Hm.
  exists s, s'. split; [reflexivity|]. split; [exact E1|]. rewrite Hp, Hp' in Hm.
  rewrite (Hm 79), (Hm 50). unfold placed. rewrite Hl1, Hl2. split; vm_compute; reflexivity.
Defined.

Lemma run_queue_refines_task_witness : exists s s' b t',
  demo_changes three_tasks = Some (Ok s) /\
  SchedClass.set_user_nice (h := linux) linux_reweight fifo_base 5 = Ok b /\
  SetPrio.set_user_nice (h := linux) linux_reweight s 2 5 = Ok s' /\ tasks s' !! 2 = Some t' /\ base t' = b.
Proof.
  destruct (demo_changes three_tasks) as [[s|]|] eqn:E; try (vm_compute in E; discriminate E).
  assert (exists t, tasks s !! 2 = Some t /\ is_idle t = false /\ base t = fifo_base) as (t & Ht & Hi & Hb).
  { vm_compute in E. injection E as <-. eexists. split; [vm_compute; reflexivity|]. split; vm_compute; reflexivity. }
  destruct (run_queue_refines_task (h := linux) (hok := linux_ok) (pok := textbook_prio_ok) linux_reweight
    (fun _ _ => false) linux_table demo_boot three_tasks s 2 t 5 root_env (fifo_attr 60) true None demo_booted
    three_tasks_ok E Ht Hi (set_fifo_ok 2 60 ltac:(lia))) as [(s' & b & t' & H1 & H2 & H3 & H4 & _) _].
  rewrite Hb in H1. exists s, s', b, t'. split; [reflexivity|]. split; [exact H1|]. split; [exact H2|].
  split; [exact H3|exact H4].
Defined.

(** Task 1 holds a lock that task 3, raised to 39, waits for. *)
Lemma inheritance_is_given_back_witness : exists s s1 t1,
  demo_changes (three_tasks ++ [set_fifo 3 60]) = Some (Ok s) /\
  rt_mutex_setprio (h := linux) (fun _ _ => false) s 1 (Some 3) = Ok s1 /\ tasks s1 !! 1 = Some t1 /\
  SchedClass.prio (base t1) = 39.
Proof.
  destruct (demo_changes (three_tasks ++ [set_fifo 3 60])) as [[s|]|] eqn:E; try (vm_compute in E; discriminate E).
  assert (exists t w, tasks s !! 1 = Some t /\ is_idle t = false /\ SchedClass.normal_prio_ (base t) = 50 /\
    tasks s !! 3 = Some w /\ is_idle w = false /\ SchedClass.prio (base w) = 39) as (t & w & Ht & Hi & Hn & Hw & Hiw & Hp).
  { vm_compute in E. injection E as <-. eexists _, _.
    split; [vm_compute; reflexivity|]. split; [vm_compute; reflexivity|]. split; [vm_compute; reflexivity|].
    split; [vm_compute; reflexivity|]. split; vm_compute; reflexivity. }
  destruct (inheritance_is_given_back (h := linux) (hok := linux_ok) (pok := textbook_prio_ok) linux_reweight
    (fun _ _ => false) linux_table demo_boot (three_tasks ++ [set_fifo 3 60]) s 1 t 3 w demo_booted
    (proj2 (Forall_app _ _ _) (conj three_tasks_ok (Forall_cons_2 _ _ _ (set_fifo_ok 3 60 ltac:(lia)) (Forall_nil_2 _))))
    E Ht Hi Hw ltac:(discriminate) Hiw) as (s1 & t1 & H1 & H2 & H3 & _).
  exists s, s1, t1. split; [reflexivity|]. split; [exact H1|]. split; [exact H2|]. rewrite H3, Hn, Hp. reflexivity.
Defined.

(** With SCHED_FLAG_KEEP_PARAMS nothing of the running task changes, but the
    priority in the request differs from its own: it is moved behind the others of
    its priority, and not marked although it is no longer the first. *)
Example keep_params_loses_turn : exists s s' c,
  demo_changes three_tasks = Some (Ok s) /\ rt_list (rt_ok := textbook_rt) (classes s) 50 = [1; 2; 3] /\
  SetPrio.exec (h := linux) linux_reweight (fun _ _ => false) s
    (SetScheduler 1 None root_env (SchedClass.mk_attr 1 (SCHED_FLAG_KEEP_PARAMS (headers := linux)) 0 10) true) = Some (Ok s') /\
  rt_list (rt_ok := textbook_rt) (classes s') 50 = [2; 3; 1] /\
  curr s' = 1 /\ tasks s' !! 1 = Some c /\ need_resched c = false /\ SchedClass.prio (base c) = 50.
Proof.
  eexists _, _, _. split; [vm_compute; reflexivity|]. split; [vm_compute; reflexivity|].
  split; [vm_compute; reflexivity|]. split; [vm_compute; reflexivity|]. split; [vm_compute; reflexivity|].
  split; [vm_compute; reflexivity|]. split; vm_compute; reflexivity.
Qed.
