(* ===== verification/UClamp.v ===== *)
(** * Utilization clamps (src/Assignment_4/fifo/core.c, sched.h)

    The code under CONFIG_UCLAMP_TASK: a task asks for a minimum and a maximum
    utilization; a run queue counts its runnable tasks in buckets of clamp
    values and keeps the maximum of both.  One run queue; [struct uclamp_rq],
    [struct uclamp_bucket] and UCLAMP_FLAG_IDLE are declared in a header that is
    not here, and have the fields [core.c] uses.  [warned] records that a
    SCHED_WARN_ON was met. *)
From Stdlib Require Import ZArith Lia.
From S2P Require Import Prelude CLib.

Local Open Scope Z_scope.

(** ** The configuration and the macros of other headers *)
Class uclamp_config := mk_config {
  CONFIG_UCLAMP_BUCKETS_COUNT : Z;
  DIV_ROUND_CLOSEST : Z -> Z -> Z;
  DIV_ROUND_CLOSEST_ULL : Z -> Z -> Z;
  bits_per : Z -> Z
}.
(** The range Kconfig allows, and what include/linux/math.h and log2.h document. *)
Class uclamp_config_ok (c : uclamp_config) : Prop := {
  buckets_range : 5 <= CONFIG_UCLAMP_BUCKETS_COUNT <= 20;
  div_round_closest n d : 0 <= n -> 0 < d -> DIV_ROUND_CLOSEST n d = (n + d / 2) / d;
  div_round_closest_ull n d : 0 <= n -> 0 < d -> n + d / 2 < 2 ^ 64 ->
    DIV_ROUND_CLOSEST_ULL n d = (n + d / 2) / d;
  bits_per_def n : 0 < n -> bits_per n = Z.log2 n + 1
}.

(** The default: five buckets. *)
Definition five_buckets : uclamp_config :=
  mk_config 5 (fun n d => (n + d / 2) / d) (fun n d => (n + d / 2) / d) (fun n => Z.log2 n + 1).
#[export] Instance five_buckets_ok : uclamp_config_ok five_buckets.
Proof. split; simpl; intros; [lia|done..]. Qed.

Module UClamp.

Definition SCHED_FIXEDPOINT_SHIFT : Z := 10.
Definition SCHED_CAPACITY_SHIFT : Z := SCHED_FIXEDPOINT_SHIFT.
Definition SCHED_CAPACITY_SCALE : Z := Z.shiftl 1 SCHED_CAPACITY_SHIFT.

Inductive uclamp_id := UCLAMP_MIN | UCLAMP_MAX.
#[export] Instance uclamp_id_eq_dec : EqDecision uclamp_id.
Proof. solve_decision. Defined.
(** [for_each_clamp_id] *)
Definition clamp_ids : list uclamp_id := [UCLAMP_MIN; UCLAMP_MAX].

(** An array of UCLAMP_CNT entries. *)
Record both (A : Type) := mk_both { at_min : A; at_max : A }.
Arguments mk_both {A}. Arguments at_min {A}. Arguments at_max {A}.
Definition get {A} (id : uclamp_id) (b : both A) : A :=
  match id with UCLAMP_MIN => at_min b | UCLAMP_MAX => at_max b end.
Definition set {A} (id : uclamp_id) (v : A) (b : both A) : both A :=
  match id with UCLAMP_MIN => mk_both v (at_max b) | UCLAMP_MAX => mk_both (at_min b) v end.

Record uclamp_se := mk_se { value : Z; bucket_id : Z; active : bool; user_defined : bool }.
Definition set_active (s : uclamp_se) (v : bool) : uclamp_se :=
  mk_se (value s) (bucket_id s) v (user_defined s).

Record uclamp_bucket := mk_bucket { b_value : Z; tasks : Z }.
Record uclamp_rq := mk_uclamp_rq { rq_value : Z; bucket : list uclamp_bucket }.
Record rq := mk_rq { uclamp_rqs : both uclamp_rq; flag_idle : bool; warned : bool }.

(** The fields of [struct task_struct] used here; [group] is the task group when
    it is neither an autogroup nor the root, [on_rq] tells whether it is queued,
    [enabled] is [sched_class->uclamp_enabled]. *)
Record task := mk_task {
  uclamp_req : both uclamp_se; uclamp : both uclamp_se; group : option Z;
  rt_task : bool; enabled : bool; sched_reset_on_fork : bool; on_rq : bool
}.
Definition set_req (p : task) (v : both uclamp_se) : task :=
  mk_task v (uclamp p) (group p) (rt_task p) (enabled p) (sched_reset_on_fork p) (on_rq p).
Definition set_uclamp (p : task) (v : both uclamp_se) : task :=
  mk_task (uclamp_req p) v (group p) (rt_task p) (enabled p) (sched_reset_on_fork p) (on_rq p).
Definition set_on_rq (p : task) (v : bool) : task :=
  mk_task (uclamp_req p) (uclamp p) (group p) (rt_task p) (enabled p) (sched_reset_on_fork p) v.
Definition set_class (p : task) (rt en reset : bool) : task :=
  mk_task (uclamp_req p) (uclamp p) (group p) rt en reset (on_rq p).
Definition set_group (p : task) (g : option Z) : task :=
  mk_task (uclamp_req p) (uclamp p) g (rt_task p) (enabled p) (sched_reset_on_fork p) (on_rq p).

(** The globals of the section. *)
Record globals := mk_globals {
  sched_uclamp_used : bool; uclamp_default : both uclamp_se;
  sysctl_sched_uclamp_util_min : Z; sysctl_sched_uclamp_util_max : Z;
  sysctl_sched_uclamp_util_min_rt_default : Z
}.
Definition enable (g : globals) : globals :=
  mk_globals true (uclamp_default g) (sysctl_sched_uclamp_util_min g)
    (sysctl_sched_uclamp_util_max g) (sysctl_sched_uclamp_util_min_rt_default g).
Definition set_default (g : globals) (d : both uclamp_se) : globals :=
  mk_globals (sched_uclamp_used g) d (sysctl_sched_uclamp_util_min g)
    (sysctl_sched_uclamp_util_max g) (sysctl_sched_uclamp_util_min_rt_default g).

Section Model.
Context `{cfg : uclamp_config}.

Definition UCLAMP_BUCKETS : Z := CONFIG_UCLAMP_BUCKETS_COUNT.
Definition UCLAMP_BUCKET_DELTA : Z := DIV_ROUND_CLOSEST SCHED_CAPACITY_SCALE UCLAMP_BUCKETS.

(** ** Clamp values *)
Definition uclamp_bucket_id (clamp_value : Z) : Z :=
  Z.min (clamp_value / UCLAMP_BUCKET_DELTA) (UCLAMP_BUCKETS - 1).

Definition uclamp_none (id : uclamp_id) : Z :=
  match id with UCLAMP_MIN => 0 | UCLAMP_MAX => SCHED_CAPACITY_SCALE end.

(** What a bit field keeps of an unsigned value. *)
Definition bit_field (width v : Z) : Z := v mod 2 ^ width.

Definition uclamp_se_set (uc_se : uclamp_se) (v : Z) (user : bool) : uclamp_se :=
  mk_se (bit_field (bits_per SCHED_CAPACITY_SCALE) v)
    (bit_field (bits_per UCLAMP_BUCKETS) (uclamp_bucket_id v)) (active uc_se) user.

(** ** The run queue *)
Definition set_rq_value (r : rq) (id : uclamp_id) (v : Z) : rq :=
  mk_rq (set id (mk_uclamp_rq v (bucket (get id (uclamp_rqs r)))) (uclamp_rqs r))
    (flag_idle r) (warned r).
Definition set_buckets (r : rq) (id : uclamp_id) (bs : list uclamp_bucket) : rq :=
  mk_rq (set id (mk_uclamp_rq (rq_value (get id (uclamp_rqs r))) bs) (uclamp_rqs r))
    (flag_idle r) (warned r).
Definition set_flag (r : rq) (v : bool) : rq := mk_rq (uclamp_rqs r) v (warned r).
(** SCHED_WARN_ON *)
Definition warn_on (b : bool) (r : rq) : rq := mk_rq (uclamp_rqs r) (flag_idle r) (warned r || b).

Definition uclamp_idle_value (r : rq) (id : uclamp_id) (clamp_value : Z) : rq * Z :=
  match id with
  | UCLAMP_MAX => (set_flag r true, clamp_value)
  | UCLAMP_MIN => (r, uclamp_none UCLAMP_MIN)
  end.

Definition uclamp_idle_reset (r : rq) (id : uclamp_id) (clamp_value : Z) : rq :=
  if negb (flag_idle r) then r else set_rq_value r id clamp_value.

(** The loop from the last bucket down: the first one with tasks in. *)
Fixpoint top_bucket (bs : list uclamp_bucket) (n : nat) : res (option Z) :=
  match n with
  | O => Ok None
  | S n => b ← aget bs (Z.of_nat n);
           if (tasks b =? 0)%c then top_bucket bs n else Ok (Some (b_value b))
  end.
Definition uclamp_rq_max_value (r : rq) (id : uclamp_id) (clamp_value : Z) : res (rq * Z) :=
  top ← top_bucket (bucket (get id (uclamp_rqs r))) (Z.to_nat UCLAMP_BUCKETS);
  match top with
  | Some v => Ok (r, v)
  | None => Ok (uclamp_idle_value r id clamp_value)
  end.

(** ** Effective clamps: [tg] is the task group's [uclamp], read at the call *)
Definition uclamp_tg_restrict (tg : option (both uclamp_se)) (p : task) (id : uclamp_id) : uclamp_se :=
  let uc_req := get id (uclamp_req p) in
  match tg with
  | None => uc_req
  | Some uc =>
      let uc_max := get id uc in
      if ((value uc_max <? value uc_req)%c || negb (user_defined uc_req))%bool then uc_max else uc_req
  end.

Definition uclamp_eff_get (g : globals) (tg : option (both uclamp_se)) (p : task) (id : uclamp_id)
  : uclamp_se :=
  let uc_req := uclamp_tg_restrict tg p id in
  let uc_max := get id (uclamp_default g) in
  if (value uc_max <? value uc_req)%c then uc_max else uc_req.

Definition uclamp_eff_value (g : globals) (tg : option (both uclamp_se)) (p : task) (id : uclamp_id) : Z :=
  if active (get id (uclamp p)) then value (get id (uclamp p))
  else value (uclamp_eff_get g tg p id).

(** ** Counting a task in and out *)
Definition uclamp_rq_inc_id (g : globals) (tg : option (both uclamp_se)) (r : rq) (p : task)
    (id : uclamp_id) : res (rq * task) :=
  let uc_se := uclamp_eff_get g tg p id in
  b ← aget (bucket (get id (uclamp_rqs r))) (bucket_id uc_se);
  let b := mk_bucket (b_value b) (tasks b + 1) in
  let uc_se := set_active uc_se true in
  let p := set_uclamp p (set id uc_se (uclamp p)) in
  let r := uclamp_idle_reset r id (value uc_se) in
  let b := if ((tasks b =? 1)%c || (b_value b <? value uc_se)%c)%bool
           then mk_bucket (value uc_se) (tasks b) else b in
  bs ← aset (bucket (get id (uclamp_rqs r))) (bucket_id uc_se) b;
  let r := set_buckets r id bs in
  let r := if (rq_value (get id (uclamp_rqs r)) <? value uc_se)%c
           then set_rq_value r id (value uc_se) else r in
  Ok (r, p).

Definition uclamp_rq_dec_id (r : rq) (p : task) (id : uclamp_id) : res (rq * task) :=
  let uc_se := get id (uclamp p) in
  if negb (active uc_se) then Ok (r, p) else
  b ← aget (bucket (get id (uclamp_rqs r))) (bucket_id uc_se);
  let r := warn_on (tasks b =? 0)%c r in
  let b := if negb (tasks b =? 0)%c then mk_bucket (b_value b) (tasks b - 1) else b in
  bs ← aset (bucket (get id (uclamp_rqs r))) (bucket_id uc_se) b;
  let r := set_buckets r id bs in
  let p := set_uclamp p (set id (set_active uc_se false) (uclamp p)) in
  if negb (tasks b =? 0)%c then Ok (r, p) else
  let rq_clamp := rq_value (get id (uclamp_rqs r)) in
  let r := warn_on (rq_clamp <? b_value b)%c r in
  if (rq_clamp <=? b_value b)%c then
    '(r, bkt_clamp) ← uclamp_rq_max_value r id (value uc_se);
    Ok (set_rq_value r id bkt_clamp, p)
  else Ok (r, p).

Fixpoint for_each_clamp_id {A} (f : uclamp_id -> A -> res A) (ids : list uclamp_id) (a : A) : res A :=
  match ids with
  | [] => Ok a
  | id :: ids => a ← f id a; for_each_clamp_id f ids a
  end.

Definition uclamp_rq_inc (g : globals) (tg : option (both uclamp_se)) (r : rq) (p : task)
  : res (rq * task) :=
  if negb (sched_uclamp_used g) then Ok (r, p)
  else if negb (enabled p) then Ok (r, p)
  else
    '(r, p) ← for_each_clamp_id (fun id '(r, p) => uclamp_rq_inc_id g tg r p id) clamp_ids (r, p);
    Ok (if flag_idle r then set_flag r false else r, p).

Definition uclamp_rq_dec (g : globals) (r : rq) (p : task) : res (rq * task) :=
  if negb (sched_uclamp_used g) then Ok (r, p)
  else if negb (enabled p) then Ok (r, p)
  else for_each_clamp_id (fun id '(r, p) => uclamp_rq_dec_id r p id) clamp_ids (r, p).

Definition uclamp_update_active (g : globals) (tg : option (both uclamp_se)) (r : rq) (p : task)
    (id : uclamp_id) : res (rq * task) :=
  if active (get id (uclamp p)) then
    '(r, p) ← uclamp_rq_dec_id r p id; uclamp_rq_inc_id g tg r p id
  else Ok (r, p).

(** ** Requests *)
Record sched_attr := mk_attr {
  flag_util_clamp_min : bool; flag_util_clamp_max : bool; (* SCHED_FLAG_UTIL_CLAMP_{MIN,MAX} *)
  sched_util_min : Z; sched_util_max : Z                  (* u32 *)
}.
(** SCHED_FLAG_UTIL_CLAMP is both flags. *)
Definition flag_util_clamp (a : sched_attr) : bool := (flag_util_clamp_min a || flag_util_clamp_max a)%bool.
(** -1 as a [u32]. *)
Definition u32_minus_1 : Z := 2 ^ 32 - 1.

Definition EINVAL : Z := 22.

(** [util_min] and [util_max] are [int]; SCHED_CAPACITY_SCALE is [long], so the
    sum, an [int], is compared as a signed number. *)
Definition uclamp_validate (g : globals) (p : task) (a : sched_attr) : globals * Z :=
  let req id := value (get id (uclamp_req p)) in
  let util_min := if flag_util_clamp_min a then s32 (sched_util_min a) else req UCLAMP_MIN in
  let util_max := if flag_util_clamp_max a then s32 (sched_util_max a) else req UCLAMP_MAX in
  if (flag_util_clamp_min a && (SCHED_CAPACITY_SCALE + 1 <? s32 (util_min + 1))%c)%bool then (g, - EINVAL)
  else if (flag_util_clamp_max a && (SCHED_CAPACITY_SCALE + 1 <? s32 (util_max + 1))%c)%bool
  then (g, - EINVAL)
  else if (negb (util_min =? -1)%c && negb (util_max =? -1)%c && (util_max <? util_min)%c)%bool
  then (g, - EINVAL)
  else (enable g, 0).

Definition uclamp_reset (a : sched_attr) (id : uclamp_id) (uc_se : uclamp_se) : bool :=
  if (negb (flag_util_clamp a) && negb (user_defined uc_se))%bool then true
  else match id with
       | UCLAMP_MIN => (flag_util_clamp_min a && (sched_util_min a =? u32_minus_1)%c)%bool
       | UCLAMP_MAX => (flag_util_clamp_max a && (sched_util_max a =? u32_minus_1)%c)%bool
       end.

(** The first loop, for one clamp. *)
Definition reset_request (g : globals) (p : task) (a : sched_attr) (id : uclamp_id) : task :=
  let uc_se := get id (uclamp_req p) in
  if negb (uclamp_reset a id uc_se) then p else
  let v := if (rt_task p && bool_decide (id = UCLAMP_MIN))%bool
           then sysctl_sched_uclamp_util_min_rt_default g else uclamp_none id in
  set_req p (set id (uclamp_se_set uc_se v false) (uclamp_req p)).

Definition set_request (p : task) (id : uclamp_id) (v : Z) : task :=
  set_req p (set id (uclamp_se_set (get id (uclamp_req p)) v true) (uclamp_req p)).

Definition __setscheduler_uclamp (g : globals) (p : task) (a : sched_attr) : task :=
  let p := foldl (fun p id => reset_request g p a id) p clamp_ids in
  if negb (flag_util_clamp a) then p else
  let p := if (flag_util_clamp_min a && negb (sched_util_min a =? u32_minus_1)%c)%bool
           then set_request p UCLAMP_MIN (sched_util_min a) else p in
  if (flag_util_clamp_max a && negb (sched_util_max a =? u32_minus_1)%c)%bool
  then set_request p UCLAMP_MAX (sched_util_max a) else p.

(** ** Fork *)
Definition uclamp_fork (p : task) : task :=
  let p := foldl (fun p id => set_uclamp p (set id (set_active (get id (uclamp p)) false) (uclamp p)))
             p clamp_ids in
  if negb (sched_reset_on_fork p) then p
  else foldl (fun p id => set_req p (set id (uclamp_se_set (get id (uclamp_req p)) (uclamp_none id) false)
                                       (uclamp_req p))) p clamp_ids.

(** ** The default boost of real-time tasks *)
Definition __uclamp_update_util_min_rt_default (g : globals) (p : task) : task :=
  let uc_se := get UCLAMP_MIN (uclamp_req p) in
  if user_defined uc_se then p
  else set_req p (set UCLAMP_MIN
         (uclamp_se_set uc_se (sysctl_sched_uclamp_util_min_rt_default g) false) (uclamp_req p)).
Definition uclamp_update_util_min_rt_default (g : globals) (p : task) : task :=
  if negb (rt_task p) then p else __uclamp_update_util_min_rt_default g p.
Definition uclamp_post_fork (g : globals) (p : task) : task := uclamp_update_util_min_rt_default g p.
(** [for_each_process_thread] *)
Definition uclamp_sync_util_min_rt_default (g : globals) (ts : gmap Z task) : gmap Z task :=
  uclamp_update_util_min_rt_default g <$> ts.

(** ** Boot *)
Definition zero_se : uclamp_se := mk_se 0 0 false false.
Definition init_uclamp_rq : rq :=
  let empty id := mk_uclamp_rq (uclamp_none id)
                    (replicate (Z.to_nat UCLAMP_BUCKETS) (mk_bucket 0 0)) in
  mk_rq (mk_both (empty UCLAMP_MIN) (empty UCLAMP_MAX)) false false.
(** [uc_max], the default of both clamps and of the root group. *)
Definition uc_max : uclamp_se := uclamp_se_set zero_se (uclamp_none UCLAMP_MAX) false.
Definition init_request : both uclamp_se :=
  mk_both (uclamp_se_set zero_se (uclamp_none UCLAMP_MIN) false)
          (uclamp_se_set zero_se (uclamp_none UCLAMP_MAX) false).
Definition init_globals : globals :=
  mk_globals false (mk_both uc_max uc_max) SCHED_CAPACITY_SCALE SCHED_CAPACITY_SCALE SCHED_CAPACITY_SCALE.

End Model.
End UClamp.
