(* ===== verification/UClampRq.v ===== *)
(** * Utilization clamps: what counting in and out does to a run queue

    The invariant of one clamp's buckets against the tasks counted in them, and
    that [uclamp_rq_inc_id] and [uclamp_rq_dec_id] keep it. *)
From Stdlib Require Import ZArith Lia.
From S2P Require Import Prelude CLib UClamp.
Import UClamp.

Local Open Scope Z_scope.

Section Buckets.
Context `{cfg : uclamp_config, !uclamp_config_ok cfg}.

(** ** Values and buckets *)
Lemma scale_1024 : SCHED_CAPACITY_SCALE = 1024.
Proof. reflexivity. Qed.

Lemma buckets_bounds : 5 <= UCLAMP_BUCKETS <= 20.
Proof. unfold UCLAMP_BUCKETS. apply buckets_range. Qed.

Lemma delta_bounds : 51 <= UCLAMP_BUCKET_DELTA <= 205.
Proof.
  pose proof buckets_bounds. unfold UCLAMP_BUCKET_DELTA. rewrite scale_1024.
  rewrite div_round_closest by lia. split.
  - apply Z.div_le_lower_bound; [lia|]. Z.to_euclidean_division_equations. lia.
  - apply Z.lt_succ_r, Z.div_lt_upper_bound; [lia|]. Z.to_euclidean_division_equations. lia.
Qed.

Lemma bucket_id_range v : 0 <= v -> 0 <= uclamp_bucket_id v < UCLAMP_BUCKETS.
Proof.
  intros Hv. pose proof buckets_bounds. pose proof delta_bounds. unfold uclamp_bucket_id.
  assert (0 <= v / UCLAMP_BUCKET_DELTA) by (apply Z.div_pos; lia). lia.
Qed.

(** A value of a higher bucket is higher. *)
Lemma bucket_id_lt v w : uclamp_bucket_id v < uclamp_bucket_id w -> v < w.
Proof.
  pose proof delta_bounds. unfold uclamp_bucket_id. intros H1.
  destruct (Z.lt_ge_cases v w) as [|Hge]; [done|]. exfalso.
  assert (w / UCLAMP_BUCKET_DELTA <= v / UCLAMP_BUCKET_DELTA) by (apply Z.div_le_mono; lia). lia.
Qed.

Lemma bit_field_small width v : 0 <= v < 2 ^ width -> bit_field width v = v.
Proof. intros. by apply Z.mod_small. Qed.

Lemma bucket_field v : 0 <= v ->
  bit_field (bits_per UCLAMP_BUCKETS) (uclamp_bucket_id v) = uclamp_bucket_id v.
Proof.
  intros Hv. pose proof buckets_bounds. pose proof (bucket_id_range v Hv).
  apply bit_field_small. rewrite bits_per_def by lia.
  destruct (Z.log2_spec UCLAMP_BUCKETS) as [_ ?]; [lia|]. rewrite Z.add_1_r. lia.
Qed.

(** Requests in range, with the bucket of their value. *)
Definition wf_se (s : uclamp_se) : Prop :=
  0 <= value s <= SCHED_CAPACITY_SCALE /\ bucket_id s = uclamp_bucket_id (value s).

Lemma se_set_wf s v user : 0 <= v <= SCHED_CAPACITY_SCALE ->
  value (uclamp_se_set s v user) = v /\ wf_se (uclamp_se_set s v user).
Proof.
  intros Hv. pose proof scale_1024 as Hs. rewrite Hs in Hv.
  assert (value (uclamp_se_set s v user) = v) as E.
  { cbn [value uclamp_se_set]. rewrite Hs, bits_per_def by lia. apply bit_field_small.
    change (2 ^ (Z.log2 1024 + 1)) with 2048. lia. }
  split; [done|]. unfold wf_se. rewrite E. split; [lia|]. simpl. apply bucket_field. lia.
Qed.
Lemma se_set_range s v user : 0 <= v -> 0 <= bucket_id (uclamp_se_set s v user) < UCLAMP_BUCKETS.
Proof. intros Hv. simpl. rewrite bucket_field by done. by apply bucket_id_range. Qed.

(** ** The tasks counted in a bucket *)
Definition refs (b : Z) (M : gmap Z uclamp_se) : Z :=
  Z.of_nat (size (filter (fun kv => bucket_id kv.2 = b) M)).

Lemma refs_nonneg b M : 0 <= refs b M.
Proof. unfold refs. lia. Qed.

Lemma refs_insert b M pid s : M !! pid = None ->
  refs b (<[pid := s]> M) = refs b M + (if decide (bucket_id s = b) then 1 else 0).
Proof.
  intros Hn. unfold refs. case_decide as Hb.
  - rewrite map_filter_insert_True by done.
    rewrite map_size_insert_None by (by apply map_lookup_filter_None; left). lia.
  - rewrite map_filter_insert_False by done. rewrite delete_id by done. lia.
Qed.

Lemma refs_delete b M pid s : M !! pid = Some s ->
  refs b (delete pid M) = refs b M - (if decide (bucket_id s = b) then 1 else 0).
Proof.
  intros Hs. rewrite <- (insert_delete_id M pid s Hs) at 2.
  rewrite refs_insert by apply lookup_delete_eq. lia.
Qed.

Lemma refs_member b M pid s : M !! pid = Some s -> bucket_id s = b -> 0 < refs b M.
Proof.
  intros Hs Hb. pose proof (refs_delete b M pid s Hs) as H. rewrite decide_True in H by done.
  pose proof (refs_nonneg b (delete pid M)). lia.
Qed.

Lemma refs_pos b M : 0 < refs b M -> exists pid s, M !! pid = Some s /\ bucket_id s = b.
Proof.
  unfold refs. intros H.
  destruct (map_choose (filter (fun kv => bucket_id kv.2 = b) M)) as (pid & s & Hs).
  - intros E. rewrite E, map_size_empty in H. lia.
  - apply map_lookup_filter_Some in Hs as [Hs Hb]. eauto.
Qed.

Lemma refs_empty b : refs b ∅ = 0.
Proof. unfold refs. by rewrite map_filter_empty, map_size_empty. Qed.

(** ** The invariant of one clamp *)

(** Every bucket counts its tasks. *)
Record counts (M : gmap Z uclamp_se) (q : uclamp_rq) : Prop := {
  counts_length : Z.of_nat (length (bucket q)) = UCLAMP_BUCKETS;
  counts_range : map_Forall (fun _ s => 0 <= bucket_id s < UCLAMP_BUCKETS) M;
  counts_tasks b bk : bucket q !! b = Some bk -> tasks bk = refs (Z.of_nat b) M
}.

(** A bucket in use holds a value of its range, no lower than its tasks' and no
    higher than the run queue's. *)
Record covers (M : gmap Z uclamp_se) (q : uclamp_rq) : Prop := {
  covers_wf : map_Forall (fun _ s => wf_se s) M;
  covers_bucket b bk : bucket q !! b = Some bk -> tasks bk <> 0 ->
    uclamp_bucket_id (b_value bk) = Z.of_nat b /\ b_value bk <= rq_value q;
  covers_task pid s bk : M !! pid = Some s -> bucket q !! Z.to_nat (bucket_id s) = Some bk ->
    value s <= b_value bk
}.

(** The run queue's value is that of the highest bucket in use. *)
Definition exact (M : gmap Z uclamp_se) (q : uclamp_rq) : Prop :=
  M <> ∅ -> top_bucket (bucket q) (Z.to_nat UCLAMP_BUCKETS) = Ok (Some (rq_value q)).

Lemma counts_get M q b : counts M q -> 0 <= b < UCLAMP_BUCKETS ->
  exists bk, bucket q !! Z.to_nat b = Some bk /\ aget (bucket q) b = Ok bk /\ tasks bk = refs b M.
Proof.
  intros Hc Hb. pose proof (counts_length _ _ Hc) as Hl.
  destruct (lookup_lt_is_Some_2 (bucket q) (Z.to_nat b)) as [bk Hbk]; [lia|].
  exists bk. split; [done|]. split.
  - rewrite <- (Z2Nat.id b) by lia. by apply aget_ok.
  - apply (counts_tasks _ _ Hc) in Hbk. by rewrite Z2Nat.id in Hbk by lia.
Qed.

(** [top_bucket] finds the highest bucket below [n] that is in use. *)
Lemma top_bucket_spec bs n : (n <= length bs)%nat ->
  (top_bucket bs n = Ok None /\ (forall b bk, (b < n)%nat -> bs !! b = Some bk -> tasks bk = 0)) \/
  (exists b bk, (b < n)%nat /\ bs !! b = Some bk /\ tasks bk <> 0 /\
     top_bucket bs n = Ok (Some (b_value bk)) /\
     (forall b' bk', (b < b' < n)%nat -> bs !! b' = Some bk' -> tasks bk' = 0)).
Proof.
  induction n as [|n IH]; intros Hn; [left; split; [done|lia]|]. cbn [top_bucket].
  destruct (lookup_lt_is_Some_2 bs n) as [bk Hbk]; [lia|].
  rewrite (aget_ok _ _ _ Hbk). cbn [mbind res_bind].
  destruct (Z.eqb_spec (tasks bk) 0) as [E|E].
  - destruct IH as [[-> Hall]|(b & bk' & Hb & Hbk' & Ht & -> & Hall)]; [lia| |].
    + left. split; [done|]. intros b bk' Hb Hbk'. destruct (decide (b = n)) as [->|]; [congruence|].
      apply (Hall b); [lia|done].
    + right. exists b, bk'. split_and!; [lia|done|done|done|]. intros b' bk'' Hb' Hbk''.
      destruct (decide (b' = n)) as [->|]; [congruence|]. apply (Hall b'); [lia|done].
  - right. exists n, bk. split_and!; [lia|done|done|done|]. lia.
Qed.

Lemma map_nonempty (M : gmap Z uclamp_se) pid s : M !! pid = Some s -> M <> ∅.
Proof. intros H ->. by rewrite lookup_empty in H. Qed.

(** When the buckets in use hold values of their ranges, the top one bounds all. *)
Lemma top_is_max bs v : Z.of_nat (length bs) = UCLAMP_BUCKETS ->
  (forall b bk, bs !! b = Some bk -> tasks bk <> 0 -> uclamp_bucket_id (b_value bk) = Z.of_nat b) ->
  top_bucket bs (Z.to_nat UCLAMP_BUCKETS) = Ok (Some v) ->
  forall b bk, bs !! b = Some bk -> tasks bk <> 0 -> b_value bk <= v.
Proof.
  intros Hl Hr Ht. pose proof buckets_bounds.
  destruct (top_bucket_spec bs (Z.to_nat UCLAMP_BUCKETS)) as
    [[E _]|(b & bk & Hb & Hbk & Htb & E & Hall)]; [lia|congruence|].
  rewrite E in Ht. injection Ht as <-. intros b' bk' Hbk' Ht'. apply lookup_lt_Some in Hbk' as Hlt.
  destruct (decide (b' = b)) as [->|Hne]; [by simplify_eq|].
  destruct (decide (b < b')%nat); [exfalso; apply Ht', (Hall b'); [lia|done]|].
  apply Z.lt_le_incl, bucket_id_lt. rewrite (Hr _ _ Hbk' Ht'), (Hr _ _ Hbk Htb). lia.
Qed.

(** ** Arrays of two *)
Lemma get_set_same {A} id (v : A) b : get id (set id v b) = v.
Proof. by destruct id. Qed.
Lemma get_set_other {A} id id' (v : A) b : id <> id' -> get id' (set id v b) = get id' b.
Proof. by destruct id, id'. Qed.
Lemma set_set {A} id (v w : A) b : set id v (set id w b) = set id v b.
Proof. by destruct id. Qed.
Lemma set_get {A} id (b : both A) : set id (get id b) b = b.
Proof. by destruct id, b. Qed.

(** ** What the two functions compute *)

(** Replace one clamp's run-queue entry. *)
Definition put (r : rq) (id : uclamp_id) (q : uclamp_rq) : rq :=
  mk_rq (set id q (uclamp_rqs r)) (flag_idle r) (warned r).

(** [bucket!!b] after a task with clamp [v] entered. *)
Definition enter (bk : uclamp_bucket) (v : Z) : uclamp_bucket :=
  if ((tasks bk + 1 =? 1)%c || (b_value bk <? v)%c)%bool
  then mk_bucket v (tasks bk + 1) else mk_bucket (b_value bk) (tasks bk + 1).

Lemma inc_id_eq g tg r p id M bk :
  let s := uclamp_eff_get g tg p id in
  let q := get id (uclamp_rqs r) in
  let v := if flag_idle r then value s else rq_value q in
  counts M q -> 0 <= bucket_id s < UCLAMP_BUCKETS -> bucket q !! Z.to_nat (bucket_id s) = Some bk ->
  uclamp_rq_inc_id g tg r p id =
  Ok (put r id (mk_uclamp_rq (Z.max v (value s)) (<[Z.to_nat (bucket_id s) := enter bk (value s)]> (bucket q))),
      set_uclamp p (set id (set_active s true) (uclamp p))).
Proof.
  intros s q v Hc Hb Hbk. unfold uclamp_rq_inc_id. fold s. fold q.
  destruct (counts_get M q (bucket_id s)) as (bk' & Hbk' & Hg & _); [done|done|]. simplify_eq.
  rewrite Hg. cbn [mbind res_bind]. change (bucket_id (set_active s true)) with (bucket_id s).
  change (value (set_active s true)) with (value s). change (b_value (mk_bucket ?a ?b)) with a.
  change (tasks (mk_bucket ?a ?b)) with b. fold (enter bk (value s)).
  set (r1 := uclamp_idle_reset r id (value s)).
  assert (get id (uclamp_rqs r1) = mk_uclamp_rq v (bucket q) /\ r1 = put r id (mk_uclamp_rq v (bucket q))) as [E1 Er].
  { unfold r1, v, uclamp_idle_reset, set_rq_value, put. destruct (flag_idle r) eqn:Ef; simpl.
    - rewrite get_set_same. by fold q.
    - fold q. destruct q eqn:Eq. simpl. unfold q in Eq. rewrite <- Eq, set_get. destruct r. by rewrite <- Ef. }
  rewrite E1. cbn [bucket]. rewrite <- (Z2Nat.id (bucket_id s)) at 1 by lia.
  rewrite aset_ok by (by eapply lookup_lt_Some). cbn [mbind res_bind].
  unfold set_buckets, set_rq_value. rewrite Er. unfold put.
  cbn [uclamp_rqs flag_idle warned]. rewrite !set_set, !get_set_same. cbn [rq_value bucket].
  destruct (Z.ltb_spec v (value s)).
  - by rewrite Z.max_r by lia.
  - by rewrite Z.max_l by lia.
Qed.

(** The two sides of a bucket array after a task entered bucket [b]. *)
Lemma entered_lookup (bs : list uclamp_bucket) n bk v m bk' : bs !! n = Some bk ->
  <[n := enter bk v]> bs !! m = Some bk' ->
  (m = n /\ bk' = enter bk v) \/ (m <> n /\ bs !! m = Some bk').
Proof.
  intros Hn H. destruct (decide (m = n)) as [->|Hne].
  - left. rewrite list_lookup_insert_eq in H by (by eapply lookup_lt_Some). by simplify_eq.
  - right. by rewrite list_lookup_insert_ne in H.
Qed.

Lemma tasks_enter bk v : tasks (enter bk v) = tasks bk + 1.
Proof. unfold enter. by case_bool. Qed.
Lemma value_enter bk v : 0 <= tasks bk ->
  b_value (enter bk v) = if (tasks bk =? 0)%c then v else Z.max (b_value bk) v.
Proof.
  intros Ht. unfold enter. destruct (Z.eqb_spec (tasks bk + 1) 1), (Z.eqb_spec (tasks bk) 0),
    (Z.ltb_spec (b_value bk) v); simpl; lia.
Qed.

Lemma counts_enter M q pid s v bk : counts M q -> M !! pid = None ->
  0 <= bucket_id s < UCLAMP_BUCKETS -> bucket q !! Z.to_nat (bucket_id s) = Some bk ->
  counts (<[pid := s]> M) (mk_uclamp_rq v (<[Z.to_nat (bucket_id s) := enter bk (value s)]> (bucket q))).
Proof.
  intros Hc Hn Hb Hbk. constructor; simpl.
  - rewrite length_insert. apply (counts_length _ _ Hc).
  - apply map_Forall_insert_2; [done|apply (counts_range _ _ Hc)].
  - intros m bk' H. rewrite refs_insert by done.
    apply (entered_lookup _ _ _ _ _ _ Hbk) in H as [[-> ->]|[Hne H]].
    + rewrite tasks_enter, (counts_tasks _ _ Hc _ _ Hbk), Z2Nat.id by lia. by rewrite decide_True.
    + rewrite (counts_tasks _ _ Hc _ _ H), decide_False by lia. lia.
Qed.

Lemma counts_tasks_nonneg M q b bk : counts M q -> bucket q !! b = Some bk -> 0 <= tasks bk.
Proof. intros Hc H. rewrite (counts_tasks _ _ Hc _ _ H). apply refs_nonneg. Qed.

Lemma wf_range s : wf_se s -> 0 <= bucket_id s < UCLAMP_BUCKETS.
Proof. intros [? ->]. apply bucket_id_range. lia. Qed.

Lemma covers_enter M q pid s v bk : counts M q -> covers M q -> M !! pid = None -> wf_se s ->
  bucket q !! Z.to_nat (bucket_id s) = Some bk -> (M = ∅ \/ rq_value q <= v) ->
  covers (<[pid := s]> M)
    (mk_uclamp_rq (Z.max v (value s)) (<[Z.to_nat (bucket_id s) := enter bk (value s)]> (bucket q))).
Proof.
  intros Hc Hv Hn Hs Hbk Hor. pose proof (wf_range s Hs) as Hr.
  pose proof (counts_tasks_nonneg _ _ _ _ Hc Hbk) as Ht0.
  assert (forall b bk0, bucket q !! b = Some bk0 -> tasks bk0 <> 0 ->
            uclamp_bucket_id (b_value bk0) = Z.of_nat b /\ b_value bk0 <= v) as Hold.
  { intros b bk0 H Ht. destruct (covers_bucket _ _ Hv _ _ H Ht). split; [done|].
    destruct Hor as [->|]; [|lia]. exfalso. apply Ht. by rewrite (counts_tasks _ _ Hc _ _ H), refs_empty. }
  constructor; simpl.
  - by apply map_Forall_insert_2; [|apply (covers_wf _ _ Hv)].
  - intros m bk' H Ht. apply (entered_lookup _ _ _ _ _ _ Hbk) in H as [[-> ->]|[Hne H]].
    + rewrite value_enter by done. destruct (Z.eqb_spec (tasks bk) 0) as [E|E].
      * split; [|lia]. rewrite Z2Nat.id by lia. symmetry. apply Hs.
      * destruct (Hold _ _ Hbk E) as [H1 H2]. split; [|lia]. rewrite Z2Nat.id in * by lia.
        destruct (Z.max_spec (b_value bk) (value s)) as [[_ ->]|[_ ->]]; [symmetry; apply Hs|done].
    + destruct (Hold _ _ H Ht). split; [done|lia].
  - intros pid' s' bk' Hs' H. apply (entered_lookup _ _ _ _ _ _ Hbk) in H as [[Hm ->]|[Hne H]].
    + rewrite value_enter by done. apply lookup_insert_Some in Hs' as [[<- <-]|[Hne Hs']].
      * case_bool; lia.
      * assert (bucket_id s' = bucket_id s) as Hid.
        { pose proof (wf_range s' (covers_wf _ _ Hv _ _ Hs')). lia. }
        pose proof (covers_task _ _ Hv _ _ _ Hs' (eq_trans (f_equal (fun i => bucket q !! Z.to_nat i) Hid) Hbk)).
        pose proof (refs_member _ _ _ _ Hs' Hid) as Hp.
        pose proof (counts_tasks _ _ Hc _ _ Hbk) as Hct. rewrite Z2Nat.id in Hct by lia.
        destruct (Z.eqb_spec (tasks bk) 0); lia.
    + apply lookup_insert_Some in Hs' as [[<- <-]|[Hne' Hs']]; [done|].
      by apply (covers_task _ _ Hv _ _ _ Hs').
Qed.

(** A description of the top bucket that determines it. *)
Lemma top_bucket_intro bs n b bk : (n <= length bs)%nat -> (b < n)%nat -> bs !! b = Some bk ->
  tasks bk <> 0 -> (forall b' bk', (b < b' < n)%nat -> bs !! b' = Some bk' -> tasks bk' = 0) ->
  top_bucket bs n = Ok (Some (b_value bk)).
Proof.
  intros Hn Hb Hbk Ht Hall.
  destruct (top_bucket_spec bs n Hn) as [[_ H]|(b' & bk' & Hb' & Hbk' & Ht' & -> & Hall')].
  - exfalso. by apply Ht, (H b).
  - assert (b' = b) as ->; [|by simplify_eq].
    destruct (Nat.lt_trichotomy b b') as [Hl|[->|Hl]]; [|done|].
    + exfalso. apply Ht', (Hall b'); [lia|done].
    + exfalso. apply Ht, (Hall' b); [lia|done].
Qed.

(** Nothing is in use exactly when no task is counted. *)
Lemma unused_empty M q : counts M q ->
  (forall b bk, bucket q !! b = Some bk -> tasks bk = 0) -> M = ∅.
Proof.
  intros Hc Hall. apply map_empty. intros pid. destruct (M !! pid) as [s|] eqn:E; [|done]. exfalso.
  pose proof (counts_range _ _ Hc _ _ E) as Hr; cbn beta in Hr.
  destruct (counts_get _ _ _ Hc Hr) as (bk & Hbk & _ & Ht).
  pose proof (refs_member _ _ _ _ E eq_refl). rewrite (Hall _ _ Hbk) in Ht. lia.
Qed.

(** The top bucket in use, when the value is exact. *)
Lemma exact_top M q : counts M q -> exact M q -> M <> ∅ ->
  exists b bk, bucket q !! b = Some bk /\ tasks bk <> 0 /\ b_value bk = rq_value q /\
    (b < Z.to_nat UCLAMP_BUCKETS)%nat /\
    (forall b' bk', (b < b' < Z.to_nat UCLAMP_BUCKETS)%nat -> bucket q !! b' = Some bk' -> tasks bk' = 0).
Proof.
  intros Hc He HM. pose proof (counts_length _ _ Hc) as Hl. specialize (He HM).
  destruct (top_bucket_spec (bucket q) (Z.to_nat UCLAMP_BUCKETS)) as
    [[E _]|(b & bk & Hb & Hbk & Ht & E & Hall)]; [lia|congruence|].
  exists b, bk. split_and!; try done. congruence.
Qed.

Lemma enter_tasks_nonzero bk v : 0 <= tasks bk -> tasks (enter bk v) <> 0.
Proof. intros. rewrite tasks_enter. lia. Qed.

Lemma exact_enter M q pid s v bk : counts M q -> covers M q -> exact M q -> wf_se s ->
  bucket q !! Z.to_nat (bucket_id s) = Some bk ->
  (M = ∅ /\ v <= value s \/ M <> ∅ /\ v = rq_value q) ->
  exact (<[pid := s]> M)
    (mk_uclamp_rq (Z.max v (value s)) (<[Z.to_nat (bucket_id s) := enter bk (value s)]> (bucket q))).
Proof.
  intros Hc Hv He Hs Hbk Hor _. pose proof (wf_range s Hs) as Hr.
  pose proof (counts_length _ _ Hc) as Hl. pose proof (counts_tasks_nonneg _ _ _ _ Hc Hbk) as Ht0.
  pose proof (lookup_lt_Some _ _ _ Hbk) as Hlt. simpl.
  assert (forall top tbk, <[Z.to_nat (bucket_id s) := enter bk (value s)]> (bucket q) !! top = Some tbk ->
    (top < Z.to_nat UCLAMP_BUCKETS)%nat -> tasks tbk <> 0 -> b_value tbk = Z.max v (value s) ->
    (forall b' bk', (top < b' < Z.to_nat UCLAMP_BUCKETS)%nat ->
       <[Z.to_nat (bucket_id s) := enter bk (value s)]> (bucket q) !! b' = Some bk' -> tasks bk' = 0) ->
    top_bucket (<[Z.to_nat (bucket_id s) := enter bk (value s)]> (bucket q)) (Z.to_nat UCLAMP_BUCKETS) =
    Ok (Some (Z.max v (value s)))) as Hfinish.
  { intros top tbk H1 H2 H3 H4 H5. rewrite <- H4. eapply top_bucket_intro; eauto.
    rewrite length_insert. lia. }
  destruct Hor as [[-> Hle]|[HM ->]].
  - apply (Hfinish (Z.to_nat (bucket_id s)) (enter bk (value s))).
    + by apply list_lookup_insert_eq.
    + lia.
    + by apply enter_tasks_nonzero.
    + pose proof (counts_tasks _ _ Hc _ _ Hbk) as H0. rewrite refs_empty in H0.
      rewrite value_enter, H0 by done. simpl. lia.
    + intros b' bk' Hb' Hb'k. apply (entered_lookup _ _ _ _ _ _ Hbk) in Hb'k as [[-> _]|[_ Hb'k]]; [lia|].
      by rewrite (counts_tasks _ _ Hc _ _ Hb'k), refs_empty.
  - destruct (exact_top M q Hc He HM) as (b & tbk & Hb & Htb & Hval & Hbn & Hall).
    destruct (covers_bucket _ _ Hv _ _ Hb Htb) as [Hid _]. rewrite Hval in Hid.
    destruct Hs as [Hsv Hsid].
    destruct (Nat.lt_trichotomy (Z.to_nat (bucket_id s)) b) as [Hn|[Hn|Hn]].
    + assert (value s < rq_value q) by (apply bucket_id_lt; lia).
      apply (Hfinish b tbk); [by rewrite list_lookup_insert_ne by lia|done|done|lia|].
      intros b' bk' Hb' Hb'k. apply (entered_lookup _ _ _ _ _ _ Hbk) in Hb'k as [[-> _]|[_ Hb'k]]; [lia|].
      by apply (Hall b').
    + subst b. simplify_eq. apply (Hfinish (Z.to_nat (bucket_id s)) (enter bk (value s))).
      * by apply list_lookup_insert_eq.
      * done.
      * by apply enter_tasks_nonzero.
      * rewrite value_enter by done. destruct (Z.eqb_spec (tasks bk) 0); [done|lia].
      * intros b' bk' Hb' Hb'k. apply (entered_lookup _ _ _ _ _ _ Hbk) in Hb'k as [[-> _]|[_ Hb'k]]; [lia|].
        by apply (Hall b').
    + assert (rq_value q < value s) by (apply bucket_id_lt; lia).
      assert (tasks bk = 0) as Hz by (apply (Hall (Z.to_nat (bucket_id s))); [lia|done]).
      apply (Hfinish (Z.to_nat (bucket_id s)) (enter bk (value s))).
      * by apply list_lookup_insert_eq.
      * lia.
      * by apply enter_tasks_nonzero.
      * rewrite value_enter, Hz by done. simpl. lia.
      * intros b' bk' Hb' Hb'k. apply (entered_lookup _ _ _ _ _ _ Hbk) in Hb'k as [[-> _]|[_ Hb'k]]; [lia|].
        apply (Hall b'); [lia|done].
Qed.

(** ** Leaving *)

(** [bucket!!b] after a task left. *)
Definition leave (bk : uclamp_bucket) : uclamp_bucket := mk_bucket (b_value bk) (tasks bk - 1).

Definition left_buckets (q : uclamp_rq) (s : uclamp_se) (bk : uclamp_bucket) : list uclamp_bucket :=
  <[Z.to_nat (bucket_id s) := leave bk]> (bucket q).

(** The run queue's value afterwards, and whether the queue became idle. *)
Definition left_value (id : uclamp_id) (q : uclamp_rq) (s : uclamp_se) (bk : uclamp_bucket) : Z * bool :=
  if negb (tasks bk - 1 =? 0)%c then (rq_value q, false)
  else if (rq_value q <=? b_value bk)%c then
    match top_bucket (left_buckets q s bk) (Z.to_nat UCLAMP_BUCKETS) with
    | Ok (Some v) => (v, false)
    | _ => match id with UCLAMP_MAX => (value s, true) | UCLAMP_MIN => (0, false) end
    end
  else (rq_value q, false).

Lemma counts_leave M q pid s v bk : counts M q -> M !! pid = Some s ->
  bucket q !! Z.to_nat (bucket_id s) = Some bk ->
  counts (delete pid M) (mk_uclamp_rq v (left_buckets q s bk)).
Proof.
  intros Hc Hs Hbk. pose proof (counts_range _ _ Hc _ _ Hs) as Hr; cbn beta in Hr. constructor; simpl.
  - unfold left_buckets. rewrite length_insert. apply (counts_length _ _ Hc).
  - apply map_Forall_delete, (counts_range _ _ Hc).
  - intros m bk' H. rewrite (refs_delete _ _ _ _ Hs). unfold left_buckets in H.
    destruct (decide (m = Z.to_nat (bucket_id s))) as [->|Hne].
    + rewrite list_lookup_insert_eq in H by (by eapply lookup_lt_Some). simplify_eq. simpl.
      rewrite (counts_tasks _ _ Hc _ _ Hbk), Z2Nat.id by lia. by rewrite decide_True.
    + rewrite list_lookup_insert_ne in H by done.
      rewrite (counts_tasks _ _ Hc _ _ H), decide_False by lia. lia.
Qed.

(** The bucket of a counted task. *)
Lemma counted_bucket M q pid s : counts M q -> M !! pid = Some s ->
  exists bk, bucket q !! Z.to_nat (bucket_id s) = Some bk /\ aget (bucket q) (bucket_id s) = Ok bk /\
    tasks bk = refs (bucket_id s) M /\ 0 < tasks bk.
Proof.
  intros Hc Hs. destruct (counts_get _ _ _ Hc (counts_range _ _ Hc _ _ Hs)) as (bk & H1 & H2 & H3).
  exists bk. split_and!; try done. rewrite H3. by eapply refs_member.
Qed.

Lemma dec_id_eq r p id M pid bk :
  let s := get id (uclamp p) in
  let q := get id (uclamp_rqs r) in
  counts M q -> M !! pid = Some s -> active s = true -> bucket q !! Z.to_nat (bucket_id s) = Some bk ->
  uclamp_rq_dec_id r p id =
  Ok (mk_rq (set id (mk_uclamp_rq (left_value id q s bk).1 (left_buckets q s bk)) (uclamp_rqs r))
        (flag_idle r || (left_value id q s bk).2)
        (warned r || ((tasks bk - 1 =? 0)%c && (rq_value q <? b_value bk)%c)),
      set_uclamp p (set id (set_active s false) (uclamp p))).
Proof.
  intros s q Hc Hs Ha Hbk. unfold uclamp_rq_dec_id. fold s. fold q. rewrite Ha. cbn [negb].
  destruct (counted_bucket _ _ _ _ Hc Hs) as (bk' & Hbk' & Hg & _ & Hp). simplify_eq.
  pose proof (counts_range _ _ Hc _ _ Hs) as Hr; cbn beta in Hr.
  rewrite Hg. cbn [mbind res_bind]. rewrite (proj2 (Z.eqb_neq (tasks bk) 0)) by lia. cbn [negb].
  assert (warn_on false r = r) as -> by (destruct r; unfold warn_on; simpl; by rewrite orb_false_r).
  fold q. rewrite <- (Z2Nat.id (bucket_id s)) at 1 by lia.
  rewrite aset_ok by (by eapply lookup_lt_Some). cbn [mbind res_bind tasks b_value].
  fold (leave bk). fold (left_buckets q s bk). unfold left_value.
  set (r1 := set_buckets r id (left_buckets q s bk)).
  assert (get id (uclamp_rqs r1) = mk_uclamp_rq (rq_value q) (left_buckets q s bk)) as E1.
  { unfold r1, set_buckets. cbn [uclamp_rqs]. by rewrite get_set_same. }
  destruct (Z.eqb_spec (tasks bk - 1) 0) as [E|E]; cbn [negb andb].
  2:{ rewrite !orb_false_r. done. }
  rewrite E1. cbn [rq_value].
  destruct (Z.leb_spec (rq_value q) (b_value bk)) as [Hle|Hgt].
  - unfold uclamp_rq_max_value. change (uclamp_rqs (warn_on ?b ?x)) with (uclamp_rqs x). rewrite E1.
    cbn [bucket].
    pose proof (counts_length _ _ Hc) as Hl.
    destruct (top_bucket_spec (left_buckets q s bk) (Z.to_nat UCLAMP_BUCKETS)) as
      [[-> _]|(b & bk0 & _ & _ & _ & -> & _)]; [unfold left_buckets; rewrite length_insert; lia| |];
      cbn [mbind res_bind fst snd].
    + destruct id; unfold uclamp_idle_value, set_rq_value, warn_on, set_flag, r1, set_buckets;
        cbn [uclamp_rqs flag_idle warned fst snd]; rewrite !set_set, !get_set_same; cbn [bucket];
        by rewrite ?orb_true_r, ?orb_false_r.
    + unfold set_rq_value, warn_on, r1, set_buckets. cbn [uclamp_rqs flag_idle warned].
      rewrite !set_set, !get_set_same. cbn [bucket]. by rewrite orb_false_r.
  - rewrite (proj2 (Z.ltb_ge _ _)) by lia. cbn [fst snd].
    unfold warn_on, r1, set_buckets. cbn [uclamp_rqs flag_idle warned]. by rewrite !orb_false_r.
Qed.

Lemma left_lookup q s bk b bk' : bucket q !! Z.to_nat (bucket_id s) = Some bk ->
  left_buckets q s bk !! b = Some bk' ->
  (b = Z.to_nat (bucket_id s) /\ bk' = leave bk) \/
  (b <> Z.to_nat (bucket_id s) /\ bucket q !! b = Some bk').
Proof.
  intros Hbk H. unfold left_buckets in H. destruct (decide (b = Z.to_nat (bucket_id s))) as [->|Hne].
  - left. rewrite list_lookup_insert_eq in H by (by eapply lookup_lt_Some). by simplify_eq.
  - right. by rewrite list_lookup_insert_ne in H.
Qed.

(** A bucket in use after a task left was in use before, with the same value. *)
Lemma left_used M q pid s bk b bk' : counts M q -> M !! pid = Some s ->
  bucket q !! Z.to_nat (bucket_id s) = Some bk -> left_buckets q s bk !! b = Some bk' ->
  exists bk0, bucket q !! b = Some bk0 /\ b_value bk0 = b_value bk' /\ (tasks bk' <> 0 -> tasks bk0 <> 0).
Proof.
  intros Hc Hs Hbk H. destruct (counted_bucket _ _ _ _ Hc Hs) as (bk1 & Hbk1 & _ & _ & Hp). simplify_eq.
  apply (left_lookup _ _ _ _ _ Hbk) in H as [[-> ->]|[Hne H]]; [|eauto].
  exists bk. split_and!; [done|done|lia].
Qed.

Lemma left_length M q s bk : counts M q -> Z.of_nat (length (left_buckets q s bk)) = UCLAMP_BUCKETS.
Proof. intros Hc. unfold left_buckets. rewrite length_insert. apply (counts_length _ _ Hc). Qed.

Lemma covers_leave id M q pid s bk : counts M q -> covers M q -> M !! pid = Some s ->
  bucket q !! Z.to_nat (bucket_id s) = Some bk ->
  covers (delete pid M) (mk_uclamp_rq (left_value id q s bk).1 (left_buckets q s bk)).
Proof.
  intros Hc Hv Hs Hbk. pose proof buckets_bounds as HB.
  assert (forall b bk', left_buckets q s bk !! b = Some bk' -> tasks bk' <> 0 ->
            uclamp_bucket_id (b_value bk') = Z.of_nat b /\ b_value bk' <= rq_value q) as Hold.
  { intros b bk' H Ht. destruct (left_used _ _ _ _ _ _ _ Hc Hs Hbk H) as (bk0 & H0 & <- & Hu).
    apply (covers_bucket _ _ Hv _ _ H0). auto. }
  constructor; simpl.
  - apply map_Forall_delete, (covers_wf _ _ Hv).
  - intros b bk' H Ht. destruct (Hold _ _ H Ht) as [Hid Hle]. split; [done|]. unfold left_value.
    destruct (negb _); [done|]. case_bool; [|done].
    destruct (top_bucket_spec (left_buckets q s bk) (Z.to_nat UCLAMP_BUCKETS)) as
      [[_ Hn]|(b0 & bk0 & _ & _ & _ & Et & _)]; [rewrite <- (left_length M q s bk) by done; lia| |].
    + exfalso. apply Ht, (Hn b); [|done]. apply lookup_lt_Some in H.
      rewrite <- (left_length M q s bk) by done. lia.
    + rewrite Et. simpl. eapply (top_is_max (left_buckets q s bk)); eauto using left_length.
      intros b1 bk1 H1 H2. by apply Hold.
  - intros pid' s' bk' [Hne Hs']%lookup_delete_Some H.
    apply (left_lookup _ _ _ _ _ Hbk) in H as [[Hb ->]|[_ H]]; [|by eapply (covers_task _ _ Hv)].
    simpl. eapply (covers_task _ _ Hv); [done|]. by rewrite Hb.
Qed.

(** SCHED_WARN_ON(bucket->value > rq_clamp) is never met. *)
Lemma covers_no_warn M q pid s bk : counts M q -> covers M q -> M !! pid = Some s ->
  bucket q !! Z.to_nat (bucket_id s) = Some bk -> (rq_value q <? b_value bk)%c = false.
Proof.
  intros Hc Hv Hs Hbk. destruct (counted_bucket _ _ _ _ Hc Hs) as (bk1 & Hbk1 & _ & _ & Hp). simplify_eq.
  destruct (covers_bucket _ _ Hv _ _ Hbk ltac:(lia)). by apply Z.ltb_ge.
Qed.

(** The queue becomes idle only when nothing is in use. *)
Lemma left_flag id M q pid s bk : counts M q -> M !! pid = Some s ->
  bucket q !! Z.to_nat (bucket_id s) = Some bk -> (left_value id q s bk).2 = true -> delete pid M = ∅.
Proof.
  intros Hc Hs Hbk. pose proof (counts_leave M q pid s 0 bk Hc Hs Hbk) as Hc'.
  pose proof (left_length M q s bk Hc) as Hll. unfold left_value.
  destruct (negb _); [done|]. destruct (_ <=? _)%c; [|done].
  destruct (top_bucket_spec (left_buckets q s bk) (Z.to_nat UCLAMP_BUCKETS)) as
    [[-> Hn]|(? & ? & _ & _ & _ & -> & _)]; [lia| |done].
  intros _. apply (unused_empty _ _ Hc'). intros n bk' H. apply (Hn n); [|done].
  apply lookup_lt_Some in H. simpl in H. lia.
Qed.

(** When the last task leaves, and only then, the queue is idle for UCLAMP_MAX;
    UCLAMP_MIN goes back to 0. *)
Lemma left_idle id M q pid s bk : counts M q -> exact M q -> M !! pid = Some s ->
  bucket q !! Z.to_nat (bucket_id s) = Some bk ->
  if decide (delete pid M = ∅)
  then left_value id q s bk = match id with UCLAMP_MAX => (value s, true) | UCLAMP_MIN => (0, false) end
  else (left_value id q s bk).2 = false /\
       exact (delete pid M) (mk_uclamp_rq (left_value id q s bk).1 (left_buckets q s bk)).
Proof.
  intros Hc He Hs Hbk. pose proof buckets_bounds as HB.
  pose proof (left_length M q s bk Hc) as Hll. pose proof (map_nonempty _ _ _ Hs) as HM.
  pose proof (counts_leave M q pid s 0 bk Hc Hs Hbk) as Hc'.
  destruct (exact_top M q Hc He HM) as (b & tbk & Hb & Htb & Hval & Hbn & Hall).
  assert (forall b' bk', (b < b' < Z.to_nat UCLAMP_BUCKETS)%nat -> left_buckets q s bk !! b' = Some bk' ->
            tasks bk' = 0) as Hall'.
  { intros b' bk' Hb' H. destruct (left_used _ _ _ _ _ _ _ Hc Hs Hbk H) as (bk0 & H0 & _ & Hu).
    destruct (decide (tasks bk' = 0)) as [|Ht]; [done|]. exfalso. by apply Hu, (Hall b'). }
  assert (forall bk', left_buckets q s bk !! b = Some bk' -> tasks bk' <> 0 -> b_value bk' = rq_value q ->
            top_bucket (left_buckets q s bk) (Z.to_nat UCLAMP_BUCKETS) = Ok (Some (rq_value q))) as Htop.
  { intros bk' H1 H2 <-. eapply top_bucket_intro; eauto; lia. }
  assert (delete pid M = ∅ -> forall n bk', left_buckets q s bk !! n = Some bk' -> tasks bk' = 0) as Hnone.
  { intros E n bk' H. rewrite (counts_tasks _ _ Hc' n bk' H), E. apply refs_empty. }
  unfold left_value. destruct (Z.eqb_spec (tasks bk - 1) 0) as [Ez|Ez]; cbn [negb].
  - destruct (Z.leb_spec (rq_value q) (b_value bk)) as [Hle|Hgt].
    + destruct (top_bucket_spec (left_buckets q s bk) (Z.to_nat UCLAMP_BUCKETS)) as
        [[Et Hn]|(b0 & bk0 & _ & H0 & Ht0 & Et & _)]; [lia| |].
      * rewrite Et. rewrite decide_True; [done|]. apply (unused_empty _ _ Hc').
        intros n bk' H. apply (Hn n); [|done]. apply lookup_lt_Some in H. simpl in H. lia.
      * rewrite decide_False by (intros E; by apply Ht0, (Hnone E b0)). rewrite Et.
        split; [done|]. intros _. done.
    + assert (b <> Z.to_nat (bucket_id s)) as Hne by (intros ->; simplify_eq; lia).
      assert (left_buckets q s bk !! b = Some tbk) as Hlb.
      { unfold left_buckets. by rewrite list_lookup_insert_ne. }
      rewrite decide_False by (intros E; by apply Htb, (Hnone E b)). split; [done|]. intros _.
      by apply (Htop tbk).
  - rewrite decide_False; [split; [done|]; intros _|].
    + destruct (decide (b = Z.to_nat (bucket_id s))) as [->|Hne].
      * simplify_eq. apply (Htop (leave bk)); [|done|done].
        apply list_lookup_insert_eq. by eapply lookup_lt_Some.
      * apply (Htop tbk); [|done|done]. unfold left_buckets. by rewrite list_lookup_insert_ne.
    + intros E. apply Ez. change (tasks bk - 1) with (tasks (leave bk)).
      apply (Hnone E (Z.to_nat (bucket_id s))), list_lookup_insert_eq. by eapply lookup_lt_Some.
Qed.
End Buckets.
