(* ===== verification/UClampSys.v ===== *)
(** * Utilization clamps: task groups, knobs and the life of tasks
    (src/Assignment_4/fifo/core.c)

    The cgroup hierarchy as a tree, the pre-order walk that propagates effective
    clamps, the files uclamp.min and uclamp.max, the sysctl, and the calls from
    enqueue_task, dequeue_task, __sched_setscheduler, sched_fork and
    sched_move_task, over one run queue and the tasks by PID. *)
From Stdlib Require Import ZArith Lia Ascii String.
From S2P Require Import Prelude CLib UClamp.
Import UClamp.

Local Open Scope stdpp_scope.
Local Open Scope Z_scope.

Module UClampSys.

(** [struct task_group]: its number, [uclamp_req], [uclamp], [uclamp_pct] and the
    groups below it. *)
Inductive task_group :=
  TG (id : Z) (tg_req tg_uclamp : both uclamp_se) (uclamp_pct : both Z) (children : list task_group).
Definition tg_id '(TG id _ _ _ _) := id.
Definition tg_req '(TG _ req _ _ _) := req.
Definition tg_uclamp '(TG _ _ eff _ _) := eff.
Definition uclamp_pct '(TG _ _ _ pct _) := pct.

(** [root_task_group]. *)
Definition ROOT : Z := 0.

(** The group with a number, in pre-order. *)
Fixpoint find_group (id : Z) (tg : task_group) : option task_group :=
  match tg with
  | TG i _ _ _ children =>
      if (i =? id)%c then Some tg
      else (fix go cs := match cs with
                         | [] => None
                         | c :: cs => match find_group id c with Some t => Some t | None => go cs end
                         end) children
  end.

Record system := mk_sys { g : globals; the_rq : rq; ts : gmap Z task; root : task_group }.
Definition set_ts (s : system) (r : rq) (t : gmap Z task) : system := mk_sys (g s) r t (root s).
Definition set_g (s : system) (g : globals) : system := mk_sys g (the_rq s) (ts s) (root s).

Section Model.
Context `{cfg : uclamp_config}.
(** lib/string.c and kernel/cgroup/cgroup.c: an error, or the number times 10^shift. *)
Context (strim : string -> string) (cgroup_parse_float : string -> Z -> Z + Z).

(** [task_group(p)->uclamp] for a task that is neither in the root nor in an
    autogroup. *)
Definition group_uclamp (root : task_group) (p : task) : option (both uclamp_se) :=
  id ← group p; tg ← find_group id root; Some (tg_uclamp tg).

(** ** Updating the tasks of a group *)

(** Is [p] a task of the group's css?  The root's css has the autogroups too. *)
Definition in_css (css : Z) (p : task) : bool :=
  match group p with Some i => (i =? css)%c | None => (css =? ROOT)%c end.
Definition css_tasks (css : Z) (t : gmap Z task) : list Z :=
  map fst (List.filter (fun kv => in_css css kv.2) (map_to_list t)).

Definition run_queue : Type := rq * gmap Z task.

Definition update_task (g : globals) (tg : option (both uclamp_se)) (clamps : list uclamp_id)
    (pid : Z) (st : run_queue) : res run_queue :=
  let '(r, t) := st in
  match t !! pid with
  | None => Ok st
  | Some p => '(r, p) ← for_each_clamp_id (fun id '(r, p) => uclamp_update_active g tg r p id) clamps (r, p);
              Ok (r, <[pid := p]> t)
  end.
Fixpoint update_tasks (g : globals) (tg : option (both uclamp_se)) (clamps : list uclamp_id)
    (pids : list Z) (st : run_queue) : res run_queue :=
  match pids with
  | [] => Ok st
  | pid :: pids => st ← update_task g tg clamps pid st; update_tasks g tg clamps pids st
  end.
(** [tg] is what [uclamp_tg_restrict] finds for the tasks of [css]: nothing for
    the root's. *)
Definition uclamp_update_active_tasks (g : globals) (css : Z) (eff : both uclamp_se)
    (clamps : list uclamp_id) (st : run_queue) : res run_queue :=
  update_tasks g (if (css =? ROOT)%c then None else Some eff) clamps (css_tasks css st.2) st.

(** ** cpu_util_update_eff *)

(** [eff]: the requested clamps capped by the parent's, the minimum by the maximum. *)
Definition eff_values (parent : option (both uclamp_se)) (req : both uclamp_se) : both Z :=
  let cap id := let e := value (get id req) in
                match parent with
                | Some up => if (value (get id up) <? e)%c then value (get id up) else e
                | None => e
                end in
  mk_both (Z.min (cap UCLAMP_MIN) (cap UCLAMP_MAX)) (cap UCLAMP_MAX).

(** The entries of [uclamp] that change, and [clamps]. *)
Definition propagate_one (eff : both Z) (st : both uclamp_se * list uclamp_id) (id : uclamp_id)
  : both uclamp_se * list uclamp_id :=
  let '(uc_se, clamps) := st in
  if (get id eff =? value (get id uc_se))%c then (uc_se, clamps)
  else (set id (mk_se (get id eff) (uclamp_bucket_id (get id eff)) (active (get id uc_se))
                  (user_defined (get id uc_se))) uc_se, clamps ++ [id]).
Definition propagate (eff : both Z) (uc_se : both uclamp_se) : both uclamp_se * list uclamp_id :=
  foldl (propagate_one eff) (uc_se, []) clamp_ids.

(** The walk from [css] down; a group whose clamps do not change is skipped with
    all that is below it. *)
Fixpoint cpu_util_update_eff (g : globals) (parent : option (both uclamp_se)) (css : task_group)
    (st : run_queue) : res (task_group * run_queue) :=
  match css with
  | TG id req uc pct children =>
      let '(uc, clamps) := propagate (eff_values parent req) uc in
      match clamps with
      | [] => Ok (css, st)
      | _ =>
          st ← uclamp_update_active_tasks g id uc clamps st;
          '(children, st) ←
            (fix go cs st := match cs with
                             | [] => Ok ([], st)
                             | c :: cs => '(c, st) ← cpu_util_update_eff g (Some uc) c st;
                                          '(cs, st) ← go cs st; Ok (c :: cs, st)
                             end) children st;
          Ok (TG id req uc pct children, st)
      end
  end.

(** Do [f] to the group numbered [target], given its parent's clamps; [Err]: there
    is no such group. *)
Fixpoint at_group (f : option (both uclamp_se) -> task_group -> run_queue -> res (task_group * run_queue))
    (target : Z) (parent : option (both uclamp_se)) (tg : task_group) (st : run_queue)
  : option (res (task_group * run_queue)) :=
  if (tg_id tg =? target)%c then Some (f parent tg st)
  else match tg with
  | TG id req uc pct children =>
      r ← (fix go cs := match cs with
                        | [] => None
                        | c :: cs =>
                            match at_group f target (Some uc) c st with
                            | Some r => Some ('(c, st) ← r; Ok (c :: cs, st))
                            | None => r ← go cs; Some ('(cs, st) ← r; Ok (c :: cs, st))
                            end
                        end) children;
      Some ('(children, st) ← r; Ok (TG id req uc pct children, st))
  end.

(** ** uclamp.min and uclamp.max *)
Definition UCLAMP_PERCENT_SHIFT : Z := 2.
Definition POW10 (exp : Z) : Z := 10 ^ exp.
Definition UCLAMP_PERCENT_SCALE : Z := 100 * POW10 UCLAMP_PERCENT_SHIFT.
Definition ERANGE : Z := 34.

Record uclamp_request := mk_request { percent : Z; util : Z; ret : Z }.
Definition capacity_from_percent (buf : string) : uclamp_request :=
  let buf := strim buf in
  if String.eqb buf "max" then mk_request UCLAMP_PERCENT_SCALE SCHED_CAPACITY_SCALE 0
  else match cgroup_parse_float buf UCLAMP_PERCENT_SHIFT with
       | inl err => mk_request UCLAMP_PERCENT_SCALE SCHED_CAPACITY_SCALE err
       | inr pct =>
           if (UCLAMP_PERCENT_SCALE <? u64 pct)%c
           then mk_request pct SCHED_CAPACITY_SCALE (- ERANGE)
           else mk_request pct
                  (DIV_ROUND_CLOSEST_ULL (u64 (Z.shiftl pct SCHED_CAPACITY_SHIFT)) UCLAMP_PERCENT_SCALE) 0
       end.

(** The request is stored, then the clamps below the group are updated. *)
Definition store_request (id : uclamp_id) (req : uclamp_request) (tg : task_group) : task_group :=
  match tg with
  | TG i r uc pct children =>
      let r := if negb (value (get id r) =? util req)%c
               then set id (uclamp_se_set (get id r) (util req) false) r else r in
      TG i r uc (set id (percent req) pct) children
  end.

(** [Some]: the group exists; 0 stands for [nbytes]. *)
Definition cpu_uclamp_write (css : Z) (id : uclamp_id) (buf : string) (s : system)
  : option (res (Z * system)) :=
  let req := capacity_from_percent buf in
  if negb (ret req =? 0)%c then Some (Ok (ret req, s)) else
  let g := enable (g s) in
  r ← at_group (fun parent tg st => cpu_util_update_eff g parent (store_request id req tg) st)
        css None (root s) (the_rq s, ts s);
  Some ('(root, st) ← r; Ok (0, mk_sys g st.1 st.2 root)).

Definition cpu_uclamp_print (id : uclamp_id) (tg : task_group) : string :=
  if (value (get id (tg_req tg)) =? SCHED_CAPACITY_SCALE)%c then ("max" +:+ newline)%string
  else (let pct := get id (uclamp_pct tg) in
        show (pct / POW10 UCLAMP_PERCENT_SHIFT) +:+ "." +:+
        fmt_0d UCLAMP_PERCENT_SHIFT (pct mod POW10 UCLAMP_PERCENT_SHIFT) +:+ newline)%string.

(** ** Groups come to life *)

(** [alloc_uclamp_sched_group]: no request, the parent's clamps. *)
Definition alloc_uclamp_sched_group (id : Z) (parent : task_group) : task_group :=
  TG id (mk_both (uclamp_se_set zero_se (uclamp_none UCLAMP_MIN) false)
                 (uclamp_se_set zero_se (uclamp_none UCLAMP_MAX) false))
     (tg_uclamp parent) (mk_both 0 0) [].

(** cpu_cgroup_css_alloc and cpu_cgroup_css_online of a group [id] below [parent]. *)
Definition cpu_cgroup_create (id parent : Z) (s : system) : option (res system) :=
  match find_group id (root s) with
  | Some _ => None
  | None =>
      r ← at_group (fun _ tg st =>
            '(c, st) ← cpu_util_update_eff (g s) (Some (tg_uclamp tg)) (alloc_uclamp_sched_group id tg) st;
            match tg with TG i req uc pct children => Ok (TG i req uc pct (c :: children), st) end)
          parent None (root s) (the_rq s, ts s);
      Some ('(root, st) ← r; Ok (mk_sys (g s) st.1 st.2 root))
  end.

(** ** The sysctl *)

(** [uclamp_update_root_tg] *)
Definition uclamp_update_root_tg (g : globals) (tg : task_group) (st : run_queue)
  : res (task_group * run_queue) :=
  match tg with
  | TG i r uc pct children =>
      let r := set UCLAMP_MIN (uclamp_se_set (get UCLAMP_MIN r) (sysctl_sched_uclamp_util_min g) false) r in
      let r := set UCLAMP_MAX (uclamp_se_set (get UCLAMP_MAX r) (sysctl_sched_uclamp_util_max g) false) r in
      cpu_util_update_eff g None (TG i r uc pct children) st
  end.

(** [update_root_tg]: the minimum or the maximum is a new one. *)
Definition update_root_tg (old : globals) (vmin vmax : Z) : bool :=
  (negb (sysctl_sched_uclamp_util_min old =? vmin)%c || negb (sysctl_sched_uclamp_util_max old =? vmax)%c)%bool.
(** The three variables with their new values, and the defaults that change. *)
Definition sysctl_globals (old : globals) (vmin vmax vrt : Z) : globals :=
  let new := mk_globals (sched_uclamp_used old) (uclamp_default old) vmin vmax vrt in
  let new := if negb (sysctl_sched_uclamp_util_min old =? vmin)%c
             then set_default new (set UCLAMP_MIN
                    (uclamp_se_set (get UCLAMP_MIN (uclamp_default new)) vmin false) (uclamp_default new))
             else new in
  let new := if negb (sysctl_sched_uclamp_util_max old =? vmax)%c
             then set_default new (set UCLAMP_MAX
                    (uclamp_se_set (get UCLAMP_MAX (uclamp_default new)) vmax false) (uclamp_default new))
             else new in
  if update_root_tg old vmin vmax then enable new else new.

(** A write of the three values, each an [unsigned int] after proc_dointvec. *)
Definition sysctl_sched_uclamp_handler (vmin vmax vrt : Z) (s : system) : res (Z * system) :=
  if ((vmax <? vmin)%c || (SCHED_CAPACITY_SCALE <? vmax)%c || (SCHED_CAPACITY_SCALE <? vrt)%c)%bool
  then Ok (- EINVAL, s)
  else
    let new := sysctl_globals (g s) vmin vmax vrt in
    '(tg, st) ← (if update_root_tg (g s) vmin vmax then uclamp_update_root_tg new (root s) (the_rq s, ts s)
                 else Ok (root s, (the_rq s, ts s)));
    if negb (sysctl_sched_uclamp_util_min_rt_default (g s) =? vrt)%c
    then Ok (0, mk_sys (enable new) st.1 (uclamp_sync_util_min_rt_default (enable new) st.2) tg)
    else Ok (0, mk_sys new st.1 st.2 tg).

(** ** The callers *)

(** [enqueue_task] and [dequeue_task]: the parts that touch the clamps. *)
Definition enqueue_task (s : system) (pid : Z) (p : task) : res system :=
  '(r, p) ← uclamp_rq_inc (g s) (group_uclamp (root s) p) (the_rq s) p;
  Ok (set_ts s r (<[pid := p]> (ts s))).
Definition dequeue_task (s : system) (pid : Z) (p : task) : res (system * task) :=
  '(r, p) ← uclamp_rq_dec (g s) (the_rq s) p;
  Ok (set_ts s r (<[pid := p]> (ts s)), p).

(** The pattern of __sched_setscheduler and sched_move_task: a queued task is
    taken out, changed by [f], and put back. *)
Definition change_task (s : system) (pid : Z) (p : task) (f : task -> task) : res system :=
  if on_rq p then '(s, p) ← dequeue_task s pid p; enqueue_task s pid (f p)
  else Ok (set_ts s (the_rq s) (<[pid := f p]> (ts s))).

(** What can happen. *)
Inductive event :=
  | Activate (pid : Z)                         (* activate_task *)
  | Deactivate (pid : Z)                       (* deactivate_task *)
  | SetAttr (pid : Z) (a : sched_attr) (rt en reset : bool)
      (* sched_setattr, the class it gives and the new sched_reset_on_fork *)
  | Fork (parent pid : Z) (rt en : bool)       (* sched_fork and sched_post_fork *)
  | MoveTask (pid : Z) (grp : option Z)        (* sched_move_task *)
  | GroupWrite (css : Z) (id : uclamp_id) (buf : string)
  | GroupCreate (id parent : Z)
  | Sysctl (vmin vmax vrt : Z).

(** [None]: the event is not possible in the state. *)
Definition exec (s : system) (e : event) : option (res system) :=
  match e with
  | Activate pid =>
      p ← ts s !! pid;
      if on_rq p then None else Some (enqueue_task s pid (set_on_rq p true))
  | Deactivate pid =>
      p ← ts s !! pid;
      if on_rq p then Some ('(s, p) ← dequeue_task s pid p;
                            Ok (set_ts s (the_rq s) (<[pid := set_on_rq p false]> (ts s))))
      else None
  | SetAttr pid a rt en reset =>
      p ← ts s !! pid;
      let '(g, retval) := if flag_util_clamp a then uclamp_validate (g s) p a else (g s, 0) in
      if negb (retval =? 0)%c then Some (Ok s) else
      Some (change_task (set_g s g) pid p
              (fun p => __setscheduler_uclamp g (set_class p rt en reset) a))
  | Fork parent pid rt en =>
      p ← ts s !! parent;
      match ts s !! pid with
      | Some _ => None
      | None =>
          let p := set_class (uclamp_fork (set_on_rq p false)) rt en false in
          Some (Ok (set_ts s (the_rq s) (<[pid := uclamp_post_fork (g s) p]> (ts s))))
      end
  | MoveTask pid grp =>
      p ← ts s !! pid; Some (change_task s pid p (fun p => set_group p grp))
  | GroupWrite css id buf =>
      if (css =? ROOT)%c then None           (* CFTYPE_NOT_ON_ROOT *)
      else r ← cpu_uclamp_write css id buf s; Some (res_fmap _ _ snd r)
  | GroupCreate id parent => cpu_cgroup_create id parent s
  | Sysctl vmin vmax vrt => Some (res_fmap _ _ snd (sysctl_sched_uclamp_handler vmin vmax vrt s))
  end.

(** A history; [None]: an event was not possible. *)
Fixpoint exec_all (s : system) (es : list event) : option (res system) :=
  match es with
  | [] => Some (Ok s)
  | e :: es => r ← exec s e; match r with Ok s => exec_all s es | Err f => Some (Err f) end
  end.

(** [init_uclamp]: one task, the root group, nothing queued. *)
Definition init_uclamp : system :=
  mk_sys init_globals init_uclamp_rq
    {[1 := mk_task init_request (mk_both zero_se zero_se) None false true false false]}
    (TG ROOT (mk_both uc_max uc_max) (mk_both uc_max uc_max) (mk_both 0 0) []).

End Model.
End UClampSys.
