(* ===== verification/UClampInv.v ===== *)
(** * Utilization clamps: the invariants of the whole system

    The tasks counted in the run queue are those with their [active] bit set;
    counting in and out, re-counting and every event keep the buckets exact. *)
From Stdlib Require Import ZArith Lia String.
From S2P Require Import Prelude CLib UClamp UClampRq UClampSys.
Import UClamp UClampSys.

Local Open Scope stdpp_scope.
Local Open Scope Z_scope.

Section Invariants.
Context `{cfg : uclamp_config, !uclamp_config_ok cfg}.

(** ** The counted tasks *)
Definition counted_se (id : uclamp_id) (p : task) : option uclamp_se :=
  let s := get id (uclamp p) in if active s then Some s else None.
Definition members (id : uclamp_id) (t : gmap Z task) : gmap Z uclamp_se := omap (counted_se id) t.

Lemma members_lookup id t pid : members id t !! pid = (p ← t !! pid; counted_se id p).
Proof. apply lookup_omap. Qed.

Lemma members_in id t pid p s : get id (uclamp p) = s -> active s = true ->
  members id (<[pid := p]> t) = <[pid := s]> (members id t).
Proof.
  intros Hs Ha. unfold members. apply omap_insert_Some. unfold counted_se. by rewrite Hs, Ha.
Qed.
Lemma members_out id t pid p : active (get id (uclamp p)) = false ->
  members id (<[pid := p]> t) = delete pid (members id t).
Proof. intros Ha. unfold members. apply omap_insert_None. unfold counted_se. by rewrite Ha. Qed.
Lemma members_same id t pid p p' : t !! pid = Some p -> get id (uclamp p') = get id (uclamp p) ->
  members id (<[pid := p']> t) = members id t.
Proof.
  intros Hp He. apply map_eq. intros i. rewrite !members_lookup.
  destruct (decide (i = pid)) as [->|Hne].
  - rewrite lookup_insert_eq, Hp. simpl. unfold counted_se. by rewrite He.
  - by rewrite lookup_insert_ne.
Qed.
Lemma members_new id t pid p : t !! pid = None -> active (get id (uclamp p)) = false ->
  members id (<[pid := p]> t) = members id t.
Proof.
  intros Hn Ha. rewrite members_out by done. apply delete_id. by rewrite members_lookup, Hn.
Qed.
Lemma members_member id t pid p : t !! pid = Some p -> active (get id (uclamp p)) = true ->
  members id t !! pid = Some (get id (uclamp p)).
Proof. intros Hp Ha. rewrite members_lookup, Hp. simpl. unfold counted_se. by rewrite Ha. Qed.
Lemma members_not id t pid p : t !! pid = Some p -> active (get id (uclamp p)) = false ->
  members id t !! pid = None.
Proof. intros Hp Ha. rewrite members_lookup, Hp. simpl. unfold counted_se. by rewrite Ha. Qed.

(** The run queue of one clamp against its counted tasks. *)
Definition rq_counts (id : uclamp_id) (r : rq) (t : gmap Z task) : Prop :=
  counts (members id t) (get id (uclamp_rqs r)).
Definition rq_covers (id : uclamp_id) (r : rq) (t : gmap Z task) : Prop :=
  covers (members id t) (get id (uclamp_rqs r)).
Definition rq_exact (id : uclamp_id) (r : rq) (t : gmap Z task) : Prop :=
  exact (members id t) (get id (uclamp_rqs r)).

Definition in_range (s : uclamp_se) : Prop := 0 <= bucket_id s < UCLAMP_BUCKETS.

Lemma wf_set_active s b : wf_se s -> wf_se (set_active s b).
Proof. by intros. Qed.

(** ** One clamp in *)
Lemma inc_id_step g tg r p id t pid (s := uclamp_eff_get g tg p id)
    (p' := set_uclamp p (set id (set_active s true) (uclamp p))) :
  t !! pid = Some p -> active (get id (uclamp p)) = false -> rq_counts id r t -> in_range s ->
  exists r', uclamp_rq_inc_id g tg r p id = Ok (r', p') /\
    (forall id', id' <> id -> get id' (uclamp_rqs r') = get id' (uclamp_rqs r)) /\
    flag_idle r' = flag_idle r /\ warned r' = warned r /\
    rq_counts id r' (<[pid := p']> t) /\
    (rq_covers id r t -> wf_se s -> (flag_idle r = true -> members id t = ∅) ->
       rq_covers id r' (<[pid := p']> t) /\
       (rq_exact id r t ->
        (members id t = ∅ -> flag_idle r = true \/ rq_value (get id (uclamp_rqs r)) = 0) ->
        rq_exact id r' (<[pid := p']> t))).
Proof.
  intros Hp Ha Hc Hr. unfold rq_counts, rq_covers, rq_exact in *.
  destruct (counts_get _ _ (bucket_id s) Hc Hr) as (bk & Hbk & _ & _).
  exists (put r id (mk_uclamp_rq (Z.max (if flag_idle r then value s else rq_value (get id (uclamp_rqs r))) (value s))
            (<[Z.to_nat (bucket_id s) := enter bk (value s)]> (bucket (get id (uclamp_rqs r)))))).
  assert (get id (uclamp p') = set_active s true) as Eg by (unfold p'; simpl; apply get_set_same).
  pose proof (members_not id t pid p Hp Ha) as Hn.
  split; [by eapply inc_id_eq|]. split; [intros id' Hne; by apply get_set_other|].
  do 2 (split; [done|]). rewrite (members_in id t pid p' (set_active s true)) by done.
  unfold put. cbn [uclamp_rqs]. rewrite get_set_same. split.
  - apply (counts_enter _ _ pid (set_active s true)); done.
  - intros Hv Hs Hidle. split.
    + apply (covers_enter _ _ pid (set_active s true)); try done.
      destruct (flag_idle r); [left; auto|right; lia].
    + intros He H0. apply (exact_enter _ _ pid (set_active s true)); try done.
      destruct (decide (members id t = ∅)) as [HM|HM].
      * left. split; [done|]. destruct (H0 HM) as [->| ->]; [done|].
        destruct (flag_idle r); [done|]. destruct Hs. simpl. lia.
      * right. split; [done|]. destruct (flag_idle r); [|done]. by destruct HM; auto.
Qed.

(** ** One clamp out *)
Lemma dec_id_step r p id t pid
    (p' := set_uclamp p (set id (set_active (get id (uclamp p)) false) (uclamp p))) :
  t !! pid = Some p -> active (get id (uclamp p)) = true -> rq_counts id r t ->
  exists r', uclamp_rq_dec_id r p id = Ok (r', p') /\
    (forall id', id' <> id -> get id' (uclamp_rqs r') = get id' (uclamp_rqs r)) /\
    (id = UCLAMP_MIN -> flag_idle r' = flag_idle r) /\
    (flag_idle r' = true -> flag_idle r = true \/ members id (<[pid := p']> t) = ∅) /\
    rq_counts id r' (<[pid := p']> t) /\
    (rq_covers id r t -> warned r' = warned r /\ rq_covers id r' (<[pid := p']> t)) /\
    (rq_exact id r t ->
       rq_exact id r' (<[pid := p']> t) /\
       if decide (members id (<[pid := p']> t) = ∅)
       then match id with
            | UCLAMP_MIN => rq_value (get id (uclamp_rqs r')) = 0
            | UCLAMP_MAX => flag_idle r' = true
            end
       else flag_idle r' = flag_idle r).
Proof.
  intros Hp Ha Hc. unfold rq_counts, rq_covers, rq_exact in *.
  pose proof (members_member id t pid p Hp Ha) as Hm.
  destruct (counted_bucket _ _ _ _ Hc Hm) as (bk & Hbk & _ & _ & _).
  eexists. split; [by eapply dec_id_eq|]. cbn [uclamp_rqs flag_idle warned].
  assert (get id (uclamp p') = set_active (get id (uclamp p)) false) as Eg by (unfold p'; simpl; apply get_set_same).
  rewrite (members_out id t pid p') by (by rewrite Eg). rewrite get_set_same.
  split; [intros id' Hne; by apply get_set_other|]. split.
  { intros ->. unfold left_value. destruct (negb _); [apply orb_false_r|].
    destruct (_ <=? _)%c; [|apply orb_false_r].
    destruct (top_bucket _ _) as [[v|]|]; apply orb_false_r. }
  split; [intros [?|?]%orb_prop; [by left|right; by eapply left_flag]|].
  split; [by apply counts_leave|]. split.
  - intros Hv. split; [|by apply covers_leave].
    rewrite (covers_no_warn _ _ _ _ _ Hc Hv Hm Hbk). by rewrite andb_false_r, orb_false_r.
  - intros He. pose proof (left_idle id _ _ _ _ _ Hc He Hm Hbk) as H. case_decide as HM.
    + split; [by intros Hne|]. rewrite H. destruct id; simpl; [done|apply orb_true_r].
    + destruct H as [-> H]. split; [done|]. by rewrite orb_false_r.
Qed.

(** ** Both clamps *)

(** What always holds of the run queue and the tasks. *)
Record counted (r : rq) (t : gmap Z task) : Prop := {
  counted_rq id : rq_counts id r t;
  counted_both : map_Forall (fun _ p => active (at_max (uclamp p)) = active (at_min (uclamp p))) t
}.

(** What holds while no clamp of a running task is updated in place. *)
Record covered (r : rq) (t : gmap Z task) : Prop := {
  covered_rq id : rq_covers id r t;
  covered_idle : flag_idle r = true -> forall id, members id t = ∅;
  covered_quiet : warned r = false
}.
Record tracked (r : rq) (t : gmap Z task) : Prop := {
  tracked_rq id : rq_exact id r t;
  tracked_min : members UCLAMP_MIN t = ∅ -> rq_value (at_min (uclamp_rqs r)) = 0;
  tracked_max : members UCLAMP_MAX t = ∅ -> flag_idle r = true
}.

Lemma both_active r t pid p id id' : counted r t -> t !! pid = Some p ->
  active (get id (uclamp p)) = active (get id' (uclamp p)).
Proof.
  intros Hc Hp. pose proof (counted_both _ _ Hc _ _ Hp) as H. cbn beta in H. by destruct id, id'; simpl.
Qed.
Lemma members_empty_both r t : counted r t -> members UCLAMP_MIN t = ∅ <-> members UCLAMP_MAX t = ∅.
Proof.
  intros Hc. assert (forall id id', members id t = ∅ -> members id' t = ∅) as H; [|split; apply H].
  intros id id' H. apply map_empty. intros pid. rewrite members_lookup.
  destruct (t !! pid) as [p|] eqn:E; [|done]. simpl. unfold counted_se.
  rewrite (both_active _ _ _ _ id' id Hc E).
  destruct (active (get id (uclamp p))) eqn:Ea; [|done].
  apply (members_member id t pid p E) in Ea. by rewrite H, lookup_empty in Ea.
Qed.

(** The invariants look at the tasks' [uclamp] only. *)
Lemma members_uclamp id t pid p p' : t !! pid = Some p -> uclamp p' = uclamp p ->
  members id (<[pid := p']> t) = members id t.
Proof. intros Hp He. apply (members_same id t pid p); [done|]. by rewrite He. Qed.

Definition same_members (t t' : gmap Z task) : Prop := forall id, members id t' = members id t.

Lemma covered_members r t t' : same_members t t' -> covered r t -> covered r t'.
Proof.
  intros Hm [H1 H2 H3]. constructor; [|intros Hf id; rewrite Hm; auto|done].
  intros id. unfold rq_covers. rewrite Hm. apply H1.
Qed.
Lemma tracked_members r t t' : same_members t t' -> tracked r t -> tracked r t'.
Proof.
  intros Hm [H1 H2 H3]. constructor; rewrite ?Hm; [|done..].
  intros id. unfold rq_exact. rewrite Hm. apply H1.
Qed.
Lemma counted_members r t t' : same_members t t' ->
  map_Forall (fun _ p => active (at_max (uclamp p)) = active (at_min (uclamp p))) t' ->
  counted r t -> counted r t'.
Proof.
  intros Hm Hb [H1 H2]. constructor; [|done]. intros id. unfold rq_counts. rewrite Hm. apply H1.
Qed.
Lemma counted_insert r t pid p p' : t !! pid = Some p -> uclamp p' = uclamp p -> counted r t ->
  same_members t (<[pid := p']> t) /\ counted r (<[pid := p']> t).
Proof.
  intros Hp He Hc.
  assert (same_members t (<[pid := p']> t)) as Hm by (intros id; by apply (members_uclamp id t pid p)).
  split; [done|]. apply (counted_members _ _ _ Hm); [|done].
  apply map_Forall_insert_2; [|apply (counted_both _ _ Hc)].
  rewrite He. apply (counted_both _ _ Hc _ _ Hp).
Qed.

(** The clamps a task gets when it is counted. *)
Definition eff_both (g : globals) (tg : option (both uclamp_se)) (p : task) : both uclamp_se :=
  mk_both (set_active (uclamp_eff_get g tg p UCLAMP_MIN) true)
          (set_active (uclamp_eff_get g tg p UCLAMP_MAX) true).
Lemma eff_get_uclamp g tg p id u : uclamp_eff_get g tg (set_uclamp p u) id = uclamp_eff_get g tg p id.
Proof. done. Qed.

Lemma rq_counts_other id r r' t pid p p' : t !! pid = Some p ->
  get id (uclamp p') = get id (uclamp p) -> get id (uclamp_rqs r') = get id (uclamp_rqs r) ->
  (rq_counts id r' (<[pid := p']> t) <-> rq_counts id r t) /\
  (rq_covers id r' (<[pid := p']> t) <-> rq_covers id r t) /\
  (rq_exact id r' (<[pid := p']> t) <-> rq_exact id r t).
Proof.
  intros Hp Hg Hr. unfold rq_counts, rq_covers, rq_exact.
  by rewrite (members_same id t pid p p') by done; rewrite Hr.
Qed.

(** uclamp_rq_inc of a task that is not counted. *)
Lemma rq_inc_step g tg r p t pid (p' := set_uclamp p (eff_both g tg p)) :
  sched_uclamp_used g = true -> enabled p = true ->
  t !! pid = Some p -> (forall id, active (get id (uclamp p)) = false) -> counted r t ->
  (forall id, in_range (uclamp_eff_get g tg p id)) ->
  exists r', uclamp_rq_inc g tg r p = Ok (r', p') /\ counted r' (<[pid := p']> t) /\
    (covered r t -> (forall id, wf_se (uclamp_eff_get g tg p id)) ->
       covered r' (<[pid := p']> t) /\ (tracked r t -> tracked r' (<[pid := p']> t))).
Proof.
  intros Hu Hen Hp Ha Hc Hr. unfold uclamp_rq_inc. rewrite Hu, Hen. cbn [negb clamp_ids for_each_clamp_id].
  destruct (inc_id_step g tg r p UCLAMP_MIN t pid) as (r1 & -> & Ho1 & Hf1 & Hw1 & Hc1 & Hv1);
    [done|apply Ha|apply (counted_rq _ _ Hc)|apply Hr|].
  cbn [mbind res_bind].
  set (p1 := set_uclamp p (set UCLAMP_MIN _ (uclamp p))) in *. set (t1 := <[pid := p1]> t) in *.
  assert (t1 !! pid = Some p1) as Hp1 by apply lookup_insert_eq.
  pose proof (rq_counts_other UCLAMP_MAX r r1 t pid p p1 Hp ltac:(done) ltac:(by apply Ho1)) as (Oc & Ov & Oe).
  destruct (inc_id_step g tg r1 p1 UCLAMP_MAX t1 pid) as (r2 & -> & Ho2 & Hf2 & Hw2 & Hc2 & Hv2);
    [done|apply (Ha UCLAMP_MAX)|by apply Oc, (counted_rq _ _ Hc)|apply (Hr UCLAMP_MAX)|].
  cbn [mbind res_bind].
  change (set_uclamp p1 (set UCLAMP_MAX _ (uclamp p1))) with p' in *.
  assert (<[pid := p']> t1 = <[pid := p']> t) as Et by apply insert_insert_eq.
  pose proof (rq_counts_other UCLAMP_MIN r1 r2 t1 pid p1 p' Hp1 ltac:(done) ltac:(by apply Ho2)) as (Pc & Pv & Pe).
  rewrite Et in *.
  assert (forall id, members id (<[pid := p']> t) <> ∅) as Hne.
  { intros id. apply (map_nonempty _ pid (get id (uclamp p'))). apply members_member; [apply lookup_insert_eq|].
    by destruct id. }
  set (rf := if flag_idle r2 then set_flag r2 false else r2).
  assert (uclamp_rqs rf = uclamp_rqs r2 /\ flag_idle rf = false /\ warned rf = warned r2) as (Eu & Ef & Ew).
  { unfold rf. by destruct (flag_idle r2) eqn:E. }
  exists rf. split; [done|]. unfold rq_counts, rq_covers, rq_exact in *. split.
  - constructor.
    + intros id. unfold rq_counts. rewrite Eu. destruct id; [by apply Pc|done].
    + apply map_Forall_insert_2; [done|apply (counted_both _ _ Hc)].
  - intros Hcov Hwf.
    assert (members UCLAMP_MAX t1 = members UCLAMP_MAX t) as Em by (by apply (members_same _ _ _ p)).
    destruct Hv1 as [Hv1 He1]; [apply (covered_rq _ _ Hcov)|apply Hwf|intros; by apply (covered_idle _ _ Hcov)|].
    destruct Hv2 as [Hv2 He2]; [by apply Ov, (covered_rq _ _ Hcov)|apply (Hwf UCLAMP_MAX)| |].
    { rewrite Hf1, Em. intros; by apply (covered_idle _ _ Hcov). }
    split.
    + constructor; [|by rewrite Ef|rewrite Ew, Hw2, Hw1; apply (covered_quiet _ _ Hcov)].
      intros id. unfold rq_covers. rewrite Eu. destruct id; [by apply Pv|done].
    + intros Ht. constructor; [|by intros ?%Hne..].
      intros id. unfold rq_exact. rewrite Eu. destruct id.
      * apply Pe, He1; [apply (tracked_rq _ _ Ht)|]. intros E. right. by apply (tracked_min _ _ Ht).
      * apply He2; [by apply Oe, (tracked_rq _ _ Ht)|]. rewrite Em, Hf1. intros E. left.
        by apply (tracked_max _ _ Ht).
Qed.

Definition neither (p : task) : both uclamp_se :=
  mk_both (set_active (at_min (uclamp p)) false) (set_active (at_max (uclamp p)) false).

(** The two calls of uclamp_rq_dec_id for a counted task. *)
Lemma rq_dec_step g r p t pid (p' := set_uclamp p (neither p)) :
  sched_uclamp_used g = true -> enabled p = true ->
  t !! pid = Some p -> (forall id, active (get id (uclamp p)) = true) -> counted r t ->
  exists r', uclamp_rq_dec g r p = Ok (r', p') /\ counted r' (<[pid := p']> t) /\
    (covered r t -> covered r' (<[pid := p']> t)) /\
    (tracked r t -> tracked r' (<[pid := p']> t)).
Proof.
  intros Hu Hen Hp Ha Hc. unfold uclamp_rq_dec. rewrite Hu, Hen. cbn [negb clamp_ids for_each_clamp_id].
  destruct (dec_id_step r p UCLAMP_MIN t pid) as (r1 & -> & Ho1 & Hf1 & _ & Hc1 & Hv1 & He1);
    [done|apply Ha|apply (counted_rq _ _ Hc)|].
  cbn [mbind res_bind].
  set (p1 := set_uclamp p (set UCLAMP_MIN _ (uclamp p))) in *. set (t1 := <[pid := p1]> t) in *.
  assert (t1 !! pid = Some p1) as Hp1 by apply lookup_insert_eq.
  pose proof (rq_counts_other UCLAMP_MAX r r1 t pid p p1 Hp ltac:(done) ltac:(by apply Ho1)) as (Oc & Ov & Oe).
  destruct (dec_id_step r1 p1 UCLAMP_MAX t1 pid) as (r2 & -> & Ho2 & _ & Hi2 & Hc2 & Hv2 & He2);
    [done|apply (Ha UCLAMP_MAX)|by apply Oc, (counted_rq _ _ Hc)|].
  cbn [mbind res_bind].
  change (set_uclamp p1 (set UCLAMP_MAX _ (uclamp p1))) with p' in *.
  assert (<[pid := p']> t1 = <[pid := p']> t) as Et by apply insert_insert_eq.
  pose proof (rq_counts_other UCLAMP_MIN r1 r2 t1 pid p1 p' Hp1 ltac:(done) ltac:(by apply Ho2)) as (Pc & Pv & Pe).
  assert (members UCLAMP_MIN (<[pid := p']> t1) = members UCLAMP_MIN t1) as Em
    by (by apply (members_same _ _ _ p1)).
  rewrite Et in *. exists r2.
  assert (counted r2 (<[pid := p']> t)) as Hcd.
  { constructor; [|apply map_Forall_insert_2; [done|apply (counted_both _ _ Hc)]].
    intros id. destruct id; [by apply Pc|done]. }
  split; [done|]. split; [done|]. split.
  - intros Hcov. destruct (Hv1 (covered_rq _ _ Hcov UCLAMP_MIN)) as [Hw1 Hcv1].
    destruct (Hv2 (proj2 Ov (covered_rq _ _ Hcov UCLAMP_MAX))) as [Hw2 Hcv2]. constructor.
    + intros id. destruct id; [by apply Pv|done].
    + intros Hf. destruct (Hi2 Hf) as [Hf0|HM].
      * exfalso. rewrite Hf1 in Hf0 by done. pose proof (covered_idle _ _ Hcov Hf0 UCLAMP_MIN) as H0.
        pose proof (members_member UCLAMP_MIN t pid p Hp (Ha UCLAMP_MIN)) as Hm.
        by rewrite H0, lookup_empty in Hm.
      * intros id. destruct id; [by apply (members_empty_both _ _ Hcd)|done].
    + rewrite Hw2, Hw1. apply (covered_quiet _ _ Hcov).
  - intros Ht. destruct (He1 (tracked_rq _ _ Ht UCLAMP_MIN)) as [Hx1 Hd1].
    destruct (He2 (proj2 Oe (tracked_rq _ _ Ht UCLAMP_MAX))) as [Hx2 Hd2].
    constructor.
    + intros id. destruct id; [by apply Pe|done].
    + intros HM. rewrite Em in HM. rewrite HM in Hd1. rewrite decide_True in Hd1 by done.
      change (at_min (uclamp_rqs r2)) with (get UCLAMP_MIN (uclamp_rqs r2)). by rewrite Ho2.
    + intros HM. rewrite HM in Hd2. by rewrite decide_True in Hd2.
Qed.
End Invariants.
