(* ===== verification/UClampTheorems.v ===== *)
(** * Utilization clamps: theorems (src/Assignment_4/fifo/core.c)

    Over every history of wake-ups, sleeps, requests, forks, moves, knob and
    sysctl writes the buckets count their tasks and nothing faults; without
    clamps updated in place the run queue never promises less than a task asks;
    and two ways the clamp of a running task gets lost. *)
From Stdlib Require Import ZArith Lia Ascii String.
From S2P Require Import Prelude CLib UClamp UClampRq UClampSys UClampInv.
Import UClamp UClampSys.

Local Open Scope stdpp_scope.
Local Open Scope Z_scope.

(** ** Predicates over the group tree *)
Fixpoint tree_all (P : both uclamp_se -> both uclamp_se -> Prop) (tg : task_group) : Prop :=
  match tg with
  | TG _ req eff _ children =>
      P req eff /\ (fix go cs := match cs with [] => True | c :: cs => tree_all P c /\ go cs end) children
  end.
Definition trees_all (P : both uclamp_se -> both uclamp_se -> Prop) (cs : list task_group) : Prop :=
  (fix go cs := match cs with [] => True | c :: cs => tree_all P c /\ go cs end) cs.

Lemma task_group_ind' (P : task_group -> Prop) :
  (forall id req eff pct cs, Forall P cs -> P (TG id req eff pct cs)) -> forall tg, P tg.
Proof.
  intros H. fix IH 1. intros [id req eff pct cs]. apply H.
  induction cs as [|c cs IHcs]; constructor; [apply IH|apply IHcs].
Qed.

Lemma find_group_all P id tg : tree_all P tg -> forall t, find_group id tg = Some t -> tree_all P t.
Proof.
  induction tg as [i req eff pct cs IH] using task_group_ind'. intros Ht t. cbn [find_group].
  destruct (i =? id)%c; [by intros [= <-]|]. destruct Ht as [_ Hcs].
  induction cs as [|c cs IHcs]; [done|]. destruct Hcs as [Hc Hcs].
  apply Forall_cons in IH as [IH1 IH2].
  destruct (find_group id c) as [t'|] eqn:E; [intros [= <-]; eauto|]. by apply IHcs.
Qed.

Section System.
Context `{cfg : uclamp_config, !uclamp_config_ok cfg}.
Context (strim : string -> string) (cgroup_parse_float : string -> Z -> Z + Z).

(** The invariant is stated for a set [V] of values a request may hold and what it
    makes of a clamp entry, [Q]. *)
Context (V : Z -> Prop) (Q : uclamp_se -> Prop).
Hypothesis V_scale : forall v, 0 <= v <= SCHED_CAPACITY_SCALE -> V v.
Hypothesis Q_set : forall s v user, V v -> Q (uclamp_se_set s v user).
Hypothesis Q_raw : forall v a user, V v -> Q (mk_se v (uclamp_bucket_id v) a user).
Hypothesis Q_value : forall s, Q s -> V (value s).
Hypothesis Q_range : forall s, Q s -> in_range s.
Hypothesis Q_active : forall s b, Q s -> Q (set_active s b).

Definition QQ (b : both uclamp_se) : Prop := forall id, Q (get id b).

Record task_inv (g : globals) (p : task) : Prop := {
  task_req : QQ (uclamp_req p);
  task_active id : active (get id (uclamp p)) = true ->
    on_rq p = true /\ enabled p = true /\ sched_uclamp_used g = true
}.
Record sys_inv (s : system) : Prop := {
  inv_counted : counted (the_rq s) (ts s);
  inv_tasks : map_Forall (fun _ p => task_inv (g s) p) (ts s);
  inv_default : QQ (uclamp_default (g s));
  inv_rt : V (sysctl_sched_uclamp_util_min_rt_default (g s));
  inv_groups : tree_all (fun req eff => QQ req /\ QQ eff) (root s)
}.

Lemma set_both {A} (P : A -> Prop) id v b : (forall i, P (get i b)) -> P v -> forall i, P (get i (set id v b)).
Proof. intros Hb Hv i. destruct id, i; simpl; try done; [apply (Hb UCLAMP_MAX)|apply (Hb UCLAMP_MIN)]. Qed.

Lemma eff_get_Q g tg p id : QQ (uclamp_default g) -> QQ (uclamp_req p) ->
  (forall u, tg = Some u -> QQ u) -> Q (uclamp_eff_get g tg p id).
Proof.
  intros Hd Hr Ht. unfold uclamp_eff_get. destruct (_ <? _)%c; [apply Hd|].
  unfold uclamp_tg_restrict. destruct tg as [u|]; [|apply Hr]. destruct (_ || _)%bool; [by apply Ht|apply Hr].
Qed.
Lemma group_uclamp_Q s p u : sys_inv s -> group_uclamp (root s) p = Some u -> QQ u.
Proof.
  intros Hs. unfold group_uclamp. destruct (group p) as [id|]; [|done]. simpl.
  destruct (find_group id (root s)) as [tg|] eqn:E; [|done]. intros [= <-].
  apply (find_group_all _ _ _ (inv_groups _ Hs)) in E. destruct tg. by destruct E as [[_ ?] _].
Qed.

(** [covered] and [tracked] of the system's run queue. *)
Definition sys_covered (s : system) : Prop := covered (the_rq s) (ts s).
Definition sys_tracked (s : system) : Prop := tracked (the_rq s) (ts s).
(** Nothing is lost from [a] to [b]. *)
Definition keeps (a b : system) : Prop :=
  (forall s, Q s -> wf_se s) -> sys_covered a -> sys_covered b /\ (sys_tracked a -> sys_tracked b).

Lemma keeps_refl a : keeps a a.
Proof. by intros _ H. Qed.
Lemma keeps_trans a b c : keeps a b -> keeps b c -> keeps a c.
Proof. intros H1 H2 Hq Ha. destruct (H1 Hq Ha) as [Hb Hb']. destruct (H2 Hq Hb). split; auto. Qed.

(** ** A task changed without being counted *)
Lemma put_sys s pid p0 p : sys_inv s -> ts s !! pid = Some p0 -> uclamp p = uclamp p0 ->
  task_inv (g s) p ->
  sys_inv (set_ts s (the_rq s) (<[pid := p]> (ts s))) /\
  keeps s (set_ts s (the_rq s) (<[pid := p]> (ts s))).
Proof.
  intros [H1 H2 H3 H4 H5] Hp Hu Hi.
  destruct (counted_insert _ _ _ _ p Hp Hu H1) as [Hm Hc]. split.
  - constructor; simpl; try done. by apply map_Forall_insert_2.
  - intros _ Hv. split; [by apply (covered_members _ _ _ Hm)|intros; by apply (tracked_members _ _ _ Hm)].
Qed.

(** ** dequeue_task *)
Lemma dequeue_sys s pid p : sys_inv s -> ts s !! pid = Some p ->
  exists s' u, dequeue_task s pid p = Ok (s', set_uclamp p u) /\ sys_inv s' /\ keeps s s' /\
    g s' = g s /\ root s' = root s /\ ts s' !! pid = Some (set_uclamp p u) /\
    (forall id, active (get id u) = false).
Proof.
  intros Hs Hp. pose proof (inv_tasks _ Hs _ _ Hp) as Ht; cbn beta in Ht.
  pose proof (inv_counted _ Hs) as Hc.
  assert (forall id, active (get id (uclamp p)) = active (get UCLAMP_MIN (uclamp p))) as Hboth
    by (intros; by eapply both_active).
  assert (set_uclamp p (uclamp p) = p) as Eself by (by destruct p).
  assert (set_ts s (the_rq s) (<[pid := p]> (ts s)) = s) as Esame.
  { unfold set_ts. rewrite insert_id by done. by destruct s. }
  unfold dequeue_task. destruct (active (get UCLAMP_MIN (uclamp p))) eqn:Ea.
  - destruct (task_active _ _ Ht UCLAMP_MIN Ea) as (Hon & Hen & Hu).
    destruct (rq_dec_step (g s) (the_rq s) p (ts s) pid) as (r' & -> & Hc' & Hv' & Ht'); try done.
    cbn [mbind res_bind]. eexists _, (neither p). split; [done|].
    split; [|split; [by intros _ Hv; split; [apply Hv'|apply Ht']|split_and!; try done]].
    + destruct Hs as [H1 H2 H3 H4 H5]. constructor; simpl; try done.
      apply map_Forall_insert_2; [|done]. constructor; [apply (task_req _ _ Ht)|]. by intros [].
    + apply lookup_insert_eq.
    + by intros [].
  - assert (forall id, active (get id (uclamp p)) = false) as Hno by (intros id; by rewrite Hboth).
    assert (forall id, uclamp_rq_dec_id (the_rq s) p id = Ok (the_rq s, p)) as Hd
      by (intros id; unfold uclamp_rq_dec_id; by rewrite Hno).
    assert (uclamp_rq_dec (g s) (the_rq s) p = Ok (the_rq s, p)) as ->.
    { unfold uclamp_rq_dec. destruct (negb _); [done|]. destruct (negb _); [done|]. cbn [clamp_ids for_each_clamp_id]. rewrite Hd. cbn [mbind res_bind]. rewrite Hd. done. }
    cbn [mbind res_bind]. rewrite Esame. exists s, (uclamp p). rewrite Eself.
    split_and!; try done.
Qed.

(** ** enqueue_task *)
Lemma enqueue_sys s pid p0 p : sys_inv s -> ts s !! pid = Some p0 -> uclamp p = uclamp p0 ->
  (forall id, active (get id (uclamp p)) = false) -> QQ (uclamp_req p) -> on_rq p = true ->
  exists s', enqueue_task s pid p = Ok s' /\ sys_inv s' /\ keeps s s' /\ g s' = g s /\ root s' = root s.
Proof.
  intros Hs Hp Hu Ha Hq Hon.
  assert (task_inv (g s) p) as Hi by (constructor; [done|intros id; by rewrite Ha]).
  destruct (put_sys s pid p0 p Hs Hp Hu Hi) as [Hs1 Hk1].
  set (s1 := set_ts s (the_rq s) (<[pid := p]> (ts s))) in *.
  assert (ts s1 !! pid = Some p) as Hp1 by apply lookup_insert_eq.
  assert (forall id, Q (uclamp_eff_get (g s) (group_uclamp (root s) p) p id)) as He.
  { intros id. apply eff_get_Q; [apply (inv_default _ Hs)|done|]. intros u. by apply group_uclamp_Q. }
  unfold enqueue_task.
  destruct (sched_uclamp_used (g s)) eqn:Eu; [destruct (enabled p) eqn:Een|].
  - destruct (rq_inc_step (g s) (group_uclamp (root s) p) (the_rq s) p (ts s1) pid) as (r' & -> & Hc' & Hv');
      [done|done|done|done|apply (inv_counted _ Hs1)|intros; by apply Q_range|].
    cbn [mbind res_bind]. eexists. split; [done|]. unfold s1 in *. cbn [ts set_ts] in *.
    rewrite insert_insert_eq in *. split_and!; try done.
    + destruct Hs as [H1 H2 H3 H4 H5]. constructor; simpl; try done.
      apply map_Forall_insert_2; [|done]. constructor; [done|]. simpl. done.
    + eapply keeps_trans; [exact Hk1|]. intros Hwf Hcov. destruct Hv' as [Hv1 Hv2]; [done|intros; by apply Hwf|].
      split; done.
  - exists s1. unfold uclamp_rq_inc. by rewrite Eu, Een.
  - exists s1. unfold uclamp_rq_inc. by rewrite Eu.
Qed.

(** ** A change between the two *)
Lemma change_sys s pid p f : sys_inv s -> ts s !! pid = Some p ->
  (forall q, uclamp (f q) = uclamp q /\ on_rq (f q) = on_rq q) ->
  (forall q, QQ (uclamp_req q) -> QQ (uclamp_req (f q))) ->
  exists s', change_task s pid p f = Ok s' /\ sys_inv s' /\ keeps s s'.
Proof.
  intros Hs Hp Hf Hq. pose proof (inv_tasks _ Hs _ _ Hp) as Ht; cbn beta in Ht. unfold change_task.
  destruct (on_rq p) eqn:Eon.
  - destruct (dequeue_sys s pid p Hs Hp) as (s1 & u & -> & Hs1 & Hk1 & Hg1 & Hr1 & Hp1 & Ha).
    cbn [mbind res_bind]. destruct (Hf (set_uclamp p u)) as [Hfu Hfo].
    destruct (enqueue_sys s1 pid _ (f (set_uclamp p u)) Hs1 Hp1) as (s2 & -> & Hs2 & Hk2 & _ & _).
    + done.
    + intros id. rewrite Hfu. apply Ha.
    + apply Hq, (task_req _ _ Ht).
    + by rewrite Hfo.
    + exists s2. split; [done|]. split; [done|]. by eapply keeps_trans.
  - destruct (Hf p) as [Hfu Hfo].
    destruct (put_sys s pid p (f p) Hs Hp Hfu) as [Hs1 Hk1]; [|by eexists].
    constructor; [apply Hq, (task_req _ _ Ht)|]. intros id. rewrite Hfu. intros Ha.
    destruct (task_active _ _ Ht id Ha). congruence.
Qed.

(** ** Requests *)
Definition attr_ok (a : sched_attr) : Prop :=
  (sched_util_min a = u32_minus_1 \/ V (sched_util_min a)) /\
  (sched_util_max a = u32_minus_1 \/ V (sched_util_max a)).

Lemma none_V id : V (uclamp_none id).
Proof. apply V_scale. rewrite scale_1024. destruct id; simpl; [lia|]. rewrite scale_1024. lia. Qed.

Lemma set_QQ id v b : QQ b -> Q v -> QQ (set id v b).
Proof. intros Hb Hv i. by apply (set_both Q). Qed.

Lemma setscheduler_fields g p a :
  uclamp (__setscheduler_uclamp g p a) = uclamp p /\ on_rq (__setscheduler_uclamp g p a) = on_rq p.
Proof.
  unfold __setscheduler_uclamp. cbn [foldl clamp_ids]. unfold reset_request, set_request.
  repeat case_bool; done.
Qed.
Lemma reset_request_QQ g p a id : V (sysctl_sched_uclamp_util_min_rt_default g) ->
  QQ (uclamp_req p) -> QQ (uclamp_req (reset_request g p a id)).
Proof.
  intros Hrt Hq. unfold reset_request. case_bool; [done|]. simpl. apply set_QQ; [done|]. apply Q_set.
  case_bool; [done|apply none_V].
Qed.
Lemma setscheduler_QQ g p a : V (sysctl_sched_uclamp_util_min_rt_default g) -> attr_ok a ->
  QQ (uclamp_req p) -> QQ (uclamp_req (__setscheduler_uclamp g p a)).
Proof.
  intros Hrt [Hmin Hmax] Hq. unfold __setscheduler_uclamp. cbn [foldl clamp_ids].
  pose proof (reset_request_QQ g p a UCLAMP_MIN Hrt Hq) as H1.
  pose proof (reset_request_QQ g _ a UCLAMP_MAX Hrt H1) as H2.
  set (p2 := reset_request g (reset_request g p a UCLAMP_MIN) a UCLAMP_MAX) in *. clearbody p2.
  case_bool; [done|].
  assert (forall (b : bool) id v q, v = u32_minus_1 \/ V v -> QQ (uclamp_req q) ->
            QQ (uclamp_req (if (b && negb (v =? u32_minus_1)%c)%bool then set_request q id v else q))) as Hset.
  { intros b id v q Hv Hq'. destruct b; [|done]. destruct (Z.eqb_spec v u32_minus_1) as [|Hne]; [done|].
    simpl. apply set_QQ; [done|]. apply Q_set. by destruct Hv. }
  apply Hset; [done|]. by apply Hset.
Qed.

Lemma set_g_sys s g' : sys_inv s -> sched_uclamp_used g' = true ->
  QQ (uclamp_default g') -> V (sysctl_sched_uclamp_util_min_rt_default g') ->
  sys_inv (set_g s g') /\ keeps s (set_g s g').
Proof.
  intros [H1 H2 H3 H4 H5] Hu Hd Hr. split; [|by intros _ H].
  constructor; simpl; try done. eapply map_Forall_impl; [exact H2|]. intros i p Hp; cbn beta in *.
  constructor; [apply (task_req _ _ Hp)|]. intros id Ha. destruct (task_active _ _ Hp id Ha) as (? & ? & _). done.
Qed.
Lemma validate_sys s p a : sys_inv s ->
  (uclamp_validate (g s) p a).1 = g s \/ (uclamp_validate (g s) p a).1 = enable (g s).
Proof. intros _. unfold uclamp_validate. repeat case_bool; auto. Qed.

Lemma setattr_sys s pid p a rt en reset : sys_inv s -> ts s !! pid = Some p -> attr_ok a ->
  exists s', exec strim cgroup_parse_float s (SetAttr pid a rt en reset) = Some (Ok s') /\
    sys_inv s' /\ keeps s s'.
Proof.
  intros Hs Hp Ha. cbn [exec]. rewrite Hp. cbn [mbind option_bind].
  destruct (if flag_util_clamp a then uclamp_validate (g s) p a else (g s, 0)) as [g' rv] eqn:Eg.
  assert (sys_inv (set_g s g') /\ keeps s (set_g s g') /\ ts (set_g s g') = ts s) as (Hs1 & Hk1 & Ht1).
  { assert (g' = g s \/ g' = enable (g s)) as [-> | ->].
    { destruct (flag_util_clamp a); [|injection Eg; auto].
      pose proof (validate_sys s p a Hs) as H. rewrite Eg in H. exact H. }
    - assert (set_g s (g s) = s) as -> by (by destruct s). split_and!; [done|apply keeps_refl|done].
    - destruct (set_g_sys s (enable (g s)) Hs) as [? ?]; [done|apply (inv_default _ Hs)|apply (inv_rt _ Hs)|done]. }
  case_bool; [exists s; split_and!; [done|done|apply keeps_refl]|].
  destruct (change_sys (set_g s g') pid p (fun p => __setscheduler_uclamp g' (set_class p rt en reset) a) Hs1)
    as (s' & -> & Hs' & Hk').
  - by rewrite Ht1.
  - intros q. apply (setscheduler_fields g' (set_class q rt en reset) a).
  - intros q Hq. apply setscheduler_QQ; [apply (inv_rt _ Hs1)|done|done].
  - exists s'. split_and!; [done|done|by eapply keeps_trans].
Qed.

(** ** Fork *)
Lemma fork_QQ g p : V (sysctl_sched_uclamp_util_min_rt_default g) -> QQ (uclamp_req p) ->
  QQ (uclamp_req (uclamp_fork p)) /\ QQ (uclamp_req (uclamp_post_fork g p)).
Proof.
  intros Hrt Hq. split.
  - unfold uclamp_fork. cbn [foldl clamp_ids]. case_bool; [done|]. simpl.
    intros id. destruct id; simpl; apply Q_set; [apply (none_V UCLAMP_MIN)|apply (none_V UCLAMP_MAX)].
  - unfold uclamp_post_fork, uclamp_update_util_min_rt_default, __uclamp_update_util_min_rt_default.
    case_bool; [done|]. case_bool; [done|]. simpl. apply (set_QQ UCLAMP_MIN); [done|]. by apply Q_set.
Qed.
Lemma fork_inactive p id : active (get id (uclamp (uclamp_fork p))) = false.
Proof. unfold uclamp_fork. cbn [foldl clamp_ids]. case_bool; by destruct id. Qed.
Lemma post_fork_uclamp g p : uclamp (uclamp_post_fork g p) = uclamp p.
Proof.
  unfold uclamp_post_fork, uclamp_update_util_min_rt_default, __uclamp_update_util_min_rt_default.
  repeat case_bool; done.
Qed.

Lemma fork_sys s parent pid rt en p : sys_inv s -> ts s !! parent = Some p -> ts s !! pid = None ->
  exists s', exec strim cgroup_parse_float s (Fork parent pid rt en) = Some (Ok s') /\
    sys_inv s' /\ keeps s s'.
Proof.
  intros Hs Hp Hn. cbn [exec]. rewrite Hp. cbn [mbind option_bind]. rewrite Hn. eexists. split; [done|].
  set (q := uclamp_post_fork (g s) _).
  assert (forall id, active (get id (uclamp q)) = false) as Ha.
  { intros id. unfold q. rewrite post_fork_uclamp. apply (fork_inactive (set_on_rq p false)). }
  assert (same_members (ts s) (<[pid := q]> (ts s))) as Hm by (intros id; by apply members_new).
  destruct Hs as [H1 H2 H3 H4 H5]. split.
  - constructor; simpl; try done.
    + apply (counted_members _ _ _ Hm); [|done].
      apply map_Forall_insert_2; [|apply (counted_both _ _ H1)].
      pose proof (Ha UCLAMP_MIN). pose proof (Ha UCLAMP_MAX). simpl in *. congruence.
    + apply map_Forall_insert_2; [|done]. constructor; [|intros id; by rewrite Ha].
      unfold q. apply fork_QQ; [done|]. simpl. apply (fork_QQ (g s)); [done|].
      apply (task_req _ _ (H2 _ _ Hp)).
  - intros _ Hv. split; [by apply (covered_members _ _ _ Hm)|intros; by apply (tracked_members _ _ _ Hm)].
Qed.

(** ** Re-counting the tasks of a group *)
Definition queue_inv (g : globals) (st : run_queue) : Prop :=
  counted st.1 st.2 /\ map_Forall (fun _ p => task_inv g p) st.2.

(** [p'] differs from [p] in its effective clamps only. *)
Definition same_but_clamps (p p' : task) : Prop :=
  p' = set_uclamp p (uclamp p') /\ (forall id, active (get id (uclamp p')) = active (get id (uclamp p))).

Lemma update_active_step g tg r t pid p id : QQ (uclamp_default g) -> (forall u, tg = Some u -> QQ u) ->
  queue_inv g (r, t) -> t !! pid = Some p ->
  exists r' p', uclamp_update_active g tg r p id = Ok (r', p') /\ same_but_clamps p p' /\
    queue_inv g (r', <[pid := p']> t).
Proof.
  intros Hd Htg [Hc Ht] Hp. pose proof (Ht _ _ Hp) as Hi; cbn beta in Hi. simpl in Hc. unfold uclamp_update_active.
  destruct (active (get id (uclamp p))) eqn:Ea.
  2:{ exists r, p. split_and!; [done|split; [by destruct p|done]|]. by rewrite insert_id. }
  destruct (dec_id_step r p id t pid) as (r1 & -> & Ho1 & _ & _ & Hc1 & _); [done..|apply (counted_rq _ _ Hc)|].
  cbn [mbind res_bind]. set (p1 := set_uclamp p (set id _ (uclamp p))) in *.
  assert (<[pid := p1]> t !! pid = Some p1) as Hp1 by apply lookup_insert_eq.
  destruct (inc_id_step g tg r1 p1 id (<[pid := p1]> t) pid) as (r2 & -> & Ho2 & _ & _ & Hc2 & _);
    [done|by unfold p1; simpl; rewrite get_set_same|done|apply Q_range, eff_get_Q; [done|apply (task_req _ _ Hi)|done]|].
  eexists _, _. split; [done|]. set (p2 := set_uclamp p1 _) in *.
  rewrite insert_insert_eq in Hc2.
  assert (forall id', id' <> id -> get id' (uclamp p2) = get id' (uclamp p)) as Hother.
  { intros id' Hne. unfold p2, p1. simpl. by rewrite !get_set_other. }
  assert (active (get id (uclamp p2)) = true) as Ha2 by (unfold p2; simpl; by rewrite get_set_same).
  assert (forall id', active (get id' (uclamp p2)) = active (get id' (uclamp p))) as Hact.
  { intros id'. destruct (decide (id' = id)) as [->|Hne]; [by rewrite Ha2|by rewrite Hother]. }
  split; [by split|]. split; simpl.
  - constructor.
    + intros id'. destruct (decide (id' = id)) as [->|Hne]; [done|].
      apply (rq_counts_other id' r r2 t pid p p2); [done|by apply Hother|by rewrite Ho2, Ho1 by done|].
      apply (counted_rq _ _ Hc).
    + apply map_Forall_insert_2; [|apply (counted_both _ _ Hc)].
      change (at_min (uclamp p2)) with (get UCLAMP_MIN (uclamp p2)).
      change (at_max (uclamp p2)) with (get UCLAMP_MAX (uclamp p2)).
      rewrite !Hact. apply (counted_both _ _ Hc _ _ Hp).
  - apply map_Forall_insert_2; [|done]. constructor; [apply (task_req _ _ Hi)|].
    intros id' Hid. rewrite Hact in Hid. apply (task_active _ _ Hi id' Hid).
Qed.

Lemma update_task_ok g tg clamps pid st : QQ (uclamp_default g) -> (forall u, tg = Some u -> QQ u) ->
  queue_inv g st -> exists st', update_task g tg clamps pid st = Ok st' /\ queue_inv g st'.
Proof.
  intros Hd Htg Hq. destruct st as [r t]. unfold update_task.
  destruct (t !! pid) as [p|] eqn:Hp; [|eauto].
  assert (exists r' p', for_each_clamp_id (fun id '(r, p) => uclamp_update_active g tg r p id) clamps (r, p) =
            Ok (r', p') /\ queue_inv g (r', <[pid := p']> t)) as (r' & p' & -> & H); [|by eexists].
  revert r t p Hp Hq. induction clamps as [|id clamps IH]; intros r t p Hp Hq.
  - exists r, p. split; [done|]. by rewrite insert_id.
  - cbn [for_each_clamp_id].
    destruct (update_active_step g tg r t pid p id Hd Htg Hq Hp) as (r1 & p1 & -> & _ & Hq1).
    cbn [mbind res_bind]. destruct (IH r1 (<[pid := p1]> t) p1) as (r' & p' & -> & H); [apply lookup_insert_eq|done|].
    exists r', p'. by rewrite insert_insert_eq in H.
Qed.
Lemma update_tasks_ok g tg clamps pids : QQ (uclamp_default g) -> (forall u, tg = Some u -> QQ u) ->
  forall st, queue_inv g st -> exists st', update_tasks g tg clamps pids st = Ok st' /\ queue_inv g st'.
Proof.
  intros Hd Htg. induction pids as [|pid pids IH]; intros st Hq; cbn [update_tasks]; [eauto|].
  destruct (update_task_ok g tg clamps pid st Hd Htg Hq) as (st1 & -> & H1). cbn [mbind res_bind]. by apply IH.
Qed.

(** ** The walk *)
Definition tree_Q : task_group -> Prop := tree_all (fun req eff => QQ req /\ QQ eff).

Lemma Q_nonneg s : Q s -> 0 <= bucket_id s.
Proof. intros H. apply Q_range in H. unfold in_range in H. lia. Qed.

Lemma eff_values_V parent req : (forall u, parent = Some u -> QQ u) -> QQ req ->
  forall id, V (get id (eff_values parent req)).
Proof.
  intros Hp Hr.
  assert (forall id, V (let e := value (get id req) in
    match parent with
    | Some up => if (value (get id up) <? e)%c then value (get id up) else e
    | None => e
    end)) as Hcap.
  { intros id. cbn zeta. destruct parent as [up|]; [|apply Q_value, Hr].
    case_bool; apply Q_value; [by apply Hp|apply Hr]. }
  intros [|]; unfold eff_values; simpl; [|apply (Hcap UCLAMP_MAX)].
  apply Z.min_case; [apply (Hcap UCLAMP_MIN)|apply (Hcap UCLAMP_MAX)].
Qed.
Lemma propagate_QQ eff uc uc' clamps : (forall id, V (get id eff)) -> QQ uc ->
  propagate eff uc = (uc', clamps) -> QQ uc'.
Proof.
  intros Hv Hq.
  assert (forall st id, QQ st.1 -> QQ (propagate_one eff st id).1) as Hstep.
  { intros [u cl] id Hu. unfold propagate_one. case_bool; [done|]. apply set_QQ; [done|]. by apply Q_raw. }
  unfold propagate. cbn [foldl clamp_ids]. intros E.
  change uc' with (uc', clamps).1. rewrite <- E. by do 2 apply Hstep.
Qed.

Lemma update_eff_ok g css : QQ (uclamp_default g) -> tree_Q css ->
  forall parent st, (forall u, parent = Some u -> QQ u) -> queue_inv g st ->
  exists css' st', cpu_util_update_eff g parent css st = Ok (css', st') /\ tree_Q css' /\ queue_inv g st'.
Proof.
  intros Hd. induction css as [id req eff pct cs IH] using task_group_ind'.
  intros [[Hreq Heff] Hcs] parent st Hp Hq. cbn [cpu_util_update_eff].
  destruct (propagate _ _) as [uc clamps] eqn:Epr.
  assert (QQ uc) as Huc by (eapply propagate_QQ; [|exact Heff|exact Epr]; by apply eff_values_V).
  destruct clamps as [|c0 clamps]; [by eexists _, _; split; [done|]|].
  unfold uclamp_update_active_tasks.
  destruct (update_tasks_ok g (if (id =? ROOT)%c then None else Some uc) (c0 :: clamps) (css_tasks id st.2) Hd)
    with (st := st) as (st1 & -> & H1); [by destruct (id =? ROOT)%c; intros u; [|intros [= <-]]|done|].
  cbn [mbind res_bind]. clear Epr.
  assert (exists cs' st',
    (fix go cs st := match cs with
                     | [] => Ok ([], st)
                     | c :: cs => '(c, st) ← cpu_util_update_eff g (Some uc) c st;
                                  '(cs, st) ← go cs st; Ok (c :: cs, st)
                     end) cs st1 = Ok (cs', st') /\ trees_all (fun req eff => QQ req /\ QQ eff) cs' /\
      queue_inv g st') as (cs' & st' & -> & H2 & H3).
  { revert st1 H1. induction cs as [|c cs IHcs]; intros st1 H1; [by eexists _, _|].
    apply Forall_cons in IH as [IHc IH]. destruct Hcs as [Hc Hcs].
    destruct (IHc Hc (Some uc) st1) as (c' & st2 & -> & Hc' & H2); [by intros u [= <-]|done|].
    cbn [mbind res_bind]. destruct (IHcs IH Hcs st2 H2) as (cs' & st' & -> & Hcs' & H3).
    by eexists _, _. }
  by eexists _, _.
Qed.

(** A change of one group and of everything below it. *)
Lemma at_group_ok g target f : QQ (uclamp_default g) ->
  (forall parent tg st, (forall u, parent = Some u -> QQ u) -> tree_Q tg -> queue_inv g st ->
     exists tg' st', f parent tg st = Ok (tg', st') /\ tree_Q tg' /\ queue_inv g st') ->
  forall tg parent st r, (forall u, parent = Some u -> QQ u) -> tree_Q tg -> queue_inv g st ->
  at_group f target parent tg st = Some r ->
  exists tg' st', r = Ok (tg', st') /\ tree_Q tg' /\ queue_inv g st'.
Proof.
  intros Hd Hf tg. induction tg as [id req eff pct cs IH] using task_group_ind'.
  intros parent st r Hp Ht Hq. cbn [at_group tg_id].
  destruct (id =? target)%c; [intros [= <-]; by apply Hf|]. destruct Ht as [[Hreq Heff] Hcs].
  intros H.
  match type of H with mbind _ ?e = _ => destruct e as [r1|] eqn:E; [|discriminate H] end.
  cbn [mbind option_bind] in H. injection H as <-.
  assert (exists cs' st', r1 = Ok (cs', st') /\ trees_all (fun req eff => QQ req /\ QQ eff) cs' /\
            queue_inv g st') as (cs' & st' & -> & H1 & H2); [|by eexists _, _].
  revert r1 E. induction cs as [|c cs IHcs]; intros r1 E; [discriminate E|].
  apply Forall_cons in IH as [IHc IH]. destruct Hcs as [Hc Hcs].
  destruct (at_group f target (Some eff) c st) as [rc|] eqn:Ec.
  - injection E as <-. destruct (IHc (Some eff) st rc) as (c' & st' & -> & H1 & H2); try done.
    { by intros u [= <-]. } by eexists _, _.
  - match type of E with mbind _ ?e = _ => destruct e as [r2|] eqn:E2; [|discriminate E] end.
    cbn [mbind option_bind] in E. injection E as <-.
    destruct (IHcs IH Hcs r2 eq_refl) as (cs' & st' & -> & H1 & H2). by eexists _, _.
Qed.

(** ** The knobs *)
Lemma capacity_range buf : let req := capacity_from_percent strim cgroup_parse_float buf in
  ret req = 0 -> 0 <= util req <= SCHED_CAPACITY_SCALE.
Proof.
  unfold capacity_from_percent. rewrite scale_1024. cbn zeta.
  destruct (String.eqb _ _); [simpl; lia|].
  destruct (cgroup_parse_float _ _) as [err|pct]; [simpl; lia|].
  change UCLAMP_PERCENT_SCALE with 10000.
  destruct (Z.ltb_spec 10000 (u64 pct)) as [|Hle]; [unfold ERANGE; simpl; lia|]. intros _. cbn [util].
  assert (0 <= u64 pct) by (unfold u64; apply Z.mod_pos_bound; lia).
  assert (u64 (Z.shiftl pct SCHED_CAPACITY_SHIFT) = u64 pct * 1024) as ->.
  { change SCHED_CAPACITY_SHIFT with 10. rewrite Z.shiftl_mul_pow2 by lia. change (2 ^ 10) with 1024.
    unfold u64 in *. rewrite Z.mul_mod by lia. rewrite (Z.mod_small 1024) by lia.
    apply Z.mod_small; lia. }
  rewrite div_round_closest_ull; change (10000 / 2) with 5000; [|lia..]. split.
  - apply Z.div_pos; lia.
  - apply Z.lt_succ_r, Z.div_lt_upper_bound; lia.
Qed.

Lemma enable_queue g st : queue_inv g st -> queue_inv (enable g) st.
Proof.
  intros [Hc Ht]. split; [done|]. eapply map_Forall_impl; [exact Ht|]. intros i p Hp; cbn beta in *.
  constructor; [apply (task_req _ _ Hp)|]. intros id Ha. by destruct (task_active _ _ Hp id Ha) as (? & ? & _).
Qed.
Lemma sys_queue s : sys_inv s -> queue_inv (g s) (the_rq s, ts s).
Proof. intros [H1 H2 H3 H4 H5]. by split. Qed.

Lemma write_sys s css id buf r : sys_inv s ->
  cpu_uclamp_write strim cgroup_parse_float css id buf s = Some r ->
  exists rv s', r = Ok (rv, s') /\ sys_inv s'.
Proof.
  intros Hs. unfold cpu_uclamp_write. pose proof (capacity_range buf) as Hr; cbn zeta in Hr.
  destruct (Z.eqb_spec (ret (capacity_from_percent strim cgroup_parse_float buf)) 0) as [E|E]; cbn [negb].
  2:{ intros [= <-]. by eexists _, _. }
  specialize (Hr E). set (req := capacity_from_percent strim cgroup_parse_float buf) in *.
  intros H. match type of H with mbind _ ?e = _ => destruct e as [r1|] eqn:Ea; [|discriminate H] end.
  cbn [mbind option_bind] in H. injection H as <-.
  eapply (at_group_ok (enable (g s))) in Ea as (root' & st' & -> & Hroot & Hq).
  - cbn [mbind res_bind]. eexists _, _. split; [done|]. destruct Hq as [Hc Ht].
    constructor; simpl; [exact Hc|exact Ht|apply (inv_default _ Hs)|apply (inv_rt _ Hs)|exact Hroot].
  - apply (inv_default _ Hs).
  - intros parent tg st Hp Htg Hq. apply update_eff_ok; [apply (inv_default _ Hs)| |done|done].
    destruct tg as [i rq eff pct cs]. destruct Htg as [[H1 H2] H3]. cbn [store_request].
    split; [|done]. split; [|done]. case_bool; [|done]. apply set_QQ; [done|]. apply Q_set, V_scale. lia.
  - done.
  - apply (inv_groups _ Hs).
  - by apply enable_queue, sys_queue.
Qed.

Lemma create_sys s id parent r : sys_inv s -> cpu_cgroup_create id parent s = Some r ->
  exists s', r = Ok s' /\ sys_inv s'.
Proof.
  intros Hs. unfold cpu_cgroup_create. destruct (find_group id (root s)); [done|].
  intros H. match type of H with mbind _ ?e = _ => destruct e as [r1|] eqn:Ea; [|discriminate H] end.
  cbn [mbind option_bind] in H. injection H as <-.
  eapply (at_group_ok (g s)) in Ea as (root' & st' & -> & Hroot & Hq).
  - cbn [mbind res_bind]. eexists. split; [done|]. destruct Hq as [Hc Ht].
    constructor; simpl; [exact Hc|exact Ht|apply (inv_default _ Hs)|apply (inv_rt _ Hs)|exact Hroot].
  - apply (inv_default _ Hs).
  - intros par tg st Hp Htg Hq. destruct tg as [i req eff pct cs]. destruct Htg as [[H1 H2] H3].
    destruct (update_eff_ok (g s) (alloc_uclamp_sched_group id (TG i req eff pct cs)) (inv_default _ Hs))
      with (parent := Some eff) (st := st) as (c' & st' & E & Hc' & Hq').
    + split; [|done]. split; [|done]. intros [|]; simpl; apply Q_set; [apply (none_V UCLAMP_MIN)|apply (none_V UCLAMP_MAX)].
    + by intros u [= <-].
    + done.
    + cbn [tg_uclamp]. rewrite E. cbn [mbind res_bind]. eexists _, _. split; [done|]. by split; [split|].
  - done.
  - apply (inv_groups _ Hs).
  - by apply sys_queue.
Qed.

Lemma rt_default_fields g p (q := uclamp_update_util_min_rt_default g p) :
  uclamp q = uclamp p /\ on_rq q = on_rq p /\ enabled q = enabled p.
Proof.
  unfold q, uclamp_update_util_min_rt_default, __uclamp_update_util_min_rt_default. by repeat case_bool.
Qed.
Lemma rt_default_inv g p : V (sysctl_sched_uclamp_util_min_rt_default g) -> task_inv g p ->
  task_inv g (uclamp_update_util_min_rt_default g p).
Proof.
  intros Hv Hp. destruct (rt_default_fields g p) as (Hu & Ho & He).
  constructor; [apply (fork_QQ g p Hv (task_req _ _ Hp))|]. intros id. rewrite Hu, Ho, He. apply (task_active _ _ Hp).
Qed.
Lemma sync_rt_queue g st : V (sysctl_sched_uclamp_util_min_rt_default g) -> queue_inv g st ->
  queue_inv g (st.1, uclamp_sync_util_min_rt_default g st.2).
Proof.
  intros Hv [Hc Ht]. unfold uclamp_sync_util_min_rt_default.
  assert (same_members st.2 (uclamp_update_util_min_rt_default g <$> st.2)) as Hm.
  { intros id. apply map_eq. intros i. rewrite !members_lookup, lookup_fmap.
    destruct (st.2 !! i) as [p|]; [|done]. simpl. unfold counted_se. by rewrite (proj1 (rt_default_fields g p)). }
  split; simpl.
  - apply (counted_members _ _ _ Hm); [|done]. apply map_Forall_fmap.
    eapply map_Forall_impl; [exact (counted_both _ _ Hc)|]. intros i p Hp; cbn beta in *. unfold compose.
    by rewrite (proj1 (rt_default_fields g p)).
  - apply map_Forall_fmap. eapply map_Forall_impl; [exact Ht|]. intros i p Hp. by apply rt_default_inv.
Qed.

Lemma sysctl_globals_ok g vmin vmax vrt (new := sysctl_globals g vmin vmax vrt) :
  QQ (uclamp_default g) -> 0 <= vmin <= SCHED_CAPACITY_SCALE -> 0 <= vmax <= SCHED_CAPACITY_SCALE ->
  QQ (uclamp_default new) /\ sysctl_sched_uclamp_util_min_rt_default new = vrt /\
  sysctl_sched_uclamp_util_min new = vmin /\ sysctl_sched_uclamp_util_max new = vmax /\
  (sched_uclamp_used g = true -> sched_uclamp_used new = true).
Proof.
  intros Hd Hmin Hmax. unfold new, sysctl_globals.
  assert (forall (b : bool) id v h, QQ (uclamp_default h) -> 0 <= v <= SCHED_CAPACITY_SCALE ->
    QQ (uclamp_default (if b then set_default h (set id (uclamp_se_set (get id (uclamp_default h)) v false)
                                                   (uclamp_default h)) else h))) as Hs.
  { intros [] id v h Hh Hv; [|done]. simpl. apply set_QQ; [done|]. by apply Q_set, V_scale. }
  split.
  - assert (forall (b : bool) h, QQ (uclamp_default h) -> QQ (uclamp_default (if b then enable h else h))) as He
      by (by intros []).
    apply He, (Hs _ UCLAMP_MAX); [|done]. by apply (Hs _ UCLAMP_MIN).
  - destruct (update_root_tg _ _ _), (negb (_ =? vmin)%c), (negb (_ =? vmax)%c); done.
Qed.

(** proc_dointvec leaves [unsigned int]s. *)
Lemma sysctl_sys s vmin vmax vrt : sys_inv s -> 0 <= vmin -> 0 <= vmax -> 0 <= vrt ->
  exists rv s', sysctl_sched_uclamp_handler vmin vmax vrt s = Ok (rv, s') /\ sys_inv s'.
Proof.
  intros Hs H0 H1 H2. unfold sysctl_sched_uclamp_handler.
  destruct (Z.ltb_spec vmax vmin), (Z.ltb_spec SCHED_CAPACITY_SCALE vmax),
    (Z.ltb_spec SCHED_CAPACITY_SCALE vrt); cbn [orb]; try (by eexists _, _).
  destruct (sysctl_globals_ok (g s) vmin vmax vrt (inv_default _ Hs)) as (Hd & Er & Emin & Emax & Hu); [lia..|].
  cbn zeta. set (new := sysctl_globals (g s) vmin vmax vrt) in *. clearbody new.
  assert (queue_inv new (the_rq s, ts s)) as Hq.
  { destruct (sys_queue s Hs) as [Hc Ht]. split; [done|]. eapply map_Forall_impl; [exact Ht|].
    intros i p Hp; cbn beta in *. constructor; [apply (task_req _ _ Hp)|]. intros id Ha.
    destruct (task_active _ _ Hp id Ha) as (? & ? & ?). auto. }
  assert (V vrt) as Hvrt by (apply V_scale; lia).
  assert (exists tg st, (if update_root_tg (g s) vmin vmax
                         then uclamp_update_root_tg new (root s) (the_rq s, ts s)
                         else Ok (root s, (the_rq s, ts s))) = Ok (tg, st) /\ tree_Q tg /\ queue_inv new st)
    as (tg & st & E & Htg & Hq').
  { destruct (update_root_tg _ _ _); [|eexists _, _; split; [done|]; split; [apply (inv_groups _ Hs)|done]].
    unfold uclamp_update_root_tg. pose proof (inv_groups _ Hs) as Hg.
    destruct (root s) as [i r uc pct cs]. destruct Hg as [[Hg1 Hg2] Hg3].
    apply update_eff_ok; [done| |done|done]. rewrite Emin, Emax. split; [|done]. split; [|done].
    apply (set_QQ UCLAMP_MAX); [apply (set_QQ UCLAMP_MIN); [done|]|]; apply Q_set, V_scale; lia. }
  unfold run_queue in E. rewrite E.
  cbn [mbind res_bind]. case_bool.
  - eexists _, _. split; [done|].
    destruct (sync_rt_queue (enable new) st) as [Hc Ht]; [by simpl; rewrite Er|by apply enable_queue|].
    constructor; simpl; [exact Hc|exact Ht|exact Hd|by rewrite Er|exact Htg].
  - eexists _, _. split; [done|]. destruct Hq' as [Hc Ht].
    constructor; simpl; [exact Hc|exact Ht|exact Hd|by rewrite Er|exact Htg].
Qed.

(** ** Every event *)
Definition event_ok (e : event) : Prop :=
  match e with
  | SetAttr _ a _ _ _ => attr_ok a
  | Sysctl vmin vmax vrt => 0 <= vmin /\ 0 <= vmax /\ 0 <= vrt
  | _ => True
  end.
(** The events that do not update a clamp in place. *)
Definition calm (e : event) : bool :=
  match e with GroupWrite _ _ _ | GroupCreate _ _ | Sysctl _ _ _ => false | _ => true end.

Lemma exec_sys s e r : sys_inv s -> event_ok e -> exec strim cgroup_parse_float s e = Some r ->
  exists s', r = Ok s' /\ sys_inv s' /\ (calm e = true -> keeps s s').
Proof.
  intros Hs He H.
  assert (forall pid p0, ts s !! pid = Some p0 -> task_inv (g s) p0) as Hti by (apply (inv_tasks _ Hs)).
  destruct e as [pid|pid|pid a rt en reset|par pid rt en|pid grp|css id buf|id par|vmin vmax vrt].
  - cbn [exec] in H. destruct (ts s !! pid) as [p|] eqn:Hp; [|done]. cbn [mbind option_bind] in H.
    destruct (on_rq p) eqn:Eon; [done|]. injection H as <-.
    destruct (enqueue_sys s pid p (set_on_rq p true) Hs Hp) as (s' & E & Hs' & Hk & _); try done.
    + intros id. change (uclamp (set_on_rq p true)) with (uclamp p).
      destruct (active (get id (uclamp p))) eqn:Ea; [|done].
      destruct (task_active _ _ (Hti _ _ Hp) id Ea). congruence.
    + apply (task_req _ _ (Hti _ _ Hp)).
    + exists s'. by rewrite E.
  - cbn [exec] in H. destruct (ts s !! pid) as [p|] eqn:Hp; [|done]. cbn [mbind option_bind] in H.
    destruct (on_rq p) eqn:Eon; [|done]. injection H as <-.
    destruct (dequeue_sys s pid p Hs Hp) as (s1 & u & -> & Hs1 & Hk1 & Hg1 & _ & Hp1 & Ha).
    cbn [mbind res_bind]. eexists. split; [done|].
    destruct (put_sys s1 pid _ (set_on_rq (set_uclamp p u) false) Hs1 Hp1) as [Hs2 Hk2]; [done| |].
    + constructor; [apply (task_req _ _ (Hti _ _ Hp))|]. intros id. simpl. by rewrite Ha.
    + split; [done|]. intros _. by eapply keeps_trans.
  - destruct (ts s !! pid) as [p|] eqn:Hp; [|cbn [exec] in H; by rewrite Hp in H].
    destruct (setattr_sys s pid p a rt en reset Hs Hp He) as (s' & E & Hs' & Hk).
    rewrite E in H. injection H as <-. eauto.
  - destruct (ts s !! par) as [p|] eqn:Hp; [|cbn [exec] in H; by rewrite Hp in H].
    destruct (ts s !! pid) as [p'|] eqn:Hp'; [cbn [exec] in H; rewrite Hp in H; cbn [mbind option_bind] in H; by rewrite Hp' in H|].
    destruct (fork_sys s par pid rt en p Hs Hp Hp') as (s' & E & Hs' & Hk).
    rewrite E in H. injection H as <-. eauto.
  - cbn [exec] in H. destruct (ts s !! pid) as [p|] eqn:Hp; [|done]. cbn [mbind option_bind] in H. injection H as <-.
    destruct (change_sys s pid p (fun p => set_group p grp) Hs Hp) as (s' & -> & Hs' & Hk); [done..|]. eauto.
  - cbn [exec] in H. destruct (css =? ROOT)%c; [done|].
    destruct (cpu_uclamp_write _ _ css id buf s) as [r1|] eqn:E; [|done]. cbn [mbind option_bind] in H.
    injection H as <-. apply write_sys in E as (rv & s' & -> & Hs'); [|done]. by exists s'.
  - cbn [exec] in H. apply create_sys in H as (s' & -> & Hs'); [|done]. by exists s'.
  - cbn [exec] in H. injection H as <-. destruct He as (H0 & H1 & H2).
    destruct (sysctl_sys s vmin vmax vrt Hs H0 H1 H2) as (rv & s' & -> & Hs'). by exists s'.
Qed.

Lemma exec_all_sys es : forall s r, sys_inv s -> Forall event_ok es ->
  exec_all strim cgroup_parse_float s es = Some r ->
  exists s', r = Ok s' /\ sys_inv s' /\ (forallb calm es = true -> keeps s s').
Proof.
  induction es as [|e es IH]; intros s r Hs He H; cbn [exec_all] in H.
  - injection H as <-. exists s. split_and!; [done..|]. intros _. apply keeps_refl.
  - apply Forall_cons in He as [He Hes].
    destruct (exec strim cgroup_parse_float s e) as [r1|] eqn:E; [|done]. cbn [mbind option_bind] in H.
    apply exec_sys in E as (s1 & -> & Hs1 & Hk1); [|done..].
    destruct (IH s1 r Hs1 Hes H) as (s' & -> & Hs' & Hk'). exists s'. split; [done|]. split; [done|].
    cbn [forallb]. intros [H1 H2]%andb_prop. by eapply keeps_trans; auto.
Qed.

Lemma init_sys : sys_inv init_uclamp /\ sys_covered init_uclamp.
Proof.
  assert (forall id, members id (ts init_uclamp) = ∅) as Hm.
  { intros id. apply map_empty. intros i. rewrite members_lookup. cbn [init_uclamp ts].
    destruct (decide (i = 1)) as [->|Hne]; [rewrite lookup_singleton_eq; by destruct id|].
    by rewrite lookup_singleton_ne. }
  assert (forall id, counts ∅ (get id (uclamp_rqs init_uclamp_rq))) as Hc.
  { intros id. pose proof buckets_bounds.
    assert (bucket (get id (uclamp_rqs init_uclamp_rq)) = replicate (Z.to_nat UCLAMP_BUCKETS) (mk_bucket 0 0)) as Eb
      by (by destruct id).
    constructor; [rewrite Eb, length_replicate; lia|apply map_Forall_empty|].
    intros b bk. rewrite Eb. intros [-> _]%lookup_replicate. by rewrite refs_empty. }
  split.
  - constructor; simpl.
    + constructor; [intros id; unfold rq_counts; rewrite Hm; apply Hc|]. by apply map_Forall_singleton.
    + apply map_Forall_singleton. constructor; [|by intros [|]].
      intros [|]; simpl; apply Q_set; [apply (none_V UCLAMP_MIN)|apply (none_V UCLAMP_MAX)].
    + intros [|]; apply Q_set, (none_V UCLAMP_MAX).
    + apply V_scale. rewrite scale_1024. lia.
    + split; [|done]. split; intros [|]; apply Q_set, (none_V UCLAMP_MAX).
  - constructor; [|done|done]. intros id. unfold rq_covers. rewrite Hm. constructor.
    + apply map_Forall_empty.
    + intros b bk Hb Ht. exfalso. apply Ht. rewrite (counts_tasks _ _ (Hc id) _ _ Hb). apply refs_empty.
    + intros pid s bk Hs. by rewrite lookup_empty in Hs.
Qed.
End System.
