(* ===== verification/UClampTree.v ===== *)
(** * Utilization clamps: the hierarchy of groups (src/Assignment_4/fifo/core.c)

    cpu_util_update_eff skips the groups whose clamps do not change; the result
    is that of recomputing every group from the root. *)
From Stdlib Require Import ZArith Lia Ascii String.
From S2P Require Import Prelude CLib UClamp UClampRq UClampSys UClampTheorems.
Import UClamp UClampSys.

Local Open Scope stdpp_scope.
Local Open Scope Z_scope.

Section Tree.
Context `{cfg : uclamp_config}.

(** ** The reference: every group, top down *)
Definition new_uclamp (parent : option (both uclamp_se)) (req uc : both uclamp_se) : both uclamp_se :=
  (propagate (eff_values parent req) uc).1.

Fixpoint recompute (parent : option (both uclamp_se)) (tg : task_group) : task_group :=
  match tg with
  | TG id req uc pct children =>
      let uc' := new_uclamp parent req uc in
      TG id req uc' pct (map (recompute (Some uc')) children)
  end.

(** Every group's clamps are those its request and its parent's clamps give. *)
Definition settled (parent : option (both uclamp_se)) (tg : task_group) : Prop := recompute parent tg = tg.
Definition settled_below (tg : task_group) : Prop :=
  match tg with TG _ _ uc _ cs => Forall (settled (Some uc)) cs end.

(** ** Propagation *)
Lemma propagate_value eff uc id : value (get id (propagate eff uc).1) = get id eff.
Proof.
  unfold propagate. cbn [foldl clamp_ids]. unfold propagate_one.
  destruct (Z.eqb_spec (get UCLAMP_MIN eff) (value (get UCLAMP_MIN uc))) as [E1|E1].
  - destruct (Z.eqb_spec (get UCLAMP_MAX eff) (value (get UCLAMP_MAX uc))) as [E2|E2]; by destruct id.
  - simpl. destruct (Z.eqb_spec (at_max eff) (value (at_max uc))) as [E2|E2]; by destruct id.
Qed.
Lemma propagate_nil eff uc uc' : propagate eff uc = (uc', []) -> uc' = uc.
Proof.
  unfold propagate. cbn [foldl clamp_ids]. unfold propagate_one. repeat case_bool; by intros [= <-].
Qed.
(** What is already right is left alone. *)
Lemma propagate_same eff uc : (forall id, get id eff = value (get id uc)) -> propagate eff uc = (uc, []).
Proof.
  intros H. unfold propagate. cbn [foldl clamp_ids]. unfold propagate_one.
  by rewrite !(proj2 (Z.eqb_eq _ _)) by apply H.
Qed.
Lemma new_uclamp_idem parent req uc :
  new_uclamp parent req (new_uclamp parent req uc) = new_uclamp parent req uc.
Proof.
  unfold new_uclamp at 1. rewrite propagate_same; [done|]. intros id. symmetry. apply propagate_value.
Qed.

Lemma settled_intro parent id req uc pct cs :
  settled parent (TG id req uc pct cs) <-> new_uclamp parent req uc = uc /\ Forall (settled (Some uc)) cs.
Proof.
  unfold settled. cbn [recompute]. split.
  - intros [= E1 E2]. split; [done|]. rewrite E1 in E2. clear E1. induction cs as [|c cs IH]; [constructor|].
    injection E2 as Ec Ecs. constructor; auto.
  - intros [E1 E2]. rewrite E1. f_equal. induction E2 as [|c cs Hc Hcs IH]; [done|]. simpl. by f_equal.
Qed.

Lemma recompute_settled tg : forall parent, settled parent (recompute parent tg).
Proof.
  induction tg as [id req uc pct cs IH] using task_group_ind'. intros parent. cbn [recompute].
  apply settled_intro. split; [apply new_uclamp_idem|]. apply Forall_map.
  eapply Forall_impl; [exact IH|]. intros c Hc. apply Hc.
Qed.

(** ** The walk computes the reference *)
Lemma walk_recompute g css : forall parent st css' st', settled_below css ->
  cpu_util_update_eff g parent css st = Ok (css', st') -> css' = recompute parent css.
Proof.
  induction css as [id req uc pct cs IH] using task_group_ind'. intros parent st css' st' Hb.
  cbn [cpu_util_update_eff recompute settled_below] in *. unfold new_uclamp.
  destruct (propagate (eff_values parent req) uc) as [uc' clamps] eqn:Ep. cbn [fst].
  destruct clamps as [|c0 clamps].
  - intros [= <- _]. apply propagate_nil in Ep as ->. f_equal. clear IH.
    induction Hb as [|c cs Hc Hcs IH]; [done|]. simpl. f_equal; [by symmetry|done].
  - intros H. apply bind_ok in H as (st1 & _ & H). apply bind_ok in H as ([cs' st2] & H2 & H).
    injection H as <- _. f_equal. clear Ep.
    revert cs' st1 st2 H2 Hb. induction cs as [|c cs IHcs]; intros cs' st1 st2 H2 Hb; [by injection H2 as <- _|].
    apply Forall_cons in IH as [IHc IH]. apply Forall_cons in Hb as [Hc Hb].
    apply bind_ok in H2 as ([c' st3] & Ec & H2). apply bind_ok in H2 as ([cs1 st4] & Ecs & H2).
    injection H2 as <- _. cbn [map]. f_equal.
    + eapply IHc; [|exact Ec]. destruct c. by apply settled_intro in Hc as [_ ?].
    + by eapply IHcs.
Qed.

(** A change of one group leaves the tree settled. *)
Lemma at_group_settled f target :
  (forall parent tg st tg' st', settled parent tg -> f parent tg st = Ok (tg', st') -> settled parent tg') ->
  forall tg parent st tg' st', settled parent tg ->
  at_group f target parent tg st = Some (Ok (tg', st')) -> settled parent tg'.
Proof.
  intros Hf tg. induction tg as [id req uc pct cs IH] using task_group_ind'.
  intros parent st tg' st' Ht. cbn [at_group tg_id].
  destruct (id =? target)%c; [intros [= H]; by eapply Hf|].
  apply settled_intro in Ht as [Hu Hcs]. intros H.
  match type of H with mbind _ ?e = _ => destruct e as [r1|] eqn:E; [|discriminate H] end.
  cbn [mbind option_bind] in H. injection H as H. apply bind_ok in H as ([cs' st2] & -> & H).
  injection H as <- <-. apply settled_intro. split; [done|].
  revert cs' st2 E. induction cs as [|c cs IHcs]; intros cs' st2 E; [discriminate E|].
  apply Forall_cons in IH as [IHc IH]. apply Forall_cons in Hcs as [Hc Hcs].
  destruct (at_group f target (Some uc) c st) as [rc|] eqn:Ec.
  - injection E as E. apply bind_ok in E as ([c' st3] & -> & E). injection E as <- <-.
    constructor; [by eapply IHc|done].
  - match type of E with mbind _ ?e = _ => destruct e as [r2|] eqn:E2; [|discriminate E] end.
    cbn [mbind option_bind] in E. injection E as E. apply bind_ok in E as ([cs1 st3] & -> & E).
    injection E as <- <-. constructor; [done|]. by eapply IHcs.
Qed.

(** ** Effective clamps are nested *)
Lemma eff_values_bounds parent req id :
  get id (eff_values parent req) <= value (get id req) /\
  (forall up, parent = Some up -> get id (eff_values parent req) <= value (get id up)) /\
  get UCLAMP_MIN (eff_values parent req) <= get UCLAMP_MAX (eff_values parent req).
Proof.
  set (cap id := match parent with
                 | Some up => if (value (get id up) <? value (get id req))%c then value (get id up)
                              else value (get id req)
                 | None => value (get id req)
                 end).
  assert (forall i, cap i <= value (get i req) /\ (forall up, parent = Some up -> cap i <= value (get i up))) as Hc.
  { intros i. unfold cap. destruct parent as [up|]; [|by split].
    destruct (Z.ltb_spec (value (get i up)) (value (get i req))); split; try lia; intros ? [= <-]; lia. }
  change (eff_values parent req) with (mk_both (Z.min (cap UCLAMP_MIN) (cap UCLAMP_MAX)) (cap UCLAMP_MAX)).
  clearbody cap. destruct (Hc UCLAMP_MIN) as [A1 A2], (Hc UCLAMP_MAX) as [B1 B2]. split_and!.
  - destruct id; cbn [get at_min at_max] in *; lia.
  - intros up Hup. specialize (A2 up Hup). specialize (B2 up Hup). destruct id; cbn [get at_min at_max] in *; lia.
  - cbn [get at_min at_max]. apply Z.le_min_r.
Qed.

(** ** The writers keep the tree settled *)
Lemma walk_settled g parent css st css' st' : settled_below css ->
  cpu_util_update_eff g parent css st = Ok (css', st') -> settled parent css'.
Proof. intros Hb H. apply walk_recompute in H as ->; [|done]. apply recompute_settled. Qed.

Lemma settled_below_of parent tg : settled parent tg -> settled_below tg.
Proof. destruct tg as [id req uc pct cs]. by intros [_ ?]%settled_intro. Qed.

Lemma init_settled `{!uclamp_config_ok cfg} : settled None (root init_uclamp).
Proof.
  apply settled_intro. split; [|constructor]. unfold new_uclamp. rewrite propagate_same; [done|].
  assert (value uc_max = 1024) as E by (apply (se_set_wf zero_se 1024 false); rewrite scale_1024; lia).
  intros id. destruct id; cbn [eff_values get at_min at_max]; rewrite !E; reflexivity.
Qed.

Section Events.
Context (strim : string -> string) (cgroup_parse_float : string -> Z -> Z + Z).

Lemma exec_settled s e s' : settled None (root s) -> exec strim cgroup_parse_float s e = Some (Ok s') ->
  settled None (root s').
Proof.
  intros Hs H.
  assert (forall s pid p s1, enqueue_task s pid p = Ok s1 -> root s1 = root s) as Henq.
  { intros s0 pid p s1. unfold enqueue_task. intros E. apply bind_ok in E as ([r q] & _ & E). by injection E as <-. }
  assert (forall s pid p s1 q, dequeue_task s pid p = Ok (s1, q) -> root s1 = root s) as Hdeq.
  { intros s0 pid p s1 q. unfold dequeue_task. intros E. apply bind_ok in E as ([r q'] & _ & E).
    by injection E as <- _. }
  assert (forall s pid p f s1, change_task s pid p f = Ok s1 -> root s1 = root s) as Hchg.
  { intros s0 pid p f s1. unfold change_task. destruct (on_rq p); [|by intros [= <-]].
    intros E. apply bind_ok in E as ([s2 q] & E1 & E2). apply Hdeq in E1. apply Henq in E2. congruence. }
  destruct e as [pid|pid|pid a rt en reset|par pid rt en|pid grp|css id buf|id par|vmin vmax vrt];
    cbn [exec] in H.
  - destruct (ts s !! pid) as [p|]; [|done]. cbn [mbind option_bind] in H. destruct (on_rq p); [done|].
    injection H as H. apply Henq in H. by rewrite H.
  - destruct (ts s !! pid) as [p|]; [|done]. cbn [mbind option_bind] in H. destruct (on_rq p); [|done].
    injection H as H. apply bind_ok in H as ([s1 q] & H1 & H). injection H as <-. apply Hdeq in H1. simpl. by rewrite H1.
  - destruct (ts s !! pid) as [p|]; [|done]. cbn [mbind option_bind] in H.
    destruct (if flag_util_clamp a then _ else _) as [g' rv]. case_match; [by injection H as <-|].
    injection H as H. apply Hchg in H. by rewrite H.
  - destruct (ts s !! par) as [p|]; [|done]. cbn [mbind option_bind] in H. destruct (ts s !! pid); [done|].
    by injection H as <-.
  - destruct (ts s !! pid) as [p|]; [|done]. cbn [mbind option_bind] in H. injection H as H. apply Hchg in H. by rewrite H.
  - destruct (css =? ROOT)%c; [done|].
    destruct (cpu_uclamp_write _ _ css id buf s) as [[[rv s1]|]|] eqn:E; [|done|done].
    cbn [mbind option_bind] in H. injection H as <-. unfold cpu_uclamp_write in E.
    destruct (negb _); [by injection E as _ <-|].
    match type of E with mbind _ ?e = _ => destruct e as [r1|] eqn:Ea; [|discriminate E] end.
    cbn [mbind option_bind] in E. injection E as E. apply bind_ok in E as ([root' st'] & -> & E). injection E as _ <-.
    eapply at_group_settled; [|exact Hs|exact Ea]. intros parent tg st tg' st1 Htg Hw.
    eapply walk_settled; [|exact Hw]. apply settled_below_of in Htg. by destruct tg.
  - unfold cpu_cgroup_create in H. destruct (find_group id (root s)); [done|].
    match type of H with mbind _ ?e = _ => destruct e as [r1|] eqn:Ea; [|discriminate H] end.
    cbn [mbind option_bind] in H. injection H as E. apply bind_ok in E as ([root' st'] & -> & E). injection E as <-.
    eapply at_group_settled; [|exact Hs|exact Ea]. intros parent tg st tg' st1 Htg Hw.
    apply bind_ok in Hw as ([c st2] & Hc & Hw). apply walk_settled in Hc; [|constructor].
    destruct tg as [i req uc pct cs]. injection Hw as <- _. apply settled_intro in Htg as [Hu Hcs].
    apply settled_intro. split; [done|]. by constructor.
  - injection H as H. destruct (sysctl_sched_uclamp_handler vmin vmax vrt s) as [[rv s1]|] eqn:E; [|done].
    injection H as <-. unfold sysctl_sched_uclamp_handler in E. destruct (_ || _)%bool; [by injection E as _ <-|].
    apply bind_ok in E as ([tg st] & E1 & E).
    assert (settled None tg) as Htg.
    { destruct (update_root_tg _ _ _); [|by injection E1 as <- _]. unfold uclamp_update_root_tg in E1.
      apply settled_below_of in Hs. destruct (root s) as [i req uc pct cs]. eapply walk_settled; [|exact E1]. done. }
    destruct (negb _); by injection E as _ <-.
Qed.

Lemma exec_all_settled es : forall s s', settled None (root s) ->
  exec_all strim cgroup_parse_float s es = Some (Ok s') -> settled None (root s').
Proof.
  induction es as [|e es IH]; intros s s' Hs H; cbn [exec_all] in H; [by injection H as <-|].
  destruct (exec strim cgroup_parse_float s e) as [[s1|]|] eqn:E; try done.
  cbn [mbind option_bind] in H. eapply IH; [|exact H]. by eapply exec_settled.
Qed.
End Events.

(** [nested parent tg]: below [tg] every clamp is at most the request and the
    parent's clamp, and the minimum at most the maximum. *)
Fixpoint nested (parent : option (both uclamp_se)) (tg : task_group) : Prop :=
  match tg with
  | TG _ req uc _ children =>
      (forall id, value (get id uc) <= value (get id req) /\
                  (forall up, parent = Some up -> value (get id uc) <= value (get id up))) /\
      value (at_min uc) <= value (at_max uc) /\
      (fix go cs := match cs with [] => True | c :: cs => nested (Some uc) c /\ go cs end) children
  end.

Lemma settled_nested tg : forall parent, settled parent tg -> nested parent tg.
Proof.
  induction tg as [id req uc pct cs IH] using task_group_ind'. intros parent [Hu Hcs]%settled_intro.
  assert (forall i, value (get i uc) = get i (eff_values parent req)) as Hv.
  { intros i. rewrite <- Hu. apply propagate_value. }
  cbn [nested]. split_and!.
  - intros i. rewrite Hv. destruct (eff_values_bounds parent req i) as (H1 & H2 & _). by split.
  - change (value (get UCLAMP_MIN uc) <= value (get UCLAMP_MAX uc)). rewrite !Hv. apply (eff_values_bounds parent req UCLAMP_MIN).
  - clear Hv. induction cs as [|c cs IHcs]; [done|]. apply Forall_cons in IH as [IHc IH]. apply Forall_cons in Hcs as [Hc Hcs].
    split; [by apply IHc|by apply IHcs].
Qed.

(** ** Reading back what was written *)
Lemma update_eff_fields g parent tg st tg' st' : cpu_util_update_eff g parent tg st = Ok (tg', st') ->
  tg_id tg' = tg_id tg /\ tg_req tg' = tg_req tg /\ uclamp_pct tg' = uclamp_pct tg.
Proof.
  destruct tg as [id req uc pct cs]. cbn [cpu_util_update_eff].
  destruct (propagate _ _) as [uc' [|c0 clamps]]; [by intros [= <- _]|].
  intros H. apply bind_ok in H as (st1 & _ & H). apply bind_ok in H as ([cs' st2] & _ & H). by injection H as <- _.
Qed.

(** The group [f] was applied to is the one found afterwards. *)
Lemma at_group_none f target tg parent st : at_group f target parent tg st = None -> find_group target tg = None.
Proof.
  revert parent. induction tg as [id req uc pct cs IH] using task_group_ind'. intros parent. cbn [at_group tg_id find_group].
  destruct (id =? target)%c; [done|]. intros H.
  match type of H with mbind _ ?e = _ => destruct e as [r1|] eqn:E; [discriminate H|] end. clear H.
  induction cs as [|c cs IHcs]; [done|]. apply Forall_cons in IH as [IHc IH].
  destruct (at_group f target (Some uc) c st) as [rc|] eqn:Ec; [discriminate E|].
  match type of E with mbind _ ?e = _ => destruct e as [r2|] eqn:E2; [discriminate E|] end.
  rewrite (IHc _ Ec). by apply IHcs.
Qed.
Lemma at_group_find f target :
  (forall parent tg st tg' st', f parent tg st = Ok (tg', st') -> tg_id tg' = tg_id tg) ->
  forall tg parent st tg' st', at_group f target parent tg st = Some (Ok (tg', st')) ->
  exists p t t' st1 st2, f p t st1 = Ok (t', st2) /\ find_group target tg' = Some t'.
Proof.
  intros Hf tg. induction tg as [id req uc pct cs IH] using task_group_ind'. intros parent st tg' st'.
  cbn [at_group tg_id]. destruct (id =? target)%c eqn:Eid.
  - intros [= H]. exists parent, (TG id req uc pct cs), tg', st, st'. split; [done|].
    apply Hf in H. destruct tg' as [i' ? ? ? ?]. simpl in H. subst i'. cbn [find_group]. by rewrite Eid.
  - intros H. match type of H with mbind _ ?e = _ => destruct e as [r1|] eqn:E; [|discriminate H] end.
    cbn [mbind option_bind] in H. injection H as H. apply bind_ok in H as ([cs' st2] & -> & H). injection H as <- _.
    cbn [find_group]. rewrite Eid.
    revert cs' st2 E. induction cs as [|c cs IHcs]; intros cs' st2 E; [discriminate E|].
    apply Forall_cons in IH as [IHc IH].
    destruct (at_group f target (Some uc) c st) as [rc|] eqn:Ec.
    + injection E as E. apply bind_ok in E as ([c' st3] & -> & E). injection E as <- _.
      destruct (IHc _ _ _ _ Ec) as (p & t & t' & st4 & st5 & H1 & H2). exists p, t, t', st4, st5. by rewrite H2.
    + match type of E with mbind _ ?e = _ => destruct e as [r2|] eqn:E2; [|discriminate E] end.
      cbn [mbind option_bind] in E. injection E as E. apply bind_ok in E as ([cs1 st3] & -> & E). injection E as <- _.
      apply at_group_none in Ec. rewrite Ec. by eapply IHcs.
Qed.
End Tree.
