(* ===== verification/UClampProps.v ===== *)
(** * Utilization clamps: the properties (src/Assignment_4/fifo/core.c)

    What the development states of the code under CONFIG_UCLAMP_TASK, with the
    histories in which it fails. *)
From Stdlib Require Import ZArith Lia Ascii String.
From S2P Require Import Prelude CLib UClamp UClampRq UClampSys UClampInv UClampTheorems UClampTree.
Import UClamp UClampSys.

Local Open Scope stdpp_scope.
Local Open Scope Z_scope.

(** ** The two instances of the invariant *)
Section Instances.
Context `{cfg : uclamp_config, !uclamp_config_ok cfg}.

(** Any [u32] may be asked for: the bucket exists. *)
Definition any_value (v : Z) : Prop := 0 <= v.
Definition any_clamp (s : uclamp_se) : Prop := in_range s /\ 0 <= value s.
Lemma any_set s v user : any_value v -> any_clamp (uclamp_se_set s v user).
Proof.
  intros Hv. split; [by apply se_set_range|]. simpl. apply Z.mod_pos_bound.
  apply Z.pow_pos_nonneg; [lia|]. rewrite scale_1024, bits_per_def by lia. simpl. lia.
Qed.
Lemma any_raw v a user : any_value v -> any_clamp (mk_se v (uclamp_bucket_id v) a user).
Proof. intros Hv. split; [by apply bucket_id_range|done]. Qed.

(** Clamps of at most SCHED_CAPACITY_SCALE: the bucket is that of the value. *)
Definition sane_value (v : Z) : Prop := 0 <= v <= SCHED_CAPACITY_SCALE.
Lemma sane_set s v user : sane_value v -> wf_se (uclamp_se_set s v user).
Proof. intros Hv. by apply se_set_wf. Qed.

Section Histories.
Context (strim : string -> string) (cgroup_parse_float : string -> Z -> Z + Z).
Let run := exec_all strim cgroup_parse_float.

Lemma any_history es r : Forall (event_ok any_value) es -> run init_uclamp es = Some r ->
  exists s, r = Ok s /\ sys_inv any_value any_clamp s.
Proof.
  intros He H.
  destruct (exec_all_sys strim cgroup_parse_float any_value any_clamp) with (es := es) (s := init_uclamp) (r := r)
    as (s & -> & Hs & _); try done.
  - by intros v [? _].
  - apply any_set.
  - by intros; apply any_raw.
  - by intros s [].
  - by intros s [].
  - apply init_sys; [by intros v [? _]|apply any_set].
  - by exists s.
Qed.

Lemma sane_history s es r : sys_inv sane_value wf_se s -> covered (the_rq s) (ts s) ->
  Forall (event_ok sane_value) es -> forallb calm es = true -> run s es = Some r ->
  exists s', r = Ok s' /\ sys_inv sane_value wf_se s' /\ covered (the_rq s') (ts s') /\
    (tracked (the_rq s) (ts s) -> tracked (the_rq s') (ts s')).
Proof.
  intros Hs Hc He Hcalm H.
  destruct (exec_all_sys strim cgroup_parse_float sane_value wf_se) with (es := es) (s := s) (r := r)
    as (s' & -> & Hs' & Hk); try done.
  - apply sane_set.
  - by intros s0 [].
  - apply wf_range.
  - destruct (Hk Hcalm) as [Hc' Ht]; [done|done|]. by exists s'.
Qed.
End Histories.
End Instances.

(** ** Deciding that a history is in range *)
Definition event_okb (f : Z -> bool) (e : event) : bool :=
  match e with
  | SetAttr _ a _ _ _ =>
      (((sched_util_min a =? u32_minus_1)%c || f (sched_util_min a)) &&
       ((sched_util_max a =? u32_minus_1)%c || f (sched_util_max a)))%bool
  | Sysctl vmin vmax vrt => ((0 <=? vmin)%c && (0 <=? vmax)%c && (0 <=? vrt)%c)%bool
  | _ => true
  end.
Lemma event_okb_ok (V : Z -> Prop) f es : (forall v, f v = true -> V v) ->
  forallb (event_okb f) es = true -> Forall (event_ok V) es.
Proof.
  intros Hf. induction es as [|e es IH]; [constructor|]. cbn [forallb]. intros [He Hes]%andb_prop.
  constructor; [|auto]. destruct e; try done; simpl in *.
  - apply andb_prop in He as [[H1|H1]%orb_prop [H2|H2]%orb_prop]; apply Z.eqb_eq in H1 || apply Hf in H1;
      apply Z.eqb_eq in H2 || apply Hf in H2; split; auto.
  - apply andb_prop in He as [[H1 H2]%andb_prop H3]. rewrite Z.leb_le in *. done.
Qed.
Definition anyb (v : Z) : bool := (0 <=? v)%c.
Definition saneb (v : Z) : bool := ((0 <=? v)%c && (v <=? 1024)%c)%bool.
Lemma anyb_ok v : anyb v = true -> any_value v.
Proof. apply Z.leb_le. Qed.
Lemma saneb_ok v : saneb v = true -> sane_value v.
Proof. intros [H1%Z.leb_le H2%Z.leb_le]%andb_prop. by split. Qed.

(** ** The number of tasks counted in a bucket *)
Definition counted_in (id : uclamp_id) (b : Z) (t : gmap Z task) : Z :=
  Z.of_nat (size (filter (fun kv => active (get id (uclamp kv.2)) = true /\
                                    bucket_id (get id (uclamp kv.2)) = b) t)).

Lemma refs_counted id b t : refs b (members id t) = counted_in id b t.
Proof.
  unfold refs, counted_in. f_equal.
  assert (filter (fun kv => bucket_id kv.2 = b) (members id t) =
          omap (counted_se id) (filter (fun kv => active (get id (uclamp kv.2)) = true /\
                                    bucket_id (get id (uclamp kv.2)) = b) t)) as ->.
  { apply map_eq. intros i. apply option_eq. intros s.
    rewrite map_lookup_filter_Some, members_lookup, lookup_omap_Some. simpl. split.
    - destruct (t !! i) as [p|] eqn:E; simpl; [|by intros []]. unfold counted_se.
      destruct (active (get id (uclamp p))) eqn:Ea; [|by intros []]. intros [[= <-] Hb].
      exists p. rewrite Ea. split; [done|]. by apply map_lookup_filter_Some.
    - intros (p & Hp & [E [Ea Hb]]%map_lookup_filter_Some). simpl in *. rewrite E. simpl. split; [done|].
      unfold counted_se in Hp. rewrite Ea in Hp. by injection Hp as <-. }
  assert (forall m : gmap Z task, map_Forall (fun _ p => is_Some (counted_se id p)) m ->
            size (omap (counted_se id) m) = size m) as Hsize.
  { intros m. induction m as [|i p m Hi IH] using map_ind; [by rewrite omap_empty|].
    intros [[s Hs] Hm]%map_Forall_insert; [|done]. rewrite (omap_insert_Some _ _ _ _ s) by done.
    rewrite !map_size_insert_None; [by rewrite IH|done|]. by rewrite lookup_omap, Hi. }
  apply Hsize. intros i p [_ [Ea _]]%map_lookup_filter_Some. unfold counted_se. simpl in Ea. rewrite Ea. eauto.
Qed.

(** ** The properties *)

(** C11: The accounting is exact over every history. Whatever the tasks ask for,
    whatever is written to the knobs of the groups and to the sysctl, in any
    order with wake-ups, sleeps, forks and moves: nothing indexes outside the
    buckets, every bucket counts precisely the tasks marked active with its
    number, and only queued tasks are active. *)
Theorem uclamp_accounting `{cfg : uclamp_config, !uclamp_config_ok cfg} strim cgroup_parse_float es r :
  Forall (event_ok any_value) es ->
  exec_all strim cgroup_parse_float init_uclamp es = Some r ->
  exists s, r = Ok s /\
    (forall id b bk, bucket (get id (uclamp_rqs (the_rq s))) !! b = Some bk ->
       tasks bk = counted_in id (Z.of_nat b) (ts s)) /\
    (forall pid p id, ts s !! pid = Some p -> active (get id (uclamp p)) = true -> on_rq p = true).
Proof.
  intros He H. apply any_history in H as (s & -> & Hs); [|done]. exists s. split; [done|]. split.
  - intros id b bk Hb. rewrite <- refs_counted.
    apply (counts_tasks _ _ (counted_rq _ _ (inv_counted _ _ _ Hs) id) _ _ Hb).
  - intros pid p id Hp Ha. by destruct (task_active _ _ _ (inv_tasks _ _ _ Hs _ _ Hp) id Ha).
Qed.

(** While no clamp is updated in place, the run queue serves every running task:
    with requests of at most SCHED_CAPACITY_SCALE, after any history of
    wake-ups, sleeps, requests, forks and moves the value of each clamp is at
    least that of each active task, and no warning was printed. *)
Theorem uclamp_serves_running_tasks `{cfg : uclamp_config, !uclamp_config_ok cfg} strim cgroup_parse_float es r :
  Forall (event_ok sane_value) es -> forallb calm es = true ->
  exec_all strim cgroup_parse_float init_uclamp es = Some r ->
  exists s, r = Ok s /\ warned (the_rq s) = false /\
    (forall pid p id, ts s !! pid = Some p -> active (get id (uclamp p)) = true ->
       value (get id (uclamp p)) <= rq_value (get id (uclamp_rqs (the_rq s)))).
Proof.
  intros He Hc H. destruct (init_sys sane_value wf_se) as [Hi Hcov]; [done|apply sane_set|].
  apply (sane_history strim cgroup_parse_float) in H as (s & -> & Hs & Hv & _); [|done..].
  exists s. split; [done|]. split; [apply (covered_quiet _ _ Hv)|].
  intros pid p id Hp Ha. pose proof (members_member id _ _ _ Hp Ha) as Hm.
  destruct (counted_bucket _ _ _ _ (counted_rq _ _ (inv_counted _ _ _ Hs) id) Hm) as (bk & Hbk & _ & _ & Ht).
  pose proof (covers_task _ _ (covered_rq _ _ Hv id) _ _ _ Hm Hbk).
  destruct (covers_bucket _ _ (covered_rq _ _ Hv id) _ _ Hbk); lia.
Qed.

(** A history over the default configuration, with the texts of percentages. *)
Definition no_strim (s : string) : string := s.
Definition parse_percent (s : string) (_ : Z) : Z + Z :=
  if String.eqb s "70.00" then inr 7000 else if String.eqb s "80.00" then inr 8000 else inl (-22).
Definition demo (es : list event) : option (res system) :=
  exec_all (cfg := five_buckets) no_strim parse_percent (init_uclamp (cfg := five_buckets)) es.
Definition ask_max (v : Z) : sched_attr := mk_attr false true 0 v.
Definition ask_min (v : Z) : sched_attr := mk_attr true false v 0.

Definition two_tasks : list event :=
  [SetAttr 1 (ask_max 900) false true false; Fork 1 2 false true;
   SetAttr 2 (ask_min 300) false true false; Activate 1; Activate 2; Deactivate 1; MoveTask 2 (Some 5)].

Lemma uclamp_accounting_witness : exists s, demo two_tasks = Some (Ok s) /\
  (forall id b bk, bucket (get id (uclamp_rqs (the_rq s))) !! b = Some bk ->
     tasks bk = counted_in id (Z.of_nat b) (ts s)).
Proof.
  destruct (demo two_tasks) as [r|] eqn:E; [|vm_compute in E; discriminate E].
  destruct (uclamp_accounting (cfg := five_buckets) no_strim parse_percent two_tasks r) as (s & -> & H & _).
  - apply (event_okb_ok _ anyb); [exact anyb_ok|vm_compute; reflexivity].
  - exact E.
  - exists s. split; [reflexivity|exact H].
Defined.
Lemma uclamp_serves_running_tasks_witness : exists s, demo two_tasks = Some (Ok s) /\
  warned (the_rq s) = false.
Proof.
  destruct (demo two_tasks) as [r|] eqn:E; [|vm_compute in E; discriminate E].
  destruct (uclamp_serves_running_tasks (cfg := five_buckets) no_strim parse_percent two_tasks r)
    as (s & -> & H & _).
  - apply (event_okb_ok _ saneb); [exact saneb_ok|vm_compute; reflexivity].
  - reflexivity.
  - exact E.
  - exists s. split; [reflexivity|exact H].
Defined.

(** Once the queue has been idle, the clamp is as tight as the buckets allow:
    from a reached state marked idle (the minimum back at 0), after any further
    history without updates in place, the value lies in the bucket of some
    active task and above all the others. *)
Theorem uclamp_exact_after_idle `{cfg : uclamp_config, !uclamp_config_ok cfg} strim cgroup_parse_float es1 es2 s1 r id pid p :
  Forall (event_ok sane_value) (es1 ++ es2) -> forallb calm (es1 ++ es2) = true ->
  exec_all strim cgroup_parse_float init_uclamp es1 = Some (Ok s1) ->
  flag_idle (the_rq s1) = true -> rq_value (at_min (uclamp_rqs (the_rq s1))) = 0 ->
  exec_all strim cgroup_parse_float s1 es2 = Some (Ok r) ->
  ts r !! pid = Some p -> active (get id (uclamp p)) = true ->
  exists pid' p', ts r !! pid' = Some p' /\ active (get id (uclamp p')) = true /\
    uclamp_bucket_id (rq_value (get id (uclamp_rqs (the_rq r)))) = bucket_id (get id (uclamp p')) /\
    (forall pid'' p'', ts r !! pid'' = Some p'' -> active (get id (uclamp p'')) = true ->
       bucket_id (get id (uclamp p'')) <= bucket_id (get id (uclamp p'))).
Proof.
  intros [He1 He2]%Forall_app Hcalm H1 Hf H0 H2 Hp Ha. rewrite forallb_app in Hcalm.
  apply andb_prop in Hcalm as [Hc1 Hc2].
  destruct (init_sys sane_value wf_se) as [Hi Hcov]; [done|apply sane_set|].
  apply (sane_history strim cgroup_parse_float) in H1 as (s1' & [= <-] & Hs1 & Hv1 & _); [|done..].
  assert (tracked (the_rq s1) (ts s1)) as Ht1.
  { constructor; [|done..]. intros i Hne. exfalso. by apply Hne, (covered_idle _ _ Hv1). }
  apply (sane_history strim cgroup_parse_float) in H2 as (r' & [= <-] & Hr & Hv & Ht); [|done..].
  specialize (Ht Ht1). pose proof (counted_rq _ _ (inv_counted _ _ _ Hr) id) as Hcr.
  pose proof (members_member id _ _ _ Hp Ha) as Hm.
  destruct (exact_top _ _ Hcr (tracked_rq _ _ Ht id) (map_nonempty _ _ _ Hm)) as (b & bk & Hb & Htb & Hval & Hlt & Hall).
  pose proof (proj1 (covers_bucket _ _ (covered_rq _ _ Hv id) _ _ Hb Htb)) as Hid. rewrite Hval in Hid.
  pose proof (counts_tasks _ _ Hcr _ _ Hb) as Hn.
  destruct (refs_pos (Z.of_nat b) (members id (ts r))) as (pid' & s' & Hs' & Hb').
  { pose proof (refs_nonneg (Z.of_nat b) (members id (ts r))). lia. }
  rewrite members_lookup in Hs'. destruct (ts r !! pid') as [p'|] eqn:Hp'; [|done]. simpl in Hs'.
  unfold counted_se in Hs'. destruct (active (get id (uclamp p'))) eqn:Ha'; [|done]. injection Hs' as <-.
  exists pid', p'. rewrite Hb'. split_and!; [done..|].
  intros pid'' p'' Hp'' Ha''. pose proof (members_member id _ _ _ Hp'' Ha'') as Hm''.
  destruct (counted_bucket _ _ _ _ Hcr Hm'') as (bk2 & Hbk2 & _ & _ & Ht2).
  pose proof (counts_range _ _ Hcr _ _ Hm'') as Hr2; cbn beta in Hr2.
  destruct (Z.le_gt_cases (bucket_id (get id (uclamp p''))) (Z.of_nat b)) as [|Hgt]; [done|].
  exfalso. rewrite (Hall (Z.to_nat (bucket_id (get id (uclamp p'')))) bk2) in Ht2 by (done || lia). lia.
Qed.

Definition idle_once : list event :=
  [SetAttr 1 (ask_min 10) false true false; Activate 1; Deactivate 1].
Definition then_two : list event :=
  [SetAttr 1 (ask_max 500) false true false; Fork 1 2 false true; SetAttr 2 (ask_max 100) false true false;
   Activate 2; Activate 1].
Lemma uclamp_exact_after_idle_witness : exists s1 r, demo idle_once = Some (Ok s1) /\
  exec_all (cfg := five_buckets) no_strim parse_percent s1 then_two = Some (Ok r) /\
  exists pid', is_Some (ts r !! pid').
Proof.
  destruct (demo idle_once) as [[s1|]|] eqn:E1; try (vm_compute in E1; discriminate E1).
  assert (flag_idle (the_rq s1) = true /\ rq_value (at_min (uclamp_rqs (the_rq s1))) = 0 /\
    exists r p, exec_all (cfg := five_buckets) no_strim parse_percent s1 then_two = Some (Ok r) /\
      ts r !! 1 = Some p /\ active (get UCLAMP_MAX (uclamp p)) = true) as (Hf & H0 & r & p & E2 & Hp & Ha).
  { vm_compute in E1. injection E1 as <-. split; [reflexivity|]. split; [reflexivity|].
    eexists _, _. split; [vm_compute; reflexivity|]. split; vm_compute; reflexivity. }
  exists s1, r. split; [reflexivity|]. split; [exact E2|].
  destruct (uclamp_exact_after_idle (cfg := five_buckets) no_strim parse_percent idle_once then_two s1 r
              UCLAMP_MAX 1 p) as (pid' & p' & Hp' & _).
  - apply (event_okb_ok _ saneb); [exact saneb_ok|vm_compute; reflexivity].
  - reflexivity.
  - exact E1.
  - exact Hf.
  - exact H0.
  - exact E2.
  - exact Hp.
  - exact Ha.
  - exists pid'. rewrite Hp'. eexists. reflexivity.
Defined.

(** C17: The hierarchy is always as if recomputed from the root. The walk that skips
    unchanged groups gives, for any tree below, the reference [recompute]; so
    after any history every group's clamps follow from its request and its
    parent's clamps: capped by both, the minimum by the maximum. *)
Theorem group_clamps_recomputed `{cfg : uclamp_config, !uclamp_config_ok cfg} strim cgroup_parse_float :
  (forall g parent css st css' st', settled_below css ->
     cpu_util_update_eff g parent css st = Ok (css', st') -> css' = recompute parent css) /\
  (forall es s, exec_all strim cgroup_parse_float init_uclamp es = Some (Ok s) ->
     recompute None (root s) = root s /\ nested None (root s)).
Proof.
  split.
  - intros. by eapply walk_recompute.
  - intros es s H. apply exec_all_settled in H; [|apply init_settled].
    split; [done|]. by apply settled_nested.
Qed.

Definition groups : list event :=
  [GroupCreate 5 0; GroupCreate 6 5; GroupWrite 5 UCLAMP_MAX "70.00"; GroupWrite 6 UCLAMP_MIN "80.00"].
Lemma group_clamps_recomputed_witness : exists s, demo groups = Some (Ok s) /\
  recompute (cfg := five_buckets) None (root s) = root s /\
  option_map (fun tg => (value (at_min (tg_uclamp tg)), value (at_max (tg_uclamp tg))))
    (find_group 6 (root s)) = Some (0, 717).
Proof.
  destruct (demo groups) as [[s|]|] eqn:E; try (vm_compute in E; discriminate E).
  exists s. split; [reflexivity|].
  split; [apply (proj2 (group_clamps_recomputed (cfg := five_buckets) no_strim parse_percent) groups s E)|].
  vm_compute in E. injection E as <-. vm_compute. reflexivity.
Defined.

(** ** What is written is read back *)
Definition percent_text (pct : Z) : string := show (pct / 100) +:+ "." +:+ fmt_0d 2 (pct mod 100).

Lemma util_percent `{cfg : uclamp_config, !uclamp_config_ok cfg} pct : 0 <= pct <= 10000 ->
  DIV_ROUND_CLOSEST_ULL (u64 (Z.shiftl pct SCHED_CAPACITY_SHIFT)) UCLAMP_PERCENT_SCALE =
  (pct * 1024 + 5000) / 10000.
Proof.
  intros Hp. change SCHED_CAPACITY_SHIFT with 10. rewrite Z.shiftl_mul_pow2 by lia. change (2 ^ 10) with 1024.
  unfold u64. rewrite Z.mod_small by lia. change UCLAMP_PERCENT_SCALE with 10000.
  rewrite div_round_closest_ull; [done|lia..|]. change (10000 / 2) with 5000. lia.
Qed.

(** uclamp.min and uclamp.max show what was written: a percentage with two
    decimals comes back as the same text, for every percentage below 99.96;
    from 99.96 on the file shows "max". *)
Theorem uclamp_file_roundtrip `{cfg : uclamp_config, !uclamp_config_ok cfg} strim cgroup_parse_float css id pct s s' tg :
  0 <= pct <= 10000 ->
  strim (percent_text pct +:+ newline) <> "max" ->
  cgroup_parse_float (strim (percent_text pct +:+ newline)) 2 = inr pct ->
  cpu_uclamp_write strim cgroup_parse_float css id (percent_text pct +:+ newline) s = Some (Ok (0, s')) ->
  find_group css (root s') = Some tg ->
  cpu_uclamp_print id tg = (if (pct <? 9996)%c then percent_text pct else "max") +:+ newline.
Proof.
  intros Hp Hmax Hparse. unfold cpu_uclamp_write, capacity_from_percent.
  change UCLAMP_PERCENT_SHIFT with 2. rewrite Hparse.
  destruct (String.eqb_spec (strim (percent_text pct +:+ newline)) "max") as [|_]; [done|].
  assert (u64 pct = pct) as -> by (apply Z.mod_small; lia).
  assert ((UCLAMP_PERCENT_SCALE <? pct)%c = false) as -> by (apply Z.ltb_ge; change UCLAMP_PERCENT_SCALE with 10000; lia).
  cbn [ret negb Z.eqb].
  rewrite util_percent by done. set (u := (pct * 1024 + 5000) / 10000). set (req := mk_request pct u 0).
  intros H Hf. match type of H with mbind _ ?e = _ => destruct e as [r1|] eqn:E; [|discriminate H] end.
  cbn [mbind option_bind] in H. injection H as H. apply bind_ok in H as ([root' st'] & -> & H). injection H as <-.
  apply at_group_find in E as (p & t & t' & st1 & st2 & Hw & Hfind).
  2:{ intros parent t0 st0 t1 st3 Hw. apply update_eff_fields in Hw as (-> & _ & _). by destruct t0. }
  simpl in Hf. rewrite Hf in Hfind. injection Hfind as ->.
  apply update_eff_fields in Hw as (_ & Hr & Hpct).
  assert (0 <= u <= 1024) as Hu.
  { unfold u. split; [apply Z.div_pos; lia|]. apply Z.lt_succ_r, Z.div_lt_upper_bound; lia. }
  assert (get id (uclamp_pct t') = pct) as Ep.
  { rewrite Hpct. destruct t as [i r uc pc cs]. simpl. apply get_set_same. }
  assert (value (get id (tg_req t')) = u) as Er.
  { rewrite Hr. destruct t as [i r uc pc cs]. simpl. destruct (Z.eqb_spec (value (get id r)) u) as [|]; [done|].
    cbn [negb]. rewrite get_set_same. apply se_set_wf. rewrite scale_1024. lia. }
  unfold cpu_uclamp_print. rewrite Er, Ep. change SCHED_CAPACITY_SCALE with 1024.
  change (POW10 UCLAMP_PERCENT_SHIFT) with 100. change UCLAMP_PERCENT_SHIFT with 2.
  assert (u = 1024 <-> 9996 <= pct) as Hiff.
  { unfold u. split; intros Hx.
    - destruct (Z.le_gt_cases 9996 pct) as [|Hgt]; [done|]. exfalso.
      assert ((pct * 1024 + 5000) / 10000 < 1024); [|lia]. apply Z.div_lt_upper_bound; lia.
    - apply Z.le_antisymm; [lia|]. apply Z.div_le_lower_bound; lia. }
  destruct (Z.eqb_spec u 1024) as [Ex|Ex], (Z.ltb_spec pct 9996) as [Ey|Ey]; try (exfalso; lia).
  - done.
  - unfold percent_text. by rewrite !append_assoc.
Qed.

(** A parser of percentages with two decimals, as an instance of the hypotheses. *)
Definition parse_fixed (s : string) (_ : Z) : Z + Z :=
  match List.find (fun pct => String.eqb s (percent_text pct +:+ newline)) (map Z.of_nat (seq 0 200)) with
  | Some pct => inr pct
  | None => inl (-22)
  end.
Lemma uclamp_file_roundtrip_witness : exists s s' tg,
  cpu_uclamp_write (cfg := five_buckets) no_strim parse_fixed 5 UCLAMP_MIN ("1.50" +:+ newline) s = Some (Ok (0, s')) /\
  find_group 5 (root s') = Some tg /\ cpu_uclamp_print UCLAMP_MIN tg = "1.50" +:+ newline.
Proof.
  destruct (demo [GroupCreate 5 0]) as [[s|]|] eqn:E; try (vm_compute in E; discriminate E).
  destruct (cpu_uclamp_write (cfg := five_buckets) no_strim parse_fixed 5 UCLAMP_MIN (percent_text 150 +:+ newline) s)
    as [[[rv s']|]|] eqn:Ew; try (vm_compute in E; injection E as <-; vm_compute in Ew; discriminate Ew).
  assert (rv = 0 /\ exists tg, find_group 5 (root s') = Some tg) as [-> [tg Hf]].
  { vm_compute in E. injection E as <-. vm_compute in Ew. injection Ew as <- <-.
    split; [reflexivity|]. eexists. vm_compute. reflexivity. }
  exists s, s', tg. split; [exact Ew|]. split; [exact Hf|].
  apply (uclamp_file_roundtrip (cfg := five_buckets) no_strim parse_fixed 5 UCLAMP_MIN 150 s s' tg).
  - lia.
  - vm_compute. discriminate.
  - vm_compute. reflexivity.
  - exact Ew.
  - exact Hf.
Defined.

(** ** Where the clamps fail *)

(** A group's task alone on the queue, then a second task. *)
Definition in_place : list event :=
  [SetAttr 1 (ask_min 10) false true false; Activate 1; Deactivate 1;
   GroupCreate 5 0; Fork 1 2 false true; MoveTask 2 (Some 5); GroupWrite 5 UCLAMP_MAX "80.00";
   Activate 2; GroupWrite 5 UCLAMP_MAX "70.00"; SetAttr 1 (ask_max 205) false true false; Activate 1].

(** Updating the clamp of the only running task in place loses it. The update
    takes the task out and puts it back, which marks the queue idle and leaves
    the mark; the next task to wake then resets the queue's value to its own:
    with 70% in its group the running task has the clamp 717, the queue 205. *)
Theorem update_in_place_loses_clamp :
  exists s p, demo in_place = Some (Ok s) /\ ts s !! 2 = Some p /\ on_rq p = true /\
    active (at_max (uclamp p)) = true /\ value (at_max (uclamp p)) = 717 /\
    rq_value (at_max (uclamp_rqs (the_rq s))) = 205.
Proof. eexists _, _. split; [vm_compute; reflexivity|]. repeat split; vm_compute; reflexivity. Qed.

(** Before the queue was idle for the first time the maximum clamp has no effect:
    a queue starts with SCHED_CAPACITY_SCALE, so whatever lower maximum the
    first task asks for, the value stays at SCHED_CAPACITY_SCALE while it runs,
    and after it slept the queue is still not marked idle. *)
Theorem first_wakeup_ignores_max v : 0 <= v < 1024 ->
  exists s s', demo [SetAttr 1 (ask_max v) false true false; Activate 1] = Some (Ok s) /\
    demo [SetAttr 1 (ask_max v) false true false; Activate 1; Deactivate 1] = Some (Ok s') /\
    (exists p, ts s !! 1 = Some p /\ value (at_max (uclamp p)) = v) /\
    rq_value (at_max (uclamp_rqs (the_rq s))) = 1024 /\
    rq_value (at_max (uclamp_rqs (the_rq s'))) = 1024 /\ flag_idle (the_rq s') = false.
Proof.
  intros Hv.
  set (ok v := match demo [SetAttr 1 (ask_max v) false true false; Activate 1],
                     demo [SetAttr 1 (ask_max v) false true false; Activate 1; Deactivate 1] with
               | Some (Ok s), Some (Ok s') =>
                   (match ts s !! 1 with Some p => (value (at_max (uclamp p)) =? v)%c | None => false end &&
                    (rq_value (at_max (uclamp_rqs (the_rq s))) =? 1024)%c &&
                    (rq_value (at_max (uclamp_rqs (the_rq s'))) =? 1024)%c && negb (flag_idle (the_rq s')))%bool
               | _, _ => false
               end).
  assert (forallb ok (map Z.of_nat (seq 0 1024)) = true) as Hall by (vm_compute; reflexivity).
  rewrite forallb_forall in Hall. specialize (Hall v). unfold ok in Hall.
  destruct (demo [_; Activate 1]) as [[s|]|], (demo [_; Activate 1; _]) as [[s'|]|];
    try (exfalso; discriminate Hall; rewrite <- (Z2Nat.id v) by lia; apply in_map, in_seq; lia).
  assert (In v (map Z.of_nat (seq 0 1024))) as Hin by (rewrite <- (Z2Nat.id v) by lia; apply in_map, in_seq; lia).
  specialize (Hall Hin). apply andb_prop in Hall as [Hall H4%negb_true_iff].
  apply andb_prop in Hall as [Hall H3%Z.eqb_eq]. apply andb_prop in Hall as [H1 H2%Z.eqb_eq].
  exists s, s'. split_and!; try done. destruct (ts s !! 1) as [p|]; [|done]. apply Z.eqb_eq in H1. eauto.
Qed.
Lemma first_wakeup_ignores_max_witness : exists s,
  demo [SetAttr 1 (ask_max 512) false true false; Activate 1] = Some (Ok s) /\
  rq_value (at_max (uclamp_rqs (the_rq s))) = 1024.
Proof.
  destruct (first_wakeup_ignores_max 512) as (s & s' & H1 & _ & _ & H2 & _); [lia|]. exists s. split; [exact H1|exact H2].
Defined.

(** uclamp_validate lets negative requests through. For every minimum from 2^31
    to 2^32 - 2, which is below -1 as an int, the check succeeds, and the task
    is then counted in the highest bucket with the low eleven bits as its value. *)
Theorem validate_negative `{cfg : uclamp_config, !uclamp_config_ok cfg} g p v :
  2 ^ 31 <= v < 2 ^ 32 - 1 -> 0 <= value (at_max (uclamp_req p)) ->
  uclamp_validate g p (ask_min v) = (enable g, 0) /\
  let s := at_min (uclamp_req (__setscheduler_uclamp (enable g) p (ask_min v))) in
  value s = v mod 2048 /\ bucket_id s = UCLAMP_BUCKETS - 1 /\ user_defined s = true.
Proof.
  intros Hv Hmax. split.
  - unfold uclamp_validate, ask_min. cbn [flag_util_clamp_min flag_util_clamp_max sched_util_min andb get].
    assert (s32 v = v - 2 ^ 32) as ->.
    { unfold s32. rewrite <- (Z_mod_plus_full _ (-1)), Z.mod_small; lia. }
    assert (s32 (v - 2 ^ 32 + 1) = v - 2 ^ 32 + 1) as ->.
    { unfold s32. rewrite Z.mod_small; lia. }
    rewrite (proj2 (Z.ltb_ge _ _)) by (rewrite scale_1024; lia).
    rewrite (proj2 (Z.ltb_ge _ (v - 2 ^ 32))) by lia. by rewrite andb_false_r.
  - assert ((v =? u32_minus_1)%c = false) as Ev by (apply Z.eqb_neq; unfold u32_minus_1; lia).
    unfold __setscheduler_uclamp. cbn [foldl clamp_ids]. unfold reset_request, uclamp_reset, flag_util_clamp, ask_min.
    cbn [flag_util_clamp_min flag_util_clamp_max sched_util_min sched_util_max orb negb andb].
    rewrite Ev. cbn [negb andb]. cbn zeta. simpl.
    rewrite bits_per_def by (rewrite scale_1024; lia).
    split; [done|]. split; [|done].
    rewrite bucket_field by lia. unfold uclamp_bucket_id. apply Z.min_r.
    pose proof delta_bounds. pose proof buckets_bounds.
    apply Z.div_le_lower_bound; [lia|]. nia.
Qed.

Lemma validate_negative_witness :
  exists p, value (at_min (uclamp_req p)) = 5 /\ bucket_id (at_min (uclamp_req p)) = 4.
Proof.
  destruct (validate_negative (cfg := five_buckets) (init_globals (cfg := five_buckets))
              (mk_task (init_request (cfg := five_buckets)) (mk_both zero_se zero_se) None false true false false)
              (2 ^ 31 + 5)) as [_ (H1 & H2 & _)].
  - split; vm_compute; [discriminate|reflexivity].
  - vm_compute. discriminate.
  - eexists. split; [exact H1|exact H2].
Defined.

(** A task with such a request hides the clamps below it. *)
Definition negative_request : list event :=
  [SetAttr 1 (ask_min 300) false true false; Fork 1 2 false true; Fork 1 3 false true;
   SetAttr 2 (ask_min (2 ^ 31 + 5)) false true false; SetAttr 3 (ask_min 500) false true false;
   Activate 1; Activate 2; Activate 3; Deactivate 3].
Example negative_request_hides : exists s p, demo negative_request = Some (Ok s) /\ ts s !! 1 = Some p /\
  value (at_min (uclamp p)) = 300 /\ rq_value (at_min (uclamp_rqs (the_rq s))) = 5.
Proof. eexists _, _. split; [vm_compute; reflexivity|]. repeat split; vm_compute; reflexivity. Qed.
