(* ===== verification/TaskGroup.v ===== *)
(** * Task groups: tree, weights and bandwidth (src/Assignment_4/fifo/core.c)

    The groups of the cpu controller as a store of [task_group] records linked by
    parent and children: creation and removal, the walk over the tree with its two
    gotos, the limits of CFS bandwidth with their check over the hierarchy, and the
    files cpu.shares, cpu.weight, cpu.weight.nice, cpu.cfs_quota_us,
    cpu.cfs_period_us and cpu.max.  [None] is an access to a group that is not
    allocated.  One writer at a time, as under cfs_constraints_mutex; the other
    CPUs see the store between the steps of [set_steps].  The clamps of a group are
    in UClampSys. *)
From Stdlib Require Import ZArith Lia.
From stdpp Require Import gmap.
From S2P Require Import Prelude CLib SchedInfo SchedClass UClamp.

Local Open Scope Z_scope.

Definition NSEC_PER_USEC : Z := 1000.
Definition NSEC_PER_MSEC : Z := 1000000.
Definition NSEC_PER_SEC : Z := 1000000000.
Definition ENOMEM : Z := 12.
Definition ERANGE : Z := 34.
Definition INT_MAX : Z := 2 ^ 31 - 1.

(** ** Data *)
Record cfs_bandwidth := mk_bw {
  period : Z; quota : Z; hierarchical_quota : Z; runtime : Z;
  nr_periods : Z; nr_throttled : Z; throttled_time : Z
}.
Record cfs_rq := mk_cfs_rq { runtime_enabled : bool; runtime_remaining : Z; throttled : bool }.
(** [cfs_rqs] is the array [cfs_rq], by CPU. *)
Record task_group := mk_tg {
  tg_parent : option Z; children : list Z; shares : Z;
  bandwidth : cfs_bandwidth; cfs_rqs : gmap Z cfs_rq
}.

Definition set_limits (b : cfs_bandwidth) (p q : Z) : cfs_bandwidth :=
  mk_bw p q (hierarchical_quota b) (runtime b) (nr_periods b) (nr_throttled b) (throttled_time b).
Definition set_hierarchical (b : cfs_bandwidth) (v : Z) : cfs_bandwidth :=
  mk_bw (period b) (quota b) v (runtime b) (nr_periods b) (nr_throttled b) (throttled_time b).
Definition set_bandwidth (g : task_group) (b : cfs_bandwidth) : task_group :=
  mk_tg (tg_parent g) (children g) (shares g) b (cfs_rqs g).
Definition set_rq (g : task_group) (i : Z) (c : cfs_rq) : task_group :=
  mk_tg (tg_parent g) (children g) (shares g) (bandwidth g) (<[i := c]> (cfs_rqs g)).
Definition set_children (g : task_group) (l : list Z) : task_group :=
  mk_tg (tg_parent g) l (shares g) (bandwidth g) (cfs_rqs g).
Definition set_parent (g : task_group) (p : option Z) : task_group :=
  mk_tg p (children g) (shares g) (bandwidth g) (cfs_rqs g).

(** What kmem_cache_alloc returns with __GFP_ZERO. *)
Definition zero_bw : cfs_bandwidth := mk_bw 0 0 0 0 0 0 0.
Definition zero_tg : task_group := mk_tg None [] 0 zero_bw ∅.

(** The limits two states of the bandwidth agree on. *)
Definition same_limits (b b' : cfs_bandwidth) : Prop :=
  period b' = period b /\ quota b' = quota b /\ hierarchical_quota b' = hierarchical_quota b.

(** ** What other files provide

    kernel/sched/sched.h, kernel/sched/fair.c and lib/vsprintf.c.  [sscanf_tok buf]
    is what sscanf stores for the format %20s %llu, [sscanf_llu] for %llu. *)
Class fair_class := {
  RUNTIME_INF : Z; BW_SHIFT : Z; BW_UNIT : Z; MAX_BW : Z;
  MIN_SHARES : Z; MAX_SHARES : Z; ROOT_TASK_GROUP_LOAD : Z; scale_load_down : Z -> Z;
  CGROUP_WEIGHT_MIN : Z; CGROUP_WEIGHT_DFL : Z; CGROUP_WEIGHT_MAX : Z;
  possible_cpus : list Z; online_cpus : list Z;
  init_cfs_bandwidth : cfs_bandwidth -> cfs_bandwidth;
  init_tg_cfs_entry : Z -> cfs_rq;
  __refill_cfs_bandwidth_runtime : cfs_bandwidth -> cfs_bandwidth;
  start_cfs_bandwidth : cfs_bandwidth -> cfs_bandwidth;
  unthrottle_cfs_rq : cfs_bandwidth -> cfs_rq -> cfs_bandwidth * cfs_rq;
  alloc_fair_sched_group : task_group -> task_group;
  sched_group_set_shares : task_group -> Z -> task_group * Z;
  cgroup_subsys_on_dfl : bool;
  sscanf_tok : string -> option string * option Z;
  sscanf_llu : string -> option Z
}.

(** A word of at most [n] characters. *)
Definition short_word (n : Z) (w : string) : Prop := w <> EmptyString /\ no_space w = true /\ strlen w <= n.

(** What is documented of them. *)
Class fair_class_ok `{h : headers} (f : fair_class) : Prop := {
  constants : RUNTIME_INF = 2 ^ 64 - 1 /\ BW_SHIFT = 20 /\ MAX_BW = 2 ^ 44 - 1;
  share_bounds : MIN_SHARES = 2 /\ MAX_SHARES = 2 ^ 18;
  weight_bounds : CGROUP_WEIGHT_MIN = 1 /\ CGROUP_WEIGHT_DFL = 100 /\ CGROUP_WEIGHT_MAX = 10000;
  scale_down w : 2 <= w <= MAX_SHARES -> scale_load_down (scale_load w) = w;
  scale_down_max : MAX_SHARES <= scale_load_down ULONG_MAX;
  scale_mono v w : 0 <= v <= w -> w <= MAX_SHARES -> 0 <= scale_load v <= scale_load w;
  online_possible : online_cpus ⊆ possible_cpus;
  init_unlimited b : quota (init_cfs_bandwidth b) = RUNTIME_INF /\
    NSEC_PER_MSEC <= period (init_cfs_bandwidth b) <= NSEC_PER_SEC;
  entry_off i : runtime_enabled (init_tg_cfs_entry i) = false;
  refill_limits b : same_limits b (__refill_cfs_bandwidth_runtime b);
  start_limits b : same_limits b (start_cfs_bandwidth b);
  unthrottle_limits b c : same_limits b (unthrottle_cfs_rq b c).1;
  unthrottle_rq b c : throttled (unthrottle_cfs_rq b c).2 = false /\
    runtime_enabled (unthrottle_cfs_rq b c).2 = runtime_enabled c /\
    runtime_remaining (unthrottle_cfs_rq b c).2 = runtime_remaining c;
  alloc_links g : tg_parent (alloc_fair_sched_group g) = tg_parent g /\
    children (alloc_fair_sched_group g) = children g;
  alloc_bandwidth g : bandwidth (alloc_fair_sched_group g) = init_cfs_bandwidth (bandwidth g);
  alloc_rqs g i : i ∈ possible_cpus ->
    is_Some (cfs_rqs (alloc_fair_sched_group g) !! i);
  alloc_off g i c : cfs_rqs (alloc_fair_sched_group g) !! i = Some c -> runtime_enabled c = false;
  set_shares g w :
    (exists v, (sched_group_set_shares g w).1 =
       mk_tg (tg_parent g) (children g) v (bandwidth g) (cfs_rqs g)) /\
    (is_Some (tg_parent g) -> (sched_group_set_shares g w).2 = 0 /\
       shares (sched_group_set_shares g w).1 =
         Z.max (scale_load MIN_SHARES) (Z.min (scale_load MAX_SHARES) w));
  scan_tok w n rest : short_word 20 w -> 0 <= n < 2 ^ 64 ->
    starts_with isdigit rest = false ->
    sscanf_tok (String.append w (String SP (String.append (show n) rest))) = (Some w, Some n);
  scan_tok_only w : short_word 20 w -> sscanf_tok (String.append w newline) = (Some w, None);
  scan_llu n : 0 <= n < 2 ^ 64 -> sscanf_llu (show n) = Some n;
  scan_llu_word : sscanf_llu "max" = None
}.

Module TaskGroup.

(** The groups allocated, [&root_task_group] being [ROOT]; the list [task_groups];
    and the count behind cfs_bandwidth_used(). *)
Definition ROOT : Z := 0.
Record sys := mk_sys { groups : gmap Z task_group; task_groups : list Z; bandwidth_used : Z }.
Definition set_groups (s : sys) (m : gmap Z task_group) : sys := mk_sys m (task_groups s) (bandwidth_used s).
Definition put (tg : Z) (g : task_group) (s : sys) : sys := set_groups s (<[tg := g]> (groups s)).
Definition set_used (s : sys) (v : Z) : sys := mk_sys (groups s) (task_groups s) v.

(** ** The walk *)

(** [tg_visitor]: the returned int and the new state. *)
Definition tg_visitor : Type := Z -> sys -> option (Z * sys).
Definition tg_nop : tg_visitor := fun _ s => Some (0, s).

(** list_for_each_entry_rcu: the entry after [child] in the list of [l]. *)
Fixpoint next_entry (child : Z) (l : list Z) : option Z :=
  match l with
  | [] => None
  | c :: l => if (c =? child)%c then head l else next_entry child l
  end.

(** The labels of walk_tg_tree_from with the variables live there. *)
Inductive label :=
  | down_ (parent : Z)
  | up_ (parent child : Z)
  | out_ (ret : Z).

Section Walk.
Context (from : Z) (down up : tg_visitor).

(** What follows the loop over the children of [parent]. *)
Definition after_children (parent : Z) (s : sys) : option (label * sys) :=
  '(ret, s) ← up parent s;
  if (negb (ret =? 0)%c || (parent =? from)%c)%bool then Some (out_ ret, s)
  else
    g ← groups s !! parent;
    match tg_parent g with
    | Some pp => Some (up_ pp parent, s)
    | None => Some (out_ ret, s)
    end.

Definition walk_step (l : label) (s : sys) : option (label * sys) :=
  match l with
  | down_ parent =>
      '(ret, s) ← down parent s;
      if negb (ret =? 0)%c then Some (out_ ret, s)
      else
        g ← groups s !! parent;
        match head (children g) with
        | Some child => Some (down_ child, s)
        | None => after_children parent s
        end
  | up_ parent child =>
      g ← groups s !! parent;
      match next_entry child (children g) with
      | Some child => Some (down_ child, s)
      | None => after_children parent s
      end
  | out_ ret => Some (out_ ret, s)
  end.

Fixpoint walk (fuel : nat) (l : label) (s : sys) : option (Z * sys) :=
  match l, fuel with
  | out_ ret, _ => Some (ret, s)
  | _, O => None
  | _, S fuel => '(l, s) ← walk_step l s; walk fuel l s
  end.

(** Two visits of each group are the longest walk. *)
Definition walk_tg_tree_from (s : sys) : option (Z * sys) :=
  walk (2 * length (task_groups s)) (down_ from) s.
End Walk.
(** sched.h: from the root. *)
Definition walk_tg_tree (down up : tg_visitor) (s : sys) : option (Z * sys) :=
  walk_tg_tree_from ROOT down up s.

Section Model.
Context `{h : headers} `{cfg : uclamp_config} `{f : fair_class}.

(** ** Groups come and go *)
(** Which of the three allocations succeed. *)
Record memory := mk_memory { tg_ok : bool; fair_ok : bool; rt_ok : bool }.

Definition sched_free_group (tg : Z) (s : sys) : sys := set_groups s (delete tg (groups s)).

(** At the address [tg] when there is memory; an error is negative. *)
Definition sched_create_group (m : memory) (tg : Z) (s : sys) : Z * sys :=
  if negb (tg_ok m) then (- ENOMEM, s)
  else
    let s := put tg zero_tg s in
    if negb (fair_ok m) then (- ENOMEM, sched_free_group tg s)
    else
      let s := put tg (alloc_fair_sched_group zero_tg) s in
      if negb (rt_ok m) then (- ENOMEM, sched_free_group tg s)
      else (tg, s).

(** list_add puts the new entry first. *)
Definition sched_online_group (tg parent : Z) (s : sys) : option sys :=
  let s := mk_sys (groups s) (tg :: task_groups s) (bandwidth_used s) in
  g ← groups s !! tg;
  let s := put tg (set_children (set_parent g (Some parent)) []) s in
  p ← groups s !! parent;
  Some (put parent (set_children p (tg :: children p)) s).

Fixpoint list_del (x : Z) (l : list Z) : list Z :=
  match l with [] => [] | y :: l => if (y =? x)%c then l else y :: list_del x l end.

Definition sched_offline_group (tg : Z) (s : sys) : option sys :=
  let s := mk_sys (groups s) (list_del tg (task_groups s)) (bandwidth_used s) in
  g ← groups s !! tg;
  parent ← tg_parent g;
  p ← groups s !! parent;
  Some (put parent (set_children p (list_del tg (children p))) s).

(** The css of the root group is asked for at boot, with no parent. *)
Definition cpu_cgroup_css_alloc (parent_css : option Z) (m : memory) (tg : Z) (s : sys) : Z * sys :=
  match parent_css with
  | None => (ROOT, s)
  | Some _ =>
      let '(r, s) := sched_create_group m tg s in
      if (r <? 0)%c then (- ENOMEM, s) else (r, s)
  end.
(** The clamps, updated here too, are UClampSys.cpu_util_update_eff. *)
Definition cpu_cgroup_css_online (tg : Z) (parent_css : option Z) (s : sys) : option (Z * sys) :=
  match parent_css with
  | Some parent => s ← sched_online_group tg parent s; Some (0, s)
  | None => Some (0, s)
  end.
Definition cpu_cgroup_css_released (tg : Z) (s : sys) : option sys := sched_offline_group tg s.
Definition cpu_cgroup_css_free (tg : Z) (s : sys) : sys := sched_free_group tg s.

(** ** Bandwidth limits *)
Local Abbreviation EINVAL := SchedClass.EINVAL.
(** The test of [runtime_was_enabled]. *)
Definition limited (g : task_group) : bool := negb (quota (bandwidth g) =? RUNTIME_INF)%c.
Definition max_cfs_quota_period : Z := 1 * NSEC_PER_SEC.
Definition min_cfs_quota_period : Z := 1 * NSEC_PER_MSEC.
Definition max_cfs_runtime : Z := u64 (MAX_BW * NSEC_PER_USEC).

Definition tg_get_cfs_quota (g : task_group) : Z :=
  if (quota (bandwidth g) =? RUNTIME_INF)%c then -1
  else s64 (quota (bandwidth g) / NSEC_PER_USEC).
Definition tg_get_cfs_period (g : task_group) : Z :=
  s64 (u64 (period (bandwidth g)) / NSEC_PER_USEC).

Definition to_ratio (period runtime : Z) : Z :=
  if (runtime =? RUNTIME_INF)%c then BW_UNIT
  else if (period =? 0)%c then 0
  else u64 (Z.shiftl runtime BW_SHIFT) / period.

(** struct cfs_schedulable_data *)
Record cfs_schedulable_data := mk_data { d_tg : Z; d_period : Z; d_quota : Z }.

Definition normalize_cfs_quota (tg : Z) (g : task_group) (d : cfs_schedulable_data) : Z :=
  let '(period, quota) :=
    if (tg =? d_tg d)%c then (d_period d, d_quota d)
    else (u64 (tg_get_cfs_period g), u64 (tg_get_cfs_quota g)) in
  if ((quota =? RUNTIME_INF)%c || (quota =? u64 (-1))%c)%bool then RUNTIME_INF
  else to_ratio period quota.

(** [hierarchical_quota] and the locals are s64: RUNTIME_INF is stored as -1. *)
Definition tg_cfs_schedulable_down (d : cfs_schedulable_data) : tg_visitor := fun tg s =>
  g ← groups s !! tg;
  let store quota :=
    Some (0, put tg (set_bandwidth g (set_hierarchical (bandwidth g) quota)) s) in
  match tg_parent g with
  | None => store (s64 RUNTIME_INF)
  | Some parent =>
      pg ← groups s !! parent;
      let quota := s64 (normalize_cfs_quota tg g d) in
      let parent_quota := hierarchical_quota (bandwidth pg) in
      if cgroup_subsys_on_dfl then store (Z.min quota parent_quota)
      else if (u64 quota =? RUNTIME_INF)%c then store parent_quota
      else if (negb (u64 parent_quota =? RUNTIME_INF)%c && (parent_quota <? quota)%c)%bool
           then Some (- EINVAL, s)
      else store quota
  end.

Definition __cfs_schedulable (tg period quota : Z) (s : sys) : option (Z * sys) :=
  let data :=
    if negb (quota =? RUNTIME_INF)%c
    then mk_data tg (period / NSEC_PER_USEC) (quota / NSEC_PER_USEC)
    else mk_data tg period quota in
  walk_tg_tree (tg_cfs_schedulable_down data) tg_nop s.

(** The statements of tg_set_cfs_bandwidth after the check, one per lock section. *)
Definition cfs_bandwidth_usage_inc (s : sys) : option sys := Some (set_used s (bandwidth_used s + 1)).
Definition cfs_bandwidth_usage_dec (s : sys) : option sys := Some (set_used s (bandwidth_used s - 1)).
Definition store_limits (tg period quota : Z) (s : sys) : option sys :=
  g ← groups s !! tg;
  let cfs_b := __refill_cfs_bandwidth_runtime (set_limits (bandwidth g) (s64 period) quota) in
  let cfs_b := if negb (quota =? RUNTIME_INF)%c then start_cfs_bandwidth cfs_b else cfs_b in
  Some (put tg (set_bandwidth g cfs_b) s).
Definition set_cfs_rq (tg : Z) (enabled : bool) (i : Z) (s : sys) : option sys :=
  g ← groups s !! tg;
  c ← cfs_rqs g !! i;
  let c := mk_cfs_rq enabled 0 (throttled c) in
  if throttled c then
    let '(cfs_b, c) := unthrottle_cfs_rq (bandwidth g) c in
    Some (put tg (set_rq (set_bandwidth g cfs_b) i c) s)
  else Some (put tg (set_rq g i c) s).

Definition set_steps (tg period quota : Z) (was_enabled : bool) : list (sys -> option sys) :=
  let enabled := negb (quota =? RUNTIME_INF)%c in
  (if (enabled && negb was_enabled)%bool then [cfs_bandwidth_usage_inc] else []) ++
  [store_limits tg period quota] ++
  map (set_cfs_rq tg enabled) online_cpus ++
  (if (was_enabled && negb enabled)%bool then [cfs_bandwidth_usage_dec] else []).

Fixpoint run_steps (l : list (sys -> option sys)) (s : sys) : option sys :=
  match l with [] => Some s | step :: l => s ← step s; run_steps l s end.

Definition tg_set_cfs_bandwidth (tg period quota : Z) (s : sys) : option (Z * sys) :=
  if (tg =? ROOT)%c then Some (- EINVAL, s)
  else if ((quota <? min_cfs_quota_period)%c || (period <? min_cfs_quota_period)%c)%bool
  then Some (- EINVAL, s)
  else if (max_cfs_quota_period <? period)%c then Some (- EINVAL, s)
  else if (negb (quota =? RUNTIME_INF)%c && (max_cfs_runtime <? quota)%c)%bool then Some (- EINVAL, s)
  else
    '(ret, s) ← __cfs_schedulable tg period quota s;
    if negb (ret =? 0)%c then Some (ret, s)
    else
      g ← groups s !! tg;
      s ← run_steps (set_steps tg period quota (limited g)) s;
      Some (0, s).

Definition tg_set_cfs_quota (tg cfs_quota_us : Z) (s : sys) : option (Z * sys) :=
  g ← groups s !! tg;
  let period := u64 (period (bandwidth g)) in
  if (cfs_quota_us <? 0)%c then tg_set_cfs_bandwidth tg period RUNTIME_INF s
  else if (u64 cfs_quota_us <=? ULONG_MAX / NSEC_PER_USEC)%c
  then tg_set_cfs_bandwidth tg period (u64 (u64 cfs_quota_us * NSEC_PER_USEC)) s
  else Some (- EINVAL, s).

Definition tg_set_cfs_period (tg cfs_period_us : Z) (s : sys) : option (Z * sys) :=
  if (ULONG_MAX / NSEC_PER_USEC <? u64 cfs_period_us)%c then Some (- EINVAL, s)
  else
    g ← groups s !! tg;
    tg_set_cfs_bandwidth tg (u64 (u64 cfs_period_us * NSEC_PER_USEC)) (quota (bandwidth g)) s.

(** ** The files *)
Definition cpu_cfs_quota_read_s64 (g : task_group) : Z := tg_get_cfs_quota g.
Definition cpu_cfs_quota_write_s64 (tg cfs_quota_us : Z) (s : sys) := tg_set_cfs_quota tg cfs_quota_us s.
Definition cpu_cfs_period_read_u64 (g : task_group) : Z := u64 (tg_get_cfs_period g).
Definition cpu_cfs_period_write_u64 (tg cfs_period_us : Z) (s : sys) := tg_set_cfs_period tg (s64 cfs_period_us) s.

Definition cpu_period_quota_print (period quota : Z) : string :=
  ((if (quota <? 0)%c then "max" else show quota) +:+ " " +:+ show period +:+ newline)%string.

(** Left: the error; right: period and quota in nanoseconds. *)
Definition cpu_period_quota_parse (buf : string) (period : Z) : Z + Z * Z :=
  match sscanf_tok buf with
  | (None, _) => inl (- EINVAL)
  | (Some tok, n) =>
      let period := u64 (from_option id period n * NSEC_PER_USEC) in
      match sscanf_llu tok with
      | Some q => inr (period, u64 (q * NSEC_PER_USEC))
      | None => if String.eqb tok "max" then inr (period, RUNTIME_INF) else inl (- EINVAL)
      end
  end.

Definition cpu_max_show (g : task_group) : string :=
  cpu_period_quota_print (tg_get_cfs_period g) (tg_get_cfs_quota g).
Definition cpu_max_write (tg : Z) (buf : string) (s : sys) : option (Z * sys) :=
  g ← groups s !! tg;
  match cpu_period_quota_parse buf (u64 (tg_get_cfs_period g)) with
  | inl err => Some (err, s)
  | inr (period, quota) =>
      '(ret, s) ← tg_set_cfs_bandwidth tg period quota s;
      Some (if (ret =? 0)%c then strlen buf else ret, s)
  end.

Definition cpu_extra_stat_show (g : task_group) : string :=
  let b := bandwidth g in
  ("nr_periods " +:+ show (nr_periods b) +:+ newline +:+
   "nr_throttled " +:+ show (nr_throttled b) +:+ newline +:+
   "throttled_usec " +:+ show (throttled_time b / NSEC_PER_USEC) +:+ newline)%string.

Definition write_shares (tg w : Z) (s : sys) : option (Z * sys) :=
  g ← groups s !! tg;
  let '(g, ret) := sched_group_set_shares g w in
  Some (ret, put tg g s).

Definition cpu_shares_write_u64 (tg shareval : Z) (s : sys) : option (Z * sys) :=
  let shareval := if (scale_load_down ULONG_MAX <? shareval)%c then MAX_SHARES else shareval in
  write_shares tg (scale_load shareval) s.
Definition cpu_shares_read_u64 (g : task_group) : Z := scale_load_down (shares g).

Definition cpu_weight_read_u64 (g : task_group) : Z :=
  DIV_ROUND_CLOSEST_ULL (u64 (scale_load_down (shares g) * CGROUP_WEIGHT_DFL)) 1024.
Definition cpu_weight_write_u64 (tg weight : Z) (s : sys) : option (Z * sys) :=
  if ((weight <? CGROUP_WEIGHT_MIN)%c || (CGROUP_WEIGHT_MAX <? weight)%c)%bool then Some (- ERANGE, s)
  else write_shares tg (scale_load (DIV_ROUND_CLOSEST_ULL (u64 (weight * 1024)) CGROUP_WEIGHT_DFL)) s.

(** The loop over sched_prio_to_weight from the index [prio]. *)
Fixpoint closest (ws : list Z) (weight last_delta prio : Z) : Z :=
  match ws with
  | [] => prio
  | w :: ws =>
      let delta := s32 (Z.abs (s64 (u64 (w - weight)))) in
      if (last_delta <=? delta)%c then prio else closest ws weight delta (prio + 1)
  end.
Definition cpu_weight_nice_read_s64 (g : task_group) : Z :=
  let prio := closest SchedClass.sched_prio_to_weight (scale_load_down (shares g)) INT_MAX 0 in
  PRIO_TO_NICE (prio - 1 + MAX_RT_PRIO).
Definition cpu_weight_nice_write_s64 (tg nice : Z) (s : sys) : option (Z * sys) :=
  if ((nice <? MIN_NICE)%c || (MAX_NICE <? nice)%c)%bool then Some (- ERANGE, s)
  else
    w ← SchedClass.sched_prio_to_weight !! Z.to_nat (NICE_TO_PRIO nice - MAX_RT_PRIO);
    write_shares tg (scale_load w) s.

(** ** Histories *)

(** sched_init: the root group, alone. *)
Definition sched_init_groups : sys :=
  mk_sys {[ ROOT := mk_tg None [] ROOT_TASK_GROUP_LOAD (init_cfs_bandwidth zero_bw)
              (list_to_map (map (fun i => (i, init_tg_cfs_entry i)) possible_cpus)) ]}
    [ROOT] 0.

(** What the cgroup core and the readers and writers of the files ask for. *)
Inductive event :=
  | Alloc (parent tg : Z) (m : memory)
  | Online (tg parent : Z)
  | Released (tg : Z)
  | Free (tg : Z)
  | Cfs_quota_us (tg v : Z)
  | Cfs_period_us (tg v : Z)
  | Cpu_max (tg : Z) (buf : string)
  | Cpu_shares (tg v : Z)
  | Cpu_weight (tg v : Z)
  | Cpu_weight_nice (tg v : Z).

Definition exec (e : event) (s : sys) : option (Z * sys) :=
  match e with
  | Alloc parent tg m => Some (cpu_cgroup_css_alloc (Some parent) m tg s)
  | Online tg parent => cpu_cgroup_css_online tg (Some parent) s
  | Released tg => s ← cpu_cgroup_css_released tg s; Some (0, s)
  | Free tg => Some (0, cpu_cgroup_css_free tg s)
  | Cfs_quota_us tg v => cpu_cfs_quota_write_s64 tg v s
  | Cfs_period_us tg v => cpu_cfs_period_write_u64 tg v s
  | Cpu_max tg buf => cpu_max_write tg buf s
  | Cpu_shares tg v => cpu_shares_write_u64 tg v s
  | Cpu_weight tg v => cpu_weight_write_u64 tg v s
  | Cpu_weight_nice tg v => cpu_weight_nice_write_s64 tg v s
  end.

(** The order the cgroup core keeps: an address is new, a group goes online once
    and below a group online, it is released when it has no children and freed
    after that, and its files exist while it is online. *)
Definition online (s : sys) (tg : Z) : bool := existsb (Z.eqb tg) (task_groups s).
Definition allowed (s : sys) (e : event) : bool :=
  match e with
  | Alloc parent tg _ => (online s parent && negb (bool_decide (is_Some (groups s !! tg))) && (0 <? tg)%c)%bool
  | Online tg parent =>
      (online s parent && negb (online s tg) &&
       match groups s !! tg with Some g => negb (bool_decide (is_Some (tg_parent g))) | None => false end)%bool
  | Released tg =>
      (online s tg && negb (tg =? ROOT)%c &&
       match groups s !! tg with Some g => bool_decide (children g = []) | None => false end)%bool
  | Free tg => negb (online s tg)
  | Cfs_quota_us tg _ | Cfs_period_us tg _ | Cpu_max tg _
  | Cpu_shares tg _ | Cpu_weight tg _ | Cpu_weight_nice tg _ => online s tg
  end.

Definition step (s s' : sys) : Prop := exists e r, allowed s e = true /\ exec e s = Some (r, s').
Definition reachable (s : sys) : Prop := steps step sched_init_groups s.

(** The same, executable. *)
Fixpoint exec_all (s : sys) (es : list event) : option (list Z * sys) :=
  match es with
  | [] => Some ([], s)
  | e :: es =>
      if allowed s e
      then '(r, s) ← exec e s; '(rs, s) ← exec_all s es; Some (r :: rs, s)
      else None
  end.

End Model.
End TaskGroup.
