(* ===== verification/TaskGroupTree.v ===== *)
(** * Task groups: the tree in the store (src/Assignment_4/fifo/core.c)

    The parent and child links of the online groups form a tree whose nodes are the
    list task_groups, creation and removal keep it so, and the walk with two gotos
    is the recursive traversal of that tree. *)
From Stdlib Require Import ZArith Lia.
From stdpp Require Import gmap sorting.
From S2P Require Import Prelude CLib SchedInfo SchedClass UClamp TaskGroup.
Import TaskGroup.

Local Open Scope stdpp_scope.
Local Open Scope Z_scope.

(** ** Trees of groups *)
Inductive tree := Node (id : Z) (sub : list tree).
Definition tag '(Node id _) := id.
Definition sub '(Node _ l) := l.
Fixpoint ids (t : tree) : list Z := match t with Node id l => id :: flat_map ids l end.
Definition forest_ids (l : list tree) : list Z := flat_map ids l.

Fixpoint tree_ind' (P : tree -> Prop) (H : forall id l, Forall P l -> P (Node id l)) (t : tree) : P t :=
  match t with
  | Node id l => H id l ((fix go l : Forall P l :=
      match l with [] => Forall_nil_2 _ | t :: l => Forall_cons_2 _ _ _ (tree_ind' P H t) (go l) end) l)
  end.

Lemma tag_in_ids t : tag t ∈ ids t.
Proof. destruct t. left. Qed.
Lemma elem_of_forest x l : x ∈ forest_ids l <-> exists t, t ∈ l /\ x ∈ ids t.
Proof.
  induction l as [|t l IH]; simpl.
  - split; [by intros ?%elem_of_nil|]. by intros (t & ?%elem_of_nil & _).
  - rewrite elem_of_app, IH. split.
    + intros [H|(u & Hu & H)]; [by exists t; split; [left|]|by exists u; split; [right|]].
    + intros (u & [->|Hu]%elem_of_cons & H); [by left|right; by exists u].
Qed.

(** The links of the store, and that they are the tree's. *)
Abbreviation link_map := (gmap Z (option Z * list Z)).
Definition links (s : sys) : link_map := (fun g => (tg_parent g, children g)) <$> groups s.
Inductive shape (L : link_map) : option Z -> tree -> Prop :=
  | shape_node p id l : L !! id = Some (p, map tag l) -> Forall (shape L (Some id)) l -> shape L p (Node id l).

Lemma links_lookup s id p l : links s !! id = Some (p, l) ->
  exists g, groups s !! id = Some g /\ tg_parent g = p /\ children g = l.
Proof. unfold links. rewrite lookup_fmap. intros (g & Hg & [= -> ->])%fmap_Some. by exists g. Qed.

Lemma shape_ext L L' p t : shape L p t -> (forall x, x ∈ ids t -> L' !! x = L !! x) -> shape L' p t.
Proof.
  revert p. induction t as [id l IH] using tree_ind'. intros p Hs HL. inversion Hs as [? ? ? Hid Hl]; subst.
  constructor; [rewrite HL; [done|left]|]. rewrite Forall_forall in IH, Hl |- *. intros t Ht.
  apply IH; [done|by apply Hl|]. intros x Hx. apply HL. right. apply elem_of_forest. by exists t.
Qed.

(** A node of the tree is in the store, its parent and children in the tree. *)
Lemma shape_lookup L q t x : shape L q t -> x ∈ ids t ->
  exists p l, L !! x = Some (p, map tag l) /\ Forall (shape L (Some x)) l /\
    (forall c, c ∈ forest_ids l -> c ∈ ids t) /\
    ((x = tag t /\ p = q) \/
     exists y q' l', p = Some y /\ y ∈ ids t /\ L !! y = Some (q', l') /\ x ∈ l').
Proof.
  revert q. induction t as [id l IH] using tree_ind'. intros q Hs Hx. inversion Hs as [? ? ? Hid Hl]; subst.
  apply elem_of_cons in Hx as [->|Hx].
  - exists q, l. split; [done|]. split; [done|]. split; [by right|]. by left.
  - apply elem_of_forest in Hx as (t & Ht & Hx). rewrite Forall_forall in IH, Hl.
    destruct (IH t Ht (Some id) (Hl t Ht) Hx) as (p & l' & H1 & H2 & H3 & H4).
    exists p, l'. split; [done|]. split; [done|]. split.
    + intros c Hc. right. apply elem_of_forest. exists t. auto.
    + right. destruct H4 as [[-> ->]|(y & q' & l1 & -> & Hy & HLy & Hxl)].
      * exists id, q, (map tag l). split; [done|]. split; [left|]. split; [done|].
        apply list_elem_of_fmap. by exists t.
      * exists y, q', l1. split; [done|]. split; [|done]. right. apply elem_of_forest. by exists t.
Qed.

(** ** The recursive traversal *)
Section Visits.
Context (f : tree -> sys -> option (Z * sys)).
Fixpoint visits (l : list tree) (s : sys) : option (Z * sys) :=
  match l with
  | [] => Some (0, s)
  | t :: l => '(r, s) ← f t s; if negb (r =? 0)%c then Some (r, s) else visits l s
  end.
End Visits.
(** Down on entering a group, its children in order, up on leaving it; the first
    result other than 0 ends it. *)
Fixpoint visit (down up : tg_visitor) (t : tree) (s : sys) : option (Z * sys) :=
  match t with
  | Node id l =>
      '(r, s) ← down id s;
      if negb (r =? 0)%c then Some (r, s)
      else
        '(r, s) ← visits (visit down up) l s;
        if negb (r =? 0)%c then Some (r, s) else up id s
  end.

Definition keeps_links (v : tg_visitor) : Prop :=
  forall tg s r s', v tg s = Some (r, s') -> links s' = links s.
Lemma nop_links : keeps_links tg_nop.
Proof. by intros tg s r s' [= _ ->]. Qed.

Lemma next_entry_app pre c l : NoDup (pre ++ c :: l) -> next_entry c (pre ++ c :: l) = head l.
Proof.
  induction pre as [|x pre IH]; simpl; [by rewrite Z.eqb_refl|].
  intros [Hx Hn]%NoDup_cons. destruct (Z.eqb_spec x c) as [->|]; [|by apply IH].
  destruct Hx. apply elem_of_app. right. left.
Qed.

(** Labels passed before the walk leaves the tree. *)
Fixpoint cost (t : tree) : nat := match t with Node _ l => S (list_sum (map (fun t => S (cost t)) l)) end.
Definition forest_cost (l : list tree) : nat := list_sum (map (fun t => S (cost t)) l).
Lemma cost_ids t : (S (cost t) = 2 * length (ids t))%nat.
Proof.
  induction t as [id l IH] using tree_ind'. simpl.
  enough (list_sum (map (fun t => S (cost t)) l) = 2 * length (flat_map ids l))%nat by lia.
  induction IH as [|t l Ht _ IH]; [done|]. simpl. rewrite length_app. lia.
Qed.

Section Walk.
Context (from : Z) (down up : tg_visitor) (Hdown : keeps_links down) (Hup : keeps_links up).

Lemma visits_links l : Forall (fun t => forall s r s', visit down up t s = Some (r, s') -> links s' = links s) l ->
  forall s r s', visits (visit down up) l s = Some (r, s') -> links s' = links s.
Proof.
  induction 1 as [|t l Ht _ IH]; simpl; intros s r s' H; [by injection H as _ <-|].
  apply bind_Some in H as ([r1 s1] & H1 & H). apply Ht in H1. rewrite <- H1.
  destruct (negb (r1 =? 0)%c); [by injection H as _ <-|by eapply IH].
Qed.
Lemma visit_links t s r s' : visit down up t s = Some (r, s') -> links s' = links s.
Proof.
  revert s r s'. induction t as [id l IH] using tree_ind'. simpl. intros s r s' H.
  apply bind_Some in H as ([r1 s1] & H1 & H). apply Hdown in H1. rewrite <- H1.
  destruct (negb (r1 =? 0)%c); [by injection H as _ <-|].
  apply bind_Some in H as ([r2 s2] & H2 & H). apply visits_links in H2; [|done]. rewrite <- H2.
  destruct (negb (r2 =? 0)%c); [by injection H as _ <-|by eapply Hup].
Qed.

(** The walk after a part of the tree that returned [o]. *)
Definition continue (k : nat) (l : sys -> option (label * sys)) (o : option (Z * sys)) : option (Z * sys) :=
  '(r, s) ← o;
  if negb (r =? 0)%c then Some (r, s) else '(l, s) ← l s; walk from down up k l s.

Definition walks (p : Z) (t : tree) : Prop := forall k s, shape (links s) (Some p) t ->
  walk from down up (cost t + k) (down_ (tag t)) s =
  continue k (fun s => Some (up_ p (tag t), s)) (visit down up t s).

Lemma walk_out k r s : walk from down up k (out_ r) s = Some (r, s).
Proof. by destruct k. Qed.

Lemma forest_cost_cons t l : forest_cost (t :: l) = (S (cost t) + forest_cost l)%nat.
Proof. done. Qed.
Lemma cost_plus a b c : (S a + b + c = a + (S (b + c)))%nat.
Proof. lia. Qed.

(** The loop over the children from [t] on. *)
Lemma walk_forest id p pre l : forall t k s, Forall (walks id) (t :: l) ->
  links s !! id = Some (p, pre ++ map tag (t :: l)) -> NoDup (pre ++ map tag (t :: l)) ->
  Forall (shape (links s) (Some id)) (t :: l) ->
  walk from down up (forest_cost (t :: l) + k) (down_ (tag t)) s =
  continue k (after_children from up id) (visits (visit down up) (t :: l) s).
Proof.
  revert pre. induction l as [|u l IH]; intros pre t k s [Hw Hws]%Forall_cons HL Hn [Hs Hss]%Forall_cons.
  all: rewrite forest_cost_cons; cbn [visits].
  all: rewrite cost_plus, (Hw _ _ Hs).
  all: unfold continue at 1; destruct (visit down up t s) as [[r s1]|] eqn:Ev; [|done]; cbn [mbind option_bind].
  all: destruct (negb (r =? 0)%c) eqn:Er; [unfold continue; cbn [mbind option_bind]; by rewrite Er|].
  all: apply visit_links in Ev; rewrite <- Ev in HL; cbn [walk walk_step].
  all: destruct (links_lookup _ _ _ _ HL) as (g & Hg & _ & Hc); rewrite Hg; cbn [mbind option_bind]; rewrite Hc.
  all: cbn [map] in *; rewrite next_entry_app by done; cbn [head map].
  - done.
  - cbn [mbind option_bind].
    rewrite (IH (pre ++ [tag t]) u k s1 Hws); [done|by rewrite <- app_assoc..|by rewrite Ev].
Qed.

Lemma walk_entry id p l k s : links s !! id = Some (p, map tag l) -> NoDup (map tag l) ->
  Forall (walks id) l -> Forall (shape (links s) (Some id)) l ->
  walk from down up (S (forest_cost l) + k) (down_ id) s =
  '(r, s) ← down id s;
  if negb (r =? 0)%c then Some (r, s)
  else continue k (after_children from up id) (visits (visit down up) l s).
Proof.
  intros HL Hn Hw Hs. cbn [walk walk_step Nat.add].
  destruct (down id s) as [[r s1]|] eqn:Ed; cbn [mbind option_bind]; [|done].
  destruct (negb (r =? 0)%c); cbn [mbind option_bind]; [by rewrite walk_out|].
  apply Hdown in Ed. rewrite <- Ed in HL, Hs.
  destruct (links_lookup _ _ _ _ HL) as (g & Hg & _ & Hc). rewrite Hg. cbn [mbind option_bind]. rewrite Hc.
  destruct l as [|t l]; [done|]. cbn [head map mbind option_bind].
  by apply (walk_forest id p []).
Qed.

Lemma forest_nodup l : NoDup (forest_ids l) -> NoDup (map tag l) /\ Forall (fun t => NoDup (ids t)) l.
Proof.
  induction l as [|t l IH]; simpl; [by split; constructor|]. intros (Ht & Hd & Hl)%NoDup_app.
  destruct (IH Hl) as [H1 H2]. split; [|by constructor]. constructor; [|done].
  intros Hx. apply (Hd (tag t)); [apply tag_in_ids|]. apply list_elem_of_fmap in Hx as (u & -> & Hu).
  apply elem_of_forest. exists u. split; [done|apply tag_in_ids].
Qed.

Lemma walk_node t p : from ∉ ids t -> NoDup (ids t) -> walks p t.
Proof.
  revert p. induction t as [id l IH] using tree_ind'. intros p Hf [Hid Hn]%NoDup_cons k s Hs.
  inversion Hs as [? ? ? HL Hl]; subst. destruct (forest_nodup _ Hn) as [Hnt Hns].
  assert (Forall (walks id) l) as Hw.
  { rewrite Forall_forall in IH, Hns |- *. intros t Ht. apply IH; [done| |by apply Hns].
    contradict Hf. right. apply elem_of_forest. by exists t. }
  cbn [cost]. fold (forest_cost l). rewrite (walk_entry id (Some p)) by done. cbn [visit tag].
  destruct (down id s) as [[r s1]|] eqn:Ed; cbn [mbind option_bind]; [|done].
  unfold continue. destruct (negb (r =? 0)%c) eqn:Er; cbn [mbind option_bind]; [by rewrite Er|].
  destruct (visits (visit down up) l s1) as [[r2 s2]|] eqn:Ev; cbn [mbind option_bind]; [|done].
  destruct (negb (r2 =? 0)%c) eqn:Er2; cbn [mbind option_bind]; [by rewrite Er2|].
  unfold after_children. destruct (up id s2) as [[r3 s3]|] eqn:Eu; cbn [mbind option_bind]; [|done].
  rewrite (proj2 (Z.eqb_neq id from)), orb_false_r by (intros ->; apply Hf; left).
  destruct (negb (r3 =? 0)%c); cbn [mbind option_bind]; [by rewrite walk_out|].
  apply Hdown in Ed. apply visits_links in Ev; [|apply Forall_true; apply visit_links]. apply Hup in Eu.
  rewrite <- Ed, <- Ev, <- Eu in HL. destruct (links_lookup _ _ _ _ HL) as (g & Hg & Hp & _).
  rewrite Hg. cbn [mbind option_bind]. by rewrite Hp.
Qed.

(** From any node of the tree the walk is the traversal of what is below it. *)
Lemma walk_from q t k s : tag t = from -> NoDup (ids t) -> shape (links s) q t ->
  walk from down up (cost t + k) (down_ from) s = visit down up t s.
Proof.
  destruct t as [id l]. cbn [tag]. intros -> [Hid Hn]%NoDup_cons Hs.
  inversion Hs as [? ? ? HL Hl]; subst. destruct (forest_nodup _ Hn) as [Hnt Hns].
  cbn [cost]. fold (forest_cost l). rewrite (walk_entry from q); [| done..| |done].
  - cbn [visit]. destruct (down from s) as [[r s1]|]; cbn [mbind option_bind]; [|done].
    unfold continue. destruct (negb (r =? 0)%c); [done|].
    destruct (visits (visit down up) l s1) as [[r2 s2]|]; cbn [mbind option_bind]; [|done].
    destruct (negb (r2 =? 0)%c); [done|].
    unfold after_children. destruct (up from s2) as [[r3 s3]|]; cbn [mbind option_bind]; [|done].
    rewrite Z.eqb_refl, orb_true_r. cbn [mbind option_bind]. by rewrite walk_out.
  - rewrite Forall_forall in Hns |- *. intros t Ht. apply walk_node; [|by apply Hns].
    contradict Hid. apply elem_of_forest. by exists t.
Qed.
End Walk.

(** ** Growing and pruning *)
Fixpoint edit (p : Z) (f : list tree -> list tree) (t : tree) : tree :=
  match t with Node id l => Node id (if (id =? p)%c then f l else map (edit p f) l) end.
Fixpoint drop_tree (x : Z) (l : list tree) : list tree :=
  match l with [] => [] | t :: l => if (tag t =? x)%c then l else t :: drop_tree x l end.

Lemma tag_edit p f t : tag (edit p f t) = tag t.
Proof. by destruct t. Qed.
Lemma edit_other p f t : p ∉ ids t -> edit p f t = t.
Proof.
  induction t as [id l IH] using tree_ind'. intros Hp. simpl.
  rewrite (proj2 (Z.eqb_neq id p)) by (intros ->; apply Hp; left). f_equal.
  rewrite <- (map_id l) at 2. apply map_ext_Forall. rewrite List.Forall_forall. rewrite Forall_forall in IH.
  intros t Ht%list_elem_of_In. apply IH; [done|]. contradict Hp. right. apply elem_of_forest. by exists t.
Qed.
Lemma drop_tag x l : map tag (drop_tree x l) = list_del x (map tag l).
Proof. induction l as [|t l IH]; [done|]. simpl. destruct (tag t =? x)%c; [done|]. simpl. by rewrite IH. Qed.
Lemma drop_sub x l t : t ∈ drop_tree x l -> t ∈ l.
Proof.
  induction l as [|u l IH]; [done|]. simpl. destruct (tag u =? x)%c; [by right|].
  intros [->|H]%elem_of_cons; [left|right; auto].
Qed.
Lemma drop_ids x l : Node x [] ∈ l -> NoDup (map tag l) -> x :: forest_ids (drop_tree x l) ≡ₚ forest_ids l.
Proof.
  induction l as [|u l IH]; [by intros ?%elem_of_nil|]. simpl. intros H [Hu Hn]%NoDup_cons.
  apply elem_of_cons in H as [<-|H].
  - simpl. by rewrite Z.eqb_refl.
  - rewrite (proj2 (Z.eqb_neq (tag u) x)).
    + simpl. rewrite <- (IH H Hn). by rewrite Permutation_middle.
    + intros <-. apply Hu. apply list_elem_of_fmap. by exists (Node (tag u) []).
Qed.
Lemma list_del_perm x l : x ∈ l -> x :: list_del x l ≡ₚ l.
Proof.
  induction l as [|y l IH]; [by intros ?%elem_of_nil|]. simpl. destruct (Z.eqb_spec y x) as [->|Hy]; [done|].
  intros [->|H]%elem_of_cons; [done|]. rewrite <- (IH H) at 2. apply perm_swap.
Qed.

(** The children of [p] in the tree, as [L] has them. *)
Definition at_node (L : link_map) (p : Z) (l : list tree) : Prop :=
  (exists q, L !! p = Some (q, map tag l)) /\ Forall (shape L (Some p)) l /\ NoDup (forest_ids l) /\
  p ∉ forest_ids l.

Section Edit.
Context (L L' : link_map) (p : Z) (f : list tree -> list tree).

Lemma shape_forest_ext l : p ∉ forest_ids l -> (forall x, x ∈ forest_ids l -> x <> p -> L' !! x = L !! x) ->
  Forall (shape L (Some p)) l -> Forall (shape L' (Some p)) l.
Proof.
  intros Hp HL Hl. rewrite Forall_forall in Hl |- *. intros t Ht. eapply shape_ext; [by apply Hl|].
  intros x Hx. assert (x ∈ forest_ids l) by (apply elem_of_forest; by exists t). apply HL; congruence.
Qed.

Lemma shape_edit q t : shape L q t -> NoDup (ids t) -> (forall x, x ∈ ids t -> x <> p -> L' !! x = L !! x) ->
  (forall q l, L !! p = Some (q, map tag l) -> at_node L p l -> Forall (shape L' (Some p)) l ->
     L' !! p = Some (q, map tag (f l)) /\ Forall (shape L' (Some p)) (f l)) ->
  shape L' q (edit p f t).
Proof.
  intros Hs Hn HL Hf. revert q Hs Hn HL. induction t as [id l IH] using tree_ind'.
  intros q Hs [Hid Hn]%NoDup_cons HL. inversion Hs as [? ? ? HLid Hl]; subst. simpl.
  destruct (Z.eqb_spec id p) as [->|Hp].
  - destruct (Hf q l) as [H1 H2]; [done|by repeat split; eauto| |by constructor].
    apply shape_forest_ext; [done| |done]. intros x Hx. apply HL. by right.
  - constructor.
    + rewrite HL; [|left|done]. rewrite HLid. do 2 f_equal. rewrite map_map.
      apply map_ext. intros t. by rewrite tag_edit.
    + destruct (forest_nodup _ Hn) as [_ Hns]. rewrite Forall_forall in IH, Hl, Hns. apply Forall_map, Forall_forall.
      intros t Ht. apply IH; [done|by apply Hl|by apply Hns|]. intros x Hx. apply HL. right.
      apply elem_of_forest. by exists t.
Qed.

Lemma ids_edit q t A B : shape L q t -> NoDup (ids t) -> p ∈ ids t ->
  (forall l, at_node L p l -> A ++ forest_ids (f l) ≡ₚ B ++ forest_ids l) ->
  A ++ ids (edit p f t) ≡ₚ B ++ ids t.
Proof.
  intros Hs Hn Hp Hf. revert q Hs Hn Hp. induction t as [id l IH] using tree_ind'.
  intros q Hs Hn Hp. cbn [ids edit] in *. apply NoDup_cons in Hn as [Hid Hn].
  inversion Hs as [? ? ? HLid Hl]; subst. destruct (Z.eqb_spec id p) as [->|Hne].
  - rewrite <- !Permutation_middle. constructor. apply Hf. repeat split; eauto.
  - apply elem_of_cons in Hp as [?|Hp]; [done|]. rewrite <- !Permutation_middle. constructor.
    clear Hs HLid Hid. induction l as [|t l IHl]; [by apply elem_of_nil in Hp|]. cbn [flat_map map] in *.
    apply Forall_cons in IH as [IHt IH], Hl as [Ht Hl]. apply NoDup_app in Hn as (Hnt & Hd & Hn).
    destruct (decide (p ∈ ids t)) as [Hpt|Hpt].
    + rewrite !app_assoc. rewrite (IHt _ Ht Hnt Hpt). apply Permutation_app_head.
      rewrite (map_ext_in _ (fun x => x)); [by rewrite map_id|]. intros u Hu%list_elem_of_In. apply edit_other.
      intros Hpu. apply (Hd p Hpt), elem_of_forest. by exists u.
    + apply elem_of_app in Hp as [?|Hp]; [done|]. rewrite (edit_other _ _ _ Hpt).
      rewrite !app_assoc, !(Permutation_app_comm _ (ids t)), <- !app_assoc. apply Permutation_app_head.
      by apply IHl.
Qed.
End Edit.

(** ** The invariant *)
Record grown (s : sys) (t : tree) : Prop := {
  g_shape : shape (links s) None t;
  g_nodup : NoDup (ids t);
  g_tag : tag t = ROOT;
  g_ids : task_groups s ≡ₚ ids t
}.

Lemma online_elem s tg : online s tg = true <-> tg ∈ task_groups s.
Proof.
  unfold online. rewrite existsb_exists. split.
  - intros (x & Hx%list_elem_of_In & ->%Z.eqb_eq). done.
  - intros H. exists tg. split; [by apply list_elem_of_In|apply Z.eqb_refl].
Qed.

Lemma links_put tg g s : links (put tg g s) = <[tg := (tg_parent g, children g)]> (links s).
Proof. unfold links. simpl. by rewrite fmap_insert. Qed.
Lemma links_put_same tg g g' s : groups s !! tg = Some g -> tg_parent g' = tg_parent g -> children g' = children g ->
  links (put tg g' s) = links s.
Proof.
  intros Hg Hp Hc. rewrite links_put, Hp, Hc. apply insert_id. unfold links. by rewrite lookup_fmap, Hg.
Qed.
Lemma links_free tg s : links (set_groups s (delete tg (groups s))) = delete tg (links s).
Proof. unfold links. simpl. by rewrite fmap_delete. Qed.

Lemma grown_links s s' t : grown s t -> links s' = links s -> task_groups s' = task_groups s -> grown s' t.
Proof. intros [H1 H2 H3 H4] HL Ht. split; [by rewrite HL|done..|by rewrite Ht]. Qed.
(** Groups that are not online may come and go. *)
Lemma grown_others s s' t : grown s t -> (forall x, x ∈ task_groups s -> links s' !! x = links s !! x) ->
  task_groups s' = task_groups s -> grown s' t.
Proof.
  intros [H1 H2 H3 H4] HL Ht. split; [|done..|by rewrite Ht].
  eapply shape_ext; [done|]. intros x Hx. apply HL. by rewrite H4.
Qed.

Lemma grown_lookup s t x : grown s t -> x ∈ task_groups s -> exists g, groups s !! x = Some g /\
  (forall c, c ∈ children g -> c ∈ task_groups s) /\
  (x = ROOT /\ tg_parent g = None \/
   exists y gy, tg_parent g = Some y /\ y ∈ task_groups s /\ groups s !! y = Some gy /\ x ∈ children gy).
Proof.
  intros [H1 H2 H3 H4] Hx. rewrite H4 in Hx.
  destruct (shape_lookup _ _ _ _ H1 Hx) as (p & l & HL & Hl & Hc & Hp).
  destruct (links_lookup _ _ _ _ HL) as (g & Hg & Hgp & Hgc). exists g. split; [done|]. split.
  - intros c. rewrite Hgc, H4. intros (u & -> & Hu)%list_elem_of_fmap. apply Hc, elem_of_forest.
    exists u. split; [done|apply tag_in_ids].
  - rewrite Hgp. destruct Hp as [[-> ->]|(y & q & l' & -> & Hy & HLy & Hxl)]; [left; by rewrite H3|]. right.
    destruct (links_lookup _ _ _ _ HLy) as (gy & Hgy & _ & Hgyc). exists y, gy. rewrite H4, Hgyc. auto.
Qed.
Lemma root_online s t : grown s t -> ROOT ∈ task_groups s.
Proof. intros H. rewrite (g_ids _ _ H), <- (g_tag _ _ H). apply tag_in_ids. Qed.
Lemma root_lookup s t : grown s t -> exists g, groups s !! ROOT = Some g /\ tg_parent g = None.
Proof.
  intros [H1 _ H3 _]. destruct t as [id l]. cbn [tag] in H3. subst id. inversion H1 as [? ? ? HL _]; subst.
  destruct (links_lookup _ _ _ _ HL) as (g & Hg & Hp & _). by exists g.
Qed.

(** *** The walk visits the tree. *)
Lemma grown_walk s t down up : grown s t -> keeps_links down -> keeps_links up ->
  walk_tg_tree down up s = visit down up t s.
Proof.
  intros [H1 H2 H3 H4] Hd Hu. unfold walk_tg_tree, walk_tg_tree_from.
  rewrite H4, <- cost_ids, <- Nat.add_1_r. by eapply walk_from.
Qed.

Lemma grown_online s t tg parent s' : grown s t -> online s parent = true -> tg ∉ task_groups s ->
  sched_online_group tg parent s = Some s' -> grown s' (edit parent (cons (Node tg [])) t).
Proof.
  intros [H1 H2 H3 H4] Hp%online_elem Ht Ho. unfold sched_online_group in Ho.
  apply bind_Some in Ho as (g & Hg & Ho). apply bind_Some in Ho as (p & Hp' & [= <-]).
  assert (parent <> tg) as Hne by congruence. rewrite H4 in Hp, Ht.
  cbn [groups put set_groups] in Hp'. rewrite lookup_insert_ne in Hp' by done.
  assert (links s !! parent = Some (tg_parent p, children p)) as HLp by (unfold links; by rewrite lookup_fmap, Hp').
  set (L' := <[parent := (tg_parent p, tg :: children p)]> (<[tg := (Some parent, [])]> (links s))).
  assert (forall x, x ∈ ids t -> x <> parent -> L' !! x = links s !! x) as HL.
  { intros x Hx Hxp. unfold L'. rewrite !lookup_insert_ne by congruence. done. }
  assert (ids (edit parent (cons (Node tg [])) t) ≡ₚ tg :: ids t) as Hids.
  { by apply (ids_edit (links s) parent (cons (Node tg [])) None t [] [tg]). }
  split; [|..|by rewrite tag_edit|].
  - rewrite !links_put. eapply (shape_edit (links s)); [done..|]. intros q l HLq Hat Hl. split.
    + rewrite lookup_insert. rewrite HLq in HLp. injection HLp as -> <-. by rewrite decide_True.
    + constructor; [|done]. constructor; [|done]. rewrite lookup_insert_ne by done.
      by rewrite lookup_insert, decide_True.
  - rewrite Hids. by constructor.
  - simpl. by rewrite H4.
Qed.

Lemma grown_release s t tg s' : grown s t -> allowed s (Released tg) = true ->
  sched_offline_group tg s = Some s' -> exists t', grown s' t'.
Proof.
  intros Hgr Ha Ho. pose proof Hgr as [H1 H2 H3 H4]. unfold allowed in Ha.
  apply andb_prop in Ha as [[Hon%online_elem Hroot%negb_true_iff%Z.eqb_neq]%andb_prop Hc].
  destruct (grown_lookup _ _ _ Hgr Hon) as (g & Hg & _ & Hpar). rewrite Hg in Hc. apply bool_decide_eq_true in Hc.
  destruct Hpar as [[? _]|(y & gy & Hy & Hyo & Hgy & Hin)]; [done|].
  unfold sched_offline_group in Ho. cbn [groups] in Ho. rewrite Hg in Ho. cbn [mbind option_bind] in Ho. rewrite Hy in Ho.
  cbn [mbind option_bind] in Ho. rewrite Hgy in Ho. injection Ho as <-.
  assert (links s !! y = Some (tg_parent gy, children gy)) as HLy by (unfold links; by rewrite lookup_fmap, Hgy).
  assert (links s !! tg = Some (Some y, [])) as HLt by (unfold links; by rewrite lookup_fmap, Hg; simpl; rewrite Hy, Hc).
  assert (tg :: ids (edit y (drop_tree tg) t) ≡ₚ ids t) as Hids.
  { rewrite H4 in Hyo. apply (ids_edit (links s) y (drop_tree tg) None t [tg] []); [done..|].
    intros l ((q & HLq) & Hl & Hn & _). apply drop_ids; [|by apply forest_nodup].
    rewrite HLy in HLq. injection HLq as <- Hlc. rewrite Hlc in Hin.
    apply list_elem_of_fmap in Hin as (u & -> & Hu). rewrite Forall_forall in Hl. specialize (Hl u Hu).
    inversion Hl as [? id l' HLu _]; subst. cbn [tag] in *. rewrite HLu in HLt. injection HLt as Hl0.
    apply map_eq_nil in Hl0 as ->. done. }
  exists (edit y (drop_tree tg) t). split; [|..|by rewrite tag_edit|].
  - rewrite links_put. eapply (shape_edit (links s)); [done..| |].
    + intros x _ Hx. by rewrite lookup_insert_ne.
    + intros q l HLq Hat Hl. rewrite HLy in HLq. injection HLq as <- Hlc. split.
      * rewrite lookup_insert, decide_True by done. by rewrite drop_tag, <- Hlc.
      * rewrite Forall_forall in Hl |- *. intros u Hu. by apply Hl, (drop_sub tg).
  - apply (NoDup_cons_1_2 tg). by rewrite Hids.
  - simpl. apply (Permutation_cons_inv (a := tg)). by rewrite Hids, list_del_perm.
Qed.
