(* ===== verification/TaskGroupBw.v ===== *)
(** * Task groups: the bandwidth check (src/Assignment_4/fifo/core.c)

    What __cfs_schedulable decides: the groups in the order of the walk, the share
    of a group in units of 2^-20, and the conflict it finds. *)
From Stdlib Require Import ZArith Lia.
From stdpp Require Import gmap relations.
From S2P Require Import Prelude CLib SchedInfo SchedClass UClamp TaskGroup TaskGroupTree.
Import TaskGroup.

Local Open Scope stdpp_scope.
Local Open Scope Z_scope.
Local Abbreviation EINVAL := SchedClass.EINVAL.

(** ** Groups in the order the walk enters them *)
Section Preorder.
Context (down : tg_visitor).
Fixpoint preorder (l : list Z) (s : sys) : option (Z * sys) :=
  match l with
  | [] => Some (0, s)
  | x :: l => '(r, s) ← down x s; if negb (r =? 0)%c then Some (r, s) else preorder l s
  end.
Lemma preorder_app l l' s :
  preorder (l ++ l') s = '(r, s) ← preorder l s; if negb (r =? 0)%c then Some (r, s) else preorder l' s.
Proof.
  revert s. induction l as [|x l IH]; intros s; [done|]. simpl.
  destruct (down x s) as [[r s1]|]; simpl; [|done].
  destruct (negb (r =? 0)%c) eqn:Er; [simpl; by rewrite Er|apply IH].
Qed.
Lemma visit_preorder t s : visit down tg_nop t s = preorder (ids t) s.
Proof.
  revert s. induction t as [id l IH] using tree_ind'. intros s. simpl.
  destruct (down id s) as [[r s1]|]; simpl; [|done]. destruct (negb (r =? 0)%c); [done|].
  assert (visits (visit down tg_nop) l s1 = preorder (flat_map ids l) s1) as ->.
  { clear -IH. revert s1. induction IH as [|t l Ht _ IH]; intros s1; [done|]. simpl.
    rewrite preorder_app, Ht. destruct (preorder (ids t) s1) as [[r s2]|]; simpl; [|done].
    destruct (negb (r =? 0)%c); [done|apply IH]. }
  destruct (preorder (flat_map ids l) s1) as [[r2 s2]|]; simpl; [|done].
  destruct (Z.eqb_spec r2 0) as [->|]; done.
Qed.
End Preorder.

(** A parent is entered before its children. *)
Definition parent_in (L : link_map) (x y : Z) : Prop := exists l, L !! x = Some (Some y, l).
Lemma preorder_parents L q t : shape L q t -> forall pre x post, ids t = pre ++ x :: post ->
  (pre = [] /\ x = tag t) \/ exists y, parent_in L x y /\ y ∈ pre.
Proof.
  revert q. induction t as [id l IH] using tree_ind'. intros q Hs pre x post E. inversion Hs as [? ? ? HL Hl]; subst.
  destruct pre as [|z pre]; simpl in E; injection E as -> E; [by left|]. right. clear HL Hs.
  revert pre E. induction l as [|t l IHl]; intros pre E; [by destruct pre|].
  apply Forall_cons in IH as [IHt IH], Hl as [Ht Hl]. simpl in E.
  apply app_eq_app in E as (k & [[E1 E2]|[E1 E2]]).
  - destruct k as [|u k].
    + destruct (IHl IH Hl [] (eq_sym E2)) as (y & Hy & Hin).
      exists y. split; [done|]. set_solver.
    + injection E2 as -> E2. destruct (IHt _ Ht _ _ _ E1) as [[-> ->]|(y & Hy & Hin)].
      * exists z. split; [|left]. inversion Ht; subst. eexists. done.
      * exists y. split; [done|by right].
  - subst pre. destruct (IHl IH Hl k E2) as (y & Hy & Hin).
    exists y. split; [done|]. set_solver.
Qed.

(** ** States that differ in the cached hierarchical quotas only *)
Definition strip (g : task_group) : task_group := set_bandwidth g (set_hierarchical (bandwidth g) 0).
Definition forget (s : sys) : sys := mk_sys (strip <$> groups s) (task_groups s) (bandwidth_used s).
Definition same (s s' : sys) : Prop := forget s' = forget s.
#[export] Instance same_equiv : Equivalence same.
Proof. split; unfold same; [done|by intros ?? ->|by intros ??? -> ->]. Qed.

(** The cached value, -1 (unlimited) for no group. *)
Definition hq (s : sys) (x : Z) : Z := from_option (fun g => hierarchical_quota (bandwidth g)) (-1) (groups s !! x).
Definition store_hq (x v : Z) (s : sys) : sys :=
  set_groups s (alter (fun g => set_bandwidth g (set_hierarchical (bandwidth g) v)) x (groups s)).

Lemma same_lookup s s' x g' : same s s' -> groups s' !! x = Some g' ->
  exists g, groups s !! x = Some g /\ strip g = strip g'.
Proof.
  intros [= H _ _] Hg. apply (f_equal (lookup x)) in H. rewrite !lookup_fmap, Hg in H.
  symmetry in H. apply fmap_Some in H as (g & -> & H). by exists g.
Qed.
Lemma same_links s s' : same s s' -> links s' = links s.
Proof.
  intros [= H _ _]. unfold links. apply (f_equal (fmap (fun g => (tg_parent g, children g)))) in H.
  by rewrite <- !map_fmap_compose in H.
Qed.
Lemma same_strip s s' x : same s s' -> strip <$> groups s' !! x = strip <$> groups s !! x.
Proof. intros [= H _ _]. by rewrite <- !lookup_fmap, H. Qed.
Lemma store_hq_same x v s : same s (store_hq x v s).
Proof.
  unfold same, forget, store_hq, set_groups. cbn [groups task_groups bandwidth_used]. f_equal. apply map_eq. intros y.
  rewrite !lookup_fmap, lookup_alter. case_decide; subst; [|done]. by destruct (groups s !! y).
Qed.
Lemma hq_store x v s y : is_Some (groups s !! x) -> hq (store_hq x v s) y = if decide (x = y) then v else hq s y.
Proof.
  intros [g Hg]. unfold hq, store_hq. cbn [groups set_groups]. rewrite lookup_alter.
  case_decide; subst; [by rewrite Hg|done].
Qed.
Lemma same_alloc s s' x : same s s' -> is_Some (groups s !! x) -> is_Some (groups s' !! x).
Proof. intros H Hx. apply (fmap_is_Some strip). rewrite (same_strip _ _ x H). by apply fmap_is_Some. Qed.

Section Bandwidth.
Context `{fok : fair_class_ok}.

(** ** The share of a group *)
Definition valid_limits (p q : Z) : Prop :=
  NSEC_PER_MSEC <= p <= NSEC_PER_SEC /\ NSEC_PER_MSEC <= q /\ (q = RUNTIME_INF \/ q <= max_cfs_runtime).
(** In units of 2^-20 of a CPU; -1 for no limit. *)
Definition ratio_of (p q : Z) : Z :=
  if (q =? RUNTIME_INF)%c then -1 else (q / NSEC_PER_USEC * 2 ^ 20) / (p / NSEC_PER_USEC).
Definition share (g : task_group) : Z := ratio_of (period (bandwidth g)) (quota (bandwidth g)).

Lemma max_runtime : max_cfs_runtime = (2 ^ 44 - 1) * 1000.
Proof. unfold max_cfs_runtime. destruct constants as (_ & _ & ->). reflexivity. Qed.
Lemma runtime_inf : RUNTIME_INF = 2 ^ 64 - 1.
Proof. apply constants. Qed.

Lemma ratio_range p q : valid_limits p q -> -1 <= ratio_of p q < 2 ^ 63 /\ (ratio_of p q = -1 <-> q = RUNTIME_INF).
Proof.
  unfold valid_limits, ratio_of, NSEC_PER_MSEC, NSEC_PER_SEC, NSEC_PER_USEC. rewrite max_runtime, runtime_inf.
  intros (Hp & Hq & Hm). destruct (Z.eqb_spec q (2 ^ 64 - 1)) as [->|Hne]; [lia|].
  assert (0 <= q / 1000 <= 2 ^ 44 - 1) by (split; [apply Z.div_pos|apply Z.div_le_upper_bound]; lia).
  assert (1000 <= p / 1000) by (apply Z.div_le_lower_bound; lia).
  assert (0 <= q / 1000 * 2 ^ 20 / (p / 1000) < 2 ^ 63); [|lia].
  split; [apply Z.div_pos; lia|]. apply Z.div_lt_upper_bound; [lia|]. nia.
Qed.

(** The check computes it, from the files' values or from the new ones. *)
Lemma to_ratio_spec p q : valid_limits p q -> q <> RUNTIME_INF ->
  to_ratio (p / NSEC_PER_USEC) (q / NSEC_PER_USEC) = ratio_of p q.
Proof.
  unfold valid_limits, to_ratio, ratio_of, NSEC_PER_MSEC, NSEC_PER_SEC, NSEC_PER_USEC.
  rewrite max_runtime, runtime_inf. intros (Hp & Hq & [|Hm]) Hne; [done|].
  assert (0 <= q / 1000 <= 2 ^ 44 - 1) by (split; [apply Z.div_pos|apply Z.div_le_upper_bound]; lia).
  assert (1000 <= p / 1000) by (apply Z.div_le_lower_bound; lia).
  rewrite (proj2 (Z.eqb_neq (q / 1000) _)), (proj2 (Z.eqb_neq (p / 1000) 0)), (proj2 (Z.eqb_neq q _)) by lia.
  destruct constants as (_ & -> & _). rewrite Z.shiftl_mul_pow2 by lia. unfold u64.
  rewrite Z.mod_small by lia. done.
Qed.

Definition new_data (tg p q : Z) : cfs_schedulable_data :=
  if negb (q =? RUNTIME_INF)%c then mk_data tg (p / NSEC_PER_USEC) (q / NSEC_PER_USEC) else mk_data tg p q.
Lemma d_tg_new tg p q : d_tg (new_data tg p q) = tg.
Proof. unfold new_data. by destruct (negb _). Qed.

Lemma s64_inf : s64 RUNTIME_INF = -1.
Proof. rewrite runtime_inf. reflexivity. Qed.

Lemma normalize_new tg g p q : valid_limits p q -> s64 (normalize_cfs_quota tg g (new_data tg p q)) = ratio_of p q.
Proof.
  intros Hv. pose proof (ratio_range _ _ Hv) as [Hr _]. unfold normalize_cfs_quota. rewrite d_tg_new, Z.eqb_refl.
  unfold new_data. destruct (Z.eqb_spec q RUNTIME_INF) as [E|Hne]; cbn [negb d_period d_quota].
  - rewrite (proj2 (Z.eqb_eq q _)) by done. cbn [orb]. rewrite s64_inf. unfold ratio_of. by rewrite (proj2 (Z.eqb_eq q _)).
  - assert (0 <= q / NSEC_PER_USEC < 2 ^ 64 - 1) as Hb.
    { destruct Hv as (_ & Hq & [|Hm]); [done|]. rewrite max_runtime in Hm. unfold NSEC_PER_USEC, NSEC_PER_MSEC in *.
      split; [apply Z.div_pos|apply Z.div_lt_upper_bound]; lia. }
    rewrite (proj2 (Z.eqb_neq (q / NSEC_PER_USEC) RUNTIME_INF)), (proj2 (Z.eqb_neq (q / NSEC_PER_USEC) _))
      by (rewrite ?runtime_inf; change (u64 (-1)) with (2 ^ 64 - 1); lia).
    cbn [orb]. rewrite to_ratio_spec by done. unfold s64. rewrite Z.mod_small by lia. lia.
Qed.

Lemma normalize_old tg g d : tg <> d_tg d -> valid_limits (period (bandwidth g)) (quota (bandwidth g)) ->
  s64 (normalize_cfs_quota tg g d) = share g.
Proof.
  intros Hd Hv. unfold share. rewrite <- (normalize_new tg g _ _ Hv). unfold normalize_cfs_quota.
  rewrite d_tg_new, Z.eqb_refl, (proj2 (Z.eqb_neq tg _)) by done. unfold new_data, tg_get_cfs_quota, tg_get_cfs_period.
  destruct Hv as (Hp & Hq & Hm). unfold NSEC_PER_MSEC, NSEC_PER_SEC, NSEC_PER_USEC in *. rewrite max_runtime in Hm.
  destruct (Z.eqb_spec (quota (bandwidth g)) RUNTIME_INF) as [E|Hne]; cbn [negb d_period d_quota].
  - rewrite (proj2 (Z.eqb_eq (quota (bandwidth g)) _)) by done. rewrite Z.eqb_refl, orb_true_r. done.
  - assert (0 <= quota (bandwidth g) / 1000 < 2 ^ 63) by (split; [apply Z.div_pos|apply Z.div_lt_upper_bound]; lia).
    assert (0 <= period (bandwidth g) / 1000 < 2 ^ 63) by (split; [apply Z.div_pos|apply Z.div_lt_upper_bound]; lia).
    assert (forall v, 0 <= v < 2 ^ 63 -> u64 (s64 v) = v) as Hw.
    { intros v Hv. unfold u64, s64. rewrite (Z.mod_small (v + _)) by lia. rewrite Z.mod_small; lia. }
    rewrite Hw by done. replace (u64 (period (bandwidth g))) with (period (bandwidth g)) by (unfold u64; rewrite Z.mod_small; lia).
    by rewrite Hw.
Qed.

Lemma normalize_strip x g g' d : strip g = strip g' -> normalize_cfs_quota x g d = normalize_cfs_quota x g' d.
Proof.
  intros H. assert (bandwidth g = set_hierarchical (bandwidth g') (hierarchical_quota (bandwidth g))) as Hb.
  { unfold strip in H. injection H as _ _ _ H1 H2 H3 H4 H5 H6 _. destruct (bandwidth g), (bandwidth g').
    simpl in *. by subst. }
  unfold normalize_cfs_quota, tg_get_cfs_quota, tg_get_cfs_period. rewrite Hb. done.
Qed.

Lemma put_store x g v s : groups s !! x = Some g ->
  put x (set_bandwidth g (set_hierarchical (bandwidth g) v)) s = store_hq x v s.
Proof.
  intros Hg. unfold put, store_hq. f_equal. apply map_eq. intros y.
  rewrite lookup_insert, lookup_alter. case_decide; subst; [by rewrite Hg|done].
Qed.

Lemma u64_inf v : -1 <= v < 2 ^ 63 -> (u64 v =? RUNTIME_INF)%c = (v =? -1)%c.
Proof.
  intros Hv. rewrite runtime_inf. unfold u64. destruct (Z.eqb_spec v (-1)) as [->|Hne]; [done|].
  rewrite Z.mod_small by lia. apply Z.eqb_neq. lia.
Qed.

(** ** One check: the groups [t], asked for the shares [R] *)
Section Check.
Context (s0 : sys) (t : tree) (d : cfs_schedulable_data) (R : Z -> Z) (Hgr : grown s0 t).
Context (HR : forall x g, x <> ROOT -> groups s0 !! x = Some g -> s64 (normalize_cfs_quota x g d) = R x).
Context (HRr : forall x, -1 <= R x < 2 ^ 63) (HRroot : R ROOT = -1).

Definition par (x y : Z) : Prop := parent_in (links s0) x y.

(** The limit [e x] that applies to a group: its own, which must not exceed its
    parent's, or its parent's. *)
Definition nested (e : Z -> Z) (x : Z) : Prop :=
  (x = ROOT /\ e x = -1) \/
  exists y, par x y /\ e x = (if (R x =? -1)%c then e y else R x) /\ (R x = -1 \/ e y = -1 \/ R x <= e y).
(** An ancestor promised less than one of its descendants. *)
Definition conflict : Prop :=
  exists a b, b ∈ ids t /\ tc par b a /\ R a <> -1 /\ R b <> -1 /\ R a < R b.

Lemma par_online x y : x ∈ ids t -> par x y -> y ∈ ids t /\ x <> ROOT.
Proof.
  intros Hx (l & Hl). destruct (links_lookup _ _ _ _ Hl) as (g & Hg & Hp & _). rewrite <- (g_ids _ _ Hgr) in *.
  destruct (grown_lookup _ _ _ Hgr Hx) as (g' & Hg' & _ & H). rewrite Hg' in Hg. injection Hg as ->.
  destruct H as [[_ ?]|(y' & gy & Hy' & ? & Hgy & Hin)]; [congruence|]. rewrite Hp in Hy'. injection Hy' as ->.
  split; [done|]. intros ->. destruct (root_lookup _ _ Hgr) as (g' & Hg'' & ?). congruence.
Qed.

Lemma nested_chain e b a : (forall x, x ∈ ids t -> nested e x) -> b ∈ ids t -> tc par b a ->
  a ∈ ids t /\ (e a = -1 \/ (e b <> -1 /\ e b <= e a)).
Proof.
  intros He Hb Hba. revert Hb. induction Hba as [b a Hp|b c a Hp _ IH]; intros Hb.
  all: destruct (par_online _ _ Hb Hp) as [Hy Hroot]; destruct (He b Hb) as [[? _]|(y & Hpy & Hey & Hok)]; [done|].
  all: destruct Hp as (l & Hl), Hpy as (l' & Hl'); rewrite Hl in Hl'; injection Hl' as <- _.
  - split; [done|]. pose proof (HRr b). destruct (Z.eqb_spec (R b) (-1)); lia.
  - destruct (IH Hy) as [Ha H]. split; [done|]. pose proof (HRr b). destruct (Z.eqb_spec (R b) (-1)); lia.
Qed.
Lemma nested_own e x : (forall x, x ∈ ids t -> nested e x) -> x ∈ ids t -> R x <> -1 -> e x = R x.
Proof.
  intros He Hx HRx. destruct (He x Hx) as [[-> _]|(y & _ & -> & _)]; [congruence|].
  by rewrite (proj2 (Z.eqb_neq (R x) (-1))).
Qed.
Lemma nested_bound e a b : (forall x, x ∈ ids t -> nested e x) -> b ∈ ids t -> tc par b a ->
  R a <> -1 -> R b <> -1 -> R b <= R a.
Proof.
  intros He Hb Hba Ra Rb. destruct (nested_chain _ _ _ He Hb Hba) as [Ha H].
  rewrite (nested_own _ _ He Ha Ra), (nested_own _ _ He Hb Rb) in H. lia.
Qed.

(** *** One group *)
Lemma down_root s : same s0 s -> tg_cfs_schedulable_down d ROOT s = Some (0, store_hq ROOT (-1) s).
Proof.
  intros Hs. destruct (root_lookup _ _ Hgr) as (g0 & Hg0 & Hp).
  assert (links s !! ROOT = Some (None, children g0)) as HL.
  { rewrite (same_links _ _ Hs). unfold links. by rewrite lookup_fmap, Hg0, <- Hp. }
  destruct (links_lookup _ _ _ _ HL) as (g & Hg & Hgp & _). clear Hp. rename Hgp into Hp.
  unfold tg_cfs_schedulable_down. rewrite Hg. cbn [mbind option_bind]. rewrite Hp, s64_inf. by rewrite put_store.
Qed.

Lemma down_child x y s : same s0 s -> x ∈ ids t -> par x y -> -1 <= hq s y < 2 ^ 63 ->
  tg_cfs_schedulable_down d x s =
  if cgroup_subsys_on_dfl then Some (0, store_hq x (Z.min (R x) (hq s y)) s)
  else if (R x =? -1)%c then Some (0, store_hq x (hq s y) s)
  else if (negb (hq s y =? -1)%c && (hq s y <? R x)%c)%bool then Some (- EINVAL, s)
  else Some (0, store_hq x (R x) s).
Proof.
  intros Hs Hx Hp Hy. destruct (par_online _ _ Hx Hp) as [Hyt Hxr]. destruct Hp as (l & Hl).
  rewrite <- (same_links _ _ Hs) in Hl. destruct (links_lookup _ _ _ _ Hl) as (g & Hg & Hgp & _).
  destruct (same_lookup _ _ _ _ Hs Hg) as (g0 & Hg0 & Hst).
  assert (is_Some (groups s !! y)) as [gy Hgy].
  { apply (same_alloc s0); [done|]. rewrite <- (g_ids _ _ Hgr) in Hyt.
    destruct (grown_lookup _ _ _ Hgr Hyt) as (gy & -> & _). done. }
  unfold hq in *. rewrite Hgy in *. cbn [from_option] in *.
  unfold tg_cfs_schedulable_down. rewrite Hg. cbn [mbind option_bind]. rewrite Hgp, Hgy. cbn [mbind option_bind].
  rewrite <- (normalize_strip _ _ _ _ Hst), (HR _ _ Hxr Hg0), !put_store by done.
  by rewrite !u64_inf by done.
Qed.

(** *** All groups *)
(** The cached value of [x] is right, its parent is done, and it is a limit set on
    [x] or above. *)
Definition settled (done : list Z) (s : sys) (x : Z) : Prop :=
  ((x = ROOT /\ hq s x = -1) \/
   exists y, y ∈ done /\ par x y /\ hq s x = (if (R x =? -1)%c then hq s y else R x) /\
     (R x = -1 \/ hq s y = -1 \/ R x <= hq s y)) /\
  (hq s x = -1 \/ exists a, rtc par x a /\ R a <> -1 /\ hq s x = R a).

Lemma settled_range done s x : settled done s x -> -1 <= hq s x < 2 ^ 63.
Proof. intros [_ [->|(a & _ & _ & ->)]]; [lia|apply HRr]. Qed.
Lemma settled_is_nested done s x : settled done s x -> nested (hq s) x.
Proof. intros [[H|(y & _ & H)] _]; [by left|right; by exists y]. Qed.
Lemma settled_store done s x v z : settled done s z -> z ∈ done -> x ∉ done -> is_Some (groups s !! x) ->
  settled (done ++ [x]) (store_hq x v s) z.
Proof.
  intros [H1 H2] Hz Hx Ha. assert (forall y, y ∈ done -> hq (store_hq x v s) y = hq s y) as Hq.
  { intros y Hy. rewrite hq_store by done. rewrite decide_False; [done|congruence]. }
  unfold settled. rewrite (Hq z Hz). split; [|done].
  destruct H1 as [?|(y & Hy & H)]; [by left|right]. exists y. rewrite (Hq y Hy). split; [|done]. set_solver.
Qed.

(** The root, or a group with its parent in [done]. *)
Lemma next_parent done x l : ids t = done ++ x :: l -> x = ROOT \/ exists y, par x y /\ y ∈ done.
Proof.
  intros E. destruct (preorder_parents _ _ _ (g_shape _ _ Hgr) _ _ _ E) as [[_ ->]|H]; [|by right].
  left. apply (g_tag _ _ Hgr).
Qed.
Lemma alloc_next s done x l : same s0 s -> ids t = done ++ x :: l -> is_Some (groups s !! x).
Proof.
  intros Hs E. apply (same_alloc s0); [done|]. assert (x ∈ task_groups s0) as Hx.
  { rewrite (g_ids _ _ Hgr), E. set_solver. }
  destruct (grown_lookup _ _ _ Hgr Hx) as (g & -> & _). done.
Qed.

(** What one visit does to a settled prefix. *)
Lemma check_one done x l s : cgroup_subsys_on_dfl = false -> ids t = done ++ x :: l -> same s0 s ->
  (forall z, z ∈ done -> settled done s z) ->
  (exists v, tg_cfs_schedulable_down d x s = Some (0, store_hq x v s) /\
     settled (done ++ [x]) (store_hq x v s) x) \/
  (tg_cfs_schedulable_down d x s = Some (- EINVAL, s) /\ conflict).
Proof.
  intros Hd E Hs Hset. pose proof (alloc_next _ _ _ _ Hs E) as Ha.
  assert (x ∈ ids t) as Hx by (rewrite E; set_solver).
  assert (x ∉ done) as Hxd.
  { pose proof (g_nodup _ _ Hgr) as Hn. rewrite E in Hn. apply NoDup_app in Hn as (_ & Hn & _).
    intros Hxd. apply (Hn x Hxd). left. }
  destruct (next_parent _ _ _ E) as [->|(y & Hp & Hy)].
  - left. exists (-1). rewrite (down_root s Hs). split; [done|].
    split; [left; split; [done|]|left]; by rewrite hq_store, decide_True.
  - pose proof (Hset y Hy) as Hsy. pose proof (settled_range _ _ _ Hsy) as Hry. destruct Hsy as [_ Horig].
    rewrite (down_child x y s Hs Hx Hp Hry), Hd.
    assert (forall v, hq (store_hq x v s) x = v /\ hq (store_hq x v s) y = hq s y) as Hst.
    { intros v. rewrite !hq_store, decide_True, decide_False by (done || congruence). done. }
    destruct (Z.eqb_spec (R x) (-1)) as [Rx|Rx].
    + left. exists (hq s y). split; [done|]. destruct (Hst (hq s y)) as [E1 E2]. split.
      * right. exists y. rewrite E1, E2, (proj2 (Z.eqb_eq (R x) _)) by done. split; [set_solver|]. auto.
      * rewrite E1. destruct Horig as [->|(a & Hya & Ra & ->)]; [by left|right]. exists a.
        split; [by eapply rtc_l|done].
    + destruct (Z.eqb_spec (hq s y) (-1)) as [Ey|Ey]; [|destruct (Z.ltb_spec (hq s y) (R x)) as [Hlt|Hle]]; cbn [negb andb].
      2: { right. split; [done|]. destruct Horig as [?|(a & Hya & Ra & Hqy)]; [done|].
           exists a, x. repeat split; [done| |done..|lia]. eapply tc_rtc_r; [by apply tc_once|done]. }
      all: left; exists (R x); split; [done|]; destruct (Hst (R x)) as [E1 E2]; split.
      all: try (right; exists y; rewrite E1, E2, (proj2 (Z.eqb_neq (R x) _)) by done; split; [set_solver|]; auto; fail).
      all: rewrite E1; right; exists x; split; [apply rtc_refl|done].
Qed.

Lemma check_list l : forall done s, cgroup_subsys_on_dfl = false -> ids t = done ++ l -> same s0 s ->
  (forall z, z ∈ done -> settled done s z) ->
  exists r s', preorder (tg_cfs_schedulable_down d) l s = Some (r, s') /\ same s0 s' /\
    ((r = 0 /\ forall x, x ∈ ids t -> nested (hq s') x) \/ (r = - EINVAL /\ conflict)).
Proof.
  induction l as [|x l IH]; intros done s Hd E Hs Hset.
  - exists 0, s. split; [done|]. split; [done|]. left. split; [done|]. intros x. rewrite E, app_nil_r.
    intros Hx. by eapply settled_is_nested, Hset.
  - cbn [preorder]. destruct (check_one _ _ _ _ Hd E Hs Hset) as [(v & -> & Hx)|[-> Hc]].
    + cbn [mbind option_bind]. rewrite Z.eqb_refl. cbn [negb].
      apply (IH (done ++ [x])); [done|by rewrite <- app_assoc|by etransitivity; [|apply store_hq_same]|].
      intros z [Hz|Hz]%elem_of_app; [|by apply list_elem_of_singleton in Hz as ->].
      apply settled_store; [by apply Hset|done| |by eapply alloc_next].
      pose proof (g_nodup _ _ Hgr) as Hn. rewrite E in Hn. apply NoDup_app in Hn as (_ & Hn & _).
      intros Hxd. apply (Hn x Hxd). left.
    + cbn [mbind option_bind]. exists (- EINVAL), s. split; [done|]. split; [done|]. by right.
Qed.

(** On the default hierarchy the minimum is taken with the root's -1. *)
Lemma check_list_dfl l : forall done s, cgroup_subsys_on_dfl = true -> ids t = done ++ l -> same s0 s ->
  (forall z, z ∈ done -> hq s z = -1) ->
  exists s', preorder (tg_cfs_schedulable_down d) l s = Some (0, s') /\ same s0 s' /\
    forall x, x ∈ ids t -> hq s' x = -1.
Proof.
  induction l as [|x l IH]; intros done s Hd E Hs Hset.
  - exists s. split; [done|]. split; [done|]. intros x. rewrite E, app_nil_r. apply Hset.
  - cbn [preorder]. pose proof (alloc_next _ _ _ _ Hs E) as Ha.
    assert (x ∈ ids t) as Hx by (rewrite E; set_solver).
    assert (tg_cfs_schedulable_down d x s = Some (0, store_hq x (-1) s)) as ->.
    { destruct (next_parent _ _ _ E) as [->|(y & Hp & Hy)]; [by apply down_root|].
      rewrite (down_child x y s Hs Hx Hp) by (rewrite Hset; [lia|done]). rewrite Hd, (Hset y Hy).
      rewrite Z.min_r; [done|]. apply HRr. }
    cbn [mbind option_bind]. rewrite Z.eqb_refl. cbn [negb].
    apply (IH (done ++ [x])); [done|by rewrite <- app_assoc|by etransitivity; [|apply store_hq_same]|].
    intros z Hz. rewrite hq_store by done. case_decide; [done|]. apply Hset. set_solver.
Qed.
End Check.
End Bandwidth.
