(* ===== verification/TaskGroupInv.v ===== *)
(** * Task groups: invariants over histories (src/Assignment_4/fifo/core.c)

    What one event does to the store and what every event keeps: the tree, limits
    in range, run queues that are throttled only for a limit, the count behind
    cfs_bandwidth_used(), and limits that fit below each other. *)
From Stdlib Require Import ZArith Lia.
From stdpp Require Import gmap relations.
From S2P Require Import Prelude CLib SchedInfo SchedClass UClamp TaskGroup TaskGroupTree TaskGroupBw.
Import TaskGroup.

Local Open Scope stdpp_scope.
Local Open Scope Z_scope.
Local Abbreviation EINVAL := SchedClass.EINVAL.

Lemma put_put x g g' s : put x g' (put x g s) = put x g' s.
Proof. unfold put, set_groups. simpl. by rewrite insert_insert_eq. Qed.
Lemma put_id x g s : groups s !! x = Some g -> put x g s = s.
Proof. intros H. unfold put, set_groups. rewrite insert_id by done. by destruct s. Qed.
Lemma put_lookup x g s y : groups (put x g s) !! y = if decide (x = y) then Some g else groups s !! y.
Proof. apply lookup_insert. Qed.

Lemma run_steps_app l l' s : run_steps (l ++ l') s = s ← run_steps l s; run_steps l' s.
Proof. revert s. induction l as [|f l IH]; intros s; [done|]. simpl. destruct (f s); simpl; [apply IH|done]. Qed.

Lemma run_inc l s : run_steps (cfs_bandwidth_usage_inc :: l) s = run_steps l (set_used s (bandwidth_used s + 1)).
Proof. done. Qed.

Section Invariants.
Context {h : headers} {hok : headers_ok h} {f : fair_class} {fok : fair_class_ok f} {cfg : uclamp_config}.

Lemma limited_quota g : limited g = true <-> quota (bandwidth g) <> RUNTIME_INF.
Proof. unfold limited. rewrite negb_true_iff. apply Z.eqb_neq. Qed.

(** ** The steps that store new limits *)

(** The run queues of the CPUs [l] are reset, nothing else of the group changes. *)
Definition rqs_set (en : bool) (l : list Z) (g g' : task_group) : Prop :=
  tg_parent g' = tg_parent g /\ children g' = children g /\ shares g' = shares g /\
  same_limits (bandwidth g) (bandwidth g') /\
  (forall i, i ∈ l -> cfs_rqs g' !! i = Some (mk_cfs_rq en 0 false)) /\
  (forall i, i ∉ l -> cfs_rqs g' !! i = cfs_rqs g !! i).

Lemma same_limits_trans b1 b2 b3 : same_limits b1 b2 -> same_limits b2 b3 -> same_limits b1 b3.
Proof. unfold same_limits. intros (-> & -> & ->). tauto. Qed.

Lemma set_cfs_rq_spec tg en i s g c : groups s !! tg = Some g -> cfs_rqs g !! i = Some c ->
  exists g', set_cfs_rq tg en i s = Some (put tg g' s) /\ rqs_set en [i] g g'.
Proof.
  intros Hg Hc. unfold set_cfs_rq. rewrite Hg. cbn [mbind option_bind]. rewrite Hc. cbn [mbind option_bind throttled].
  destruct (throttled c).
  - pose proof (unthrottle_limits (bandwidth g) (mk_cfs_rq en 0 true)) as Hl.
    pose proof (unthrottle_rq (bandwidth g) (mk_cfs_rq en 0 true)) as (H1 & H2 & H3).
    destruct (unthrottle_cfs_rq (bandwidth g) (mk_cfs_rq en 0 true)) as [b [e' r' t']]. simpl in *. subst.
    eexists. split; [done|]. repeat split; try done; try apply Hl.
    + intros j ->%list_elem_of_singleton. simpl. by rewrite lookup_insert, decide_True.
    + intros j Hj. simpl. rewrite lookup_insert_ne; [done|]. set_solver.
  - eexists. split; [done|]. repeat split; try done.
    + intros j ->%list_elem_of_singleton. simpl. by rewrite lookup_insert, decide_True.
    + intros j Hj. simpl. rewrite lookup_insert_ne; [done|]. set_solver.
Qed.

Lemma rqs_set_cons en i l g1 g2 g3 : rqs_set en [i] g1 g2 -> rqs_set en l g2 g3 -> rqs_set en (i :: l) g1 g3.
Proof.
  intros (A1 & A2 & A3 & A4 & A5 & A6) (B1 & B2 & B3 & B4 & B5 & B6).
  split; [congruence|]. split; [congruence|]. split; [congruence|]. split; [by eapply same_limits_trans|]. split.
  - intros j Hj. destruct (decide (j ∈ l)) as [|Hn]; [by apply B5|]. rewrite B6 by done. apply A5. set_solver.
  - intros j Hj. rewrite B6, A6; set_solver.
Qed.

Lemma run_rqs tg en l : forall s g, groups s !! tg = Some g -> (forall i, i ∈ l -> is_Some (cfs_rqs g !! i)) ->
  exists g', run_steps (map (set_cfs_rq tg en) l) s = Some (put tg g' s) /\ rqs_set en l g g'.
Proof.
  induction l as [|i l IH]; intros s g Hg Hl.
  - exists g. simpl. rewrite put_id by done. split; [done|]. repeat split; try done. intros i ?%elem_of_nil. done.
  - destruct (Hl i ltac:(left)) as [c Hc]. destruct (set_cfs_rq_spec tg en i s g c Hg Hc) as (g1 & E1 & H1).
    destruct (IH (put tg g1 s) g1) as (g2 & E2 & H2).
    + rewrite put_lookup. by rewrite decide_True.
    + intros j Hj. destruct H1 as (_ & _ & _ & _ & A5 & A6). destruct (decide (j = i)) as [->|Hn].
      * rewrite A5; [done|left].
      * rewrite A6 by set_solver. apply Hl. by right.
    + exists g2. cbn [map run_steps]. rewrite E1. cbn [mbind option_bind]. rewrite E2, put_put. split; [done|].
      by eapply rqs_set_cons.
Qed.

Lemma store_limits_spec tg p q s g : groups s !! tg = Some g -> 0 <= p <= NSEC_PER_SEC -> exists b,
  store_limits tg p q s = Some (put tg (set_bandwidth g b) s) /\
  period b = p /\ quota b = q /\ hierarchical_quota b = hierarchical_quota (bandwidth g).
Proof.
  intros Hg Hp. unfold store_limits. rewrite Hg. cbn [mbind option_bind]. eexists. split; [done|].
  assert (s64 p = p) as -> by (unfold s64, NSEC_PER_SEC in *; rewrite Z.mod_small; lia).
  destruct (refill_limits (set_limits (bandwidth g) p q)) as (H1 & H2 & H3).
  set (b1 := __refill_cfs_bandwidth_runtime _) in *. simpl in H1, H2, H3.
  destruct (negb _); [|done]. destruct (start_limits b1) as (K1 & K2 & K3). by rewrite K1, K2, K3.
Qed.

(** All of them: the group has the new limits and its run queues follow. *)
Definition bw_set (p q : Z) (g g' : task_group) : Prop :=
  tg_parent g' = tg_parent g /\ children g' = children g /\ shares g' = shares g /\
  period (bandwidth g') = p /\ quota (bandwidth g') = q /\
  (forall i, i ∈ online_cpus -> cfs_rqs g' !! i = Some (mk_cfs_rq (limited g') 0 false)) /\
  (forall i, i ∉ online_cpus -> cfs_rqs g' !! i = cfs_rqs g !! i).

Lemma run_set_steps tg p q s g : groups s !! tg = Some g -> 0 <= p <= NSEC_PER_SEC ->
  (forall i, i ∈ online_cpus -> is_Some (cfs_rqs g !! i)) ->
  exists g', run_steps (set_steps tg p q (limited g)) s =
    Some (set_used (put tg g' s) (bandwidth_used s + b2z (limited g') - b2z (limited g))) /\ bw_set p q g g' /\
    hierarchical_quota (bandwidth g') = hierarchical_quota (bandwidth g).
Proof.
  intros Hg Hp Hrq. set (en := negb (q =? RUNTIME_INF)%c).
  assert (forall u, groups (set_used s u) !! tg = Some g) as Hgu by done.
  assert (forall u, exists g', run_steps ([store_limits tg p q] ++ map (set_cfs_rq tg en) online_cpus) (set_used s u) =
    Some (set_used (put tg g' s) u) /\ (bw_set p q g g' /\ hierarchical_quota (bandwidth g') = hierarchical_quota (bandwidth g)) /\ limited g' = en) as Hmid.
  { intros u. destruct (store_limits_spec tg p q (set_used s u) g (Hgu u) Hp) as (b & E & H1 & H2 & H3).
    rewrite run_steps_app. cbn [run_steps]. rewrite E. cbn [mbind option_bind].
    destruct (run_rqs tg en online_cpus (put tg (set_bandwidth g b) (set_used s u)) (set_bandwidth g b)) as (g' & E' & H').
    - by rewrite put_lookup, decide_True.
    - done.
    - exists g'. rewrite E', put_put. split; [done|]. destruct H' as (A1 & A2 & A3 & (A4 & A5 & A6) & A7 & A8).
      simpl in *. assert (limited g' = en) as Hl by (unfold limited, en; by rewrite A5, H2).
      split; [|done]. unfold bw_set. rewrite Hl. split_and!; [congruence..|done|done|congruence]. }
  unfold set_steps. fold en. destruct (Hmid (bandwidth_used s)) as (g1 & E1 & B1 & L1).
  destruct (Hmid (bandwidth_used s + 1)) as (g2 & E2 & B2 & L2).
  assert (set_used s (bandwidth_used s) = s) as Eu by (by destruct s). rewrite Eu in E1.
  rewrite (app_assoc [store_limits tg p q]), app_assoc, run_steps_app.
  destruct en, (limited g) eqn:Lg; cbn [andb negb app].
  - exists g1. split; [|done]. cbn [app] in E1. rewrite E1. cbn [mbind option_bind run_steps]. rewrite L1. repeat f_equal. simpl. lia.
  - exists g2. split; [|done]. cbn [app] in E2. rewrite run_inc, E2. cbn [mbind option_bind run_steps]. rewrite L2. repeat f_equal. simpl. lia.
  - exists g1. split; [|done]. cbn [app] in E1. rewrite E1. cbn [mbind option_bind run_steps].
    unfold cfs_bandwidth_usage_dec. cbn [mbind option_bind]. rewrite L1. repeat f_equal. simpl. lia.
  - exists g1. split; [|done]. cbn [app] in E1. rewrite E1. cbn [mbind option_bind run_steps]. rewrite L1. repeat f_equal. simpl. lia.
Qed.

(** ** The groups with a limit *)
Definition used_by (m : gmap Z task_group) : Z := msum (fun g => b2z (limited g)) m.
Lemma limited_nonneg g : 0 <= b2z (limited g).
Proof. apply b2z_range. Qed.
Lemma used_change x g g' m : m !! x = Some g -> used_by (<[x := g']> m) = used_by m + b2z (limited g') - b2z (limited g).
Proof. intros Hx. unfold used_by. by rewrite msum_insert, Hx. Qed.
Lemma used_nonneg m : 0 <= used_by m.
Proof. apply msum_nonneg, limited_nonneg. Qed.
Lemma used_pos x g m : m !! x = Some g -> limited g = true -> 1 <= used_by m.
Proof. intros Hx Hl. pose proof (msum_lookup _ _ _ _ limited_nonneg Hx) as H. simpl in H. by rewrite Hl in H. Qed.

(** ** The invariant *)
Definition group_ok (g : task_group) : Prop :=
  valid_limits (period (bandwidth g)) (quota (bandwidth g)) /\
  (forall i, i ∈ online_cpus -> is_Some (cfs_rqs g !! i)) /\
  (forall i c, i ∈ online_cpus -> cfs_rqs g !! i = Some c -> runtime_enabled c = true -> limited g = true).

Definition ratio_at (s : sys) (x : Z) : Z := from_option share (-1) (groups s !! x).

Record inv (s : sys) : Prop := {
  i_tree : exists t, grown s t;
  i_groups x g : groups s !! x = Some g -> group_ok g;
  i_orphan x g : groups s !! x = Some g -> tg_parent g = None -> limited g = false;
  i_used : used_by (groups s) <= bandwidth_used s;
  i_fit : cgroup_subsys_on_dfl = false -> exists e, forall x, x ∈ task_groups s -> nested s (ratio_at s) e x
}.

Lemma limited_ratio g : group_ok g -> (share g = -1 <-> limited g = false).
Proof.
  intros [Hv _]. destruct (ratio_range _ _ Hv) as [_ H]. unfold share. rewrite H.
  rewrite <- not_true_iff_false, limited_quota. destruct (Z.eq_dec (quota (bandwidth g)) RUNTIME_INF); tauto.
Qed.
Lemma ratio_at_range s x : inv s -> -1 <= ratio_at s x < 2 ^ 63.
Proof.
  intros H. unfold ratio_at. destruct (groups s !! x) as [g|] eqn:E; simpl; [|lia].
  apply (ratio_range _ _ (proj1 (i_groups _ H _ _ E))).
Qed.
Lemma ratio_at_root s t : inv s -> grown s t -> ratio_at s ROOT = -1.
Proof.
  intros H Ht. destruct (root_lookup _ _ Ht) as (g & Hg & Hp). unfold ratio_at. rewrite Hg. simpl.
  apply limited_ratio; [by eapply i_groups|by eapply i_orphan].
Qed.

(** Limits fit as before when the groups online keep parent and share. *)
Definition kept (s s' : sys) (x : Z) : Prop := exists g g', groups s !! x = Some g /\ groups s' !! x = Some g' /\
  tg_parent g' = tg_parent g /\ share g' = share g.
Lemma par_parent s x y : par s x y <-> exists g, groups s !! x = Some g /\ tg_parent g = Some y.
Proof.
  unfold par, parent_in. split.
  - intros (l & H). destruct (links_lookup _ _ _ _ H) as (g & Hg & Hp & _). by exists g.
  - intros (g & Hg & Hp). exists (children g). unfold links. by rewrite lookup_fmap, Hg, <- Hp.
Qed.
Lemma kept_nested s s' e x : kept s s' x -> nested s (ratio_at s) e x -> nested s' (ratio_at s') e x.
Proof.
  intros (g & g' & Hg & Hg' & Hp & Hr). unfold nested, ratio_at. rewrite Hg, Hg'. simpl. rewrite Hr.
  intros [H|(y & Hy & H)]; [by left|right]. exists y. split; [|done]. rewrite par_parent in Hy |- *.
  destruct Hy as (g1 & Hg1 & Hy). exists g'. split; [done|]. congruence.
Qed.
Lemma kept_fit s s' : (forall x, x ∈ task_groups s' -> x ∈ task_groups s /\ kept s s' x) ->
  (exists e, forall x, x ∈ task_groups s -> nested s (ratio_at s) e x) ->
  exists e, forall x, x ∈ task_groups s' -> nested s' (ratio_at s') e x.
Proof. intros Hk (e & He). exists e. intros x Hx. destruct (Hk x Hx) as [H1 H2]. by eapply kept_nested, He. Qed.

(** The cached quotas do not matter. *)
Lemma strip_bw g g' : strip g = strip g' -> tg_parent g' = tg_parent g /\ children g' = children g /\
  shares g' = shares g /\ period (bandwidth g') = period (bandwidth g) /\ quota (bandwidth g') = quota (bandwidth g) /\
  cfs_rqs g' = cfs_rqs g.
Proof. destruct g as [? ? ? []], g' as [? ? ? []]. by intros [= -> -> -> -> -> _ _ _ _ ->]. Qed.
Lemma strip_limited g g' : strip g = strip g' -> limited g' = limited g.
Proof. intros H%strip_bw. unfold limited. by destruct H as (_ & _ & _ & _ & -> & _). Qed.
Lemma strip_group_ok g g' : strip g = strip g' -> group_ok g -> group_ok g'.
Proof.
  intros H. pose proof (strip_limited _ _ H) as Hl. apply strip_bw in H as (_ & _ & _ & Hp & Hq & Hr).
  unfold group_ok. by rewrite Hp, Hq, Hr, Hl.
Qed.
Lemma used_strip m : used_by (strip <$> m) = used_by m.
Proof. unfold used_by, msum. rewrite map_fold_fmap. done. Qed.

Lemma inv_same s s' : inv s -> same s s' -> inv s'.
Proof.
  intros H Hs. pose proof Hs as [= Hg Ht Hu]. split.
  - destruct (i_tree _ H) as (t & Ht'). exists t. eapply grown_links; [done|by apply same_links|done].
  - intros x g' Hx. destruct (same_lookup _ _ _ _ Hs Hx) as (g & Hgx & E). eapply strip_group_ok; [done|]. by eapply i_groups.
  - intros x g' Hx Hp. destruct (same_lookup _ _ _ _ Hs Hx) as (g & Hgx & E). rewrite (strip_limited _ _ E).
    eapply i_orphan; [done..|]. apply strip_bw in E as (E & _). congruence.
  - rewrite Hu, <- used_strip, Hg, used_strip. apply H.
  - intros Hd. eapply kept_fit; [|by apply H]. rewrite Ht. intros x Hx. split; [done|].
    destruct (i_tree _ H) as (t & Htr). destruct (grown_lookup _ _ _ Htr Hx) as (g & Hgx & _).
    destruct (same_alloc s s' x Hs ltac:(by rewrite Hgx)) as [g' Hg'].
    exists g, g'. destruct (same_lookup _ _ _ _ Hs Hg') as (g0 & Hg0 & E).
    rewrite Hgx in Hg0. injection Hg0 as <-. apply strip_bw in E as (Ep & _ & _ & E1 & E2 & _).
    repeat split; [done..|]. unfold share. by rewrite E1, E2.
Qed.

(** ** A new limit *)
Definition proposed (s : sys) (tg p q x : Z) : Z := if (x =? tg)%c then ratio_of p q else ratio_at s x.
Definition valid_limitsb (p q : Z) : bool :=
  negb ((q <? min_cfs_quota_period)%c || (p <? min_cfs_quota_period)%c || (max_cfs_quota_period <? p)%c ||
        (negb (q =? RUNTIME_INF)%c && (max_cfs_runtime <? q)%c))%bool.
Lemma valid_limitsb_spec p q : valid_limitsb p q = true <-> valid_limits p q.
Proof.
  unfold valid_limitsb, valid_limits, min_cfs_quota_period, max_cfs_quota_period. rewrite negb_true_iff, !orb_false_iff.
  rewrite andb_false_iff, negb_false_iff, !Z.ltb_ge, Z.eqb_eq. lia.
Qed.

Lemma down_links d : keeps_links (tg_cfs_schedulable_down d).
Proof.
  intros tg s r s'. unfold tg_cfs_schedulable_down. intros H. apply bind_Some in H as (g & Hg & H).
  assert (forall v, links (put tg (set_bandwidth g (set_hierarchical (bandwidth g) v)) s) = links s) as Hl.
  { intros v. by eapply links_put_same. }
  destruct (tg_parent g) as [y|]; [|by injection H as _ <-]. apply bind_Some in H as (gy & Hgy & H).
  repeat case_match; injection H as _ <-; auto.
Qed.

Lemma schedulable_preorder s t tg p q : grown s t ->
  __cfs_schedulable tg p q s = preorder (tg_cfs_schedulable_down (new_data tg p q)) (ids t) s.
Proof.
  intros Ht. unfold __cfs_schedulable. fold (new_data tg p q).
  rewrite (grown_walk s t); [apply visit_preorder|done|apply down_links|apply nop_links].
Qed.

Section Verdict.
Context (s : sys) (t : tree) (tg p q : Z) (Hinv : inv s) (Ht : grown s t) (Htg : tg <> ROOT) (Hv : valid_limits p q).

Lemma proposed_norm x g : x <> ROOT -> groups s !! x = Some g ->
  s64 (normalize_cfs_quota x g (new_data tg p q)) = proposed s tg p q x.
Proof.
  intros Hx Hg. unfold proposed. destruct (Z.eqb_spec x tg) as [->|Hne]; [by apply normalize_new|].
  unfold ratio_at. rewrite Hg. apply normalize_old; [by rewrite d_tg_new|]. by eapply i_groups.
Qed.
Lemma proposed_range x : -1 <= proposed s tg p q x < 2 ^ 63.
Proof. unfold proposed. case_match; [by apply ratio_range|by apply ratio_at_range]. Qed.
Lemma proposed_root : proposed s tg p q ROOT = -1.
Proof. unfold proposed. rewrite (proj2 (Z.eqb_neq ROOT tg)) by done. by eapply ratio_at_root. Qed.

Lemma schedulable_legacy : cgroup_subsys_on_dfl = false -> exists r s',
  __cfs_schedulable tg p q s = Some (r, s') /\ same s s' /\
  ((r = 0 /\ forall x, x ∈ ids t -> nested s (proposed s tg p q) (hq s') x) \/
   (r = - EINVAL /\ conflict s t (proposed s tg p q))).
Proof.
  intros Hd. rewrite (schedulable_preorder s t tg p q Ht).
  apply (check_list s t _ _ Ht proposed_norm proposed_range proposed_root _ []); [done..|].
  by intros z ?%elem_of_nil.
Qed.
Lemma schedulable_dfl : cgroup_subsys_on_dfl = true -> exists s',
  __cfs_schedulable tg p q s = Some (0, s') /\ same s s' /\ forall x, x ∈ ids t -> hq s' x = -1.
Proof.
  intros Hd. rewrite (schedulable_preorder s t tg p q Ht).
  apply (check_list_dfl s t _ _ Ht proposed_norm proposed_range proposed_root _ []); [done..|].
  by intros z ?%elem_of_nil.
Qed.
End Verdict.

(** What tg_set_cfs_bandwidth answers and does. *)
Definition accepted (s : sys) (tg p q : Z) (s' : sys) : Prop := exists s1 g g',
  same s s1 /\ groups s1 !! tg = Some g /\
  (bw_set p q g g' /\ hierarchical_quota (bandwidth g') = hierarchical_quota (bandwidth g)) /\
  s' = set_used (put tg g' s1) (bandwidth_used s + b2z (limited g') - b2z (limited g)) /\
  (cgroup_subsys_on_dfl = false -> exists e, forall x, x ∈ task_groups s -> nested s (proposed s tg p q) e x) /\
  (cgroup_subsys_on_dfl = true -> forall x, x ∈ task_groups s -> hq s1 x = -1).

Lemma set_bandwidth_spec s tg p q : inv s -> tg ∈ task_groups s -> exists r s',
  tg_set_cfs_bandwidth tg p q s = Some (r, s') /\
  ((r = - EINVAL /\ same s s' /\
    (tg = ROOT \/ ~ valid_limits p q \/
     cgroup_subsys_on_dfl = false /\ exists t, grown s t /\ conflict s t (proposed s tg p q))) \/
   (r = 0 /\ tg <> ROOT /\ valid_limits p q /\ accepted s tg p q s')).
Proof.
  intros H Htg. unfold tg_set_cfs_bandwidth.
  destruct (Z.eqb_spec tg ROOT) as [|Hroot]; [eexists _, _; split; [done|]; left; split; [done|]; split; [done|]; by left|].
  assert (forall A (a b : A), (if ((q <? min_cfs_quota_period)%c || (p <? min_cfs_quota_period)%c)%bool then a
    else if (max_cfs_quota_period <? p)%c then a
    else if (negb (q =? RUNTIME_INF)%c && (max_cfs_runtime <? q)%c)%bool then a else b) =
    if valid_limitsb p q then b else a) as Hif.
  { intros A a b. unfold valid_limitsb. by repeat (destruct (_ <? _)%c; simpl); destruct (q =? RUNTIME_INF)%c. }
  rewrite Hif. clear Hif. destruct (valid_limitsb p q) eqn:Ev.
  2: { eexists _, _. split; [done|]. left. split; [done|]. split; [done|]. right. left. rewrite <- valid_limitsb_spec. congruence. }
  apply valid_limitsb_spec in Ev. destruct (i_tree _ H) as (t & Ht).
  assert (exists r s1, __cfs_schedulable tg p q s = Some (r, s1) /\ same s s1 /\
    ((r = 0 /\ (cgroup_subsys_on_dfl = false -> exists e, forall x, x ∈ task_groups s -> nested s (proposed s tg p q) e x) /\
      (cgroup_subsys_on_dfl = true -> forall x, x ∈ task_groups s -> hq s1 x = -1)) \/
     (r = - EINVAL /\ cgroup_subsys_on_dfl = false /\ conflict s t (proposed s tg p q)))) as (r & s1 & E & Hs & Hr).
  { destruct cgroup_subsys_on_dfl eqn:Hd.
    - destruct (schedulable_dfl s t tg p q) as (s1 & E & Hs & Hq); [done..|]. exists 0, s1. split; [done|]. split; [done|].
      left. split; [done|]. split; [done|]. intros _ x Hx. apply Hq. by rewrite <- (g_ids _ _ Ht).
    - destruct (schedulable_legacy s t tg p q) as (r & s1 & E & Hs & Hq); [done..|]. exists r, s1. split; [done|]. split; [done|].
      destruct Hq as [[-> Hq]|[-> Hq]]; [left|by right]. split; [done|]. split; [|done]. intros _. exists (hq s1).
      intros x Hx. apply Hq. by rewrite <- (g_ids _ _ Ht). }
  rewrite E. cbn [mbind option_bind]. destruct Hr as [(-> & Hr1 & Hr2)|(-> & Hd & Hc)].
  - rewrite Z.eqb_refl. cbn [negb].
    destruct (grown_lookup _ _ _ Ht Htg) as (g0 & Hg0 & _).
    destruct (same_alloc s s1 tg Hs ltac:(by rewrite Hg0)) as [g Hg]. rewrite Hg. cbn [mbind option_bind].
    pose proof (i_groups _ (inv_same _ _ H Hs) _ _ Hg) as (_ & Hrq & _).
    destruct (run_set_steps tg p q s1 g Hg) as (g' & Eg & Hb); [unfold valid_limits, NSEC_PER_MSEC, NSEC_PER_SEC in *; lia|done|].
    rewrite Eg. cbn [mbind option_bind]. eexists 0, _. split; [done|]. right. split; [done|]. split; [done|]. split; [done|].
    exists s1, g, g'. split; [done|]. split; [done|]. split; [done|]. split; [|done]. injection Hs as _ _ ->. done.
  - cbn [negb]. eexists _, _. split; [done|]. left. split; [done|]. split; [done|]. right. right. split; [done|]. by exists t.
Qed.

Lemma nested_ext s s' R R' e x : (forall y, par s x y -> par s' x y) -> R' x = R x -> nested s R e x -> nested s' R' e x.
Proof.
  intros Hp HR [H|(y & Hy & H)]; [by left|right]. exists y. rewrite HR. split; [by apply Hp|done].
Qed.
Lemma par_links s s' x y : links s' = links s -> par s x y <-> par s' x y.
Proof. unfold par. by intros ->. Qed.

Lemma accepted_links s tg p q s' : accepted s tg p q s' -> links s' = links s /\ task_groups s' = task_groups s.
Proof.
  intros (s1 & g & g' & Hs & Hg & [(Hp & Hc & _) _] & -> & _). split.
  - transitivity (links s1); [|by apply same_links]. by apply (links_put_same tg g).
  - injection Hs as _ Ht _. exact Ht.
Qed.
Lemma accepted_lookup s tg p q s' x g' : accepted s tg p q s' -> groups s' !! x = Some g' ->
  if decide (x = tg) then exists g, groups s !! tg = Some g /\ bw_set p q g g'
  else exists g, groups s !! x = Some g /\ strip g = strip g'.
Proof.
  intros (s1 & g & g1 & Hs & Hg & [Hb _] & -> & _). cbn [set_used groups]. rewrite put_lookup.
  case_decide as E; [subst x; intros [= <-]|].
  - rewrite decide_True by done. destruct (same_lookup _ _ _ _ Hs Hg) as (g0 & Hg0 & Es).
    exists g0. split; [done|]. apply strip_bw in Es as (E1 & E2 & E3 & _ & _ & E6).
    unfold bw_set in *. rewrite <- E1, <- E2, <- E3, <- E6. done.
  - rewrite decide_False by done. intros Hx. by eapply same_lookup.
Qed.
Lemma accepted_ratio s tg p q s' x : inv s -> accepted s tg p q s' -> x ∈ task_groups s ->
  ratio_at s' x = proposed s tg p q x.
Proof.
  intros H Ha Hx. destruct (accepted_links _ _ _ _ _ Ha) as [HL Ht]. destruct (i_tree _ H) as (t & Htr).
  assert (grown s' t) as Htr' by by eapply grown_links. rewrite <- Ht in Hx.
  destruct (grown_lookup _ _ _ Htr' Hx) as (g' & Hg' & _). unfold ratio_at, proposed. rewrite Hg'. simpl.
  pose proof (accepted_lookup _ _ _ _ _ _ _ Ha Hg') as Hl. destruct (Z.eqb_spec x tg) as [->|Hne].
  - rewrite decide_True in Hl by done. destruct Hl as (g & _ & _ & _ & _ & Ep & Eq & _). unfold share. by rewrite Ep, Eq.
  - rewrite decide_False in Hl by done. destruct Hl as (g & Hg & Es). unfold ratio_at. rewrite Hg. simpl.
    apply strip_bw in Es as (_ & _ & _ & E1 & E2 & _). unfold share. by rewrite E1, E2.
Qed.

(** What the invariant says of the store alone. *)
Definition store_ok (s : sys) : Prop :=
  (forall x g, groups s !! x = Some g -> group_ok g) /\
  (forall x g, groups s !! x = Some g -> tg_parent g = None -> limited g = false) /\
  used_by (groups s) <= bandwidth_used s.
Lemma inv_store s : inv s -> store_ok s.
Proof. intros []. by split_and!. Qed.
Lemma store_inv s : store_ok s -> (exists t, grown s t) ->
  (cgroup_subsys_on_dfl = false -> exists e, forall x, x ∈ task_groups s -> nested s (ratio_at s) e x) -> inv s.
Proof. intros (H1 & H2 & H3) H4 H5. by split. Qed.
(** A group with new limits. *)
Lemma store_set s tg p q g g' : store_ok s -> groups s !! tg = Some g -> valid_limits p q -> is_Some (tg_parent g) ->
  bw_set p q g g' -> store_ok (set_used (put tg g' s) (bandwidth_used s + b2z (limited g') - b2z (limited g))).
Proof.
  intros (H1 & H2 & H3) Hg Hv [y Hy] (Ep & _ & _ & E1 & E2 & E3 & _). split_and!.
  - intros x gx Hx. cbn [set_used groups] in Hx. rewrite put_lookup in Hx. case_decide; [|by apply (H1 x)].
    injection Hx as <-. split; [by rewrite E1, E2|]. split.
    + intros i Hi. by rewrite E3.
    + intros i c Hi. rewrite E3 by done. by intros [= <-].
  - intros x gx Hx Hpx. cbn [set_used groups] in Hx. rewrite put_lookup in Hx. case_decide; [|by apply (H2 x)].
    injection Hx as <-. congruence.
  - cbn [set_used groups bandwidth_used put set_groups]. rewrite (used_change _ _ _ _ Hg). lia.
Qed.
Lemma online_parent s tg g : inv s -> tg ∈ task_groups s -> tg <> ROOT -> groups s !! tg = Some g -> is_Some (tg_parent g).
Proof.
  intros H Htg Hroot Hg. destruct (i_tree _ H) as (t & Ht).
  destruct (grown_lookup _ _ _ Ht Htg) as (g' & Hg' & _ & [[? _]|(y & gy & Hy & _)]); [done|].
  rewrite Hg in Hg'. injection Hg' as <-. by exists y.
Qed.
Lemma accepted_inv s tg p q s' : inv s -> tg ∈ task_groups s -> tg <> ROOT -> valid_limits p q ->
  accepted s tg p q s' -> inv s'.
Proof.
  intros H Htg Hroot Hv Ha. pose proof (accepted_links _ _ _ _ _ Ha) as [HL Ht]. apply store_inv.
  - destruct Ha as (s1 & g & g' & Hs & Hg & [Hb _] & -> & _). pose proof (inv_same _ _ H Hs) as H1.
    injection Hs as _ Hts Hus. rewrite <- Hus. apply store_set with p q; [by apply inv_store|done|done| |done].
    eapply online_parent; [done| |done|done]. by rewrite Hts.
  - destruct (i_tree _ H) as (t & Htr). exists t. by eapply grown_links.
  - intros Hd. pose proof Ha as (s1 & g & g' & _ & _ & _ & _ & He & _). destruct (He Hd) as (e & He').
    exists e. rewrite Ht. intros x Hx. eapply nested_ext; [|by apply accepted_ratio|by apply He'].
    intros z. by apply par_links.
Qed.

(** ** The other events *)

(** A group changed in fields that its limits do not depend on. *)
Lemma store_put s tg g g' : store_ok s -> groups s !! tg = Some g ->
  (tg_parent g' = None -> tg_parent g = None) -> bandwidth g' = bandwidth g -> cfs_rqs g' = cfs_rqs g ->
  store_ok (put tg g' s).
Proof.
  intros (H1 & H2 & H3) Hg Hp Hb Hr. assert (limited g' = limited g) as Hl by (unfold limited; by rewrite Hb).
  split_and!.
  - intros x gx. rewrite put_lookup. case_decide; [|apply H1]. intros [= <-].
    unfold group_ok. rewrite Hb, Hr, Hl. by eapply H1.
  - intros x gx. rewrite put_lookup. case_decide; [|apply H2]. intros [= <-] ?. rewrite Hl. by eapply H2, Hp.
  - simpl. rewrite (used_change _ _ _ _ Hg), Hl. lia.
Qed.
Lemma ratio_put s tg g g' x : groups s !! tg = Some g -> bandwidth g' = bandwidth g ->
  ratio_at (put tg g' s) x = ratio_at s x.
Proof.
  intros Hg Hb. unfold ratio_at. rewrite put_lookup. case_decide; [|done]. subst x. rewrite Hg. simpl. unfold share.
  by rewrite Hb.
Qed.
Lemma par_put s tg g g' x y : groups s !! tg = Some g -> (tg = x -> tg_parent g' = tg_parent g) ->
  par s x y -> par (put tg g' s) x y.
Proof.
  rewrite !par_parent. intros Hg Hp (gx & Hgx & Hy). rewrite put_lookup. case_decide; [|by exists gx].
  subst x. exists g'. rewrite Hg in Hgx. injection Hgx as <-. by rewrite Hp.
Qed.

Lemma inv_put s tg g g' : inv s -> groups s !! tg = Some g -> tg_parent g' = tg_parent g -> children g' = children g ->
  bandwidth g' = bandwidth g -> cfs_rqs g' = cfs_rqs g -> inv (put tg g' s).
Proof.
  intros H Hg Hp Hc Hb Hr. apply store_inv.
  - eapply store_put; [by apply inv_store|done| |done|done]. by rewrite Hp.
  - destruct (i_tree _ H) as (t & Ht). exists t. eapply grown_links; [done|by eapply links_put_same|done].
  - intros Hd. destruct (i_fit _ H Hd) as (e & He). exists e. intros x Hx.
    eapply nested_ext; [| |by apply He]; [intros y; by eapply par_put|by eapply ratio_put].
Qed.

Lemma write_shares_spec s tg w : inv s -> tg ∈ task_groups s -> exists r s', write_shares tg w s = Some (r, s') /\ inv s'.
Proof.
  intros H Htg. destruct (i_tree _ H) as (t & Ht). destruct (grown_lookup _ _ _ Ht Htg) as (g & Hg & _).
  unfold write_shares. rewrite Hg. cbn [mbind option_bind]. destruct (set_shares g w) as [(v & Ev) _].
  destruct (sched_group_set_shares g w) as [g' ret]. simpl in Ev. subst g'. eexists _, _. split; [done|].
  by apply (inv_put s tg g).
Qed.

Lemma create_spec s m tg : groups s !! tg = None ->
  sched_create_group m tg s =
  if (tg_ok m && fair_ok m && rt_ok m)%bool then (tg, put tg (alloc_fair_sched_group zero_tg) s) else (- ENOMEM, s).
Proof.
  intros Hg. unfold sched_create_group. destruct (tg_ok m); [|done]. cbn [negb andb].
  assert (forall g, sched_free_group tg (put tg g s) = s) as Hf.
  { intros g. unfold sched_free_group, put, set_groups. simpl. rewrite delete_insert_id by done. by destruct s. }
  destruct (fair_ok m); cbn [negb andb]; [|by rewrite Hf]. rewrite put_put.
  destruct (rt_ok m); cbn [negb]; [done|by rewrite Hf].
Qed.

Lemma alloc_group_ok : group_ok (alloc_fair_sched_group zero_tg) /\ limited (alloc_fair_sched_group zero_tg) = false.
Proof.
  destruct (init_unlimited (bandwidth zero_tg)) as [Hq Hp]. unfold group_ok, valid_limits.
  assert (limited (alloc_fair_sched_group zero_tg) = false) as Hl.
  { unfold limited. rewrite alloc_bandwidth, Hq. by rewrite Z.eqb_refl. }
  split; [|done]. rewrite alloc_bandwidth, Hq. split_and!; [lia|lia| |by left| |].
  - rewrite runtime_inf. unfold NSEC_PER_MSEC. lia.
  - intros i Hi. apply alloc_rqs. by apply online_possible.
  - intros i c Hi Hc. by rewrite (alloc_off _ _ _ Hc).
Qed.

Lemma inv_alloc s tg : inv s -> groups s !! tg = None -> inv (put tg (alloc_fair_sched_group zero_tg) s).
Proof.
  intros H Hg. destruct (i_tree _ H) as (t & Ht). destruct alloc_group_ok as [Hok Hl].
  assert (forall x, x ∈ task_groups s -> x <> tg) as Hne.
  { intros x Hx ->. destruct (grown_lookup _ _ _ Ht Hx) as (g & ? & _). congruence. }
  split.
  - exists t. eapply grown_others; [done| |done]. intros x Hx. rewrite links_put, lookup_insert_ne; [done|].
    intros <-. by apply (Hne tg).
  - intros x g. rewrite put_lookup. case_decide; [intros [= <-]; done|apply H].
  - intros x g. rewrite put_lookup. case_decide; [intros [= <-]; done|apply H].
  - simpl. unfold used_by. rewrite msum_insert, Hg, Hl. simpl. pose proof (i_used _ H) as Hu. unfold used_by in Hu. lia.
  - intros Hd. eapply kept_fit; [|by apply H]. intros x Hx. split; [done|].
    destruct (grown_lookup _ _ _ Ht Hx) as (g & Hgx & _). exists g, g. rewrite put_lookup, decide_False by (intros ->; by apply (Hne x)).
    done.
Qed.

Lemma inv_free s tg : inv s -> tg ∉ task_groups s -> inv (sched_free_group tg s).
Proof.
  intros H Htg. destruct (i_tree _ H) as (t & Ht). unfold sched_free_group.
  assert (forall x g, groups (set_groups s (delete tg (groups s))) !! x = Some g -> groups s !! x = Some g) as Hl.
  { intros x g. simpl. intros [_ ?]%lookup_delete_Some. done. }
  split.
  - exists t. eapply grown_others; [done| |done]. intros x Hx. rewrite links_free, lookup_delete_ne; [done|congruence].
  - intros x g Hx%Hl. by eapply i_groups.
  - intros x g Hx%Hl. by eapply i_orphan.
  - simpl. unfold used_by. rewrite msum_delete. pose proof (i_used _ H) as Hu. unfold used_by in Hu.
    destruct (groups s !! tg) as [g|]; simpl; [pose proof (limited_nonneg g)|]; lia.
  - intros Hd. eapply kept_fit; [|by apply H]. simpl. intros x Hx. split; [done|].
    destruct (grown_lookup _ _ _ Ht Hx) as (g & Hgx & _). exists g, g. simpl. rewrite lookup_delete_ne by congruence. done.
Qed.

Lemma online_spec s tg parent : inv s -> allowed s (Online tg parent) = true ->
  exists s', sched_online_group tg parent s = Some s' /\ inv s'.
Proof.
  intros H Ha. pose proof Ha as Ha'. unfold allowed in Ha. apply andb_prop in Ha as [[Hp Ho]%andb_prop Hg].
  pose proof (proj1 (online_elem _ _) Hp) as Hpo. apply negb_true_iff in Ho.
  assert (tg ∉ task_groups s) as Hto by (intros Hx%online_elem; congruence). clear Ho.
  destruct (groups s !! tg) as [g|] eqn:Eg; [|done]. apply negb_true_iff, bool_decide_eq_false in Hg.
  apply eq_None_not_Some in Hg. destruct (i_tree _ H) as (t & Ht).
  destruct (grown_lookup _ _ _ Ht Hpo) as (gp & Egp & _). assert (parent <> tg) as Hne by congruence.
  set (s1 := mk_sys (groups s) (tg :: task_groups s) (bandwidth_used s)).
  set (g1 := set_children (set_parent g (Some parent)) []).
  set (g2 := set_children gp (tg :: children gp)).
  assert (sched_online_group tg parent s = Some (put parent g2 (put tg g1 s1))) as E.
  { unfold sched_online_group. cbn [groups]. rewrite Eg. cbn [mbind option_bind]. fold s1 g1.
    rewrite put_lookup, decide_False by congruence. cbn [groups s1]. rewrite Egp. done. }
  assert (groups (put tg g1 s1) !! parent = Some gp) as Egp1 by (rewrite put_lookup, decide_False; [done|congruence]).
  exists (put parent g2 (put tg g1 s1)). split; [done|]. apply store_inv.
  - eapply store_put; [|exact Egp1|done..]. eapply (store_put s1 tg g); [exact (inv_store s H)|done..].
  - eexists. by eapply grown_online.
  - intros Hd. destruct (i_fit _ H Hd) as (e & He). exists (fun x => if (x =? tg)%c then e parent else e x).
    intros x [->|Hx]%elem_of_cons.
    + right. exists parent. rewrite Z.eqb_refl, (proj2 (Z.eqb_neq parent tg)) by done. split.
      * eapply par_put; [exact Egp1|done|]. apply par_parent. exists g1. rewrite put_lookup, decide_True by done. done.
      * rewrite !(ratio_put _ _ _ _ _ Egp1) by done. rewrite (ratio_put s1 tg g g1) by done.
        unfold ratio_at. cbn [groups s1]. rewrite Eg. simpl.
        rewrite (proj2 (limited_ratio g (i_groups _ H _ _ Eg)) (i_orphan _ H _ _ Eg Hg)). auto.
    + assert (x <> tg) by congruence.
      destruct (He x Hx) as [[-> Hex]|(y & Hy & Hok)].
      { left. split; [done|]. by rewrite (proj2 (Z.eqb_neq ROOT tg)). }
      rewrite (g_ids _ _ Ht) in Hx. destruct (par_online s t Ht x y Hx Hy) as [Hyo _]. rewrite <- (g_ids _ _ Ht) in Hyo.
      right. exists y. rewrite (proj2 (Z.eqb_neq x tg)), (proj2 (Z.eqb_neq y tg)) by congruence. split.
      * eapply par_put; [exact Egp1|done|]. eapply (par_put s1 tg g); [done|congruence|done].
      * rewrite (ratio_put _ _ _ _ _ Egp1) by done. rewrite (ratio_put s1 tg g g1) by done. done.
Qed.

Lemma release_spec s tg : inv s -> allowed s (Released tg) = true ->
  exists s', sched_offline_group tg s = Some s' /\ inv s'.
Proof.
  intros H Ha. destruct (i_tree _ H) as (t & Ht). pose proof Ha as Ha'. unfold allowed in Ha'.
  apply andb_prop in Ha' as [[Hon%online_elem Hroot%negb_true_iff%Z.eqb_neq]%andb_prop _].
  destruct (grown_lookup _ _ _ Ht Hon) as (g & Hg & _ & [[? _]|(y & gy & Hy & _ & Hgy & _)]); [done|].
  set (s1 := mk_sys (groups s) (list_del tg (task_groups s)) (bandwidth_used s)).
  assert (sched_offline_group tg s = Some (put y (set_children gy (list_del tg (children gy))) s1)) as E.
  { unfold sched_offline_group. cbn [groups]. rewrite Hg. cbn [mbind option_bind]. rewrite Hy. cbn [mbind option_bind].
    by rewrite Hgy. }
  eexists. split; [exact E|]. apply store_inv.
  - eapply (store_put s1 y gy); [exact (inv_store s H)|done..].
  - by eapply grown_release.
  - intros Hd. destruct (i_fit _ H Hd) as (e & He). exists e. cbn [put set_groups task_groups s1]. intros x Hx.
    assert (x ∈ task_groups s) as Hxs by (rewrite <- (list_del_perm tg) by done; by right).
    eapply (nested_ext s); [| |by apply He].
    + intros z Hz. by apply (par_put s1 y gy).
    + by rewrite (ratio_put s1 y gy).
Qed.

(** ** Every event *)
Lemma set_inv s tg p q : inv s -> tg ∈ task_groups s ->
  exists r s', tg_set_cfs_bandwidth tg p q s = Some (r, s') /\ inv s'.
Proof.
  intros H Htg. destruct (set_bandwidth_spec s tg p q H Htg) as (r & s' & E & [(_ & Hs & _)|(_ & Hr & Hv & Ha)]).
  - exists r, s'. split; [done|]. by eapply inv_same.
  - exists r, s'. split; [done|]. by eapply accepted_inv.
Qed.

Lemma alloc_inv s parent tg m : inv s -> allowed s (Alloc parent tg m) = true ->
  inv (cpu_cgroup_css_alloc (Some parent) m tg s).2.
Proof.
  intros H Ha. apply andb_prop in Ha as [[_ Hg%negb_true_iff%bool_decide_eq_false]%andb_prop Hpos].
  apply eq_None_not_Some in Hg. unfold cpu_cgroup_css_alloc. rewrite create_spec by done.
  destruct (_ && _ && _)%bool; [|done]. rewrite (proj2 (Z.ltb_ge tg 0)) by lia. by apply inv_alloc.
Qed.

Lemma exec_inv s e : inv s -> allowed s e = true -> exists r s', exec e s = Some (r, s') /\ inv s'.
Proof.
  intros H Ha. destruct (i_tree _ H) as (t & Ht).
  assert (forall tg, online s tg = true -> tg ∈ task_groups s /\ exists g, groups s !! tg = Some g) as Hon.
  { intros tg Htg%online_elem. split; [done|]. destruct (grown_lookup _ _ _ Ht Htg) as (g & ? & _). by exists g. }
  destruct e; cbn [exec].
  - destruct (cpu_cgroup_css_alloc (Some parent) m tg s) as [r s'] eqn:E. exists r, s'. split; [done|].
    change s' with (r, s').2. rewrite <- E. by apply alloc_inv.
  - destruct (online_spec s tg parent H Ha) as (s' & E & Hi). exists 0, s'. unfold cpu_cgroup_css_online. by rewrite E.
  - destruct (release_spec s tg H Ha) as (s' & E & Hi). exists 0, s'. unfold cpu_cgroup_css_released. by rewrite E.
  - exists 0, (sched_free_group tg s). split; [done|]. apply inv_free; [done|].
    apply negb_true_iff in Ha. intros Hx%online_elem. unfold allowed in Ha. congruence.
  - destruct (Hon _ Ha) as [Htg [g Hg]]. unfold cpu_cfs_quota_write_s64, tg_set_cfs_quota. rewrite Hg. cbn [mbind option_bind].
    repeat case_match; eauto using set_inv.
  - destruct (Hon _ Ha) as [Htg [g Hg]]. unfold cpu_cfs_period_write_u64, tg_set_cfs_period. case_match; [eauto|].
    rewrite Hg. cbn [mbind option_bind]. eauto using set_inv.
  - destruct (Hon _ Ha) as [Htg [g Hg]]. unfold cpu_max_write. rewrite Hg. cbn [mbind option_bind].
    destruct (cpu_period_quota_parse _ _) as [err|[p q]]; [eauto|].
    destruct (set_inv s tg p q H Htg) as (r & s' & E & Hi). rewrite E. cbn [mbind option_bind]. eauto.
  - unfold cpu_shares_write_u64. apply write_shares_spec; [done|by apply Hon].
  - unfold cpu_weight_write_u64. case_match; [eauto|]. apply write_shares_spec; [done|by apply Hon].
  - unfold cpu_weight_nice_write_s64. case_match; [eauto|].
    destruct (SchedClass.sched_prio_to_weight !! _) as [w|] eqn:E.
    + cbn [mbind option_bind]. apply write_shares_spec; [done|by apply Hon].
    + exfalso. apply lookup_ge_None in E. destruct nice_values as (Hmin & Hmax & _), prio_values as (_ & Hrt & _).
      rewrite nice_prio, Hrt in E. change (length SchedClass.sched_prio_to_weight) with 40%nat in E.
      match goal with Hb : (_ || _)%bool = false |- _ => apply orb_false_iff in Hb as [H1%Z.ltb_ge H2%Z.ltb_ge] end. lia.
Qed.

Lemma init_inv : inv sched_init_groups.
Proof.
  destruct (init_unlimited zero_bw) as [Hq Hp].
  set (g := mk_tg None [] ROOT_TASK_GROUP_LOAD (init_cfs_bandwidth zero_bw)
              (list_to_map (map (fun i => (i, init_tg_cfs_entry i)) possible_cpus))).
  assert (limited g = false) as Hl by (unfold limited; simpl; by rewrite Hq, Z.eqb_refl).
  assert (forall i c, cfs_rqs g !! i = Some c -> runtime_enabled c = false) as Hoff.
  { intros i c Hc%elem_of_list_to_map_2. apply list_elem_of_fmap in Hc as (j & [= -> ->] & _). apply entry_off. }
  assert (forall x g', groups sched_init_groups !! x = Some g' -> x = ROOT /\ g' = g) as Hlk.
  { intros x g' Hx. unfold sched_init_groups in Hx. cbn [groups] in Hx.
    apply lookup_singleton_Some in Hx as [<- <-]. done. }
  split.
  - exists (Node ROOT []). split; [|by repeat constructor; intros ?%elem_of_nil|done|done].
    constructor; [|done]. unfold links. simpl. by rewrite lookup_fmap, lookup_singleton, decide_True.
  - intros x g' Hx. apply Hlk in Hx as [_ ->]. split; [|split].
    + unfold valid_limits. simpl. rewrite Hq. split; [lia|]. split; [|by left]. rewrite runtime_inf. unfold NSEC_PER_MSEC. lia.
    + intros i Hi%online_possible. simpl. destruct (_ !! i) eqn:E; [done|]. apply not_elem_of_list_to_map_2 in E.
      destruct E. apply list_elem_of_fmap. exists (i, init_tg_cfs_entry i). split; [done|].
      apply list_elem_of_fmap. by exists i.
    + intros i c _ Hc Hen. rewrite (Hoff _ _ Hc) in Hen. done.
  - intros x g' Hx _. by apply Hlk in Hx as [_ ->].
  - simpl. unfold used_by. rewrite <- insert_empty, msum_insert. fold g. rewrite Hl. done.
  - intros _. exists (fun _ => -1). intros x Hx%list_elem_of_singleton. by left.
Qed.

Lemma reachable_inv s : reachable s -> inv s.
Proof.
  apply steps_invariant; [apply init_inv|]. intros a b Ha (e & r & Hal & He).
  destruct (exec_inv a e Ha Hal) as (r' & s' & E & Hi). congruence.
Qed.
End Invariants.
