(* ===== verification/TaskGroupFiles.v ===== *)
(** * Task groups: the text and the numbers of the files (src/Assignment_4/fifo/core.c)

    What is written to a file of a group and what is read from it afterwards, and
    the steps of a change of the limits as the other CPUs see them. *)
From Stdlib Require Import ZArith Lia.
From stdpp Require Import gmap.
From S2P Require Import Prelude CLib SchedInfo SchedClass UClamp TaskGroup TaskGroupTree TaskGroupBw TaskGroupInv.
Import TaskGroup.

Local Open Scope stdpp_scope.
Local Open Scope Z_scope.
Local Abbreviation EINVAL := SchedClass.EINVAL.

Lemma show_u_show n : 0 <= n -> show n = show_u n.
Proof. intros Hn. unfold show. by rewrite (proj2 (Z.ltb_ge n 0)). Qed.
Lemma show_short n : 0 <= n < 2 ^ 64 -> short_word 20 (show n).
Proof.
  intros Hn. destruct (show_u_spec n) as (Hd & Hne & _); [lia|]. rewrite show_u_show by lia.
  split; [done|]. split; [by apply digits_no_space|]. apply show_u_length; lia.
Qed.
Lemma max_short : short_word 20 "max".
Proof. split; [done|]. split; [done|]. unfold strlen. simpl. lia. Qed.

Section Files.
Context {h : headers} {hok : headers_ok h} {f : fair_class} {fok : fair_class_ok f}.
Context {cfg : uclamp_config} {cfgok : uclamp_config_ok cfg}.

(** ** cpu.max *)
Definition whole (ns : Z) : Z := ns / NSEC_PER_USEC * NSEC_PER_USEC.
Definition whole_quota (q : Z) : Z := if (q =? RUNTIME_INF)%c then q else whole q.

Lemma u64_small v : 0 <= v < 2 ^ 64 -> u64 v = v.
Proof. intros. by apply Z.mod_small. Qed.
Lemma s64_small v : 0 <= v < 2 ^ 63 -> s64 v = v.
Proof. intros. unfold s64. rewrite Z.mod_small; lia. Qed.

Lemma valid_bounds p q : valid_limits p q ->
  1000 <= p / 1000 <= 1000000 /\ (q = RUNTIME_INF \/ q <> RUNTIME_INF /\ 1000 <= q / 1000 < 2 ^ 44 /\ 0 <= q < 2 ^ 63).
Proof.
  unfold valid_limits, NSEC_PER_MSEC, NSEC_PER_SEC. rewrite max_runtime. intros (Hp & Hq & Hm). split.
  - split; [apply Z.div_le_lower_bound|apply Z.div_le_upper_bound]; lia.
  - destruct (Z.eq_dec q RUNTIME_INF) as [|Hne]; [by left|right]. split; [done|]. destruct Hm as [|Hm]; [done|].
    split; [|lia]. split; [apply Z.div_le_lower_bound|apply Z.div_lt_upper_bound]; lia.
Qed.

Lemma get_period g : group_ok g -> tg_get_cfs_period g = period (bandwidth g) / 1000.
Proof.
  intros [Hv _]. destruct (valid_bounds _ _ Hv) as [Hp _]. unfold tg_get_cfs_period, NSEC_PER_USEC.
  destruct Hv as (Hp' & _). unfold NSEC_PER_MSEC, NSEC_PER_SEC in Hp'. rewrite u64_small, s64_small by lia. done.
Qed.
Lemma get_quota g : group_ok g ->
  tg_get_cfs_quota g = if limited g then quota (bandwidth g) / 1000 else -1.
Proof.
  intros [Hv _]. destruct (valid_bounds _ _ Hv) as [_ Hq]. unfold tg_get_cfs_quota, limited, NSEC_PER_USEC.
  destruct (Z.eqb_spec (quota (bandwidth g)) RUNTIME_INF); [done|]. cbn [negb]. rewrite s64_small; [done|lia].
Qed.

(** The text shown is parsed to the limits, down to whole microseconds. *)
Lemma parse_show g old : group_ok g ->
  cpu_period_quota_parse (cpu_max_show g) old =
  inr (whole (period (bandwidth g)), whole_quota (quota (bandwidth g))).
Proof.
  intros Hok. unfold cpu_max_show, cpu_period_quota_print. rewrite get_period, get_quota by done.
  destruct Hok as [Hv _]. destruct (valid_bounds _ _ Hv) as [Hp Hq]. unfold cpu_period_quota_parse.
  assert (forall w, short_word 20 w -> sscanf_tok (w +:+ " " +:+ show (period (bandwidth g) / 1000) +:+ newline)%string =
    (Some w, Some (period (bandwidth g) / 1000))) as Hs.
  { intros w Hw. apply scan_tok; [done|lia|done]. }
  unfold whole_quota, limited, whole, NSEC_PER_USEC in *.
  destruct (Z.eqb_spec (quota (bandwidth g)) RUNTIME_INF) as [E|Hne]; cbn [negb].
  - cbn [Z.ltb Z.compare]. rewrite Hs by apply max_short. rewrite scan_llu_word, E. cbn [from_option id String.eqb Ascii.eqb Bool.eqb].
    rewrite u64_small by lia. done.
  - rewrite (proj2 (Z.ltb_ge _ 0)) by lia. rewrite Hs by (apply show_short; lia).
    rewrite scan_llu by lia. cbn [from_option id]. rewrite !u64_small by lia. done.
Qed.

Lemma whole_valid p q : valid_limits p q -> valid_limits (whole p) (whole_quota q) /\
  ratio_of (whole p) (whole_quota q) = ratio_of p q.
Proof.
  intros Hv. pose proof (valid_bounds _ _ Hv) as [Hp Hq].
  unfold valid_limits, ratio_of, whole_quota, whole, NSEC_PER_MSEC, NSEC_PER_SEC, NSEC_PER_USEC in *.
  rewrite max_runtime in *. rewrite Z.div_mul by done. pose proof (Z.mul_div_le p 1000 ltac:(lia)).
  pose proof runtime_inf. destruct (Z.eqb_spec q RUNTIME_INF) as [E|Hne].
  - rewrite (proj2 (Z.eqb_eq q _)) by done. split; [|done]. lia.
  - pose proof (Z.mul_div_le q 1000 ltac:(lia)).
    rewrite (proj2 (Z.eqb_neq (q / 1000 * 1000) _)) by lia. rewrite Z.div_mul by done. split; [lia|done].
Qed.

(** Writing limits of the same share is accepted. *)
Lemma same_share_accepted s tg g p q : inv s -> tg ∈ task_groups s -> tg <> ROOT -> groups s !! tg = Some g ->
  valid_limits p q -> ratio_of p q = share g ->
  exists s', tg_set_cfs_bandwidth tg p q s = Some (0, s') /\ accepted s tg p q s'.
Proof.
  intros H Htg Hroot Hg Hv Hr. destruct (set_bandwidth_spec s tg p q H Htg) as (r & s' & E & Hres).
  destruct Hres as [(_ & _ & Hwhy)|(-> & _ & _ & Ha)]; [exfalso|by exists s'].
  destruct Hwhy as [?|[?|(Hd & t & Ht & (a & b & Hb & Hba & Ra & Rb & Hlt))]]; [done|done|].
  assert (forall x, proposed s tg p q x = ratio_at s x) as Hp.
  { intros x. unfold proposed. destruct (Z.eqb_spec x tg) as [->|]; [|done]. rewrite Hr. unfold ratio_at. by rewrite Hg. }
  rewrite !Hp in *. destruct (i_fit _ H Hd) as (e & He).
  enough (ratio_at s b <= ratio_at s a) by lia.
  eapply (nested_bound s t (ratio_at s) Ht); [intros x; by apply ratio_at_range|by eapply ratio_at_root| |done..].
  intros x Hx. apply He. by rewrite (g_ids _ _ Ht).
Qed.
Lemma accepted_group s tg p q s' : accepted s tg p q s' -> exists g g',
  groups s !! tg = Some g /\ groups s' !! tg = Some g' /\ bw_set p q g g'.
Proof.
  intros Ha. pose proof Ha as (s1 & g1 & g' & _ & _ & _ & E & _).
  assert (groups s' !! tg = Some g') as Hg' by (subst s'; cbn [set_used groups]; by rewrite put_lookup, decide_True).
  pose proof (accepted_lookup _ _ _ _ _ _ _ Ha Hg') as Hl. rewrite decide_True in Hl by done.
  destruct Hl as (g & Hg & Hb). by exists g, g'.
Qed.

(** ** Weights *)
Lemma weight_codec v : 1 <= v <= 10000 ->
  10 <= (v * 1024 + 50) / 100 <= 102400 /\ ((v * 1024 + 50) / 100 * 100 + 512) / 1024 = v.
Proof. intros Hv. Z.to_euclidean_division_equations. lia. Qed.

Lemma round_100 n : 0 <= n < 2 ^ 40 -> DIV_ROUND_CLOSEST_ULL n 100 = (n + 50) / 100.
Proof. intros Hn. apply div_round_closest_ull; [lia..|]. change (100 / 2) with 50. lia. Qed.
Lemma round_1024 n : 0 <= n < 2 ^ 40 -> DIV_ROUND_CLOSEST_ULL n 1024 = (n + 512) / 1024.
Proof. intros Hn. apply div_round_closest_ull; [lia..|]. change (1024 / 2) with 512. lia. Qed.

Lemma clamp_shares w : MIN_SHARES <= w <= MAX_SHARES ->
  Z.max (scale_load MIN_SHARES) (Z.min (scale_load MAX_SHARES) (scale_load w)) = scale_load w.
Proof.
  destruct share_bounds as [Hmin Hmax]. intros Hw.
  pose proof (scale_mono MIN_SHARES w). pose proof (scale_mono w MAX_SHARES). lia.
Qed.
Lemma write_read_shares s tg g w : groups s !! tg = Some g -> is_Some (tg_parent g) -> MIN_SHARES <= w <= MAX_SHARES ->
  exists s' g', write_shares tg (scale_load w) s = Some (0, s') /\ groups s' !! tg = Some g' /\
    scale_load_down (shares g') = w.
Proof.
  intros Hg Hp Hw. destruct (set_shares g (scale_load w)) as [_ Hs]. destruct (Hs Hp) as [H2 H1].
  unfold write_shares. rewrite Hg. cbn [mbind option_bind].
  destruct (sched_group_set_shares g (scale_load w)) as [g' r]. simpl in *. subst r.
  exists (put tg g' s), g'. split; [done|]. split; [by rewrite put_lookup, decide_True|].
  rewrite H1, clamp_shares by done. apply scale_down. destruct share_bounds. lia.
Qed.

(** The index the loop finds for each weight of the table. *)
Lemma closest_index : forallb (fun i => match SchedClass.sched_prio_to_weight !! i with
    | Some w => (closest SchedClass.sched_prio_to_weight w INT_MAX 0 =? Z.of_nat i + 1)%c && (15 <=? w)%c && (w <=? 88761)%c
    | None => false end)%bool (seq 0 40) = true.
Proof. vm_compute. reflexivity. Qed.
Lemma nice_codec n : -20 <= n <= 19 -> exists w, SchedClass.sched_prio_to_weight !! Z.to_nat (n + 20) = Some w /\
  15 <= w <= 88761 /\ closest SchedClass.sched_prio_to_weight w INT_MAX 0 = n + 21.
Proof.
  intros Hn. pose proof closest_index as Hc. rewrite forallb_forall in Hc.
  specialize (Hc (Z.to_nat (n + 20)) ltac:(apply in_seq; lia)).
  destruct (SchedClass.sched_prio_to_weight !! Z.to_nat (n + 20)) as [w|]; [|done]. exists w. split; [done|].
  apply andb_prop in Hc as [[H1%Z.eqb_eq H2%Z.leb_le]%andb_prop H3%Z.leb_le]. lia.
Qed.

(** ** The steps of a change, one by one *)
Definition some_enabled (s : sys) : Prop := exists x g i c, groups s !! x = Some g /\ i ∈ online_cpus /\
  cfs_rqs g !! i = Some c /\ runtime_enabled c = true.
(** A step that keeps the count, and enables nothing unless [en]. *)
Definition quiet (en : bool) (step : sys -> option sys) : Prop := forall s s', step s = Some s' ->
  bandwidth_used s' = bandwidth_used s /\ (en = false -> some_enabled s' -> some_enabled s).

Lemma quiet_put en tg g g' s s' : groups s !! tg = Some g -> s' = put tg g' s ->
  (en = false -> forall i c, cfs_rqs g' !! i = Some c -> runtime_enabled c = true ->
     exists c0, cfs_rqs g !! i = Some c0 /\ runtime_enabled c0 = true) ->
  bandwidth_used s' = bandwidth_used s /\ (en = false -> some_enabled s' -> some_enabled s).
Proof.
  intros Hg -> Hc. split; [done|]. intros He (x & gx & i & c & Hx & Hi & Hcx & Hen). rewrite put_lookup in Hx. case_decide.
  - injection Hx as <-. subst x. destruct (Hc He i c Hcx Hen) as (c0 & ? & ?). by exists tg, g, i, c0.
  - by exists x, gx, i, c.
Qed.
Lemma quiet_store en tg p q : quiet en (store_limits tg p q).
Proof.
  intros s s' H. unfold store_limits in H. apply bind_Some in H as (g & Hg & [= <-]).
  eapply quiet_put; [done|done|]. intros _ i c Hc Hen. by exists c.
Qed.
Lemma quiet_rq tg en i : quiet en (set_cfs_rq tg en i).
Proof.
  intros s s' H. unfold set_cfs_rq in H. apply bind_Some in H as (g & Hg & H). apply bind_Some in H as (c & Hc & H).
  assert (exists g' c', s' = put tg g' s /\ cfs_rqs g' = <[i := c']> (cfs_rqs g) /\ runtime_enabled c' = en)
    as (g' & c' & -> & Hr & He).
  { cbv zeta in H. cbn [throttled] in H. destruct (throttled c); [|by injection H as <-; eexists _, _].
    pose proof (unthrottle_rq (bandwidth g) (mk_cfs_rq en 0 true)) as (_ & He & _).
    destruct (unthrottle_cfs_rq (bandwidth g) (mk_cfs_rq en 0 true)) as [b c']. injection H as <-.
    eexists _, c'. split; [done|]. split; [done|]. exact He. }
  eapply quiet_put; [done|done|]. intros Hen j d. rewrite Hr, lookup_insert_Some.
  intros [[<- <-]|[_ Hd]] Hd'; [congruence|by exists d].
Qed.
Lemma quiet_run en l : Forall (quiet en) l -> quiet en (run_steps l).
Proof.
  induction 1 as [|st l Hst _ IH]; intros s s'; simpl; [by intros [= <-]|].
  intros (s1 & H1 & H2)%bind_Some. destruct (Hst _ _ H1) as [U1 E1], (IH _ _ H2) as [U2 E2].
  split; [congruence|auto].
Qed.
Lemma quiet_middle en tg p q : Forall (quiet en) (store_limits tg p q :: map (set_cfs_rq tg en) online_cpus).
Proof. constructor; [apply quiet_store|]. apply Forall_map, Forall_true. intros i. apply quiet_rq. Qed.

Lemma enabled_used s : store_ok s -> some_enabled s -> 0 < bandwidth_used s.
Proof.
  intros (H1 & _ & H3) (x & g & i & c & Hx & Hi & Hc & He). destruct (H1 _ _ Hx) as (_ & _ & Hl).
  pose proof (used_pos _ _ _ Hx (Hl _ _ Hi Hc He)). lia.
Qed.

Lemma schedulable_same s t tg p q : inv s -> grown s t -> tg <> ROOT -> valid_limits p q ->
  exists r s', __cfs_schedulable tg p q s = Some (r, s') /\ same s s'.
Proof.
  intros H Ht Hroot Hv. destruct cgroup_subsys_on_dfl eqn:Hd.
  - destruct (schedulable_dfl s t tg p q) as (s' & E & Hs & _); [done..|]. by exists 0, s'.
  - destruct (schedulable_legacy s t tg p q) as (r & s' & E & Hs & _); [done..|]. by exists r, s'.
Qed.
End Files.
