(* ===== verification/TaskGroupProps.v ===== *)
(** * Task groups: properties (src/Assignment_4/fifo/core.c)

    The interface of fair.c and sscanf instantiated, and the properties of the tree
    of groups, of the bandwidth limits and of the files. *)
From Stdlib Require Import ZArith Lia.
From stdpp Require Import gmap relations.
From S2P Require Import Prelude CLib SchedInfo SchedClass UClamp TaskGroup TaskGroupTree TaskGroupBw TaskGroupInv TaskGroupFiles.
Import TaskGroup.

Local Open Scope stdpp_scope.
Local Open Scope Z_scope.
Local Abbreviation EINVAL := SchedClass.EINVAL.

(** ** Linux 5.11 on two CPUs *)
Definition scan_word (buf : string) : option string * option Z :=
  match scan_s buf with
  | ScanVal w rest =>
      (Some (stake 20 w),
       match scan_lu (sdrop 20 w +:+ rest)%string with ScanVal n _ => Some n | _ => None end)
  | _ => (None, None)
  end.
Definition scan_number (s : string) : option Z :=
  match (span isdigit (skip_spaces s)).1 with EmptyString => None | ds => Some (digits_value 0 ds) end.

Definition linux_fair (dfl : bool) : fair_class := {|
  RUNTIME_INF := 2 ^ 64 - 1; BW_SHIFT := 20; BW_UNIT := 2 ^ 20; MAX_BW := 2 ^ 44 - 1;
  MIN_SHARES := 2; MAX_SHARES := 2 ^ 18; ROOT_TASK_GROUP_LOAD := 2 ^ 20;
  scale_load_down w := if (w =? 0)%c then 0 else Z.max 2 (Z.shiftr w 10);
  CGROUP_WEIGHT_MIN := 1; CGROUP_WEIGHT_DFL := 100; CGROUP_WEIGHT_MAX := 10000;
  possible_cpus := [0; 1]; online_cpus := [0; 1];
  init_cfs_bandwidth b := mk_bw (100 * NSEC_PER_MSEC) (2 ^ 64 - 1) (hierarchical_quota b) 0
    (nr_periods b) (nr_throttled b) (throttled_time b);
  init_tg_cfs_entry _ := mk_cfs_rq false 0 false;
  __refill_cfs_bandwidth_runtime b :=
    if (quota b =? 2 ^ 64 - 1)%c then b
    else mk_bw (period b) (quota b) (hierarchical_quota b) (quota b) (nr_periods b) (nr_throttled b) (throttled_time b);
  start_cfs_bandwidth b := b;
  unthrottle_cfs_rq b c := (b, mk_cfs_rq (runtime_enabled c) (runtime_remaining c) false);
  alloc_fair_sched_group g := mk_tg (tg_parent g) (children g) (2 ^ 20)
    (mk_bw (100 * NSEC_PER_MSEC) (2 ^ 64 - 1) (hierarchical_quota (bandwidth g)) 0
      (nr_periods (bandwidth g)) (nr_throttled (bandwidth g)) (throttled_time (bandwidth g)))
    {[0 := mk_cfs_rq false 0 false; 1 := mk_cfs_rq false 0 false]};
  sched_group_set_shares g w :=
    match tg_parent g with
    | None => (g, - EINVAL)
    | Some _ => (mk_tg (tg_parent g) (children g)
        (Z.max (Z.shiftl 2 10) (Z.min (Z.shiftl (2 ^ 18) 10) w)) (bandwidth g) (cfs_rqs g), 0)
    end;
  cgroup_subsys_on_dfl := dfl;
  sscanf_tok := scan_word; sscanf_llu := scan_number
|}.

(** *** The scanning directives on printed text *)
Lemma word_head w : w <> EmptyString -> no_space w = true -> forall rest, skip_spaces (w +:+ rest)%string = (w +:+ rest)%string.
Proof.
  destruct w as [|c w]; [done|]. simpl. intros _ [Hc _]%andb_prop rest. rewrite skip_spaces_cons.
  by apply negb_true_iff in Hc as ->.
Qed.
Lemma stake_short w : forall n, (String.length w <= n)%nat -> stake n w = w /\ sdrop n w = EmptyString.
Proof.
  induction w as [|c w IH]; intros n Hn; simpl in *; [by destruct n|]. destruct n as [|n]; [lia|].
  simpl. destruct (IH n) as [-> ->]; [lia|]. done.
Qed.
Lemma scan_s_word w rest : w <> EmptyString -> no_space w = true -> starts_with isspace rest = true ->
  scan_s (w +:+ rest)%string = ScanVal w rest.
Proof.
  intros Hw Hn Hr. unfold scan_s. rewrite word_head by done.
  assert (span (fun c => negb (isspace c)) (w +:+ rest)%string = (w, rest)) as E.
  { rewrite span_all; [done|by apply no_space_span|]. destruct rest as [|d rest]; [done|]. simpl in *. by rewrite Hr. }
  destruct w as [|c w]; [done|]. cbn [String.append] in E |- *. by rewrite E.
Qed.
Lemma scan_word_spec w rest : short_word 20 w -> starts_with isspace rest = true ->
  scan_word (w +:+ rest)%string = (Some w, match scan_lu rest with ScanVal n _ => Some n | _ => None end).
Proof.
  intros (Hw & Hn & Hl) Hr. unfold scan_word. rewrite scan_s_word by done.
  destruct (stake_short w 20) as [-> ->]; [unfold strlen in Hl; lia|]. done.
Qed.
Lemma scan_lu_space c s : isspace c = true -> scan_lu (String c s) = scan_lu s.
Proof. intros Hc. unfold scan_lu. rewrite skip_spaces_cons. by rewrite Hc. Qed.
Lemma scan_number_show n : 0 <= n -> scan_number (show n) = Some n.
Proof.
  intros Hn. unfold scan_number. destruct (show_u_spec n Hn) as (Hd & Hne & Hv).
  assert (show n = show_u n) as -> by (unfold show; by rewrite (proj2 (Z.ltb_ge n 0))).
  pose proof (word_head (show_u n) Hne ltac:(by apply digits_no_space) EmptyString) as E1.
  pose proof (span_all isdigit (show_u n) EmptyString ltac:(by apply all_digits_span) eq_refl) as E2.
  rewrite append_nil_r in E1, E2. rewrite E1, E2. cbn [fst]. destruct (show_u n); [done|by rewrite Hv].
Qed.

Lemma max_none : scan_number "max" = None.
Proof. reflexivity. Qed.

#[export] Instance linux_fair_ok dfl : fair_class_ok (h := linux) (linux_fair dfl).
Proof.
  split; simpl; try done.
  - intros w Hw. rewrite (proj2 (Z.eqb_neq _ 0)) by (rewrite Z.shiftl_mul_pow2; lia).
    rewrite Z.shiftl_mul_pow2, Z.shiftr_div_pow2, Z.div_mul by lia. lia.
  - intros v w Hv Hw. rewrite !Z.shiftl_mul_pow2 by lia. lia.
  - intros b. unfold same_limits. by destruct (_ =? _)%c.
  - intros g i Hi. repeat (apply elem_of_cons in Hi as [->|Hi]); [done..|]. by apply elem_of_nil in Hi.
  - intros g i c [[_ <-]|[_ [_ <-]%lookup_singleton_Some]]%lookup_insert_Some; done.
  - intros g w. destruct (tg_parent g) eqn:E; simpl.
    + split; [eexists; done|]. intros _. done.
    + split; [|by intros []]. exists (shares g). rewrite <- E. by destruct g.
  - intros w n rest Hw Hn Hr. rewrite scan_word_spec by done. rewrite scan_lu_space by done.
    rewrite scan_lu_show; [done| |done]. unfold ULONG_MAX. lia.
  - intros w Hw. by rewrite scan_word_spec by done.
  - intros n Hn. apply scan_number_show. lia.
Qed.

Section Properties.
Context {h : headers} {hok : headers_ok h} {f : fair_class} {fok : fair_class_ok f}.
Context {cfg : uclamp_config} {cfgok : uclamp_config_ok cfg}.

(** ** The tree *)

(** No request of the cgroup core or of a file ever reaches a group that was
    freed: from every reachable store each request allowed there is answered, and
    afterwards each group online is allocated, its children are online, and so is
    its parent unless it is the root. *)
Theorem groups_never_dangle s e : reachable s -> allowed s e = true ->
  exists r s', exec e s = Some (r, s') /\
    forall x, x ∈ task_groups s' -> exists g, groups s' !! x = Some g /\
      (forall c, c ∈ children g -> c ∈ task_groups s') /\
      (x = ROOT \/ exists y, tg_parent g = Some y /\ y ∈ task_groups s').
Proof.
  intros Hs Ha. destruct (exec_inv s e (reachable_inv s Hs) Ha) as (r & s' & E & Hi).
  exists r, s'. split; [done|]. intros x Hx. destruct (i_tree _ Hi) as (t & Ht).
  destruct (grown_lookup _ _ _ Ht Hx) as (g & Hg & Hc & Hp). exists g. split; [done|]. split; [done|].
  destruct Hp as [[-> _]|(y & gy & Hy & Hyo & _)]; [by left|right; by exists y].
Qed.

(** C25: The walk over the groups, written with two gotos and parent pointers,
    ends, and is the recursive traversal of the tree: down on entering a group, then
    its children, up on leaving it, stopping at the first result other than 0.  The
    tree has the links of the store and each group online exactly once. *)
Theorem walk_visits_tree s down up : reachable s -> keeps_links down -> keeps_links up ->
  exists t, tag t = ROOT /\ shape (links s) None t /\ NoDup (ids t) /\ ids t ≡ₚ task_groups s /\
    walk_tg_tree down up s = visit down up t s.
Proof.
  intros Hs Hd Hu. destruct (i_tree _ (reachable_inv s Hs)) as (t & Ht). exists t.
  pose proof Ht as [H1 H2 H3 H4]. split_and!; [done..|]. by apply grown_walk.
Qed.

(** ** The limits *)

(** C21: On a cgroup-1 hierarchy no group is ever promised more CPU than one of its
    ancestors: after any history the share (quota by period) of a limited group
    online is at most that of every limited group above it. *)
Theorem limits_nested s a b ga gb : reachable s -> cgroup_subsys_on_dfl = false ->
  b ∈ task_groups s -> tc (par s) b a -> groups s !! a = Some ga -> groups s !! b = Some gb ->
  limited ga = true -> limited gb = true -> share gb <= share ga.
Proof.
  intros Hs Hd Hb Hba Hga Hgb Hla Hlb. pose proof (reachable_inv s Hs) as H.
  destruct (i_tree _ H) as (t & Ht). destruct (i_fit _ H Hd) as (e & He).
  assert (forall x g, groups s !! x = Some g -> limited g = true -> ratio_at s x = share g /\ share g <> -1) as Hr.
  { intros x g Hg Hl. unfold ratio_at. rewrite Hg. split; [done|]. intros Hx%limited_ratio; [congruence|].
    by eapply i_groups. }
  destruct (Hr _ _ Hga Hla) as [Ea Ha], (Hr _ _ Hgb Hlb) as [Eb Hb']. rewrite <- Ea, <- Eb.
  eapply (nested_bound s t (ratio_at s) Ht); [intros x; by apply ratio_at_range|by eapply ratio_at_root| | | | |].
  - intros x Hx. apply He. by rewrite (g_ids _ _ Ht).
  - by rewrite <- (g_ids _ _ Ht).
  - done.
  - by rewrite Ea.
  - by rewrite Eb.
Qed.

(** The new limits fit: no group would be promised more than one above it. *)
Definition fits (s : sys) (tg p q : Z) : Prop := forall a b, b ∈ task_groups s -> tc (par s) b a ->
  proposed s tg p q a <> -1 -> proposed s tg p q b <> -1 -> proposed s tg p q b <= proposed s tg p q a.

(** C31: A write of period and quota is accepted exactly when the group is not the
    root, the values are in range and, on a cgroup-1 hierarchy, the limits of all
    groups fit below each other with the new one; the walk decides this although it
    compares each group with its parent only.  Otherwise the answer is -EINVAL and no
    limit changes; when it is accepted the group and its run queues on the CPUs
    online have the new limit and all other groups keep theirs. *)
Theorem bandwidth_request s tg p q : reachable s -> tg ∈ task_groups s ->
  exists r s', tg_set_cfs_bandwidth tg p q s = Some (r, s') /\ (r = 0 \/ r = - EINVAL) /\
    (r = 0 <-> tg <> ROOT /\ valid_limits p q /\ (cgroup_subsys_on_dfl = true \/ fits s tg p q)) /\
    (r <> 0 -> same s s') /\
    (r = 0 -> forall x g', groups s' !! x = Some g' -> exists g, groups s !! x = Some g /\
       if decide (x = tg) then bw_set p q g g' else strip g = strip g').
Proof.
  intros Hs Htg. pose proof (reachable_inv s Hs) as H.
  destruct (set_bandwidth_spec s tg p q H Htg) as (r & s' & E & Hr). exists r, s'. split; [done|].
  destruct Hr as [(-> & Hsame & Hwhy)|(-> & Hroot & Hv & Ha)].
  - split; [by right|]. split; [|split; [done|intros ?; done]]. split; [done|].
    intros (Hroot & Hv & Hfit). exfalso.
    destruct Hwhy as [?|[?|(Hd & t & Ht & (a & b & Hb & Hba & Ra & Rb & Hlt))]]; [done|done|].
    destruct Hfit as [?|Hfit]; [congruence|]. rewrite <- (g_ids _ _ Ht) in Hb. specialize (Hfit a b Hb Hba Ra Rb). lia.
  - split; [by left|]. split; [|split; [done|]].
    + split; [|done]. intros _. split; [done|]. split; [done|]. destruct cgroup_subsys_on_dfl eqn:Hd; [by left|right].
      destruct (i_tree _ H) as (t & Ht). destruct Ha as (s1 & g & g' & _ & _ & _ & _ & He & _).
      destruct (He Hd) as (e & He'). intros a b Hb Hba Ra Rb.
      eapply (nested_bound s t (proposed s tg p q) Ht); [intros x; by apply proposed_range|by eapply proposed_root| | |done..].
      * intros x Hx. apply He'. by rewrite (g_ids _ _ Ht).
      * by rewrite <- (g_ids _ _ Ht).
    + intros _ x g' Hx. pose proof (accepted_lookup _ _ _ _ _ _ _ Ha Hx) as Hl. case_decide; [subst x|]; exact Hl.
Qed.

(** On the default hierarchy (cgroup 2) the cached hierarchical quota of every
    group is -1, "unlimited", after each accepted write, whatever limits are set:
    RUNTIME_INF is stored in a signed field, so the minimum the comment asks for is
    always the root's -1. *)
Theorem hierarchical_quota_unlimited s tg p q s' x g : reachable s -> tg ∈ task_groups s ->
  cgroup_subsys_on_dfl = true -> tg_set_cfs_bandwidth tg p q s = Some (0, s') ->
  x ∈ task_groups s' -> groups s' !! x = Some g -> hierarchical_quota (bandwidth g) = -1.
Proof.
  intros Hs Htg Hd E Hx Hg. pose proof (reachable_inv s Hs) as H.
  destruct (set_bandwidth_spec s tg p q H Htg) as (r & s2 & E2 & Hr). rewrite E in E2. injection E2 as <- <-.
  destruct Hr as [(? & _)|(_ & _ & _ & Ha)]; [done|]. destruct (accepted_links _ _ _ _ _ Ha) as [_ Ht].
  rewrite Ht in Hx. destruct Ha as (s1 & g1 & g2 & _ & Hg1 & [_ Hh] & -> & _ & Hq). specialize (Hq Hd).
  cbn [set_used groups] in Hg. rewrite put_lookup in Hg. case_decide.
  - injection Hg as <-. rewrite Hh. subst x. specialize (Hq tg Htg). unfold hq in Hq. by rewrite Hg1 in Hq.
  - specialize (Hq x Hx). unfold hq in Hq. by rewrite Hg in Hq.
Qed.

(** The switch behind cfs_bandwidth_used() is on whenever it is needed: at
    every intermediate point of a change of the limits, as another CPU can see it,
    the count is positive if any run queue of a CPU online is limited. *)
Theorem bandwidth_switch s tg p q s0 g k s1 : reachable s -> tg ∈ task_groups s -> tg <> ROOT ->
  valid_limits p q -> __cfs_schedulable tg p q s = Some (0, s0) -> groups s0 !! tg = Some g ->
  run_steps (take k (set_steps tg p q (limited g))) s0 = Some s1 ->
  some_enabled s1 -> 0 < bandwidth_used s1.
Proof.
  intros Hs Htg Hroot Hv E Hg Hk Hen. pose proof (reachable_inv s Hs) as H. destruct (i_tree _ H) as (t & Ht).
  destruct (schedulable_same s t tg p q H Ht Hroot Hv) as (r & s0' & E' & Hsame).
  rewrite E in E'. injection E' as <- <-. pose proof (inv_store _ (inv_same _ _ H Hsame)) as H0.
  pose proof H0 as (Hok & _ & Hu). pose proof (quiet_middle (negb (q =? RUNTIME_INF)%c) tg p q) as Hq.
  assert (limited g = true -> 1 <= bandwidth_used s0) as Hwas by (intros Hl; pose proof (used_pos _ _ _ Hg Hl); lia).
  destruct (decide (k < length (set_steps tg p q (limited g)))%nat) as [Hlt|Hge].
  2: { rewrite take_ge in Hk by lia. destruct (Hok _ _ Hg) as (_ & Hrq & _).
       destruct (run_set_steps tg p q s0 g Hg) as (g' & E2 & Hb & _); [unfold valid_limits, NSEC_PER_MSEC, NSEC_PER_SEC in *; lia|done|].
       rewrite Hk in E2. injection E2 as ->. apply enabled_used; [|done].
       apply store_set with p q; [done..| |done]. eapply online_parent; [by eapply inv_same| |done|done].
       injection Hsame as _ -> _. done. }
  unfold set_steps in Hk, Hlt. destruct (negb (q =? RUNTIME_INF)%c), (limited g); cbn [andb negb app] in Hk, Hlt;
    rewrite ?app_nil_r in Hk, Hlt.
  - destruct (quiet_run _ _ (Forall_take _ k _ Hq) _ _ Hk) as [Eu _]. specialize (Hwas eq_refl). lia.
  - destruct k as [|k]; [injection Hk as <-; by apply enabled_used|]. cbn [take] in Hk. rewrite run_inc in Hk.
    destruct (quiet_run _ _ (Forall_take _ k _ Hq) _ _ Hk) as [Eu _]. cbn [set_used bandwidth_used] in Eu.
    pose proof (used_nonneg (groups s0)). lia.
  - assert (take k (store_limits tg p q :: map (set_cfs_rq tg false) online_cpus ++ [cfs_bandwidth_usage_dec]) =
      take k (store_limits tg p q :: map (set_cfs_rq tg false) online_cpus)) as Ek.
    { rewrite app_comm_cons, take_app_le; [done|]. cbn [length] in *. rewrite length_app in Hlt. simpl in Hlt |- *. lia. }
    rewrite Ek in Hk.
    destruct (quiet_run _ _ (Forall_take _ k _ Hq) _ _ Hk) as [Eu _]. specialize (Hwas eq_refl). lia.
  - destruct (quiet_run _ _ (Forall_take _ k _ Hq) _ _ Hk) as [Eu He]. rewrite Eu. apply enabled_used; [done|by apply He].
Qed.

(** ** The files *)

(** What is written to the limit files is what they show: an accepted number of
    microseconds is read back from cpu.cfs_quota_us (-1 for any negative one) and
    from cpu.cfs_period_us, and the line cpu.max shows is accepted when it is written
    back and leaves the line as it is. *)
Theorem limits_read_back s tg g : reachable s -> tg ∈ task_groups s -> tg <> ROOT -> groups s !! tg = Some g ->
  (forall v s' g', - 2 ^ 63 <= v < 2 ^ 63 -> cpu_cfs_quota_write_s64 tg v s = Some (0, s') ->
     groups s' !! tg = Some g' -> cpu_cfs_quota_read_s64 g' = if (v <? 0)%c then -1 else v) /\
  (forall v s' g', 0 <= v < 2 ^ 64 -> cpu_cfs_period_write_u64 tg v s = Some (0, s') ->
     groups s' !! tg = Some g' -> cpu_cfs_period_read_u64 g' = v) /\
  (exists s' g', cpu_max_write tg (cpu_max_show g) s = Some (strlen (cpu_max_show g), s') /\
     groups s' !! tg = Some g' /\ cpu_max_show g' = cpu_max_show g).
Proof.
  intros Hs Htg Hroot Hg. pose proof (reachable_inv s Hs) as H.
  assert (forall p q s' g', tg_set_cfs_bandwidth tg p q s = Some (0, s') -> groups s' !! tg = Some g' ->
    valid_limits p q /\ inv s' /\ period (bandwidth g') = p /\ quota (bandwidth g') = q) as Hset.
  { intros p q s' g' E Hg'. destruct (set_bandwidth_spec s tg p q H Htg) as (r & s2 & E2 & Hr).
    rewrite E in E2. injection E2 as <- <-. destruct Hr as [(? & _)|(_ & _ & Hv & Ha)]; [done|]. split; [done|].
    split; [by eapply accepted_inv|]. destruct (accepted_group _ _ _ _ _ Ha) as (g0 & g1 & _ & Hg1 & Hb).
    rewrite Hg' in Hg1. injection Hg1 as <-. unfold bw_set in Hb. tauto. }
  split_and!.
  - intros v s' g' Hv E Hg'. unfold cpu_cfs_quota_write_s64, tg_set_cfs_quota in E. rewrite Hg in E.
    cbn [mbind option_bind] in E. unfold cpu_cfs_quota_read_s64, tg_get_cfs_quota.
    destruct (Z.ltb_spec v 0) as [Hneg|Hpos].
    + destruct (Hset _ _ _ _ E Hg') as (_ & _ & _ & ->). by rewrite Z.eqb_refl.
    + rewrite (u64_small v) in E by lia.
      destruct (Z.leb_spec v (ULONG_MAX / NSEC_PER_USEC)) as [Hle|]; [|discriminate E].
      destruct (Hset _ _ _ _ E Hg') as ((_ & _ & Hm) & _ & _ & ->). rewrite runtime_inf, max_runtime in *.
      change (ULONG_MAX / NSEC_PER_USEC) with 18446744073709551 in Hle. unfold NSEC_PER_USEC in *.
      rewrite (u64_small (v * 1000)) by lia. rewrite (proj2 (Z.eqb_neq (v * 1000) _)) by lia.
      rewrite Z.div_mul by done. apply s64_small. lia.
  - intros v s' g' Hv E Hg'. unfold cpu_cfs_period_write_u64, tg_set_cfs_period in E.
    assert (u64 (s64 v) = v) as Hw.
    { unfold u64, s64. rewrite Zminus_mod_idemp_l. replace (v + 2 ^ 63 - 2 ^ 63) with v by lia. apply Z.mod_small. lia. }
    rewrite Hw in E. destruct (Z.ltb_spec (ULONG_MAX / NSEC_PER_USEC) v) as [|Hle]; [discriminate E|].
    rewrite Hg in E. cbn [mbind option_bind] in E. destruct (Hset _ _ _ _ E Hg') as ((Hp & _) & Hi & Ep & _).
    change (ULONG_MAX / NSEC_PER_USEC) with 18446744073709551 in Hle.
    unfold cpu_cfs_period_read_u64. rewrite get_period by by eapply i_groups. rewrite Ep.
    unfold NSEC_PER_USEC, NSEC_PER_SEC in *. rewrite (u64_small (v * 1000)) by lia. rewrite Z.div_mul by done. apply u64_small. lia.
  - pose proof (i_groups _ H _ _ Hg) as Hok. destruct (whole_valid _ _ (proj1 Hok)) as [Hv Hr].
    destruct (same_share_accepted s tg g _ _ H Htg Hroot Hg Hv Hr) as (s' & E & Ha).
    destruct (accepted_group _ _ _ _ _ Ha) as (g0 & g' & _ & Hg' & Hb).
    exists s', g'. split; [|split; [done|]].
    + unfold cpu_max_write. rewrite Hg. cbn [mbind option_bind]. rewrite parse_show by done. rewrite E. done.
    + destruct (Hset _ _ _ _ E Hg') as (_ & Hi & Ep & Eq). pose proof (i_groups _ Hi _ _ Hg') as Hok'.
      unfold cpu_max_show. rewrite !get_period, !get_quota, Ep by done. unfold limited. rewrite Eq.
      unfold whole_quota, whole, NSEC_PER_USEC. rewrite Z.div_mul by done.
      destruct (Z.eqb_spec (quota (bandwidth g)) RUNTIME_INF) as [Ei|Hne]; [by rewrite (proj2 (Z.eqb_eq _ _) Ei)|].
      destruct (valid_bounds _ _ (proj1 Hok)) as [_ [?|Hb']]; [done|].
      rewrite (proj2 (Z.eqb_neq (quota (bandwidth g) / 1000 * 1000) _)) by (rewrite runtime_inf; lia).
      by rewrite Z.div_mul.
Qed.

(** The weight files keep what is written over their whole range, as the comment
    in cpu_weight_write_u64 promises: cpu.weight from 1 to 10000, cpu.weight.nice
    from -20 to 19, cpu.shares from 2 to 2^18. *)
Theorem weights_read_back s tg v : reachable s -> tg ∈ task_groups s -> tg <> ROOT ->
  (CGROUP_WEIGHT_MIN <= v <= CGROUP_WEIGHT_MAX -> exists s' g', cpu_weight_write_u64 tg v s = Some (0, s') /\
     groups s' !! tg = Some g' /\ cpu_weight_read_u64 g' = v) /\
  (MIN_NICE <= v <= MAX_NICE -> exists s' g', cpu_weight_nice_write_s64 tg v s = Some (0, s') /\
     groups s' !! tg = Some g' /\ cpu_weight_nice_read_s64 g' = v) /\
  (MIN_SHARES <= v <= MAX_SHARES -> exists s' g', cpu_shares_write_u64 tg v s = Some (0, s') /\
     groups s' !! tg = Some g' /\ cpu_shares_read_u64 g' = v).
Proof.
  intros Hs Htg Hroot. pose proof (reachable_inv s Hs) as H. destruct (i_tree _ H) as (t & Ht).
  destruct (grown_lookup _ _ _ Ht Htg) as (g & Hg & _). pose proof (online_parent _ _ _ H Htg Hroot Hg) as Hp.
  pose proof (fun w => write_read_shares s tg g w Hg Hp) as Hw. destruct share_bounds as [Hmin Hmax].
  split_and!; intros Hv.
  - destruct weight_bounds as (H1 & H2 & H3). rewrite H1, H3 in Hv. destruct (weight_codec v Hv) as [Hb Hc].
    unfold cpu_weight_write_u64. rewrite H1, H2, H3, (proj2 (Z.ltb_ge v 1)), (proj2 (Z.ltb_ge 10000 v)) by lia. cbn [orb].
    rewrite (u64_small (v * 1024)), round_100 by lia.
    destruct (Hw ((v * 1024 + 50) / 100)) as (s' & g' & E & Hg' & Hr); [lia|]. exists s', g'. split; [done|]. split; [done|].
    unfold cpu_weight_read_u64. rewrite Hr, H2, u64_small, round_1024 by lia. exact Hc.
  - destruct nice_values as (H1 & H2 & _), prio_values as (_ & H3 & _). rewrite H1, H2 in Hv.
    destruct (nice_codec v Hv) as (w & Elk & Hwb & Hc).
    unfold cpu_weight_nice_write_s64. rewrite H1, H2, (proj2 (Z.ltb_ge v _)), (proj2 (Z.ltb_ge _ v)) by lia. cbn [orb].
    rewrite nice_prio, H3. replace (v + 120 - 100) with (v + 20) by lia. rewrite Elk. cbn [mbind option_bind].
    destruct (Hw w) as (s' & g' & E & Hg' & Hr); [lia|]. exists s', g'. split; [done|]. split; [done|].
    unfold cpu_weight_nice_read_s64. rewrite Hr, Hc, prio_nice, H3. lia.
  - unfold cpu_shares_write_u64. pose proof scale_down_max as Hd. rewrite (proj2 (Z.ltb_ge _ v)) by lia.
    destruct (Hw v Hv) as (s' & g' & E & Hg' & Hr). by exists s', g'.
Qed.
End Properties.

(** ** Concrete histories *)
Lemma exec_all_steps {h : headers} {f : fair_class} {cfg : uclamp_config} es : forall s rs s',
  exec_all s es = Some (rs, s') -> steps step s s'.
Proof.
  induction es as [|e es IH]; intros s rs s' H; simpl in H; [injection H as _ <-; apply steps_refl|].
  destruct (allowed s e) eqn:Ha; [|done]. apply bind_Some in H as ([r s1] & E & H).
  apply bind_Some in H as ([rs1 s2] & E2 & [= _ <-]).
  eapply steps_trans; [apply steps_one; by exists e, r|by eapply IH].
Qed.

#[local] Existing Instance linux.
#[local] Existing Instance five_buckets.
Definition plenty : memory := mk_memory true true true.
(** A group of half a CPU, and one of a fifth below it. *)
Definition two_groups : list event :=
  [Alloc 0 1 plenty; Online 1 0; Alloc 1 2 plenty; Online 2 1; Cfs_quota_us 1 50000; Cfs_quota_us 2 20000].
Definition demo (dfl : bool) : sys :=
  match exec_all (f := linux_fair dfl) (sched_init_groups (f := linux_fair dfl)) two_groups with
  | Some (_, s) => s
  | None => sched_init_groups (f := linux_fair dfl)
  end.
Definition the (s : sys) (x : Z) : task_group := default zero_tg (groups s !! x).

Example two_groups_answers : fst <$> exec_all (f := linux_fair false) (sched_init_groups (f := linux_fair false)) two_groups =
  Some [1; 0; 2; 0; 0; 0].
Proof. vm_compute. reflexivity. Qed.
Lemma demo_reachable dfl : reachable (f := linux_fair dfl) (demo dfl).
Proof.
  unfold reachable, demo. destruct (exec_all _ two_groups) as [[rs s]|] eqn:E; [|apply steps_refl].
  by eapply exec_all_steps.
Qed.
Lemma demo_online dfl : 1 ∈ task_groups (demo dfl) /\ 2 ∈ task_groups (demo dfl).
Proof. destruct dfl; vm_compute; split; repeat constructor. Qed.

Lemma groups_never_dangle_witness : exists r s', exec (f := linux_fair false) (Released 2) (demo false) = Some (r, s') /\
  forall x, x ∈ task_groups s' -> is_Some (groups s' !! x).
Proof.
  destruct (groups_never_dangle (f := linux_fair false) (demo false) (Released 2)) as (r & s' & E & H).
  - apply demo_reachable.
  - vm_compute. reflexivity.
  - exists r, s'. split; [exact E|]. intros x Hx. destruct (H x Hx) as (g & Hg & _). rewrite Hg. by eexists.
Defined.

Lemma walk_visits_tree_witness : exists t, tag t = ROOT /\ ids t ≡ₚ task_groups (demo false) /\
  walk_tg_tree tg_nop tg_nop (demo false) = visit tg_nop tg_nop t (demo false).
Proof.
  destruct (walk_visits_tree (f := linux_fair false) (demo false) tg_nop tg_nop) as (t & H1 & _ & _ & H4 & H5).
  - apply demo_reachable.
  - apply nop_links.
  - apply nop_links.
  - exists t. split; [exact H1|]. split; [exact H4|exact H5].
Defined.

Lemma limits_nested_witness : share (f := linux_fair false) (the (demo false) 2) = 209715 /\
  share (f := linux_fair false) (the (demo false) 2) <= share (f := linux_fair false) (the (demo false) 1).
Proof.
  split; [vm_compute; reflexivity|].
  apply (limits_nested (f := linux_fair false) (demo false) 1 2).
  - apply demo_reachable.
  - reflexivity.
  - apply demo_online.
  - apply tc_once. apply par_parent. exists (the (demo false) 2). split; vm_compute; reflexivity.
  - vm_compute. reflexivity.
  - vm_compute. reflexivity.
  - vm_compute. reflexivity.
  - vm_compute. reflexivity.
Defined.

(** Sixty percent below a group of fifty are refused. *)
Lemma bandwidth_request_witness : exists s',
  tg_set_cfs_bandwidth (f := linux_fair false) 2 100000000 60000000 (demo false) = Some (- EINVAL, s') /\
  same (demo false) s'.
Proof.
  destruct (bandwidth_request (f := linux_fair false) (demo false) 2 100000000 60000000) as (r & s' & E & _ & _ & Hs & _).
  - apply demo_reachable.
  - apply demo_online.
  - assert (fst <$> tg_set_cfs_bandwidth (f := linux_fair false) 2 100000000 60000000 (demo false) = Some (- EINVAL)) as Er
      by (vm_compute; reflexivity).
    rewrite E in Er. injection Er as Er. exists s'. split; [by rewrite E, Er|]. apply Hs. by rewrite Er.
Defined.

(** A whole CPU below half a CPU on the default hierarchy: accepted, and the cached
    limit of the group is none. *)
Lemma hierarchical_quota_unlimited_witness : exists s',
  tg_set_cfs_bandwidth (f := linux_fair true) 2 100000000 100000000 (demo true) = Some (0, s') /\
  hierarchical_quota (bandwidth (the s' 2)) = -1.
Proof.
  destruct (tg_set_cfs_bandwidth (f := linux_fair true) 2 100000000 100000000 (demo true)) as [[r s']|] eqn:E;
    [|vm_compute in E; discriminate E].
  assert (r = 0) as -> by (apply (f_equal (fmap fst)) in E; vm_compute in E; by injection E as <-).
  exists s'. split; [done|].
  apply (hierarchical_quota_unlimited (f := linux_fair true) (demo true) 2 100000000 100000000 s' 2).
  - apply demo_reachable.
  - apply demo_online.
  - reflexivity.
  - exact E.
  - vm_compute in E. injection E as <-. vm_compute. repeat constructor.
  - vm_compute in E. injection E as <-. vm_compute. reflexivity.
Defined.

(** Lifting the limit of group 1: its queue on CPU 1 is still limited when the one on
    CPU 0 no longer is, and the switch is still on. *)
Definition after_check : sys :=
  match __cfs_schedulable (f := linux_fair false) 2 100000000 (2 ^ 64 - 1) (demo false) with Some (_, s) => s | None => demo false end.
Lemma bandwidth_switch_witness : exists s1,
  run_steps (take 2 (set_steps (f := linux_fair false) 2 100000000 (2 ^ 64 - 1) true)) after_check = Some s1 /\
  0 < bandwidth_used s1.
Proof.
  destruct (run_steps (take 2 (set_steps (f := linux_fair false) 2 100000000 (2 ^ 64 - 1) true)) after_check) as [s1|] eqn:E;
    [|vm_compute in E; discriminate E].
  exists s1. split; [done|].
  apply (bandwidth_switch (f := linux_fair false) (demo false) 2 100000000 (2 ^ 64 - 1) after_check (the after_check 2) 2 s1).
  - apply demo_reachable.
  - apply demo_online.
  - done.
  - split; [vm_compute; split; discriminate|]. split; [vm_compute; discriminate|left; vm_compute; reflexivity].
  - vm_compute. reflexivity.
  - vm_compute. reflexivity.
  - exact E.
  - vm_compute in E. injection E as <-. exists 2. eexists. exists 1. eexists. split; [vm_compute; reflexivity|].
    split; [vm_compute; right; left|]. split; vm_compute; reflexivity.
Defined.

Lemma limits_read_back_witness : exists s', cpu_max_write (f := linux_fair false) 2 (cpu_max_show (f := linux_fair false) (the (demo false) 2)) (demo false) = Some (13, s') /\
  cpu_max_show (f := linux_fair false) (the s' 2) = ("20000 100000" +:+ newline)%string.
Proof.
  destruct (limits_read_back (f := linux_fair false) (demo false) 2 (the (demo false) 2)) as (_ & _ & (s' & g' & E & Hg & H)).
  - apply demo_reachable.
  - apply demo_online.
  - done.
  - vm_compute. reflexivity.
  - exists s'. split; [exact E|]. unfold the. rewrite Hg. exact H.
Defined.

Lemma weights_read_back_witness : exists s' g', cpu_weight_write_u64 (f := linux_fair false) 2 333 (demo false) = Some (0, s') /\
  groups s' !! 2 = Some g' /\ cpu_weight_read_u64 (f := linux_fair false) g' = 333.
Proof.
  destruct (weights_read_back (f := linux_fair false) (demo false) 2 333) as (H & _ & _).
  - apply demo_reachable.
  - apply demo_online.
  - done.
  - apply H. vm_compute. split; discriminate.
Defined.

(** cpu.max multiplies without the check the other files have: a period of 585 years
    is taken for one of a millisecond, which cpu.cfs_period_us refuses. *)
Example cpu_max_wraps :
  (fun '(r, s) => (r, period (bandwidth (the s 1)))) <$>
    cpu_max_write (f := linux_fair false) 1 "max 18446744073710552" (demo false) = Some (21, 1000384) /\
  fst <$> cpu_cfs_period_write_u64 (f := linux_fair false) 1 18446744073710552 (demo false) = Some (- EINVAL).
Proof. vm_compute. split; reflexivity. Qed.
