(* ===== verification/Affinity.v ===== *)
(** * Changing the CPUs of a task (src/Assignment_4/fifo/core.c)

    __set_cpus_allowed_ptr and affine_move_task against one task [p] that runs,
    sleeps, wakes up, is moved and disables its own migration: any number of callers,
    the stopper of every CPU with migration_cpu_stop, and the task in
    migrate_enable.  A section under p->pi_lock and the lock of the run queue is one
    step; what a function does after releasing them is another.  The CPUs in [active]
    are online and active, the others neither, and it stays so.  The stopper threads
    and completions are not under src/: the steps rely on a queued work being run once,
    by the stopper of its CPU, and on a completion staying complete after complete_all.
    The CPU that cpumask_any_distribute, the class or the balancer picks, and the order
    of the steps, are the event's.  What the rest of the scheduler does to the
    task (switch, wake-up, load balancing) is a step with the guards it keeps.
    [set_affinity_pending] lives on the stack of the caller that installed it, so a
    pending request is named by its owner, and it is gone when the owner returns. *)
From Stdlib Require Import ZArith Lia.
From stdpp Require Import gmap.
From S2P Require Import Prelude SchedInfo SchedClass.

Local Open Scope Z_scope.

Module Affinity.
Local Abbreviation EINVAL := SchedClass.EINVAL.
Local Abbreviation EBUSY := SchedClass.EBUSY.
Abbreviation cpumask := (gset Z).

(** ** State *)
(** [Queued]: on the run queue and not current; [Waking]: on a wake list, on its way
    to the run queue of its CPU. *)
Inductive cpu_state := Running | Queued | Waking | Sleeping.
#[export] Instance cpu_state_eq_dec : EqDecision cpu_state.
Proof. solve_decision. Defined.

(** Where the task is in migrate_enable, after the locked section. *)
Inductive enable_pc := E_stop (cpu : Z) (pending : Z) | E_complete (pending : Z) | E_clear.

(** [pinned]: cpus_ptr points to cpumask_of of that CPU, otherwise to cpus_mask.
    [migration_pending] names the owner of the request. *)
Record task := mk_task {
  task_cpu : Z; state : cpu_state; migration_disabled : Z; cpus_mask : cpumask; pinned : option Z;
  migration_pending : option Z; mdf_push : bool; wake_cpu : Z; enabling : option enable_pc
}.
Definition set_cpu (p : task) v := mk_task v (state p) (migration_disabled p) (cpus_mask p) (pinned p) (migration_pending p) (mdf_push p) (wake_cpu p) (enabling p).
Definition set_state (p : task) v := mk_task (task_cpu p) v (migration_disabled p) (cpus_mask p) (pinned p) (migration_pending p) (mdf_push p) (wake_cpu p) (enabling p).
Definition set_disabled (p : task) v := mk_task (task_cpu p) (state p) v (cpus_mask p) (pinned p) (migration_pending p) (mdf_push p) (wake_cpu p) (enabling p).
Definition set_mask (p : task) v := mk_task (task_cpu p) (state p) (migration_disabled p) v (pinned p) (migration_pending p) (mdf_push p) (wake_cpu p) (enabling p).
Definition set_pinned (p : task) v := mk_task (task_cpu p) (state p) (migration_disabled p) (cpus_mask p) v (migration_pending p) (mdf_push p) (wake_cpu p) (enabling p).
Definition set_pending (p : task) v := mk_task (task_cpu p) (state p) (migration_disabled p) (cpus_mask p) (pinned p) v (mdf_push p) (wake_cpu p) (enabling p).
Definition set_push (p : task) v := mk_task (task_cpu p) (state p) (migration_disabled p) (cpus_mask p) (pinned p) (migration_pending p) v (wake_cpu p) (enabling p).
Definition set_wake (p : task) v := mk_task (task_cpu p) (state p) (migration_disabled p) (cpus_mask p) (pinned p) (migration_pending p) (mdf_push p) v (enabling p).
Definition set_enabling (p : task) v := mk_task (task_cpu p) (state p) (migration_disabled p) (cpus_mask p) (pinned p) (migration_pending p) (mdf_push p) (wake_cpu p) v.

Definition cpus_ptr (p : task) : cpumask := match pinned p with Some c => {[c]} | None => cpus_mask p end.
Definition is_migration_disabled (p : task) : bool := negb (migration_disabled p =? 0)%c.

(** struct set_affinity_pending *)
Record set_affinity_pending := mk_pending { refs : Z; stop_pending : bool; done : bool }.
Definition set_refs (a : set_affinity_pending) v := mk_pending v (stop_pending a) (done a).
Definition set_stop (a : set_affinity_pending) v := mk_pending (refs a) v (done a).
Definition set_done (a : set_affinity_pending) v := mk_pending (refs a) (stop_pending a) v.

(** Where a caller is, after the locked section: before stop_one_cpu_nowait, before
    complete_all (with the wait to follow or not), in wait_for_completion, before
    refcount_dec_and_test, in wait_var_event. *)
Inductive caller_pc :=
  | P_stop (cpu : Z) (pending : Z)
  | P_complete (pending : Z) (wait : bool)
  | P_wait (pending : Z)
  | P_dec (pending : Z)
  | P_own.
(** The stopper thread of a CPU after its locked section. *)
Inductive stopper_pc := S_complete (pending : Z) | S_chase (pending : Z).

(** [works]: the CPU a request's stop_work is queued on; [push_works]: the CPUs with
    their push_work queued; [nr_pinned] by CPU. *)
Record sys := mk_sys {
  p : task; callers : gmap Z caller_pc; pendings : gmap Z set_affinity_pending;
  works : gmap Z Z; stoppers : gmap Z stopper_pc; push_busy : gset Z; push_works : gset Z;
  nr_pinned : gmap Z Z
}.
Definition put_p (s : sys) v := mk_sys v (callers s) (pendings s) (works s) (stoppers s) (push_busy s) (push_works s) (nr_pinned s).
Definition put_callers (s : sys) v := mk_sys (p s) v (pendings s) (works s) (stoppers s) (push_busy s) (push_works s) (nr_pinned s).
Definition put_pendings (s : sys) v := mk_sys (p s) (callers s) v (works s) (stoppers s) (push_busy s) (push_works s) (nr_pinned s).
Definition put_works (s : sys) v := mk_sys (p s) (callers s) (pendings s) v (stoppers s) (push_busy s) (push_works s) (nr_pinned s).
Definition put_stoppers (s : sys) v := mk_sys (p s) (callers s) (pendings s) (works s) v (push_busy s) (push_works s) (nr_pinned s).
Definition put_push (s : sys) b w := mk_sys (p s) (callers s) (pendings s) (works s) (stoppers s) b w (nr_pinned s).
Definition put_nr (s : sys) v := mk_sys (p s) (callers s) (pendings s) (works s) (stoppers s) (push_busy s) (push_works s) v.
Definition put_pending (s : sys) (o : Z) (a : set_affinity_pending) : sys := put_pendings s (<[o := a]> (pendings s)).

(** What the code relies on of the stopper and of completions.  [None]: a request is used
    after its owner has returned, or its stop_work is queued a second time. *)
Definition stop_one_cpu_nowait (s : sys) (cpu o : Z) : option sys :=
  _ ← pendings s !! o;
  match works s !! o with
  | Some _ => None
  | None => Some (put_works s (<[o := cpu]> (works s)))
  end.
Definition complete_all (s : sys) (o : Z) : option sys :=
  a ← pendings s !! o; Some (put_pending s o (set_done a true)).

(** ** affine_move_task *)
(** What follows the locked section. *)
Inductive after :=
  | A_return (ret : Z)
  | A_complete_return (pending : Z)
  | A_stop (cpu : Z) (pending : Z)
  | A_complete_wait (pending : Z)
  | A_wait (pending : Z).

(** The task can stay where it is. *)
Definition affine_stay (s : sys) (migrate_enable : bool) : option (sys * after) :=
  let c := task_cpu (p s) in
  let s := if (migrate_enable && mdf_push (p s) && negb (bool_decide (c ∈ push_busy s)))%bool
           then put_push s ({[c]} ∪ push_busy s) ({[c]} ∪ push_works s) else s in
  match migration_pending (p s) with
  | None => Some (s, A_return 0)
  | Some o =>
      a ← pendings s !! o;
      if stop_pending a then Some (s, A_return 0)
      else Some (put_p s (set_pending (p s) None), A_complete_return o)
  end.

(** Install the request of the caller [t], or join the one that is there. *)
Definition affine_install (s : sys) (t : Z) : option sys :=
  match migration_pending (p s) with
  | None => Some (put_pending (put_p s (set_pending (p s) (Some t))) t (mk_pending 1 false false))
  | Some o => a ← pendings s !! o; Some (put_pending s o (set_refs a (refs a + 1)))
  end.

(** The rest, once there is a request [o]. *)
Definition affine_kick (s : sys) (dest_cpu : Z) (migrate_enable : bool) (o : Z) : option (sys * after) :=
  a ← pendings s !! o;
  match state (p s) with
  | Running | Waking =>
      let s := put_pending s o (set_stop a true) in
      let s := if migrate_enable then put_p s (set_push (p s) false) else s in
      Some (s, if negb (stop_pending a) then A_stop (task_cpu (p s)) o
               else if migrate_enable then A_return 0 else A_wait o)
  | Queued | Sleeping =>
      if is_migration_disabled (p s) then Some (s, A_wait o)
      else
        let s := if decide (state (p s) = Queued) then put_p s (set_cpu (p s) dest_cpu) else s in
        if stop_pending a then Some (s, A_wait o)
        else Some (put_p s (set_pending (p s) None), A_complete_wait o)
  end.

Definition affine_move_task (s : sys) (t dest_cpu : Z) (migrate_enable : bool) : option (sys * after) :=
  if decide (task_cpu (p s) ∈ cpus_mask (p s)) then affine_stay s migrate_enable
  else
    s ← (if migrate_enable then Some s else affine_install s t);
    match migration_pending (p s) with
    | None => Some (s, A_return (- EINVAL))
    | Some o => affine_kick s dest_cpu migrate_enable o
    end.

(** ** __set_cpus_allowed_ptr *)
Section Model.
Context (active : cpumask).

(** A call by the thread [t] ([self]: the task itself) for the mask [m];
    cpumask_any_and_distribute picks [dest_cpu].  The call returns at once or goes on
    as a caller. *)
Definition set_cpus_allowed_ptr (s : sys) (t : Z) (self : bool) (m : cpumask) (dest_cpu : Z)
  : option (sys * Z) :=
  if decide (cpus_mask (p s) = m) then Some (s, 0)
  else if (self && is_migration_disabled (p s) && negb (bool_decide (task_cpu (p s) ∈ m)))%bool
  then Some (s, - EBUSY)
  else if decide (active ∩ m = ∅) then Some (s, - EINVAL)
  else
    '(s, next) ← affine_move_task (put_p s (set_mask (p s) m)) t dest_cpu false;
    match next with
    | A_return ret => Some (s, ret)
    | A_complete_return o => Some (put_callers s (<[t := P_complete o false]> (callers s)), 0)
    | A_stop c o => Some (put_callers s (<[t := P_stop c o]> (callers s)), 0)
    | A_complete_wait o => Some (put_callers s (<[t := P_complete o true]> (callers s)), 0)
    | A_wait o => Some (put_callers s (<[t := P_wait o]> (callers s)), 0)
    end.

(** The next step of a caller; [None] while it is blocked. *)
Definition caller_next (s : sys) (t : Z) : option sys :=
  pc ← callers s !! t;
  match pc with
  | P_stop c o => s ← stop_one_cpu_nowait s c o; Some (put_callers s (<[t := P_wait o]> (callers s)))
  | P_complete o wait =>
      s ← complete_all s o;
      Some (put_callers s (if wait then <[t := P_wait o]> (callers s) else delete t (callers s)))
  | P_wait o =>
      a ← pendings s !! o;
      if done a then Some (put_callers s (<[t := P_dec o]> (callers s))) else None
  | P_dec o =>
      a ← pendings s !! o;
      Some (put_callers (put_pending s o (set_refs a (refs a - 1))) (<[t := P_own]> (callers s)))
  | P_own =>
      match pendings s !! t with
      | Some a => if (refs a =? 0)%c
                  then Some (put_callers (put_pendings s (delete t (pendings s))) (delete t (callers s)))
                  else None
      | None => Some (put_callers s (delete t (callers s)))
      end
  end.

(** ** migration_cpu_stop *)
(** flush_smp_call_function_from_idle: a wake-up queued for this CPU is done. *)
Definition flush (s : sys) (cpu : Z) : sys :=
  if decide (state (p s) = Waking /\ task_cpu (p s) = cpu) then put_p s (set_state (p s) Queued) else s.

(** The request is over for the stopper; [complete]: complete_all follows. *)
Definition stop_out (s : sys) (cpu o : Z) (complete : bool) : option sys :=
  a ← pendings s !! o;
  let s := put_pending s o (set_stop a false) in
  Some (if complete then put_stoppers s (<[cpu := S_complete o]> (stoppers s)) else s).
Definition clear_pending (s : sys) (o : Z) : sys :=
  if decide (migration_pending (p s) = Some o) then put_p s (set_pending (p s) None) else s.

Definition is_cpu_allowed (p : task) (cpu : Z) : bool :=
  (bool_decide (cpu ∈ cpus_ptr p) && bool_decide (cpu ∈ active))%bool.
(** __migrate_task, or the place for the next wake-up. *)
Definition move_off (s : sys) (dest_cpu : Z) : sys :=
  if decide (state (p s) = Queued)
  then if is_cpu_allowed (p s) dest_cpu then put_p s (set_cpu (p s) dest_cpu) else s
  else put_p s (set_wake (p s) dest_cpu).

(** The stopper of [cpu] takes the work of the request [o]; cpumask_any_distribute
    picks [dest_cpu]. *)
Definition migration_cpu_stop (s : sys) (cpu o dest_cpu : Z) : option sys :=
  let s := put_works s (delete o (works s)) in
  let s := flush s cpu in
  if decide (task_cpu (p s) = cpu) then
    if is_migration_disabled (p s) then stop_out s cpu o false
    else
      let s := clear_pending s o in
      stop_out (if decide (task_cpu (p s) ∈ cpus_mask (p s)) then s else move_off s dest_cpu) cpu o true
  else if decide (task_cpu (p s) ∈ cpus_ptr (p s)) then stop_out (clear_pending s o) cpu o true
  else Some (put_stoppers s (<[cpu := S_chase o]> (stoppers s))).

Definition stopper_next (s : sys) (cpu : Z) : option sys :=
  pc ← stoppers s !! cpu;
  let s := put_stoppers s (delete cpu (stoppers s)) in
  match pc with
  | S_complete o => complete_all s o
  | S_chase o => stop_one_cpu_nowait s (task_cpu (p s)) o
  end.

(** find_lock_rq of the class finds [lowest], or none; it answers only for a task
    that is still queued. *)
Definition push_cpu_stop (s : sys) (cpu : Z) (lowest : option Z) : sys :=
  let out s := put_push s (push_busy s ∖ {[cpu]}) (push_works s ∖ {[cpu]}) in
  if decide (task_cpu (p s) <> cpu) then out s
  else if is_migration_disabled (p s) then out (put_p s (set_push (p s) true))
  else
    let s := put_p s (set_push (p s) false) in
    match lowest with
    | Some c => out (put_p s (set_cpu (p s) c))
    | None => out s
    end.

(** ** The task *)
(** Called for the task that leaves the CPU. *)
Definition migrate_disable_switch (p : task) : task :=
  if negb (is_migration_disabled p) then p
  else match pinned p with Some _ => p | None => set_pinned p (Some (task_cpu p)) end.

Definition add_pinned (s : sys) (cpu d : Z) : sys :=
  put_nr s (<[cpu := default 0 (nr_pinned s !! cpu) + d]> (nr_pinned s)).

Definition migrate_disable (s : sys) : sys :=
  if is_migration_disabled (p s) then put_p s (set_disabled (p s) (migration_disabled (p s) + 1))
  else put_p (add_pinned s (task_cpu (p s)) 1) (set_disabled (p s) 1).

(** Up to the end of the call of __set_cpus_allowed_ptr; preemption is disabled from
    there to the end. *)
Definition migrate_enable (s : sys) (dest_cpu : Z) : option sys :=
  if (1 <? migration_disabled (p s))%c then Some (put_p s (set_disabled (p s) (migration_disabled (p s) - 1)))
  else
    match pinned (p s) with
    | None => Some (put_p s (set_enabling (p s) (Some E_clear)))
    | Some _ =>
        '(s, next) ← (if decide (active ∩ cpus_mask (p s) = ∅) then Some (s, A_return (- EINVAL))
                      else affine_move_task (put_p s (set_pinned (p s) None)) 0 dest_cpu true);
        match next with
        | A_return _ => Some (put_p s (set_enabling (p s) (Some E_clear)))
        | A_complete_return o => Some (put_p s (set_enabling (p s) (Some (E_complete o))))
        | A_stop c o => Some (put_p s (set_enabling (p s) (Some (E_stop c o))))
        | A_complete_wait _ | A_wait _ => None
        end
    end.
Definition enable_next (s : sys) : option sys :=
  pc ← enabling (p s);
  match pc with
  | E_stop c o => s ← stop_one_cpu_nowait s c o; Some (put_p s (set_enabling (p s) (Some E_clear)))
  | E_complete o => s ← complete_all s o; Some (put_p s (set_enabling (p s) (Some E_clear)))
  | E_clear =>
      Some (add_pinned (put_p s (set_enabling (set_disabled (p s) 0) None)) (task_cpu (p s)) (-1))
  end.

(** ** Interleavings *)
Inductive event :=
  | Request (t : Z) (self : bool) (m : cpumask) (dest_cpu : Z)
  | Caller (t : Z)
  | Stopper (cpu o dest_cpu : Z)
  | Stopper_next (cpu : Z)
  | Push (cpu : Z) (lowest : option Z)
  | Switch_in | Switch_out | Sleep | Wake (cpu : Z) | Activate | Balance (cpu : Z)
  | Disable | Enable (dest_cpu : Z) | Enable_next.

(** Who may do what: a CPU picked from a mask is in it; a stopper runs one work at a
    time and not while the task runs on its CPU; migrate_disable nests less deep than its
    16-bit counter; the task is switched only where
    preemption is enabled, and moved by others only while queued, to a CPU of
    cpus_ptr. *)
Definition is_in (c : Z) (m : cpumask) : bool := bool_decide (c ∈ m).
Definition is_state (s : sys) (v : cpu_state) : bool := bool_decide (state (p s) = v).
Definition absent {A} (x : Z) (m : gmap Z A) : bool := match m !! x with Some _ => false | None => true end.
Definition preemptible (s : sys) : bool := match enabling (p s) with Some _ => false | None => true end.
Definition allowed (s : sys) (e : event) : bool :=
  match e with
  | Request t self m dest =>
      (absent t (callers s) && (negb self || (is_state s Running && preemptible s)) &&
       (bool_decide (active ∩ m = ∅) || is_in dest (active ∩ m)))%bool
  | Caller t =>
      match callers s !! t with
      | Some (P_wait o) => match pendings s !! o with Some a => done a | None => true end
      | Some P_own => match pendings s !! t with Some a => (refs a =? 0)%c | None => true end
      | Some _ => true
      | None => false
      end
  | Stopper cpu o dest =>
      (bool_decide (works s !! o = Some cpu) && absent cpu (stoppers s) &&
       negb (is_state s Running && (task_cpu (p s) =? cpu)%c) && is_in dest (cpus_mask (p s)))%bool
  | Stopper_next cpu => negb (absent cpu (stoppers s))
  | Push cpu lowest =>
      (is_in cpu (push_works s) &&
       match lowest with Some c => is_state s Queued && is_in c (cpus_ptr (p s)) | None => true end)%bool
  | Switch_in => is_state s Queued
  | Switch_out | Sleep => (is_state s Running && preemptible s)%bool
  | Wake cpu => (is_state s Sleeping && is_cpu_allowed (p s) cpu)%bool
  | Activate => is_state s Waking
  | Balance cpu => (is_state s Queued && is_in cpu (cpus_ptr (p s)))%bool
  | Disable => (is_state s Running && preemptible s && (migration_disabled (p s) <? 65535)%c)%bool
  | Enable dest => (is_state s Running && preemptible s && is_migration_disabled (p s) &&
                    (bool_decide (active ∩ cpus_mask (p s) = ∅) || is_in dest (active ∩ cpus_mask (p s))))%bool
  | Enable_next => negb (preemptible s)
  end.

(** The new state and the value returned (0 where there is none). *)
Definition exec (s : sys) (e : event) : option (sys * Z) :=
  let quiet s := (s, 0) in
  match e with
  | Request t self m dest => set_cpus_allowed_ptr s t self m dest
  | Caller t => quiet <$> caller_next s t
  | Stopper cpu o dest => quiet <$> migration_cpu_stop s cpu o dest
  | Stopper_next cpu => quiet <$> stopper_next s cpu
  | Push cpu lowest => Some (quiet (push_cpu_stop s cpu lowest))
  | Switch_in => Some (quiet (put_p s (set_state (p s) Running)))
  | Switch_out => Some (quiet (put_p s (set_state (migrate_disable_switch (p s)) Queued)))
  | Sleep => Some (quiet (put_p s (set_state (migrate_disable_switch (p s)) Sleeping)))
  | Wake cpu => Some (quiet (put_p s (set_state (set_cpu (p s) cpu) Waking)))
  | Activate => Some (quiet (put_p s (set_state (p s) Queued)))
  | Balance cpu => Some (quiet (put_p s (set_cpu (p s) cpu)))
  | Disable => Some (quiet (migrate_disable s))
  | Enable dest => quiet <$> migrate_enable s dest
  | Enable_next => quiet <$> enable_next s
  end.

(** A task on [cpu], allowed on [m]. *)
Definition init (cpu : Z) (m : cpumask) : sys :=
  mk_sys (mk_task cpu Queued 0 m None None false cpu None) ∅ ∅ ∅ ∅ ∅ ∅ ∅.
Definition step (s s' : sys) : Prop := exists e r, allowed s e = true /\ exec s e = Some (s', r).
Fixpoint exec_all (s : sys) (es : list event) : option (sys * list Z) :=
  match es with
  | [] => Some (s, [])
  | e :: es =>
      if allowed s e
      then '(s, r) ← exec s e; '(s, rs) ← exec_all s es; Some (s, r :: rs)
      else None
  end.
End Model.
End Affinity.
