(* ===== verification/AffinityInv.v ===== *)
(** * Changing the CPUs of a task: invariants (src/Assignment_4/fifo/core.c)

    The protocol around set_affinity_pending as arithmetic: for every request, how
    many threads are about to queue its stop_work, about to complete it, waiting for
    it.  [core] says how these numbers fit its fields, [task_ok] what holds of the
    task, and every step of every thread keeps both. *)
From Stdlib Require Import ZArith Lia.
From stdpp Require Import gmap.
From S2P Require Import Prelude SchedInfo SchedClass Affinity.
Import Affinity.

Local Open Scope stdpp_scope.
Local Open Scope Z_scope.

(** ** Who holds what of a request *)
Definition one (x y : Z) : Z := if decide (x = y) then 1 else 0.
Definition waits (pc : caller_pc) : option Z :=
  match pc with P_stop _ x | P_complete x true | P_wait x | P_dec x => Some x | P_complete _ false | P_own => None end.
Definition stops_c (o : Z) (pc : caller_pc) : Z := match pc with P_stop _ x => one x o | _ => 0 end.
Definition comp_c (o : Z) (pc : caller_pc) : Z := match pc with P_complete x _ => one x o | _ => 0 end.
Definition waits_c (o : Z) (pc : caller_pc) : Z :=
  match pc with P_stop _ x | P_complete x true | P_wait x | P_dec x => one x o | P_complete _ false | P_own => 0 end.
Definition dec_c (o : Z) (pc : caller_pc) : Z := match pc with P_dec x => one x o | _ => 0 end.
Definition stops_e (o : Z) (e : option enable_pc) : Z := match e with Some (E_stop _ x) => one x o | _ => 0 end.
Definition comp_e (o : Z) (e : option enable_pc) : Z := match e with Some (E_complete x) => one x o | _ => 0 end.
Definition stops_s (o : Z) (pc : stopper_pc) : Z := match pc with S_chase x => one x o | _ => 0 end.
Definition comp_s (o : Z) (pc : stopper_pc) : Z := match pc with S_complete x => one x o | _ => 0 end.
Definition has (m : gmap Z Z) (o : Z) : Z := match m !! o with Some _ => 1 | None => 0 end.

(** The stop_work of [o] is queued, or about to be. *)
Definition nstop (s : sys) (o : Z) : Z :=
  has (works s) o + msum (stops_c o) (callers s) + stops_e o (enabling (p s)) + msum (stops_s o) (stoppers s).
(** complete_all of [o] is about to be called. *)
Definition ncomp (s : sys) (o : Z) : Z :=
  msum (comp_c o) (callers s) + comp_e o (enabling (p s)) + msum (comp_s o) (stoppers s).
(** Callers that wait for [o] or will, and those that have seen it completed. *)
Definition nwait (s : sys) (o : Z) : Z := msum (waits_c o) (callers s).
Definition ndec (s : sys) (o : Z) : Z := msum (dec_c o) (callers s).
Arguments stops_c _ !_ /.
Arguments comp_c _ !_ /.
Arguments waits_c _ !_ /.
Arguments dec_c _ !_ /.
Arguments stops_s _ !_ /.
Arguments comp_s _ !_ /.
Definition inst (q : option Z) (o : Z) : Z := if decide (q = Some o) then 1 else 0.

Definition owner_ok (s : sys) (o : Z) (a : set_affinity_pending) : Prop :=
  exists pc, callers s !! o = Some pc /\ (waits pc = Some o \/ (pc = P_own /\ done a = true)).
Definition core (s : sys) (o : Z) : Prop :=
  match pendings s !! o with
  | None => nstop s o = 0 /\ ncomp s o = 0 /\ nwait s o = 0 /\ inst (migration_pending (p s)) o = 0
  | Some a =>
      nstop s o = b2z (stop_pending a) /\ ncomp s o + b2z (done a) + inst (migration_pending (p s)) o = 1 /\
      b2z (stop_pending a) <= inst (migration_pending (p s)) o /\ refs a = nwait s o /\
      (done a = false -> ndec s o = 0) /\ owner_ok s o a
  end.

Lemma one_nonneg x y : 0 <= one x y.
Proof. unfold one. case_decide; lia. Qed.
Lemma one_ne x y : x <> y -> one x y = 0.
Proof. intros. unfold one. by rewrite decide_False. Qed.
Lemma waits_c_pos o pc : 0 < waits_c o pc -> waits pc = Some o.
Proof.
  assert (forall x, 0 < one x o -> Some x = Some o) as H by (intros x; unfold one; case_decide; [by subst|lia]).
  destruct pc as [| ? [] | | |]; simpl; auto; lia.
Qed.
Lemma one_refl x : one x x = 1.
Proof. unfold one. by rewrite decide_True. Qed.
Lemma stops_c_nonneg o pc : 0 <= stops_c o pc.
Proof. destruct pc; simpl; try lia; apply one_nonneg. Qed.
Lemma comp_c_nonneg o pc : 0 <= comp_c o pc.
Proof. destruct pc; simpl; try lia; apply one_nonneg. Qed.
Lemma waits_c_nonneg o pc : 0 <= waits_c o pc.
Proof. destruct pc as [| ? [] | | |]; simpl; try lia; apply one_nonneg. Qed.
Lemma dec_c_nonneg o pc : 0 <= dec_c o pc.
Proof. destruct pc; simpl; try lia; apply one_nonneg. Qed.
Lemma stops_s_nonneg o pc : 0 <= stops_s o pc.
Proof. destruct pc; simpl; try lia; apply one_nonneg. Qed.
Lemma comp_s_nonneg o pc : 0 <= comp_s o pc.
Proof. destruct pc; simpl; try lia; apply one_nonneg. Qed.
Lemma stops_e_nonneg o e : 0 <= stops_e o e.
Proof. destruct e as [[]|]; simpl; try lia; apply one_nonneg. Qed.
Lemma comp_e_nonneg o e : 0 <= comp_e o e.
Proof. destruct e as [[]|]; simpl; try lia; apply one_nonneg. Qed.
Lemma has_nonneg m o : 0 <= has m o.
Proof. unfold has. case_match; lia. Qed.
Lemma inst_nonneg q o : 0 <= inst q o <= 1.
Proof. unfold inst. case_decide; lia. Qed.

Lemma has_insert m x v o : has (<[x := v]> m) o = if decide (x = o) then 1 else has m o.
Proof. unfold has. rewrite lookup_insert. by case_decide. Qed.
Lemma has_delete m x o : has (delete x m) o = if decide (x = o) then 0 else has m o.
Proof. unfold has. rewrite lookup_delete. by case_decide. Qed.

(** Every count, bounded by what one of its holders contributes. *)
Lemma caller_counts s t pc o : callers s !! t = Some pc ->
  stops_c o pc <= nstop s o /\ comp_c o pc <= ncomp s o /\ waits_c o pc <= nwait s o /\ dec_c o pc <= ndec s o.
Proof.
  intros H. pose proof (msum_lookup _ _ _ _ (stops_c_nonneg o) H). pose proof (msum_lookup _ _ _ _ (comp_c_nonneg o) H).
  pose proof (msum_lookup _ _ _ _ (waits_c_nonneg o) H). pose proof (msum_lookup _ _ _ _ (dec_c_nonneg o) H).
  unfold nstop, ncomp, nwait, ndec. pose proof (has_nonneg (works s) o). pose proof (stops_e_nonneg o (enabling (p s))).
  pose proof (comp_e_nonneg o (enabling (p s))). pose proof (msum_nonneg (stops_s o) (stoppers s) (stops_s_nonneg o)).
  pose proof (msum_nonneg (comp_s o) (stoppers s) (comp_s_nonneg o)). lia.
Qed.
Lemma other_counts s o : has (works s) o + stops_e o (enabling (p s)) + msum (stops_s o) (stoppers s) <= nstop s o /\
  comp_e o (enabling (p s)) + msum (comp_s o) (stoppers s) <= ncomp s o /\ 0 <= nwait s o /\ 0 <= ndec s o.
Proof.
  pose proof (msum_nonneg _ (callers s) (stops_c_nonneg o)). pose proof (msum_nonneg _ (callers s) (comp_c_nonneg o)).
  pose proof (msum_nonneg _ (callers s) (waits_c_nonneg o)). pose proof (msum_nonneg _ (callers s) (dec_c_nonneg o)).
  unfold nstop, ncomp, nwait, ndec. lia.
Qed.
Lemma counts_nonneg s o : 0 <= nstop s o /\ 0 <= ncomp s o /\ 0 <= nwait s o /\ 0 <= ndec s o.
Proof.
  pose proof (other_counts s o). pose proof (has_nonneg (works s) o). pose proof (stops_e_nonneg o (enabling (p s))).
  pose proof (comp_e_nonneg o (enabling (p s))). pose proof (msum_nonneg (stops_s o) (stoppers s) (stops_s_nonneg o)).
  pose proof (msum_nonneg (comp_s o) (stoppers s) (comp_s_nonneg o)). lia.
Qed.
(** A request somebody holds is alive. *)
Lemma held_alive s o : core s o -> 0 < nstop s o + ncomp s o + nwait s o + inst (migration_pending (p s)) o ->
  exists a, pendings s !! o = Some a.
Proof. unfold core. destruct (pendings s !! o) as [a|]; [by exists a|lia]. Qed.

(** ** The task *)
Record task_ok (s : sys) : Prop := {
  t_disabled : 0 <= migration_disabled (p s);
  t_pinned c : pinned (p s) = Some c -> c = task_cpu (p s) /\ 0 < migration_disabled (p s);
  t_off : state (p s) <> Running -> 0 < migration_disabled (p s) -> pinned (p s) <> None;
  t_enabling : enabling (p s) <> None ->
    state (p s) = Running /\ migration_disabled (p s) = 1 /\ pinned (p s) = None;
  (** A request nobody works on waits for migrate_enable, which will find it. *)
  t_reason o a : migration_pending (p s) = Some o -> pendings s !! o = Some a -> stop_pending a = false ->
    0 < migration_disabled (p s) /\ pinned (p s) <> None;
  t_nr c : default 0 (nr_pinned s !! c) =
    if decide (0 < migration_disabled (p s) /\ task_cpu (p s) = c) then 1 else 0
}.
Definition inv (s : sys) : Prop := (forall o, core s o) /\ task_ok s.

(** ** Small steps of a thread *)
Ltac fields :=
  cbn [p callers pendings works stoppers push_busy push_works nr_pinned put_p put_callers put_pendings put_pending
       put_works put_stoppers put_push put_nr task_cpu state migration_disabled cpus_mask pinned migration_pending
       mdf_push wake_cpu enabling set_cpu set_state set_disabled set_mask set_pinned set_pending set_push set_wake
       set_enabling refs stop_pending done set_refs set_stop set_done mbind option_bind].
Tactic Notation "fields" "in" hyp(H) := revert H; fields; intros H.
Ltac counts :=
  unfold nstop, ncomp, nwait, ndec in *; fields;
  repeat rewrite msum_insert; repeat rewrite msum_delete; repeat rewrite has_insert; repeat rewrite has_delete.

(** Only the task changed, and not in what the protocol reads. *)
Lemma core_task s q o : migration_pending q = migration_pending (p s) -> enabling q = enabling (p s) ->
  core s o -> core (put_p s q) o.
Proof. unfold core, nstop, ncomp, nwait, ndec, owner_ok. simpl. intros -> ->. done. Qed.
Lemma core_ext s s' o : p s' = p s -> callers s' = callers s -> pendings s' = pendings s -> works s' = works s ->
  stoppers s' = stoppers s -> core s o -> core s' o.
Proof. unfold core, nstop, ncomp, nwait, ndec, owner_ok. intros -> -> -> -> ->. done. Qed.

Section Callers.
Context (s : sys) (Hc : forall o, core s o).

Lemma stop_held c o : stops_e o (enabling (p s)) + msum (stops_c o) (callers s) + msum (stops_s o) (stoppers s) > 0 ->
  exists a, pendings s !! o = Some a /\ stop_pending a = true /\ works s !! o = None /\
    nstop s o = 1 /\ migration_pending (p s) = Some o /\ done a = false /\
    stop_one_cpu_nowait s c o = Some (put_works s (<[o := c]> (works s))).
Proof.
  intros H. pose proof (Hc o) as Ho. pose proof (has_nonneg (works s) o) as Hh.
  destruct (held_alive s o Ho) as (a & Ha).
  { pose proof (counts_nonneg s o). pose proof (inst_nonneg (migration_pending (p s)) o). unfold nstop in *. lia. }
  unfold core in Ho. rewrite Ha in Ho. destruct Ho as (H1 & H2 & H3 & _). exists a.
  assert (works s !! o = None) as Hw.
  { unfold nstop, has in *. destruct (works s !! o); [|done]. pose proof (b2z_range (stop_pending a)). lia. }
  assert (stop_pending a = true) as Hs.
  { destruct (stop_pending a); [done|]. unfold nstop, has in H1. rewrite Hw in H1. simpl in H1. lia. }
  rewrite Hs in *. simpl in *. unfold stop_one_cpu_nowait. rewrite Ha. cbn [mbind option_bind]. rewrite Hw.
  unfold inst in *. pose proof (counts_nonneg s o).
  destruct (decide (migration_pending (p s) = Some o)); [|lia]. destruct (done a); simpl in *; [lia|]. by repeat split.
Qed.

Lemma comp_held o : 0 < ncomp s o -> exists a, pendings s !! o = Some a /\ stop_pending a = false /\
  done a = false /\ ncomp s o = 1 /\ migration_pending (p s) <> Some o /\ nstop s o = 0 /\
  complete_all s o = Some (put_pending s o (set_done a true)).
Proof.
  intros H. pose proof (Hc o) as Ho. destruct (held_alive s o Ho) as (a & Ha).
  { pose proof (counts_nonneg s o). pose proof (inst_nonneg (migration_pending (p s)) o). lia. }
  unfold core in Ho. rewrite Ha in Ho. destruct Ho as (H1 & H2 & H3 & _). exists a.
  pose proof (inst_nonneg (migration_pending (p s)) o). pose proof (b2z_range (done a)).
  assert (inst (migration_pending (p s)) o = 0 /\ done a = false /\ ncomp s o = 1) as (E1 & E2 & E3).
  { destruct (done a); simpl in *; [lia|]. split; [lia|]. split; [done|]. lia. }
  assert (stop_pending a = false) as E4 by (destruct (stop_pending a); simpl in *; [lia|done]).
  rewrite E4 in H1. unfold complete_all. rewrite Ha. cbn [mbind option_bind]. repeat split; try done.
  intros E. unfold inst in E1. rewrite decide_True in E1 by done. lia.
Qed.
End Callers.

(** The entry of one caller changes: what becomes of the owners. *)
Lemma owner_move s s' t pc pc' o a a' : callers s !! t = Some pc -> callers s' = <[t := pc']> (callers s) ->
  (done a = true -> done a' = true) ->
  (t = o -> waits pc = Some o -> waits pc' = Some o \/ (pc' = P_own /\ done a' = true)) ->
  (pc = P_own -> pc' = P_own) -> owner_ok s o a -> owner_ok s' o a'.
Proof.
  intros Hpc E Hd Hw Hp (pc0 & H1 & H2). unfold owner_ok. rewrite E. destruct (decide (t = o)) as [->|Hne].
  - rewrite Hpc in H1. injection H1 as <-. exists pc'. rewrite lookup_insert_eq. split; [done|].
    destruct H2 as [H2|[-> H2]]; [by apply Hw|]. right. split; [by apply Hp|by apply Hd].
  - exists pc0. rewrite lookup_insert_ne by done. split; [done|]. destruct H2 as [H2|[? H2]]; [by left|right; auto].
Qed.
Lemma owner_new s s' t pc' o a a' : callers s !! t = None -> callers s' = <[t := pc']> (callers s) ->
  (done a = true -> done a' = true) -> owner_ok s o a -> owner_ok s' o a'.
Proof.
  intros Ht E Hd (pc0 & H1 & H2). unfold owner_ok. rewrite E. exists pc0.
  rewrite lookup_insert_ne by (intros ->; congruence). split; [done|]. destruct H2 as [H2|[? H2]]; [by left|right; auto].
Qed.
Lemma owner_same s s' o a a' : callers s' = callers s -> (done a = true -> done a' = true) -> owner_ok s o a -> owner_ok s' o a'.
Proof. intros E Hd (pc0 & H1 & H2). exists pc0. rewrite E. split; [done|]. destruct H2 as [H2|[? H2]]; [by left|right; auto]. Qed.

(** [core] of one request, split by whether it is the request [o] the step is about. *)
Ltac names := repeat match goal with |- context [decide (?x = ?y)] => destruct (decide (x = y)); subst; rewrite ?one_refl in *; rewrite ?one_ne in * by done end.
Ltac request o' o :=
  destruct (decide (o = o')) as [<-|?];
  [rewrite ?one_refl in *; rewrite ?lookup_insert_eq, ?lookup_delete_eq
  |rewrite ?(one_ne o o') in * by done; rewrite ?lookup_insert_ne, ?lookup_delete_ne by done].

Section Steps.
Context (active : cpumask).

Lemma P_stop_step s t c o : inv s -> callers s !! t = Some (P_stop c o) ->
  exists s', caller_next s t = Some s' /\ inv s'.
Proof.
  intros [Hc Ht] Hpc. destruct (stop_held s Hc c o) as (a & Ha & Hs & Hw & Hn & Hi & Hd & E).
  { pose proof (msum_lookup _ _ _ _ (stops_c_nonneg o) Hpc) as H. simpl in H. rewrite one_refl in H.
    pose proof (stops_e_nonneg o (enabling (p s))). pose proof (msum_nonneg (stops_s o) (stoppers s) (stops_s_nonneg o)). lia. }
  unfold caller_next. rewrite Hpc. cbn [mbind option_bind]. rewrite E. cbn [mbind option_bind].
  eexists. split; [done|]. split; [|by destruct Ht].
  intros o'. pose proof (Hc o') as Ho. unfold core in *. counts. rewrite Hpc. simpl.
  assert (has (works s) o = 0) as Hh by (unfold has; by rewrite Hw).
  destruct (pendings s !! o') as [a'|] eqn:Ha'.
  - destruct Ho as (H1 & H2 & H3 & H4 & H5 & H6).
    split_and!; try done; try (names; lia).
    + intros H. specialize (H5 H). lia.
    + eapply owner_move; try done. intros; by left.
  - split_and!; try (names; lia).
Qed.

(** What a request is, to a thread that has it: a caller, by what it contributes. *)
Lemma caller_alive s t pc o : core s o -> callers s !! t = Some pc -> 0 < stops_c o pc + comp_c o pc + waits_c o pc ->
  exists a, pendings s !! o = Some a.
Proof.
  intros Ho Hpc H. apply held_alive; [done|]. pose proof (caller_counts s t pc o Hpc). pose proof (counts_nonneg s o).
  pose proof (inst_nonneg (migration_pending (p s)) o). pose proof (stops_c_nonneg o pc). pose proof (comp_c_nonneg o pc).
  pose proof (waits_c_nonneg o pc). lia.
Qed.

Lemma P_complete_step s t o w : inv s -> callers s !! t = Some (P_complete o w) ->
  exists s', caller_next s t = Some s' /\ inv s'.
Proof.
  intros [Hc Ht] Hpc. destruct (comp_held s Hc o) as (a & Ha & Hs & Hd & Hn & Hi & Hn0 & E).
  { pose proof (caller_counts s t _ o Hpc) as (_ & H & _). simpl in H. rewrite one_refl in H. lia. }
  unfold caller_next. rewrite Hpc. cbn [mbind option_bind]. rewrite E. cbn [mbind option_bind].
  eexists. split; [done|]. split.
  - intros o'. pose proof (Hc o') as Ho. unfold core in *. destruct w; counts; rewrite Hpc; simpl.
    + request o' o; [rewrite Ha in Ho|destruct (pendings s !! o') as [a'|] eqn:Ha'].
      * destruct Ho as (H1 & H2 & H3 & H4 & H5 & H6). simpl. rewrite Hd in *. simpl in *. split_and!; try done; try lia.
        eapply owner_move; try done. intros; by left.
      * destruct Ho as (H1 & H2 & H3 & H4 & H5 & H6). split_and!; try done; try lia.
        -- intros H. specialize (H5 H). lia.
        -- eapply owner_move; try done. simpl. intros; left; congruence.
      * lia.
    + request o' o; [rewrite Ha in Ho|destruct (pendings s !! o') as [a'|] eqn:Ha'].
      * destruct Ho as (H1 & H2 & H3 & H4 & H5 & (pc & Hp & Hq)). simpl. rewrite Hd in *. simpl in *.
        split_and!; try done; try lia. exists pc. simpl. rewrite lookup_delete_ne; [by naive_solver|].
        intros ->. rewrite Hpc in Hp. injection Hp as <-. simpl in Hq. naive_solver.
      * destruct Ho as (H1 & H2 & H3 & H4 & H5 & (pc & Hp & Hq)). split_and!; try done; try lia.
        -- intros H. specialize (H5 H). lia.
        -- exists pc. simpl. rewrite lookup_delete_ne; [done|].
           intros ->. rewrite Hpc in Hp. injection Hp as <-. simpl in Hq. naive_solver.
      * lia.
  - destruct Ht. destruct w; split; simpl; try done.
    all: intros o1 a1 H1 H2 H3; rewrite lookup_insert_ne in H2 by congruence; eauto.
Qed.

Lemma P_wait_step s t o a : inv s -> callers s !! t = Some (P_wait o) -> pendings s !! o = Some a -> done a = true ->
  exists s', caller_next s t = Some s' /\ inv s'.
Proof.
  intros [Hc Ht] Hpc Ha Hd. unfold caller_next. rewrite Hpc. cbn [mbind option_bind]. rewrite Ha. cbn [mbind option_bind].
  rewrite Hd. eexists. split; [done|]. split; [|by destruct Ht].
  intros o'. pose proof (Hc o') as Ho. unfold core in *. counts. rewrite Hpc. simpl.
  destruct (pendings s !! o') as [a'|] eqn:Ha'.
  - destruct Ho as (H1 & H2 & H3 & H4 & H5 & H6). split_and!; try done; try (names; lia).
    + intros H. specialize (H5 H). request o' o; [congruence|]. lia.
    + eapply owner_move; try done. intros; by left.
  - split_and!; try (names; lia).
Qed.

Lemma P_dec_step s t o : inv s -> callers s !! t = Some (P_dec o) ->
  exists s', caller_next s t = Some s' /\ inv s'.
Proof.
  intros [Hc Ht] Hpc. destruct (caller_alive s t _ o (Hc o) Hpc) as (a & Ha).
  { simpl. rewrite one_refl. lia. }
  unfold caller_next. rewrite Hpc. cbn [mbind option_bind]. rewrite Ha. cbn [mbind option_bind].
  assert (done a = true) as Hd.
  { pose proof (Hc o) as Ho. unfold core in Ho. rewrite Ha in Ho. destruct Ho as (_ & _ & _ & _ & H5 & _).
    destruct (done a); [done|]. specialize (H5 eq_refl). pose proof (caller_counts s t _ o Hpc) as (_ & _ & _ & H).
    simpl in H. rewrite one_refl in H. lia. }
  eexists. split; [done|]. split.
  - intros o'. pose proof (Hc o') as Ho. unfold core in *. counts. rewrite Hpc. simpl.
    request o' o; [rewrite Ha in Ho|destruct (pendings s !! o') as [a'|] eqn:Ha'].
    + destruct Ho as (H1 & H2 & H3 & H4 & H5 & H6). simpl. split_and!; try done; try lia.
      * intros H. congruence.
      * eapply owner_move; try done. intros; by right.
    + destruct Ho as (H1 & H2 & H3 & H4 & H5 & H6). split_and!; try done; try lia.
      * intros H. specialize (H5 H). lia.
      * eapply owner_move; try done. simpl. intros; congruence.
    + lia.
  - destruct Ht. split; simpl; try done. intros o1 a1 H1 H2 H3.
    rewrite lookup_insert in H2. case_decide; [|by eauto]. subst. injection H2 as <-. eauto.
Qed.

Lemma P_own_step s t : inv s -> callers s !! t = Some P_own -> (forall a, pendings s !! t = Some a -> refs a = 0) ->
  exists s', caller_next s t = Some s' /\ inv s'.
Proof.
  intros [Hc Ht] Hpc Hr. unfold caller_next. rewrite Hpc. cbn [mbind option_bind].
  assert (forall s' o' a', callers s' = delete t (callers s) -> o' <> t -> owner_ok s o' a' -> owner_ok s' o' a') as Hown.
  { intros s' o' a' E Hne (pc & H1 & H2). exists pc. rewrite E, lookup_delete_ne by done. done. }
  assert (forall o', o' <> t -> core s o' -> core (put_callers s (delete t (callers s))) o') as Hrest.
  { intros o' Hne Ho. unfold core in *. counts. rewrite Hpc. simpl.
    destruct (pendings s !! o') as [a'|]; [|lia]. destruct Ho as (H1 & H2 & H3 & H4 & H5 & H6).
    split_and!; try done; try lia; [intros H; specialize (H5 H); lia|]. by apply Hown. }
  destruct (pendings s !! t) as [a|] eqn:Ha.
  - rewrite (Hr a) by done. simpl. eexists. split; [done|]. split.
    + intros o'. destruct (decide (o' = t)) as [->|Hne].
      * pose proof (Hc t) as Ho. unfold core in *. rewrite Ha in Ho. destruct Ho as (H1 & H2 & H3 & H4 & H5 & (pc & Hp & Hq)).
        rewrite Hpc in Hp. injection Hp as <-. destruct Hq as [Hq|[_ Hq]]; [done|]. rewrite Hq in *.
        pose proof (counts_nonneg s t). pose proof (inst_nonneg (migration_pending (p s)) t).
        pose proof (b2z_range (stop_pending a)). pose proof (Hr a eq_refl). simpl in H2.
        counts. rewrite Hpc, lookup_delete_eq. simpl. lia.
      * specialize (Hrest o' Hne (Hc o')). unfold core in *. simpl in *. rewrite lookup_delete_ne by done. exact Hrest.
    + destruct Ht. split; simpl; try done. intros o1 a1 H1 H2 H3. rewrite lookup_delete in H2. case_decide; [done|]. eauto.
  - eexists. split; [done|]. split; [|by destruct Ht]. intros o'. destruct (decide (o' = t)) as [->|Hne]; [|by apply Hrest].
    pose proof (Hc t) as Ho. unfold core in *. counts. rewrite Hpc. simpl. rewrite Ha in *. lia.
Qed.
End Steps.
