(* ===== verification/AffinitySteps.v ===== *)
(** * Changing the CPUs of a task: the steps (src/Assignment_4/fifo/core.c)

    migration_cpu_stop, __set_cpus_allowed_ptr, migrate_enable and the steps of the
    task keep the invariant of AffinityInv.v, and never fail: no request is used
    after its owner has returned, no stop_work is queued twice. *)
From Stdlib Require Import ZArith Lia.
From stdpp Require Import gmap.
From S2P Require Import Prelude SchedInfo SchedClass Affinity AffinityInv.
Import Affinity.

Local Open Scope stdpp_scope.
Local Open Scope Z_scope.

(** The task is where its mask allows it, or asleep and free to wake up elsewhere, or a request is waiting. *)
Definition placed (q : task) : Prop := task_cpu q ∈ cpus_mask q \/ (state q = Sleeping /\ migration_disabled q = 0) \/
  migration_pending q <> None.

Lemma placed_awake q q' : state q = Running -> task_cpu q' = task_cpu q -> cpus_mask q' = cpus_mask q ->
  migration_pending q' = migration_pending q -> placed q -> placed q'.
Proof. unfold placed. intros Hr -> -> ->. rewrite Hr. intros [H|[[H _]|H]]; [by left|done|by right; right]. Qed.

Lemma disabled_spec q : is_migration_disabled q = bool_decide (migration_disabled q <> 0).
Proof. unfold is_migration_disabled. destruct (Z.eqb_spec (migration_disabled q) 0); by case_bool_decide. Qed.

(** ** The stopper *)
Section Stopper.
Context (active : cpumask) (s : sys).

(** The stopper takes a work that is queued: the request is alive and installed. *)
Lemma work_held o c : (forall o, core s o) -> works s !! o = Some c -> exists a, pendings s !! o = Some a /\
  stop_pending a = true /\ done a = false /\ migration_pending (p s) = Some o /\ nstop s o = 1 /\ ncomp s o = 0.
Proof.
  intros Hc Hw. pose proof (Hc o) as Ho. pose proof (other_counts s o) as (H & _). pose proof (counts_nonneg s o) as Hn.
  pose proof (stops_e_nonneg o (enabling (p s))). pose proof (msum_nonneg (stops_s o) (stoppers s) (stops_s_nonneg o)).
  unfold has in H. rewrite Hw in H. pose proof (inst_nonneg (migration_pending (p s)) o).
  destruct (held_alive s o Ho) as (a & Ha); [lia|]. exists a. unfold core in Ho. rewrite Ha in Ho.
  destruct Ho as (K1 & K2 & K3 & _). destruct (stop_pending a), (done a); simpl in *; try lia.
  unfold inst in *. case_decide; [|lia]. repeat split; auto; lia.
Qed.

(** The request is released by the stopper: installed or not afterwards. *)
Lemma release_core s' o cpu a (complete : bool) : (forall o, core s o) -> works s !! o = Some cpu -> stoppers s !! cpu = None ->
  pendings s !! o = Some a -> callers s' = callers s -> pendings s' = <[o := set_stop a false]> (pendings s) ->
  works s' = delete o (works s) -> enabling (p s') = enabling (p s) ->
  stoppers s' = (if complete then <[cpu := S_complete o]> (stoppers s) else stoppers s) ->
  migration_pending (p s') = (if complete then None else migration_pending (p s)) -> forall o', core s' o'.
Proof.
  intros Hc Hw Hs Ha E1 E2 E3 E4 E5 E6 o'. destruct (work_held o cpu Hc Hw) as (a0 & Ha0 & Hst & Hd & Hm & Hn & Hn').
  rewrite Ha in Ha0. injection Ha0 as <-. pose proof (Hc o') as Ho. unfold core in *.
  unfold nstop, ncomp, nwait, ndec in *. rewrite E1, E2, E3, E4, E5, E6.
  assert (has (works s) o = 1) as Hh by (unfold has; by rewrite Hw).
  assert (inst (Some o) o' = one o o') as Hi.
  { unfold inst, one. destruct (decide (o = o')) as [->|]; [by rewrite decide_True|rewrite decide_False; congruence]. }
  assert (inst None o' = 0) as Hi0 by done. rewrite Hm in *. rewrite Hi in Ho. rewrite has_delete.
  assert (forall a', (done a = true -> done a' = true) -> owner_ok s o a -> owner_ok s' o a') as Hown
    by (intros; by eapply owner_same).
  destruct complete; rewrite ?msum_insert; rewrite ?Hs; cbn [from_option stops_s comp_s]; rewrite ?Hi, ?Hi0;
    (request o' o; [rewrite Ha in Ho; fields; rewrite ?decide_True by done
                   |rewrite ?decide_False by done; destruct (pendings s !! o')]); simpl in *.
  all: try lia.
  all: destruct Ho as (H1 & H2 & H3 & H4 & H5 & H6); rewrite ?Hst, ?Hd in *; simpl in *.
  all: split_and!; try done; try lia; by eapply owner_same.
Qed.

Definition reason (s : sys) : Prop := forall o a, migration_pending (p s) = Some o -> pendings s !! o = Some a ->
  stop_pending a = false -> 0 < migration_disabled (p s) /\ pinned (p s) <> None.

(** Neither the migration-disabled state nor migrate_enable is touched. *)
Lemma task_frame s' : task_ok s -> migration_disabled (p s') = migration_disabled (p s) -> pinned (p s') = pinned (p s) ->
  enabling (p s') = enabling (p s) -> nr_pinned s' = nr_pinned s -> (enabling (p s) <> None -> state (p s') = state (p s)) ->
  (state (p s') <> Running -> state (p s) = Running -> 0 < migration_disabled (p s) -> pinned (p s) <> None) ->
  (task_cpu (p s') <> task_cpu (p s) -> migration_disabled (p s) = 0) -> reason s' -> task_ok s'.
Proof.
  intros Ht E1 E2 E3 E4 Hn Hoff Hcpu Hr. pose proof (t_disabled s Ht) as T1. pose proof (t_pinned s Ht) as T2.
  pose proof (t_off s Ht) as T3. pose proof (t_enabling s Ht) as T4. pose proof (t_nr s Ht) as T6.
  split; rewrite ?E1, ?E2, ?E3, ?E4; try done.
  - intros c Hc. destruct (T2 c Hc) as [-> ?]. split; [|done].
    destruct (decide (task_cpu (p s') = task_cpu (p s))) as [|n]; [done|]. specialize (Hcpu n). lia.
  - intros H1 H2. destruct (decide (state (p s) = Running)); [by apply Hoff|by apply T3].
  - intros H. by rewrite (Hn H), (proj1 (T4 H)) in *; naive_solver.
  - rewrite <- E1, <- E2. exact Hr.
  - intros c. rewrite T6. destruct (decide (task_cpu (p s') = task_cpu (p s))) as [->|n]; [done|].
    specialize (Hcpu n). rewrite !decide_False by lia. done.
Qed.
Lemma task_step q : inv s -> migration_disabled q = migration_disabled (p s) -> pinned q = pinned (p s) ->
  enabling q = enabling (p s) -> migration_pending q = migration_pending (p s) ->
  (enabling (p s) <> None -> state q = state (p s)) ->
  (state q <> Running -> state (p s) = Running -> 0 < migration_disabled (p s) -> pinned (p s) <> None) ->
  (task_cpu q <> task_cpu (p s) -> migration_disabled (p s) = 0) -> inv (put_p s q).
Proof.
  intros [Hc Ht] E1 E2 E3 E4 Hn Hoff Hcpu. split; [intros o; by apply core_task|].
  apply task_frame; try done. unfold reason. simpl. rewrite E1, E2, E4. exact (t_reason s Ht).
Qed.
End Stopper.

Section Stop.
Context (active : cpumask).

Lemma flush_ok s cpu : inv s -> inv (flush s cpu).
Proof.
  intros Hi. unfold flush. case_decide as H; [|done]. apply task_step; simpl; try done; [|by intros; destruct H; congruence].
  intros H1. destruct (t_enabling s (proj2 Hi) H1) as (H2 & _). destruct H; congruence.
Qed.

(** What migration_cpu_stop leaves alone, and what it does to the request. *)
Lemma stop_out_eq s cpu o c : stop_out s cpu o c = a ← pendings s !! o;
  Some (mk_sys (p s) (callers s) (<[o := set_stop a false]> (pendings s)) (works s)
          (if c then <[cpu := S_complete o]> (stoppers s) else stoppers s) (push_busy s) (push_works s) (nr_pinned s)).
Proof. unfold stop_out. by destruct (pendings s !! o), c. Qed.

Lemma migration_cpu_stop_step s cpu o dest : inv s -> works s !! o = Some cpu -> stoppers s !! cpu = None ->
  ~ (state (p s) = Running /\ task_cpu (p s) = cpu) ->
  exists s', migration_cpu_stop active s cpu o dest = Some s' /\ inv s'.
Proof.
  intros Hi Hw Hs Hrun. set (s0 := flush s cpu).
  assert (inv s0) as [Hc Ht] by by apply flush_ok.
  assert (task_cpu (p s0) = cpu -> state (p s0) = Queued \/ state (p s0) = Sleeping) as Hst.
  { unfold s0, flush. case_decide as H; simpl; [auto|]. intros E. destruct (state (p s)) eqn:Es; naive_solver. }
  assert (works s0 = works s /\ stoppers s0 = stoppers s /\
    flush (put_works s (delete o (works s))) cpu = put_works s0 (delete o (works s0))) as (E1 & E2 & E).
  { unfold s0, flush. fields. by case_decide. }
  rewrite <- E1 in Hw. rewrite <- E2 in Hs. unfold migration_cpu_stop. rewrite E. clearbody s0. clear Hi Hrun E E1 E2 s.
  destruct (work_held s0 o cpu Hc Hw) as (a & Ha & Hsp & Hd & Hm & _). fields.
  assert (reason s0) as Hr by exact (t_reason s0 Ht).
  destruct (decide (task_cpu (p s0) = cpu)) as [Hcpu|Hcpu].
  - specialize (Hst Hcpu). rewrite disabled_spec. case_bool_decide as Hdis.
    + rewrite stop_out_eq. fields. rewrite Ha. fields. eexists. split; [done|]. split.
      * by eapply release_core with (cpu := cpu) (complete := false).
      * apply task_frame with s0; try done. intros o1 a1; fields. intros H1 H2 H3.
        pose proof (t_disabled s0 Ht). assert (0 < migration_disabled (p s0)) by lia.
        split; [done|]. apply (t_off s0 Ht); [|done]. intros E; destruct Hst; congruence.
    + assert (migration_disabled (p s0) = 0) as Hz by (destruct (decide (migration_disabled (p s0) = 0)); [done|by destruct Hdis]).
      unfold clear_pending. fields. rewrite Hm, (decide_True (P := Some o = Some o)) by done. fields.
      set (s1 := if decide _ then _ else _).
      assert (exists q, s1 = put_p (put_works s0 (delete o (works s0))) q /\ migration_pending q = None /\
        migration_disabled q = migration_disabled (p s0) /\ pinned q = pinned (p s0) /\ enabling q = enabling (p s0) /\
        state q = state (p s0)) as (q & -> & Q1 & Q2 & Q3 & Q4 & Q5).
      { unfold s1, move_off. fields. repeat case_decide; try case_match; eexists; (split; [reflexivity|done]). }
      rewrite stop_out_eq. fields. rewrite Ha. fields. eexists. split; [done|]. split.
      * by eapply release_core with (cpu := cpu) (complete := true).
      * apply task_frame with s0; try done; fields; rewrite ?Q5; try done. intros o1 a1; fields. congruence.
  - case_decide as Hin.
    + unfold clear_pending. fields. rewrite Hm, (decide_True (P := Some o = Some o)) by done. rewrite stop_out_eq. fields. rewrite Ha. fields.
      eexists. split; [done|]. split.
      * by eapply release_core with (cpu := cpu) (complete := true).
      * apply task_frame with s0; try done.
    + eexists. split; [done|]. split.
      * intros o'. pose proof (Hc o') as Ho. unfold core in *. counts. rewrite Hs. simpl.
        assert (has (works s0) o = 1) as Hh by (unfold has; by rewrite Hw).
        request o' o; rewrite ?decide_True, ?decide_False by done; [rewrite Ha in *|destruct (pendings s0 !! o')]; try lia;
          destruct Ho as (H1 & H2 & H3 & H4 & H5 & H6); split_and!; try done; lia.
      * apply task_frame with s0; try done.
Qed.

Lemma S_stop_step s cpu o : inv s -> stoppers s !! cpu = Some (S_chase o) ->
  exists s', stopper_next s cpu = Some s' /\ inv s'.
Proof.
  intros [Hc Ht] Hs. destruct (stop_held s Hc (task_cpu (p s)) o) as (a & Ha & _ & Hw & _ & _ & _ & E).
  { pose proof (msum_lookup _ _ _ _ (stops_s_nonneg o) Hs) as H. simpl in H. rewrite one_refl in H.
    pose proof (stops_e_nonneg o (enabling (p s))). pose proof (msum_nonneg (stops_c o) (callers s) (stops_c_nonneg o)). lia. }
  unfold stopper_next. rewrite Hs. fields. unfold stop_one_cpu_nowait in *. fields. rewrite Ha in *. fields.
  rewrite Hw in *. eexists. split; [done|]. split; [|by destruct Ht].
  intros o'. pose proof (Hc o') as Ho. unfold core in *. counts. rewrite Hs. simpl.
  assert (has (works s) o = 0) as Hh by (unfold has; by rewrite Hw).
  request o' o; rewrite ?decide_True, ?decide_False by done; [rewrite Ha in *|destruct (pendings s !! o')]; try lia;
    destruct Ho as (H1 & H2 & H3 & H4 & H5 & H6); split_and!; try done; lia.
Qed.

Lemma S_complete_step s cpu o : inv s -> stoppers s !! cpu = Some (S_complete o) ->
  exists s', stopper_next s cpu = Some s' /\ inv s'.
Proof.
  intros [Hc Ht] Hs. destruct (comp_held s Hc o) as (a & Ha & Hsp & Hd & Hn & Hi & Hn0 & E).
  { pose proof (other_counts s o) as (_ & H & _). pose proof (comp_e_nonneg o (enabling (p s))).
    pose proof (msum_lookup _ _ _ _ (comp_s_nonneg o) Hs) as H1. simpl in H1. rewrite one_refl in H1. lia. }
  unfold stopper_next. rewrite Hs. fields. unfold complete_all in *. fields. rewrite Ha in *. fields.
  eexists. split; [done|]. split.
  - intros o'. pose proof (Hc o') as Ho. unfold core in *. counts. rewrite Hs. simpl.
    request o' o; [rewrite Ha in *; rewrite Hd in *|destruct (pendings s !! o')]; try lia;
      destruct Ho as (H1 & H2 & H3 & H4 & H5 & H6); simpl in *; split_and!; try done; try lia.
    by eapply owner_same with (a := a).
  - apply task_frame with s; try done. intros o1 a1; fields. intros H1 H2 H3.
    rewrite lookup_insert_ne in H2 by congruence. by eapply (t_reason s Ht).
Qed.
End Stop.

(** ** The calls *)
Section Calls.
Context (s : sys) (Hc : forall o, core s o).

Lemma installed_alive o : migration_pending (p s) = Some o -> exists a, pendings s !! o = Some a /\ done a = false /\
  ncomp s o = 0 /\ nstop s o = b2z (stop_pending a).
Proof.
  intros E. pose proof (Hc o) as Ho. pose proof (counts_nonneg s o). destruct (held_alive s o Ho) as (a & Ha).
  { unfold inst. rewrite decide_True by done. lia. }
  exists a. unfold core in Ho. rewrite Ha in Ho. unfold inst in Ho. rewrite decide_True in Ho by done.
  destruct Ho as (H1 & H2 & _). destruct (done a); simpl in *; [lia|]. repeat split; auto; lia.
Qed.
Lemma inst_none o : inst None o = 0.
Proof. done. Qed.
Lemma inst_some o o' : inst (Some o) o' = one o o'.
Proof. unfold inst, one. destruct (decide (o = o')) as [->|]; [by rewrite decide_True|rewrite decide_False; congruence]. Qed.

(** [s] up to the push machinery, which no request depends on. *)
Definition agree (s' : sys) : Prop := callers s' = callers s /\ pendings s' = pendings s /\ works s' = works s /\
  stoppers s' = stoppers s /\ nr_pinned s' = nr_pinned s.

Lemma affine_stay_spec me : exists s' a, affine_stay s me = Some (s', a) /\ agree s' /\
  ((a = A_return 0 /\ p s' = p s /\
    forall o b, migration_pending (p s) = Some o -> pendings s !! o = Some b -> stop_pending b = true) \/
   exists o b, a = A_complete_return o /\ p s' = set_pending (p s) None /\ migration_pending (p s) = Some o /\
     pendings s !! o = Some b /\ stop_pending b = false).
Proof.
  unfold affine_stay. set (s0 := if (_ : bool) then (_ : sys) else s).
  assert (p s0 = p s /\ agree s0) as [E0 A] by (unfold s0, agree; by destruct (_ && _)%bool).
  clearbody s0. pose proof A as (_ & Ep & _).
  rewrite E0. destruct (migration_pending (p s)) as [o|] eqn:Hm.
  - destruct (installed_alive o Hm) as (b & Hb & _). rewrite Ep, Hb. fields. destruct (stop_pending b) eqn:Hs.
    + exists s0, (A_return 0). split_and!; [done|done|left; split_and!; [done|done|naive_solver]].
    + eexists _, _. split; [done|]. split; [exact A|]. right. exists o, b. by split_and!.
  - exists s0, (A_return 0). split_and!; [done|done|left; split_and!; done].
Qed.

(** The request [o] is no longer installed and the thread in [pc], or migrate_enable, completes it. *)
Lemma uninstall_core (s' : sys) (o : Z) b (t : Z) : pendings s !! o = Some b -> stop_pending b = false -> migration_pending (p s) = Some o ->
  pendings s' = pendings s -> works s' = works s -> stoppers s' = stoppers s -> migration_pending (p s') = None ->
  ((callers s !! t = None /\ callers s' = <[t := P_complete o false]> (callers s) /\ enabling (p s') = enabling (p s)) \/
   (callers s' = callers s /\ enabling (p s) = None /\ enabling (p s') = Some (E_complete o))) ->
  forall o', core s' o'.
Proof.
  intros Hb Hsb Hm E1 E2 E3 E4 E5 o'. pose proof (Hc o') as Ho. unfold core in *. rewrite E1.
  unfold nstop, ncomp, nwait, ndec in *. rewrite E2, E3, E4, Hm, inst_some in *. rewrite inst_none.
  assert (callers s' = callers s \/ callers s !! t = None /\ callers s' = <[t := P_complete o false]> (callers s)) as Hcs by tauto.
  assert (forall a', owner_ok s o' a' -> owner_ok s' o' a') as Hown.
  { intros a' H. destruct Hcs as [Hcs|[? Hcs]]; [by eapply owner_same|by eapply owner_new]. }
  destruct E5 as [(C1 & C2 & C3)|(C2 & C1 & C3)]; rewrite C2, C3, ?msum_insert, ?C1 in *;
    cbn [from_option stops_c comp_c waits_c dec_c stops_e comp_e];
    (request o' o; [rewrite Hb in *; rewrite Hsb in *|destruct (pendings s !! o')]); simpl in *.
  all: try lia.
  all: destruct Ho as (H1 & H2 & H3 & H4 & H5 & H6); simpl in *; split_and!; auto; try lia.
  all: intros H; specialize (H5 H); lia.
Qed.

(** The caller [t] installs the request or joins the one installed: [a] before, [a'] after. *)
Definition base (t o : Z) (a : set_affinity_pending) : Prop :=
  (migration_pending (p s) = Some o /\ pendings s !! o = Some a) \/
  (migration_pending (p s) = None /\ o = t /\ a = mk_pending 0 false false).
Definition joined (o : Z) (a a' : set_affinity_pending) (q : option Z) (pc : caller_pc) : Prop :=
  (stop_pending a' = true /\ q = Some o /\ exists c, pc = if stop_pending a then P_wait o else P_stop c o) \/
  (stop_pending a' = stop_pending a /\ q = Some o /\ pc = P_wait o) \/
  (stop_pending a' = false /\ stop_pending a = false /\ q = None /\ pc = P_complete o true).

Lemma no_caller_no_request t : callers s !! t = None -> pendings s !! t = None.
Proof.
  intros H. pose proof (Hc t) as Ho. unfold core in Ho. destruct (pendings s !! t); [|done].
  destruct Ho as (_ & _ & _ & _ & _ & (pc & Hpc & _)). congruence.
Qed.
Lemma dec_waits o : nwait s o = 0 -> ndec s o = 0.
Proof.
  intros H. pose proof (counts_nonneg s o). destruct (decide (ndec s o = 0)) as [|n]; [done|]. exfalso.
  destruct (msum_pos (dec_c o) (callers s)) as (t & pc & Hpc & Hd); [unfold ndec in *; lia|].
  pose proof (caller_counts s t pc o Hpc) as (_ & _ & Hw & _). destruct pc; simpl in *; lia.
Qed.
Lemma join_core s' t o a a' pc : callers s !! t = None -> base t o a -> refs a' = refs a + 1 -> done a' = done a ->
  joined o a a' (migration_pending (p s')) pc -> callers s' = <[t := pc]> (callers s) ->
  pendings s' = <[o := a']> (pendings s) -> works s' = works s -> stoppers s' = stoppers s ->
  enabling (p s') = enabling (p s) -> forall o', core s' o'.
Proof.
  intros Htc Hb Hr Hd Hj E1 E2 E3 E4 E5 o'. pose proof (no_caller_no_request t Htc) as Hp.
  assert (waits pc = Some o) as Hw.
  { destruct Hj as [(_ & _ & c & ->)|[(_ & _ & ->)|(_ & _ & _ & ->)]]; [by destruct (stop_pending a)|done|done]. }
  assert (nstop s o = b2z (stop_pending a) /\ ncomp s o = 0 /\ refs a = nwait s o /\ ndec s o = 0 /\ done a = false /\
    (forall o', inst (migration_pending (p s)) o' = 0 \/ o' = o) /\ owner_ok s' o a') as (B1 & B2 & B3 & B4 & B5 & B6 & B7).
  { destruct Hb as [[Hm Ha]|(Hm & -> & ->)].
    - destruct (installed_alive o Hm) as (a0 & Ha0 & D1 & D2 & D3). rewrite Ha in Ha0. injection Ha0 as <-.
      pose proof (Hc o) as Ho. unfold core in Ho. rewrite Ha in Ho. destruct Ho as (_ & _ & _ & H4 & H5 & H6).
      split_and!; auto; [|by eapply owner_new; [..|exact H6]; [done|done|rewrite Hd]].
      intros o1. rewrite Hm, inst_some. unfold one. case_decide; auto.
    - pose proof (Hc t) as Ho. unfold core in Ho. rewrite Hp in Ho. destruct Ho as (H1 & H2 & H3 & H4).
      pose proof (dec_waits t). pose proof (counts_nonneg s t). simpl. split_and!; try lia; try done.
      + intros o1. left. by rewrite Hm.
      + exists pc. rewrite E1, lookup_insert_eq. split; [done|by left]. }
  pose proof (Hc o') as Ho. unfold core in *. rewrite E2.
  unfold nstop, ncomp, nwait, ndec in *. rewrite E1, E3, E4, E5, !msum_insert, Htc. cbn [from_option].
  destruct (decide (o' = o)) as [->|Hne].
  - rewrite lookup_insert_eq.
    destruct Hj as [(J1 & -> & c & ->)|[(J1 & -> & ->)|(J1 & J2 & -> & ->)]]; rewrite ?J1, ?J2, ?inst_some, ?inst_none in *;
      [destruct (stop_pending a)|..]; simpl in *; rewrite ?one_refl, ?Hd, ?B5 in *; simpl; split_and!; auto; try lia.
    all: destruct (stop_pending a); simpl; lia.
  - rewrite lookup_insert_ne by done. assert (one o o' = 0) as Z1 by (apply one_ne; congruence).
    assert (inst (migration_pending (p s')) o' = inst (migration_pending (p s)) o') as Hii.
    { destruct (B6 o') as [->|]; [|done]. destruct Hj as [(_ & -> & _)|[(_ & -> & _)|(_ & _ & -> & _)]]; by rewrite ?inst_some. }
    rewrite Hii.
    assert (stops_c o' pc = 0 /\ comp_c o' pc = 0 /\ waits_c o' pc = 0 /\ dec_c o' pc = 0) as (Z2 & Z3 & Z4 & Z5).
    { destruct Hj as [(_ & _ & c & ->)|[(_ & _ & ->)|(_ & _ & _ & ->)]]; [destruct (stop_pending a)|..]; simpl; auto. }
    rewrite Z2, Z3, Z4, Z5. destruct (pendings s !! o'); [|lia]. destruct Ho as (H1 & H2 & H3 & H4 & H5 & H6).
    split_and!; try lia; [intros H; specialize (H5 H); lia|]. by eapply owner_new.
Qed.
End Calls.

Section Requests.
Context (active : cpumask).

(** affine_move_task of a caller, whichever of its paths is taken: the request [o] it waits for, before
    and after, the task, and where the caller goes. *)
Definition wait_pc (next : after) : option caller_pc :=
  match next with A_stop c o => Some (P_stop c o) | A_complete_wait o => Some (P_complete o true)
  | A_wait o => Some (P_wait o) | _ => None end.
Definition wait_outcome (s : sys) (t dest : Z) (r : option (sys * after)) : Prop :=
  exists o a a' q pc next, r = Some (put_p (put_pending s o a') q, next) /\ wait_pc next = Some pc /\
    base s t o a /\ refs a' = refs a + 1 /\ done a' = done a /\ joined o a a' (migration_pending q) pc /\
    (migration_pending q <> None -> stop_pending a' = false -> 0 < migration_disabled (p s) /\ pinned (p s) <> None) /\
    (q = set_pending (p s) (migration_pending q) \/
     state (p s) = Queued /\ migration_disabled (p s) = 0 /\ q = set_pending (set_cpu (p s) dest) (migration_pending q)) /\
    (migration_pending q = None -> (state q = Sleeping /\ migration_disabled q = 0) \/ task_cpu q = dest).
Lemma affine_wait_spec s t dest : inv s -> callers s !! t = None -> task_cpu (p s) ∉ cpus_mask (p s) ->
  wait_outcome s t dest (affine_move_task s t dest false).
Proof.
  intros Hi Ht Hn. unfold affine_move_task. rewrite decide_False by done.
  assert (exists o a b, base s t o a /\ b = set_refs a (refs a + 1) /\ affine_install s t =
    Some (put_p (put_pending s o b) (set_pending (p s) (Some o)))) as (o & a & b & Hb & -> & E).
  { unfold affine_install. destruct (migration_pending (p s)) as [o|] eqn:Hm.
    - destruct (installed_alive s (proj1 Hi) o Hm) as (a & Ha & _). exists o, a, (set_refs a (refs a + 1)).
      split; [by left|]. split; [done|]. rewrite Ha. fields. f_equal. destruct s as [[]]. simpl in *. by subst.
    - exists t, (mk_pending 0 false false), (mk_pending 1 false false). split; [by right|]. by split. }
  rewrite E. fields. unfold affine_kick. fields. rewrite lookup_insert_eq. fields.
  pose proof (t_off s (proj2 Hi)) as Hoff. pose proof (t_disabled s (proj2 Hi)) as Hd.
  change (is_migration_disabled (set_pending (p s) (Some o))) with (is_migration_disabled (p s)). rewrite disabled_spec.
  assert (wait_outcome s t dest
      (Some (put_pending (put_p (put_pending s o (set_refs a (refs a + 1))) (set_pending (p s) (Some o))) o
               (mk_pending (refs a + 1) true (done a)),
             if negb (stop_pending a) then A_stop (task_cpu (p s)) o else A_wait o))) as Hrun.
  { exists o, a, (mk_pending (refs a + 1) true (done a)), (set_pending (p s) (Some o)),
      (if stop_pending a then P_wait o else P_stop (task_cpu (p s)) o), (if negb (stop_pending a) then A_stop (task_cpu (p s)) o else A_wait o).
    split_and!; try done; [|by destruct (stop_pending a)| |by left].
    - unfold put_pending. fields. by rewrite insert_insert_eq.
    - left. split_and!; [done|done|by exists (task_cpu (p s))]. }
  destruct (state (p s)) eqn:Es; [exact Hrun| |exact Hrun|].
  all: case_bool_decide as Hdis.
  - exists o, a, (set_refs a (refs a + 1)), (set_pending (p s) (Some o)), (P_wait o), (A_wait o).
    split_and!; try done; [|intros; split; [lia|apply Hoff; [congruence|lia]]|by left]. right; left. by split_and!.
  - assert (migration_disabled (p s) = 0) as Hz by (destruct (decide (migration_disabled (p s) = 0)); [done|by destruct Hdis]).
    destruct (stop_pending a) eqn:Ha.
    + exists o, a, (set_refs a (refs a + 1)), (set_cpu (set_pending (p s) (Some o)) dest), (P_wait o), (A_wait o).
      split_and!; try done; [|intros; simpl in *; congruence|by right]. right; left. by split_and!.
    + exists o, a, (set_refs a (refs a + 1)), (set_pending (set_cpu (p s) dest) None), (P_complete o true), (A_complete_wait o).
      split_and!; try done; [|by right|by right]. right; right. by split_and!.
  - exists o, a, (set_refs a (refs a + 1)), (set_pending (p s) (Some o)), (P_wait o), (A_wait o).
    split_and!; try done; [|intros; split; [lia|apply Hoff; [congruence|lia]]|by left]. right; left. by split_and!.
  - destruct (stop_pending a) eqn:Ha.
    + exists o, a, (set_refs a (refs a + 1)), (set_pending (p s) (Some o)), (P_wait o), (A_wait o).
      split_and!; try done; [|intros; simpl in *; congruence|by left]. right; left. by split_and!.
    + exists o, a, (set_refs a (refs a + 1)), (set_pending (p s) None), (P_complete o true), (A_complete_wait o).
      split_and!; try done; [|by left|by left]. right; right. by split_and!.
Qed.

Lemma wait_step s t dest r : inv s -> callers s !! t = None -> wait_outcome s t dest r ->
  exists s' next pc, r = Some (s', next) /\ wait_pc next = Some pc /\ inv (put_callers s' (<[t := pc]> (callers s'))) /\
    cpus_mask (p s') = cpus_mask (p s) /\
    (migration_pending (p s') = None -> (state (p s') = Sleeping /\ migration_disabled (p s') = 0) \/ task_cpu (p s') = dest).
Proof.
  intros Hi Ht (o & a & a' & q & pc & next & -> & Hw & Hb & Hr & Hd & Hj & Hre & Hq & Hqn).
  exists (put_p (put_pending s o a') q), next, pc. split_and!; try done.
  - split.
    + assert (enabling q = enabling (p s)) by (destruct Hq as [->|(_ & _ & ->)]; done).
      by eapply join_core; [exact (proj1 Hi)|..].
    + apply task_frame with s; fields; try exact (proj2 Hi); try (by destruct Hq as [->|(_ & _ & ->)]). 1: done.
      * destruct Hq as [->|(E & Hz & ->)]; fields; [done|auto].
      * intros o1 a1. fields. intros H1 H2 H3.
        assert (o1 = o) as -> by (destruct Hj as [(_ & E & _)|[(_ & E & _)|(_ & _ & E & _)]]; congruence).
        rewrite lookup_insert_eq in H2. injection H2 as <-.
        assert (migration_disabled q = migration_disabled (p s) /\ pinned q = pinned (p s)) as [-> ->]
          by (by destruct Hq as [->|(_ & _ & ->)]).
        apply Hre; [congruence|done].
  - fields. by destruct Hq as [->|(_ & _ & ->)].
Qed.

Lemma set_mask_inv s m : inv s -> inv (put_p s (set_mask (p s) m)).
Proof. intros. apply task_step; fields; try done; intros; congruence. Qed.

Lemma request_step s t self m dest : inv s -> callers s !! t = None -> active ∩ cpus_mask (p s) <> ∅ ->
  exists s' r, set_cpus_allowed_ptr active s t self m dest = Some (s', r) /\ inv s' /\ active ∩ cpus_mask (p s') <> ∅ /\
    (cpus_mask (p s') = cpus_mask (p s) \/ cpus_mask (p s') = m) /\
    (placed (p s) -> active ∩ m = ∅ \/ dest ∈ active ∩ m -> placed (p s')).
Proof.
  intros Hi Ht Hm. unfold set_cpus_allowed_ptr. case_decide; [eexists _, _; split; [reflexivity|by auto]|]. case_match; [eexists _, _; split; [reflexivity|by auto]|]. clear H H0.
  case_decide as Hv; [eexists _, _; split; [reflexivity|by auto]|].
  set (s0 := put_p s (set_mask (p s) m)). assert (inv s0) as H0 by by apply set_mask_inv.
  assert (callers s0 !! t = None) as Ht0 by done. assert (active ∩ cpus_mask (p s0) <> ∅) as Hv0 by done.
  assert (cpus_mask (p s0) = m) as Hm0 by done. clearbody s0.
  destruct (decide (task_cpu (p s0) ∈ cpus_mask (p s0))) as [Hin|Hin].
  - unfold affine_move_task. rewrite decide_True by done.
    destruct (affine_stay_spec s0 (proj1 H0) false) as (s1 & a & -> & (A1 & A2 & A3 & A4 & A5) & [(-> & E & _)|(o & b & -> & E & B1 & B2 & B3)]);
      fields.
    + eexists _, _. split; [done|]. rewrite E. split; [|split_and!; [done|by right|intros; by left]]. split.
      * intros o. pose proof (proj1 H0 o) as Ho. unfold core, nstop, ncomp, nwait, ndec, owner_ok in *.
        by rewrite A1, A2, A3, A4, E.
      * apply task_frame with s0; rewrite ?E; try done; [exact (proj2 H0)|]. unfold reason. rewrite A2, E.
        exact (t_reason s0 (proj2 H0)).
    + eexists _, _. split; [done|]. fields. rewrite E. split; [|split_and!; [done|by right|intros; by left]]. split.
      * apply (uninstall_core s0 (proj1 H0)) with (o := o) (b := b) (t := t); fields; rewrite ?E; try done. left. by rewrite A1.
      * apply task_frame with s0; fields; rewrite ?E; try done; [exact (proj2 H0)|]. intros o1 a1. fields. by rewrite E.
  - destruct (wait_step s0 t dest _ H0 Ht0 (affine_wait_spec s0 t dest H0 Ht0 Hin)) as (s1 & next & pc & -> & Hw & H1 & H2 & H3).
    assert (placed (p s) -> active ∩ m = ∅ \/ dest ∈ active ∩ m -> placed (p s1)) as Hp.
    { intros _ [Hd|Hd]; [congruence|]. unfold placed. destruct (migration_pending (p s1)); [by right; right|].
      destruct (H3 eq_refl) as [?| ->]; [by right; left|]. left. rewrite H2, Hm0. set_solver. }
    fields. destruct next; injection Hw as <- || discriminate Hw; eexists _, _; (split; [reflexivity|]); fields;
      rewrite ?H2, ?Hm0 in *; split_and!; auto.
Qed.
End Requests.

(** ** migrate_enable *)
Section Enable.
Context (active : cpumask) (s : sys) (Hi : inv s).

(** No request depends on where migrate_enable is, while it has nothing to stop or to complete. *)
Lemma core_enabling s0 s' o : callers s' = callers s0 -> pendings s' = pendings s0 -> works s' = works s0 ->
  stoppers s' = stoppers s0 -> migration_pending (p s') = migration_pending (p s0) ->
  stops_e o (enabling (p s')) = stops_e o (enabling (p s0)) -> comp_e o (enabling (p s')) = comp_e o (enabling (p s0)) ->
  core s0 o -> core s' o.
Proof. intros A1 A2 A3 A4. unfold core, nstop, ncomp, nwait, ndec, owner_ok. rewrite A1, A2, A3, A4. by intros -> -> ->. Qed.

(** The last migrate_enable has done its locked section. *)
Lemma enabling_ok s' e : state (p s) = Running -> migration_disabled (p s) = 1 -> task_cpu (p s') = task_cpu (p s) ->
  state (p s') = Running -> migration_disabled (p s') = 1 -> pinned (p s') = None -> enabling (p s') = Some e ->
  nr_pinned s' = nr_pinned s ->
  (forall o a, migration_pending (p s') = Some o -> pendings s' !! o = Some a -> stop_pending a = true) -> task_ok s'.
Proof.
  intros H1 H2 H3 H4 H5 H6 H7 H8 H9. split; rewrite ?H3, ?H4, ?H5, ?H6, ?H7, ?H8; try done.
  - intros o a Ho Ha Hs. rewrite (H9 o a Ho Ha) in Hs. done.
  - intros c. rewrite (t_nr s (proj2 Hi)), H2. done.
Qed.

(** migrate_enable leaves the request to the stopper of its CPU, unless one has it already. *)
Lemma kick_inv o a e : state (p s) = Running -> enabling (p s) = None -> migration_disabled (p s) = 1 ->
  migration_pending (p s) = Some o -> pendings s !! o = Some a ->
  (forall o', stops_e o' (Some e) = if stop_pending a then 0 else one o o') -> (forall o', comp_e o' (Some e) = 0) ->
  inv (put_p (put_pending s o (set_stop a true)) (set_enabling (set_push (set_pinned (p s) None) false) (Some e))).
Proof.
  intros Hr He H1 Hmp Ha S1 S2. destruct (installed_alive s (proj1 Hi) o Hmp) as (b & Hb & Hd0 & Hn & Hst).
  rewrite Ha in Hb. injection Hb as <-. split.
  - intros o'. pose proof (proj1 Hi o') as Ho. unfold core in *. counts. rewrite S1, S2.
    rewrite He in *. simpl in *.
    rewrite Hmp, inst_some in *. request o' o; [rewrite Ha in *|destruct (pendings s !! o') eqn:Ep; rewrite ?Ep in *].
    + destruct Ho as (K1 & K2 & K3 & K4 & K5 & K6). rewrite Hd0 in *. simpl in *. fields. rewrite ?Hd0; simpl.
      split_and!; auto; try (destruct (stop_pending a); simpl in *; lia); try done.
    + destruct Ho as (K1 & K2 & K3 & K4 & K5 & K6). split_and!; auto; destruct (stop_pending a); lia.
    + destruct (stop_pending a); lia.
  - apply enabling_ok with e; fields; try done. intros o1 a1 M1 M2. rewrite Hmp in M1. injection M1 as <-.
    rewrite lookup_insert_eq in M2. by injection M2 as <-.
Qed.

Lemma migrate_enable_step dest : state (p s) = Running -> enabling (p s) = None -> migration_disabled (p s) <> 0 ->
  active ∩ cpus_mask (p s) <> ∅ ->
  exists s', migrate_enable active s dest = Some s' /\ inv s' /\ cpus_mask (p s') = cpus_mask (p s) /\
    (placed (p s) -> placed (p s')).
Proof.
  intros Hr He Hd Hm. pose proof (t_disabled s (proj2 Hi)) as T1. pose proof (t_reason s (proj2 Hi)) as T5.
  unfold migrate_enable. destruct (Z.ltb_spec 1 (migration_disabled (p s))).
  { eexists. split; [done|]. split; [|split; [done|by apply placed_awake]]. split; [intros o; apply core_task; try done; apply Hi|].
    pose proof (t_pinned s (proj2 Hi)) as T2. pose proof (t_off s (proj2 Hi)) as T3. pose proof (t_nr s (proj2 Hi)) as T6.
    split; fields; try done; try lia.
    - intros c Hc. destruct (T2 c Hc) as [-> ?]. split; [done|lia].
    - intros o a H1 H2 H3. destruct (T5 o a H1 H2 H3). split; [lia|done].
    - intros c. rewrite T6. apply decide_ext. lia. }
  assert (migration_disabled (p s) = 1) as H1 by lia.
  destruct (pinned (p s)) as [c0|] eqn:Hpin.
  2:{ eexists. split; [done|]. split; [|split; [done|by apply placed_awake]]. split.
      - intros o. apply core_enabling with s; fields; rewrite ?He; try done. apply Hi.
      - apply enabling_ok with E_clear; try done. intros o a Ho Ha. destruct (stop_pending a) eqn:Hs; [done|].
        by destruct (T5 o a Ho Ha Hs). }
  rewrite decide_False by done. set (s0 := put_p s (set_pinned (p s) None)).
  assert (enabling (p s0) = None) as He0 by exact He.
  assert (forall o, core s0 o) as Hc0 by (intros o; apply core_task; try done; apply Hi).
  unfold affine_move_task. case_decide as Hin.
  - destruct (affine_stay_spec s0 Hc0 true) as (s1 & a & -> & A & [(-> & E & Hst)|(o & b & -> & E & B1 & B2 & B3)]); fields;
      (eexists; split; [done|]; split; [|fields; rewrite E; split; [done|intros _; left; exact Hin]]); pose proof A as (A1 & A2 & A3 & A4 & A5).
    + split.
      * intros o. apply core_enabling with s0; fields; rewrite ?E, ?He0; try done.
      * apply enabling_ok with E_clear; fields; rewrite ?E, ?A2; try done.
    + split.
      * apply (uninstall_core s0 Hc0) with (o := o) (b := b) (t := 0); fields; rewrite ?E; try done. right. by rewrite A1.
      * apply enabling_ok with (E_complete o); fields; rewrite ?E; done.
  - fields. destruct (migration_pending (p s0)) as [o|] eqn:Hmp.
    2:{ fields. eexists. split; [done|]. split; [|split; [done|by apply placed_awake]]. split.
        - intros o. apply core_enabling with s0; fields; rewrite ?He0; try done.
        - apply enabling_ok with E_clear; fields; try done. intros o a Ho. exfalso. cbn in Hmp, Ho. congruence. }
    destruct (installed_alive s0 Hc0 o Hmp) as (a & Ha & Hd0 & Hn & Hst).
    unfold affine_kick. rewrite Ha. cbn [mbind option_bind]. change (state (p s0)) with (state (p s)). rewrite Hr.
    pose proof (fun e => kick_inv o a e Hr He H1 Hmp Ha) as Hk.
    destruct (stop_pending a) eqn:Es; fields; (eexists; split; [done|]; split; [|split; [done|by apply placed_awake]]).
    + apply Hk; done.
    + apply Hk; done.
Qed.
End Enable.

Lemma enable_next_step s : inv s -> enabling (p s) <> None ->
  exists s', enable_next s = Some s' /\ inv s' /\ cpus_mask (p s') = cpus_mask (p s).
Proof.
  intros Hi He. destruct (t_enabling s (proj2 Hi) He) as (Hr & H1 & Hp). pose proof (proj1 Hi) as Hc.
  assert (forall o a, migration_pending (p s) = Some o -> pendings s !! o = Some a -> stop_pending a = true) as Hst.
  { intros o a Ho Ha. destruct (stop_pending a) eqn:Hs; [done|]. by destruct (t_reason s (proj2 Hi) o a Ho Ha Hs). }
  unfold enable_next. destruct (enabling (p s)) as [[c o|o|]|] eqn:Een; [..|done]; fields.
  - destruct (stop_held s Hc c o) as (a & Ha & Hs & Hw & Hn & Hm & Hd & ->).
    { rewrite Een. simpl. rewrite one_refl. pose proof (msum_nonneg (stops_s o) (stoppers s) (stops_s_nonneg o)).
      pose proof (msum_nonneg (stops_c o) (callers s) (stops_c_nonneg o)). lia. }
    fields. eexists. split; [done|]. split; [|done]. split.
    + intros o'. pose proof (Hc o') as Ho. unfold core in *. counts. rewrite Een in *. simpl in *.
      assert (has (works s) o = 0) as Hh by (unfold has; by rewrite Hw).
      request o' o; rewrite ?decide_True, ?decide_False by done; [rewrite Ha in *|destruct (pendings s !! o')]; try lia;
        destruct Ho as (K1 & K2 & K3 & K4 & K5 & K6); split_and!; try done; lia.
    + apply enabling_ok with (s := s) (e := E_clear); try done.
  - destruct (comp_held s Hc o) as (a & Ha & Hs & Hd & Hn & Hm & Hn0 & ->).
    { pose proof (other_counts s o) as (_ & H & _). rewrite Een in H. simpl in H. rewrite one_refl in H.
      pose proof (msum_nonneg (comp_s o) (stoppers s) (comp_s_nonneg o)). lia. }
    fields. eexists. split; [done|]. split; [|done]. split.
    + intros o'. pose proof (Hc o') as Ho. unfold core in *. counts. rewrite Een in *. simpl in *.
      request o' o; [rewrite Ha in *; rewrite Hd in *|destruct (pendings s !! o')]; try lia;
        destruct Ho as (K1 & K2 & K3 & K4 & K5 & K6); simpl in *; split_and!; try done; try lia.
      by eapply owner_same with (a := a).
    + apply enabling_ok with (s := s) (e := E_clear); try done. fields. intros o1 a1 M1 M2.
      rewrite lookup_insert_ne in M2 by congruence. by eapply Hst.
  - eexists. split; [done|]. split; [|done]. split.
    + intros o. apply core_enabling with s; fields; rewrite ?Een; try done.
    + unfold add_pinned. split; fields; try done; try lia.
      * intros c. congruence.
      * intros o a M1 M2 M3. by rewrite (Hst o a M1 M2) in M3.
      * intros c. pose proof (t_nr s (proj2 Hi) c) as T. rewrite lookup_insert, H1 in *.
        rewrite (decide_False (P := 0 < 0 /\ task_cpu (p s) = c)) by lia. destruct (decide (task_cpu (p s) = c)) as [<-|n].
        -- rewrite decide_True in T by (split; [lia|done]). simpl. lia.
        -- by rewrite T, decide_False by (by intros [_ ?]).
Qed.

(** ** The task runs, sleeps, moves *)
Lemma cpus_ptr_off s cpu : inv s -> cpu ∈ cpus_ptr (p s) -> cpu <> task_cpu (p s) -> pinned (p s) = None.
Proof.
  intros Hi. unfold cpus_ptr. destruct (pinned (p s)) as [c|] eqn:E; [|done]. rewrite elem_of_singleton. intros -> H.
  by destruct (t_pinned s (proj2 Hi) c E).
Qed.
(** Off its CPU, a task that is pinned to none can be moved. *)
Lemma unpinned_free s : inv s -> state (p s) <> Running -> pinned (p s) = None -> migration_disabled (p s) = 0.
Proof.
  intros Hi Hr Hp. pose proof (t_disabled s (proj2 Hi)). pose proof (t_off s (proj2 Hi) Hr).
  destruct (decide (migration_disabled (p s) = 0)); [done|]. exfalso. apply H0; [lia|done].
Qed.
Lemma move_step s q : inv s -> state (p s) <> Running -> task_cpu q ∈ cpus_ptr (p s) -> state q <> Running ->
  migration_disabled q = migration_disabled (p s) -> pinned q = pinned (p s) -> enabling q = enabling (p s) ->
  migration_pending q = migration_pending (p s) -> inv (put_p s q).
Proof.
  intros Hi Hr Hin Hq E1 E2 E3 E4. apply task_step; try done.
  - intros H. destruct (t_enabling s (proj2 Hi) H). done.
  - intros H. apply (unpinned_free s Hi Hr). by eapply cpus_ptr_off.
Qed.

Lemma leave_step s st : inv s -> state (p s) = Running -> enabling (p s) = None -> st <> Running ->
  inv (put_p s (set_state (migrate_disable_switch (p s)) st)).
Proof.
  intros Hi Hr He Hst. unfold migrate_disable_switch. rewrite disabled_spec. case_bool_decide as Hd; simpl.
  - assert (0 < migration_disabled (p s)) as Hpos by (pose proof (t_disabled s (proj2 Hi)); lia).
    destruct (pinned (p s)) as [c|] eqn:Hp.
    + apply task_step; fields; try done. by intros; rewrite Hp.
    + split; [intros o; apply core_task; try done; apply Hi|]. split; fields; try done; try lia.
      * intros c [= <-]. done.
      * apply (t_nr s (proj2 Hi)).
  - assert (migration_disabled (p s) = 0) as Hz by (destruct (decide (migration_disabled (p s) = 0)); [done|by destruct Hd]).
    apply task_step; fields; try done; intros; try congruence; lia.
Qed.

Lemma disable_step s : inv s -> state (p s) = Running -> enabling (p s) = None -> inv (migrate_disable s).
Proof.
  intros Hi Hr He. unfold migrate_disable. rewrite disabled_spec. case_bool_decide as Hd.
  - assert (0 < migration_disabled (p s)) as Hpos by (pose proof (t_disabled s (proj2 Hi)); lia).
    split; [intros o; apply core_task; try done; apply Hi|]. split; fields; try done; try lia.
    + intros c Hc. destruct (t_pinned s (proj2 Hi) c Hc). split; [done|lia].
    + intros o a M1 M2 M3. destruct (t_reason s (proj2 Hi) o a M1 M2 M3). split; [lia|done].
    + intros c. rewrite (t_nr s (proj2 Hi)). apply decide_ext. lia.
  - assert (migration_disabled (p s) = 0) as Hz by (destruct (decide (migration_disabled (p s) = 0)); [done|by destruct Hd]).
    split; [intros o; apply core_ext with (put_p s (set_disabled (p s) 1)); try done; apply core_task; try done; apply Hi|].
    unfold add_pinned. split; fields; try done; try lia.
    + intros c Hc. destruct (t_pinned s (proj2 Hi) c Hc). lia.
    + intros o a M1 M2 M3. destruct (t_reason s (proj2 Hi) o a M1 M2 M3). lia.
    + intros c. pose proof (t_nr s (proj2 Hi) c) as T. rewrite decide_False in T by lia. rewrite lookup_insert.
      destruct (decide (task_cpu (p s) = c)) as [<-|n]; simpl.
      * rewrite T, decide_True by (split; [lia|done]). done.
      * by rewrite T, decide_False by (by intros [_ ?]).
Qed.

Lemma push_step s cpu lowest : inv s -> (forall c, lowest = Some c -> state (p s) = Queued /\ c ∈ cpus_ptr (p s)) ->
  inv (push_cpu_stop s cpu lowest) /\ cpus_mask (p (push_cpu_stop s cpu lowest)) = cpus_mask (p s).
Proof.
  intros Hi Hl. assert (forall s' b w, inv s' -> inv (put_push s' b w)) as Hput.
  { intros s' b w [H1 H2]. split; [intros o; by apply core_ext with s'|]. apply task_frame with s'; try done. exact (t_reason s' H2). }
  assert (forall b, inv (put_p s (set_push (p s) b))) as Hb.
  { intros b. apply task_step; fields; try done; intros; congruence. }
  unfold push_cpu_stop. cbv zeta. case_decide; [split; [by apply Hput|done]|]. case_match; [split; [apply Hput; apply Hb|done]|].
  destruct lowest as [c|]; (split; [apply Hput|done]); [|apply Hb].
  destruct (Hl c eq_refl) as [Hq Hc]. apply (move_step (put_p s (set_push (p s) false))); fields; try done; by rewrite Hq.
Qed.

(** ** Every step *)
Lemma preemptible_spec s : preemptible s = true <-> enabling (p s) = None.
Proof. unfold preemptible. by destruct (enabling (p s)). Qed.
Lemma absent_spec {A} x (m : gmap Z A) : absent x m = true <-> m !! x = None.
Proof. unfold absent. by destruct (m !! x). Qed.
Lemma is_state_spec s v : is_state s v = true <-> state (p s) = v.
Proof. unfold is_state. apply bool_decide_eq_true. Qed.
Lemma is_in_spec c m : is_in c m = true <-> c ∈ m.
Proof. unfold is_in. apply bool_decide_eq_true. Qed.

Definition good (active : cpumask) (s : sys) : Prop := inv s /\ active ∩ cpus_mask (p s) <> ∅.

Section Every.
Context (active : cpumask).

Lemma caller_step s t : inv s -> allowed active s (Caller t) = true -> exists s', caller_next s t = Some s' /\ inv s'.
Proof.
  intros Hi. simpl. destruct (callers s !! t) as [pc|] eqn:Hpc; [|done]. destruct pc as [c o|o w|o|o|]; intros Ha.
  - by eapply P_stop_step.
  - by eapply P_complete_step.
  - destruct (caller_alive s t _ o (proj1 Hi o) Hpc) as (a & E).
    { simpl. rewrite one_refl. lia. }
    rewrite E in Ha. by eapply P_wait_step.
  - by eapply P_dec_step.
  - apply P_own_step; try done. intros a E. rewrite E in Ha. by apply Z.eqb_eq.
Qed.
(** Nothing in [caller_next] or in the stoppers looks at the mask. *)
Lemma caller_mask s t s' : caller_next s t = Some s' -> p s' = p s.
Proof.
  unfold caller_next, stop_one_cpu_nowait, complete_all.
  destruct (callers s !! t) as [[c o|o w|o|o|]|]; cbn [mbind option_bind]; [..|done].
  1,2,3,4: destruct (pendings s !! o); cbn [mbind option_bind]; [|done].
  - destruct (works s !! o); cbn [mbind option_bind]; [done|]. by intros [= <-].
  - by intros [= <-].
  - destruct (done s0); [by intros [= <-]|done].
  - by intros [= <-].
  - destruct (pendings s !! t); [destruct (refs s0 =? 0)|]; by intros [= <-].
Qed.
Lemma stopper_next_mask s cpu s' : stopper_next s cpu = Some s' -> p s' = p s.
Proof.
  unfold stopper_next, stop_one_cpu_nowait, complete_all. destruct (stoppers s !! cpu) as [[o|o]|]; fields; [..|done].
  all: destruct (pendings s !! o); fields; [|done].
  - by intros [= <-].
  - destruct (works s !! o); [done|]. by intros [= <-].
Qed.
Lemma stop_mask s cpu o dest s' : migration_cpu_stop active s cpu o dest = Some s' -> cpus_mask (p s') = cpus_mask (p s).
Proof.
  unfold migration_cpu_stop, flush, stop_out, clear_pending, move_off. fields.
  repeat (case_decide || case_match); fields; destruct (pendings s !! o); fields; try done; by intros [= <-].
Qed.

Lemma good_mask s s' : active ∩ cpus_mask (p s) <> ∅ -> cpus_mask (p s') = cpus_mask (p s) -> inv s' ->
  exists s1 r1, Some (s', 0) = Some (s1, r1) /\ good active s1.
Proof. intros Hm E Hi. exists s', 0. split; [done|]. split; [done|]. by rewrite E. Qed.

Lemma every_step s e : good active s -> allowed active s e = true ->
  exists s' r, exec active s e = Some (s', r) /\ good active s'.
Proof.
  intros [Hi Hm] Ha. destruct e as [t self m dest|t|cpu o dest|cpu|cpu lowest| | | |cpu| |cpu| |dest|]; simpl in Ha |- *.
  - rewrite !andb_true_iff, absent_spec in Ha. destruct Ha as [[Ht _] _].
    destruct (request_step active s t self m dest Hi Ht Hm) as (s' & r & E & H1 & H2 & _). by exists s', r.
  - destruct (caller_step s t Hi Ha) as (s' & E & H). rewrite E. apply (good_mask s); [done|by erewrite caller_mask|done].
  - rewrite !andb_true_iff, absent_spec, bool_decide_eq_true, negb_true_iff in Ha. destruct Ha as [[[Hw Hs] Hr] _].
    destruct (migration_cpu_stop_step active s cpu o dest Hi Hw Hs) as (s' & E & H).
    { intros [Es Ec]. apply is_state_spec in Es. rewrite Es, Ec, Z.eqb_refl in Hr. done. }
    rewrite E. apply (good_mask s); [done|by eapply stop_mask|done].
  - rewrite negb_true_iff in Ha. destruct (stoppers s !! cpu) as [[o|o]|] eqn:Hs; [..|by unfold absent in Ha; rewrite Hs in Ha].
    + destruct (S_complete_step s cpu o Hi Hs) as (s' & E & H). rewrite E. apply (good_mask s); [done|by erewrite stopper_next_mask|done].
    + destruct (S_stop_step s cpu o Hi Hs) as (s' & E & H). rewrite E. apply (good_mask s); [done|by erewrite stopper_next_mask|done].
  - destruct (push_step s cpu lowest Hi) as [H1 H2].
    { intros c ->. simpl in Ha. rewrite !andb_true_iff, is_state_spec, !is_in_spec in Ha. tauto. }
    by apply (good_mask s).
  - apply is_state_spec in Ha. eexists _, _. split; [done|]. split; [|done].
    apply task_step; fields; try done; intros; try congruence. destruct (t_enabling s (proj2 Hi) H). congruence.
  - rewrite andb_true_iff, is_state_spec, preemptible_spec in Ha. destruct Ha. apply (good_mask s); [done| |by apply leave_step].
    unfold migrate_disable_switch. by repeat case_match.
  - rewrite andb_true_iff, is_state_spec, preemptible_spec in Ha. destruct Ha. apply (good_mask s); [done| |by apply leave_step].
    unfold migrate_disable_switch. by repeat case_match.
  - rewrite andb_true_iff, is_state_spec in Ha. destruct Ha as [Hs Hc]. unfold is_cpu_allowed in Hc.
    rewrite andb_true_iff, !bool_decide_eq_true in Hc. apply (good_mask s); [done|done|].
    apply move_step; fields; try done; [by rewrite Hs|tauto].
  - apply is_state_spec in Ha. apply (good_mask s); [done|done|]. apply task_step; fields; try done; intros; try congruence.
    destruct (t_enabling s (proj2 Hi) H). congruence.
  - rewrite andb_true_iff, is_state_spec, is_in_spec in Ha. destruct Ha as [Hs Hc]. apply (good_mask s); [done|done|].
    apply move_step; fields; try done; by rewrite Hs.
  - rewrite !andb_true_iff, is_state_spec, preemptible_spec in Ha. destruct Ha as [[] _]. apply (good_mask s); [done| |by apply disable_step].
    unfold migrate_disable, add_pinned. by case_match.
  - rewrite !andb_true_iff, is_state_spec, preemptible_spec, disabled_spec, bool_decide_eq_true in Ha.
    destruct Ha as [[[H1 H2] H3] _]. destruct (migrate_enable_step active s Hi dest H1 H2 H3 Hm) as (s' & E & H4 & H5 & _).
    rewrite E. by apply (good_mask s).
  - assert (enabling (p s) <> None) as He by (intros E; apply preemptible_spec in E; by rewrite E in Ha).
    destruct (enable_next_step s Hi He) as (s' & E & H4 & H5). rewrite E. by apply (good_mask s).
Qed.

Lemma init_good cpu m : active ∩ m <> ∅ -> good active (init cpu m).
Proof.
  intros Hm. split; [split|done].
  - intros o. unfold core, init, nstop, ncomp, nwait, ndec. simpl. rewrite lookup_empty, !msum_empty. done.
  - split; simpl; try done.
Qed.
Lemma reach_good s s' : rtc (step active) s s' -> good active s -> good active s'.
Proof.
  induction 1 as [|s0 s1 s2 (e & r & Ha & He) _ IH]; [done|]. intros Hg. apply IH.
  destruct (every_step s0 e Hg Ha) as (s3 & r3 & E & H). rewrite E in He. by injection He as <- _.
Qed.
End Every.
