(* ===== verification/AffinityLive.v ===== *)
(** * Changing the CPUs of a task: who waits, and where the task is (src/Assignment_4/fifo/core.c)

    What is left to do shrinks with every step of a caller or a stopper, and when none
    of them can take a step nobody is left waiting; and, while no stopper takes the
    CPU of a migration-disabled task for one it is allowed on, the task is where its
    mask allows it or somebody is still in a call. *)
From Stdlib Require Import ZArith Lia.
From stdpp Require Import gmap.
From S2P Require Import Prelude SchedInfo SchedClass Affinity AffinityInv AffinitySteps.
Import Affinity.

Local Open Scope stdpp_scope.
Local Open Scope Z_scope.

(** ** What is left to do *)
Definition caller_left (pc : caller_pc) : Z :=
  match pc with P_stop _ _ => 10 | P_complete _ true => 4 | P_wait _ => 3 | P_dec _ => 2 | P_complete _ false | P_own => 1 end.
Definition stopper_left (pc : stopper_pc) : Z := match pc with S_chase _ => 4 | S_complete _ => 1 end.
(** On the CPU of the task one more run is enough; elsewhere the work may have to follow it. *)
Definition work_left (cpu c : Z) : Z := if decide (c = cpu) then 3 else 6.
Definition left (s : sys) : Z :=
  msum caller_left (callers s) + msum stopper_left (stoppers s) + msum (work_left (task_cpu (p s))) (works s).

Definition protocol (e : event) : bool := match e with Caller _ | Stopper _ _ _ | Stopper_next _ => true | _ => false end.
Definition protocol_step (active : cpumask) (s s' : sys) : Prop :=
  exists e r, protocol e = true /\ allowed active s e = true /\ exec active s e = Some (s', r).

Lemma caller_left_pos pc : 0 < caller_left pc.
Proof. destruct pc as [|? []| | |]; simpl; lia. Qed.
Lemma stopper_left_pos pc : 0 < stopper_left pc.
Proof. destruct pc; simpl; lia. Qed.
Lemma work_left_pos cpu c : 3 <= work_left cpu c <= 6.
Proof. unfold work_left. case_decide; lia. Qed.
Lemma left_nonneg s : 0 <= left s.
Proof.
  unfold left. pose proof (msum_nonneg caller_left (callers s)). pose proof (msum_nonneg stopper_left (stoppers s)).
  pose proof (msum_nonneg (work_left (task_cpu (p s))) (works s)).
  enough (0 <= msum caller_left (callers s) /\ 0 <= msum stopper_left (stoppers s) /\ 0 <= msum (work_left (task_cpu (p s))) (works s)) by lia.
  split_and!; auto.
  - apply H. intros pc. pose proof (caller_left_pos pc). lia.
  - apply H0. intros pc. pose proof (stopper_left_pos pc). lia.
  - apply H1. intros c. pose proof (work_left_pos (task_cpu (p s)) c). lia.
Qed.

Section Left.
Context (active : cpumask).

(** The queued works are those of the installed request: at most one. *)
Lemma works_one s o c : inv s -> works s !! o = Some c -> delete o (works s) = ∅.
Proof.
  intros Hi Hw. destruct (work_held s o c (proj1 Hi) Hw) as (a & _ & _ & _ & Hm & _).
  apply map_eq. intros o'. rewrite lookup_empty, lookup_delete. case_decide; [done|].
  destruct (works s !! o') as [c'|] eqn:Hw'; [|done].
  destruct (work_held s o' c' (proj1 Hi) Hw') as (a' & _ & _ & _ & Hm' & _). congruence.
Qed.
Lemma caller_shrinks s t s' : caller_next s t = Some s' -> left s' < left s.
Proof.
  unfold caller_next, stop_one_cpu_nowait, complete_all.
  destruct (callers s !! t) as [[c o|o w|o|o|]|] eqn:Hpc; cbn [mbind option_bind]; [..|done].
  1,2,3,4: destruct (pendings s !! o); cbn [mbind option_bind]; [|done].
  - destruct (works s !! o) eqn:Hw; cbn [mbind option_bind]; [done|]. intros [= <-]. unfold left; fields.
    rewrite !msum_insert, Hpc, Hw. cbn [from_option caller_left]. pose proof (work_left_pos (task_cpu (p s)) c). lia.
  - intros [= <-]. unfold left; fields. destruct w; rewrite ?msum_insert, ?msum_delete, Hpc; cbn [from_option caller_left]; lia.
  - destruct (done s0); [|done]. intros [= <-]. unfold left; fields. rewrite msum_insert, Hpc. cbn [from_option caller_left]. lia.
  - intros [= <-]. unfold left; fields. rewrite msum_insert, Hpc. cbn [from_option caller_left]. lia.
  - destruct (pendings s !! t); [destruct (refs s0 =? 0)|]; intros H; try done; injection H as <-; unfold left; fields;
      rewrite msum_delete, Hpc; cbn [from_option caller_left]; lia.
Qed.
Lemma stopper_next_shrinks s cpu s' : stopper_next s cpu = Some s' -> left s' < left s.
Proof.
  unfold stopper_next, stop_one_cpu_nowait, complete_all. destruct (stoppers s !! cpu) as [[o|o]|] eqn:Hs; fields; [..|done].
  all: destruct (pendings s !! o); fields; [|done].
  - intros [= <-]. unfold left; fields. rewrite msum_delete, Hs. cbn [from_option stopper_left]. lia.
  - destruct (works s !! o) eqn:Hw; [done|]. intros [= <-]. unfold left; fields.
    rewrite msum_delete, msum_insert, Hs, Hw. cbn [from_option stopper_left]. unfold work_left at 2. rewrite decide_True by done. lia.
Qed.
Lemma stopper_shrinks s cpu o dest s' : inv s -> works s !! o = Some cpu -> stoppers s !! cpu = None ->
  migration_cpu_stop active s cpu o dest = Some s' -> left s' < left s.
Proof.
  intros Hi Hw Hs. pose proof (works_one s o cpu Hi Hw) as Hone.
  assert (msum (work_left (task_cpu (p s))) (works s) = work_left (task_cpu (p s)) cpu) as Hl.
  { rewrite <- (insert_delete_id (works s) o cpu) by done. rewrite Hone, msum_insert, msum_empty, lookup_empty. cbn [from_option]. lia. }
  unfold left. rewrite Hl. pose proof (work_left_pos (task_cpu (p s)) cpu) as Hp.
  unfold migration_cpu_stop, flush, stop_out, clear_pending, move_off. fields. rewrite !Hone.
  repeat (case_decide || case_match); fields; destruct (pendings s !! o); fields; try done; intros [= <-]; fields;
    rewrite ?Hone, ?msum_insert, ?msum_empty, ?Hs; cbn [from_option stopper_left]; try lia.
  all: unfold work_left in *; case_decide; try lia; naive_solver.
Qed.

Lemma protocol_shrinks s s' : good active s -> protocol_step active s s' -> left s' < left s.
Proof.
  intros [Hi _] (e & r & Hp & Ha & He). destruct e; try done; simpl in Ha, He.
  - destruct (caller_next s t) eqn:E; [|done]. injection He as <- _. by eapply caller_shrinks.
  - rewrite !andb_true_iff, absent_spec, bool_decide_eq_true in Ha. destruct Ha as [[[Hw Hs] _] _].
    destruct (migration_cpu_stop active s cpu o dest_cpu) eqn:E; [|done]. injection He as <- _. by eapply stopper_shrinks.
  - destruct (stopper_next s cpu) eqn:E; [|done]. injection He as <- _. by eapply stopper_next_shrinks.
Qed.
End Left.

(** ** Nobody is left waiting *)
Section Progress.
Context (active : cpumask).

Lemma next_allowed s cpu pc : stoppers s !! cpu = Some pc -> allowed active s (Stopper_next cpu) = true.
Proof. simpl. unfold absent. by intros ->. Qed.
Lemma caller_allowed s t pc : callers s !! t = Some pc -> (forall o, pc <> P_wait o) -> pc <> P_own ->
  allowed active s (Caller t) = true.
Proof. simpl. intros ->. intros H1 H2. by destruct pc; try done; destruct (H1 pending). Qed.

(** A stop_work that is queued or about to be: somebody can go on with it. *)
Lemma stop_progress s o : good active s -> state (p s) <> Running -> 0 < nstop s o ->
  exists e, protocol e = true /\ allowed active s e = true.
Proof.
  intros [Hi Hm] Hr Hn.
  destruct (decide (has (works s) o = 0)) as [Hw|Hw].
  - destruct (decide (msum (stops_c o) (callers s) = 0)) as [Hc|Hc].
    + assert (enabling (p s) = None) as He.
      { destruct (enabling (p s)) eqn:E; [|done]. destruct (t_enabling s (proj2 Hi)); [by rewrite E|done]. }
      unfold nstop in Hn. rewrite He in Hn. simpl in Hn.
      destruct (msum_pos (stops_s o) (stoppers s)) as (cpu & pc & Hpc & _); [lia|].
      exists (Stopper_next cpu). split; [done|by eapply next_allowed].
    + pose proof (msum_nonneg _ (callers s) (stops_c_nonneg o)).
      destruct (msum_pos (stops_c o) (callers s)) as (t & pc & Hpc & Hp); [lia|].
      exists (Caller t). split; [done|]. by eapply caller_allowed; [done|destruct pc..].
  - unfold has in Hw. destruct (works s !! o) as [cpu|] eqn:E; [|done].
    destruct (stoppers s !! cpu) as [pc|] eqn:Es; [exists (Stopper_next cpu); split; [done|by eapply next_allowed]|].
    destruct (set_choose_L (cpus_mask (p s))) as (dest & Hd); [set_solver|].
    exists (Stopper cpu o dest). split; [done|]. simpl.
    rewrite !andb_true_iff, absent_spec, bool_decide_eq_true, negb_true_iff, is_in_spec. split_and!; try done.
    unfold is_state. by rewrite bool_decide_eq_false_2.
Qed.
Lemma complete_progress s o : good active s -> state (p s) <> Running -> 0 < ncomp s o ->
  exists e, protocol e = true /\ allowed active s e = true.
Proof.
  intros [Hi Hm] Hr Hn. assert (enabling (p s) = None) as He.
  { destruct (enabling (p s)) eqn:E; [|done]. destruct (t_enabling s (proj2 Hi)); [by rewrite E|done]. }
  unfold ncomp in Hn. rewrite He in Hn. simpl in Hn.
  destruct (decide (0 < msum (comp_c o) (callers s))) as [Hc|Hc].
  - destruct (msum_pos (comp_c o) (callers s) Hc) as (t & pc & Hpc & Hp).
    exists (Caller t). split; [done|]. by eapply caller_allowed; [done|destruct pc..].
  - destruct (msum_pos (comp_s o) (stoppers s)) as (cpu & pc & Hpc & _); [lia|].
    exists (Stopper_next cpu). split; [done|by eapply next_allowed].
Qed.

Lemma wait_progress s t o : good active s -> state (p s) <> Running -> migration_disabled (p s) = 0 ->
  callers s !! t = Some (P_wait o) -> exists e, protocol e = true /\ allowed active s e = true.
Proof.
  intros Hg Hr Hz Hpc. destruct Hg as [Hi Hm] eqn:Eg. clear Eg.
  destruct (caller_alive s t _ o (proj1 Hi o) Hpc) as (a & Ha); [simpl; rewrite one_refl; lia|].
  destruct (done a) eqn:Hd.
  { exists (Caller t). simpl. by rewrite Hpc, Ha. }
  pose proof (proj1 Hi o) as Ho. unfold core in Ho. rewrite Ha, Hd in Ho. destruct Ho as (H1 & H2 & _).
  unfold inst in H2. destruct (decide (migration_pending (p s) = Some o)) as [E|E].
  - destruct (stop_pending a) eqn:Hs.
    + apply (stop_progress s o Hg Hr). rewrite H1. done.
    + destruct (t_reason s (proj2 Hi) o a E Ha Hs). lia.
  - apply (complete_progress s o Hg Hr). simpl in H2. lia.
Qed.

Lemma progress s : good active s -> state (p s) <> Running -> migration_disabled (p s) = 0 -> callers s <> ∅ ->
  exists e, protocol e = true /\ allowed active s e = true.
Proof.
  intros Hg Hr Hz Hc. destruct (map_choose _ Hc) as (t & pc & Hpc). pose proof Hg as [Hi Hm].
  destruct pc as [c o|o w|o|o|] eqn:Epc; try (exists (Caller t); split; [done|by eapply caller_allowed]).
  - by eapply wait_progress.
  - destruct (pendings s !! t) as [a|] eqn:Ha; [|exists (Caller t); simpl; by rewrite Hpc, Ha].
    pose proof (proj1 Hi t) as Ho. unfold core in Ho. rewrite Ha in Ho. destruct Ho as (_ & _ & _ & H4 & _ & _).
    destruct (Z.eqb_spec (refs a) 0) as [Hz0|Hz0]; [exists (Caller t); simpl; by rewrite Hpc, Ha, Hz0|].
    pose proof (counts_nonneg s t) as (_ & _ & Hn & _).
    destruct (msum_pos (waits_c t) (callers s)) as (t' & pc' & Hpc' & Hp); [unfold nwait in *; lia|].
    destruct pc' as [c' o'|o' w'|o'|o'|] eqn:Epc'; try (exists (Caller t'); split; [done|by eapply caller_allowed]).
    by eapply wait_progress.
Qed.

Lemma no_callers s : inv s -> callers s = ∅ ->
  pendings s = ∅ /\ works s = ∅ /\ migration_pending (p s) = None /\ forall cpu, stoppers s !! cpu = None.
Proof.
  intros [Hc _] E. assert (pendings s = ∅) as Hp.
  { apply map_eq. intros o. rewrite lookup_empty. pose proof (Hc o) as Ho. unfold core in Ho.
    destruct (pendings s !! o); [|done]. destruct Ho as (_ & _ & _ & _ & _ & (pc & Hpc & _)). by rewrite E in Hpc. }
  assert (forall o, nstop s o = 0 /\ ncomp s o = 0 /\ inst (migration_pending (p s)) o = 0) as H.
  { intros o. pose proof (Hc o) as Ho. unfold core in Ho. rewrite Hp, lookup_empty in Ho. tauto. }
  assert (forall o, has (works s) o = 0 /\ msum (stops_s o) (stoppers s) = 0 /\ msum (comp_s o) (stoppers s) = 0) as Hz.
  { intros o. destruct (H o) as (H1 & H2 & _). pose proof (other_counts s o) as (K1 & K2 & _).
    pose proof (has_nonneg (works s) o). pose proof (stops_e_nonneg o (enabling (p s))). pose proof (comp_e_nonneg o (enabling (p s))).
    pose proof (msum_nonneg (stops_s o) (stoppers s) (stops_s_nonneg o)).
    pose proof (msum_nonneg (comp_s o) (stoppers s) (comp_s_nonneg o)). lia. }
  split_and!; [done|..].
  - apply map_eq. intros o. rewrite lookup_empty. destruct (Hz o) as (H1 & _). unfold has in H1. by destruct (works s !! o).
  - destruct (migration_pending (p s)) as [o|] eqn:Em; [|done]. destruct (H o) as (_ & _ & H1).
    rewrite inst_some, one_refl in H1. done.
  - intros cpu. destruct (stoppers s !! cpu) as [[o|o]|] eqn:Es; [..|done]; destruct (Hz o) as (_ & H1 & H2); exfalso.
    + pose proof (msum_zero _ _ _ _ (comp_s_nonneg o) H2 Es) as K. simpl in K. by rewrite one_refl in K.
    + pose proof (msum_zero _ _ _ _ (stops_s_nonneg o) H1 Es) as K. simpl in K. by rewrite one_refl in K.
Qed.

Lemma protocol_is_step s s' : protocol_step active s s' -> step active s s'.
Proof. intros (e & r & _ & Ha & He). by exists e, r. Qed.
(** The protocol neither puts the task on a CPU nor disables its migration. *)
Lemma protocol_keeps s s' : protocol_step active s s' -> state (p s) <> Running ->
  state (p s') <> Running /\ migration_disabled (p s') = migration_disabled (p s).
Proof.
  intros (e & r & Hp & _ & He) Hr. destruct e; try done; simpl in He.
  - destruct (caller_next s t) eqn:E; [|done]. injection He as <- _. by rewrite (caller_mask s t s0 E).
  - destruct (migration_cpu_stop active s cpu o dest_cpu) eqn:E; [|done]. injection He as <- _. revert E.
    unfold migration_cpu_stop, flush, stop_out, clear_pending, move_off. fields.
    repeat (case_decide || case_match); fields; destruct (pendings s !! o); fields; try done; by intros [= <-].
  - destruct (stopper_next s cpu) eqn:E; [|done]. injection He as <- _. by rewrite (stopper_next_mask s cpu s0 E).
Qed.
Lemma protocol_run s s' : rtc (protocol_step active) s s' -> good active s -> state (p s) <> Running ->
  good active s' /\ state (p s') <> Running /\ migration_disabled (p s') = migration_disabled (p s).
Proof.
  induction 1 as [|s0 s1 s2 Hs _ IH]; [done|]. intros Hg Hr. destruct (protocol_keeps s0 s1 Hs Hr) as [H1 H2].
  rewrite <- H2. apply IH; [|done]. eapply reach_good; [|exact Hg]. apply rtc_once. by apply protocol_is_step.
Qed.
Lemma protocol_bound n s s' : nsteps (protocol_step active) n s s' -> good active s -> Z.of_nat n + left s' <= left s.
Proof.
  induction 1 as [s0|n s0 s1 s2 Hs Hn IH]; intros Hg; [simpl; lia|].
  pose proof (protocol_shrinks active s0 s1 Hg Hs).
  assert (good active s1) as Hg1. { eapply reach_good; [|exact Hg]. apply rtc_once. by apply protocol_is_step. }
  specialize (IH Hg1). lia.
Qed.
End Progress.

(** ** Where the task is *)
(** The masks asked for hold active CPUs only, and no stopper whose task has gone elsewhere
    finds it pinned there. *)
Definition calm (active : cpumask) (s : sys) (e : event) : bool :=
  match e with
  | Request _ _ m _ => bool_decide (m ⊆ active)
  | Stopper cpu _ _ => ((task_cpu (p s) =? cpu)%c || match pinned (p s) with Some _ => false | None => true end)%bool
  | _ => true
  end.
Definition calm_step (active : cpumask) (s s' : sys) : Prop :=
  exists e r, allowed active s e = true /\ calm active s e = true /\ exec active s e = Some (s', r).

Section Place.
Context (active : cpumask).
Definition well_placed (s : sys) : Prop := placed (p s) /\ cpus_mask (p s) ⊆ active.

Lemma placed_same q q' : (state q = Sleeping -> migration_disabled q = 0 -> state q' = Sleeping /\ migration_disabled q' = 0) ->
  task_cpu q' = task_cpu q -> cpus_mask q' = cpus_mask q -> migration_pending q' = migration_pending q -> placed q -> placed q'.
Proof. unfold placed. intros Hr -> -> ->. intros [H|[[H1 H2]|H]]; [by left|right; left; auto|by right; right]. Qed.
(** To a CPU of cpus_ptr, as the scheduler moves it. *)
Lemma placed_move s q c : inv s -> c ∈ cpus_ptr (p s) -> task_cpu q = c -> cpus_mask q = cpus_mask (p s) ->
  migration_pending q = migration_pending (p s) -> placed (p s) -> placed q.
Proof.
  intros Hi Hc E1 E2 E3. unfold placed, cpus_ptr in *. rewrite E1, E2, E3. destruct (pinned (p s)) as [c0|] eqn:Hp; [|by left].
  apply elem_of_singleton in Hc as ->. destruct (t_pinned s (proj2 Hi) c0 Hp) as [-> ?].
  intros [H1|[[_ H1]|H1]]; [by left|lia|by right; right].
Qed.

Lemma stop_placed s cpu o dest s' : inv s -> stoppers s !! cpu = None -> works s !! o = Some cpu ->
  ~ (state (p s) = Running /\ task_cpu (p s) = cpu) -> dest ∈ cpus_mask (p s) -> calm active s (Stopper cpu o dest) = true ->
  cpus_mask (p s) ⊆ active -> migration_cpu_stop active s cpu o dest = Some s' -> placed (p s) -> placed (p s').
Proof.
  intros Hi Hs Hw Hrun Hd Hcalm Hsub He Hp. simpl in Hcalm.
  destruct (work_held s o cpu (proj1 Hi) Hw) as (a & Ha & _ & _ & Hm & _).
  assert (forall q, migration_pending q = migration_pending (p s) -> placed q) as Hq.
  { intros q E. right; right. by rewrite E, Hm. }
  assert (exists q, flush (put_works s (delete o (works s))) cpu = put_p (put_works s (delete o (works s))) q /\
    task_cpu q = task_cpu (p s) /\ cpus_mask q = cpus_mask (p s) /\ pinned q = pinned (p s) /\
    migration_pending q = migration_pending (p s) /\ migration_disabled q = migration_disabled (p s) /\
    (task_cpu (p s) = cpu -> state q = Queued \/ state q = Sleeping)) as (q & E & Q1 & Q2 & Q3 & Q4 & Q5 & Q6).
  { unfold flush. fields. case_decide as Hf.
    - by exists (set_state (p s) Queued); split_and!; auto.
    - exists (p s). split_and!; [by destruct s|done..|]. intros Ec. destruct (state (p s)); naive_solver. }
  revert He. unfold migration_cpu_stop, stop_out, clear_pending. rewrite E. fields.
  rewrite Q4, Hm, (decide_True (P := Some o = Some o)) by done. fields. unfold cpus_ptr. rewrite Q1, Q2, ?Q3.
  destruct (decide (task_cpu (p s) = cpu)) as [Hc|Hc].
  - specialize (Q6 Hc). rewrite disabled_spec, Q5. case_bool_decide as Hdis.
    + fields. rewrite Ha. fields. intros [= <-]. apply Hq. by fields; rewrite Q4.
    + assert (migration_disabled (p s) = 0) as Hz by (destruct (decide (migration_disabled (p s) = 0)); [done|by destruct Hdis]).
      assert (pinned (p s) = None) as Hpn.
      { destruct (pinned (p s)) as [c|] eqn:Ep; [|done]. destruct (t_pinned s (proj2 Hi) c Ep). lia. }
      case_decide as Hin; fields.
      * rewrite Ha. fields. intros [= <-]. left. fields. by rewrite Q1, Q2.
      * unfold move_off. fields. unfold is_cpu_allowed, cpus_ptr. fields. rewrite ?Q2, ?Q3, ?Hpn.
        rewrite !bool_decide_eq_true_2 by set_solver. simpl.
        destruct Q6 as [Q6|Q6]; rewrite Q6; [rewrite decide_True by done|rewrite decide_False by done]; fields;
          rewrite Ha; fields; intros [= <-]; unfold placed; fields.
        -- left. by rewrite Q2.
        -- right; left. by rewrite Q5.
  - destruct (pinned (p s)) as [c|]; [rewrite orb_false_r in Hcalm; apply Z.eqb_eq in Hcalm; done|].
    case_decide as Hin; fields.
    + rewrite Ha. fields. intros [= <-]. left. fields. by rewrite Q1, Q2.
    + intros [= <-]. apply Hq. by fields; rewrite Q4.
Qed.

Lemma calm_keeps s s' : good active s -> well_placed s -> calm_step active s s' -> well_placed s'.
Proof.
  intros [Hi Hm] [Hp Hsub] (e & r & Ha & Hcalm & He).
  destruct e as [t self m dest|t|cpu o dest|cpu|cpu lowest| | | |cpu| |cpu| |dest|]; simpl in Ha, He.
  - rewrite !andb_true_iff, absent_spec, !orb_true_iff, bool_decide_eq_true, is_in_spec in Ha. destruct Ha as [[Ht _] Hd].
    destruct (request_step active s t self m dest Hi Ht Hm) as (s1 & r1 & E & _ & _ & Hmm & Hpp). rewrite E in He. injection He as <- _.
    simpl in Hcalm. apply bool_decide_eq_true in Hcalm. split; [by apply Hpp|]. destruct Hmm as [-> | ->]; done.
  - destruct (caller_next s t) eqn:E; [|done]. injection He as <- _. unfold well_placed. by rewrite (caller_mask s t s0 E).
  - rewrite !andb_true_iff, absent_spec, bool_decide_eq_true, negb_true_iff, is_in_spec in Ha. destruct Ha as [[[Hw Hs] Hr] Hd].
    destruct (migration_cpu_stop active s cpu o dest) eqn:E; [|done]. injection He as <- _. split; [|by rewrite (stop_mask active s cpu o dest s0 E)].
    eapply stop_placed; try done. intros [Es Ec]. apply is_state_spec in Es. rewrite Es, Ec, Z.eqb_refl in Hr. done.
  - destruct (stopper_next s cpu) eqn:E; [|done]. injection He as <- _. unfold well_placed. by rewrite (stopper_next_mask s cpu s0 E).
  - injection He as <- _. rewrite andb_true_iff in Ha. destruct Ha as [_ Ha]. unfold well_placed, push_cpu_stop. cbv zeta.
    case_decide; fields; [done|]. destruct (is_migration_disabled (p s)); fields; [split; [exact Hp|exact Hsub]|]. destruct lowest as [c|]; fields; [|split; [exact Hp|exact Hsub]].
    rewrite andb_true_iff, is_state_spec, is_in_spec in Ha. destruct Ha as [Hq Hc]. split; [|done]. by eapply placed_move.
  - apply is_state_spec in Ha. injection He as <- _. split; [|done]. apply placed_same with (p s); fields; try done; congruence.
  - rewrite andb_true_iff, is_state_spec in Ha. destruct Ha as [Ha _]. injection He as <- _. unfold migrate_disable_switch.
    split; [apply placed_same with (p s); fields; try done; [congruence|..]|]; by repeat case_match.
  - rewrite andb_true_iff, is_state_spec in Ha. destruct Ha as [Ha _]. injection He as <- _. unfold migrate_disable_switch.
    split; [apply placed_same with (p s); fields; try done; [congruence|..]|]; by repeat case_match.
  - rewrite andb_true_iff, is_state_spec in Ha. destruct Ha as [Hs Hc]. injection He as <- _. split; [|done].
    unfold is_cpu_allowed in Hc. rewrite andb_true_iff, !bool_decide_eq_true in Hc. by eapply placed_move; [|apply Hc|..].
  - apply is_state_spec in Ha. injection He as <- _. split; [|done]. apply placed_same with (p s); fields; try done; congruence.
  - rewrite andb_true_iff, is_in_spec in Ha. destruct Ha as [_ Hc]. injection He as <- _. split; [|done]. by eapply placed_move.
  - rewrite !andb_true_iff, is_state_spec in Ha. destruct Ha as [[Ha _] _]. injection He as <- _. unfold migrate_disable, add_pinned.
    case_match; (split; [apply placed_same with (p s); fields; try done; congruence|done]).
  - rewrite !andb_true_iff, is_state_spec, preemptible_spec, disabled_spec, bool_decide_eq_true in Ha.
    destruct Ha as [[[H1 H2] H3] _]. destruct (migrate_enable_step active s Hi dest H1 H2 H3 Hm) as (s1 & E & _ & H5 & H6).
    rewrite E in He. injection He as <- _. split; [by apply H6|by rewrite H5].
  - assert (enabling (p s) <> None) as Hen by (intros E; apply preemptible_spec in E; by rewrite E in Ha).
    destruct (t_enabling s (proj2 Hi) Hen) as (Hr & _).
    destruct (enable_next s) eqn:E; [|done]. injection He as <- _. revert E. unfold enable_next, stop_one_cpu_nowait, complete_all, add_pinned.
    destruct (enabling (p s)) as [[c o|o|]|]; fields; [| | |done].
    1,2: destruct (pendings s !! o); fields; [|done].
    1: destruct (works s !! o); [done|].
    all: intros [= <-]; split; [apply placed_same with (p s); fields; try done; congruence|done].
Qed.
End Place.

(** ** A migration-disabled task stays *)
Section Stays.
Context (active : cpumask).

Lemma affine_move_cpu s t d me s' a : affine_move_task s t d me = Some (s', a) -> is_migration_disabled (p s) = true ->
  task_cpu (p s') = task_cpu (p s).
Proof.
  intros E Hd. unfold affine_move_task in E. case_decide.
  { unfold affine_stay in E. destruct (_ && _)%bool; fields in E.
    all: destruct (migration_pending (p s)); [|by injection E as <- _]; fields in E.
    all: destruct (pendings s !! z); [|done]; fields in E; destruct (stop_pending s0); by injection E as <- _. }
  assert (forall s0 o, task_cpu (p s0) = task_cpu (p s) -> is_migration_disabled (p s0) = true ->
    affine_kick s0 d me o = Some (s', a) -> task_cpu (p s') = task_cpu (p s)) as Hk.
  { intros s0 o Ec Ed H0. unfold affine_kick in H0. destruct (pendings s0 !! o) as [b|]; [|done]. fields in H0.
    rewrite Ed in H0. destruct (state (p s0)), me; injection H0 as <- _; done. }
  destruct me; fields in E.
  - destruct (migration_pending (p s)); [by eapply Hk|by injection E as <- _].
  - unfold affine_install in E. destruct (migration_pending (p s)) eqn:Em; fields in E; [|by eapply Hk; [..|exact E]].
    destruct (pendings s !! z); [|done]. fields in E. rewrite Em in E. by eapply Hk; [..|exact E].
Qed.

Lemma off_cpu s c : inv s -> state (p s) <> Running -> 0 < migration_disabled (p s) -> c ∈ cpus_ptr (p s) -> c = task_cpu (p s).
Proof.
  intros Hi Hr Hd Hc. destruct (decide (c = task_cpu (p s))) as [|n]; [done|]. exfalso.
  apply (t_off s (proj2 Hi) Hr Hd). by eapply cpus_ptr_off.
Qed.
Lemma disabled_cpu s e s' r : inv s -> 0 < migration_disabled (p s) -> allowed active s e = true ->
  exec active s e = Some (s', r) -> task_cpu (p s') = task_cpu (p s).
Proof.
  intros Hi Hd Ha He. assert (is_migration_disabled (p s) = true) as Hb by (rewrite disabled_spec; by apply bool_decide_eq_true_2; lia).
  destruct e as [t self m dest|t|cpu o dest|cpu|cpu lowest| | | |cpu| |cpu| |dest|]; simpl in Ha, He.
  - unfold set_cpus_allowed_ptr in He. repeat case_match; try (by injection He as <- _).
    destruct (affine_move_task (put_p s (set_mask (p s) m)) t dest false) as [[s1 a]|] eqn:E; [|done].
    pose proof (affine_move_cpu _ _ _ _ _ _ E Hb) as Hc. fields in He. fields in Hc. destruct a; injection He as <- _; exact Hc.
  - destruct (caller_next s t) eqn:E; [|done]. injection He as <- _. by rewrite (caller_mask s t s0 E).
  - destruct (migration_cpu_stop active s cpu o dest) eqn:E; [|done]. injection He as <- _. revert E.
    unfold migration_cpu_stop, flush, stop_out, clear_pending, is_migration_disabled in *. fields.
    repeat case_decide; fields; rewrite ?Hb; fields; destruct (pendings s !! o); fields; try done; by intros [= <-].
  - destruct (stopper_next s cpu) eqn:E; [|done]. injection He as <- _. by rewrite (stopper_next_mask s cpu s0 E).
  - injection He as <- _. unfold push_cpu_stop. rewrite Hb. cbv zeta. by case_decide.
  - by injection He as <- _.
  - injection He as <- _. unfold migrate_disable_switch. by repeat case_match.
  - injection He as <- _. unfold migrate_disable_switch. by repeat case_match.
  - rewrite andb_true_iff, is_state_spec in Ha. destruct Ha as [Hs Hc]. injection He as <- _. unfold is_cpu_allowed in Hc.
    rewrite andb_true_iff, !bool_decide_eq_true in Hc. apply off_cpu; [done|by rewrite Hs|done|tauto].
  - by injection He as <- _.
  - rewrite andb_true_iff, is_state_spec, is_in_spec in Ha. destruct Ha as [Hs Hc]. injection He as <- _.
    apply off_cpu; [done|by rewrite Hs|done|done].
  - injection He as <- _. unfold migrate_disable, add_pinned. by rewrite Hb.
  - destruct (migrate_enable active s dest) eqn:Em; [|done]. injection He as <- _. revert Em.
    unfold migrate_enable. case_match; [by intros [= <-]|]. destruct (pinned (p s)); [|by intros [= <-]].
    case_decide; [by intros [= <-]|]. fields.
    destruct (affine_move_task (put_p s (set_pinned (p s) None)) 0 dest true) as [[s1 a]|] eqn:E; [|done].
    pose proof (affine_move_cpu _ _ _ _ _ _ E Hb) as Hc. fields. fields in Hc. destruct a; try done; intros [= <-]; exact Hc.
  - destruct (enable_next s) eqn:E; [|done]. injection He as <- _. revert E. unfold enable_next, stop_one_cpu_nowait, complete_all, add_pinned.
    destruct (enabling (p s)) as [[c o|o|]|]; fields; [| | |done].
    1,2: destruct (pendings s !! o); fields; [|done].
    1: destruct (works s !! o); [done|].
    all: by intros [= <-].
Qed.
End Stays.
