(* ===== verification/AffinityProps.v ===== *)
(** * Changing the CPUs of a task: properties (src/Assignment_4/fifo/core.c)

    Of every history of Affinity.v that starts with a task nobody has a request for:
    no request is used after its owner has returned, every call returns, the task ends
    where its mask allows it, and the one way in which it does not. *)
From Stdlib Require Import ZArith Lia.
From stdpp Require Import gmap.
From S2P Require Import Prelude SchedInfo SchedClass Affinity AffinityInv AffinitySteps AffinityLive.
Import Affinity.

Local Open Scope stdpp_scope.
Local Open Scope Z_scope.


(** The callers that a request is still needed by. *)
Definition waiting (s : sys) (o : Z) : Z := nwait s o.

(** C22: whatever threads call __set_cpus_allowed_ptr for the task and however their steps, those of the
    stoppers and those of the task interleave: a step that can be taken never uses a request whose owner
    has returned and never queues a stop_work that is queued (exec is not None); the request of a queued
    stop_work has stop_pending set, and the request of a caller about to return has it clear (the two
    WARNs at the end of migration_cpu_stop and of affine_move_task do not fire); refs is the number of
    callers that have yet to leave the request; and nr_pinned is 1 on the CPU of a migration-disabled
    task, 0 elsewhere. *)
Theorem affinity_safe active cpu m s :
  active ∩ m <> ∅ -> rtc (step active) (init cpu m) s ->
  (forall e, allowed active s e = true -> exists s' r, exec active s e = Some (s', r)) /\
  (forall o c, works s !! o = Some c -> exists a, pendings s !! o = Some a /\ stop_pending a = true) /\
  (forall t a, callers s !! t = Some P_own -> pendings s !! t = Some a -> stop_pending a = false) /\
  (forall o a, pendings s !! o = Some a -> refs a = waiting s o) /\
  (forall c, default 0 (nr_pinned s !! c) = if decide (0 < migration_disabled (p s) /\ task_cpu (p s) = c) then 1 else 0).
Proof.
  intros Hm Hr. assert (good active s) as [Hi Hm'] by (eapply reach_good; [exact Hr|by apply init_good]).
  split_and!.
  - intros e Ha. destruct (every_step active s e) as (s' & r & E & _); [done|done|]. by exists s', r.
  - intros o c Hw. destruct (work_held s o c (proj1 Hi) Hw) as (a & Ha & Hs & _). by exists a.
  - intros t a Hpc Ha. pose proof (proj1 Hi t) as Ho. unfold core in Ho. rewrite Ha in Ho.
    destruct Ho as (_ & H2 & H3 & _ & _ & (pc & Hp & Hq)). rewrite Hpc in Hp. injection Hp as <-.
    destruct Hq as [Hq|[_ Hq]]; [done|]. rewrite Hq in H2. pose proof (counts_nonneg s t).
    pose proof (inst_nonneg (migration_pending (p s)) t). destruct (stop_pending a); simpl in *; [lia|done].
  - intros o a Ha. pose proof (proj1 Hi o) as Ho. unfold core in Ho. rewrite Ha in Ho. apply Ho.
  - apply (t_nr s (proj2 Hi)).
Qed.

(** C23: every call returns.  When the task is off its CPU and its migration is enabled, the callers and
    the stoppers, left alone, can take at most [left s] steps however they are scheduled, and when none
    of them can take another one, all the calls have returned, no request is left and none is
    installed: no completion is lost and no caller waits for ever. *)
Theorem affinity_returns active cpu m s :
  active ∩ m <> ∅ -> rtc (step active) (init cpu m) s -> state (p s) <> Running -> migration_disabled (p s) = 0 ->
  (forall n s', nsteps (protocol_step active) n s s' -> Z.of_nat n <= left s) /\
  (forall s', rtc (protocol_step active) s s' -> (forall s'', ~ protocol_step active s' s'') ->
     callers s' = ∅ /\ pendings s' = ∅ /\ works s' = ∅ /\ migration_pending (p s') = None).
Proof.
  intros Hm Hr Hs Hd. assert (good active s) as Hg by (eapply reach_good; [exact Hr|by apply init_good]). split.
  - intros n s' Hn. pose proof (protocol_bound active n s s' Hn Hg). pose proof (left_nonneg s'). lia.
  - intros s' Hrun Hstuck. destruct (protocol_run active s s' Hrun Hg Hs) as (Hg' & Hs' & Hd'). rewrite Hd in Hd'.
    assert (callers s' = ∅) as Hc.
    { destruct (decide (callers s' = ∅)) as [|Hne]; [done|]. exfalso.
      destruct (progress active s' Hg' Hs' Hd' Hne) as (e & Hp & Ha).
      destruct (every_step active s' e Hg' Ha) as (s2 & r & E & _). apply (Hstuck s2). by exists e, r. }
    destruct (no_callers s' (proj1 Hg') Hc) as (H1 & H2 & H3 & _). done.
Qed.

(** C26: as long as the masks asked for hold active CPUs only and no stopper, finding that the task has
    gone to another CPU, finds it pinned there, the task is always on a CPU of its mask, or asleep with
    its migration enabled (the next wake-up picks a CPU), or a request for it is installed and its
    owner has not returned.  So when no call is in progress the task runs where it may. *)
Theorem affinity_placed active cpu m s :
  cpu ∈ m -> m ⊆ active -> rtc (calm_step active) (init cpu m) s ->
  (task_cpu (p s) ∈ cpus_mask (p s) \/ (state (p s) = Sleeping /\ migration_disabled (p s) = 0) \/
   exists o a, migration_pending (p s) = Some o /\ pendings s !! o = Some a /\ done a = false /\ is_Some (callers s !! o)) /\
  (callers s = ∅ -> state (p s) = Running -> task_cpu (p s) ∈ cpus_mask (p s) /\ task_cpu (p s) ∈ active).
Proof.
  intros Hc Hm Hr.
  assert (good active s /\ well_placed active s) as [[Hi _] [Hp Hsub]].
  { assert (good active (init cpu m) /\ well_placed active (init cpu m)) as H.
    { split; [apply init_good; set_solver|]. split; [by left|done]. }
    revert H. induction Hr as [|s0 s1 s2 Hs _ IH]; [done|]. intros [Hg Hw]. apply IH. split; [|by eapply calm_keeps].
    destruct Hs as (e & r & Ha & _ & He). eapply reach_good; [apply rtc_once; by exists e, r|done]. }
  split.
  - destruct Hp as [Hp|[Hp|Hp]]; [by left|by right; left|]. destruct (migration_pending (p s)) as [o|] eqn:Em; [|done].
    right; right. destruct (installed_alive s (proj1 Hi) o Em) as (a & Ha & Hd & _). exists o, a.
    pose proof (proj1 Hi o) as Ho. unfold core in Ho. rewrite Ha in Ho.
    destruct Ho as (_ & _ & _ & _ & _ & (pc & Hpc & _)). split_and!; [done..|by exists pc].
  - intros Hn Hrun. destruct (no_callers s Hi Hn) as (_ & _ & H3 & _).
    destruct Hp as [Hp|[[Hp _]|Hp]]; [|congruence|done]. split; [done|by apply Hsub].
Qed.

(** Between migrate_disable and migrate_enable the task stays where it is: no step of a caller, a
    stopper, the balancer, a wake-up or migrate_enable itself changes the CPU of a task whose migration
    is disabled. *)
Theorem disabled_stays active cpu m s e s' r :
  active ∩ m <> ∅ -> rtc (step active) (init cpu m) s -> 0 < migration_disabled (p s) ->
  allowed active s e = true -> exec active s e = Some (s', r) -> task_cpu (p s') = task_cpu (p s).
Proof.
  intros Hm Hr Hd Ha He. assert (good active s) as [Hi _] by (eapply reach_good; [exact Hr|by apply init_good]).
  by eapply disabled_cpu.
Qed.

(** A run of a list of events is a run of steps. *)
Lemma history_steps active es s s' rs : exec_all active s es = Some (s', rs) -> rtc (step active) s s'.
Proof.
  revert s s' rs. induction es as [|e es IH]; simpl; intros s s' rs H; [by injection H as <- _|].
  destruct (allowed active s e) eqn:Ha; [|done]. destruct (exec active s e) as [[s1 r]|] eqn:E; [|done]. fields in H.
  destruct (exec_all active s1 es) as [[s2 rs2]|] eqn:E2; [|done]. injection H as <- _.
  apply rtc_l with s1; [by exists e, r|by eapply IH].
Qed.
Fixpoint all_calm (active : cpumask) (s : sys) (es : list event) : bool :=
  match es with
  | [] => true
  | e :: es => match exec active s e with Some (s', _) => calm active s e && all_calm active s' es | None => false end
  end%bool.
Lemma history_calm active es s s' rs : exec_all active s es = Some (s', rs) -> all_calm active s es = true ->
  rtc (calm_step active) s s'.
Proof.
  revert s s' rs. induction es as [|e es IH]; simpl; intros s s' rs H Hc; [by injection H as <- _|].
  destruct (allowed active s e) eqn:Ha; [|done]. destruct (exec active s e) as [[s1 r]|] eqn:E; [|done]. fields in H.
  apply andb_true_iff in Hc as [Hc1 Hc2].
  destruct (exec_all active s1 es) as [[s2 rs2]|] eqn:E2; [|done]. injection H as <- _.
  apply rtc_l with s1; [by exists e, r|by eapply IH].
Qed.

(** The task runs on CPU 0 when thread 1 restricts it to CPU 1; before thread 1 has queued the stop_work
    the task is moved to CPU 1 and disables its migration there; thread 2 restricts it to CPU 2. *)
Definition race : list event :=
  [Switch_in; Request 1 false {[1]} 1; Switch_out; Balance 1; Switch_in; Disable; Switch_out;
   Request 2 false {[2]} 2; Caller 1; Stopper 0 1 2; Stopper_next 0; Caller 1; Caller 1; Caller 2; Caller 2;
   Caller 1; Caller 2; Switch_in; Enable 2; Enable_next].

(** C30: the hypothesis of the placement on the stopper is needed.  migration_cpu_stop, when the task has
    moved, asks whether its CPU is in cpus_ptr, which for a migration-disabled task is that CPU whatever
    cpus_mask says: the request is then completed although the task is not where its mask allows it.
    There is a history on the CPUs 0, 1 and 2 in which every call returns 0, at the end of which no call
    is in progress, no request or stop_work is left, migration is enabled, and the task runs on CPU 1
    with the mask {2}: nothing will ever move it to where it is allowed. *)
Theorem affinity_race : exists es s rs,
  exec_all {[0; 1; 2]} (init 0 {[0; 1; 2]}) es = Some (s, rs) /\ Forall (fun r => r = 0) rs /\
  callers s = ∅ /\ pendings s = ∅ /\ works s = ∅ /\ stoppers s = ∅ /\ migration_pending (p s) = None /\
  state (p s) = Running /\ migration_disabled (p s) = 0 /\ enabling (p s) = None /\
  task_cpu (p s) = 1 /\ cpus_mask (p s) = {[2]}.
Proof.
  exists race. destruct (exec_all {[0; 1; 2]} (init 0 {[0; 1; 2]}) race) as [[s rs]|] eqn:E; [|by vm_compute in E].
  exists s, rs. split; [done|]. vm_compute in E. injection E as <- <-. split_and!; try reflexivity.
  by repeat constructor.
Qed.

(** ** Witnesses *)
(** Two callers, one of them joining the other's request, while the task runs. *)
Definition two_calls : list event := [Switch_in; Request 1 false {[1]} 1; Request 2 false {[1; 2]} 2; Switch_out].
Definition cpus : cpumask := {[0; 1; 2]}.
Definition after_calls : sys := match exec_all cpus (init 0 cpus) two_calls with Some (s, _) => s | None => init 0 cpus end.
Lemma after_calls_eq : exec_all cpus (init 0 cpus) two_calls = Some (after_calls, [0; 0; 0; 0]).
Proof. vm_compute. reflexivity. Qed.
Lemma after_calls_reach : rtc (step cpus) (init 0 cpus) after_calls.
Proof. exact (history_steps cpus two_calls _ _ _ after_calls_eq). Qed.
Lemma cpus_ne : cpus ∩ cpus <> ∅.
Proof. intros H. assert (0 ∈ cpus ∩ cpus) as K by (unfold cpus; set_solver). rewrite H in K. set_solver. Qed.

Lemma affinity_safe_witness : refs <$> pendings after_calls !! 1 = Some 2 /\
  (forall o a, pendings after_calls !! o = Some a -> refs a = waiting after_calls o).
Proof. split; [reflexivity|]. apply (affinity_safe cpus 0 cpus after_calls cpus_ne after_calls_reach). Defined.
Lemma affinity_returns_witness : left after_calls = 13 /\
  (forall n s', nsteps (protocol_step cpus) n after_calls s' -> Z.of_nat n <= left after_calls).
Proof.
  split; [vm_compute; reflexivity|].
  apply (affinity_returns cpus 0 cpus after_calls cpus_ne after_calls_reach); [vm_compute; discriminate|reflexivity].
Defined.
Lemma affinity_placed_witness : task_cpu (p after_calls) = 0 /\ cpus_mask (p after_calls) = {[1; 2]} /\
  (task_cpu (p after_calls) ∈ cpus_mask (p after_calls) \/ (state (p after_calls) = Sleeping /\ migration_disabled (p after_calls) = 0) \/
   exists o a, migration_pending (p after_calls) = Some o /\ pendings after_calls !! o = Some a /\ done a = false /\
     is_Some (callers after_calls !! o)).
Proof.
  split; [reflexivity|]. split; [reflexivity|]. apply (affinity_placed cpus 0 cpus after_calls).
  - unfold cpus. set_solver.
  - done.
  - exact (history_calm cpus two_calls _ _ _ after_calls_eq eq_refl).
Defined.
(** The task has disabled its migration and thread 1 asks for another CPU. *)
Definition pinned_calls : list event := [Switch_in; Disable; Switch_out; Request 1 false {[1]} 1].
Definition after_pinned : sys := match exec_all cpus (init 0 cpus) pinned_calls with Some (s, _) => s | None => init 0 cpus end.
Lemma after_pinned_eq : exec_all cpus (init 0 cpus) pinned_calls = Some (after_pinned, [0; 0; 0; 0]).
Proof. vm_compute. reflexivity. Qed.
Lemma after_pinned_reach : rtc (step cpus) (init 0 cpus) after_pinned.
Proof. exact (history_steps cpus pinned_calls _ _ _ after_pinned_eq). Qed.
Lemma disabled_stays_witness : forall s' r, exec cpus after_pinned (Request 2 false {[2]} 2) = Some (s', r) -> task_cpu (p s') = 0.
Proof.
  intros s' r H. refine (disabled_stays cpus 0 cpus after_pinned _ s' r cpus_ne after_pinned_reach _ _ H); vm_compute; reflexivity.
Defined.

