(* ===== verification/AffinityCalls.v ===== *)
(** * The affinity system calls and the CPU of a wake-up (src/Assignment_4/fifo/core.c)

    sched_setaffinity and sched_getaffinity from the bytes in user memory to the mask
    of the task and back, and select_task_rq with its fallback.  A cpumask is a bitmap,
    bit [c] for CPU [c].  The interleaving of affine_move_task with the task is in
    Affinity.v; here __set_cpus_allowed_ptr is one step. *)
From Stdlib Require Import ZArith Lia.
From stdpp Require Import gmap.
From S2P Require Import Prelude CLib SchedInfo SchedClass SchedCalls.

Local Open Scope Z_scope.

(** What other files provide: the topology, the masks of CPUs, the cpuset of the task
    when its CPUs are gone, and the choice of the scheduling class. *)
Class cpu_topology := {
  nr_cpu_ids : Z; cpumask_size : nat;
  cpu_active_mask : Z; cpu_online_mask : Z; cpu_possible_mask : Z;
  cpu_to_node : Z -> Z; cpumask_of_node : Z -> Z;
  balance_push : Z -> bool
}.
Class cpu_topology_ok (t : cpu_topology) : Prop := {
  mask_bits : 0 < nr_cpu_ids <= 8 * Z.of_nat cpumask_size;
  (** sizes of masks are multiples of a word *)
  size_words : (cpumask_size mod 8 = 0)%nat;
  active_online c : Z.testbit cpu_active_mask c = true -> Z.testbit cpu_online_mask c = true;
  online_possible c : Z.testbit cpu_online_mask c = true -> Z.testbit cpu_possible_mask c = true;
  possible_range c : Z.testbit cpu_possible_mask c = true -> 0 <= c < nr_cpu_ids;
  active_nonneg : 0 <= cpu_active_mask;
  some_active : exists c, Z.testbit cpu_active_mask c = true;
  (** balance_push is switched on when a CPU has ceased to be active *)
  active_no_push c : Z.testbit cpu_active_mask c = true -> balance_push c = false
}.

Module AffinityCalls.
Definition EINVAL : Z := SchedClass.EINVAL.
Definition EBUSY : Z := SchedClass.EBUSY.
Definition EPERM : Z := SchedClass.EPERM.
Definition ENOMEM : Z := 12.

Record task := mk_task {
  task_cpu : Z; cpus_mask : Z; pinned : option Z; migration_disabled : Z; nr_cpus_allowed : Z;
  PF_KTHREAD : bool; PF_NO_SETAFFINITY : bool; kthread_is_per_cpu : bool
}.
Definition set_mask (p : task) (m n : Z) : task :=
  mk_task (task_cpu p) m (pinned p) (migration_disabled p) n (PF_KTHREAD p) (PF_NO_SETAFFINITY p) (kthread_is_per_cpu p).
Definition is_migration_disabled (p : task) : bool := negb (migration_disabled p =? 0)%c.
Definition cpus_ptr (p : task) : Z := match pinned p with Some c => Z.setbit 0 c | None => cpus_mask p end.

Section Model.
Context `{ct : cpu_topology} `{ua : uaccess}.

(** ** Masks *)
Definition trunc (m : Z) : Z := Z.land m (Z.ones nr_cpu_ids).
Definition cpumask_equal (a b : Z) : bool := (trunc a =? trunc b)%c.
Definition cpumask_subset (a b : Z) : bool := (trunc (Z.ldiff a b) =? 0)%c.
Definition cpumask_empty (m : Z) : bool := (trunc m =? 0)%c.
(** The CPUs of a mask, in the order of [for_each_cpu]. *)
Definition for_each_cpu (m : Z) : list Z := filter (fun c => Z.testbit m c = true) (seqZ 0 nr_cpu_ids).
Definition cpumask_weight (m : Z) : Z := Z.of_nat (length (for_each_cpu m)).

(** ** The mask of a task *)
Definition set_cpus_allowed_common (p : task) (new_mask : Z) : task := set_mask p new_mask (cpumask_weight new_mask).
(** [current]: the task calls for itself. *)
Definition set_cpus_allowed_ptr (p : task) (current : bool) (new_mask : Z) (check : bool) : Z * task :=
  let cpu_valid_mask := if (PF_KTHREAD p || is_migration_disabled p)%bool then cpu_online_mask else cpu_active_mask in
  if (check && PF_NO_SETAFFINITY p)%bool then (- EINVAL, p)
  else if cpumask_equal (cpus_mask p) new_mask then (0, p)
  else if (current && is_migration_disabled p && negb (Z.testbit new_mask (task_cpu p)))%bool then (- EBUSY, p)
  else if cpumask_empty (Z.land cpu_valid_mask new_mask) then (- EINVAL, p)
  else (0, set_cpus_allowed_common p new_mask).

Definition is_cpu_allowed (p : task) (cpu : Z) : bool :=
  if negb (Z.testbit (cpus_ptr p) cpu) then false
  else if is_migration_disabled p then Z.testbit cpu_online_mask cpu
  else if negb (PF_KTHREAD p) then Z.testbit cpu_active_mask cpu
  else if kthread_is_per_cpu p then Z.testbit cpu_online_mask cpu
  else if balance_push cpu then false
  else Z.testbit cpu_online_mask cpu.

(** ** select_fallback_rq *)
Section Select.
Context (CONFIG_CPUSETS : bool) (cpuset_cpus_allowed_fallback : task -> Z).

Inductive fallback := cpuset | possible | fail.
(** The node of the CPU. *)
Definition fallback_node (cpu : Z) (p : task) : option Z :=
  let nid := cpu_to_node cpu in
  if (nid =? -1)%c then None
  else head (filter (fun c => Z.testbit cpu_active_mask c = true /\ Z.testbit (cpus_ptr p) c = true)
               (for_each_cpu (cpumask_of_node nid))).
(** One turn of the endless loop: found, or the next state, or BUG(). *)
Definition fallback_turn (state : fallback) (p : task) : (Z + (fallback * task)) + unit :=
  match head (filter (fun c => is_cpu_allowed p c = true) (for_each_cpu (cpus_ptr p))) with
  | Some c => inl (inl c)
  | None =>
      match state with
      | cpuset => if CONFIG_CPUSETS then inl (inr (possible, set_cpus_allowed_common p (cpuset_cpus_allowed_fallback p)))
                  else inl (inr (fail, set_cpus_allowed_common p cpu_possible_mask))
      | possible => inl (inr (fail, set_cpus_allowed_common p cpu_possible_mask))
      | fail => inr tt
      end
  end.
(** [None]: BUG(), or out of fuel. *)
Fixpoint fallback_loop (fuel : nat) (state : fallback) (p : task) : option (Z * fallback * task) :=
  match fuel with
  | O => None
  | S fuel =>
      match fallback_turn state p with
      | inl (inl c) => Some (c, state, p)
      | inl (inr (state, p)) => fallback_loop fuel state p
      | inr _ => None
      end
  end.
(** The CPU, the task, and whether the message about the affinity is printed (for a task
    with an address space, and not too often). *)
Definition select_fallback_rq (cpu : Z) (p : task) : option (Z * task * bool) :=
  match fallback_node cpu p with
  | Some c => Some (c, p, false)
  | None =>
      '(c, state, p) ← fallback_loop 4 cpuset p;
      Some (c, p, match state with cpuset => false | _ => true end)
  end.

(** [chosen]: what select_task_rq of the class answers for a CPU. *)
Definition select_task_rq (chosen : Z -> Z) (any : Z -> Z) (p : task) (cpu : Z) : option (Z * task) :=
  let cpu := if ((1 <? nr_cpus_allowed p)%c && negb (is_migration_disabled p))%bool then chosen cpu
             else any (cpus_ptr p) in
  if negb (is_cpu_allowed p cpu)
  then '(c, p, _) ← select_fallback_rq (task_cpu p) p; Some (c, p)
  else Some (cpu, p).
End Select.

(** ** sched_setaffinity *)
(** What the call meets: allocations, permissions, the security hook, a deadline task
    under admission control with the span of its root domain, and the answers of
    cpuset_cpus_allowed: the first, and those that come later, as long as it changes. *)
Record circumstances := {
  user_mask_allocated : bool; cpus_allowed_allocated : bool; new_mask_allocated : bool;
  same_owner : bool; cap_sys_nice : bool; security_task_setscheduler : Z;
  dl_admission : bool; rd_span : Z; cpuset_first : Z; cpuset_later : list Z
}.
(** The label [again]: [cpus_allowed] is the last answer. *)
Fixpoint again (p : task) (current : bool) (new_mask cpus_allowed : Z) (later : list Z) : Z * task :=
  let '(retval, p) := set_cpus_allowed_ptr p current new_mask true in
  if negb (retval =? 0)%c then (retval, p) else
  match later with
  | [] => if cpumask_subset new_mask cpus_allowed then (0, p) else set_cpus_allowed_ptr p current cpus_allowed true
  | cpus_allowed :: later =>
      if cpumask_subset new_mask cpus_allowed then (0, p)
      else again p current cpus_allowed cpus_allowed later
  end.
Definition sched_setaffinity (c : circumstances) (p : task) (current : bool) (in_mask : Z) : Z * task :=
  if PF_NO_SETAFFINITY p then (- EINVAL, p)
  else if negb (cpus_allowed_allocated c) then (- ENOMEM, p)
  else if negb (new_mask_allocated c) then (- ENOMEM, p)
  else if (negb (same_owner c) && negb (cap_sys_nice c))%bool then (- EPERM, p)
  else if negb (security_task_setscheduler c =? 0)%c then (security_task_setscheduler c, p)
  else
    let new_mask := Z.land in_mask (cpuset_first c) in
    if (dl_admission c && negb (cpumask_subset (rd_span c) new_mask))%bool then (- EBUSY, p)
    else again p current new_mask (cpuset_first c) (cpuset_later c).

Record sys := mk_sys { tasks : gmap Z task; current : Z; mem : user }.
Definition set_mem (s : sys) (m : user) : sys := mk_sys (tasks s) (current s) m.
Definition set_task (s : sys) (pid : Z) (p : task) : sys := mk_sys (<[pid := p]> (tasks s)) (current s) (mem s).
Definition find_process_by_pid (s : sys) (pid : Z) : option (Z * task) :=
  let pid := if (pid =? 0)%c then current s else pid in
  p ← tasks s !! pid; Some (pid, p).

Definition get_user_cpu_mask (m : user) (user_mask_ptr len : Z) : Z + Z :=
  let len := if (Z.of_nat cpumask_size <? len)%c then Z.of_nat cpumask_size else len in
  match copy_from_user m user_mask_ptr (Z.to_nat len) with
  | Some bs => inr (le bs)
  | None => inl (- EFAULT)
  end.
Definition sys_sched_setaffinity (c : circumstances) (s : sys) (pid len user_mask_ptr : Z) : Z * sys :=
  if negb (user_mask_allocated c) then (- ENOMEM, s) else
  match get_user_cpu_mask (mem s) user_mask_ptr len with
  | inl retval => (retval, s)
  | inr new_mask =>
      match find_process_by_pid s pid with
      | None => (- ESRCH, s)
      | Some (pid, p) =>
          let '(retval, p) := sched_setaffinity c p (pid =? current s)%c new_mask in
          (retval, set_task s pid p)
      end
  end.

(** ** sched_getaffinity *)
Definition sched_getaffinity (security_task_getscheduler : Z -> Z) (s : sys) (pid : Z) : Z + Z :=
  match find_process_by_pid s pid with
  | None => inl (- ESRCH)
  | Some (pid, p) =>
      let retval := security_task_getscheduler pid in
      if negb (retval =? 0)%c then inl retval else inr (Z.land (cpus_mask p) cpu_active_mask)
  end.
(** [len] is an unsigned int, and so is its product with the bits of a byte. *)
Definition sys_sched_getaffinity (security : Z -> Z) (allocated : bool) (s : sys) (pid len user_mask_ptr : Z) : Z * sys :=
  if (u32 (len * 8) <? nr_cpu_ids)%c then (- EINVAL, s)
  else if negb (Z.land len 7 =? 0)%c then (- EINVAL, s)
  else if negb allocated then (- ENOMEM, s)
  else
    match sched_getaffinity security s pid with
    | inl ret => (ret, s)
    | inr mask =>
        let retlen := Z.min len (Z.of_nat cpumask_size) in
        let '(m, done) := copy_to_user (mem s) user_mask_ptr (to_le (Z.to_nat retlen) mask) in
        (if done then retlen else - EFAULT, set_mem s m)
    end.
End Model.
End AffinityCalls.
