(* ===== verification/AffinityCallsTheorems.v ===== *)
(** * The affinity system calls and the CPU of a wake-up: properties (src/Assignment_4/fifo/core.c)

    A task is never woken on a CPU it may not use; what sched_setaffinity stores
    sched_getaffinity reports; and the one-step summary of __set_cpus_allowed_ptr is
    what every interleaving of Affinity.v returns and stores. *)
From Stdlib Require Import ZArith Lia.
From stdpp Require Import gmap.
From S2P Require Import Prelude CLib SchedInfo SchedClass SchedCalls SchedCallsTheorems.
From S2P Require Import AffinityCalls.
Import AffinityCalls.

Local Open Scope Z_scope.

(** ** Lists of CPUs *)
Lemma head_filter {A} (P : A -> Prop) `{forall x, Decision (P x)} l x : head (filter P l) = Some x -> P x /\ x ∈ l.
Proof.
  intros Hx. assert (x ∈ filter P l) as Hin by (destruct (filter P l); [done|injection Hx as ->; by left]).
  by apply list_elem_of_filter in Hin.
Qed.
Lemma head_filter_some {A} (P : A -> Prop) `{forall x, Decision (P x)} l x : P x -> x ∈ l -> exists y, head (filter P l) = Some y.
Proof.
  intros Hp Hl. assert (x ∈ filter P l) as Hin by (by apply list_elem_of_filter).
  destruct (filter P l) as [|y t]; [by apply not_elem_of_nil in Hin|by exists y].
Qed.

Section Theorems.
Context `{ct : cpu_topology} `{Hct : !cpu_topology_ok ct}.

Lemma in_for_each m c : c ∈ for_each_cpu m <-> Z.testbit m c = true /\ 0 <= c < nr_cpu_ids.
Proof. unfold for_each_cpu. rewrite list_elem_of_filter, elem_of_seqZ. intuition lia. Qed.
Lemma active_range c : Z.testbit cpu_active_mask c = true -> 0 <= c < nr_cpu_ids.
Proof. intros H. by apply possible_range, online_possible, active_online. Qed.

(** ** The CPU of a wake-up *)
(** A task whose migration is disabled is pinned to a CPU that is online. *)
Definition pin_ok (p : task) : Prop :=
  forall c, pinned p = Some c -> migration_disabled p <> 0 /\ Z.testbit cpu_online_mask c = true.

Lemma active_allowed p c : Z.testbit cpu_active_mask c = true -> Z.testbit (cpus_ptr p) c = true -> is_cpu_allowed p c = true.
Proof.
  intros Ha Hp. pose proof (active_online c Ha) as Ho. pose proof (active_no_push c Ha) as Hb.
  unfold is_cpu_allowed. rewrite Hp, Ho, Ha, Hb. simpl. by repeat case_match.
Qed.
Lemma allowed_in p c : is_cpu_allowed p c = true -> c ∈ for_each_cpu (cpus_ptr p).
Proof.
  intros H. unfold is_cpu_allowed in H. rewrite in_for_each. destruct (Z.testbit (cpus_ptr p) c); [|done]. simpl in H. split; [done|].
  repeat case_match; try done; (by apply active_range) || (by apply possible_range, online_possible).
Qed.

Section Select.
Context (cpuset_cpus_allowed_fallback : task -> Z).

Lemma turn_found cfg state p : (exists c, is_cpu_allowed p c = true) ->
  exists c, fallback_turn cfg cpuset_cpus_allowed_fallback state p = inl (inl c) /\ is_cpu_allowed p c = true.
Proof.
  intros (c & Hc). unfold fallback_turn.
  destruct (head_filter_some (fun c => is_cpu_allowed p c = true) (for_each_cpu (cpus_ptr p)) c Hc (allowed_in p c Hc)) as [y Hy].
  rewrite Hy. exists y. split; [done|]. by apply head_filter in Hy as [? _].
Qed.
Lemma turn_cases cfg state p : (exists c, fallback_turn cfg cpuset_cpus_allowed_fallback state p = inl (inl c) /\ is_cpu_allowed p c = true) \/
  ((forall c, is_cpu_allowed p c = false) /\ fallback_turn cfg cpuset_cpus_allowed_fallback state p =
    match state with
    | cpuset => if cfg then inl (inr (possible, set_cpus_allowed_common p (cpuset_cpus_allowed_fallback p)))
                else inl (inr (fail, set_cpus_allowed_common p cpu_possible_mask))
    | possible => inl (inr (fail, set_cpus_allowed_common p cpu_possible_mask))
    | fail => inr tt
    end).
Proof.
  unfold fallback_turn. destruct (head _) as [c|] eqn:E.
  { left. exists c. split; [done|]. by apply head_filter in E as [? _]. }
  right. split; [|done]. intros c. apply not_true_iff_false. intros Hc.
  destruct (head_filter_some (fun c => is_cpu_allowed p c = true) (for_each_cpu (cpus_ptr p)) c Hc (allowed_in p c Hc)) as [y Hy].
  congruence.
Qed.
(** After the fallback to every possible CPU there is one. *)
Lemma possible_allowed p : pin_ok p -> (forall c, is_cpu_allowed p c = false) ->
  exists c, is_cpu_allowed (set_cpus_allowed_common p cpu_possible_mask) c = true.
Proof.
  intros Hp Hn. destruct (pinned p) as [c|] eqn:Ep.
  - exfalso. destruct (Hp c Ep) as [Hd Ho]. specialize (Hn c). unfold is_cpu_allowed, cpus_ptr, is_migration_disabled in Hn.
    rewrite Ep, Z.setbit_eqb, Z.eqb_refl in Hn by (pose proof (possible_range c (online_possible c Ho)); lia). simpl in Hn.
    destruct (Z.eqb_spec (migration_disabled p) 0); [done|]. simpl in Hn. congruence.
  - destruct some_active as (c & Hc). exists c. apply active_allowed; [done|]. unfold cpus_ptr. simpl. rewrite Ep.
    by apply online_possible, active_online.
Qed.
Lemma pin_ok_mask p m : pin_ok p -> pin_ok (set_cpus_allowed_common p m).
Proof. done. Qed.
(** A task with no CPU of its own has none after another mask, if it is pinned. *)
Definition relaxed (p p' : task) : Prop :=
  p' = p \/ ((forall c, is_cpu_allowed p c = false) /\
    (p' = set_cpus_allowed_common p (cpuset_cpus_allowed_fallback p) \/ cpus_mask p' = cpu_possible_mask)).
Lemma loop_found cfg p : pin_ok p ->
  exists c state p', fallback_loop cfg cpuset_cpus_allowed_fallback 4 cpuset p = Some (c, state, p') /\
    is_cpu_allowed p' c = true /\ relaxed p p'.
Proof.
  intros Hp. cbn [fallback_loop]. destruct (turn_cases cfg cpuset p) as [(c & -> & Hc)|[Hn ->]].
  { exists c, cpuset, p. split_and!; [done|done|by left]. }
  assert (forall q, q = set_cpus_allowed_common p cpu_possible_mask \/
      q = set_cpus_allowed_common (set_cpus_allowed_common p (cpuset_cpus_allowed_fallback p)) cpu_possible_mask ->
      exists c, fallback_turn cfg cpuset_cpus_allowed_fallback fail q = inl (inl c) /\ is_cpu_allowed q c = true) as Hposs.
  { intros q Hq. apply turn_found. destruct Hq as [-> | ->]; exact (possible_allowed p Hp Hn). }
  destruct cfg.
  - destruct (turn_cases true possible (set_cpus_allowed_common p (cpuset_cpus_allowed_fallback p))) as [(c & -> & Hc)|[Hn2 ->]].
    + exists c, possible, (set_cpus_allowed_common p (cpuset_cpus_allowed_fallback p)). split_and!; [done|done|]. right. by split; [|left].
    + destruct (Hposs _ (or_intror eq_refl)) as (c & -> & Hc). eexists c, fail, _. split_and!; [done|done|]. right. by split; [|right].
  - destruct (Hposs _ (or_introl eq_refl)) as (c & -> & Hc). eexists c, fail, _. split_and!; [done|done|]. right. by split; [|right].
Qed.

(** C27: A task is never put on a CPU it may not use. Whatever CPU the scheduling class proposes and
    whatever the cpuset falls back to, select_task_rq ends after at most three turns of its endless
    loop, never in BUG(), with a CPU that is_cpu_allowed admits for the task as it then is; the mask
    of the task is left alone unless no CPU at all is admitted by it, and is otherwise that of the
    cpuset or all possible CPUs. *)
Theorem wakeup_cpu_allowed cfg chosen any p cpu : pin_ok p ->
  exists c p', select_task_rq cfg cpuset_cpus_allowed_fallback chosen any p cpu = Some (c, p') /\
    is_cpu_allowed p' c = true /\ 0 <= c < nr_cpu_ids /\ relaxed p p'.
Proof.
  intros Hp. unfold select_task_rq. set (cpu1 := if _ : bool then chosen cpu else any (cpus_ptr p)).
  destruct (is_cpu_allowed p cpu1) eqn:Ha; cbn [negb].
  { exists cpu1, p. pose proof (allowed_in p cpu1 Ha) as Hin. apply in_for_each in Hin. split_and!; [done|done|lia|lia|by left]. }
  unfold select_fallback_rq. destruct (fallback_node (task_cpu p) p) as [c|] eqn:En.
  - exists c, p. unfold fallback_node in En. destruct (_ =? -1)%c; [done|]. apply head_filter in En as [[H1 H2] _].
    pose proof (active_range c H1). split_and!; [done|by apply active_allowed|lia|lia|by left].
  - destruct (loop_found cfg p Hp) as (c & state & p' & -> & Hc & Hr). exists c, p'.
    pose proof (allowed_in p' c Hc) as Hin. apply in_for_each in Hin. split_and!; [done|done|lia|lia|done].
Qed.
End Select.

(** ** Setting and getting *)
Lemma trunc_bits m c : Z.testbit (trunc m) c = (Z.testbit m c && (0 <=? c)%c && (c <? nr_cpu_ids)%c)%bool.
Proof.
  pose proof mask_bits. unfold trunc. rewrite Z.land_spec. destruct (Z.leb_spec 0 c).
  - rewrite Z.testbit_ones by lia. destruct (Z.leb_spec 0 c); [|lia]. by rewrite andb_true_r.
  - rewrite !Z.testbit_neg_r by lia. done.
Qed.
Lemma trunc_active a b : trunc a = trunc b -> Z.land a cpu_active_mask = Z.land b cpu_active_mask.
Proof.
  intros H. apply Z.bits_inj'. intros c Hc. rewrite !Z.land_spec.
  destruct (Z.testbit cpu_active_mask c) eqn:Ha; [|by rewrite !andb_false_r].
  pose proof (active_range c Ha). apply (f_equal (fun m => Z.testbit m c)) in H. rewrite !trunc_bits in H.
  rewrite (proj2 (Z.leb_le 0 c)), (proj2 (Z.ltb_lt c nr_cpu_ids)) in H by lia. rewrite !andb_true_r in *. by rewrite H.
Qed.
Lemma active_bound m : 0 <= Z.land m cpu_active_mask < 2 ^ nr_cpu_ids.
Proof.
  pose proof mask_bits. pose proof active_nonneg as H0. assert (0 <= Z.land m cpu_active_mask) as Hn by (apply Z.land_nonneg; by right).
  split; [done|]. replace (Z.land m cpu_active_mask) with (Z.land m cpu_active_mask mod 2 ^ nr_cpu_ids); [apply Z.mod_pos_bound; lia|].
  rewrite <- Z.land_ones by lia. change (trunc (Z.land m cpu_active_mask) = Z.land m cpu_active_mask).
  apply Z.bits_inj'. intros c Hc. rewrite trunc_bits, Z.land_spec. destruct (Z.testbit cpu_active_mask c) eqn:Ha; [|by rewrite !andb_false_r].
  pose proof (active_range c Ha). rewrite (proj2 (Z.leb_le 0 c)), (proj2 (Z.ltb_lt c nr_cpu_ids)) by lia. by rewrite !andb_true_r.
Qed.

Lemma set_ptr_result p cur m check ret p' : set_cpus_allowed_ptr p cur m check = (ret, p') ->
  (ret = 0 /\ trunc (cpus_mask p') = trunc m) \/ (ret <> 0 /\ p' = p).
Proof.
  unfold set_cpus_allowed_ptr. set (valid := if (PF_KTHREAD p || _)%bool then _ else _).
  destruct (check && _)%bool; [intros [= <- <-]; by right|].
  destruct (cpumask_equal (cpus_mask p) m) eqn:E; [intros [= <- <-]; left; split; [done|by apply Z.eqb_eq]|].
  destruct (cur && _ && _)%bool; [intros [= <- <-]; by right|].
  destruct (cpumask_empty _); intros [= <- <-]; [by right|by left].
Qed.
Lemma again_alone p cur m a ret p' : cpumask_subset m a = true -> again p cur m a [] = (ret, p') ->
  (ret = 0 /\ trunc (cpus_mask p') = trunc m) \/ (ret <> 0 /\ p' = p).
Proof.
  intros Hs. simpl. destruct (set_cpus_allowed_ptr p cur m true) as [r q] eqn:E. apply set_ptr_result in E.
  destruct (Z.eqb_spec r 0); simpl; [rewrite Hs|]; intros [= <- <-]; destruct E as [[? ?]|[? ?]]; auto; done.
Qed.
(** Whatever happens to the cpuset meanwhile: a successful call ends within its last answer. *)
Lemma again_within later : forall p cur m a ret p', again p cur m a later = (ret, p') -> ret = 0 ->
  exists b, b ∈ a :: later /\ cpumask_subset (cpus_mask p') b = true.
Proof.
  assert (forall q m b, trunc (cpus_mask q) = trunc m -> cpumask_subset m b = true -> cpumask_subset (cpus_mask q) b = true) as Hsub.
  { intros q m b E H. unfold cpumask_subset in *. apply Z.eqb_eq in H. apply Z.eqb_eq. rewrite <- H. apply Z.bits_inj'. intros c Hc.
    apply (f_equal (fun m => Z.testbit m c)) in E. rewrite !trunc_bits in *. rewrite !Z.ldiff_spec.
    destruct (Z.leb_spec 0 c), (Z.ltb_spec c nr_cpu_ids); rewrite ?andb_true_r, ?andb_false_r in *; try done. by rewrite E. }
  induction later as [|b later IH]; intros p cur m a ret p' H Hr; simpl in H;
    destruct (set_cpus_allowed_ptr p cur m true) as [r q] eqn:E; apply set_ptr_result in E;
    (destruct (Z.eqb_spec r 0) as [->|]; simpl in H; [|by injection H as <- _]); destruct E as [[_ E]|[? _]]; try done.
  - destruct (cpumask_subset m a) eqn:Hs.
    + injection H as <- <-. exists a. split; [by left|by eapply Hsub].
    + apply set_ptr_result in H as [[_ H]|[? _]]; [|done]. exists a. split; [by left|]. apply (Hsub p' a a H).
      unfold cpumask_subset. apply Z.eqb_eq. unfold trunc. by rewrite Z.ldiff_diag.
  - destruct (cpumask_subset m b) eqn:Hs.
    + injection H as <- <-. exists b. split; [by right; left|by eapply Hsub].
    + destruct (IH q cur b b ret p' H Hr) as (d & Hd & Hd'). exists d. split; [by right|done].
Qed.

Lemma set_task_same s pid p : tasks s !! pid = Some p -> set_task s pid p = s.
Proof. destruct s as [ts cur m]. intros H. unfold set_task. simpl in *. by rewrite insert_id. Qed.
Lemma find_after_set s pid q p p' : find_process_by_pid s pid = Some (q, p) ->
  find_process_by_pid (set_task s q p') pid = Some (q, p') /\ tasks s !! q = Some p.
Proof.
  unfold find_process_by_pid. simpl. set (k := if _ : bool then _ else pid). destruct (tasks s !! k) as [p0|] eqn:E; [|done].
  intros [= <- <-]. by rewrite lookup_insert_eq.
Qed.
Lemma sched_setaffinity_result c p cur m ret p' : cpuset_later c = [] -> sched_setaffinity c p cur m = (ret, p') ->
  (ret = 0 /\ trunc (cpus_mask p') = trunc (Z.land m (cpuset_first c))) \/ (ret <> 0 /\ p' = p).
Proof.
  intros Hl. unfold sched_setaffinity. rewrite Hl. destruct (PF_NO_SETAFFINITY p); [intros [= <- <-]; by right|].
  destruct (negb (cpus_allowed_allocated c)); [intros [= <- <-]; by right|].
  destruct (negb (new_mask_allocated c)); [intros [= <- <-]; by right|].
  destruct (_ && _)%bool; [intros [= <- <-]; by right|].
  destruct (Z.eqb_spec (security_task_setscheduler c) 0); cbn [negb]; [|intros [= <- <-]; by right].
  destruct (_ && _)%bool; [intros [= <- <-]; by right|]. apply again_alone.
  unfold cpumask_subset. apply Z.eqb_eq. apply Z.bits_inj'. intros i _. rewrite trunc_bits, Z.ldiff_spec, Z.land_spec, Z.bits_0.
  by destruct (Z.testbit m i), (Z.testbit (cpuset_first c) i).
Qed.

Section Calls.
Context `{ua : uaccess} {uok : uaccess_ok ua}.

Definition mask_bytes (len : Z) : nat := Z.to_nat (Z.min len (Z.of_nat cpumask_size)).
(** What sched_setaffinity does to the task, given the mask in user memory. *)
Lemma setaffinity_result c s pid len u ret s1 : cpuset_later c = [] -> sys_sched_setaffinity c s pid len u = (ret, s1) ->
  (ret <> 0 /\ s1 = s) \/
  (ret = 0 /\ mem s1 = mem s /\ exists bs q p, read (mem s) u (mask_bytes len) = Some bs /\
    find_process_by_pid s1 pid = Some (q, p) /\ trunc (cpus_mask p) = trunc (Z.land (le bs) (cpuset_first c))).
Proof.
  intros Hl. unfold sys_sched_setaffinity. destruct (negb (user_mask_allocated c)); [intros [= <- <-]; by left|].
  unfold get_user_cpu_mask. rewrite copy_from_user_read.
  replace (Z.to_nat (if (Z.of_nat cpumask_size <? len)%c then Z.of_nat cpumask_size else len)) with (mask_bytes len)
    by (unfold mask_bytes; destruct (Z.ltb_spec (Z.of_nat cpumask_size) len); f_equal; lia).
  destruct (read (mem s) u (mask_bytes len)) as [bs|]; [|intros [= <- <-]; by left].
  destruct (find_process_by_pid s pid) as [[q p]|] eqn:Ef; [|intros [= <- <-]; by left].
  destruct (sched_setaffinity c p _ _) as [r p'] eqn:Es. intros [= <- <-].
  destruct (find_after_set s pid q p p' Ef) as [Hf Hq]. apply sched_setaffinity_result in Es as [[-> E]|[Hr ->]]; [right|left|done].
  - split_and!; [done|done|]. by exists bs, q, p'.
  - split; [done|by apply set_task_same].
Qed.
Lemma mask_fits len m : 0 <= len -> nr_cpu_ids <= u32 (len * 8) -> 0 <= Z.land m cpu_active_mask < 256 ^ Z.of_nat (mask_bytes len).
Proof.
  intros Hl Hn. pose proof mask_bits. pose proof (active_bound m) as [H0 H1].
  assert (u32 (len * 8) <= len * 8) as Hu by (apply Z.mod_le; lia).
  split; [done|]. eapply Z.lt_le_trans; [exact H1|]. change 256 with (2 ^ 8). rewrite <- Z.pow_mul_r by lia.
  apply Z.pow_le_mono_r; [lia|]. unfold mask_bytes. lia.
Qed.

(** C28: What sched_setaffinity is given sched_getaffinity reports. When the cpuset does not change
    meanwhile, an error of sched_setaffinity leaves every task as it was; after a success the bytes
    sched_getaffinity writes, for any buffer large enough for the CPUs of the machine and a multiple
    of a word, are the mask read from user memory (the missing high bytes counting as zero, those
    beyond a cpumask ignored) within the cpuset of the task and the active CPUs. *)
Theorem setaffinity_getaffinity c s pid len u ret s1 security len2 v :
  cpuset_later c = [] -> sys_sched_setaffinity c s pid len u = (ret, s1) ->
  (forall p, security p = 0) -> 0 <= len2 -> nr_cpu_ids <= u32 (len2 * 8) -> Z.land len2 7 = 0 ->
  is_Some (read (mem s) v (mask_bytes len2)) ->
  (ret <> 0 /\ s1 = s) \/
  (ret = 0 /\ exists bs s2 out, read (mem s) u (mask_bytes len) = Some bs /\
    sys_sched_getaffinity security true s1 pid len2 v = (Z.min len2 (Z.of_nat cpumask_size), s2) /\
    tasks s2 = tasks s1 /\ read (mem s2) v (mask_bytes len2) = Some out /\
    le out = Z.land (Z.land (le bs) (cpuset_first c)) cpu_active_mask).
Proof.
  intros Hl Hs Hsec H0 Hn H7 Hv. apply setaffinity_result in Hs as [?|(-> & Hm & bs & q & p & Hbs & Hf & Ht)]; [by left|right|done].
  split; [done|]. apply trunc_active in Ht. pose proof (mask_fits len2 (cpus_mask p) H0 Hn) as Hb.
  assert (length (to_le (mask_bytes len2) (Z.land (cpus_mask p) cpu_active_mask)) = mask_bytes len2) as Hlen by apply length_to_le.
  eexists bs, _, _. split_and!; [done| | | |].
  - unfold sys_sched_getaffinity, sched_getaffinity. rewrite (proj2 (Z.ltb_ge _ _) Hn), H7, Hf, Hsec. cbn [negb Z.eqb].
    fold (mask_bytes len2). rewrite Hm, copy_to_user_write by (by rewrite Hlen). reflexivity.
  - done.
  - cbn [mem set_mem]. rewrite <- Hlen at 2. apply read_write.
  - by rewrite le_to_le.
Qed.
End Calls.
End Theorems.

(** ** Witnesses *)
(** Four CPUs, the last of them offline. *)
#[export] Instance board : cpu_topology := {
  nr_cpu_ids := 4; cpumask_size := 8;
  cpu_active_mask := 7; cpu_online_mask := 7; cpu_possible_mask := 15;
  cpu_to_node _ := 0; cpumask_of_node _ := 15;
  balance_push c := negb (Z.testbit 7 c)
}.
#[export] Instance board_ok : cpu_topology_ok board.
Proof.
  assert (forall m c, 0 <= m < 2 ^ 4 -> Z.testbit m c = true -> 0 <= c < 4) as Hr.
  { intros m c Hm Hc. destruct (Z.ltb_spec c 0); [by rewrite Z.testbit_neg_r in Hc|]. destruct (Z.ltb_spec c 4); [lia|].
    rewrite Z.bits_above_log2 in Hc; [done|lia|].
    destruct (decide (m = 0)) as [->|]; [simpl; lia|]. apply Z.log2_lt_pow2; [lia|]. pose proof (Z.pow_le_mono_r 2 4 c). lia. }
  split; simpl; try done; try lia.
  - intros c Hc. pose proof (Hr 7 c) as H. assert (c = 0 \/ c = 1 \/ c = 2 \/ c = 3) as [-> |[-> |[-> | ->]]] by (lapply H; [intros H'; specialize (H' Hc)|]; lia); done.
  - intros c Hc. by apply (Hr 15 c).
  - by exists 0.
  - intros c Hc. by rewrite Hc.
Qed.
(** A task that may only use the CPU that has gone. *)
Definition stranded : task := mk_task 3 8 None 0 1 false false false.
Lemma wakeup_cpu_allowed_witness :
  select_task_rq true (fun _ => 8) (fun c => c) (fun _ => 3) stranded 3 = Some (0, set_mask stranded 15 4) /\
  exists c p', select_task_rq true (fun _ => 8) (fun c => c) (fun _ => 3) stranded 3 = Some (c, p') /\
    is_cpu_allowed p' c = true /\ 0 <= c < nr_cpu_ids /\ relaxed (fun _ => 8) stranded p'.
Proof.
  split; [by vm_compute|]. apply (wakeup_cpu_allowed (Hct := board_ok) (fun _ => 8) true (fun c => c) (fun _ => 3) stranded 3).
  intros c H. discriminate H.
Defined.

Definition plain : circumstances := {|
  user_mask_allocated := true; cpus_allowed_allocated := true; new_mask_allocated := true;
  same_owner := true; cap_sys_nice := false; security_task_setscheduler := 0;
  dl_admission := false; rd_span := 0; cpuset_first := 14; cpuset_later := []
|}.
(** The mask 13 at address 100, a buffer at 200. *)
Definition before : sys :=
  mk_sys {[42 := mk_task 0 7 None 0 3 false false false]} 1 (write (write ∅ 100 (to_le 8 13)) 200 (replicate 8 255)).
Definition after : sys := (sys_sched_setaffinity plain before 42 8 100).2.
Lemma setaffinity_getaffinity_witness : sys_sched_setaffinity plain before 42 8 100 = (0, after) /\
  exists bs s2 out, read (mem before) 100 8 = Some bs /\ le bs = 13 /\
    sys_sched_getaffinity (fun _ => 0) true after 42 8 200 = (8, s2) /\ read (mem s2) 200 8 = Some out /\
    le out = Z.land (Z.land (le bs) 14) 7.
Proof.
  split; [vm_compute; reflexivity|].
  edestruct (setaffinity_getaffinity (Hct := board_ok) (uok := flat_ok) plain before 42 8 100 0 after (fun _ => 0) 8 200 eq_refl)
    as [[H _]|(_ & bs & s2 & out & H1 & H2 & _ & H3 & H4)];
    [vm_compute; reflexivity|done|lia|done|done|vm_compute; by eexists|done|].
  exists bs, s2, out. split_and!; try done. vm_compute in H1. injection H1 as <-. reflexivity.
Defined.
