(* ===== verification/AffinityRefines.v ===== *)
(** * The affinity system calls on top of the protocol (src/Assignment_4/fifo/core.c)

    AffinityCalls.v takes __set_cpus_allowed_ptr as one step on the mask of the task;
    here that step is what the locked section of Affinity.v returns and stores, at every
    moment of every history, the part of affine_move_task included. *)
From Stdlib Require Import ZArith Lia.
From stdpp Require Import gmap.
From S2P Require Import Prelude SchedInfo SchedClass Affinity AffinityInv AffinitySteps.
From S2P Require Import AffinityProps SchedCalls AffinityCalls AffinityCallsTheorems.
Import Affinity.

Local Open Scope Z_scope.

Section Refines.
Context `{ct : cpu_topology} {Hct : cpu_topology_ok ct}.

(** The set of the CPUs of a bitmap. *)
Definition cpus_of (m : Z) : cpumask := list_to_set (AffinityCalls.for_each_cpu m).
Lemma in_cpus_of m c : c ∈ cpus_of m <-> Z.testbit m c = true /\ 0 <= c < nr_cpu_ids.
Proof. unfold cpus_of. by rewrite elem_of_list_to_set, in_for_each. Qed.
Lemma equal_spec a b : AffinityCalls.cpumask_equal a b = bool_decide (cpus_of a = cpus_of b).
Proof.
  apply eq_true_iff_eq. rewrite bool_decide_eq_true. unfold AffinityCalls.cpumask_equal. rewrite Z.eqb_eq. split.
  - intros E. apply set_eq. intros c. rewrite !in_cpus_of. apply (f_equal (fun m => Z.testbit m c)) in E. rewrite !trunc_bits in E.
    split; intros [H R]; (split; [|done]); destruct (Z.leb_spec 0 c), (Z.ltb_spec c nr_cpu_ids); try lia; rewrite !andb_true_r in E; congruence.
  - intros E. apply Z.bits_inj'. intros c _. rewrite !trunc_bits.
    destruct (Z.leb_spec 0 c), (Z.ltb_spec c nr_cpu_ids); rewrite ?andb_true_r, ?andb_false_r; try done.
    assert (c ∈ cpus_of a <-> c ∈ cpus_of b) as H1 by (by rewrite E). rewrite !in_cpus_of in H1. apply eq_true_iff_eq. intuition lia.
Qed.
Lemma empty_spec a b : AffinityCalls.cpumask_empty (Z.land a b) = bool_decide (cpus_of a ∩ cpus_of b = ∅).
Proof.
  transitivity (AffinityCalls.cpumask_equal (Z.land a b) 0); [done|]. rewrite equal_spec. apply bool_decide_ext.
  assert (cpus_of 0 = ∅) as ->. { apply set_eq. intros c. rewrite in_cpus_of, Z.bits_0. set_solver. }
  assert (cpus_of (Z.land a b) = cpus_of a ∩ cpus_of b) as ->; [|done].
  apply set_eq. intros c. rewrite elem_of_intersection, !in_cpus_of, Z.land_spec, andb_true_iff. tauto.
Qed.

(** The task of the system calls and the task of the protocol. The CPU of a task that can
    be moved at any time is nobody's business. *)
Record related (s : sys) (q : AffinityCalls.task) : Prop := {
  r_mask : cpus_mask (p s) = cpus_of (AffinityCalls.cpus_mask q);
  r_disabled : migration_disabled (p s) = AffinityCalls.migration_disabled q;
  r_cpu : migration_disabled (p s) <> 0 -> task_cpu (p s) = AffinityCalls.task_cpu q;
  r_range : 0 <= AffinityCalls.task_cpu q < nr_cpu_ids;
  r_user : AffinityCalls.PF_KTHREAD q = false
}.

(** What affine_move_task leaves alone, and what it returns at once. *)
Lemma affine_move_result s t dest : inv s -> callers s !! t = None ->
  exists s' next, affine_move_task s t dest false = Some (s', next) /\ cpus_mask (p s') = cpus_mask (p s) /\
    migration_disabled (p s') = migration_disabled (p s) /\
    (migration_disabled (p s) <> 0 -> task_cpu (p s') = task_cpu (p s)) /\
    (next = A_return 0 \/ forall r, next <> A_return r).
Proof.
  intros Hi Ht. destruct (decide (task_cpu (p s) ∈ cpus_mask (p s))) as [Hin|Hin].
  - unfold affine_move_task. rewrite decide_True by done.
    destruct (affine_stay_spec s (proj1 Hi) false) as (s1 & a & -> & _ & [(-> & E & _)|(o & b & -> & E & _)]);
      eexists _, _; (split; [done|]); rewrite E; split_and!; auto.
  - destruct (affine_wait_spec s t dest Hi Ht Hin) as (o & a & a' & q & pc & next & -> & Hw & _ & _ & _ & _ & _ & Hq & _).
    eexists _, _. split; [done|]. fields. destruct Hq as [->|(_ & Hz & ->)]; fields; split_and!; try done;
      (by right; intros r ->).
Qed.

Lemma request_result active s t self m dest : inv s -> callers s !! t = None ->
  exists s' r, set_cpus_allowed_ptr active s t self m dest = Some (s', r) /\
    (if decide (cpus_mask (p s) = m) then r = 0 /\ s' = s
     else if (self && is_migration_disabled (p s) && negb (bool_decide (task_cpu (p s) ∈ m)))%bool then r = - SchedClass.EBUSY /\ s' = s
     else if decide (active ∩ m = ∅) then r = - SchedClass.EINVAL /\ s' = s
     else r = 0 /\ cpus_mask (p s') = m /\ migration_disabled (p s') = migration_disabled (p s) /\
       (migration_disabled (p s) <> 0 -> task_cpu (p s') = task_cpu (p s))).
Proof.
  intros Hi Ht. unfold set_cpus_allowed_ptr. destruct (decide (cpus_mask (p s) = m)); [by eexists _, _|].
  destruct (self && _ && _)%bool; [by eexists _, _|]. destruct (decide (active ∩ m = ∅)); [by eexists _, _|].
  destruct (affine_move_result (put_p s (set_mask (p s) m)) t dest) as (s1 & next & -> & H2 & H3 & H4 & H5);
    [by apply set_mask_inv|done|]. fields in H2. fields in H3. fields in H4. fields.
  destruct next as [ret| | | |]; eexists _, _; (split; [reflexivity|]); fields; split_and!; try done.
  by destruct H5 as [[= ->]|H5]; [|destruct (H5 ret)].
Qed.

(** C29: __set_cpus_allowed_ptr as the system calls see it is what its locked section does at any moment
    of any history of the protocol, whatever other calls, stoppers and moves are under way: from the
    task with the same mask and the same migrate_disable count both return the same value, for every
    mask a user can pass, and leave the same mask and count; the installing, joining, kicking and
    completing of affine_move_task is never seen in them. (Every CPU online is active, as in the
    protocol, and the task is not a kernel thread.) *)
Theorem affinity_call_refines cpu m0 s q t self m dest :
  cpu_online_mask = cpu_active_mask -> cpus_of cpu_active_mask ∩ m0 <> ∅ ->
  rtc (step (cpus_of cpu_active_mask)) (init cpu m0) s -> callers s !! t = None ->
  related s q -> AffinityCalls.PF_NO_SETAFFINITY q = false ->
  exists s' q' ret, set_cpus_allowed_ptr (cpus_of cpu_active_mask) s t self (cpus_of m) dest = Some (s', ret) /\
    AffinityCalls.set_cpus_allowed_ptr q self m true = (ret, q') /\ related s' q'.
Proof.
  intros Hon Hm Hr Ht Hq Hno.
  assert (good (cpus_of cpu_active_mask) s) as [Hi _] by (eapply reach_good; [exact Hr|by apply init_good]).
  destruct (request_result (cpus_of cpu_active_mask) s t self (cpus_of m) dest Hi Ht) as (s' & r & E & Hcase).
  exists s'. unfold AffinityCalls.set_cpus_allowed_ptr. rewrite (r_user s q Hq), Hno, Hon, equal_spec, empty_spec, E. simpl.
  assert ((if AffinityCalls.is_migration_disabled q then cpu_active_mask else cpu_active_mask) = cpu_active_mask) as -> by (by destruct (AffinityCalls.is_migration_disabled q)).
  rewrite (r_mask s q Hq) in Hcase. rewrite !bool_decide_decide.
  destruct (decide (cpus_of (AffinityCalls.cpus_mask q) = cpus_of m)); [destruct Hcase as [-> ->]; by exists q, 0|].
  assert ((self && AffinityCalls.is_migration_disabled q && negb (Z.testbit m (AffinityCalls.task_cpu q)))%bool =
          (self && is_migration_disabled (p s) && negb (if decide (task_cpu (p s) ∈ cpus_of m) then true else false))%bool) as ->.
  { unfold AffinityCalls.is_migration_disabled, is_migration_disabled. rewrite <- (r_disabled s q Hq).
    destruct (Z.eqb_spec (migration_disabled (p s)) 0) as [|Hd]; [by rewrite !andb_false_r|]. do 2 f_equal.
    apply eq_true_iff_eq. rewrite <- bool_decide_decide, bool_decide_eq_true, in_cpus_of, (r_cpu s q Hq Hd). pose proof (r_range s q Hq). tauto. }
  destruct (_ && _ && _)%bool; [destruct Hcase as [-> ->]; by exists q, (- SchedClass.EBUSY)|].
  destruct (decide (cpus_of cpu_active_mask ∩ cpus_of m = ∅)); [destruct Hcase as [-> ->]; by exists q, (- SchedClass.EINVAL)|].
  destruct Hcase as (-> & H1 & H2 & H3). eexists _, 0. split_and!; [done|done|].
  destruct Hq as [Q1 Q2 Q3 Q4 Q5]. split; simpl; [done|congruence| |done|done]. intros Hd. rewrite H2 in Hd. rewrite H3 by done. auto.
Qed.
End Refines.

(** ** Witness *)
(** The task runs while thread 1 waits for it to leave CPU 0; thread 2 widens the mask. *)
Definition moving : list event := [Switch_in; Request 1 false (cpus_of 2) 1].
Definition half_way : sys :=
  match exec_all (cpus_of cpu_active_mask) (init 0 (cpus_of 7)) moving with Some (s, _) => s | None => init 0 ∅ end.
Lemma half_way_eq : exec_all (cpus_of cpu_active_mask) (init 0 (cpus_of 7)) moving = Some (half_way, [0; 0]).
Proof. vm_compute. reflexivity. Qed.
Definition moved : AffinityCalls.task := AffinityCalls.mk_task 0 2 None 0 1 false false false.
Lemma affinity_call_refines_witness : migration_pending (p half_way) = Some 1 /\
  exists s' q' ret, set_cpus_allowed_ptr (cpus_of cpu_active_mask) half_way 2 false (cpus_of 6) 2 = Some (s', ret) /\
    AffinityCalls.set_cpus_allowed_ptr moved false 6 true = (ret, q') /\ related s' q'.
Proof.
  split; [by vm_compute|].
  apply (affinity_call_refines (Hct := board_ok) 0 (cpus_of 7) half_way moved 2 false 6 2 eq_refl).
  - vm_compute. discriminate.
  - exact (history_steps _ _ _ _ _ half_way_eq).
  - by vm_compute.
  - split; [by vm_compute|done|done|simpl; lia|done].
  - done.
Defined.
