(* ===== verification/WakeUp.v ===== *)
(** * Wake-ups between CPUs (src/Assignment_4/fifo/core.c, stats.h)

    try_to_wake_up against __schedule with CONFIG_SMP: wakers and CPUs as interleaved
    steps.  RunQueue.v has what one CPU does with its queue; here it is the protocol on
    p->on_rq, p->on_cpu, p->state and the wake list of a CPU, and what is counted
    along the way: nr_iowait, nr_uninterruptible and the calls to PSI.
    A section under rq->lock is one step unless the code of another CPU can look into
    it, and __schedule, which others do look into, is several: its [cpu_pc] tells where
    it is, with rq->lock held and interrupts disabled.  p->pi_lock is held exactly while
    [waker] is not [None].  Memory is sequentially consistent.  Which queued task runs
    next, which CPU is chosen and whether the wake list is used are the event's. *)
From Stdlib Require Import ZArith Lia.
From stdpp Require Import gmap.
From S2P Require Import Prelude SchedInfo SchedClass RunQueue.

Local Open Scope Z_scope.

Module WakeUp.
Abbreviation on_rq_state := RunQueue.on_rq_state.
#[export] Existing Instance RunQueue.on_rq_state_eq_dec.
Abbreviation NOT_QUEUED := RunQueue.NOT_QUEUED.
Abbreviation TASK_ON_RQ_QUEUED := RunQueue.TASK_ON_RQ_QUEUED.
Abbreviation TASK_ON_RQ_MIGRATING := RunQueue.TASK_ON_RQ_MIGRATING.
Abbreviation TASK_RUNNING := RunQueue.TASK_RUNNING.
Abbreviation has := RunQueue.has.
Definition TASK_WAKING : Z := 0x200.
(** What no waker asks for. *)
Definition unwakeable : Z := Z.lor TASK_WAKING (Z.lor RunQueue.TASK_NEW RunQueue.TASK_DEAD).

(** ** State *)
(** Where try_to_wake_up is: before the load of on_rq, in ttwu_runnable, before the
    store of TASK_WAKING, before the load of on_cpu, in smp_cond_load_acquire, before
    select_task_rq, in ttwu_queue. *)
Inductive waker_pc := W_on_rq | W_runnable | W_state | W_on_cpu | W_wait | W_select | W_queue (migrated : bool).

Record task := mk_task {
  task_cpu : Z; state : Z; on_rq : on_rq_state; on_cpu : bool; in_iowait : bool; in_memstall : bool;
  sched_psi_wake_requeue : bool; sched_contributes_to_load : bool; sched_remote_wakeup : bool;
  frozen : bool; waker : option waker_pc
}.
Definition set_cpu (p : task) v := mk_task v (state p) (on_rq p) (on_cpu p) (in_iowait p) (in_memstall p) (sched_psi_wake_requeue p) (sched_contributes_to_load p) (sched_remote_wakeup p) (frozen p) (waker p).
Definition set_state (p : task) v := mk_task (task_cpu p) v (on_rq p) (on_cpu p) (in_iowait p) (in_memstall p) (sched_psi_wake_requeue p) (sched_contributes_to_load p) (sched_remote_wakeup p) (frozen p) (waker p).
Definition set_on_rq (p : task) v := mk_task (task_cpu p) (state p) v (on_cpu p) (in_iowait p) (in_memstall p) (sched_psi_wake_requeue p) (sched_contributes_to_load p) (sched_remote_wakeup p) (frozen p) (waker p).
Definition set_on_cpu (p : task) v := mk_task (task_cpu p) (state p) (on_rq p) v (in_iowait p) (in_memstall p) (sched_psi_wake_requeue p) (sched_contributes_to_load p) (sched_remote_wakeup p) (frozen p) (waker p).
Definition set_in_iowait (p : task) v := mk_task (task_cpu p) (state p) (on_rq p) (on_cpu p) v (in_memstall p) (sched_psi_wake_requeue p) (sched_contributes_to_load p) (sched_remote_wakeup p) (frozen p) (waker p).
Definition set_in_memstall (p : task) v := mk_task (task_cpu p) (state p) (on_rq p) (on_cpu p) (in_iowait p) v (sched_psi_wake_requeue p) (sched_contributes_to_load p) (sched_remote_wakeup p) (frozen p) (waker p).
Definition set_requeue (p : task) v := mk_task (task_cpu p) (state p) (on_rq p) (on_cpu p) (in_iowait p) (in_memstall p) v (sched_contributes_to_load p) (sched_remote_wakeup p) (frozen p) (waker p).
Definition set_contributes (p : task) v := mk_task (task_cpu p) (state p) (on_rq p) (on_cpu p) (in_iowait p) (in_memstall p) (sched_psi_wake_requeue p) v (sched_remote_wakeup p) (frozen p) (waker p).
Definition set_remote (p : task) v := mk_task (task_cpu p) (state p) (on_rq p) (on_cpu p) (in_iowait p) (in_memstall p) (sched_psi_wake_requeue p) (sched_contributes_to_load p) v (frozen p) (waker p).
Definition set_frozen (p : task) v := mk_task (task_cpu p) (state p) (on_rq p) (on_cpu p) (in_iowait p) (in_memstall p) (sched_psi_wake_requeue p) (sched_contributes_to_load p) (sched_remote_wakeup p) v (waker p).
Definition set_waker (p : task) v := mk_task (task_cpu p) (state p) (on_rq p) (on_cpu p) (in_iowait p) (in_memstall p) (sched_psi_wake_requeue p) (sched_contributes_to_load p) (sched_remote_wakeup p) (frozen p) v.

(** Where a CPU is: outside; in __schedule before nr_iowait is counted, before
    pick_next_task, after the switch with [prev] (the idle task if [None]) not yet
    finished, before the unlock; in sched_ttwu_pending with the rest of the list. *)
Inductive cpu_pc := C_run | C_iowait | C_pick | C_finish (prev : option Z) | C_unlock | C_pending (llist : list Z).

(** psi.c is told: bits of a task to clear and to set, on the CPU of the task; a switch. *)
Inductive psi_flag := TSK_IOWAIT | TSK_MEMSTALL | TSK_RUNNING | TSK_ONCPU.
#[export] Instance psi_flag_eq_dec : EqDecision psi_flag.
Proof. solve_decision. Defined.
Inductive psi_call :=
  | psi_task_change (cpu pid : Z) (clear set : list psi_flag)
  | psi_task_switch (cpu : Z) (prev next : option Z) (sleep : bool).

(** Maps over the CPUs have a default: the idle task ([curr] is absent), [C_run], nothing
    on the list, 0.  [psi]: the calls, the last one first. *)
Record sys := mk_sys {
  tasks : gmap Z task; curr : gmap Z Z; pcs : gmap Z cpu_pc; wake_list : gmap Z (list Z);
  nr_iowait : gmap Z Z; nr_uninterruptible : gmap Z Z; psi : list psi_call
}.
Definition val {A} (d : A) (m : gmap Z A) (k : Z) : A := default d (m !! k).
Definition put (s : sys) (pid : Z) (p : task) := mk_sys (<[pid := p]> (tasks s)) (curr s) (pcs s) (wake_list s) (nr_iowait s) (nr_uninterruptible s) (psi s).
Definition put_curr (s : sys) v := mk_sys (tasks s) v (pcs s) (wake_list s) (nr_iowait s) (nr_uninterruptible s) (psi s).
Definition put_pc (s : sys) (c : Z) (v : cpu_pc) := mk_sys (tasks s) (curr s) (<[c := v]> (pcs s)) (wake_list s) (nr_iowait s) (nr_uninterruptible s) (psi s).
Definition put_list (s : sys) (c : Z) (l : list Z) := mk_sys (tasks s) (curr s) (pcs s) (<[c := l]> (wake_list s)) (nr_iowait s) (nr_uninterruptible s) (psi s).
Definition add_iowait (s : sys) (c n : Z) := mk_sys (tasks s) (curr s) (pcs s) (wake_list s) (<[c := val 0 (nr_iowait s) c + n]> (nr_iowait s)) (nr_uninterruptible s) (psi s).
Definition add_uninterruptible (s : sys) (c n : Z) := mk_sys (tasks s) (curr s) (pcs s) (wake_list s) (nr_iowait s) (<[c := val 0 (nr_uninterruptible s) c + n]> (nr_uninterruptible s)) (psi s).
Definition add_psi (s : sys) (call : psi_call) := mk_sys (tasks s) (curr s) (pcs s) (wake_list s) (nr_iowait s) (nr_uninterruptible s) (call :: psi s).
Definition init : sys := mk_sys ∅ ∅ ∅ ∅ ∅ ∅ [].

Definition pc (s : sys) (c : Z) : cpu_pc := val C_run (pcs s) c.
(** rq->lock is held by __schedule or sched_ttwu_pending. *)
Definition locked (s : sys) (c : Z) : bool := match pc s c with C_run => false | _ => true end.

(** ** stats.h, with PSI enabled *)
Definition psi_enqueue (pid : Z) (p : task) (wakeup : bool) : task * psi_call :=
  if (negb wakeup || sched_psi_wake_requeue p)%bool
  then (set_requeue p false,
        psi_task_change (task_cpu p) pid [] (TSK_RUNNING :: if in_memstall p then [TSK_MEMSTALL] else []))
  else (p, psi_task_change (task_cpu p) pid (if in_iowait p then [TSK_IOWAIT] else []) [TSK_RUNNING]).
Definition psi_dequeue (pid : Z) (p : task) (sleep : bool) : psi_call :=
  if negb sleep
  then psi_task_change (task_cpu p) pid (TSK_RUNNING :: if in_memstall p then [TSK_MEMSTALL] else []) []
  else psi_task_change (task_cpu p) pid [TSK_RUNNING; TSK_ONCPU] (if in_iowait p then [TSK_IOWAIT] else []).
Definition psi_ttwu_dequeue (s : sys) (pid : Z) (p : task) : sys * task :=
  if (in_iowait p || in_memstall p)%bool
  then (add_psi s (psi_task_change (task_cpu p) pid
          ((if in_iowait p then [TSK_IOWAIT] else []) ++ (if in_memstall p then [TSK_MEMSTALL] else [])) []),
        set_requeue p true)
  else (s, p).
Definition psi_sched_switch (s : sys) (c : Z) (prev next : option Z) (sleep : bool) : sys :=
  add_psi s (psi_task_switch c prev next sleep).

(** ** Queueing: [p] is the task being worked on, stored when the section ends *)
Definition activate_task (s : sys) (pid : Z) (p : task) (wakeup : bool) : sys * task :=
  let '(p, call) := psi_enqueue pid p wakeup in (add_psi s call, set_on_rq p TASK_ON_RQ_QUEUED).
Definition deactivate_task (s : sys) (pid : Z) (p : task) (sleep : bool) : sys * task :=
  let p := set_on_rq p (if sleep then NOT_QUEUED else TASK_ON_RQ_MIGRATING) in
  (add_psi s (psi_dequeue pid p sleep), p).

(** ** try_to_wake_up *)
Definition ttwu_do_wakeup (p : task) : task := set_state p TASK_RUNNING.
Definition ttwu_do_activate (s : sys) (rq pid : Z) (p : task) (migrated : bool) : sys :=
  let s := if sched_contributes_to_load p then add_uninterruptible s rq (-1) else s in
  let s := if migrated then s else if in_iowait p then add_iowait s (task_cpu p) (-1) else s in
  let '(s, p) := activate_task s pid p true in
  put s pid (ttwu_do_wakeup p).
Definition __ttwu_queue_wakelist (s : sys) (pid : Z) (p : task) (cpu : Z) (migrated : bool) : sys :=
  put_list (put s pid (set_remote p migrated)) cpu (pid :: val [] (wake_list s) cpu).

(** One step of the waker of [pid] in [W_...]; [p] has [waker] already reset. The step
    of [W_select] joins the decrement of nr_iowait, psi_ttwu_dequeue and set_task_cpu:
    between them nobody else looks at the task, which is TASK_WAKING and off every queue. *)
Definition wake_step (s : sys) (pid : Z) (p : task) (w : waker_pc) (cpu : Z) (offload : bool) : sys :=
  let go w s p := put s pid (set_waker p (Some w)) in
  match w with
  | W_on_rq => go (if decide (on_rq p = NOT_QUEUED) then W_state else W_runnable) s p
  | W_runnable =>
      if decide (on_rq p = TASK_ON_RQ_QUEUED) then put s pid (ttwu_do_wakeup p) else go W_state s p
  | W_state => go W_on_cpu s (set_state p TASK_WAKING)
  | W_on_cpu =>
      if (on_cpu p && offload)%bool then __ttwu_queue_wakelist s pid p (task_cpu p) false else go W_wait s p
  | W_wait => go W_select s p
  | W_select =>
      if decide (task_cpu p = cpu) then go (W_queue false) s p
      else
        let s := if in_iowait p then add_iowait s (task_cpu p) (-1) else s in
        let '(s, p) := psi_ttwu_dequeue s pid p in
        go (W_queue true) s (set_cpu p cpu)
  | W_queue migrated =>
      if offload then __ttwu_queue_wakelist s pid p (task_cpu p) migrated
      else ttwu_do_activate s (task_cpu p) pid p migrated
  end.
(** Whether it can be taken: the lock of the run queue, the task not migrating, on_cpu. *)
Definition wake_ready (s : sys) (p : task) (w : waker_pc) (cpu : Z) (offload : bool) : bool :=
  match w with
  | W_runnable => negb (bool_decide (on_rq p = TASK_ON_RQ_MIGRATING)) && negb (locked s (task_cpu p))
  | W_wait => negb (on_cpu p)
  | W_select => bool_decide (task_cpu p = cpu) || negb (in_iowait p || in_memstall p) || negb (locked s (task_cpu p))
  | W_queue _ => offload || negb (locked s (task_cpu p))
  | W_on_rq | W_state | W_on_cpu => true
  end%bool.

(** ** The CPUs *)
Definition contributes (p : task) : bool :=
  (has (state p) RunQueue.TASK_UNINTERRUPTIBLE && negb (has (state p) RunQueue.TASK_NOLOAD) && negb (frozen p))%bool.

(** __schedule up to deactivate_task; [sig] is the answer of signal_pending_state. *)
Definition schedule_prev (s : sys) (c : Z) (preempt sig : bool) : option sys :=
  match curr s !! c with
  | None => Some (put_pc s c C_pick)
  | Some prev =>
      p ← tasks s !! prev;
      if (preempt || (state p =? TASK_RUNNING)%c)%bool then Some (put_pc s c C_pick)
      else if sig then Some (put_pc (put s prev (set_state p TASK_RUNNING)) c C_pick)
      else
        let load := contributes p in
        let s := if load then add_uninterruptible s c 1 else s in
        let '(s, p) := deactivate_task s prev (set_contributes p load) true in
        Some (put_pc (put s prev p) c C_iowait)
  end.
Definition queued (s : sys) (pid : Z) : bool :=
  match tasks s !! pid with Some p => bool_decide (on_rq p = TASK_ON_RQ_QUEUED) | None => false end.
(** From pick_next_task to switch_to. *)
Definition switch (s : sys) (c : Z) (next : option Z) : option sys :=
  let prev := curr s !! c in
  if decide (prev = next) then Some (put_pc s c C_unlock)
  else
    let s := psi_sched_switch s c prev next (match prev with Some q => negb (queued s q) | None => false end) in
    let s := put_curr s (match next with Some q => <[c := q]> (curr s) | None => delete c (curr s) end) in
    s ← match next with
        | Some q => p ← tasks s !! q; Some (put s q (set_on_cpu p true))
        | None => Some s
        end;
    Some (put_pc s c (C_finish prev)).
(** One task of the wake list; [None]: one of the two WARNs. *)
Definition pending_step (s : sys) (c pid : Z) (rest : list Z) : option sys :=
  p ← tasks s !! pid;
  if (on_cpu p || negb (task_cpu p =? c)%c)%bool then None
  else Some (put_pc (ttwu_do_activate s c pid p (sched_remote_wakeup p)) c (C_pending rest)).
Definition cpu_next (s : sys) (c : Z) (next : option Z) : option sys :=
  match pc s c with
  | C_run => None
  | C_iowait =>
      prev ← curr s !! c; p ← tasks s !! prev;
      Some (put_pc (if in_iowait p then add_iowait s c 1 else s) c C_pick)
  | C_pick => switch s c next
  | C_finish prev =>
      match prev with
      | Some q => p ← tasks s !! q; Some (put_pc (put s q (set_on_cpu p false)) c C_unlock)
      | None => Some (put_pc s c C_unlock)
      end
  | C_unlock => Some (put_pc s c C_run)
  | C_pending (pid :: rest) => pending_step s c pid rest
  | C_pending [] => Some (put_pc s c C_run)
  end.

(** move_queued_task, or __migrate_swap_task: off one run queue, and on the other. *)
Definition move_out (s : sys) (pid : Z) (p : task) (new_cpu : Z) : sys :=
  let '(s, p) := deactivate_task s pid p false in put s pid (set_cpu p new_cpu).
Definition move_in (s : sys) (pid : Z) (p : task) : sys :=
  let '(s, p) := activate_task s pid p false in put s pid p.
(** wake_up_new_task, for a task fork.c has made. *)
Definition wake_up_new_task (s : sys) (pid cpu : Z) (memstall : bool) : sys :=
  let p := mk_task cpu TASK_RUNNING NOT_QUEUED false false memstall false false false false None in
  let '(s, p) := activate_task s pid p false in put s pid p.

(** ** Events *)
Inductive event :=
  | Fork (pid cpu : Z) (memstall : bool)
  | Wake (pid mask : Z)                         (* try_to_wake_up begins, for another task *)
  | Waker (pid cpu : Z) (offload : bool)        (* and goes on *)
  | Schedule (c : Z) (preempt sig : bool)
  | Cpu (c : Z) (next : option Z)
  | Ipi (c : Z)                                 (* sched_ttwu_pending begins *)
  | Move (pid cpu : Z) | Moved (pid : Z)
  (* the current task of a CPU: its state, try_to_wake_up of itself, io_schedule_prepare and
     finish, the freezer, psi_memstall_enter and leave *)
  | Set_state (c v : Z) | Wake_self (c mask : Z) | Set_iowait (c : Z) (v : bool) | Set_frozen (c : Z) (v : bool)
  | Memstall (c : Z) (v : bool).

Definition current (s : sys) (c : Z) : option (Z * task) :=
  if locked s c then None else pid ← curr s !! c; p ← tasks s !! pid; Some (pid, p).
Definition is_some {A} (o : option A) : bool := match o with Some _ => true | None => false end.

Definition allowed (s : sys) (e : event) : bool :=
  match e with
  | Fork pid cpu _ => negb (is_some (tasks s !! pid)) && negb (locked s cpu)
  | Wake pid mask =>
      match tasks s !! pid with Some p => negb (is_some (waker p)) && negb (has mask unwakeable) | None => false end
  | Waker pid cpu offload =>
      match tasks s !! pid with
      | Some p => match waker p with Some w => wake_ready s p w cpu offload | None => false end
      | None => false
      end
  | Schedule c _ _ => negb (locked s c)
  | Cpu c next =>
      match pc s c, next with
      | C_run, _ => false
      | C_pick, Some q =>
          match tasks s !! q with Some p => (task_cpu p =? c)%c && bool_decide (on_rq p = TASK_ON_RQ_QUEUED) | None => false end
      | _, _ => true
      end
  | Ipi c => negb (locked s c) && negb (bool_decide (val [] (wake_list s) c = []))
  | Move pid cpu =>
      match tasks s !! pid with
      | Some p => bool_decide (on_rq p = TASK_ON_RQ_QUEUED) && negb (locked s (task_cpu p)) &&
                  negb (bool_decide (curr s !! task_cpu p = Some pid))
      | None => false
      end
  | Moved pid =>
      match tasks s !! pid with
      | Some p => bool_decide (on_rq p = TASK_ON_RQ_MIGRATING) && negb (locked s (task_cpu p))
      | None => false
      end
  | Set_state c v => is_some (current s c) && negb (has v (Z.lor TASK_WAKING RunQueue.TASK_NEW))
  | Wake_self c _ | Set_iowait c _ | Set_frozen c _ => is_some (current s c)
  | Memstall c v => match current s c with Some (_, p) => negb (eqb v (in_memstall p)) | None => false end
  end%bool.

Definition exec (s : sys) (e : event) : option sys :=
  match e with
  | Fork pid cpu memstall => Some (wake_up_new_task s pid cpu memstall)
  | Wake pid mask =>
      p ← tasks s !! pid;
      if negb (has (state p) mask) then Some s else Some (put s pid (set_waker p (Some W_on_rq)))
  | Waker pid cpu offload =>
      p ← tasks s !! pid; w ← waker p; Some (wake_step s pid (set_waker p None) w cpu offload)
  | Schedule c preempt sig => schedule_prev s c preempt sig
  | Cpu c next => cpu_next s c next
  | Ipi c => Some (put_pc (put_list s c []) c (C_pending (val [] (wake_list s) c)))
  | Move pid cpu => p ← tasks s !! pid; Some (move_out s pid p cpu)
  | Moved pid => p ← tasks s !! pid; Some (move_in s pid p)
  | Set_state c v => '(pid, p) ← current s c; Some (put s pid (set_state p v))
  | Wake_self c mask =>
      '(pid, p) ← current s c; Some (if has (state p) mask then put s pid (set_state p TASK_RUNNING) else s)
  | Set_iowait c v => '(pid, p) ← current s c; Some (put s pid (set_in_iowait p v))
  | Set_frozen c v => '(pid, p) ← current s c; Some (put s pid (set_frozen p v))
  | Memstall c v =>
      '(pid, p) ← current s c;
      Some (put (add_psi s (if v then psi_task_change (task_cpu p) pid [] [TSK_MEMSTALL]
                            else psi_task_change (task_cpu p) pid [TSK_MEMSTALL] [])) pid (set_in_memstall p v))
  end.
Definition step (s s' : sys) : Prop := exists e, allowed s e = true /\ exec s e = Some s'.
Fixpoint exec_all (s : sys) (es : list event) : option sys :=
  match es with
  | [] => Some s
  | e :: es => if allowed s e then s ← exec s e; exec_all s es else None
  end.
End WakeUp.
