(* ===== verification/WakeUpInv.v ===== *)
(** * Wake-ups between CPUs: invariants (src/Assignment_4/fifo/core.c)

    [task_ok]: what on_cpu, on_rq, state and the place of the waker say of a task;
    [cpu_ok]: what the current task, the place in __schedule and the wake list say of a
    CPU.  Every step of every waker and every CPU keeps both. *)
From Stdlib Require Import ZArith Lia.
From stdpp Require Import gmap.
From S2P Require Import Prelude SchedInfo SchedClass RunQueue WakeUp.
Import WakeUp.

Local Open Scope Z_scope.

(** ** The invariant *)
(** The tasks on their way through the wake list of a CPU. *)
Definition lists (s : sys) (c : Z) : list Z :=
  val [] (wake_list s) c ++ match pc s c with C_pending l => l | _ => [] end.
(** The CPU still executes on the stack of the task. *)
Definition on_stack (s : sys) (c pid : Z) : Prop := curr s !! c = Some pid \/ pc s c = C_finish (Some pid).

Definition waker_ok (p : task) : Prop :=
  match waker p with
  | None => True
  | Some (W_on_rq | W_runnable) => state p <> TASK_WAKING
  | Some W_state => on_rq p = NOT_QUEUED /\ state p <> TASK_WAKING
  | Some (W_on_cpu | W_wait) => on_rq p = NOT_QUEUED /\ state p = TASK_WAKING
  | Some (W_select | W_queue _) => on_rq p = NOT_QUEUED /\ state p = TASK_WAKING /\ on_cpu p = false
  end.
(** Between select_task_rq, where it got another CPU, and the run queue. *)
Definition migrated (p : task) : bool :=
  match waker p with
  | Some (W_queue m) => m
  | Some _ => false
  | None => (state p =? TASK_WAKING)%c && sched_remote_wakeup p
  end.
Record task_ok (s : sys) (pid : Z) (p : task) : Prop := {
  t_cpu : on_cpu p = true <-> on_stack s (task_cpu p) pid;
  t_waking : state p = TASK_WAKING -> on_rq p = NOT_QUEUED;
  t_waker : waker_ok p;
  t_listed : waker p = None -> state p = TASK_WAKING -> pid ∈ lists s (task_cpu p);
  t_requeue : sched_psi_wake_requeue p = true -> migrated p = true;
  t_migrating : on_rq p = TASK_ON_RQ_MIGRATING -> on_cpu p = false;
  t_migrated : migrated p = true -> on_cpu p = false
}.
Definition in_schedule (s : sys) (c : Z) : Prop := pc s c = C_iowait \/ pc s c = C_pick.
Definition curr_ok (s : sys) (c pid : Z) : Prop := exists p, tasks s !! pid = Some p /\ task_cpu p = c /\
  (on_rq p = TASK_ON_RQ_QUEUED \/ (on_rq p = NOT_QUEUED /\ in_schedule s c)) /\
  (pc s c = C_iowait -> on_rq p = NOT_QUEUED).
Definition list_ok (s : sys) (c pid : Z) : Prop := exists p, tasks s !! pid = Some p /\ task_cpu p = c /\
  state p = TASK_WAKING /\ waker p = None.
Record cpu_ok (s : sys) (c : Z) : Prop := {
  c_curr pid : curr s !! c = Some pid -> curr_ok s c pid;
  c_iowait : pc s c = C_iowait -> is_Some (curr s !! c);
  c_finish pid : pc s c = C_finish (Some pid) -> curr s !! c <> Some pid /\
    exists p, tasks s !! pid = Some p /\ task_cpu p = c;
  c_nodup : NoDup (lists s c);
  c_list pid : pid ∈ lists s c -> list_ok s c pid
}.
Definition inv (s : sys) : Prop := (forall pid p, tasks s !! pid = Some p -> task_ok s pid p) /\ forall c, cpu_ok s c.

(** ** Maps with a default *)
Lemma val_insert {A} (d : A) m k v k' : val d (<[k := v]> m) k' = if decide (k = k') then v else val d m k'.
Proof. unfold val. rewrite lookup_insert. by case_decide. Qed.
Lemma pc_put s c v d : pc (put_pc s c v) d = if decide (c = d) then v else pc s d.
Proof. apply val_insert. Qed.
Lemma pc_task s pid p c : pc (put s pid p) c = pc s c.
Proof. done. Qed.
Lemma locked_run s c : locked s c = false <-> pc s c = C_run.
Proof. unfold locked. by destruct (pc s c). Qed.

Ltac fields :=
  cbn [tasks curr pcs wake_list nr_iowait nr_uninterruptible psi put put_curr put_pc put_list add_iowait
       add_uninterruptible add_psi task_cpu state on_rq on_cpu in_iowait in_memstall sched_psi_wake_requeue
       sched_contributes_to_load sched_remote_wakeup frozen waker set_cpu set_state set_on_rq set_on_cpu set_in_iowait
       set_in_memstall set_requeue set_contributes set_remote set_frozen set_waker mbind option_bind ttwu_do_wakeup psi_sched_switch].
Tactic Notation "fields" "in" hyp(H) := revert H; fields; intros H.

(** ** Frames *)
Section Frames.
Context (s s' : sys) (c : Z) (Hi : inv s).
Context (Hother : forall d, d <> c -> curr s' !! d = curr s !! d /\ pc s' d = pc s d /\ lists s' d = lists s d).

Lemma task_other pid p : task_cpu p <> c -> task_ok s pid p -> task_ok s' pid p.
Proof.
  intros Hc [T1 T2 T3 T4 T5 T6 T7]. destruct (Hother _ Hc) as (E1 & E2 & E3). split; auto.
  - unfold on_stack in *. by rewrite E1, E2.
  - by rewrite E3.
Qed.
Lemma task_same pid p : (task_cpu p = c -> (on_stack s' c pid <-> on_stack s c pid) /\ (pid ∈ lists s c -> pid ∈ lists s' c)) ->
  task_ok s pid p -> task_ok s' pid p.
Proof.
  intros Hs Ht. destruct (decide (task_cpu p = c)) as [E|]; [|by apply task_other]. destruct (Hs E) as [H1 H2].
  destruct Ht as [T1 T2 T3 T4 T5 T6 T7]. rewrite E in *. split; rewrite ?E; auto. by rewrite H1.
Qed.

(** A task of the CPU [c], or a new one, and the CPU [c] change. *)
Lemma inv_step pid p' : tasks s' = <[pid := p']> (tasks s) ->
  (forall p, tasks s !! pid = Some p -> task_cpu p = c) ->
  (forall q, q <> pid -> (on_stack s' c q <-> on_stack s c q) /\ (q ∈ lists s c -> q ∈ lists s' c)) ->
  task_ok s' pid p' -> cpu_ok s' c -> inv s'.
Proof.
  intros Ht Hp Hq Hp' Hc. split.
  - intros q p Hl. rewrite Ht, lookup_insert in Hl. case_decide as E; [by injection Hl as <-; subst|].
    apply task_same; [intros _; apply Hq; congruence|by apply Hi].
  - intros d. destruct (decide (d = c)) as [->|Hd]; [done|]. destruct (Hother d Hd) as (E1 & E2 & E3).
    destruct (proj2 Hi d) as [C1 C2 C3 C4 C5].
    assert (forall q p, tasks s !! q = Some p -> task_cpu p = d -> tasks s' !! q = Some p) as Hk.
    { intros q p Hl Hcp. rewrite Ht, lookup_insert_ne; [done|]. intros <-. apply Hd. by rewrite <- Hcp, (Hp p). }
    split; unfold curr_ok, list_ok, in_schedule in *; rewrite ?E1, ?E2, ?E3; auto.
    + intros q Hl. destruct (C1 q Hl) as (p & ? & ? & ?). exists p. eauto.
    + intros q Hl. destruct (C3 q Hl) as (? & p & ? & ?). split; [done|]. exists p. eauto.
    + intros q Hl. destruct (C5 q Hl) as (p & ? & ? & ?). exists p. eauto.
Qed.
(** Only the CPU [c] changes. *)
Lemma inv_cpu : tasks s' = tasks s ->
  (forall q, (on_stack s' c q <-> on_stack s c q) /\ (q ∈ lists s c -> q ∈ lists s' c)) ->
  cpu_ok s' c -> inv s'.
Proof.
  intros Ht Hq Hc. split.
  - intros q p Hl. rewrite Ht in Hl. apply task_same; [intros _; apply Hq|by apply Hi].
  - intros d. destruct (decide (d = c)) as [->|Hd]; [done|]. destruct (Hother d Hd) as (E1 & E2 & E3).
    destruct (proj2 Hi d) as [C1 C2 C3 C4 C5].
    split; unfold curr_ok, list_ok, in_schedule in *; rewrite ?E1, ?E2, ?E3, ?Ht; auto.
Qed.
End Frames.

(** The task changes in a way its CPU does not see, and nothing else. *)
Lemma task_inv s pid p p' : inv s -> tasks s !! pid = Some p -> task_ok (put s pid p') pid p' ->
  (on_stack s (task_cpu p) pid -> task_cpu p' = task_cpu p /\ on_rq p' = on_rq p) ->
  (pid ∈ lists s (task_cpu p) -> task_cpu p' = task_cpu p /\ state p' = TASK_WAKING /\ waker p' = None) ->
  inv (put s pid p').
Proof.
  intros Hi Hl Ht Hs Hq. apply (inv_step s (put s pid p') (task_cpu p) Hi) with pid p'; try done.
  { intros q. rewrite Hl. by intros [= ->]. }
  destruct (proj2 Hi (task_cpu p)) as [C1 C2 C3 C4 C5]. split; try done.
  - intros q H. destruct (C1 q H) as (p0 & H1 & H2 & H3 & H4). unfold curr_ok. fields. rewrite lookup_insert.
    case_decide as E; [|by exists p0]. subst q. rewrite Hl in H1. injection H1 as <-.
    destruct (Hs (or_introl H)) as [E1 E2]. exists p'. rewrite E1, E2. by split_and!.
  - intros q H. destruct (C3 q H) as (H1 & p0 & H2 & H3). split; [done|]. fields. rewrite lookup_insert.
    case_decide as E; [|by exists p0]. subst q. exists p'. split; [done|]. apply Hs. by right.
  - intros q H. destruct (C5 q H) as (p0 & H1 & H2 & H3). unfold list_ok. fields. rewrite lookup_insert.
    case_decide as E; [|by exists p0]. subst q. exists p'. split; [done|]. by apply Hq.
Qed.

(** ** The steps of a waker *)
Lemma inv_ext s s' : tasks s' = tasks s -> curr s' = curr s -> pcs s' = pcs s -> wake_list s' = wake_list s -> inv s -> inv s'.
Proof.
  destruct s, s'. simpl. intros -> -> -> -> Hi. split.
  - intros pid p Hl. by destruct (proj1 Hi pid p Hl).
  - intros c. by destruct (proj2 Hi c).
Qed.

Definition activated (p : task) : task := set_state (set_on_rq (set_requeue p false) TASK_ON_RQ_QUEUED) TASK_RUNNING.
Lemma psi_enqueue_task pid p wakeup : (psi_enqueue pid p wakeup).1 = set_requeue p false.
Proof. unfold psi_enqueue. destruct p as [? ? ? ? ? ? [] ? ? ? ?], wakeup; done. Qed.
Lemma activation s pid p wakeup : exists call, psi_enqueue pid p wakeup = (set_requeue p false, call) /\
  activate_task s pid p wakeup = (add_psi s call, set_on_rq (set_requeue p false) TASK_ON_RQ_QUEUED).
Proof.
  unfold activate_task. pose proof (psi_enqueue_task pid p wakeup) as E. destruct (psi_enqueue pid p wakeup) as [q call].
  simpl in E. subst q. by exists call.
Qed.
Lemma ttwu_core s rq pid p m : let s' := ttwu_do_activate s rq pid p m in
  tasks s' = <[pid := activated p]> (tasks s) /\ curr s' = curr s /\ pcs s' = pcs s /\ wake_list s' = wake_list s.
Proof.
  unfold ttwu_do_activate. simpl. match goal with |- context [activate_task ?s0 _ _ _] => set (s1 := s0) end.
  destruct (activation s1 pid p true) as (call & _ & ->). fields. subst s1. destruct (sched_contributes_to_load p), m, (in_iowait p); by split_and!.
Qed.

Section Wakers.
Context (s : sys) (Hi : inv s).

Lemma not_listed pid p w c : tasks s !! pid = Some p -> waker p = Some w -> pid ∉ lists s c.
Proof. intros Hl Hw Hin. destruct (c_list s c (proj2 Hi c) pid Hin) as (q & H1 & _ & _ & H2). congruence. Qed.
Lemma off_stack pid p c : tasks s !! pid = Some p -> on_cpu p = false -> ~ on_stack s c pid.
Proof.
  intros Hl Ho Hs. pose proof (t_cpu s pid p (proj1 Hi pid p Hl)) as Ht.
  assert (task_cpu p = c) as <-; [|by apply Ht in Hs; congruence]. destruct Hs as [Hs|Hs].
  - destruct (c_curr s c (proj2 Hi c) pid Hs) as (q & H1 & H2 & _). congruence.
  - destruct (c_finish s c (proj2 Hi c) pid Hs) as (_ & q & H1 & H2). congruence.
Qed.
Lemma activation_ok s' pid p : ~ on_stack s' (task_cpu p) pid -> on_cpu p = false -> waker p = None -> task_ok s' pid (activated p).
Proof. intros Hs Ho Hw. split; unfold waker_ok, activated; fields; rewrite ?Ho, ?Hw; try done. Qed.

(** On the wake list of its CPU. *)
Lemma wakelist_inv pid p w m : tasks s !! pid = Some p -> waker p = Some w -> on_rq p = NOT_QUEUED -> state p = TASK_WAKING ->
  (sched_psi_wake_requeue p = true -> m = true) -> (m = true -> on_cpu p = false) ->
  inv (__ttwu_queue_wakelist s pid (set_waker p None) (task_cpu p) m).
Proof.
  intros Hl Hw Hn Hs Hm Ho. unfold __ttwu_queue_wakelist. set (s' := put_list _ _ _).
  assert (forall d, lists s' d = (if decide (task_cpu p = d) then [pid] else []) ++ lists s d) as El.
  { intros d. unfold lists, s'. fields. rewrite val_insert. case_decide as E; [|done]. by rewrite <- E. }
  destruct (proj1 Hi pid p Hl) as [T1 T2 T3 T4 T5 T6 T7]. destruct (proj2 Hi (task_cpu p)) as [C1 C2 C3 C4 C5].
  pose proof (not_listed pid p w (task_cpu p) Hl Hw) as Hnl.
  apply (inv_step s s' (task_cpu p) Hi) with pid (set_remote (set_waker p None) m).
  - intros d Hd. split; [done|]. split; [done|]. rewrite El, decide_False by done. done.
  - done.
  - intros q. rewrite Hl. by intros [= ->].
  - intros q Hq. split; [done|]. rewrite El, decide_True by done. intros. by apply elem_of_app; right.
  - split; unfold waker_ok, migrated; fields; try done.
    + intros _ _. rewrite El, decide_True by done. by apply elem_of_app; left; left.
    + intros Hr. rewrite Hs, (Hm Hr). done.
    + intros [_ Hmm]%andb_true_iff. auto.
  - assert (tasks s' = <[pid := set_remote (set_waker p None) m]> (tasks s)) as Et by done.
    split; unfold curr_ok, list_ok; rewrite ?Et.
    + intros q Hq. destruct (C1 q Hq) as (p0 & H1 & H2 & H3). rewrite lookup_insert. case_decide as E; [|by exists p0].
      subst q. rewrite Hl in H1. injection H1 as <-. by eexists.
    + exact C2.
    + intros q Hq. destruct (C3 q Hq) as (H1 & p0 & H2 & H3). split; [done|]. rewrite lookup_insert.
      case_decide as E; [|by exists p0]. subst q. by eexists.
    + rewrite El, decide_True by done. by constructor.
    + intros q Hq. rewrite El, decide_True in Hq by done. rewrite lookup_insert. case_decide as E; [subst q; by eexists|].
      apply elem_of_app in Hq as [Hq|Hq]; [apply list_elem_of_singleton in Hq; congruence|]. exact (C5 q Hq).
Qed.

(** Activation by the waker itself. *)
Lemma activate_inv pid p rq m : tasks s !! pid = Some p -> on_cpu p = false -> pid ∉ lists s (task_cpu p) ->
  inv (ttwu_do_activate s rq pid (set_waker p None) m).
Proof.
  intros Hl Ho Hn. destruct (ttwu_core s rq pid (set_waker p None) m) as (E1 & E2 & E3 & E4).
  apply inv_ext with (put s pid (activated (set_waker p None))); [done..|].
  pose proof (off_stack pid p (task_cpu p) Hl Ho) as Hs.
  apply task_inv with p; [done|done|by apply activation_ok|done|done].
Qed.

Lemma wake_step_inv pid p w cpu off : tasks s !! pid = Some p -> waker p = Some w -> wake_ready s p w cpu off = true ->
  inv (wake_step s pid (set_waker p None) w cpu off).
Proof.
  intros Hl Hw Hr. pose proof (proj1 Hi pid p Hl) as [T1 T2 T3 T4 T5 T6 T7]. pose proof (not_listed pid p w (task_cpu p) Hl Hw) as Hnl.
  assert (forall w' p', task_cpu p' = task_cpu p -> on_rq p' = on_rq p -> on_cpu p' = on_cpu p ->
    sched_psi_wake_requeue p' = sched_psi_wake_requeue p -> waker p' = Some w' -> waker_ok p' ->
    (state p' = TASK_WAKING -> on_rq p = NOT_QUEUED) -> migrated p' = migrated p -> inv (put s pid p')) as Hgo.
  { intros w' p' E1 E2 E3 E4 E5 E6 E7 E8. apply task_inv with p; [done|done| |done|done].
    split; rewrite ?E1, ?E2, ?E3, ?E4, ?E5, ?E8; auto; done. }
  unfold waker_ok in T3. rewrite Hw in T3. unfold migrated in T5. rewrite Hw in T5.
  destruct w as [| | | | | |m]; simpl in Hr |- *; rewrite Hw in *.
  - case_decide as E; eapply Hgo; fields; try done; unfold waker_ok, migrated; rewrite Hw; done.
  - destruct (decide (on_rq p = TASK_ON_RQ_QUEUED)) as [E|E].
    + apply task_inv with p; [done|done| |done|done]. split; unfold waker_ok; fields; try done.
    + rewrite andb_true_iff, !negb_true_iff, bool_decide_eq_false in Hr. destruct Hr as [Hr _].
      assert (on_rq p = NOT_QUEUED) by (by destruct (on_rq p)).
      eapply Hgo; fields; try done; unfold waker_ok, migrated; by rewrite ?Hw.
  - eapply Hgo; fields; try done; [unfold waker_ok; fields; by split; [apply T3|]|intros; apply T3|unfold migrated; by rewrite Hw].
  - destruct T3 as [H1 H2]. destruct (on_cpu p && off)%bool.
    + by apply (wakelist_inv pid p W_on_cpu false).
    + eapply Hgo; fields; try done; unfold waker_ok, migrated; by rewrite ?Hw.
  - destruct T3 as [H1 H2]. apply negb_true_iff in Hr. eapply Hgo; fields; try done; unfold waker_ok, migrated; by rewrite ?Hw.
  - destruct T3 as (H1 & H2 & H3). destruct (decide (task_cpu p = cpu)) as [E|E].
    + eapply Hgo; fields; try done; unfold waker_ok, migrated; by rewrite ?Hw.
    + unfold psi_ttwu_dequeue. fields. pose proof (off_stack pid p (task_cpu p) Hl H3) as Hs.
      assert (forall b, inv (put s pid (set_waker (set_cpu (set_requeue (set_waker p None) b) cpu) (Some (W_queue true))))) as Hq.
      { intros b. apply task_inv with p; [done|done| |done|done]. split; unfold waker_ok, migrated; fields; try done.
        rewrite H3. split; [done|]. intros Hx. by apply (off_stack pid p cpu Hl H3) in Hx. }
      destruct (in_iowait p || in_memstall p)%bool; fields.
      * eapply inv_ext; [..|exact (Hq true)]; by destruct (in_iowait p).
      * eapply inv_ext; [..|exact (Hq (sched_psi_wake_requeue p))]; by destruct (in_iowait p), p.
  - destruct T3 as (H1 & H2 & H3). destruct off; [by apply (wakelist_inv pid p (W_queue m) m)|].
    by apply activate_inv.
Qed.
End Wakers.

(** ** The steps of a CPU *)
Definition tail (v : cpu_pc) : list Z := match v with C_pending l => l | _ => [] end.
Definition fin (v : cpu_pc) : option Z := match v with C_finish p => p | _ => None end.
Lemma fin_spec v pid : fin v = Some pid <-> v = C_finish (Some pid).
Proof. destruct v; simpl; naive_solver. Qed.
Lemma lists_eq s c : lists s c = val [] (wake_list s) c ++ tail (pc s c).
Proof. done. Qed.
Lemma on_stack_eq s c pid : on_stack s c pid <-> curr s !! c = Some pid \/ fin (pc s c) = Some pid.
Proof. unfold on_stack. by rewrite fin_spec. Qed.

Section Cpus.
Context (s : sys) (Hi : inv s) (c : Z).

Lemma pc_other v d : d <> c -> curr (put_pc s c v) !! d = curr s !! d /\ pc (put_pc s c v) d = pc s d /\ lists (put_pc s c v) d = lists s d.
Proof. intros Hd. rewrite !lists_eq, !pc_put, decide_False by done. done. Qed.

(** __schedule goes on and nothing else happens. *)
Lemma pc_inv v : tail (pc s c) = tail v -> fin (pc s c) = fin v -> (v = C_iowait -> False) ->
  (v = C_pick \/ forall pid p, curr s !! c = Some pid -> tasks s !! pid = Some p -> on_rq p = TASK_ON_RQ_QUEUED) ->
  inv (put_pc s c v).
Proof.
  intros Ht Hf Hio Hq. assert (pc (put_pc s c v) c = v) as Ev by (rewrite pc_put; by case_decide).
  apply inv_cpu with s c; [done|apply pc_other|done| |].
  - intros q. rewrite !on_stack_eq, !lists_eq, Ev, Ht, Hf. done.
  - destruct (proj2 Hi c) as [C1 C2 C3 C4 C5]. split; rewrite ?lists_eq, ?Ev, <- ?Ht; unfold list_ok; auto.
    + intros pid H. destruct (C1 pid H) as (p & H1 & H2 & H3 & H4). exists p. rewrite Ev. split_and!; [done|done| |done].
      unfold in_schedule. rewrite Ev. destruct Hq as [Hq|Hq]; [|left; by eapply Hq]. destruct H3 as [|[? _]]; [by left|by right; auto].
    + done.
    + intros pid ->. apply C3. apply fin_spec. by rewrite Hf.
Qed.

Lemma curr_queued pid p : ~ in_schedule s c -> curr s !! c = Some pid -> tasks s !! pid = Some p ->
  task_cpu p = c /\ on_rq p = TASK_ON_RQ_QUEUED /\ on_cpu p = true.
Proof.
  intros Hn Hc Hl. destruct (c_curr s c (proj2 Hi c) pid Hc) as (q & H1 & H2 & [H3|[_ H3]] & _); [|done].
  rewrite Hl in H1. injection H1 as <-. split_and!; [done|done|]. apply (t_cpu s pid p (proj1 Hi pid p Hl)). rewrite H2. by left.
Qed.

(** A task that is not on the run queue: what its fields allow. *)
Lemma on_queue_free pid p : tasks s !! pid = Some p -> on_rq p <> NOT_QUEUED ->
  state p <> TASK_WAKING /\ sched_psi_wake_requeue p = false /\
  (waker p = None \/ waker p = Some W_on_rq \/ waker p = Some W_runnable) /\ forall d, pid ∉ lists s d.
Proof.
  intros Hl Hn. destruct (proj1 Hi pid p Hl) as [T1 T2 T3 T4 T5 T6 T7]. assert (state p <> TASK_WAKING) as Hw by auto.
  split; [done|]. assert (migrated p = true -> False) as Hm.
  { unfold migrated, waker_ok in *. destruct (waker p) as [[]|]; try done; [by destruct T3|].
    rewrite andb_true_iff, Z.eqb_eq. by intros []. }
  split; [by destruct (sched_psi_wake_requeue p); [exfalso; auto|]|]. split.
  - unfold waker_ok in T3. destruct (waker p) as [[]|]; auto; by destruct T3.
  - intros d Hin. destruct (c_list s d (proj2 Hi d) pid Hin) as (q & H1 & _ & H2 & _). congruence.
Qed.

(** Nor is such a task being migrated by a waker. *)
Lemma not_migrated p : state p <> TASK_WAKING -> waker p = None \/ waker p = Some W_on_rq \/ waker p = Some W_runnable -> migrated p = false.
Proof. unfold migrated. intros Hw [->|[->| ->]]; [by rewrite (proj2 (Z.eqb_neq _ _) Hw)|done|done]. Qed.
End Cpus.

(** The task [pid] and the place of its CPU change together; [l] is what is left to take
    of the wake list. *)
Lemma inv_both s c pid p p' v : inv s -> tasks s !! pid = Some p -> task_cpu p = c -> task_cpu p' = c ->
  (forall q, q <> pid -> fin v = Some q <-> fin (pc s c) = Some q) ->
  NoDup (val [] (wake_list s) c ++ tail v) -> (forall q, q <> pid -> q ∈ tail (pc s c) <-> q ∈ tail v) ->
  (forall q, q ∈ tail v -> q ∈ tail (pc s c)) ->
  (pid ∈ val [] (wake_list s) c ++ tail v -> state p' = TASK_WAKING /\ waker p' = None) ->
  (curr s !! c = Some pid -> (on_rq p' = TASK_ON_RQ_QUEUED \/ (on_rq p' = NOT_QUEUED /\ v = C_iowait))) ->
  (v = C_iowait -> curr s !! c = Some pid /\ on_rq p' = NOT_QUEUED) ->
  (forall q p0, q <> pid -> curr s !! c = Some q -> tasks s !! q = Some p0 -> on_rq p0 = TASK_ON_RQ_QUEUED) ->
  (fin v = Some pid -> False) ->
  task_ok (put_pc (put s pid p') c v) pid p' -> inv (put_pc (put s pid p') c v).
Proof.
  intros Hi Hl Hc Hc' Hfin Hnd Hin Hsub Hpl Hcur Hio Hothers Hfp Ht.
  set (s' := put_pc _ _ _) in *. assert (pc s' c = v) as Ev by (unfold s'; by rewrite pc_put, decide_True).
  apply (inv_step s s' c Hi) with pid p'; try done.
  - intros d Hd. unfold s'. rewrite !lists_eq, !pc_put, decide_False by done. done.
  - intros q. rewrite Hl. by intros [= <-].
  - intros q Hq. rewrite !on_stack_eq, !lists_eq, Ev, (Hfin q Hq). split; [done|].
    rewrite !elem_of_app, (Hin q Hq). done.
  - destruct (proj2 Hi c) as [C1 C2 C3 C4 C5]. assert (tasks s' = <[pid := p']> (tasks s)) as Et by done.
    split; unfold curr_ok, list_ok, in_schedule; rewrite ?lists_eq, ?Ev, ?Et.
    + intros q Hq. rewrite lookup_insert. case_decide as E.
      * subst q. exists p'. split_and!; [done|done|destruct (Hcur Hq) as [?|[? ?]]; auto|]. intros ->. by apply Hio.
      * destruct (C1 q Hq) as (p0 & H1 & H2 & _). exists p0. split_and!; [done|done|left; by eapply Hothers|].
        intros ->. destruct (Hio eq_refl) as [E1 _]. change (curr s !! c = Some q) in Hq. congruence.
    + intros ->. exists pid. by apply Hio.
    + intros q Hq. rewrite lookup_insert. case_decide as E; [subst q; exfalso; apply Hfp; by rewrite Hq|].
      apply C3, fin_spec, Hfin; [done|by rewrite Hq].
    + done.
    + intros q Hq. rewrite lookup_insert. case_decide as E.
      * subst q. exists p'. split_and!; [done|done|by apply Hpl..].
      * apply C5. rewrite lists_eq. apply elem_of_app in Hq as [Hq|Hq]; apply elem_of_app; [by left|right; auto].
Qed.

Section Steps.
Context (s : sys) (Hi : inv s) (c : Z).

Lemma schedule_prev_inv preempt sig : pc s c = C_run ->
  exists s', schedule_prev s c preempt sig = Some s' /\ inv s'.
Proof.
  intros Hpc. unfold schedule_prev. destruct (curr s !! c) as [prev|] eqn:Hc.
  2: { eexists. split; [done|]. apply pc_inv; rewrite ?Hpc; try done. by left. }
  destruct (c_curr s c (proj2 Hi c) prev Hc) as (p & Hl & Hcpu & _). rewrite Hl. fields.
  destruct (curr_queued s Hi c prev p) as (_ & Hq & Ho); [unfold in_schedule; rewrite Hpc; by intros []|done|done|].
  assert (on_rq p <> NOT_QUEUED) as Hnq by (by rewrite Hq).
  destruct (on_queue_free s Hi prev p Hl Hnq) as (Hw & Hr & Hwk & Hnl).
  destruct (preempt || _)%bool.
  { eexists. split; [done|]. apply pc_inv; rewrite ?Hpc; try done. by left. }
  destruct (proj1 Hi prev p Hl) as [T1 T2 T3 T4 T5 T6 T7].
  destruct sig; (eexists; split; [done|]).
  - apply pc_inv; [|by rewrite pc_task, Hpc..|done|by left].
    apply task_inv with p; [done|done| |done|by intros H%Hnl]. split; fields; try done; [|by rewrite Hr|by rewrite not_migrated].
    unfold waker_ok in *. fields. by destruct Hwk as [->|[->| ->]].
  - apply inv_ext with (put_pc (put s prev (set_on_rq (set_contributes p (contributes p)) NOT_QUEUED)) c C_iowait);
      [by destruct (contributes p)..|].
    apply inv_both with p; fields; rewrite ?Hpc; try done.
    + pose proof (c_nodup s c (proj2 Hi c)) as Hn. by rewrite lists_eq, Hpc in Hn.
    + intros Hin. exfalso. apply (Hnl c). by rewrite lists_eq, Hpc.
    + by right.
    + intros q p0 Hne Hq0. congruence.
    + split; fields; try done.
      * rewrite Ho. split; [|done]. intros _. left. by rewrite Hcpu.
      * by unfold waker_ok in *; fields; destruct Hwk as [->|[->| ->]].
Qed.

(** pick_next_task chose a task queued here. *)
Definition pickable (next : option Z) : Prop :=
  forall q, next = Some q -> exists p, tasks s !! q = Some p /\ task_cpu p = c /\ on_rq p = TASK_ON_RQ_QUEUED.
Lemma lists_none d : tail (pc s d) = [] -> lists s d = val [] (wake_list s) d.
Proof. intros H. by rewrite lists_eq, H, app_nil_r. Qed.

Lemma switch_inv next : pc s c = C_pick -> pickable next -> exists s', switch s c next = Some s' /\ inv s'.
Proof.
  intros Hpc Hnext. unfold switch. destruct (decide (curr s !! c = next)) as [E|E].
  { eexists. split; [done|]. apply pc_inv; rewrite ?Hpc; try done. right. intros pid p Hc Hl.
    destruct (Hnext pid) as (p' & H1 & _ & H2); congruence. }
  pose proof (proj2 Hi c) as [C1 C2 C3 C4 C5].
  assert (forall prev, curr s !! c = Some prev -> exists p, tasks s !! prev = Some p /\ task_cpu p = c) as Hprev.
  { intros prev Hp. destruct (C1 prev Hp) as (p & ? & ? & _). by exists p. }
  destruct next as [q|].
  - destruct (Hnext q eq_refl) as (p & Hl & Hcpu & Hq). fields. rewrite Hl. fields. eexists. split; [done|].
    set (s' := put_pc _ _ _). assert (curr s' = <[c := q]> (curr s)) as Ec by done.
    assert (pc s' c = C_finish (curr s !! c)) as Ep by (unfold s'; by rewrite pc_put, decide_True).
    assert (tasks s' = <[q := set_on_cpu p true]> (tasks s)) as Et by done.
    destruct (proj1 Hi q p Hl) as [T1 T2 T3 T4 T5 T6 T7].
    destruct (on_queue_free s Hi q p Hl) as (Hw & Hr & Hwk & Hnl); [congruence|].
    apply (inv_step s s' c Hi) with q (set_on_cpu p true); try done.
    + intros d Hd. rewrite Ec, lookup_insert_ne by done. unfold s'. rewrite !lists_eq, !pc_put, decide_False by done. done.
    + intros p0 Hp0. congruence.
    + intros q0 Hne. rewrite !on_stack_eq, !lists_eq, Ec, Ep, Hpc, lookup_insert_eq. simpl. split; [|done].
      split; [intros [H|H]; [congruence|by left]|intros [H|H]; [by right|done]].
    + split; fields; try done.
      * split; [|done]. intros _. rewrite Hcpu. left. rewrite Ec. by rewrite lookup_insert_eq.
      * unfold waker_ok in *. fields. by destruct Hwk as [->|[->| ->]].
      * intros; congruence.
      * by rewrite not_migrated.
    + split; unfold curr_ok, list_ok, in_schedule; rewrite ?lists_eq, ?Ep, ?Ec, ?Et, ?lookup_insert_eq; try done.
      * intros q0 [= <-]. rewrite lookup_insert_eq. eexists. split_and!; [done|done|by left|done].
      * intros q0 [= Hp]. split; [congruence|]. destruct (Hprev q0 Hp) as (p0 & ? & ?). exists p0.
        by rewrite lookup_insert_ne by congruence.
      * simpl. by rewrite lists_eq, Hpc in C4.
      * intros q0 Hq0. destruct (C5 q0) as (p0 & H1 & H2); [by rewrite lists_eq, Hpc|]. exists p0.
        rewrite lookup_insert_ne; [done|]. intros <-. apply (Hnl c). by rewrite lists_eq, Hpc.
  - fields. eexists. split; [done|].
    set (s' := put_pc _ _ _). assert (curr s' = delete c (curr s)) as Ec by done.
    assert (pc s' c = C_finish (curr s !! c)) as Ep by (unfold s'; by rewrite pc_put, decide_True).
    apply (inv_cpu s s' c Hi); try done.
    + intros d Hd. rewrite Ec, lookup_delete_ne by done. unfold s'. rewrite !lists_eq, !pc_put, decide_False by done. done.
    + intros q0. rewrite !on_stack_eq, !lists_eq, Ec, Ep, Hpc, lookup_delete_eq. simpl. naive_solver.
    + split; unfold curr_ok, list_ok, in_schedule; rewrite ?lists_eq, ?Ep, ?Ec, ?lookup_delete_eq; try done.
      * intros q0 [= Hp]. split; [done|]. by apply Hprev.
      * simpl. by rewrite lists_eq, Hpc in C4.
      * intros q0 Hq0. apply C5. by rewrite lists_eq, Hpc.
Qed.

Lemma finish_inv q : pc s c = C_finish (Some q) -> exists p, tasks s !! q = Some p /\
  inv (put_pc (put s q (set_on_cpu p false)) c C_unlock).
Proof.
  intros Hpc. pose proof (proj2 Hi c) as [C1 C2 C3 C4 C5]. destruct (C3 q Hpc) as (Hne & p & Hl & Hcpu). exists p.
  split; [done|]. destruct (proj1 Hi q p Hl) as [T1 T2 T3 T4 T5 T6 T7].
  apply inv_both with p; fields; rewrite ?Hpc; try done.
  - intros q0 Hq0. split; [done|]. intros [= ->]. done.
  - by rewrite lists_eq, Hpc in C4.
  - intros Hin. destruct (C5 q) as (p0 & H1 & _ & H2); [by rewrite lists_eq, Hpc|]. congruence.
  - intros q0 p0 _ Hq0 Hl0. eapply (curr_queued s Hi c); [unfold in_schedule; rewrite Hpc; by intros []|done|done].
  - split; fields; try done.
    + split; [done|]. rewrite Hcpu, on_stack_eq, pc_put, decide_True by done. by intros [].
    + unfold waker_ok in *. fields. destruct (waker p) as [[]|]; tauto.
    + intros H1 H2. specialize (T4 H1 H2). rewrite Hcpu, lists_eq, Hpc in T4. by rewrite Hcpu, lists_eq, pc_put, decide_True.
Qed.

(** The task at the head of the list that is being worked on is on no CPU. *)
Lemma listed_off pid : ~ in_schedule s c -> (forall q, pc s c <> C_finish q) -> pid ∈ lists s c ->
  exists p, tasks s !! pid = Some p /\ task_cpu p = c /\ state p = TASK_WAKING /\ waker p = None /\ on_cpu p = false.
Proof.
  intros Hs Hf Hin. destruct (c_list s c (proj2 Hi c) pid Hin) as (p & Hl & Hc & Hw & Hn). exists p. split_and!; try done.
  apply not_true_is_false. intros Ho. destruct (proj1 Hi pid p Hl) as [T1 T2 _ _ _ _ _]. apply T1 in Ho. rewrite Hc in Ho.
  destruct Ho as [Ho|Ho]; [|by apply Hf in Ho]. destruct (curr_queued s Hi c pid p Hs Ho Hl) as (_ & Hq & _).
  rewrite T2 in Hq by done. done.
Qed.
Lemma pending_inv pid rest : pc s c = C_pending (pid :: rest) -> exists s', pending_step s c pid rest = Some s' /\ inv s'.
Proof.
  intros Hpc. assert (~ in_schedule s c) as Hns by (unfold in_schedule; rewrite Hpc; by intros []).
  destruct (listed_off pid) as (p & Hl & Hcpu & Hw & Hn & Ho); [done|by rewrite Hpc|rewrite lists_eq, Hpc; apply elem_of_app; right; by left|].
  unfold pending_step. rewrite Hl. fields. rewrite Ho, Hcpu, Z.eqb_refl. cbn [orb negb]. eexists. split; [done|].
  destruct (ttwu_core s c pid p (sched_remote_wakeup p)) as (E1 & E2 & E3 & E4).
  apply inv_ext with (put_pc (put s pid (activated p)) c (C_pending rest)); fields; try done; [by rewrite E3|].
  pose proof (proj2 Hi c) as [C1 C2 C3 C4 C5]. rewrite lists_eq, Hpc in C4. simpl in C4.
  apply NoDup_app in C4 as (N1 & N2 & N3). apply NoDup_cons in N3 as [N3 N4].
  pose proof (off_stack s Hi pid p c Hl Ho) as Hst.
  apply inv_both with p; fields; rewrite ?Hpc; try done.
  - apply NoDup_app. split_and!; [done| |done]. intros x Hx Hx'. apply (N2 x Hx). by right.
  - intros q Hq. simpl. rewrite elem_of_cons. naive_solver.
  - intros q Hq. by right.
  - intros Hin. exfalso. apply elem_of_app in Hin as [Hin|Hin]; [|done]. apply (N2 pid Hin). by left.
  - intros Hc. exfalso. apply Hst. by left.
  - intros q0 p0 _ Hq0 Hl0. by eapply (curr_queued s Hi c).
  - apply activation_ok; [|done|done]. rewrite Hcpu, on_stack_eq, pc_put, decide_True by done. intros [H|H]; [|done].
    apply Hst. by left.
Qed.

Lemma cpu_next_inv next : pc s c <> C_run -> (pc s c = C_pick -> pickable next) -> exists s', cpu_next s c next = Some s' /\ inv s'.
Proof.
  intros Hr Hp. unfold cpu_next. destruct (pc s c) as [| | |[q|]| |[|pid rest]] eqn:Hpc; try done.
  - destruct (c_iowait s c (proj2 Hi c) Hpc) as [prev Hc]. destruct (c_curr s c (proj2 Hi c) prev Hc) as (p & Hl & _).
    rewrite Hc. fields. rewrite Hl. fields. eexists. split; [done|].
    apply inv_ext with (put_pc s c C_pick); [by destruct (in_iowait p)..|].
    apply pc_inv; rewrite ?Hpc; try done. by left.
  - apply switch_inv; auto.
  - destruct (finish_inv q Hpc) as (p & Hl & H). rewrite Hl. fields. by eexists.
  - eexists. split; [done|]. apply pc_inv; rewrite ?Hpc; try done. right. intros pid p Hc Hl.
    by eapply (curr_queued s Hi c); [unfold in_schedule; rewrite Hpc; intros []|..].
  - eexists. split; [done|]. apply pc_inv; rewrite ?Hpc; try done. right. intros pid p Hc Hl.
    by eapply (curr_queued s Hi c); [unfold in_schedule; rewrite Hpc; intros []|..].
  - eexists. split; [done|]. apply pc_inv; rewrite ?Hpc; try done. right. intros pid p Hc Hl.
    by eapply (curr_queued s Hi c); [unfold in_schedule; rewrite Hpc; intros []|..].
  - by apply pending_inv.
Qed.
Lemma ipi_inv : pc s c = C_run -> inv (put_pc (put_list s c []) c (C_pending (val [] (wake_list s) c))).
Proof.
  intros Hpc. set (s' := put_pc _ _ _). assert (pc s' c = C_pending (val [] (wake_list s) c)) as Ep by (unfold s'; by rewrite pc_put, decide_True).
  assert (lists s' c = lists s c) as El.
  { rewrite !lists_eq, Ep, Hpc. simpl. unfold s'. fields. by rewrite val_insert, decide_True, app_nil_r. }
  assert (~ in_schedule s c) as Hns by (unfold in_schedule; rewrite Hpc; by intros []).
  pose proof (proj2 Hi c) as [C1 C2 C3 C4 C5]. apply (inv_cpu s s' c Hi); try done.
  - intros d Hd. unfold s'. rewrite !lists_eq, !pc_put, decide_False by done. fields. rewrite val_insert, decide_False by done. done.
  - intros q. rewrite El, !on_stack_eq, Ep, Hpc. done.
  - split; rewrite ?El; try done; [|by rewrite Ep..].
    intros pid Hc. destruct (C1 pid Hc) as (p & H1 & H2 & [H3|[_ H3]] & _); [|done]. exists p. rewrite Ep. by split_and!; auto.
Qed.
End Steps.

(** ** Every step *)
Lemma has_waking mask : has mask unwakeable = false -> has TASK_WAKING mask = false.
Proof.
  unfold RunQueue.has. rewrite !negb_false_iff, !Z.eqb_eq. intros H.
  transitivity (Z.land (Z.land mask unwakeable) TASK_WAKING); [|by rewrite H].
  rewrite <- Z.land_assoc. change (Z.land unwakeable TASK_WAKING) with TASK_WAKING. apply Z.land_comm.
Qed.
Lemma has_not_waking v : has v (Z.lor TASK_WAKING RunQueue.TASK_NEW) = false -> v <> TASK_WAKING.
Proof. by intros H ->. Qed.

Lemma current_spec s c pid p : inv s -> current s c = Some (pid, p) ->
  tasks s !! pid = Some p /\ curr s !! c = Some pid /\ task_cpu p = c /\ on_rq p = TASK_ON_RQ_QUEUED.
Proof.
  intros Hi. unfold current. destruct (locked s c) eqn:Hk; [done|]. apply locked_run in Hk.
  destruct (curr s !! c) as [q|] eqn:Hc; [|done]. fields. destruct (tasks s !! q) as [p0|] eqn:Hl; [|done]. intros [= -> ->].
  destruct (curr_queued s Hi c pid p) as (H1 & H2 & _); [unfold in_schedule; rewrite Hk; by intros []|done..].
Qed.

Section Events.
Context (s : sys) (Hi : inv s).

(** What the current task may do to itself. *)
Lemma self_inv pid p p' : tasks s !! pid = Some p -> on_rq p = TASK_ON_RQ_QUEUED ->
  task_cpu p' = task_cpu p -> on_rq p' = on_rq p -> on_cpu p' = on_cpu p -> waker p' = waker p ->
  sched_psi_wake_requeue p' = sched_psi_wake_requeue p -> state p' <> TASK_WAKING -> inv (put s pid p').
Proof.
  intros Hl Hq E1 E2 E3 E4 E5 E6. destruct (on_queue_free s Hi pid p Hl) as (Hw & Hr & Hwk & Hnl); [congruence|].
  destruct (proj1 Hi pid p Hl) as [T1 T2 T3 T4 T5 T6 T7].
  apply task_inv with p; [done|done| |done|by intros H%Hnl].
  split; unfold waker_ok; rewrite ?E1, ?E2, ?E3, ?E4, ?E5, ?Hr; try done; [by destruct Hwk as [->|[->| ->]]|].
  rewrite not_migrated; [done|done|by rewrite E4].
Qed.
Lemma off_queue pid p : tasks s !! pid = Some p -> locked s (task_cpu p) = false -> curr s !! task_cpu p <> Some pid ->
  on_cpu p = false.
Proof.
  intros Hl Hk Hc. apply not_true_is_false. intros Ho. apply (t_cpu s pid p (proj1 Hi pid p Hl)) in Ho as [H|H]; [done|].
  apply locked_run in Hk. congruence.
Qed.
Lemma wake_inv pid p mask : tasks s !! pid = Some p -> waker p = None -> has mask unwakeable = false -> has (state p) mask = true ->
  inv (put s pid (set_waker p (Some W_on_rq))).
Proof.
  intros Hl Hn Hm Hs. assert (state p <> TASK_WAKING) as Hw by (intros E; rewrite E, has_waking in Hs; done).
  destruct (proj1 Hi pid p Hl) as [T1 T2 T3 T4 T5 T6 T7]. apply task_inv with p; [done|done| |done|].
  - split; fields; try done. intros Hr. apply T5 in Hr. unfold migrated in Hr. rewrite Hn in Hr.
    by apply andb_true_iff in Hr as [Hr%Z.eqb_eq _].
  - intros Hin. destruct (c_list s _ (proj2 Hi _) pid Hin) as (q & H1 & _ & H2 & _). congruence.
Qed.
Lemma move_out_inv pid p cpu : tasks s !! pid = Some p -> on_rq p = TASK_ON_RQ_QUEUED -> on_cpu p = false -> inv (move_out s pid p cpu).
Proof.
  intros Hl Hq Ho. apply inv_ext with (put s pid (set_cpu (set_on_rq p TASK_ON_RQ_MIGRATING) cpu)); [done..|].
  destruct (on_queue_free s Hi pid p Hl) as (Hw & Hr & Hwk & Hnl); [congruence|].
  apply task_inv with p; [done|done| | |by intros H%Hnl].
  - split; fields; try done; [|by unfold waker_ok; fields; destruct Hwk as [->|[->| ->]]|by rewrite Hr].
    rewrite Ho. split; [done|]. intros H. by apply (off_stack s Hi pid p cpu Hl Ho) in H.
  - intros H. by apply (off_stack s Hi pid p _ Hl Ho) in H.
Qed.
Lemma move_in_inv pid p : tasks s !! pid = Some p -> on_rq p = TASK_ON_RQ_MIGRATING -> inv (move_in s pid p).
Proof.
  intros Hl Hq. unfold move_in. destruct (activation s pid p false) as (call & _ & ->).
  apply inv_ext with (put s pid (set_on_rq (set_requeue p false) TASK_ON_RQ_QUEUED)); [done..|].
  destruct (on_queue_free s Hi pid p Hl) as (Hw & Hr & Hwk & Hnl); [congruence|].
  destruct (proj1 Hi pid p Hl) as [T1 T2 T3 T4 T5 T6 T7].
  apply task_inv with p; [done|done| | |by intros H%Hnl].
  - split; fields; try done; by unfold waker_ok; fields; destruct Hwk as [->|[->| ->]].
  - intros H. by apply (off_stack s Hi pid p _ Hl (T6 Hq)) in H.
Qed.
Lemma fork_inv pid cpu m : tasks s !! pid = None -> inv (wake_up_new_task s pid cpu m).
Proof.
  intros Hl. unfold wake_up_new_task. set (p := mk_task _ _ _ _ _ _ _ _ _ _ _). destruct (activation s pid p false) as (call & _ & ->).
  set (p' := set_on_rq _ _). apply inv_ext with (put s pid p'); [done..|].
  pose proof (proj2 Hi cpu) as [C1 C2 C3 C4 C5].
  assert (~ on_stack s cpu pid) as Hs.
  { intros [H|H]; [destruct (C1 pid H) as (q & ? & _)|destruct (C3 pid H) as (_ & q & ? & _)]; congruence. }
  apply (inv_step s (put s pid p') cpu Hi) with pid p'; try done; [intros q; by rewrite Hl|].
  split; try done; unfold curr_ok, list_ok; fields.
  - intros q Hq. destruct (C1 q Hq) as (p0 & H1 & H2). exists p0. rewrite lookup_insert_ne; [done|congruence].
  - intros q Hq. destruct (C3 q Hq) as (H & p0 & H1 & H2). split; [done|]. exists p0. rewrite lookup_insert_ne; [done|congruence].
  - intros q Hq. destruct (C5 q Hq) as (p0 & H1 & H2). exists p0. rewrite lookup_insert_ne; [done|congruence].
Qed.
Lemma pick_allowed c next : allowed s (Cpu c next) = true -> pc s c <> C_run /\ (pc s c = C_pick -> pickable s c next).
Proof.
  simpl. destruct (pc s c) eqn:Hpc; try done. intros H. split; [done|]. intros _ q ->. destruct (tasks s !! q) as [p|]; [|done].
  rewrite andb_true_iff, Z.eqb_eq, bool_decide_eq_true in H. by exists p.
Qed.

(** No step that can be taken runs into a WARN or a missing task, and all keep the invariant. *)
Lemma smp_step e : allowed s e = true -> exists s', exec s e = Some s' /\ inv s'.
Proof.
  intros Ha. destruct e as [pid cpu m|pid mask|pid cpu off|c preempt sig|c next|c|pid cpu|pid|c v|c mask|c v|c v|c v]; cbn [exec].
  - eexists. split; [done|]. apply fork_inv. simpl in Ha. by destruct (tasks s !! pid).
  - simpl in Ha. destruct (tasks s !! pid) as [p|] eqn:Hl; [|done]. fields. apply andb_true_iff in Ha as [H1 H2%negb_true_iff].
    destruct (has (state p) mask) eqn:Hs; cbn [negb]; eexists; (split; [done|]); [|done].
    apply (wake_inv pid p mask); try done. by destruct (waker p).
  - simpl in Ha. destruct (tasks s !! pid) as [p|] eqn:Hl; [|done]. fields. destruct (waker p) as [w|] eqn:Hw; [|done]. fields.
    eexists. split; [done|]. by apply wake_step_inv.
  - apply schedule_prev_inv; [done|]. apply locked_run. by apply negb_true_iff in Ha.
  - apply pick_allowed in Ha as []. by apply cpu_next_inv.
  - simpl in Ha. apply andb_true_iff in Ha as [Hk%negb_true_iff _]. apply locked_run in Hk. eexists. split; [done|]. by apply ipi_inv.
  - simpl in Ha. destruct (tasks s !! pid) as [p|] eqn:Hl; [|done]. rewrite !andb_true_iff, bool_decide_eq_true, !negb_true_iff, bool_decide_eq_false in Ha.
    destruct Ha as [[Hq Hk] Hc]. fields. eexists. split; [done|]. apply move_out_inv; [done|done|by apply (off_queue pid)].
  - simpl in Ha. destruct (tasks s !! pid) as [p|] eqn:Hl; [|done]. rewrite !andb_true_iff, bool_decide_eq_true in Ha.
    destruct Ha as [Hq _]. fields. eexists. split; [done|]. by apply move_in_inv.
  - simpl in Ha. destruct (current s c) as [[pid p]|] eqn:Hc; [|done]. apply negb_true_iff in Ha. fields. eexists. split; [done|].
    destruct (current_spec s c pid p Hi Hc) as (Hl & _ & _ & Hq). eapply self_inv; [done..|]. by apply has_not_waking.
  - simpl in Ha. destruct (current s c) as [[pid p]|] eqn:Hc; [|done]. fields. eexists. split; [done|].
    destruct (current_spec s c pid p Hi Hc) as (Hl & _ & _ & Hq). destruct (has (state p) mask); [|done]. by eapply self_inv.
  - simpl in Ha. destruct (current s c) as [[pid p]|] eqn:Hc; [|done]. fields. eexists. split; [done|].
    destruct (current_spec s c pid p Hi Hc) as (Hl & _ & _ & Hq). eapply self_inv; [done..|]. fields. eapply on_queue_free; [done..|congruence].
  - simpl in Ha. destruct (current s c) as [[pid p]|] eqn:Hc; [|done]. fields. eexists. split; [done|].
    destruct (current_spec s c pid p Hi Hc) as (Hl & _ & _ & Hq). eapply self_inv; [done..|]. fields. eapply on_queue_free; [done..|congruence].
  - simpl in Ha. destruct (current s c) as [[pid p]|] eqn:Hc; [|done]. fields. eexists. split; [done|].
    destruct (current_spec s c pid p Hi Hc) as (Hl & _ & _ & Hq). apply inv_ext with (put s pid (set_in_memstall p v)); [done..|].
    eapply self_inv; [done..|]. fields. eapply on_queue_free; [done..|congruence].
Qed.
End Events.

Lemma idle_inv : inv init.
Proof. split; [done|]. intros c. split; unfold lists, pc, val; simpl; try done; [constructor|]. intros pid H. by apply not_elem_of_nil in H. Qed.
Lemma reach_inv s s' : rtc step s s' -> inv s -> inv s'.
Proof.
  induction 1 as [|s0 s1 s2 (e & Ha & He) _ IH]; [done|]. intros Hi. apply IH.
  destruct (smp_step s0 Hi e Ha) as (s3 & E & H). rewrite E in He. by injection He as <-.
Qed.
