(* ===== verification/WakeUpCount.v ===== *)
(** * Wake-ups between CPUs: what is counted (src/Assignment_4/fifo/core.c, stats.h)

    nr_iowait of a CPU, nr_uninterruptible over all CPUs and the calls to PSI as sums over
    the tasks: every step of a waker or a CPU changes both sides alike. *)
From Stdlib Require Import ZArith Lia.
From stdpp Require Import gmap.
From S2P Require Import Prelude SchedInfo SchedClass RunQueue WakeUp WakeUpInv.
Import WakeUp.

Local Open Scope Z_scope.

(** ** What the counters stand for *)
Definition asleep (p : task) : bool := bool_decide (on_rq p = NOT_QUEUED).
(** The task waits for I/O and is counted on the CPU [c]: not any more when it is being
    woken on another one. *)
Definition io_at (c : Z) (p : task) : Z := b2z (asleep p && in_iowait p && negb (migrated p) && (task_cpu p =? c)%c).
Definition load_at (p : task) : Z := b2z (asleep p && sched_contributes_to_load p).
(** __schedule has dequeued the task and not yet counted it. *)
Definition uncounted (s : sys) (c : Z) : Z :=
  match pc s c with
  | C_iowait => from_option (fun pid => from_option (fun p => b2z (in_iowait p)) 0 (tasks s !! pid)) 0 (curr s !! c)
  | _ => 0
  end.

(** The bits psi.c should have for a task; [cur]: it is the current task of its CPU. *)
Definition flag (cur : bool) (p : task) (f : psi_flag) : bool :=
  match f with
  | TSK_RUNNING => bool_decide (on_rq p = TASK_ON_RQ_QUEUED)
  | TSK_ONCPU => bool_decide (on_rq p = TASK_ON_RQ_QUEUED) && cur
  | TSK_IOWAIT => asleep p && in_iowait p && negb (sched_psi_wake_requeue p)
  | TSK_MEMSTALL => in_memstall p && negb (bool_decide (on_rq p = TASK_ON_RQ_MIGRATING)) && negb (sched_psi_wake_requeue p)
  end.
Definition psi_at (s : sys) (pid c : Z) (f : psi_flag) : Z :=
  match tasks s !! pid with
  | Some p => b2z ((task_cpu p =? c)%c && flag (bool_decide (curr s !! c = Some pid)) p f)
  | None => 0
  end.
(** The bits a call sets minus those it clears for a task on a CPU: a switch sets
    TSK_ONCPU for [next] and clears it for [prev], unless the dequeue has. *)
Definition effect (call : psi_call) (pid c : Z) (f : psi_flag) : Z :=
  match call with
  | psi_task_change cpu q clear set =>
      if decide (q = pid /\ cpu = c) then b2z (bool_decide (f ∈ set)) - b2z (bool_decide (f ∈ clear)) else 0
  | psi_task_switch cpu prev next sleep =>
      if decide (f = TSK_ONCPU /\ cpu = c)
      then b2z (bool_decide (next = Some pid)) - b2z (bool_decide (prev = Some pid) && negb sleep) else 0
  end.
Fixpoint psi_net (calls : list psi_call) (pid c : Z) (f : psi_flag) : Z :=
  match calls with [] => 0 | call :: calls => effect call pid c f + psi_net calls pid c f end.

Record counted (s : sys) : Prop := {
  n_io c : val 0 (nr_iowait s) c + uncounted s c = msum (io_at c) (tasks s);
  n_load : msum id (nr_uninterruptible s) = msum load_at (tasks s);
  n_psi pid c f : psi_net (psi s) pid c f = psi_at s pid c f
}.

(** ** A step changes both sides alike *)
Lemma sum_add m c n : msum id (<[c := val 0 m c + n]> m) = msum id m + n.
Proof. rewrite msum_insert. unfold val, id. destruct (m !! c); simpl; lia. Qed.
Lemma iowait_add s c n d : val 0 (nr_iowait (add_iowait s c n)) d = val 0 (nr_iowait s) d + if decide (c = d) then n else 0.
Proof. simpl. rewrite val_insert. case_decide as E; [by rewrite E|lia]. Qed.

Lemma counted_step s s' pid p p' : counted s -> tasks s !! pid = Some p -> tasks s' = <[pid := p']> (tasks s) ->
  (forall c, val 0 (nr_iowait s') c + uncounted s' c - (val 0 (nr_iowait s) c + uncounted s c) = io_at c p' - io_at c p) ->
  msum id (nr_uninterruptible s') - msum id (nr_uninterruptible s) = load_at p' - load_at p ->
  (forall q c f, psi_net (psi s') q c f - psi_net (psi s) q c f = psi_at s' q c f - psi_at s q c f) -> counted s'.
Proof.
  intros [H1 H2 H3] Hl Ht H4 H5 H6. split.
  - intros c. rewrite Ht, msum_insert, Hl. simpl. specialize (H1 c). specialize (H4 c). lia.
  - rewrite Ht, msum_insert, Hl. simpl. lia.
  - intros q c f. specialize (H3 q c f). specialize (H6 q c f). lia.
Qed.
Lemma counted_same s s' : counted s -> tasks s' = tasks s ->
  (forall c, val 0 (nr_iowait s') c + uncounted s' c = val 0 (nr_iowait s) c + uncounted s c) ->
  nr_uninterruptible s' = nr_uninterruptible s ->
  (forall q c f, psi_net (psi s') q c f - psi_net (psi s) q c f = psi_at s' q c f - psi_at s q c f) -> counted s'.
Proof.
  intros [H1 H2 H3] Ht H4 H5 H6. split; rewrite ?Ht, ?H5; [|done|].
  - intros c. by rewrite H4.
  - intros q c f. specialize (H3 q c f). specialize (H6 q c f). lia.
Qed.

(** psi.c is told of one task, and only that changes. *)
Lemma psi_one s s' pid p p' call : tasks s !! pid = Some p -> tasks s' = <[pid := p']> (tasks s) -> curr s' = curr s ->
  psi s' = call :: psi s -> (forall q c f, q <> pid -> effect call q c f = 0) ->
  (forall c f, let cur := bool_decide (curr s !! c = Some pid) in
     effect call pid c f = b2z ((task_cpu p' =? c)%c && flag cur p' f) - b2z ((task_cpu p =? c)%c && flag cur p f)) ->
  forall q c f, psi_net (psi s') q c f - psi_net (psi s) q c f = psi_at s' q c f - psi_at s q c f.
Proof.
  intros Hl Ht Hc Hp H1 H2 q c f. rewrite Hp. cbn [psi_net]. unfold psi_at. rewrite Ht, Hc, lookup_insert.
  case_decide as E; [subst q; rewrite Hl, H2; lia|rewrite H1 by done; lia].
Qed.
Lemma psi_none s s' pid p p' : tasks s !! pid = Some p -> tasks s' = <[pid := p']> (tasks s) -> curr s' = curr s ->
  psi s' = psi s ->
  (forall c f, let cur := bool_decide (curr s !! c = Some pid) in
     b2z ((task_cpu p' =? c)%c && flag cur p' f) = b2z ((task_cpu p =? c)%c && flag cur p f)) ->
  forall q c f, psi_net (psi s') q c f - psi_net (psi s) q c f = psi_at s' q c f - psi_at s q c f.
Proof.
  intros Hl Ht Hc Hp H2 q c f. rewrite Hp. unfold psi_at. rewrite Ht, Hc, lookup_insert.
  case_decide as E; [subst q; rewrite Hl; specialize (H2 c f); simpl in H2; lia|lia].
Qed.
(** What __schedule has not counted yet depends on the task only while it is there. *)
Lemma uncounted_put s pid p p' c : tasks s !! pid = Some p -> in_iowait p' = in_iowait p -> uncounted (put s pid p') c = uncounted s c.
Proof.
  intros Hl E. unfold uncounted. rewrite pc_task. destruct (pc s c); try done. fields. destruct (curr s !! c) as [q|]; [|done]. simpl.
  rewrite lookup_insert. case_decide as Eq; [subst q; by rewrite Hl; simpl; rewrite E|done].
Qed.
Lemma uncounted_ext s s' c : pcs s' = pcs s -> curr s' = curr s -> tasks s' = tasks s -> uncounted s' c = uncounted s c.
Proof. intros E1 E2 E3. unfold uncounted, pc. by rewrite E1, E2, E3. Qed.

(** The waker, the state and on_cpu of a task change: nobody counts that. *)
Lemma counted_quiet s s' pid p p' : counted s -> tasks s !! pid = Some p -> tasks s' = <[pid := p']> (tasks s) ->
  curr s' = curr s -> pcs s' = pcs s -> nr_iowait s' = nr_iowait s -> nr_uninterruptible s' = nr_uninterruptible s ->
  psi s' = psi s -> task_cpu p' = task_cpu p -> on_rq p' = on_rq p -> in_iowait p' = in_iowait p -> in_memstall p' = in_memstall p ->
  sched_psi_wake_requeue p' = sched_psi_wake_requeue p ->
  (asleep p = true -> sched_contributes_to_load p' = sched_contributes_to_load p /\ migrated p' = migrated p) -> counted s'.
Proof.
  intros Hc Hl Ht E1 E2 E3 E4 E5 P1 P2 P3 P4 P5 P6. apply (counted_step s s' pid p p' Hc Hl Ht).
  - intros c. rewrite E3. assert (uncounted s' c = uncounted (put s pid p') c) as -> by (by apply uncounted_ext).
    rewrite (uncounted_put s pid p p' c Hl P3). unfold io_at, asleep in *. rewrite P1, P2, P3.
    destruct (bool_decide (on_rq p = NOT_QUEUED)); simpl; [|lia]. destruct P6 as [_ ->]; [done|]. lia.
  - rewrite E4. unfold load_at, asleep in *. rewrite P2. destruct (bool_decide (on_rq p = NOT_QUEUED)); simpl; [|lia].
    destruct P6 as [-> _]; [done|]. lia.
  - apply (psi_none s s' pid p p'); try done. intros c f. simpl. unfold flag, asleep. rewrite P1, P2, P3, P4, P5. done.
Qed.

(** ** The steps that are counted *)
Lemma effect_other cpu pid clear set q c f : q <> pid -> effect (psi_task_change cpu pid clear set) q c f = 0.
Proof. intros H. simpl. rewrite decide_False by naive_solver. done. Qed.
Lemma effect_own cpu pid clear set c f : effect (psi_task_change cpu pid clear set) pid c f =
  if (cpu =? c)%c then b2z (bool_decide (f ∈ set)) - b2z (bool_decide (f ∈ clear)) else 0.
Proof. simpl. destruct (Z.eqb_spec cpu c); [by rewrite decide_True|rewrite decide_False; naive_solver]. Qed.
Lemma load_of p : load_at p = if asleep p then b2z (sched_contributes_to_load p) else 0.
Proof. unfold load_at. by destruct (asleep p). Qed.

(** What a call changes, bit by bit. *)
Ltac flags :=
  unfold flag, asleep; fields; cbn [app];
  repeat match goal with
  | H : on_rq _ = _ |- _ => rewrite H in *
  | H : bool_decide _ = _ |- _ => rewrite H in *
  | H : sched_psi_wake_requeue _ = _ |- _ => rewrite H in *
  | H : in_iowait _ = _ |- _ => rewrite H in *
  | H : in_memstall _ = _ |- _ => rewrite H in *
  end; rewrite ?andb_false_r, ?andb_true_r; try reflexivity.

Lemma enqueue_effect pid p p' wakeup c f call : psi_enqueue pid p wakeup = (p', call) ->
  on_rq p = NOT_QUEUED /\ wakeup = true \/ on_rq p = TASK_ON_RQ_MIGRATING /\ wakeup = false /\ sched_psi_wake_requeue p = false ->
  effect call pid c f =
    b2z ((task_cpu p =? c)%c && flag false (set_on_rq p' TASK_ON_RQ_QUEUED) f) - b2z ((task_cpu p =? c)%c && flag false p f).
Proof.
  unfold psi_enqueue. intros E Hq. destruct (negb wakeup || sched_psi_wake_requeue p)%bool eqn:Hr; injection E as <- <-;
    rewrite effect_own; destruct (task_cpu p =? c)%c; try done.
  - destruct Hq as [[Hq ->]|(Hq & -> & Hr')]; simpl in Hr; destruct (in_iowait p) eqn:Hio, (in_memstall p) eqn:Hms, f; by flags.
  - destruct Hq as [[Hq ->]|(Hq & -> & Hr')]; simpl in Hr; destruct (in_iowait p) eqn:Hio, (in_memstall p) eqn:Hms, f; by flags.
Qed.

Lemma psi_activate s s0 s' pid p p0 wakeup : tasks s !! pid = Some p -> (forall c, curr s !! c <> Some pid) ->
  (exists w, p0 = set_waker p w) -> psi s0 = psi s ->
  on_rq p = NOT_QUEUED /\ wakeup = true \/ on_rq p = TASK_ON_RQ_MIGRATING /\ wakeup = false /\ sched_psi_wake_requeue p = false ->
  tasks s' = <[pid := set_state (activate_task s0 pid p0 wakeup).2 (if wakeup then TASK_RUNNING else state p)]> (tasks s) ->
  curr s' = curr s -> psi s' = psi (activate_task s0 pid p0 wakeup).1 ->
  forall q c f, psi_net (psi s') q c f - psi_net (psi s) q c f = psi_at s' q c f - psi_at s q c f.
Proof.
  intros Hl Hc [w ->] Hp Hq Ht Ec Ep. destruct (activation s0 pid (set_waker p w) wakeup) as (call & E & Ea). rewrite Ea in Ht, Ep.
  simpl in Ht, Ep. rewrite Hp in Ep. eapply psi_one; [done|exact Ht|done|exact Ep| |].
  - intros q c f Hne. unfold psi_enqueue in E. destruct (negb wakeup || _)%bool; injection E; intros; subst call; by apply effect_other.
  - intros c f. simpl. rewrite (bool_decide_false _ (Hc c)). rewrite (enqueue_effect _ _ _ _ _ _ _ E Hq). done.
Qed.

Lemma activate_counted s rq pid p w m : counted s -> tasks s !! pid = Some p -> on_rq p = NOT_QUEUED ->
  (forall c, curr s !! c <> Some pid) -> m = migrated p -> counted (ttwu_do_activate s rq pid (set_waker p w) m).
Proof.
  intros Hcd Hl Hq Hc Hm. set (p0 := set_waker p w). destruct (ttwu_core s rq pid p0 m) as (E1 & E2 & E3 & E4).
  apply (counted_step s _ pid p (activated p0) Hcd Hl E1).
  - intros c. assert (uncounted (ttwu_do_activate s rq pid p0 m) c = uncounted s c) as ->.
    { rewrite <- (uncounted_put s pid p (activated p0) c Hl eq_refl). by apply uncounted_ext. }
    unfold io_at, asleep. rewrite Hq, <- Hm. unfold ttwu_do_activate, p0. fields.
    destruct (sched_contributes_to_load p), m, (in_iowait p); fields;
      match goal with |- context [activate_task ?s0 _ _ _] => destruct (activation s0 pid (set_waker p w) true) as (? & _ & ->) end;
      fields; rewrite ?val_insert; simpl; try lia; destruct (Z.eqb_spec (task_cpu p) c) as [->|]; case_decide; simpl; try lia; done.
  - rewrite !load_of. unfold asleep. rewrite Hq. unfold ttwu_do_activate, p0. fields.
    destruct (sched_contributes_to_load p), m, (in_iowait p); fields;
      match goal with |- context [activate_task ?s0 _ _ _] => destruct (activation s0 pid (set_waker p w) true) as (? & _ & ->) end;
      fields; rewrite ?sum_add; simpl; lia.
  - unfold ttwu_do_activate in *. cbn zeta in *.
    match goal with |- context [activate_task ?s0 _ _ _] => set (s0' := s0) in * end.
    destruct (activate_task s0' pid p0 true) as [s1 p1] eqn:Ea. cbn [fst snd] in *.
    destruct (activation s0' pid p0 true) as (call & _ & Ea'). rewrite Ea in Ea'. injection Ea' as -> ->.
    apply (psi_activate s s0' _ pid p p0 true); rewrite ?Ea; try done; [by exists w| |by left].
    unfold s0'. by destruct (sched_contributes_to_load p0), m, (in_iowait p0).
Qed.

(** The place of a CPU is counted only while it is before nr_iowait. *)
Lemma uncounted_pc s c v d : pc s c <> C_iowait -> v <> C_iowait -> uncounted (put_pc s c v) d = uncounted s d.
Proof.
  intros H1 H2. unfold uncounted. rewrite pc_put. case_decide as E; [subst d|done]. destruct v, (pc s c); done.
Qed.
Lemma counted_pc s c v : counted s -> pc s c <> C_iowait -> v <> C_iowait -> counted (put_pc s c v).
Proof.
  intros Hc H1 H2. apply (counted_same s); try done.
  - intros d. by rewrite uncounted_pc.
  - intros q d f. change (psi_net (psi s) q d f - psi_net (psi s) q d f = psi_at s q d f - psi_at s q d f). lia.
Qed.
(** Nobody is counting a task that is on a run queue. *)
Lemma uncounted_queued s pid p p' d : inv s -> tasks s !! pid = Some p -> on_rq p <> NOT_QUEUED ->
  uncounted (put s pid p') d = uncounted s d.
Proof.
  intros Hi Hl Hq. unfold uncounted. rewrite pc_task. destruct (pc s d) eqn:Hpc; try done. fields.
  destruct (curr s !! d) as [q|] eqn:Hc; [|done]. simpl. rewrite lookup_insert_ne; [done|]. intros <-.
  destruct (c_curr s d (proj2 Hi d) pid Hc) as (p0 & H1 & _ & _ & H2). rewrite Hl in H1. injection H1 as <-. auto.
Qed.

Section Steps.
Context (s : sys) (Hi : inv s) (Hc : counted s).

Lemma not_current pid p : tasks s !! pid = Some p -> on_cpu p = false -> forall c, curr s !! c <> Some pid.
Proof. intros Hl Ho c H. apply (off_stack s Hi pid p c Hl Ho). by left. Qed.
Lemma queued_not_migrated pid p : tasks s !! pid = Some p -> on_rq p <> NOT_QUEUED -> migrated p = false.
Proof.
  intros Hl Hq. destruct (on_queue_free s Hi pid p Hl Hq) as (Hw & _ & Hk & _). unfold migrated.
  destruct Hk as [->|[->| ->]]; [|done|done]. by rewrite (proj2 (Z.eqb_neq _ _) Hw).
Qed.
Lemma waker_not_migrated pid p w : tasks s !! pid = Some p -> waker p = Some w -> (forall m, w <> W_queue m) ->
  sched_psi_wake_requeue p = false /\ migrated p = false.
Proof.
  intros Hl Hw Hn. assert (migrated p = false) as Hm by (unfold migrated; rewrite Hw; destruct w; try done; by destruct (Hn migrated)).
  split; [|done]. pose proof (t_requeue s pid p (proj1 Hi pid p Hl)) as Hr. rewrite Hm in Hr. by destruct (sched_psi_wake_requeue p); [specialize (Hr eq_refl)|].
Qed.

(** The task is to be woken on another CPU. *)
Lemma select_counted pid p cpu : tasks s !! pid = Some p -> waker p = Some W_select -> task_cpu p <> cpu ->
  counted (wake_step s pid (set_waker p None) W_select cpu false).
Proof.
  intros Hl Hw Hne. simpl. rewrite decide_False by done.
  destruct (proj1 Hi pid p Hl) as [T1 T2 T3 T4 T5 T6 T7]. unfold waker_ok in T3. rewrite Hw in T3. destruct T3 as (Hq & Hs & Ho).
  destruct (waker_not_migrated pid p _ Hl Hw) as [Hr Hm]; [done|]. pose proof (not_current pid p Hl Ho) as Hcur.
  set (p' b := set_waker (set_cpu (set_requeue (set_waker p None) b) cpu) (Some (W_queue true))).
  assert (forall b s', tasks s' = <[pid := p' b]> (tasks s) -> pcs s' = pcs s -> curr s' = curr s ->
      nr_iowait s' = nr_iowait (if in_iowait p then add_iowait s (task_cpu p) (-1) else s) ->
      nr_uninterruptible s' = nr_uninterruptible s ->
      (forall q c f, psi_net (psi s') q c f - psi_net (psi s) q c f = psi_at s' q c f - psi_at s q c f) -> counted s') as Hstep.
  { intros b s' E1 E2 E3 E4 E5 E6. apply (counted_step s s' pid p (p' b)); try done.
    - intros c. assert (uncounted s' c = uncounted s c) as ->.
      { rewrite <- (uncounted_put s pid p (p' b) c Hl eq_refl). by apply uncounted_ext. }
      rewrite E4. unfold io_at, asleep. rewrite Hm. unfold p', migrated. fields. rewrite Hq.
      destruct (in_iowait p); fields; rewrite ?val_insert; simpl; [|lia].
      destruct (Z.eqb_spec (task_cpu p) c) as [->|]; case_decide; simpl; try done; lia.
    - rewrite E5, !load_of. unfold p', asleep. fields. lia. }
  unfold psi_ttwu_dequeue. fields. destruct (in_iowait p || in_memstall p)%bool eqn:Hf; fields.
  - eapply (Hstep true); try (by destruct (in_iowait p)).
    eapply (psi_one s _ pid p (p' true) (psi_task_change (task_cpu p) pid ((if in_iowait p then [TSK_IOWAIT] else []) ++
      (if in_memstall p then [TSK_MEMSTALL] else [])) [])); try done; try (by destruct (in_iowait p)).
    + intros q c f Hne'. by apply effect_other.
    + intros c f. cbv zeta. rewrite (bool_decide_false _ (Hcur c)), effect_own. unfold p'. fields.
      destruct (task_cpu p =? c)%c, (cpu =? c)%c, (in_iowait p) eqn:Hio, (in_memstall p) eqn:Hms, f; try done; by flags.
  - apply orb_false_iff in Hf as [Hf1 Hf2]. eapply (Hstep false); try (by rewrite Hf1); try done.
    { rewrite Hf1. unfold p'. destruct p; simpl in *; by subst. }
    eapply (psi_none s _ pid p (p' false)); try done; try (by rewrite Hf1).
    { rewrite Hf1. unfold p'. destruct p; simpl in *; by subst. }
    intros c f. simpl. rewrite (bool_decide_false _ (Hcur c)). unfold p'. fields.
    destruct (task_cpu p =? c)%c, (cpu =? c)%c, f; try done; by flags.
Qed.

Lemma wake_step_counted pid p w cpu off : tasks s !! pid = Some p -> waker p = Some w ->
  counted (wake_step s pid (set_waker p None) w cpu off).
Proof.
  intros Hl Hw. destruct (proj1 Hi pid p Hl) as [T1 T2 T3 T4 T5 T6 T7]. unfold waker_ok in T3. rewrite Hw in T3.
  destruct w as [| | | | | |m].
  7: { destruct T3 as (H1 & H2 & H3). assert (migrated p = m) as Hm by (unfold migrated; by rewrite Hw).
       simpl. destruct off.
       - unfold __ttwu_queue_wakelist. eapply (counted_quiet s _ pid p); try done; intros _; fields; split; [done|];
         rewrite Hm; unfold migrated; fields; by rewrite H2.
       - apply activate_counted; try done. by apply (not_current pid p). }
  6: { destruct (decide (task_cpu p = cpu)) as [E|E]; [|by apply (select_counted pid p cpu)]. simpl. rewrite decide_True by done.
       eapply (counted_quiet s _ pid p); try done; intros _; split; [done|]; unfold migrated; fields; by rewrite Hw. }
  all: destruct (waker_not_migrated pid p _ Hl Hw) as [_ Hm]; [done|]; simpl.
  - eapply (counted_quiet s _ pid p); try done; intros _; split; [done|]; rewrite Hm; unfold migrated; fields; by case_decide.
  - destruct (decide (on_rq p = TASK_ON_RQ_QUEUED)) as [E|E].
    + eapply (counted_quiet s _ pid p); try done; unfold asleep; by rewrite E.
    + eapply (counted_quiet s _ pid p); try done.
  - eapply (counted_quiet s _ pid p); try done.
  - destruct (on_cpu p && off)%bool.
    + unfold __ttwu_queue_wakelist. eapply (counted_quiet s _ pid p); try done; intros _; split; [done|];
      rewrite Hm; unfold migrated; fields; apply andb_false_r.
    + eapply (counted_quiet s _ pid p); try done.
  - eapply (counted_quiet s _ pid p); try done.
Qed.

Lemma schedule_counted c preempt sig s' : pc s c = C_run -> schedule_prev s c preempt sig = Some s' -> counted s'.
Proof.
  intros Hpc. unfold schedule_prev. destruct (curr s !! c) as [prev|] eqn:Hcur.
  2: { intros [= <-]. apply counted_pc; by rewrite ?Hpc. }
  destruct (c_curr s c (proj2 Hi c) prev Hcur) as (p & Hl & Hcpu & _). rewrite Hl. fields.
  destruct (curr_queued s Hi c prev p) as (_ & Hq & Ho); [unfold in_schedule; rewrite Hpc; by intros []|done|done|].
  assert (on_rq p <> NOT_QUEUED) as Hnq by (by rewrite Hq).
  destruct (on_queue_free s Hi prev p Hl Hnq) as (_ & Hr & _ & _). pose proof (queued_not_migrated prev p Hl Hnq) as Hm.
  destruct (preempt || _)%bool; [intros [= <-]; apply counted_pc; by rewrite ?Hpc|].
  destruct sig.
  - intros [= <-]. apply counted_pc; [|by rewrite pc_task, Hpc|done]. eapply (counted_quiet s _ prev p); try done.
    unfold asleep. by rewrite Hq.
  - set (b := contributes p). set (p' := set_on_rq (set_contributes p b) NOT_QUEUED). intros [= <-].
    set (s' := put_pc _ _ _). assert (tasks s' = <[prev := p']> (tasks s)) as Et by (unfold s'; by destruct b).
    assert (curr s' = curr s) as Ec by (unfold s'; by destruct b).
    apply (counted_step s s' prev p p'); try done.
    + intros d. assert (nr_iowait s' = nr_iowait s) as -> by (unfold s'; by destruct b).
      assert (uncounted s' d = uncounted s d + if decide (c = d) then b2z (in_iowait p) else 0) as ->.
      { assert (pc s' d = if decide (c = d) then C_iowait else pc s d) as Ep by (unfold s'; rewrite pc_put; case_decide; [done|by destruct b]).
        unfold uncounted. rewrite Ec, Et, Ep. case_decide as E.
        - subst d. rewrite Hpc, Hcur. simpl. rewrite lookup_insert_eq. simpl. lia.
        - destruct (pc s d); try lia. destruct (curr s !! d) as [q|] eqn:Hd; [|simpl; lia]. simpl. rewrite lookup_insert.
          case_decide as Eq; [|lia]. subst q. destruct (c_curr s d (proj2 Hi d) prev Hd) as (p0 & H1 & H2 & _). congruence. }
      unfold io_at, asleep, p'. change (migrated (set_on_rq (set_contributes p b) NOT_QUEUED)) with (migrated p).
      fields. rewrite Hq, Hm, Hcpu. destruct (in_iowait p), (Z.eqb_spec c d); case_decide; simpl; lia || done.
    + assert (nr_uninterruptible s' = nr_uninterruptible (if b then add_uninterruptible s c 1 else s)) as -> by (unfold s'; by destruct b).
      rewrite !load_of. unfold p', asleep. fields. rewrite Hq. destruct b; fields; rewrite ?sum_add; simpl; lia.
    + apply (psi_one s s' prev p p' (psi_dequeue prev p' true)); try done; [unfold s'; by destruct b|intros q d f Hne; by apply effect_other|].
      intros d f. cbv zeta. unfold psi_dequeue. cbn [negb]. rewrite effect_own. unfold p'. fields. rewrite Hcpu.
      destruct (Z.eqb_spec c d) as [<-|]; [|done]. rewrite (bool_decide_true _ Hcur).
      destruct (in_iowait p) eqn:Hio, (in_memstall p) eqn:Hms, f; by flags.
Qed.

(** The fields PSI looks at. *)
Definition psi_fields (p : task) := (task_cpu p, on_rq p, in_iowait p, in_memstall p, sched_psi_wake_requeue p).
Lemma switch_psi c next s1 : pickable s c next -> curr s !! c <> next ->
  psi s1 = psi_task_switch c (curr s !! c) next (match curr s !! c with Some q => negb (queued s q) | None => false end) :: psi s ->
  (forall q, psi_fields <$> tasks s1 !! q = psi_fields <$> tasks s !! q) ->
  (forall d, curr s1 !! d = if decide (c = d) then next else curr s !! d) ->
  forall q d f, psi_net (psi s1) q d f - psi_net (psi s) q d f = psi_at s1 q d f - psi_at s q d f.
Proof.
  intros Hn E. set (sl := match curr s !! c with Some q => _ | None => _ end). intros E1 E2 E3 q d f. rewrite E1.
  cbn [psi_net]. unfold psi_at, effect. rewrite E3. specialize (E2 q).
  destruct (tasks s1 !! q) as [p1|] eqn:Hl1, (tasks s !! q) as [p|] eqn:Hl; simpl in E2; try done.
  - injection E2 as F1 F2 F3 F4 F5. unfold flag, asleep. rewrite F1, F2, F3, F4, F5.
    destruct (decide (c = d)) as [<-|Hd]; [|rewrite decide_False by naive_solver; lia].
    destruct (decide (f = TSK_ONCPU)) as [->|Hf]; [rewrite decide_True by done|rewrite decide_False by naive_solver; destruct f; try done; lia].
    assert (next = Some q -> task_cpu p = c /\ on_rq p = TASK_ON_RQ_QUEUED) as Hnext.
    { intros En. destruct (Hn q En) as (p0 & G1 & G2 & G3). rewrite Hl in G1. by injection G1 as <-. }
    assert (curr s !! c = Some q -> task_cpu p = c /\ sl = negb (bool_decide (on_rq p = TASK_ON_RQ_QUEUED))) as Hprev.
    { intros Ep. destruct (c_curr s c (proj2 Hi c) q Ep) as (p0 & G1 & G2 & _). rewrite Hl in G1. injection G1 as <-.
      split; [done|]. unfold sl, queued. by rewrite Ep, Hl. }
    destruct (decide (next = Some q)) as [En|En], (decide (curr s !! c = Some q)) as [Ep|Ep];
      rewrite ?(bool_decide_true _ En), ?(bool_decide_false _ En), ?(bool_decide_true _ Ep), ?(bool_decide_false _ Ep).
    + congruence.
    + destruct (Hnext En) as [-> ->]. rewrite Z.eqb_refl. simpl. lia.
    + destruct (Hprev Ep) as [-> ->]. rewrite Z.eqb_refl. destruct (bool_decide (on_rq p = TASK_ON_RQ_QUEUED)); simpl; lia.
    + rewrite !andb_false_r. simpl. lia.
  - case_decide as Hd; [|lia]. destruct Hd as [-> <-].
    rewrite (bool_decide_false (next = Some q)) by (intros En; destruct (Hn q En) as (p0 & G1 & _); congruence).
    rewrite (bool_decide_false (curr s !! c = Some q)); [simpl; lia|].
    intros Ep. destruct (c_curr s c (proj2 Hi c) q Ep) as (p0 & G1 & _). congruence.
Qed.
Lemma switch_uncounted c s1 : pc s c = C_pick -> pc s1 c <> C_iowait ->
  (forall d, c <> d -> pc s1 d = pc s d /\ curr s1 !! d = curr s !! d) ->
  (forall q, psi_fields <$> tasks s1 !! q = psi_fields <$> tasks s !! q) -> forall d, uncounted s1 d = uncounted s d.
Proof.
  intros Hpc E1 E2 E3 d. unfold uncounted. destruct (decide (c = d)) as [<-|Hd].
  - rewrite Hpc. by destruct (pc s1 c).
  - destruct (E2 d Hd) as [-> ->]. destruct (pc s d); try done. destruct (curr s !! d) as [q|]; [|done]. simpl.
    specialize (E3 q). unfold psi_fields in E3. destruct (tasks s1 !! q), (tasks s !! q); simpl in *; congruence.
Qed.
Lemma switch_counted c next s' : pc s c = C_pick -> pickable s c next -> switch s c next = Some s' -> counted s'.
Proof.
  intros Hpc Hn. unfold switch. destruct (decide (curr s !! c = next)) as [E|E].
  { intros [= <-]. apply counted_pc; by rewrite ?Hpc. }
  destruct next as [q|]; fields.
  - destruct (Hn q eq_refl) as (p & Hl & Hcpu & Hq). rewrite Hl. fields. intros [= <-]. set (s1 := put_pc _ _ _).
    assert (tasks s1 = <[q := set_on_cpu p true]> (tasks s)) as Et by done.
    assert (forall q', psi_fields <$> tasks s1 !! q' = psi_fields <$> tasks s !! q') as Ef.
    { intros q'. rewrite Et, lookup_insert. case_decide as E'; [subst q'; by rewrite Hl|done]. }
    apply (counted_step s s1 q p (set_on_cpu p true)); try done.
    + intros d. assert (nr_iowait s1 = nr_iowait s) as -> by done.
      rewrite (switch_uncounted c s1); [|done|unfold s1; by rewrite pc_put, decide_True| |done].
      * unfold io_at. change (migrated (set_on_cpu p true)) with (migrated p). unfold asleep. fields. lia.
      * intros d' Hd. unfold s1. rewrite pc_put, decide_False by done. fields. by rewrite lookup_insert_ne.
    + change (nr_uninterruptible s1) with (nr_uninterruptible s). rewrite !load_of. unfold asleep. fields. lia.
    + apply (switch_psi c (Some q)); try done. intros d. unfold s1. fields. by rewrite lookup_insert.
  - intros [= <-]. set (s1 := put_pc _ _ _). apply (counted_same s s1); try done.
    + intros d. change (nr_iowait s1) with (nr_iowait s).
      rewrite (switch_uncounted c s1); [done|done|unfold s1; by rewrite pc_put, decide_True| |done].
      intros d' Hd. unfold s1. rewrite pc_put, decide_False by done. fields. by rewrite lookup_delete_ne.
    + apply (switch_psi c None); try done. intros d. unfold s1. fields. by rewrite lookup_delete.
Qed.

(** ** The other steps *)
Lemma cpu_next_counted c next s' : pc s c <> C_run -> (pc s c = C_pick -> pickable s c next) -> cpu_next s c next = Some s' -> counted s'.
Proof.
  intros Hr Hp. unfold cpu_next. destruct (pc s c) as [| | |[q|]| |[|pid rest]] eqn:Hpc; try done.
  - destruct (c_iowait s c (proj2 Hi c) Hpc) as [prev Hcur]. destruct (c_curr s c (proj2 Hi c) prev Hcur) as (p & Hl & _).
    rewrite Hcur. fields. rewrite Hl. fields. intros [= <-]. set (s1 := put_pc _ _ _).
    apply (counted_same s s1); unfold s1; try (by destruct (in_iowait p)).
    + intros d. unfold uncounted at 1. rewrite pc_put. unfold uncounted.
      assert (forall b : bool, pc (if b then add_iowait s c 1 else s) d = pc s d /\ curr (if b then add_iowait s c 1 else s) = curr s /\
        tasks (if b then add_iowait s c 1 else s) = tasks s) as Hb by (by intros []).
      destruct (in_iowait p) eqn:Hio; fields; rewrite ?val_insert; case_decide as E; try (subst d; rewrite Hpc, Hcur; simpl; rewrite Hl; simpl; rewrite Hio; simpl; lia); done.
    + intros q d f. assert (forall b : bool, psi_net (psi (put_pc (if b then add_iowait s c 1 else s) c C_pick)) q d f = psi_net (psi s) q d f /\
        psi_at (put_pc (if b then add_iowait s c 1 else s) c C_pick) q d f = psi_at s q d f) as Hb by (by intros []).
      destruct (Hb (in_iowait p)) as [-> ->]. lia.
  - apply switch_counted; auto.
  - destruct (finish_inv s Hi c q Hpc) as (p & Hl & _). rewrite Hl. fields. intros [= <-].
    apply counted_pc; [|by rewrite pc_task, Hpc|done]. eapply (counted_quiet s _ q p); done.
  - intros [= <-]. apply counted_pc; by rewrite ?Hpc.
  - intros [= <-]. apply counted_pc; by rewrite ?Hpc.
  - intros [= <-]. apply counted_pc; by rewrite ?Hpc.
  - destruct (listed_off s Hi c pid) as (p & Hl & Hcpu & Hw & Hn & Ho);
      [unfold in_schedule; rewrite Hpc; by intros []|by rewrite Hpc|rewrite lists_eq, Hpc; apply elem_of_app; right; by left|].
    unfold pending_step. rewrite Hl. fields. rewrite Ho, Hcpu, Z.eqb_refl. cbn [orb negb]. intros [= <-].
    pose proof (t_waking s pid p (proj1 Hi pid p Hl) Hw) as Hq.
    destruct (ttwu_core s c pid p (sched_remote_wakeup p)) as (_ & _ & E3 & _).
    apply counted_pc; [|unfold pc; rewrite E3; fold (pc s c); by rewrite Hpc|done].
    replace p with (set_waker p None) at 1 by (by destruct p; simpl in *; subst).
    apply activate_counted; try done; [by apply (not_current pid p)|]. unfold migrated. by rewrite Hn, Hw.
Qed.
Lemma move_out_counted pid p cpu : tasks s !! pid = Some p -> on_rq p = TASK_ON_RQ_QUEUED -> on_cpu p = false -> counted (move_out s pid p cpu).
Proof.
  intros Hl Hq Ho. assert (on_rq p <> NOT_QUEUED) as Hnq by (by rewrite Hq).
  destruct (on_queue_free s Hi pid p Hl Hnq) as (_ & Hr & _ & _). pose proof (not_current pid p Hl Ho) as Hcur.
  set (p' := set_cpu (set_on_rq p TASK_ON_RQ_MIGRATING) cpu). unfold move_out, deactivate_task. fields.
  apply (counted_step s _ pid p p'); try done.
  - intros c. assert (forall call, uncounted (put (add_psi s call) pid p') c = uncounted s c) as E.
    { intros call. rewrite <- (uncounted_queued s pid p p' c Hi Hl Hnq). by apply uncounted_ext. }
    fields. rewrite E. unfold io_at, asleep, p'. fields. rewrite Hq. simpl. lia.
  - rewrite !load_of. unfold asleep, p'. fields. rewrite Hq. simpl. lia.
  - eapply (psi_one s _ pid p p' (psi_dequeue pid (set_on_rq p TASK_ON_RQ_MIGRATING) false)); try done.
    + intros q c f Hne. by apply effect_other.
    + intros c f. cbv zeta. rewrite (bool_decide_false _ (Hcur c)). unfold psi_dequeue. cbn [negb]. rewrite effect_own. unfold p'. fields.
      destruct (task_cpu p =? c)%c, (cpu =? c)%c, (in_memstall p) eqn:Hms, f; try done; by flags.
Qed.
Lemma move_in_counted pid p : tasks s !! pid = Some p -> on_rq p = TASK_ON_RQ_MIGRATING -> counted (move_in s pid p).
Proof.
  intros Hl Hq. assert (on_rq p <> NOT_QUEUED) as Hnq by (by rewrite Hq).
  destruct (on_queue_free s Hi pid p Hl Hnq) as (_ & Hr & _ & _).
  pose proof (not_current pid p Hl (t_migrating s pid p (proj1 Hi pid p Hl) Hq)) as Hcur.
  unfold move_in. destruct (activation s pid p false) as (call & Ec & Ea). rewrite Ea. set (p' := set_on_rq _ _).
  apply (counted_step s _ pid p p'); try done.
  - intros c. assert (uncounted (put (add_psi s call) pid p') c = uncounted s c) as E.
    { rewrite <- (uncounted_queued s pid p p' c Hi Hl Hnq). by apply uncounted_ext. }
    fields. rewrite E. unfold io_at, asleep, p'. fields. rewrite Hq. simpl. lia.
  - rewrite !load_of. unfold asleep, p'. fields. rewrite Hq. simpl. lia.
  - eapply (psi_activate s s _ pid p p false); try done; [by exists (waker p); destruct p|by right|by rewrite Ea].
Qed.

Lemma fork_counted pid cpu m : tasks s !! pid = None -> counted (wake_up_new_task s pid cpu m).
Proof.
  intros Hl. unfold wake_up_new_task. set (p := mk_task _ _ _ _ _ _ _ _ _ _ _). destruct (activation s pid p false) as (call & Ec & ->).
  set (p' := set_on_rq _ _). set (s1 := put _ _ _). destruct Hc as [N1 N2 N3].
  assert (forall c, curr s !! c <> Some pid) as Hcur.
  { intros c H. destruct (c_curr s c (proj2 Hi c) pid H) as (q & ? & _). congruence. }
  split.
  - intros c. change (nr_iowait s1) with (nr_iowait s). change (tasks s1) with (<[pid := p']> (tasks s)).
    rewrite msum_insert, Hl. assert (io_at c p' = 0) as -> by done. simpl.
    assert (uncounted s1 c = uncounted s c) as ->; [|rewrite N1; lia].
    unfold uncounted, s1. rewrite pc_task. change (pc (add_psi s call) c) with (pc s c). fields.
    destruct (pc s c); try done. destruct (curr s !! c) as [q|] eqn:Hq; [|done]. simpl. rewrite lookup_insert_ne; [done|congruence].
  - change (nr_uninterruptible s1) with (nr_uninterruptible s). change (tasks s1) with (<[pid := p']> (tasks s)).
    rewrite msum_insert, Hl, N2. assert (load_at p' = 0) as -> by done. simpl. lia.
  - intros q c f. unfold s1. fields. cbn [psi_net]. rewrite N3. unfold psi_at. fields. rewrite lookup_insert. simpl in Ec.
    injection Ec as <-. case_decide as E; [subst q|by rewrite effect_other].
    rewrite Hl, effect_own, (bool_decide_false _ (Hcur c)). simpl. destruct (cpu =? c)%c, m, f; by flags.
Qed.

(** What the current task does to itself is not counted, but psi_memstall_enter and leave. *)
Lemma self_counted pid p p' : tasks s !! pid = Some p -> on_rq p = TASK_ON_RQ_QUEUED -> task_cpu p' = task_cpu p ->
  on_rq p' = on_rq p -> sched_psi_wake_requeue p' = sched_psi_wake_requeue p -> in_memstall p' = in_memstall p ->
  counted (put s pid p').
Proof.
  intros Hl Hq E1 E2 E3 E4. assert (on_rq p <> NOT_QUEUED) as Hnq by (by rewrite Hq).
  apply (counted_step s _ pid p p'); try done.
  - intros c. rewrite (uncounted_queued s pid p p' c Hi Hl Hnq). unfold io_at, asleep. fields. rewrite E2, Hq. simpl. lia.
  - rewrite !load_of. unfold asleep. fields. rewrite E2, Hq. simpl. lia.
  - apply (psi_none s _ pid p p'); try done. intros c f. cbv zeta. unfold flag, asleep. rewrite E1, E2, E3, E4, Hq.
    by destruct f.
Qed.
Lemma memstall_counted pid p v : tasks s !! pid = Some p -> on_rq p = TASK_ON_RQ_QUEUED -> v = negb (in_memstall p) ->
  counted (put (add_psi s (if v then psi_task_change (task_cpu p) pid [] [TSK_MEMSTALL]
                           else psi_task_change (task_cpu p) pid [TSK_MEMSTALL] [])) pid (set_in_memstall p v)).
Proof.
  intros Hl Hq ->. set (p' := set_in_memstall p _). set (call := if _ : bool then _ else _).
  assert (on_rq p <> NOT_QUEUED) as Hnq by (by rewrite Hq). destruct (on_queue_free s Hi pid p Hl Hnq) as (_ & Hr & _ & _).
  apply (counted_step s _ pid p p'); try done.
  - intros c. assert (uncounted (put (add_psi s call) pid p') c = uncounted s c) as ->.
    { rewrite <- (uncounted_put s pid p p' c Hl eq_refl). by apply uncounted_ext. }
    unfold io_at, asleep, p'. fields. rewrite Hq. simpl. lia.
  - rewrite !load_of. unfold asleep, p'. fields. lia.
  - apply (psi_one s _ pid p p' call); try done.
    + intros q c f Hne. unfold call. by destruct (in_memstall p); apply effect_other.
    + intros c f. cbv zeta. generalize (bool_decide (curr s !! c = Some pid)). intros cur. unfold call, p'.
      destruct (in_memstall p) eqn:Hms; simpl negb; cbv iota; rewrite effect_own; fields;
        destruct (task_cpu p =? c)%c, (in_iowait p) eqn:Hio, cur, f; try done; by flags.
Qed.

Lemma every_step_counted e s' : allowed s e = true -> exec s e = Some s' -> counted s'.
Proof.
  intros Ha. destruct e as [pid cpu m|pid mask|pid cpu off|c preempt sig|c next|c|pid cpu|pid|c v|c mask|c v|c v|c v]; cbn [exec].
  - intros [= <-]. apply fork_counted. simpl in Ha. by destruct (tasks s !! pid).
  - simpl in Ha. destruct (tasks s !! pid) as [p|] eqn:Hl; [|done]. fields. apply andb_true_iff in Ha as [H1 H2%negb_true_iff].
    destruct (has (state p) mask) eqn:Hs; cbn [negb]; intros [= <-]; [|done].
    assert (state p <> TASK_WAKING) as Hw by (intros E; rewrite E, has_waking in Hs; done).
    eapply (counted_quiet s _ pid p); try done. intros _. split; [done|]. unfold migrated. fields.
    destruct (waker p); [done|]. by rewrite (proj2 (Z.eqb_neq _ _) Hw).
  - simpl in Ha. destruct (tasks s !! pid) as [p|] eqn:Hl; [|done]. fields. destruct (waker p) as [w|] eqn:Hw; [|done]. fields.
    intros [= <-]. by apply wake_step_counted.
  - apply schedule_counted. apply locked_run. by apply negb_true_iff in Ha.
  - apply pick_allowed in Ha as []. by apply cpu_next_counted.
  - intros [= <-]. simpl in Ha. apply andb_true_iff in Ha as [Hk%negb_true_iff _]. apply locked_run in Hk.
    apply counted_pc; [|change (pc s c <> C_iowait); by rewrite Hk|done].
    apply (counted_same s); try done. intros q d f. change (psi_net (psi s) q d f - psi_net (psi s) q d f = psi_at s q d f - psi_at s q d f). lia.
  - simpl in Ha. destruct (tasks s !! pid) as [p|] eqn:Hl; [|done]. rewrite !andb_true_iff, bool_decide_eq_true, !negb_true_iff, bool_decide_eq_false in Ha.
    destruct Ha as [[Hq Hk] Hcur]. fields. intros [= <-]. apply move_out_counted; [done|done|by apply (off_queue s Hi pid)].
  - simpl in Ha. destruct (tasks s !! pid) as [p|] eqn:Hl; [|done]. rewrite !andb_true_iff, bool_decide_eq_true in Ha.
    destruct Ha as [Hq _]. fields. intros [= <-]. by apply move_in_counted.
  - simpl in Ha. destruct (current s c) as [[pid p]|] eqn:Hcu; [|done]. fields. intros [= <-].
    destruct (current_spec s c pid p Hi Hcu) as (Hl & _ & _ & Hq). by eapply self_counted.
  - simpl in Ha. destruct (current s c) as [[pid p]|] eqn:Hcu; [|done]. fields. intros [= <-].
    destruct (current_spec s c pid p Hi Hcu) as (Hl & _ & _ & Hq). destruct (has (state p) mask); [|done]. by eapply self_counted.
  - simpl in Ha. destruct (current s c) as [[pid p]|] eqn:Hcu; [|done]. fields. intros [= <-].
    destruct (current_spec s c pid p Hi Hcu) as (Hl & _ & _ & Hq). by eapply self_counted.
  - simpl in Ha. destruct (current s c) as [[pid p]|] eqn:Hcu; [|done]. fields. intros [= <-].
    destruct (current_spec s c pid p Hi Hcu) as (Hl & _ & _ & Hq). by eapply self_counted.
  - simpl in Ha. destruct (current s c) as [[pid p]|] eqn:Hcu; [|done]. fields. intros [= <-].
    destruct (current_spec s c pid p Hi Hcu) as (Hl & _ & _ & Hq). apply memstall_counted; [done|done|].
    by destruct v, (in_memstall p).
Qed.
End Steps.

Lemma init_counted : counted init.
Proof. split; intros; rewrite ?msum_empty; done. Qed.
Lemma reach_counted s s' : rtc step s s' -> inv s -> counted s -> inv s' /\ counted s'.
Proof.
  induction 1 as [|s0 s1 s2 (e & Ha & He) _ IH]; [done|]. intros Hi Hc.
  destruct (smp_step s0 Hi e Ha) as (s3 & E & H). rewrite E in He. injection He as <-.
  apply IH; [done|]. by apply (every_step_counted s0 Hi Hc e).
Qed.
