(* ===== verification/WakeUpLive.v ===== *)
(** * Wake-ups between CPUs: they are completed (src/Assignment_4/fifo/core.c)

    What wakers, CPUs inside __schedule and wake lists have left to do shrinks with every
    step of theirs; none of them waits for ever; and a task that somebody has begun to
    wake stays on its way to the run queue. *)
From Stdlib Require Import ZArith Lia.
From stdpp Require Import gmap.
From S2P Require Import Prelude SchedInfo SchedClass RunQueue WakeUp WakeUpInv.
Import WakeUp.

Local Open Scope Z_scope.

(** ** What is left to do *)
Definition waker_left (w : waker_pc) : Z :=
  match w with W_on_rq => 12 | W_runnable => 11 | W_state => 10 | W_on_cpu => 9 | W_wait => 8 | W_select => 7 | W_queue _ => 6 end.
Definition task_left (p : task) : Z :=
  from_option waker_left 0 (waker p) + if decide (on_rq p = TASK_ON_RQ_MIGRATING) then 1 else 0.
Definition cpu_left (v : cpu_pc) : Z :=
  match v with
  | C_run => 0 | C_unlock => 1 | C_finish _ => 2 | C_pick => 3 | C_iowait => 4
  | C_pending l => 2 * Z.of_nat (length l) + 1
  end.
Definition list_left (l : list Z) : Z := 4 * Z.of_nat (length l).
Definition left (s : sys) : Z := msum task_left (tasks s) + msum cpu_left (pcs s) + msum list_left (wake_list s).

(** The steps that finish what has begun. *)
Definition finishing (e : event) : bool := match e with Waker _ _ _ | Cpu _ _ | Ipi _ | Moved _ => true | _ => false end.
Definition finishing_step (s s' : sys) : Prop := exists e, finishing e = true /\ allowed s e = true /\ exec s e = Some s'.

Lemma left_put s pid p p' : tasks s !! pid = Some p -> left (put s pid p') = left s + task_left p' - task_left p.
Proof. intros Hl. unfold left. fields. rewrite msum_insert, Hl. simpl. lia. Qed.
Lemma left_pc s c v : left (put_pc s c v) = left s + cpu_left v - cpu_left (pc s c).
Proof. unfold left, pc, val. fields. rewrite msum_insert. destruct (pcs s !! c); simpl; lia. Qed.
Lemma left_list s c l : left (put_list s c l) = left s + list_left l - list_left (val [] (wake_list s) c).
Proof. unfold left, val. fields. rewrite msum_insert. destruct (wake_list s !! c); simpl; unfold list_left; simpl; lia. Qed.
Lemma left_ext s s' : tasks s' = tasks s -> pcs s' = pcs s -> wake_list s' = wake_list s -> left s' = left s.
Proof. unfold left. by intros -> -> ->. Qed.
Lemma left_at_least s : 0 <= left s.
Proof.
  unfold left. pose proof (msum_nonneg task_left (tasks s)) as H1. pose proof (msum_nonneg cpu_left (pcs s)) as H2.
  pose proof (msum_nonneg list_left (wake_list s)) as H3.
  lapply H1; [|intros p; unfold task_left; destruct (waker p) as [[]|]; simpl; case_decide; lia].
  lapply H2; [|intros []; simpl; lia]. lapply H3; [|intros l; unfold list_left; lia]. lia.
Qed.

Section Shrinks.
Context (s : sys).

Lemma todo_activated p : task_left (activated p) = from_option waker_left 0 (waker p).
Proof. unfold task_left, activated. fields. rewrite decide_False by done. lia. Qed.
Lemma left_activate rq pid p w m : tasks s !! pid = Some p ->
  left (ttwu_do_activate s rq pid (set_waker p w) m) = left s + from_option waker_left 0 w - task_left p.
Proof.
  intros Hl. destruct (ttwu_core s rq pid (set_waker p w) m) as (E1 & _ & E3 & E4).
  change w with (waker (set_waker p w)) at 2. rewrite <- (todo_activated (set_waker p w)), <- (left_put s pid p _ Hl). by apply left_ext.
Qed.
Lemma wakelist_shrinks pid p w m : tasks s !! pid = Some p -> waker p = Some w -> 4 < waker_left w ->
  left (__ttwu_queue_wakelist s pid (set_waker p None) (task_cpu p) m) < left s.
Proof.
  intros Hl Hw Hlt. unfold __ttwu_queue_wakelist. rewrite left_list, (left_put s pid p) by done. fields.
  unfold task_left, list_left. rewrite Hw. fields. cbn [from_option length]. case_decide; lia.
Qed.
Lemma wake_step_shrinks pid p w cpu off : tasks s !! pid = Some p -> waker p = Some w ->
  left (wake_step s pid (set_waker p None) w cpu off) < left s.
Proof.
  intros Hl Hw. assert (task_left p = waker_left w + if decide (on_rq p = TASK_ON_RQ_MIGRATING) then 1 else 0) as Ep
    by (unfold task_left; by rewrite Hw).
  assert (forall w' p', waker p' = Some w' -> on_rq p' = on_rq p -> waker_left w' < waker_left w -> left (put s pid p') < left s) as Hgo.
  { intros w' p' E1 E2 E3. rewrite (left_put s pid p p' Hl), Ep. unfold task_left. rewrite E1, E2. cbn [from_option]. lia. }
  destruct w as [| | | | | |m]; simpl.
  - by destruct (decide (on_rq p = NOT_QUEUED)); eapply Hgo.
  - destruct (decide (on_rq p = TASK_ON_RQ_QUEUED)) as [E|E]; [|by eapply Hgo]. rewrite (left_put s pid p) by done. rewrite Ep, decide_False by congruence.
    unfold task_left. fields. rewrite decide_False by congruence. cbn [from_option waker_left]. lia.
  - by eapply Hgo.
  - destruct (on_cpu p && off)%bool; [by apply (wakelist_shrinks pid p W_on_cpu)|by eapply Hgo].
  - by eapply Hgo.
  - destruct (decide (task_cpu p = cpu)); [by eapply Hgo|]. unfold psi_ttwu_dequeue. fields.
    destruct (in_iowait p || in_memstall p)%bool; fields.
    + rewrite (left_ext (put s pid (set_waker (set_cpu (set_requeue (set_waker p None) true) cpu) (Some (W_queue true)))))
        by (by destruct (in_iowait p)). by eapply Hgo.
    + rewrite (left_ext (put s pid (set_waker (set_cpu (set_waker p None) cpu) (Some (W_queue true)))))
        by (by destruct (in_iowait p)). by eapply Hgo.
  - destruct off; [by apply (wakelist_shrinks pid p (W_queue m))|].
    rewrite (left_activate _ pid p None m Hl), Ep. cbn [from_option waker_left]. case_decide; lia.
Qed.

Lemma cpu_next_shrinks c next s' : cpu_next s c next = Some s' -> left s' < left s.
Proof.
  unfold cpu_next. destruct (pc s c) as [| | |[q|]| |[|pid rest]] eqn:Hpc; try done.
  - destruct (curr s !! c) as [prev|]; [|done]. fields. destruct (tasks s !! prev) as [p|]; [|done]. fields. intros [= <-].
    rewrite (left_ext (put_pc s c C_pick)) by (by destruct (in_iowait p)). rewrite left_pc, Hpc. simpl. lia.
  - unfold switch. destruct (decide (curr s !! c = next)) as [E|E]; [intros [= <-]; rewrite left_pc, Hpc; simpl; lia|].
    destruct next as [q|]; fields.
    + destruct (tasks s !! q) as [p|] eqn:Hl; [|done]. fields. intros [= <-].
      rewrite (left_ext (put_pc (put s q (set_on_cpu p true)) c (C_finish (curr s !! c)))) by done.
      rewrite left_pc, pc_task, Hpc, (left_put s q p) by done. unfold task_left. fields. cbn [cpu_left]. lia.
    + intros [= <-]. rewrite (left_ext (put_pc s c (C_finish (curr s !! c)))) by done. rewrite left_pc, Hpc. cbn [cpu_left]. lia.
  - destruct (tasks s !! q) as [p|] eqn:Hl; [|done]. fields. intros [= <-].
    rewrite left_pc, pc_task, Hpc, (left_put s q p) by done. unfold task_left. fields. cbn [cpu_left]. lia.
  - intros [= <-]. rewrite left_pc, Hpc. simpl. lia.
  - intros [= <-]. rewrite left_pc, Hpc. simpl. lia.
  - intros [= <-]. rewrite left_pc, Hpc. simpl. lia.
  - unfold pending_step. destruct (tasks s !! pid) as [p|] eqn:Hl; [|done]. fields. destruct (_ || _)%bool; [done|]. intros [= <-].
    destruct (ttwu_core s c pid p (sched_remote_wakeup p)) as (_ & _ & E3 & _).
    rewrite left_pc. assert (pc (ttwu_do_activate s c pid p (sched_remote_wakeup p)) c = pc s c) as -> by (unfold pc; by rewrite E3).
    assert (set_waker p (waker p) = p) as Ep by (by destruct p). rewrite <- Ep at 1. rewrite (left_activate c pid p (waker p) _ Hl), Hpc.
    unfold task_left. cbn [cpu_left length]. case_decide; lia.
Qed.

Lemma finishing_shrinks s' : finishing_step s s' -> left s' < left s.
Proof.
  intros (e & Hf & Ha & He). destruct e as [| |pid cpu off| |c next|c| |pid| | | | |]; try done; cbn [exec] in He.
  - destruct (tasks s !! pid) as [p|] eqn:Hl; [|done]. fields in He. destruct (waker p) as [w|] eqn:Hw; [|done]. fields in He.
    injection He as <-. by apply wake_step_shrinks.
  - by eapply cpu_next_shrinks.
  - injection He as <-. simpl in Ha. apply andb_true_iff in Ha as [Hk%negb_true_iff Hl%negb_true_iff]. apply locked_run in Hk.
    apply bool_decide_eq_false in Hl. rewrite left_pc, left_list. change (pc (put_list s c []) c) with (pc s c). rewrite Hk.
    unfold list_left. cbn [cpu_left length]. destruct (val [] (wake_list s) c); [done|]. cbn [length]. lia.
  - simpl in Ha. destruct (tasks s !! pid) as [p|] eqn:Hl; [|done]. rewrite !andb_true_iff, bool_decide_eq_true in Ha.
    destruct Ha as [Hq _]. fields in He. injection He as <-. unfold move_in. destruct (activation s pid p false) as (call & _ & ->).
    rewrite (left_ext (put s pid (set_on_rq (set_requeue p false) TASK_ON_RQ_QUEUED))) by done. rewrite (left_put s pid p) by done.
    unfold task_left. fields. rewrite Hq, decide_False, decide_True by done. lia.
Qed.
End Shrinks.

(** ** Nobody waits for ever *)
Section Progress.
Context (s : sys) (Hi : inv s).

Definition quiet : Prop := (forall c, pc s c = C_run) /\ (forall c, val [] (wake_list s) c = []) /\
  forall pid p, tasks s !! pid = Some p -> waker p = None /\ on_rq p <> TASK_ON_RQ_MIGRATING /\ state p <> TASK_WAKING.

Lemma can_step e : finishing e = true -> allowed s e = true -> exists s', finishing_step s s'.
Proof. intros Hf Ha. destruct (smp_step s Hi e Ha) as (s' & E & _). exists s', e. by split_and!. Qed.

(** A waker that spins on on_cpu spins for a CPU that is inside __schedule. *)
Lemma waker_progress pid p w : (forall c, pc s c = C_run) -> tasks s !! pid = Some p -> waker p = Some w ->
  on_rq p <> TASK_ON_RQ_MIGRATING -> allowed s (Waker pid (task_cpu p) false) = true.
Proof.
  intros Hr Hl Hw Hm. simpl. rewrite Hl, Hw. assert (forall c, locked s c = false) as Hk by (intros c; by apply locked_run).
  destruct w; simpl; rewrite ?Hk; try done.
  - by rewrite bool_decide_false.
  - apply negb_true_iff, not_true_is_false. intros Ho. destruct (proj1 Hi pid p Hl) as [T1 T2 T3 _ _ _ _].
    apply T1 in Ho as [Ho|Ho]; [|by rewrite Hr in Ho]. unfold waker_ok in T3. rewrite Hw in T3. destruct T3 as [T3 _].
    destruct (curr_queued s Hi (task_cpu p) pid p) as (_ & Hq & _); [unfold in_schedule; rewrite Hr; by intros []|done|done|]. congruence.
  - by rewrite bool_decide_true.
Qed.

Lemma stuck_quiet : (forall s', ~ finishing_step s s') -> quiet.
Proof.
  intros Hstuck. assert (forall e, finishing e = true -> allowed s e = true -> False) as Hno.
  { intros e Hf Ha. destruct (can_step e Hf Ha) as [s' H]. by apply (Hstuck s'). }
  assert (forall c, pc s c = C_run) as Hr.
  { intros c. destruct (pc s c) eqn:E; [done|..]; exfalso; apply (Hno (Cpu c None)); simpl; by rewrite ?E. }
  assert (forall c, val [] (wake_list s) c = []) as Hl.
  { intros c. destruct (decide (val [] (wake_list s) c = [])) as [|Hn]; [done|]. exfalso. apply (Hno (Ipi c)); [done|].
    simpl. rewrite (proj2 (locked_run s c) (Hr c)), bool_decide_false by done. done. }
  split_and!; [done|done|]. intros pid p Ht.
  assert (on_rq p <> TASK_ON_RQ_MIGRATING) as Hm.
  { intros E. apply (Hno (Moved pid)); [done|]. simpl. by rewrite Ht, (proj2 (locked_run s _) (Hr _)), bool_decide_true. }
  assert (waker p = None) as Hw.
  { destruct (waker p) as [w|] eqn:Hw; [|done]. exfalso. by apply (Hno (Waker pid (task_cpu p) false)), (waker_progress pid p w). }
  split_and!; [done|done|]. intros Hs. pose proof (t_listed s pid p (proj1 Hi pid p Ht) Hw Hs) as Hin.
  unfold lists in Hin. rewrite Hl, Hr in Hin. by apply not_elem_of_nil in Hin.
Qed.
End Progress.

(** ** What has been begun *)
(** Somebody wakes the task, or it is awake. *)
Definition coming (p : task) : bool :=
  (is_some (waker p) || (state p =? TASK_WAKING)%c || ((state p =? TASK_RUNNING)%c && negb (bool_decide (on_rq p = NOT_QUEUED))))%bool.
Definition on_its_way (s : sys) (pid : Z) : Prop := exists p, tasks s !! pid = Some p /\ coming p = true.
Lemma way_put s s' pid p p' q : tasks s !! pid = Some p -> tasks s' = <[pid := p']> (tasks s) ->
  (coming p = true -> coming p' = true) -> on_its_way s q -> on_its_way s' q.
Proof.
  intros Hl Ht Hc (p0 & H1 & H2). unfold on_its_way. rewrite Ht, lookup_insert. case_decide as E; [|by exists p0].
  subst q. exists p'. split; [done|]. apply Hc. congruence.
Qed.
Lemma coming_activated p : coming (activated p) = true.
Proof. unfold coming, activated. fields. by rewrite orb_true_r. Qed.
Lemma coming_waking p : state p = TASK_WAKING -> coming p = true.
Proof. intros H. unfold coming. rewrite H. by rewrite orb_true_r. Qed.
Lemma coming_waker p w : waker p = Some w -> coming p = true.
Proof. intros H. unfold coming. by rewrite H. Qed.

Section Way.
Context (s : sys) (Hi : inv s).

Lemma wake_step_way pid p w cpu off q : tasks s !! pid = Some p -> waker p = Some w -> on_its_way s q ->
  on_its_way (wake_step s pid (set_waker p None) w cpu off) q.
Proof.
  intros Hl Hw Hq. pose proof (t_waker s pid p (proj1 Hi pid p Hl)) as T3. unfold waker_ok in T3. rewrite Hw in T3.
  destruct w as [| | | | | |m]; simpl.
  - by eapply (way_put s _ pid p).
  - destruct (decide (on_rq p = TASK_ON_RQ_QUEUED)) as [E|E]; eapply (way_put s _ pid p); try done. intros _. unfold coming. fields. rewrite E. done.
  - eapply (way_put s _ pid p); done.
  - destruct (on_cpu p && off)%bool; eapply (way_put s _ pid p); try done. intros _. by apply coming_waking, T3.
  - eapply (way_put s _ pid p); done.
  - destruct (decide (task_cpu p = cpu)); [eapply (way_put s _ pid p); done|]. unfold psi_ttwu_dequeue.
    destruct (in_iowait (set_waker p None) || in_memstall (set_waker p None))%bool; fields;
      [eapply (way_put s _ pid p (set_waker (set_cpu (set_requeue (set_waker p None) true) cpu) (Some (W_queue true))))
      |eapply (way_put s _ pid p (set_waker (set_cpu (set_waker p None) cpu) (Some (W_queue true))))]; try done;
      by destruct (in_iowait p).
  - destruct T3 as (_ & T3 & _). destruct off; [eapply (way_put s _ pid p); try done; intros _; by apply coming_waking|].
    destruct (ttwu_core s (task_cpu p) pid (set_waker p None) m) as (E1 & _).
    by eapply (way_put s _ pid p).
Qed.
Lemma finishing_way s' q : finishing_step s s' -> on_its_way s q -> on_its_way s' q.
Proof.
  intros (e & Hf & Ha & He) Hq. destruct e as [| |pid cpu off| |c next|c| |pid| | | | |]; try done; cbn [exec] in He.
  - destruct (tasks s !! pid) as [p|] eqn:Hl; [|done]. fields in He. destruct (waker p) as [w|] eqn:Hw; [|done]. fields in He.
    injection He as <-. by apply wake_step_way.
  - unfold cpu_next in He. destruct (pc s c) as [| | |[pid|]| |[|pid rest]] eqn:Hpc; try done; try (by injection He as <-).
    + destruct (curr s !! c) as [prev|]; [|done]. fields in He. destruct (tasks s !! prev) as [p|]; [|done]. fields in He.
      injection He as <-. unfold on_its_way. by destruct (in_iowait p).
    + unfold switch in He. destruct (decide (curr s !! c = next)); [by injection He as <-|]. destruct next as [pid|]; fields in He.
      * destruct (tasks s !! pid) as [p|] eqn:Hl; [|done]. fields in He. injection He as <-. by eapply (way_put s _ pid p).
      * by injection He as <-.
    + destruct (tasks s !! pid) as [p|] eqn:Hl; [|done]. fields in He. injection He as <-. by eapply (way_put s _ pid p).
    + unfold pending_step in He. destruct (tasks s !! pid) as [p|] eqn:Hl; [|done]. fields in He. destruct (_ || _)%bool; [done|].
      injection He as <-. destruct (ttwu_core s c pid p (sched_remote_wakeup p)) as (E1 & _).
      eapply (way_put s _ pid p); try done. intros _. apply coming_activated.
  - by injection He as <-.
  - destruct (tasks s !! pid) as [p|] eqn:Hl; [|done]. fields in He. injection He as <-. unfold move_in.
    destruct (activation s pid p false) as (call & _ & ->). eapply (way_put s _ pid p); try done. unfold coming. fields.
    destruct (is_some (waker p)), (state p =? TASK_WAKING)%c; try done; simpl. by intros [-> _]%andb_true_iff.
Qed.
End Way.
Lemma finishing_is_step s s' : finishing_step s s' -> step s s'.
Proof. intros (e & _ & Ha & He). by exists e. Qed.
Lemma finishing_run s s' q : rtc finishing_step s s' -> inv s -> on_its_way s q -> inv s' /\ on_its_way s' q.
Proof.
  induction 1 as [|s0 s1 s2 Hs _ IH]; [done|]. intros Hi Hq. apply IH; [|by eapply finishing_way].
  eapply reach_inv; [|exact Hi]. by apply rtc_once, finishing_is_step.
Qed.
Lemma finishing_bound n s s' : nsteps finishing_step n s s' -> inv s -> Z.of_nat n + left s' <= left s.
Proof.
  induction 1 as [s0|n s0 s1 s2 Hs Hn IH]; intros Hi; [simpl; lia|].
  pose proof (finishing_shrinks s0 s1 Hs). assert (inv s1) as Hi1.
  { eapply reach_inv; [|exact Hi]. by apply rtc_once, finishing_is_step. }
  specialize (IH Hi1). lia.
Qed.
