(* ===== verification/WakeUpProps.v ===== *)
(** * Wake-ups between CPUs: properties (src/Assignment_4/fifo/core.c, stats.h)

    Of every interleaving of wakers and CPUs that starts with all CPUs idle: no task is on
    two CPUs or queued while one still executes on its stack; every wake-up that has begun
    is completed; and the counters are exact. *)
From Stdlib Require Import ZArith Lia.
From stdpp Require Import gmap.
From S2P Require Import Prelude SchedInfo SchedClass RunQueue WakeUp WakeUpInv WakeUpCount WakeUpLive.
Import WakeUp.

Local Open Scope Z_scope.

(** Events one after the other. *)
Lemma events_steps es s s' : exec_all s es = Some s' -> rtc step s s'.
Proof.
  revert s s'. induction es as [|e es IH]; simpl; intros s s' H; [by injection H as <-|].
  destruct (allowed s e) eqn:Ha; [|done]. destruct (exec s e) as [s1|] eqn:E; [|done]. fields in H.
  apply rtc_l with s1; [by exists e|by apply IH].
Qed.

(** C6: However try_to_wake_up, __schedule, the wake lists, forks and migrations interleave on any number
    of CPUs: no step runs into one of the WARNs of sched_ttwu_pending (a task taken from the wake list
    of a CPU is on no CPU any more, and belongs to that one). A task is the current one of at most one
    CPU, outside of __schedule it is queued there with on_cpu set, and once on_cpu is clear no CPU
    executes on its stack. A task in TASK_WAKING is on no run queue, and either exactly one waker is
    on its way with it or it is exactly once on the wake list of its CPU. *)
Theorem wakeups_safe s : rtc step init s ->
  (forall e, allowed s e = true -> exists s', exec s e = Some s') /\
  (forall pid c d, curr s !! c = Some pid -> curr s !! d = Some pid -> c = d) /\
  (forall pid c, curr s !! c = Some pid -> locked s c = false ->
     exists p, tasks s !! pid = Some p /\ task_cpu p = c /\ on_rq p = TASK_ON_RQ_QUEUED /\ on_cpu p = true) /\
  (forall pid p, tasks s !! pid = Some p -> on_cpu p = false -> forall c, curr s !! c <> Some pid /\ pc s c <> C_finish (Some pid)) /\
  (forall pid p, tasks s !! pid = Some p -> state p = TASK_WAKING ->
     on_rq p = NOT_QUEUED /\ (waker p = None <-> pid ∈ lists s (task_cpu p)) /\ NoDup (lists s (task_cpu p)) /\
     forall c, pid ∈ lists s c -> c = task_cpu p).
Proof.
  intros Hr. pose proof (reach_inv init s Hr idle_inv) as Hi. split_and!.
  - intros e Ha. destruct (smp_step s Hi e Ha) as (s' & E & _). by exists s'.
  - intros pid c d H1 H2. destruct (c_curr s c (proj2 Hi c) pid H1) as (p & E1 & E2 & _).
    destruct (c_curr s d (proj2 Hi d) pid H2) as (q & E3 & E4 & _). congruence.
  - intros pid c Hc Hk. apply locked_run in Hk. destruct (c_curr s c (proj2 Hi c) pid Hc) as (p & Hl & Hcpu & _). exists p.
    destruct (curr_queued s Hi c pid p) as (_ & ? & ?); [unfold in_schedule; rewrite Hk; by intros []|done..].
  - intros pid p Hl Ho c. pose proof (off_stack s Hi pid p c Hl Ho) as Hs. unfold on_stack in Hs. tauto.
  - intros pid p Hl Hw. destruct (proj1 Hi pid p Hl) as [T1 T2 T3 T4 T5 T6 T7].
    assert (forall c, pid ∈ lists s c -> waker p = None /\ c = task_cpu p) as Hin.
    { intros c Hin. destruct (c_list s c (proj2 Hi c) pid Hin) as (q & E1 & E2 & _ & E3). split; congruence. }
    split_and!; [auto|split; [auto|apply Hin]|apply (proj2 Hi)|apply Hin].
Qed.

(** C5: No wake-up is lost. From any state, whatever else had happened, the wakers, the CPUs inside
    __schedule, the wake lists and the migrations under way, left alone, can take at most [left s] steps
    however they are scheduled; and when none of them can take another, no run queue is locked, every
    wake list is empty, no waker waits for on_cpu or for a lock, and each task somebody had begun to
    wake (the state matched the mask of try_to_wake_up) is TASK_RUNNING and on its run queue. *)
Theorem wakeups_complete s : rtc step init s ->
  (forall n s', nsteps finishing_step n s s' -> Z.of_nat n <= left s) /\
  (forall s', rtc finishing_step s s' -> (forall s'', ~ finishing_step s' s'') -> quiet s' /\
     forall pid p, tasks s !! pid = Some p -> is_Some (waker p) \/ state p = TASK_WAKING ->
     exists p', tasks s' !! pid = Some p' /\ state p' = TASK_RUNNING /\ on_rq p' = TASK_ON_RQ_QUEUED).
Proof.
  intros Hr. pose proof (reach_inv init s Hr idle_inv) as Hi. split.
  - intros n s' Hn. pose proof (finishing_bound n s s' Hn Hi). pose proof (left_at_least s'). lia.
  - intros s' Hrun Hstuck. assert (inv s') as Hi'.
    { clear Hstuck. revert Hi. clear Hr. induction Hrun as [|s0 s1 s2 Hs _ IH]; [done|]. intros Hi. apply IH.
      eapply reach_inv; [|exact Hi]. by apply rtc_once, finishing_is_step. }
    pose proof (stuck_quiet s' Hi' Hstuck) as Hq. split; [done|]. intros pid p Hl Hb.
    destruct (finishing_run s s' pid Hrun Hi) as (_ & p' & Hl' & Hc').
    { exists p. split; [done|]. destruct Hb as [[w Hw]|Hw]; [by apply (coming_waker p w)|by apply coming_waking]. }
    destruct Hq as (_ & _ & Hq). destruct (Hq pid p' Hl') as (Q1 & Q2 & Q3). exists p'. split; [done|].
    unfold coming in Hc'. rewrite Q1, (proj2 (Z.eqb_neq _ _) Q3) in Hc'. simpl in Hc'.
    apply andb_true_iff in Hc' as [H1%Z.eqb_eq H2%negb_true_iff]. apply bool_decide_eq_false in H2.
    split; [done|]. by destruct (on_rq p').
Qed.

(** C7: What is counted along the way is exact at every moment of every interleaving. nr_iowait of a CPU
    is the number of tasks asleep on it in io_schedule, less the one __schedule is about to count and
    those already being woken on another CPU, and is never negative; nr_uninterruptible, whose parts
    on single CPUs mean nothing, is over all CPUs the number of tasks asleep that contribute to the
    load; and PSI has been told, bit by bit and CPU by CPU, exactly what each task is doing: every bit
    is set where it was clear, and cleared on the CPU where it was set. *)
Theorem wakeup_accounting s : rtc step init s ->
  (forall c, val 0 (nr_iowait s) c = msum (io_at c) (tasks s) - uncounted s c /\ 0 <= val 0 (nr_iowait s) c) /\
  msum id (nr_uninterruptible s) = msum load_at (tasks s) /\
  (forall pid c f, psi_net (psi s) pid c f = psi_at s pid c f).
Proof.
  intros Hr. destruct (reach_counted init s Hr idle_inv init_counted) as [Hi [N1 N2 N3]]. split_and!; [|done|done].
  intros c. specialize (N1 c). split; [lia|]. enough (uncounted s c <= msum (io_at c) (tasks s)) by lia.
  assert (forall p, 0 <= io_at c p) as H0 by (intros p; apply b2z_range).
  unfold uncounted. destruct (pc s c) eqn:Hpc; try (by apply msum_nonneg).
  destruct (curr s !! c) as [pid|] eqn:Hc; [|by apply msum_nonneg]. simpl.
  destruct (c_curr s c (proj2 Hi c) pid Hc) as (p & Hl & Hcpu & _ & Hq). rewrite Hl. simpl.
  etrans; [|apply (msum_lookup _ _ _ _ H0 Hl)]. unfold io_at, asleep. rewrite (Hq Hpc), Hcpu, Z.eqb_refl.
  assert (migrated p = false) as ->; [|simpl; by rewrite !andb_true_r].
  assert (on_cpu p = true) as Ho. { apply (t_cpu s pid p (proj1 Hi pid p Hl)). rewrite Hcpu. by left. }
  apply not_true_is_false. intros Hm. rewrite (t_migrated s pid p (proj1 Hi pid p Hl) Hm) in Ho. done.
Qed.

(** ** Witnesses *)
(** Task 10 sleeps in io_schedule on CPU 0, which has dequeued it and is about to count it, when
    CPU 1 wakes it and finds it still on CPU 0. *)
Definition racing : list event :=
  [Fork 10 0 false; Schedule 0 false false; Cpu 0 (Some 10); Cpu 0 None; Cpu 0 None; Set_iowait 0 true; Memstall 0 true;
   Set_state 0 2; Schedule 0 false false; Wake 10 3; Waker 10 1 false; Waker 10 1 false; Waker 10 1 false].
Definition half_woken : sys := match exec_all init racing with Some s => s | None => init end.
Lemma half_woken_eq : exec_all init racing = Some half_woken.
Proof. vm_compute. reflexivity. Qed.
Definition sleeper : task := default (mk_task 0 0 NOT_QUEUED false false false false false false false None) (tasks half_woken !! 10).
Lemma wakeups_safe_witness : state sleeper = TASK_WAKING /\ waker sleeper = Some W_wait /\ on_cpu sleeper = true /\
  on_rq sleeper = NOT_QUEUED /\ (waker sleeper = None <-> 10 ∈ lists half_woken (task_cpu sleeper)).
Proof.
  split; [by vm_compute|]. split; [by vm_compute|]. split; [by vm_compute|].
  destruct (wakeups_safe half_woken (events_steps _ _ _ half_woken_eq)) as (_ & _ & _ & _ & H).
  destruct (H 10 sleeper) as (H1 & H2 & _); [by vm_compute..|]. by split.
Defined.
Lemma wakeups_complete_witness : left half_woken = 12 /\
  forall n s', nsteps finishing_step n half_woken s' -> Z.of_nat n <= 12.
Proof.
  split; [by vm_compute|]. exact (proj1 (wakeups_complete half_woken (events_steps _ _ _ half_woken_eq))).
Defined.
Lemma wakeup_accounting_witness : uncounted half_woken 0 = 1 /\ val 0 (nr_iowait half_woken) 0 = 0 /\
  psi_net (psi half_woken) 10 0 TSK_IOWAIT = psi_at half_woken 10 0 TSK_IOWAIT /\ psi_at half_woken 10 0 TSK_IOWAIT = 1.
Proof.
  split; [by vm_compute|]. split; [by vm_compute|].
  split; [apply (wakeup_accounting half_woken (events_steps _ _ _ half_woken_eq))|by vm_compute].
Defined.
