(* ===== verification/Workload.v ===== *)
(** * The scheduling experiments (src/Assignment_4/cfs.c, cfs_nice.c)

    A parent that forks 21 children, lets each burn CPU time and collects them.
    What is modelled is what each process computes and writes: [stdout] with its
    buffer, which fork copies and exit writes out.  The kernel's part is given:
    the results of fork in the parent and the PIDs wait returns. *)
From Stdlib Require Import ZArith Lia Ascii String.
From S2P Require Import Prelude CLib.

Local Open Scope stdpp_scope.
Local Open Scope Z_scope.

Module Workload.

(** ** The loops *)
Definition WORK : Z := 10000.
Definition EASY : Z := 20000.
Definition NORMAL : Z := 50000.
Definition HARD : Z := 100000.
Definition CHILDREN : nat := 21.

(** [for (j = lo; j < lo + n; j++) temp = i + j;] *)
Fixpoint inner (n : nat) (i lo temp : Z) : Z :=
  match n with
  | O => temp
  | S n => inner n i (lo + 1) (s32 (i + lo))
  end.
(** The outer loop of [task] in cfs.c, [i] and [j] from 1 to [WORK]. *)
Fixpoint task_loop (n width : nat) (i temp : Z) : Z :=
  match n with
  | O => temp
  | S n => task_loop n width (i + 1) (inner width i 1 temp)
  end.
Definition task : Z := task_loop (Z.to_nat WORK) (Z.to_nat WORK) 1 0.

(** The tasks of cfs_nice.c: [temp] and the lines printed, one for each
    [i] with [i % (size / 10) == 0]. *)
Fixpoint work_loop (n : nat) (size : Z) (word : string) (i temp : Z) : Z * list string :=
  match n with
  | O => (temp, [])
  | S n =>
      let temp := inner (Z.to_nat size) i 0 temp in
      let '(t, ws) := work_loop n size word (i + 1) temp in
      (t, (if (Z.rem i (Z.quot size 10) =? 0)%c then [word] else []) ++ ws)
  end.
Definition work (size : Z) (word : string) : list string :=
  (work_loop (Z.to_nat size) size word 0 0).2.
Definition easy_task : list string := work EASY ("EASY WORK" +:+ newline).
Definition normal_task : list string := work NORMAL ("NORMAL WORK" +:+ newline).
Definition hard_task : list string := work HARD ("HARD WORK" +:+ newline).

(** ** stdout *)
Inductive mode := Terminal | Redirected.

(** What is buffered and what was written, one string per [write].  On a terminal
    a line goes out at once (every string printed ends a line); redirected
    output stays in a buffer that is larger than all of it. *)
Record stdio := mk_stdio { pending : string; written : list string }.
Definition printf (m : mode) (s : string) (out : stdio) : stdio :=
  match m with
  | Terminal => mk_stdio "" (written out ++ [pending out +:+ s])
  | Redirected => mk_stdio (pending out +:+ s) (written out)
  end.
Definition printfs (m : mode) (l : list string) (out : stdio) : stdio :=
  foldl (fun out s => printf m s out) out l.
(** [exit]: the writes of the process. *)
Definition exit_writes (out : stdio) : list string :=
  written out ++ (if String.eqb (pending out) "" then [] else [pending out]).
(** [fork]: the child has the buffer, and has written nothing. *)
Definition fork_copy (out : stdio) : stdio := mk_stdio (pending out) [].

Record run := mk_run { code : Z; parent_writes : list string; child_writes : list (list string) }.

(** [for (i = ..; i < 21; i++) { pid = fork(); .. }]: [child i out] is what the
    [i]-th child writes, [parent pid] what the parent prints. *)
Fixpoint fork_loop (m : mode) (n : nat) (i : Z) (forks : list Z) (child : Z -> stdio -> list string)
    (parent : Z -> list string) (out : stdio) (pids : list Z) (kids : list (list string))
  : bool * stdio * list Z * list (list string) :=
  match n, forks with
  | S n, pid :: forks =>
      if (pid <? 0)%c then (false, out, pids, kids)
      else fork_loop m n (i + 1) forks child parent (printfs m (parent pid) out) (pids ++ [pid])
             (kids ++ [child i (fork_copy out)])
  | S _, [] => (false, out, pids, kids)
  | O, _ => (true, out, pids, kids)
  end.

(** [while ((pid = wait(NULL)) > 0)]: the PIDs before the first failure. *)
Fixpoint wait_loop (waits : list Z) : list Z :=
  match waits with
  | [] => []
  | pid :: waits => if (0 <? pid)%c then pid :: wait_loop waits else []
  end.

Definition bracket (pid : Z) (what : string) : string := "[" +:+ show pid +:+ "] " +:+ what +:+ newline.
Definition begins (pid : Z) : string := bracket pid "process begins".
Definition ends (pid : Z) : string := bracket pid "process ends".
Definition start_title : string := newline +:+ "========= 프로그램 시작 =========" +:+ newline.
Definition end_title : string := newline +:+ "======== 프로그램 종료 ========" +:+ newline +:+ newline.
Definition begin_order_title : string := newline +:+ "# 프로세스 생성 순서" +:+ newline.
Definition end_order_title : string := newline +:+ "# 프로세스 종료 순서" +:+ newline.
Definition progress_title : string := newline +:+ "# 프로세스 작업 상황" +:+ newline.

(** ** cfs.c *)
Definition cfs_main (m : mode) (forks waits : list Z) : run :=
  let out := printfs m [start_title; begin_order_title] (mk_stdio "" []) in
  match fork_loop m CHILDREN 0 forks (fun _ out => exit_writes out) (fun pid => [begins pid]) out [] [] with
  | (false, out, _, kids) => mk_run 1 (exit_writes out) kids
  | (true, out, _, kids) =>
      let out := printfs m (end_order_title :: map ends (wait_loop waits)) out in
      mk_run 0 (exit_writes (printf m end_title out)) kids
  end.

(** ** cfs_nice.c *)

(** The increment passed to nice (its result is not used) and the task of child [i]. *)
Definition child_nice (i : Z) : option Z :=
  if (i / 7 =? 0)%c then Some 19 else if (i / 7 =? 1)%c then Some 0
  else if (i / 7 =? 2)%c then Some (-20) else None.
Definition child_task (i : Z) : list string :=
  if (i / 7 =? 0)%c then easy_task else if (i / 7 =? 1)%c then normal_task
  else if (i / 7 =? 2)%c then hard_task else [].

(** [end_order[idx] = pid; idx++] *)
Fixpoint store_order (pids : list Z) (idx : Z) (arr : list Z) : res (list Z) :=
  match pids with
  | [] => Ok arr
  | pid :: pids => arr ← aset arr idx pid; store_order pids (idx + 1) arr
  end.

Definition cfs_nice_main (m : mode) (forks waits : list Z) : res run :=
  let out := printfs m [start_title; progress_title] (mk_stdio "" []) in
  match fork_loop m CHILDREN 0 forks (fun i out => exit_writes (printfs m (child_task i) out))
          (fun _ => []) out [] [] with
  | (false, out, _, kids) => Ok (mk_run 1 (exit_writes out) kids)
  | (true, out, pids, kids) =>
      begin_order ← store_order pids 0 (replicate CHILDREN 0);
      end_order ← store_order (wait_loop waits) 0 (replicate CHILDREN 0);
      let out := printfs m (begin_order_title :: map begins begin_order) out in
      let out := printfs m (end_order_title :: map ends end_order) out in
      Ok (mk_run 0 (exit_writes (printf m end_title out)) kids)
  end.

End Workload.
