(* ===== verification/WorkloadTheorems.v ===== *)
(** * What the scheduling experiments print (src/Assignment_4/cfs.c, cfs_nice.c)

    Each task of cfs_nice.c prints ten lines; the writes of the parent and of
    every child, on a terminal and redirected. *)
From Stdlib Require Import ZArith Lia Ascii String.
From S2P Require Import Prelude CLib Workload.
Import Workload.

Local Open Scope stdpp_scope.
Local Open Scope Z_scope.

(** ** The ten lines of a task *)
Section Work.
Context (size : Z) (word : string).
Definition words (n : nat) (i : Z) : list string := (work_loop n size word i 0).2.

Lemma words_temp n : forall i t t', (work_loop n size word i t).2 = (work_loop n size word i t').2.
Proof.
  induction n as [|n IH]; intros i t t'; [done|]. cbn [work_loop].
  specialize (IH (i + 1) (inner (Z.to_nat size) i 0 t) (inner (Z.to_nat size) i 0 t')).
  destruct (work_loop n _ _ _ (inner _ _ _ t)), (work_loop n _ _ _ (inner _ _ _ t')). simpl in *. congruence.
Qed.
Lemma words_S n i : words (S n) i =
  (if (Z.rem i (Z.quot size 10) =? 0)%c then [word] else []) ++ words n (i + 1).
Proof.
  unfold words. cbn [work_loop]. set (t := inner _ _ _ _). rewrite (words_temp n (i + 1) 0 t).
  by destruct (work_loop n _ _ _ t).
Qed.
Lemma words_app a b : forall i, words (a + b) i = words a i ++ words b (i + Z.of_nat a).
Proof.
  induction a as [|a IH]; intros i; [simpl; f_equal; lia|].
  change (S a + b)%nat with (S (a + b)). rewrite !words_S, IH, <- app_assoc. do 3 f_equal. lia.
Qed.
Lemma words_none n : forall i, (forall j, i <= j < i + Z.of_nat n -> Z.rem j (Z.quot size 10) <> 0) ->
  words n i = [].
Proof.
  induction n as [|n IH]; intros i Hi; [done|]. rewrite words_S.
  rewrite (proj2 (Z.eqb_neq _ _)) by (apply Hi; lia). apply IH. intros j Hj. apply Hi. lia.
Qed.

(** One tenth of the loop prints one line. *)
Lemma words_block k m : size = 10 * Z.of_nat (S k) -> 0 <= m ->
  words (S k) (m * Z.of_nat (S k)) = [word].
Proof.
  intros Hs Hm. assert (Z.quot size 10 = Z.of_nat (S k)) as Hq.
  { rewrite Hs, Z.mul_comm. apply Z.quot_mul. lia. }
  rewrite words_S, Hq, Z.rem_mul by lia. rewrite Z.eqb_refl. cbn [app]. f_equal.
  apply words_none. intros j Hj. rewrite Hq, Z.rem_mod_nonneg by lia.
  intros H0%Z.mod_divide; [|lia]. destruct H0 as [q ->].
  assert (0 < Z.of_nat (S k)) as HK by lia. assert (Z.of_nat k = Z.of_nat (S k) - 1) as Hk by lia.
  rewrite Hk in Hj. clear Hk Hq Hs. generalize dependent (Z.of_nat (S k)). intros K Hj HK.
  assert (m < q) by nia. nia.
Qed.

Lemma words_blocks k b : size = 10 * Z.of_nat (S k) ->
  words (b * S k) 0 = replicate b word.
Proof.
  intros Hs. induction b as [|b IH]; [done|].
  replace (S b * S k)%nat with (b * S k + S k)%nat by lia.
  rewrite words_app, IH. replace (0 + Z.of_nat (b * S k)) with (Z.of_nat b * Z.of_nat (S k)) by lia.
  rewrite words_block by lia. by rewrite replicate_S_end.
Qed.
End Work.

Lemma work_ten size word : 0 < size -> size mod 10 = 0 -> work size word = replicate 10 word.
Proof.
  intros Hs Hm. apply Z.div_exact in Hm; [|lia].
  assert (size / 10 = Z.of_nat (S (Z.to_nat (size / 10 - 1)))) as Hk by lia. rewrite Hk in Hm.
  unfold work. change ((work_loop _ _ _ _ _).2) with (words size word (Z.to_nat size) 0).
  replace (Z.to_nat size) with (10 * S (Z.to_nat (size / 10 - 1)))%nat by lia.
  by apply words_blocks.
Qed.

(** ** stdout *)
Definition joined (l : list string) : string := foldr String.append EmptyString l.

Lemma joined_app a b : joined (a ++ b) = joined a +:+ joined b.
Proof. induction a as [|x a IH]; [done|]. simpl. by rewrite IH, append_assoc. Qed.

Lemma printfs_terminal l : forall out, pending out = EmptyString ->
  printfs Terminal l out = mk_stdio EmptyString (written out ++ l).
Proof.
  induction l as [|s l IH]; intros [p w] H; simpl in *; subst p.
  - by rewrite app_nil_r.
  - unfold printfs in *. simpl. rewrite IH by done. simpl. by rewrite <- app_assoc.
Qed.
Lemma printfs_redirected l : forall out,
  printfs Redirected l out = mk_stdio (pending out +:+ joined l) (written out).
Proof.
  induction l as [|s l IH]; intros [p w]; simpl.
  - by rewrite append_nil_r.
  - unfold printfs in *. simpl. rewrite IH. simpl. by rewrite append_assoc.
Qed.
Lemma printfs_app m a b out : printfs m (a ++ b) out = printfs m b (printfs m a out).
Proof. unfold printfs. apply foldl_app. Qed.

(** ** Forking and waiting *)
Lemma fork_loop_all m child parent : forall n i forks out pids kids,
  List.length forks = n -> Forall (fun pid => 0 < pid) forks ->
  fork_loop m n i forks child parent out pids kids =
  (true, printfs m (concat (map parent forks)) out, pids ++ forks,
   kids ++ imap (fun j _ => child (i + Z.of_nat j)
                    (fork_copy (printfs m (concat (map parent (take j forks))) out))) forks).
Proof.
  induction n as [|n IH]; intros i forks out pids kids Hl Hf; destruct forks as [|pid forks]; try done.
  - simpl. by rewrite !app_nil_r.
  - simpl in Hl. apply Forall_cons in Hf as [Hp Hf]. cbn [fork_loop].
    rewrite (proj2 (Z.ltb_ge pid 0)) by lia. rewrite IH by (done || lia). cbn [map concat imap take].
    rewrite printfs_app, <- !app_assoc. cbn [app]. rewrite Z.add_0_r. do 3 f_equal.
    apply imap_ext. intros j x _. simpl. rewrite printfs_app. f_equal. lia.
Qed.

Lemma wait_loop_all pids rest : Forall (fun pid => 0 < pid) pids ->
  wait_loop (pids ++ -1 :: rest) = pids.
Proof.
  induction 1 as [|pid pids Hp Hf IH]; [done|]. cbn [wait_loop app].
  rewrite (proj2 (Z.ltb_lt 0 pid)) by lia. by rewrite IH.
Qed.

Lemma store_order_all pids : forall pre post, List.length pids = List.length post ->
  store_order pids (Z.of_nat (List.length pre)) (pre ++ post) = Ok (pre ++ pids).
Proof.
  induction pids as [|pid pids IH]; intros pre post Hl; destruct post as [|x post]; try done.
  simpl in Hl. cbn [store_order].
  assert (aset (pre ++ x :: post) (Z.of_nat (List.length pre)) pid = Ok ((pre ++ [pid]) ++ post)) as ->.
  { unfold aset. rewrite (proj2 (Z.leb_le _ _)), (proj2 (Z.ltb_lt _ _)) by (rewrite ?length_app; simpl; lia).
    rewrite Nat2Z.id. simpl. f_equal. rewrite insert_app_r_alt, Nat.sub_diag by lia. simpl.
    by rewrite <- app_assoc. }
  cbn [mbind res_bind]. replace (Z.of_nat (List.length pre) + 1) with (Z.of_nat (List.length (pre ++ [pid])))
    by (rewrite length_app; simpl; lia).
  rewrite IH by lia. by rewrite <- app_assoc.
Qed.

(** ** The two programs *)
Definition cfs_text (forks waits : list Z) : list string :=
  [start_title; begin_order_title] ++ map begins forks ++
  [end_order_title] ++ map ends waits ++ [end_title].
Definition nice_text (forks waits : list Z) : list string :=
  [start_title; progress_title; begin_order_title] ++ map begins forks ++
  [end_order_title] ++ map ends waits ++ [end_title].
Definition child_word (i : nat) : string :=
  (if decide (i < 7)%nat then "EASY WORK" else if decide (i < 14)%nat then "NORMAL WORK" else "HARD WORK")
  +:+ newline.

Lemma concat_singles {A B} (f : A -> B) l : concat (map (fun x => [f x]) l) = map f l.
Proof. induction l as [|x l IH]; simpl; congruence. Qed.
Lemma concat_nils {A B} (l : list A) : concat (map (fun _ => @nil B) l) = [].
Proof. by induction l. Qed.

Lemma child_task_ten i : (i < 21)%nat -> child_task (Z.of_nat i) = replicate 10 (child_word i).
Proof.
  intros Hi. unfold child_task, child_word, easy_task, normal_task, hard_task.
  assert (forall w, work EASY w = replicate 10 w /\ work NORMAL w = replicate 10 w /\
            work HARD w = replicate 10 w) as Hw by (intros w; exact (conj (work_ten EASY w eq_refl eq_refl)
    (conj (work_ten NORMAL w eq_refl eq_refl) (work_ten HARD w eq_refl eq_refl)))).
  destruct (decide (i < 7)%nat) as [H1|H1].
  { assert (Z.of_nat i / 7 = 0) as -> by (Z.div_mod_to_equations; lia). exact (proj1 (Hw _)). }
  destruct (decide (i < 14)%nat) as [H2|H2].
  { assert (Z.of_nat i / 7 = 1) as -> by (Z.div_mod_to_equations; lia). exact (proj1 (proj2 (Hw _))). }
  assert (Z.of_nat i / 7 = 2) as -> by (Z.div_mod_to_equations; lia). exact (proj2 (proj2 (Hw _))).
Qed.

Lemma exit_redirected s w : s <> EmptyString -> exit_writes (mk_stdio s w) = w ++ [s].
Proof. intros Hs. unfold exit_writes. simpl. by rewrite (proj2 (String.eqb_neq s EmptyString) Hs). Qed.
Lemma printf_printfs m s out : printf m s out = printfs m [s] out.
Proof. done. Qed.
Lemma joined_start l : joined (start_title :: l) <> EmptyString.
Proof. done. Qed.

Lemma exit_terminal w : exit_writes (mk_stdio EmptyString w) = w.
Proof. apply app_nil_r. Qed.
Lemma run_eq c w w' k k' : w = w' -> k = k' -> mk_run c w k = mk_run c w' k'.
Proof. by intros -> ->. Qed.

Section Experiments.
Context (forks waits : list Z).
Hypothesis (Hlen : List.length forks = CHILDREN).
Hypothesis (Hforks : Forall (fun pid => 0 < pid) forks) (Hwaits : Forall (fun pid => 0 < pid) waits).

Lemma cfs_terminal : cfs_main Terminal forks (waits ++ [-1]) =
  mk_run 0 (cfs_text forks waits) (imap (fun _ _ => []) forks).
Proof.
  unfold cfs_main. rewrite (fork_loop_all _ _ _ _ _ _ _ _ _ Hlen Hforks), wait_loop_all by done.
  rewrite printf_printfs, <- !printfs_app, concat_singles, printfs_terminal, exit_terminal by done.
  apply run_eq; [unfold cfs_text; cbn [app written]; by rewrite <- ?app_assoc|].
  apply imap_ext. intros j x _. by rewrite concat_singles, <- printfs_app, printfs_terminal.
Qed.

Lemma cfs_redirected : cfs_main Redirected forks (waits ++ [-1]) =
  mk_run 0 [joined (cfs_text forks waits)]
    (imap (fun i _ => [joined ([start_title; begin_order_title] ++ map begins (take i forks))]) forks).
Proof.
  unfold cfs_main. rewrite (fork_loop_all _ _ _ _ _ _ _ _ _ Hlen Hforks), wait_loop_all by done.
  rewrite printf_printfs, <- !printfs_app, concat_singles, printfs_redirected.
  cbn [pending written]. rewrite exit_redirected by apply joined_start.
  apply run_eq; [unfold cfs_text; cbn [app String.append]; by rewrite <- ?app_assoc|].
  apply imap_ext. intros j x _. rewrite concat_singles, <- printfs_app, printfs_redirected.
  unfold fork_copy. cbn [pending written]. by rewrite exit_redirected by apply joined_start.
Qed.

Hypothesis Hperm : waits ≡ₚ forks.
Lemma orders_stored : store_order forks 0 (replicate CHILDREN 0) = Ok forks /\
  store_order waits 0 (replicate CHILDREN 0) = Ok waits.
Proof.
  split; [apply (store_order_all forks [] (replicate CHILDREN 0)); exact Hlen|].
  apply (store_order_all waits [] (replicate CHILDREN 0)). rewrite Hperm. exact Hlen.
Qed.

Lemma nice_terminal : cfs_nice_main Terminal forks (waits ++ [-1]) =
  Ok (mk_run 0 (nice_text forks waits) (imap (fun i _ => replicate 10 (child_word i)) forks)).
Proof.
  unfold cfs_nice_main. rewrite (fork_loop_all _ _ _ _ _ _ _ _ _ Hlen Hforks), wait_loop_all by done.
  change ([] ++ forks) with forks. destruct orders_stored as [-> ->]. cbn [mbind res_bind].
  rewrite printf_printfs, <- !printfs_app, concat_nils, printfs_terminal, exit_terminal by done.
  f_equal. apply run_eq; [unfold nice_text; cbn [app written]; by rewrite <- ?app_assoc|].
  apply imap_ext. intros j x Hx%lookup_lt_Some. rewrite Z.add_0_l, child_task_ten by (unfold CHILDREN in *; lia).
  by rewrite concat_nils, printfs_terminal, exit_terminal.
Qed.

Lemma nice_redirected : cfs_nice_main Redirected forks (waits ++ [-1]) =
  Ok (mk_run 0 [joined (nice_text forks waits)]
    (imap (fun i _ => [joined ([start_title; progress_title] ++ replicate 10 (child_word i))]) forks)).
Proof.
  unfold cfs_nice_main. rewrite (fork_loop_all _ _ _ _ _ _ _ _ _ Hlen Hforks), wait_loop_all by done.
  change ([] ++ forks) with forks. destruct orders_stored as [-> ->]. cbn [mbind res_bind].
  rewrite printf_printfs, <- !printfs_app, concat_nils, printfs_redirected.
  cbn [pending written]. rewrite exit_redirected by apply joined_start.
  f_equal. apply run_eq; [unfold nice_text; cbn [app String.append]; by rewrite <- ?app_assoc|].
  apply imap_ext. intros j x Hx%lookup_lt_Some. rewrite Z.add_0_l, child_task_ten by (unfold CHILDREN in *; lia).
  rewrite concat_nils, !printfs_redirected. unfold fork_copy. cbn [pending written].
  rewrite exit_redirected by done. rewrite joined_app. cbn [joined foldr]. by rewrite append_nil_r.
Qed.
End Experiments.

(** C40: What the two experiments write, when every fork succeeds and every child is
    collected. On a terminal: the titles, one line per process in the order of
    creation and one in the order of termination, and from each child of
    cfs_nice.c its ten lines. Redirected to a file, every child first writes a
    second copy of what the parent had printed before its fork, because fork
    copies the buffer and exit writes it. *)
Theorem experiments_output forks waits :
  List.length forks = CHILDREN -> Forall (fun pid => 0 < pid) forks -> waits ≡ₚ forks ->
  cfs_main Terminal forks (waits ++ [-1]) =
    mk_run 0 (cfs_text forks waits) (imap (fun _ _ => []) forks) /\
  cfs_main Redirected forks (waits ++ [-1]) =
    mk_run 0 [joined (cfs_text forks waits)]
      (imap (fun i _ => [joined ([start_title; begin_order_title] ++ map begins (take i forks))]) forks) /\
  cfs_nice_main Terminal forks (waits ++ [-1]) =
    Ok (mk_run 0 (nice_text forks waits) (imap (fun i _ => replicate 10 (child_word i)) forks)) /\
  cfs_nice_main Redirected forks (waits ++ [-1]) =
    Ok (mk_run 0 [joined (nice_text forks waits)]
      (imap (fun i _ => [joined ([start_title; progress_title] ++ replicate 10 (child_word i))]) forks)).
Proof.
  intros Hl Hf Hp. assert (Forall (fun pid => 0 < pid) waits) as Hw by (by rewrite Hp).
  auto using cfs_terminal, cfs_redirected, nice_terminal, nice_redirected.
Qed.

Definition demo_forks : list Z :=
  [101; 102; 103; 104; 105; 106; 107; 108; 109; 110; 111; 112; 113; 114; 115; 116; 117; 118; 119; 120; 121].
Lemma experiments_output_witness :
  cfs_main Redirected demo_forks (demo_forks ++ [-1]) =
    mk_run 0 [joined (cfs_text demo_forks demo_forks)]
      (imap (fun i _ => [joined ([start_title; begin_order_title] ++ map begins (take i demo_forks))]) demo_forks).
Proof.
  apply (experiments_output demo_forks demo_forks); [reflexivity| |reflexivity].
  apply (bool_decide_unpack (Forall (fun pid => 0 < pid) demo_forks)). vm_compute. exact I.
Defined.
